(* ===== verification/_CoqProject ===== *)
-Q . S2P
Prelude.v
GoStrings.v
GoUtf8.v
GoEncoding.v
GoSha256.v
GoJson.v
GoTime.v
Cron.v
Tags.v
Db.v
DbBuild.v
Schedule.v
Autobuild.v
Parameters.v
Builder.v
BuildRun.v
Resources.v
ProvisionerServer.v
Unhanger.v
CancelBuild.v
Lifecycle.v
Tunnels.v
Coordinator.v
TunnelAuth.v
EntSchedule.v
Acquirer.v
CryptoKeys.v
KeyCache.v
MsgQueue.v
Pubsub.v
Entitlements.v
License.v
AgentLogs.v
Slices.v
Rbac.v
RbacPolicy.v
RoleStore.v
AuthDb.v
DbAuthz.v
SystemActors.v
DbAuthzStore.v
Cryptorand.v
ApiKey.v
DerpMap.v
TailNode.v
ConfigMaps.v
Quota.v
