(* ===== verification/Prelude.v ===== *)
(** * Verification of the wirtual server

    [wirtual] (a fork of Coder) runs remote workspaces: users create them from
    templates, provisioner daemons build them, an executor starts and stops
    them by schedule, a tailnet coordinator connects clients with workspace
    agents, and every call on the store is authorised by roles.  This library models the parts of the Go code that decide these
    things and proves them correct.  Names below are files under [src/].

    ** The parts, their files and their source

    - [Prelude]: Go's error results ([result]), machine integers, lists and
      strings, shared by all files; [GoStrings], [GoEncoding], [GoTime]: the
      pieces of Go's standard library that the code uses ([strings.Fields],
      hex, JSON text, [strconv], and [time] with its calendar and zones);
      [GoJson]: what [json.Unmarshal] reads.
    - [Db]: the store of [wirtuald/database/dbmem/dbmem.go].  [Data] has a list
      per table; a method is a function [Data -> Data * result A], with a state
      and error monad [DB].  The store's mutex makes each method one step, and
      [InTx] undoes nothing on an error, as in the code.  [DbBuild]: its methods
      for builds and for what provisioning leaves.
    - [Tags]: [provisionersdk/provisionertags.go], the tags that route jobs.
    - [Cron], [Schedule], [EntSchedule]: [wirtuald/schedule] and
      [enterprise/wirtuald/schedule].  [CalculateAutostop] computes the
      deadline and the max deadline of a build from the template's schedule and
      the user's quiet hours; the enterprise stores write the settings and
      recalculate the builds that run.
    - [Autobuild]: [wirtuald/autobuild/lifecycle_executor.go], one run over the
      workspaces, against the interface [WorkspaceBuilder].
    - [Parameters], [Builder]: [wirtualsdk/richparameters.go] and
      [wirtuald/wsbuilder/wsbuilder.go].  A [Builder] caches the rows it reads,
      so a computation is a function of the builder and of the store.
    - [BuildRun]: the builder as the executor's [WorkspaceBuilder], and the
      composition of the two.
    - [ProvisionerServer]: [wirtuald/provisionerdserver/provisionerdserver.go],
      the calls a daemon makes on its job: [UpdateJob], [FailJob], [CompleteJob]
      and [CommitQuota].  [Resources]: the rows these insert for a resource, its
      agents, scripts and applications, and the monad [SM] of the handlers: the
      store, the events they publish and the UUIDs they make.
    - [Unhanger]: [wirtuald/unhanger/detector.go], ending the jobs of daemons
      that went silent.  [CancelBuild]: [patchCancelWorkspaceBuild] of
      [wirtuald/workspacebuilds.go].
    - [Lifecycle]: all of the handlers above on one store, in any order.
    - [Quota]: [enterprise/wirtuald/workspacequota.go] and the runner's commit of a
      build's cost: what a user's workspaces cost in an organization and may cost.
    - [Acquirer]: [wirtuald/provisionerdserver/acquirer.go], how the daemons
      that wait for jobs share the queries for them.  A step relation
      interleaves its methods.
    - [Tunnels], [Coordinator], [TunnelAuth]: [tailnet/tunnel.go],
      [tailnet/coordinator.go], [tailnet/peer.go] and the address part of
      [tailnet/conn.go].
    - [DerpMap], [TailNode], [ConfigMaps]: the client's side of the network.
      [tailnet/derpmap.go] and [tailnet/convert.go], the maps of relays and the
      messages; [tailnet/node.go], which tells the coordinator of the peer's
      own node; [tailnet/configmaps.go], which follows the updates of peers and
      keeps the engine configured with them.  Loops, timers and callbacks
      interleave with the methods in step relations.
    - [MsgQueue], [Pubsub]: [wirtuald/database/pubsub/pubsub.go], the queue of a
      subscriber and the subscriptions to an event, whose calls interleave with
      those of the database's listener.
    - [Entitlements], [License]: the features of [wirtualsdk/deployment.go] and
      [enterprise/wirtuald/license/license.go], what licenses entitle to.
    - [AgentLogs]: [wirtualsdk/agentsdk/logs.go], the agent's lines and the sender
      that batches them, with [GoUtf8] for [strings.ToValidUTF8].
    - [CryptoKeys], [KeyCache]: [wirtuald/cryptokeys/rotate.go] and [cache.go],
      the signing keys, their rotation and the caches that hand them out.
    - [Slices]: [wirtuald/util/slice/slice.go] and [enterprise] helpers on
      slices as sets.
    - [Rbac], [RbacPolicy], [RoleStore]: [wirtuald/rbac], its resources, roles
      and scopes ([object_gen.go], [object.go], [roles.go], [scopes.go]), the
      policy [policy.rego] with the authorizer around it ([authz.go],
      [astvalue.go]), and [rolestore/rolestore.go], which reads custom roles
      from the store.
    - [AuthDb]: the tables of the in-memory store that hold users, members,
      custom roles, API keys and user links, and their methods.
    - [DbAuthz], [SystemActors], [DbAuthzStore]:
      [wirtuald/database/dbauthz/dbauthz.go], the store that authorises each
      call.  [DbAuthz] has its generic wrappers (a store call after, or before,
      the decision on its object), the checks of role assignment and of custom
      roles, and the methods on users and members; [SystemActors] the subjects
      of the server's own daemons and their rights; [DbAuthzStore] the methods
      the modelled components call on the store of [Db].

    - [Cryptorand], [ApiKey]: [cryptorand], the random strings;
      [wirtuald/apikey/apikey.go] and [wirtuald/httpmw/apikey.go], the keys made of
      them and the requests they authenticate; [GoSha256]: [crypto/sha256].

    ** How they interact

    The executor asks the schedules which workspace is due, and the builder
    inserts a build and a pending job; a daemon waiting in the acquirer is
    woken and takes the job from the queue in [Db], reads the payload that the
    builder wrote, and reports through [ProvisionerServer]; when it completes the
    job, the deadline of the build comes from [Schedule].  Users cancel jobs, and
    the detector ends those that hang.  [BuildRun] proves the executor and the
    builder together, and [Lifecycle] the whole: a transition relation over
    stores whose steps are the handlers' calls.  The interfaces [WorkspaceBuilder],
    [CronLib], [TemplateScheduleStore] and [UserQuietHoursScheduleStore] state
    what one part relies on in another.  The handlers run on the store of [Db];
    [DbAuthzStore] shows that the authorising store only refuses or passes on a
    call, and that the daemons of the server are not refused what the modelled
    code asks, so that the theorems on [Db] carry over to them.

    ** What the theorems show

    - Builds: a build that succeeds has made every check and appends exactly
      its rows ([build_correct]); no workspace has two active builds after a run
      of the executor ([runOnce_one_active]) and at any time of the life of the
      system when handlers do not overlap ([lifecycle_one_active]); parameters
      resolve as documented ([ValidateResolve_correct]).
    - Jobs: the payload reads back ([provision_job_roundtrip]); what failing and
      completing the job of a build change, and what they leave alone
      ([FailJob_correct], [CompleteJob_build_correct]); logs reach their
      followers ([UpdateJob_logs]); only the owner acts ([only_owner_acts]); the
      detector ends the jobs that hang and no other ([run_ends_hung],
      [heartbeat_protects]); which resources are accepted
      ([InsertWorkspaceResource_correct]).  Three defects are shown by runs that
      compute ([cancel_race_two_active], [late_completion_deletes],
      [canceled_job_acquired]).
    - Quotas: while builds do not overlap, a commit keeps the owner within the budget
      and answers with what is consumed ([quota_enforced]); overlapping builds can
      exceed it, and a refused one frees what is still used
      ([overlapping_builds_exceed_budget], [refused_build_frees_budget]).
    - Schedules: legal transitions only, no due workspace is hidden by the
      query, each owner is told once of dormancy; the deadline never exceeds
      the max deadline and the required day is the right one; settings are read
      back as written; a schedule's text parses back; a search for the next
      time ends.
    - The queue: a job is handed out once, to the first that fits; job states
      are consistent; one query per domain at a time, and a posted job wakes a
      waiting daemon.
    - The coordinator: while no tunnel is removed whose reverse exists, connected
      peers that a tunnel links know each other's node ([coordinator_agreement]),
      removal and closing clean up ([removePeer_cleans]), and always only permitted tunnels
      are opened ([authorized_requests]); removing one of two opposite tunnels
      makes both peers forget ([reverse_tunnel_forgotten]); the tunnel store refines a set of pairs.
    - The client: whenever its loop waits, the engine has exactly the peers,
      addresses, hosts, filter and relays of the state, and the loop comes to
      wait ([engine_configured]); lost peers and destinations that are not ready
      always have a timer running or its callback started ([peers_watched]), and a peer leaves only
      when disconnected or lost for long ([peer_leaves]); every change of the
      own node is told ([node_announced]).  Nodes and relay maps survive their
      messages ([NodeToProto_round_trip], [DERPMap_round_trip]), and maps of
      relays compare as documented but for named fields
      ([CompareDERPMaps_correct]).
    - Agent logs: output becomes its lines ([Write_lines]); logs are acknowledged once and in
      order, and stored without gaps, a second time only after a failing call
      ([logs_in_order]), in bounded memory and requests
      ([sender_bounds]), and the loop empties the queues ([logs_drain]).
    - Licenses: a feature has the entitlement of a license that grants it
      ([entitled_by_license]), the user limit is the best of the licenses'
      ([user_limit_best], from the order of grants, [AddFeature_best]), and use
      without a license is announced ([unlicensed_use_announced]).
    - The pubsub: a queue loses no message without an error in its place
      ([no_silent_loss], [msgQueue_refines]); an active subscription hears its
      event while cancellations of an event do not overlap ([active_hears]),
      and may be deaf when they do ([overlapping_cancellations_deafen]).
    - Keys: a rotation keeps one usable key per feature with no gap, and a key
      that is handed out is valid ([handed_out_keys_valid]); defects of the
      cache are theorems too.
    - Authorization: the policy's rules decide what the documentation says, in
      terms of the permissions of roles, scopes and access lists
      ([policy_correct]); a role of one organization gives nothing in another
      ([organizations_separate]); filtering by partial evaluation keeps the
      objects that single decisions allow ([Filter_correct]); custom roles
      expand to what was stored ([Expand_correct]).
    - Keys of users: the characters of a secret are unbiased ([unbiased_uniform]);
      a new token is the one its key is found by ([new_key_accepted]); a
      request that is let through bears a valid key of an active user and acts with
      that user's roles and the key's scope ([authenticated_requests]; a dormant user's
      is let through only if the configured activation made it active), and one with
      a valid key is let through ([valid_key_accepted]).
    - The authorising store, in the 50 methods that the modelled components call ([Op]): it returns and writes what the store under it does
      or refuses without a write ([querier_transparent]); nobody makes a custom
      role with a right they lack ([no_escalation]); only owners and the server itself change roles of
      the site ([only_owners_change_site_roles]) and only those with a right in
      an organization change the roles of its members
      ([only_admins_change_member_roles]); a dormant workspace is not built by
      anyone without a right on dormant workspaces ([dormant_workspaces_rest]);
      the subjects of the daemons suffice for their calls of these 50 methods
      ([daemons_not_refused]), but for the hang detector's on dormant workspaces
      ([hang_detector_blind]).

    Several theorems state what the code does where it differs from its
    documentation, by an example that computes.

    ** Bounds, fuel and numbers

    Integers are [Z]; 32-bit and 64-bit wrap-around is written out ([wrapu],
    [wraps]) where the code can reach it, as in build numbers and bitmaps.
    [Cron.min_loop] and [Schedule.day_loop] take fuel equal to the number of
    iterations the code's own bound allows; the theorems on them show that the
    search ends within it.  [removePeerLocked] recurses into the peers whose
    channel is full: its fuel is the number of peers, which
    [removePeer_cleans] proves to be enough.  [ReadModifyUpdate] takes the
    code's number of retries, which [Build] never uses: the in-memory store has no
    serialization errors.

    The executor's [runOnce] takes the rows one after another, where the code runs
    up to ten transactions at once; the store's mutex orders these in some way.
    An error of the network engine's [Reconfig] is only logged by the code: the
    model keeps what the engine was given.  [time.Time.Sub] saturates, as in Go,
    [strings.Fields] splits at Unicode white space, and the folding of letters is that
    of ASCII.

    ** What is not modelled

    - SQL and generated code ([queries.sql.go], the mocks, metrics and API
      documentation): the Go code only carries the statements.  The in-memory
      store has the same contract and is modelled; its tables that no modelled
      component reads are left out, and with them the wrappers of the
      authorising store around them.
    - HTTP handlers (but for cancelling a build and for authentication), the command line, the client
      library, and the dRPC services: decoding, a store call and encoding.
    - What runs outside the server or talks to the operating system: terraform,
      the workspace agent's processes and sockets, the network stack with the
      connection that dials through it, the desktop VPN.
    - The PostgreSQL coordinator, the replicas, the listener of PostgreSQL:
      their state is in the database's triggers and notifications.
    - Identity provider synchronisation, column encryption, notifications,
      statistics, health checks and telemetry: their logic is mostly in SQL, in
      JSON of third parties or in third-party libraries.
    - The rego evaluator: the policy is modelled as the rules it states, and a
      partial query as the decisions it stands for; its translation to SQL
      works on the evaluator's syntax trees.

    Third-party code is a parameter where modelled code calls it: robfig/cron,
    UUID text, the HCL evaluator, the provider's validation, the random source,
    the network address, key and JWT libraries.  Logging, metrics, tracing and
    contexts are left out throughout, but for the actor a context carries.
    Fields of rows that no modelled code reads are left out of the records. *)

From Stdlib Require Export ZArith Lia ZifyBool Bool.
From stdpp Require Export base tactics option list gmap strings.
From coqutil Require Export Datatypes.RecordSetters.
Export DoubleBraceUpdate.
#[global] Arguments constant {E} newValue _ /.
Open Scope Z_scope.

(** ** Errors: Go's [(value, error)] results *)

(** A Go call that returns [(v, nil)] is [Ok v]; one that returns a non-nil
    error is [Err msg], where [msg] is the text the code gives the error. *)
Inductive result (A : Type) : Type :=
| Ok (a : A)
| Err (msg : string).
Arguments Ok {A} _.
Arguments Err {A} _.

#[export] Instance result_ret : MRet result := fun A a => Ok a.
#[export] Instance result_bind : MBind result := fun A B f r =>
  match r with Ok a => f a | Err e => Err e end.
#[export] Instance result_fmap : FMap result := fun A B f r =>
  match r with Ok a => Ok (f a) | Err e => Err e end.

Definition is_ok {A} (r : result A) : bool :=
  match r with Ok _ => true | Err _ => false end.

(** [xerrors.Errorf("context: %w", err)]: the error is wrapped, a success is kept. *)
Definition wrap {A} (context : string) (r : result A) : result A :=
  match r with Ok a => Ok a | Err e => Err (context +:+ ": " +:+ e) end.

Section Results.
Context {A B : Type}.
Implicit Types (r : result A) (f : A -> result B).

Lemma bind_Ok r f b : (r ≫= f) = Ok b <-> exists a, r = Ok a /\ f a = Ok b.
Proof. destruct r; simpl; naive_solver. Qed.

Lemma bind_Err r f e :
  (r ≫= f) = Err e <-> r = Err e \/ exists a, r = Ok a /\ f a = Err e.
Proof. destruct r; simpl; naive_solver. Qed.

Lemma wrap_Ok c r a : wrap c r = Ok a <-> r = Ok a.
Proof. destruct r; simpl; naive_solver. Qed.

Lemma is_ok_true r : is_ok r = true <-> exists a, r = Ok a.
Proof. destruct r; simpl; naive_solver. Qed.
End Results.

(** ** Machine integers *)

(** Unsigned and two's-complement signed conversion to [w] bits. *)
Definition wrapu (w x : Z) : Z := x mod 2 ^ w.
Definition wraps (w x : Z) : Z := (x + 2 ^ (w - 1)) mod 2 ^ w - 2 ^ (w - 1).

Lemma wrapu_id w x : 0 <= x < 2 ^ w -> wrapu w x = x.
Proof. apply Z.mod_small. Qed.

Lemma wraps_id w x : 0 < w -> - 2 ^ (w - 1) <= x < 2 ^ (w - 1) -> wraps w x = x.
Proof.
  intros Hw Hx. unfold wraps.
  assert (2 ^ w = 2 * 2 ^ (w - 1)) by (rewrite <- Z.pow_succ_r by lia; f_equal; lia).
  rewrite Z.mod_small; lia.
Qed.

Lemma wrapu_range w x : 0 <= w -> 0 <= wrapu w x < 2 ^ w.
Proof. intros. apply Z.mod_pos_bound. lia. Qed.

(** A 128-bit UUID; [uuid.Nil] is 0. *)
Abbreviation uuid := N.

(** ** Strings *)

Lemma string_app_assoc (a b c : string) : ((a +:+ b) +:+ c = a +:+ b +:+ c)%string.
Proof. induction a as [|x a IH]; [done|]. exact (f_equal (String x) IH). Qed.

Lemma concat_empty_cons (x : string) (l : list string) :
  String.concat "" (x :: l) = (x +:+ String.concat "" l)%string.
Proof.
  destruct l as [|y l]; [|done]. simpl. induction x as [|a x IH]; [done|]. exact (f_equal (String a) IH).
Qed.

(** [uuid.String], of a third-party package: distinct texts without null bytes. *)
Class UuidText := { uuid_String : uuid -> string }.

(** ** Ranging over maps *)

(** The order in which [range] visits the keys of a Go map: any order of its
    keys, each once. *)
Class MapRange := {
  range {K : Type} `{Countable K} : gset K -> list K;
  range_elem {K : Type} `{Countable K} (x : K) (s : gset K) : x ∈ range s <-> x ∈ s;
  range_NoDup {K : Type} `{Countable K} (s : gset K) : NoDup (range s);
}.

(** One order of the keys: that of [elements]. *)
#[export] Instance elements_range : MapRange.
Proof.
  refine {| range K _ _ s := elements s |}.
  - intros K ? ? x s. apply elem_of_elements.
  - intros K ? ? s. apply NoDup_elements.
Defined.

(** ** Booleans *)

(** Turns the boolean connectives of a branch condition into propositions. *)
Ltac bool_to_prop :=
  repeat match goal with
  | H : _ && _ = true |- _ => apply andb_true_iff in H; destruct H
  | H : _ || _ = false |- _ => apply orb_false_iff in H; destruct H
  | H : _ || _ = true |- _ => apply orb_true_iff in H
  | H : _ && _ = false |- _ => apply andb_false_iff in H
  | H : negb _ = true |- _ => apply negb_true_iff in H
  | H : negb _ = false |- _ => apply negb_false_iff in H
  end.

(** Case analysis on every test of the goal, keeping the tests as hypotheses. *)
Ltac split_tests := repeat (case_match; simplify_eq/=).

(** ** Loops over slices *)

(** [for i, x := range l { if !p(x) { continue }; l[i] = f(x); return x }]. *)
Fixpoint update_first {A} (p : A -> bool) (f : A -> A) (l : list A) : option (A * list A) :=
  match l with
  | [] => None
  | x :: l => if p x then Some (f x, f x :: l)
              else '(y, l') ← update_first p f l; Some (y, x :: l')
  end.

(** [for _, x := range l { if p(x) { return x } }]. *)
Fixpoint find_first {A} (p : A -> bool) (l : list A) : option A :=
  match l with
  | [] => None
  | x :: l => if p x then Some x else find_first p l
  end.

Section Loops.
Context {A : Type}.
Implicit Types (p : A -> bool) (f : A -> A) (l : list A) (P : A -> Prop).

Lemma find_first_split p l x :
  find_first p l = Some x <->
  exists l1 l2, l = l1 ++ x :: l2 /\ p x = true /\ Forall (fun y => p y = false) l1.
Proof.
  split.
  - induction l as [|y l IH]; simpl; [done|]. case_match eqn:Hy; intros ?; simplify_eq.
    + by exists [], l.
    + destruct IH as (l1 & l2 & -> & ? & ?); [done|]. exists (y :: l1), l2. auto.
  - intros (l1 & l2 & -> & Hx & Hl1). induction Hl1 as [|y l1 Hy _ IH]; simpl; [by rewrite Hx|].
    by rewrite Hy.
Qed.

Lemma find_first_Some p l x : find_first p l = Some x -> x ∈ l /\ p x = true.
Proof. rewrite find_first_split. intros (l1 & l2 & -> & ? & _). set_solver. Qed.

Lemma find_first_None p l : find_first p l = None <-> Forall (fun y => p y = false) l.
Proof.
  induction l as [|y l IH]; simpl; [by split|]. rewrite Forall_cons.
  case_match eqn:Hy; [split; [done|intros [? _]; congruence]|]. rewrite IH. tauto.
Qed.

Lemma update_first_split p f l x l' :
  update_first p f l = Some (x, l') <->
  exists l1 y l2, l = l1 ++ y :: l2 /\ p y = true /\ Forall (fun z => p z = false) l1 /\
                  x = f y /\ l' = l1 ++ f y :: l2.
Proof.
  split.
  - revert l'. induction l as [|z l IH]; intros l'; simpl; [done|].
    case_match eqn:Hz; intros ?; simplify_eq/=.
    + exists [], z, l. auto.
    + destruct (update_first p f l) as [[y l'']|] eqn:E; simplify_eq/=.
      destruct (IH l'' eq_refl) as (l1 & w & l2 & -> & ? & ? & -> & ->).
      exists (z :: l1), w, l2. auto.
  - intros (l1 & y & l2 & -> & Hy & Hl1 & -> & ->).
    induction Hl1 as [|z l1 Hz _ IH]; simpl; [by rewrite Hy|]. by rewrite Hz, IH.
Qed.

Lemma find_first_app_l p l1 l2 : Forall (fun y => p y = false) l1 -> find_first p (l1 ++ l2) = find_first p l2.
Proof. induction 1 as [|y l1 Hy _ IH]; [done|]. cbn [app find_first]. by rewrite Hy. Qed.

Lemma find_first_app_none p l y : p y = false -> find_first p (l ++ [y]) = find_first p l.
Proof. intros Hy. induction l as [|x l IH]; cbn [app find_first]; [by rewrite Hy|]. by rewrite IH. Qed.

Lemma update_first_None p f l : update_first p f l = None <-> find_first p l = None.
Proof.
  induction l as [|y l IH]; simpl; [done|]. case_match; [done|].
  destruct (update_first p f l) as [[??]|]; naive_solver.
Qed.

(** A property of every element survives the update when [f] keeps it. *)
Lemma update_first_Forall P p f l x l' :
  update_first p f l = Some (x, l') ->
  (forall y, p y = true -> P y -> P (f y)) -> Forall P l -> Forall P l'.
Proof.
  intros (l1 & y & l2 & -> & Hy & _ & _ & ->)%update_first_split Hf.
  rewrite !Forall_app, !Forall_cons. naive_solver.
Qed.

(** The update relates the lists, row by row. *)
Lemma update_first_Forall2 (R : A -> A -> Prop) `{!Reflexive R} p f l x l' :
  update_first p f l = Some (x, l') -> (forall y, y ∈ l -> R y (f y)) -> Forall2 R l l'.
Proof.
  intros (l1 & y & l2 & -> & _ & _ & _ & ->)%update_first_split Hf.
  apply Forall2_app; [by apply Forall_Forall2_diag, Forall_true|]. constructor; [apply Hf; set_solver|].
  by apply Forall_Forall2_diag, Forall_true.
Qed.

Lemma update_first_ext p q f l : (forall y, p y = q y) -> update_first p f l = update_first q f l.
Proof. intros Hpq. induction l as [|y l IH]; simpl; [done|]. by rewrite Hpq, IH. Qed.

(** Updating the row of a key: the row is found under its key, the others as before. *)
Lemma find_update (key : A -> N) id f l x :
  find_first (fun a => (key a =? id)%N) l = Some x -> key (f x) = key x ->
  exists l', update_first (fun a => (key a =? id)%N) f l = Some (f x, l') /\
    forall k, find_first (fun a => (key a =? k)%N) l' =
      if (k =? id)%N then Some (f x) else find_first (fun a => (key a =? k)%N) l.
Proof.
  intros Hx Hf. induction l as [|y l IH]; simpl in *; [done|]. destruct (key y =? id)%N eqn:E.
  - injection Hx as ->. exists (f x :: l). split; [done|]. intros k. simpl. apply N.eqb_eq in E. rewrite Hf, E, N.eqb_sym.
    by destruct (k =? id)%N.
  - destruct (IH Hx) as (l' & -> & Hl). exists (y :: l'). split; [done|]. intros k. simpl. rewrite Hl.
    destruct (k =? id)%N eqn:Ek; [|done]. apply N.eqb_eq in Ek as ->. by rewrite E.
Qed.

Lemma update_first_fmap {B} (g : A -> B) p f l x l' :
  update_first p f l = Some (x, l') -> (forall y, g (f y) = g y) ->
  g <$> l' = g <$> l.
Proof.
  intros (l1 & y & l2 & -> & _ & _ & _ & ->)%update_first_split Hg.
  by rewrite !fmap_app, !fmap_cons, Hg.
Qed.
End Loops.

(** ** Unique keys *)

Lemma NoDup_fmap_elem_of_inj {A B} (f : A -> B) (l : list A) x y :
  NoDup (f <$> l) -> x ∈ l -> y ∈ l -> f x = f y -> x = y.
Proof.
  intros Hnd [i Hi]%list_elem_of_lookup [j Hj]%list_elem_of_lookup Heq.
  assert (i = j) as ->; [|congruence].
  apply (NoDup_lookup _ _ _ (f x) Hnd); rewrite list_lookup_fmap;
    [by rewrite Hi|rewrite Hj; simpl; congruence].
Qed.
