(* ===== verification/GoStrings.v ===== *)
(** * Go's [strings] package, as far as the repository's parsers use it *)

From S2P Require Import Prelude.
From Stdlib Require Import Ascii String.
Open Scope Z_scope.

Definition bytes (l : list nat) : string := fold_right (fun n s => String (ascii_of_nat n) s) EmptyString l.

(** White space, as [unicode.IsSpace] has it, in UTF-8: the ASCII characters, and
    U+0085, U+00A0, U+1680, U+2000 to U+200A, U+2028, U+2029, U+202F, U+205F and
    U+3000.  Such a sequence of bytes begins where a rune does whatever is before it, as
    its first byte cannot be inside a rune. *)
Definition spaces : list string :=
  bytes <$> ([[9]; [10]; [11]; [12]; [13]; [32]; [194; 133]; [194; 160]; [225; 154; 128]] ++
    ((fun n => [226; 128; n]) <$> [128; 129; 130; 131; 132; 133; 134; 135; 136; 137; 138; 168; 169; 175]) ++
    [[226; 129; 159]; [227; 128; 128]])%nat.

Fixpoint starts_with (p s : string) : bool :=
  match p, s with
  | EmptyString, _ => true
  | String a p, String b s => Ascii.eqb a b && starts_with p s
  | _, _ => false
  end.

(** The bytes of the white space a text starts with; none is 0. *)
Definition space_width (s : string) : nat :=
  match List.find (fun p => starts_with p s) spaces with Some p => String.length p | None => O end.

(** The word the text starts with (empty when it starts with a space), and the
    words after it, from [skip] bytes on. *)
Fixpoint fields_aux (skip : nat) (s : string) : string * list string :=
  match s with
  | EmptyString => (""%string, [])
  | String a t =>
      match skip with
      | Datatypes.S skip => fields_aux skip t
      | O =>
          match space_width s with
          | O => let '(w, ws) := fields_aux O t in (String a w, ws)
          | Datatypes.S skip => let '(w, ws) := fields_aux skip t in (""%string, if String.eqb w "" then ws else w :: ws)
          end
      end
  end.

(** [strings.Fields]. *)
Definition Fields (s : string) : list string :=
  let '(w, ws) := fields_aux O s in if String.eqb w "" then ws else w :: ws.

(** [strings.Join]. *)
Definition Join (ws : list string) (sep : string) : string := String.concat sep ws.

Definition HasPrefix (s p : string) : bool := String.prefix p s.

(** [strings.TrimSpace(s) == ""]: there is nothing but white space. *)
Definition blank (s : string) : bool := match Fields s with [] => true | _ => false end.

(** [strings.Split] on a one-character separator. *)
Fixpoint Split (sep : ascii) (s : string) : list string :=
  match s with
  | EmptyString => [""%string]
  | String a s =>
      match Split sep s with
      | w :: ws => if Ascii.eqb a sep then ""%string :: w :: ws else String a w :: ws
      | [] => []
      end
  end.

(** [strings.ToLower], on ASCII text. *)
Definition lower (a : ascii) : ascii :=
  let n := nat_of_ascii a in if Nat.leb 65 n && Nat.leb n 90 then ascii_of_nat (n + 32) else a.
Fixpoint ToLower (s : string) : string :=
  match s with EmptyString => EmptyString | String a s => String (lower a) (ToLower s) end.

(** [strings.ToUpper], on ASCII text. *)
Definition upper (a : ascii) : ascii :=
  let n := nat_of_ascii a in if Nat.leb 97 n && Nat.leb n 122 then ascii_of_nat (n - 32) else a.
Fixpoint ToUpper (s : string) : string :=
  match s with EmptyString => EmptyString | String a s => String (upper a) (ToUpper s) end.

(** ** Words *)

Fixpoint no_space (s : string) : bool :=
  match s with EmptyString => true | String a t => Nat.eqb (space_width s) 0 && no_space t end.
Definition word (s : string) : Prop := s <> ""%string /\ no_space s = true.

Lemma append_empty_r w : (w ++ "")%string = w.
Proof. induction w as [|a w IH]; [done|]. exact (f_equal (String a) IH). Qed.

Lemma space_width_0 s : space_width s = O <-> forall p, p ∈ spaces -> starts_with p s = false.
Proof.
  unfold space_width. destruct (List.find _ _) as [p|] eqn:E.
  - apply List.find_some in E as [Hp Hs]. apply list_elem_of_In in Hp. split.
    + intros Hl. exfalso. assert (Hall : forallb (fun p => negb (Nat.eqb (String.length p) 0)) spaces = true) by (vm_compute; reflexivity).
      rewrite forallb_forall in Hall. specialize (Hall p ltac:(by apply list_elem_of_In)). by rewrite Hl in Hall.
    + intros Hall. by rewrite (Hall p Hp) in Hs.
  - split; [|done]. intros _ p Hp. apply (List.find_none _ _ E). by apply list_elem_of_In.
Qed.

Lemma prefix_append p w s : starts_with p w = true -> starts_with p (w ++ s) = true.
Proof.
  revert w. induction p as [|a p IH]; intros [|b w] Hp; [done..|].
  change (starts_with (String a p) (String b (w ++ s)) = true). cbn [starts_with] in *. apply andb_true_iff in Hp as [-> Hp]. by apply IH.
Qed.

(** A prefix of [w] and more is one of [w] or contains what comes next. *)
Lemma prefix_beyond p w c s : starts_with p (w ++ String c s) = true -> starts_with p w = true \/ exists r, p = (w ++ String c r)%string.
Proof.
  revert w. induction p as [|a p IH]; intros [|b w] Hp; [by left|by left| |].
  - right. change (Ascii.eqb a c && starts_with p s = true) in Hp. apply andb_true_iff in Hp as [->%Ascii.eqb_eq _]. by exists p.
  - change (Ascii.eqb a b && starts_with p (w ++ String c s) = true) in Hp. cbn [starts_with]. apply andb_true_iff in Hp as [->%Ascii.eqb_eq Hp].
    rewrite Ascii.eqb_refl. destruct (IH w Hp) as [?|[r ->]]; [by left|right; by exists r].
Qed.

Lemma space_width_prefix w s : space_width (w ++ s) = O -> space_width w = O.
Proof.
  rewrite !space_width_0. intros H p Hp. specialize (H p Hp). destruct (starts_with p w) eqn:E; [|done].
  by rewrite (prefix_append _ _ _ E) in H.
Qed.

(** What a blank follows is white space only by itself. *)
Lemma space_width_blank a w s : space_width (String a w) = O -> space_width (String a (w ++ String " " s)) = O.
Proof.
  rewrite !space_width_0. intros H p Hp. specialize (H p Hp). destruct (starts_with p (String a (w ++ String " " s))) eqn:E; [|done].
  destruct (prefix_beyond p (String a w) " " s E) as [?|[r ->]]; [congruence|]. exfalso.
  assert (Hall : forallb (fun p => match p with String _ t => negb (existsb (Ascii.eqb " ") (list_ascii_of_string t)) | _ => true end) spaces = true)
    by (vm_compute; reflexivity).
  rewrite forallb_forall in Hall. specialize (Hall _ (proj1 (list_elem_of_In _ _) Hp)).
  change (negb (existsb (Ascii.eqb " ") (list_ascii_of_string (w ++ String " " r))) = true) in Hall. clear -Hall.
  induction w as [|b w IH]; [by cbn in Hall|]. apply IH. change (String b w ++ String " " r)%string with (String b (w ++ String " " r)) in Hall.
  cbn [list_ascii_of_string existsb] in Hall. rewrite negb_orb in Hall. by apply andb_true_iff in Hall as [_ Hall].
Qed.

Lemma fields_aux_prefix s : exists r, s = ((fields_aux O s).1 ++ r)%string.
Proof.
  induction s as [|a s [r Hr]]; [by exists ""%string|]. cbn [fields_aux]. destruct (space_width (String a s)) as [|skip].
  - destruct (fields_aux 0 s) as [w ws]. exists r. exact (f_equal (String a) Hr).
  - exists (String a s). by destruct (fields_aux skip s).
Qed.

Lemma fields_aux_words s : forall skip, no_space (fields_aux skip s).1 = true /\ Forall word (fields_aux skip s).2.
Proof.
  induction s as [|a s IH]; intros [|skip]; [by split..| |apply IH]. cbn [fields_aux].
  destruct (space_width (String a s)) as [|skip] eqn:Ha.
  - pose proof (fields_aux_prefix s) as [r Hr]. destruct (IH O) as [Hw Hws]. destruct (fields_aux 0 s) as [w ws]. cbn [fst snd] in *.
    split; [|done]. cbn [no_space]. rewrite Hw, Hr in *. by rewrite (space_width_prefix (String a w) r Ha).
  - destruct (IH skip) as [Hw Hws]. destruct (fields_aux skip s) as [w ws]. cbn [fst snd] in *. split; [done|].
    destruct (String.eqb_spec w ""); [done|]. constructor; [by split|done].
Qed.

Lemma Fields_words s : Forall word (Fields s).
Proof.
  unfold Fields. destruct (fields_aux_words s O) as [Hw Hws]. destruct (fields_aux O s) as [w ws]; simpl in *.
  destruct (String.eqb_spec w ""); [done|]. constructor; [by split|done].
Qed.

Lemma fields_aux_word_app w s :
  no_space w = true -> s = ""%string \/ (exists t, s = String " " t) ->
  fields_aux O (w ++ s) = (String.append w (fields_aux O s).1, (fields_aux O s).2).
Proof.
  induction w as [|a w IH]; intros H Hs; [apply surjective_pairing|].
  cbn [no_space] in H. apply andb_true_iff in H as [Ha%Nat.eqb_eq Hw].
  change ((String a w ++ s)%string) with (String a (w ++ s)). cbn [fields_aux].
  assert (E : space_width (String a (w ++ s)) = O).
  { destruct Hs as [->|[t ->]]; [by rewrite append_empty_r|by apply space_width_blank]. }
  by rewrite E, IH.
Qed.

Lemma blank_word a s : space_width (String a s) = O -> blank (String a s) = false.
Proof. intros H. unfold blank, Fields. cbn [fields_aux]. rewrite H. by destruct (fields_aux 0 s). Qed.

(** A word followed by a space is the first field of the text. *)
Lemma Fields_word_space w s : word w -> Fields (w ++ String " " s) = w :: Fields s.
Proof.
  intros [Hne Hw]. unfold Fields at 1. rewrite fields_aux_word_app by eauto.
  change (fields_aux O (String " " s)) with (let '(v, vs) := fields_aux O s in (""%string, if String.eqb v "" then vs else v :: vs)).
  unfold Fields. destruct (fields_aux O s) as [v vs]; cbn [fst snd]. rewrite append_empty_r.
  destruct (String.eqb_spec w ""); [done|]. done.
Qed.

Lemma Fields_word w : word w -> Fields w = [w].
Proof.
  intros [Hne Hw]. unfold Fields. rewrite <- (append_empty_r w), fields_aux_word_app by auto. cbn [fields_aux fst snd].
  rewrite append_empty_r. by destruct (String.eqb_spec w "").
Qed.

Lemma Fields_Join ws : Forall word ws -> Fields (Join ws " ") = ws.
Proof.
  unfold Join. induction 1 as [|w ws Hw Hws IH]; [done|].
  destruct ws as [|v ws]; [by apply Fields_word|].
  change (Fields (w ++ String " " (String.concat " " (v :: ws))) = w :: v :: ws).
  rewrite Fields_word_space by done. by rewrite IH.
Qed.
