(* ===== verification/GoUtf8.v ===== *)
(** * UTF-8: [strings.ToValidUTF8] of Go's standard library *)

From Stdlib Require Import Ascii String.
From S2P Require Import Prelude GoStrings.
Local Open Scope nat_scope.

Definition between (lo hi : nat) (a : ascii) : bool := Nat.leb lo (nat_of_ascii a) && Nat.leb (nat_of_ascii a) hi.
Definition continuation : ascii -> bool := between 128 191.

(** The range of the second byte, and the number of bytes, by the first: the tables
    of [unicode/utf8]. *)
Definition first_info (a : ascii) : option (nat * nat * nat) :=
  let n := nat_of_ascii a in
  if Nat.ltb n 128 then Some (1, 0, 0)
  else if between 194 223 a then Some (2, 128, 191)
  else if Nat.eqb n 224 then Some (3, 160, 191)
  else if between 225 236 a then Some (3, 128, 191)
  else if Nat.eqb n 237 then Some (3, 128, 159)
  else if between 238 239 a then Some (3, 128, 191)
  else if Nat.eqb n 240 then Some (4, 144, 191)
  else if between 241 243 a then Some (4, 128, 191)
  else if Nat.eqb n 244 then Some (4, 128, 143)
  else None.

(** Taking [n] continuation bytes. *)
Fixpoint continuations (n : nat) (s : string) : option (string * string) :=
  match n with
  | O => Some (EmptyString, s)
  | S n => match s with
           | EmptyString => None
           | String a s => if continuation a then '(w, rest) ← continuations n s; Some (String a w, rest) else None
           end
  end.

(** [utf8.DecodeRuneInString], as the bytes of the first rune and the rest. *)
Definition decode_rune (s : string) : option (string * string) :=
  match s with
  | EmptyString => None
  | String a rest =>
      '(size, lo, hi) ← first_info a;
      match size with
      | 1 => Some (String a EmptyString, rest)
      | _ => match rest with
             | String b rest =>
                 if between lo hi b then '(w, rest) ← continuations (size - 2) rest; Some (String a (String b w), rest) else None
             | EmptyString => None
             end
      end
  end.

(** [strings.ToValidUTF8]: each run of bytes that are not part of a rune becomes the
    replacement.  The fuel is the length. *)
Fixpoint to_valid (fuel : nat) (replacement : string) (invalid : bool) (s : string) : string :=
  match fuel with
  | O => EmptyString
  | S fuel =>
      match s with
      | EmptyString => EmptyString
      | String a rest =>
          match decode_rune s with
          | Some (w, rest) => w +:+ to_valid fuel replacement false rest
          | None => (if invalid then EmptyString else replacement) +:+ to_valid fuel replacement true rest
          end
      end
  end.
Definition ToValidUTF8 (s replacement : string) : string := to_valid (String.length s) replacement false s.

(** [utf8.ValidString] *)
Fixpoint valid_fuel (fuel : nat) (s : string) : bool :=
  match s, fuel with
  | EmptyString, _ => true
  | _, O => false
  | _, S fuel => match decode_rune s with Some (_, rest) => valid_fuel fuel rest | None => false end
  end.
Definition ValidString (s : string) : bool := valid_fuel (String.length s) s.

(** * Theorems *)

Lemma length_app_str (a b : string) : String.length (a +:+ b) = String.length a + String.length b.
Proof. induction a as [|x a IH]; simpl; [done|]. by rewrite <- IH. Qed.

Lemma continuations_app n s w rest : continuations n s = Some (w, rest) ->
  s = w +:+ rest /\ String.length w = n /\ forall t, continuations n (w +:+ t) = Some (w, t).
Proof.
  revert s w rest. induction n as [|n IH]; intros s w rest Hs; simpl in Hs; [by injection Hs as <- <-|].
  destruct s as [|a s]; [done|]. destruct (continuation a) eqn:Ha; [|done].
  destruct (continuations n s) as [[w' rest']|] eqn:E; [|done]. injection Hs as <- <-.
  destruct (IH _ _ _ E) as (-> & <- & Ht). split_and!; [done|done|]. intros t. simpl. rewrite Ha. by rewrite Ht.
Qed.

Lemma decode_rune_app s w rest : decode_rune s = Some (w, rest) ->
  s = w +:+ rest /\ 0 < String.length w /\ forall t, decode_rune (w +:+ t) = Some (w, t).
Proof.
  destruct s as [|a s]; [done|]. unfold decode_rune. destruct (first_info a) as [[[size lo] hi]|] eqn:Ha; [|done]. simpl.
  destruct size as [|[|size]].
  2: { intros [= <- <-]. split_and!; [done|simpl; lia|]. intros t. simpl. by rewrite Ha. }
  all: destruct s as [|b s]; [done|]; destruct (between lo hi b) eqn:Hb; [|done].
  all: destruct (continuations _ s) as [[w' rest']|] eqn:E; [|done]; simpl; intros [= <- <-].
  all: destruct (continuations_app _ _ _ _ E) as (-> & Hl & Ht); split_and!; [done|simpl; lia|]; intros t.
  all: change (String a (String b w') +:+ t) with (String a (String b (w' +:+ t))); unfold decode_rune; rewrite Ha.
  all: cbn [mbind option_bind]; rewrite Hb, Ht; done.
Qed.

(** More fuel than the length changes nothing. *)
Lemma valid_fuel_enough f1 f2 s : String.length s <= f1 -> String.length s <= f2 -> valid_fuel f1 s = valid_fuel f2 s.
Proof.
  revert f2 s. induction f1 as [|f1 IH]; intros [|f2] [|a s] H1 H2; try done; try (simpl in *; lia).
  cbn [valid_fuel]. destruct (decode_rune (String a s)) as [[w rest]|] eqn:E; [|done].
  destruct (decode_rune_app _ _ _ E) as (Hs & Hw & _). apply (f_equal String.length) in Hs. rewrite length_app_str in Hs. simpl in Hs, H1, H2.
  apply IH; lia.
Qed.

Lemma ValidString_rune w s : decode_rune (w +:+ s) = Some (w, s) -> ValidString (w +:+ s) = ValidString s.
Proof.
  intros Hd. destruct (decode_rune_app _ _ _ Hd) as (_ & Hw & _). destruct w as [|a w]; [simpl in Hw; lia|].
  unfold ValidString. change (String a w +:+ s) with (String a (w +:+ s)) in *. cbn [String.length valid_fuel]. rewrite Hd.
  apply valid_fuel_enough; [rewrite length_app_str; lia|lia].
Qed.

(** Texts are valid together. *)
Lemma ValidString_app s t : ValidString s = true -> ValidString (s +:+ t) = ValidString t.
Proof.
  remember (String.length s) as n eqn:Hn. revert s Hn. induction (lt_wf n) as [n _ IH]. intros s -> Hv.
  destruct s as [|a s]; [done|]. unfold ValidString in Hv. cbn [String.length valid_fuel] in Hv.
  destruct (decode_rune (String a s)) as [[w rest]|] eqn:E; [|done]. destruct (decode_rune_app _ _ _ E) as (Hs & Hw & Ht).
  assert (Hl : String.length (String a s) = String.length w + String.length rest) by (by rewrite Hs, length_app_str). rewrite Hs.
  rewrite string_app_assoc, ValidString_rune by apply Ht. apply (IH (String.length rest)); [lia|done|].
  unfold ValidString. rewrite <- Hv. apply valid_fuel_enough; [lia|]. simpl in Hl. lia.
Qed.

Lemma to_valid_valid fuel replacement invalid s : ValidString replacement = true -> ValidString (to_valid fuel replacement invalid s) = true.
Proof.
  intros Hr. revert invalid s. induction fuel as [|fuel IH]; intros invalid s; [done|]. cbn [to_valid]. destruct s as [|a s]; [done|].
  destruct (decode_rune (String a s)) as [[w rest]|] eqn:E.
  - destruct (decode_rune_app _ _ _ E) as (_ & _ & Ht). rewrite ValidString_rune; [apply IH|apply Ht].
  - destruct invalid; [apply IH|]. rewrite ValidString_app by done. apply IH.
Qed.

(** Repairing a text makes it valid, and leaves a valid one as it is. *)
Lemma ToValidUTF8_valid s replacement : ValidString replacement = true -> ValidString (ToValidUTF8 s replacement) = true.
Proof. apply to_valid_valid. Qed.

Lemma ToValidUTF8_id s replacement : ValidString s = true -> ToValidUTF8 s replacement = s.
Proof.
  unfold ToValidUTF8, ValidString. generalize false. generalize (le_n (String.length s)). generalize (String.length s) at 2 3 4 as fuel.
  intros fuel. revert s. induction fuel as [|fuel IH]; intros s Hl invalid Hv; destruct s as [|a s]; try done.
  cbn [to_valid valid_fuel] in *. destruct (decode_rune (String a s)) as [[w rest]|] eqn:E; [|done].
  destruct (decode_rune_app _ _ _ E) as (Hs & Hw & _). rewrite Hs. f_equal. apply IH; [|done].
  apply (f_equal String.length) in Hs. rewrite length_app_str in Hs. simpl in Hs, Hl. lia.
Qed.
