(* ===== verification/GoEncoding.v ===== *)
(** * Go's [encoding/hex], [encoding/json] and [strconv], as far as the repository uses them

    [hex.EncodeToString], [hex.DecodeString], [strconv.FormatInt] in base 10 and
    [strconv.ParseInt] and [strconv.Atoi], of the language's
    standard library. *)

From S2P Require Import Prelude.
From Stdlib Require Import Ascii String Strings.Byte DecimalString DecimalZ DecimalFacts.
Open Scope Z_scope.

(** ** Hexadecimal *)

Definition hextable : string := "0123456789abcdef".

(** The digit of a value below 16, and the value of a digit in either case. *)
Definition hex_digit (n : nat) : ascii := default "0"%char (String.get n hextable).

Definition hex_value (a : ascii) : option nat :=
  let n := nat_of_ascii a in
  if Nat.leb 48 n && Nat.leb n 57 then Some (n - 48)%nat
  else if Nat.leb 97 n && Nat.leb n 102 then Some (n - 87)%nat
  else if Nat.leb 65 n && Nat.leb n 70 then Some (n - 55)%nat
  else None.

Definition hex_byte (b : byte) : string :=
  let n := nat_of_ascii (ascii_of_byte b) in
  String (hex_digit (Nat.div n 16)) (String (hex_digit (Nat.modulo n 16)) EmptyString).

Definition EncodeToString (l : list byte) : string := String.concat "" (hex_byte <$> l).

Fixpoint DecodeString (s : string) : result (list byte) :=
  match s with
  | EmptyString => Ok []
  | String a EmptyString =>
      match hex_value a with
      | None => Err "encoding/hex: invalid byte"
      | Some _ => Err "encoding/hex: odd length hex string"
      end
  | String a (String b s) =>
      match hex_value a, hex_value b with
      | Some x, Some y =>
          l ← DecodeString s;
          Ok (byte_of_ascii (ascii_of_nat (16 * x + y)) :: l)
      | _, _ => Err "encoding/hex: invalid byte"
      end
  end.

Lemma hex_byte_decode b s :
  DecodeString (hex_byte b +:+ s) = (l ← DecodeString s; Ok (b :: l)).
Proof. destruct b; reflexivity. Qed.

Lemma EncodeToString_cons b l : EncodeToString (b :: l) = hex_byte b +:+ EncodeToString l.
Proof. unfold EncodeToString. rewrite fmap_cons. apply concat_empty_cons. Qed.

(** Decoding what was encoded gives the bytes back. *)
Lemma Decode_Encode l : DecodeString (EncodeToString l) = Ok l.
Proof.
  induction l as [|b l IH]; [done|].
  rewrite EncodeToString_cons, hex_byte_decode, IH. done.
Qed.

Lemma EncodeToString_nonempty l : l <> [] -> EncodeToString l <> ""%string.
Proof. destruct l; [done|]. rewrite EncodeToString_cons. done. Qed.

(** ** JSON *)

(** The text of a string in [encoding/json], on ASCII text: control characters,
    the quote, the backslash and the characters HTML reads are escaped. *)
Definition dquote : string := String (ascii_of_nat 34) EmptyString.

Definition json_char (a : ascii) : string :=
  let n := nat_of_ascii a in
  if Nat.eqb n 34 then String "\" dquote
  else if Nat.eqb n 92 then "\\"
  else if Nat.eqb n 8 then "\b" else if Nat.eqb n 12 then "\f" else if Nat.eqb n 10 then "\n"
  else if Nat.eqb n 13 then "\r" else if Nat.eqb n 9 then "\t"
  else if Nat.ltb n 32 || Nat.eqb n 60 || Nat.eqb n 62 || Nat.eqb n 38 then "\u00" +:+ hex_byte (byte_of_ascii a)
  else String a EmptyString.

Fixpoint json_chars (s : string) : string :=
  match s with EmptyString => EmptyString | String a s => json_char a +:+ json_chars s end.

Definition json_string (s : string) : string := dquote +:+ json_chars s +:+ dquote.

(** An object's text, from its members' names and texts. *)
Definition json_object (l : list (string * string)) : string :=
  "{" +:+ String.concat "," ((fun '(k, v) => json_string k +:+ ":" +:+ v) <$> l) +:+ "}".

(** [strconv.Quote], the verb q of [fmt], on ASCII text. *)
Definition quote_char (a : ascii) : string :=
  let n := nat_of_ascii a in
  if Nat.eqb n 34 then String "\" dquote
  else if Nat.eqb n 92 then "\\"
  else if Nat.eqb n 7 then "\a" else if Nat.eqb n 8 then "\b" else if Nat.eqb n 12 then "\f" else if Nat.eqb n 10 then "\n"
  else if Nat.eqb n 13 then "\r" else if Nat.eqb n 9 then "\t" else if Nat.eqb n 11 then "\v"
  else if Nat.ltb n 32 || Nat.eqb n 127 then "\x" +:+ hex_byte (byte_of_ascii a)
  else String a EmptyString.

Fixpoint quote_chars (s : string) : string :=
  match s with EmptyString => EmptyString | String a s => quote_char a +:+ quote_chars s end.

Definition Quote (s : string) : string := dquote +:+ quote_chars s +:+ dquote.

(** ** Decimal numbers *)

Definition FormatInt (z : Z) : string := NilZero.string_of_int (Z.to_int z).

(** [strconv.ParseInt(s, 10, bits)]: digits after an optional sign. *)
Definition ParseInt (bits : Z) (s : string) : result Z :=
  let parsed :=
    match s with
    | String "+" s => Decimal.Pos <$> NilZero.uint_of_string s
    | _ => NilZero.int_of_string s
    end in
  match parsed with
  | None => Err "invalid syntax"
  | Some i =>
      let z := Z.of_int i in
      if (- 2 ^ (bits - 1) <=? z) && (z <? 2 ^ (bits - 1)) then Ok z else Err "value out of range"
  end.
Definition ParseInt32 (s : string) : result Z := ParseInt 32 s.
(** [strconv.Atoi], on 64-bit integers. *)
Definition Atoi (s : string) : result Z := ParseInt 64 s.

Lemma uint_no_plus d s : NilZero.string_of_uint d <> String "+" s.
Proof. by destruct d. Qed.

Lemma int_of_string_FormatInt z : NilZero.int_of_string (FormatInt z) = Some (Z.to_int z).
Proof.
  apply NilZero.isi; destruct z; simpl; try done; intros [= E]; by destruct (DecimalPos.Unsigned.to_uint_nonnil p).
Qed.

Lemma ParseInt_FormatInt bits z : - 2 ^ (bits - 1) <= z < 2 ^ (bits - 1) -> ParseInt bits (FormatInt z) = Ok z.
Proof.
  intros Hz. unfold ParseInt. pose proof (int_of_string_FormatInt z) as E.
  destruct (FormatInt z) as [|a s] eqn:Hs.
  - rewrite E, of_to. by replace (_ && _) with true by lia.
  - assert (Ha : a <> "+"%char).
    { intros ->. unfold FormatInt in Hs. destruct z; simpl in Hs; try discriminate Hs; by apply uint_no_plus in Hs. }
    replace (match a with _ => _ end) with (NilZero.int_of_string (String a s)).
    + rewrite E, of_to. by replace (_ && _) with true by lia.
    + destruct a as [[] [] [] [] [] [] [] []]; try reflexivity. by destruct Ha.
Qed.
