(* ===== verification/GoSha256.v ===== *)
(** * [crypto/sha256] of Go's standard library *)

From Stdlib Require Import Ascii Strings.Byte.
From S2P Require Import Prelude GoStrings GoEncoding.
Local Open Scope string_scope.
Local Open Scope list_scope.
Local Open Scope Z_scope.

Definition rotr (x n : Z) : Z := Z.lor (Z.shiftr x n) (wrapu 32 (Z.shiftl x (32 - n))).
Definition add32 (l : list Z) : Z := wrapu 32 (foldr Z.add 0 l).

(** The constants: the first 32 bits of the fractional parts of the cube roots of the
    first 64 primes, and of the square roots of the first eight. *)
Definition is_prime (n : nat) : bool := forallb (fun d => negb (Nat.eqb (n mod d) 0)) (seq 2 (n - 2)).
Definition first_primes (count : nat) : list Z := take count (Z.of_nat <$> List.filter is_prime (seq 2 310)).

(** The bits of the greatest [r] with [r^3 <= n], from bit [fuel - 1] down. *)
Fixpoint cube_root (fuel : nat) (n r : Z) : Z :=
  match fuel with
  | O => r
  | S fuel => let r' := r + Z.shiftl 1 (Z.of_nat fuel) in cube_root fuel n (if r' * r' * r' <=? n then r' else r)
  end.

Definition round_constants : list Z :=
  Eval vm_compute in (fun p => wrapu 32 (cube_root 36 (Z.shiftl p 96) 0)) <$> first_primes 64.
Definition initial_hash : list Z :=
  Eval vm_compute in (fun p => wrapu 32 (Z.sqrt (Z.shiftl p 64))) <$> first_primes 8.

Definition byte_of_Z (z : Z) : byte := default x00 (Byte.of_N (Z.to_N (z mod 256))).
Definition bytes_of (count : nat) (z : Z) : list byte :=
  (fun i => byte_of_Z (Z.shiftr z (8 * Z.of_nat i))) <$> reverse (seq 0 count).

(** The message, a one bit, zeros up to eight bytes before the end of a block, and
    its length in bits. *)
Definition pad (message : list byte) : list byte :=
  message ++ [x80] ++ replicate ((119 - length message mod 64) mod 64) x00
          ++ bytes_of 8 (8 * Z.of_nat (length message)).

Fixpoint words (l : list byte) : list Z :=
  match l with
  | a :: b :: c :: d :: l => foldl (fun n x => n * 256 + Z.of_N (Byte.to_N x)) 0 [a; b; c; d] :: words l
  | _ => []
  end.

(** The schedule, last word first. *)
Fixpoint extend (n : nat) (w : list Z) : list Z :=
  match n with
  | O => reverse w
  | S n =>
      let at_ i := nth i w 0 in
      let s0 := Z.lxor (Z.lxor (rotr (at_ 14%nat) 7) (rotr (at_ 14%nat) 18)) (Z.shiftr (at_ 14%nat) 3) in
      let s1 := Z.lxor (Z.lxor (rotr (at_ 1%nat) 17) (rotr (at_ 1%nat) 19)) (Z.shiftr (at_ 1%nat) 10) in
      extend n (add32 [at_ 15%nat; s0; at_ 6%nat; s1] :: w)
  end.

Definition sha_round (state : list Z) (kw : Z * Z) : list Z :=
  match state with
  | [a; b; c; d; e; f; g; h] =>
      let S1 := Z.lxor (Z.lxor (rotr e 6) (rotr e 11)) (rotr e 25) in
      let ch := Z.lxor (Z.land e f) (Z.land (Z.lxor e 0xffffffff) g) in
      let t1 := add32 [h; S1; ch; kw.1; kw.2] in
      let S0 := Z.lxor (Z.lxor (rotr a 2) (rotr a 13)) (rotr a 22) in
      let maj := Z.lxor (Z.lxor (Z.land a b) (Z.land a c)) (Z.land b c) in
      [add32 [t1; S0; maj]; a; b; c; add32 [d; t1]; e; f; g]
  | _ => state
  end.

Definition block (state : list Z) (w : list Z) : list Z :=
  zip_with (fun x y => add32 [x; y]) state (foldl sha_round state (zip round_constants (extend 48 (reverse w)))).

Fixpoint blocks (fuel : nat) (state : list Z) (w : list Z) : list Z :=
  match fuel, w with
  | S fuel, _ :: _ => blocks fuel (block state (take 16 w)) (drop 16 w)
  | _, _ => state
  end.

(** [sha256.Sum256] of a text.  The fuel is the number of words, which is more than
    that of blocks. *)
Definition Sum256 (s : string) : list byte :=
  let w := words (pad (String.list_byte_of_string s)) in
  blocks (length w) initial_hash w ≫= bytes_of 4.

(** The vectors of FIPS 180-2. *)
Example Sum256_vectors :
  EncodeToString (Sum256 "") = "e3b0c44298fc1c149afbf4c8996fb92427ae41e4649b934ca495991b7852b855" /\
  EncodeToString (Sum256 "abc") = "ba7816bf8f01cfea414140de5dae2223b00361a396177a9cb410ff61f20015ad" /\
  EncodeToString (Sum256 "abcdbcdecdefdefgefghfghighijhijkijkljklmklmnlmnomnopnopq")
    = "248d6a61d20638b8e5c026930c3e6039a33ce45964ff2167f6ecedd419db06c1".
Proof. by vm_compute. Qed.
