(* ===== verification/GoJson.v ===== *)
(** * Reading JSON: Go's [encoding/json]

    The syntax of JSON values and what [json.Unmarshal] reads from them, as far
    as the payloads of provisioner jobs use it; the texts that are written are in
    [GoEncoding].  Nesting deeper than Go allows (10000) is not considered. *)

From Stdlib Require Import Ascii String Strings.Byte.
From S2P Require Import Prelude GoStrings GoEncoding.
Open Scope Z_scope.

(** A number keeps its text. *)
Inductive json :=
| JNull
| JBool (b : bool)
| JNumber (text : string)
| JString (s : string)
| JArray (l : list json)
| JObject (l : list (string * json)).

(** ** Scanning *)

Definition json_space (a : ascii) : bool :=
  let n := nat_of_ascii a in Nat.eqb n 32 || Nat.eqb n 9 || Nat.eqb n 10 || Nat.eqb n 13.

Fixpoint skip_space (s : string) : string :=
  match s with
  | String a s' => if json_space a then skip_space s' else s
  | EmptyString => EmptyString
  end.

Definition hex4 (a b c d : ascii) : option Z :=
  a ← hex_value a; b ← hex_value b; c ← hex_value c; d ← hex_value d;
  Some (Z.of_nat a * 4096 + Z.of_nat b * 256 + Z.of_nat c * 16 + Z.of_nat d).

Definition byte_text (n : Z) (s : string) : string := String (ascii_of_nat (Z.to_nat n)) s.

(** The UTF-8 text of a code point, before [s]; half of a surrogate pair is U+FFFD. *)
Definition utf8 (c : Z) (s : string) : string :=
  let c := if (55296 <=? c) && (c <? 57344) then 65533 else c in
  if c <? 128 then byte_text c s
  else if c <? 2048 then byte_text (192 + c / 64) (byte_text (128 + c mod 64) s)
  else if c <? 65536 then
    byte_text (224 + c / 4096) (byte_text (128 + (c / 64) mod 64) (byte_text (128 + c mod 64) s))
  else byte_text (240 + c / 262144) (byte_text (128 + (c / 4096) mod 64)
         (byte_text (128 + (c / 64) mod 64) (byte_text (128 + c mod 64) s))).

(** The first half of a surrogate pair, and the code point of a pair. *)
Definition high_half (x : Z) : bool := (55296 <=? x) && (x <? 56320).
Definition surrogates (hi lo : Z) : option Z :=
  if (56320 <=? lo) && (lo <? 57344)
  then Some (65536 + (hi - 55296) * 1024 + (lo - 56320)) else None.

(** The character of a one-letter escape. *)
Definition escape (a : ascii) : option ascii :=
  let n := nat_of_ascii a in
  if Nat.eqb n 34 || Nat.eqb n 92 || Nat.eqb n 47 then Some a
  else if Nat.eqb n 98 then Some (ascii_of_nat 8)
  else if Nat.eqb n 102 then Some (ascii_of_nat 12)
  else if Nat.eqb n 110 then Some (ascii_of_nat 10)
  else if Nat.eqb n 114 then Some (ascii_of_nat 13)
  else if Nat.eqb n 116 then Some (ascii_of_nat 9)
  else None.

Definition quote : ascii := ascii_of_nat 34.
Definition backslash : ascii := ascii_of_nat 92.

(** The characters of a string after its opening quote, and the text after it. *)
Fixpoint scan_chars (s : string) : option (string * string) :=
  match s with
  | EmptyString => None
  | String a s =>
      if Ascii.eqb a quote then Some (EmptyString, s)
      else if Nat.ltb (nat_of_ascii a) 32 then None
      else if negb (Ascii.eqb a backslash) then '(t, rest) ← scan_chars s; Some (String a t, rest)
      else
        match s with
        | String "u" (String a (String b (String c (String d s1)))) =>
            x ← hex4 a b c d;
            if negb (high_half x) then '(t, rest) ← scan_chars s1; Some (utf8 x t, rest)
            else
              match s1 with
              | String e (String "u" (String a (String b (String c (String d s2))))) =>
                  match (if Ascii.eqb e backslash then y ← hex4 a b c d; surrogates x y else None) with
                  | Some z => '(t, rest) ← scan_chars s2; Some (utf8 z t, rest)
                  | None => '(t, rest) ← scan_chars s1; Some (utf8 x t, rest)
                  end
              | _ => '(t, rest) ← scan_chars s1; Some (utf8 x t, rest)
              end
        | String a s => a ← escape a; '(t, rest) ← scan_chars s; Some (String a t, rest)
        | EmptyString => None
        end
  end.

Definition digit (a : ascii) : bool := let n := nat_of_ascii a in Nat.leb 48 n && Nat.leb n 57.

Fixpoint scan_digits (s : string) : string * string :=
  match s with
  | String a s' => if digit a then let '(d, rest) := scan_digits s' in (String a d, rest) else (EmptyString, s)
  | EmptyString => (EmptyString, EmptyString)
  end.

(** One or more digits. *)
Definition digits1 (s : string) : option (string * string) :=
  match scan_digits s with (EmptyString, _) => None | r => Some r end.

(** The integer, fraction and exponent parts of a number. *)
Definition scan_integer (s : string) : option (string * string) :=
  match s with
  | String "0" s => Some ("0"%string, s)
  | _ => digits1 s
  end.
Definition scan_fraction (s : string) : option (string * string) :=
  match s with
  | String "." s => '(d, rest) ← digits1 s; Some ("." +:+ d, rest)
  | _ => Some (""%string, s)
  end.
Definition scan_exponent (s : string) : option (string * string) :=
  match s with
  | String ("e" as e) s | String ("E" as e) s =>
      match s with
      | String ("+" as g) s | String ("-" as g) s => '(d, rest) ← digits1 s; Some (String e (String g d), rest)
      | _ => '(d, rest) ← digits1 s; Some (String e d, rest)
      end
  | _ => Some (""%string, s)
  end.
Definition scan_number (s : string) : option (string * string) :=
  let '(sign, s) := match s with String "-" s => ("-"%string, s) | _ => (""%string, s) end in
  '(i, s) ← scan_integer s; '(f, s) ← scan_fraction s; '(e, s) ← scan_exponent s;
  Some (sign +:+ i +:+ f +:+ e, s).

(** A literal at the start of a text, and what follows it. *)
Fixpoint strip (p s : string) : option string :=
  match p, s with
  | EmptyString, _ => Some s
  | String a p, String b s => if Ascii.eqb a b then strip p s else None
  | _, EmptyString => None
  end.

(** ** Values

    The fuel bounds the values and members read, of which a text has at most
    its length. *)
Fixpoint scan_value (fuel : nat) (s : string) : option (json * string) :=
  match fuel with
  | O => None
  | S fuel =>
      match skip_space s with
      | String "{" s =>
          match skip_space s with
          | String "}" s => Some (JObject [], s)
          | s => '(l, rest) ← scan_members fuel s; Some (JObject l, rest)
          end
      | String "[" s =>
          match skip_space s with
          | String "]" s => Some (JArray [], s)
          | s => '(l, rest) ← scan_elements fuel s; Some (JArray l, rest)
          end
      | String a s' =>
          if Ascii.eqb a quote then '(t, rest) ← scan_chars s'; Some (JString t, rest)
          else match strip "true" (String a s'), strip "false" (String a s'), strip "null" (String a s') with
               | Some rest, _, _ => Some (JBool true, rest)
               | _, Some rest, _ => Some (JBool false, rest)
               | _, _, Some rest => Some (JNull, rest)
               | _, _, _ => '(t, rest) ← scan_number (String a s'); Some (JNumber t, rest)
               end
      | EmptyString => None
      end
  end
with scan_members (fuel : nat) (s : string) : option (list (string * json) * string) :=
  match fuel with
  | O => None
  | S fuel =>
      match skip_space s with
      | String a s =>
          if negb (Ascii.eqb a quote) then None
          else
            '(name, s) ← scan_chars s;
            match skip_space s with
            | String ":" s =>
                '(v, s) ← scan_value fuel s;
                match skip_space s with
                | String "," s => '(l, rest) ← scan_members fuel s; Some ((name, v) :: l, rest)
                | String "}" s => Some ([(name, v)], s)
                | _ => None
                end
            | _ => None
            end
      | EmptyString => None
      end
  end
with scan_elements (fuel : nat) (s : string) : option (list json * string) :=
  match fuel with
  | O => None
  | S fuel =>
      '(v, s) ← scan_value fuel s;
      match skip_space s with
      | String "," s => '(l, rest) ← scan_elements fuel s; Some (v :: l, rest)
      | String "]" s => Some ([v], s)
      | _ => None
      end
  end.

(** The value a text is. *)
Definition parse_json (s : string) : result json :=
  match scan_value (S (String.length s)) s with
  | Some (v, rest) => match skip_space rest with EmptyString => Ok v | _ => Err "invalid character after top-level value" end
  | None => Err "invalid character or unexpected end of JSON input"
  end.

(** ** [json.Unmarshal] *)

(** Whether a member is for a field: names are compared without regard to case. *)
Definition for_field (name member : string) : bool := String.eqb (ToLower name) (ToLower member).

(** A struct is filled member by member; unknown members are skipped. *)
Fixpoint fill {A} (set : string -> json -> A -> result A) (l : list (string * json)) (a : A) : result A :=
  match l with
  | [] => Ok a
  | (name, v) :: l => a ← set name v a; fill set l a
  end.

Definition unmarshal_struct {A} (set : string -> json -> A -> result A) (zero : A) (v : json) : result A :=
  match v with
  | JObject l => fill set l zero
  | JNull => Ok zero
  | _ => Err "cannot unmarshal value into Go struct"
  end.

(** A value into a field that holds [old]; null leaves it. *)
Definition unmarshal_string (v : json) (old : string) : result string :=
  match v with JString s => Ok s | JNull => Ok old | _ => Err "cannot unmarshal value into Go value of type string" end.
Definition unmarshal_bool (v : json) (old : bool) : result bool :=
  match v with JBool b => Ok b | JNull => Ok old | _ => Err "cannot unmarshal value into Go value of type bool" end.

Fixpoint unmarshal_all {A} (f : json -> result A) (l : list json) : result (list A) :=
  match l with
  | [] => Ok []
  | v :: l => a ← f v; r ← unmarshal_all f l; Ok (a :: r)
  end.
Definition unmarshal_slice {A} (f : json -> result A) (v : json) : result (list A) :=
  match v with JArray l => unmarshal_all f l | JNull => Ok [] | _ => Err "cannot unmarshal value into Go slice" end.

(** [uuid.UUID] reads a string through its [UnmarshalText], which parses it. *)
Class UuidParse := { uuid_Parse : string -> result uuid }.
Definition unmarshal_uuid `{UuidParse} (v : json) (old : uuid) : result uuid :=
  match v with JString s => uuid_Parse s | JNull => Ok old | _ => Err "cannot unmarshal value into Go value of type uuid.UUID" end.

(** ** Reading what was written *)

Lemma scan_json_char a s :
  scan_chars (json_char a +:+ s) = '(t, rest) ← scan_chars s; Some (String a t, rest).
Proof. destruct a as [[] [] [] [] [] [] [] []]; reflexivity. Qed.

Lemma scan_json_chars t s : scan_chars (json_chars t +:+ String quote s) = Some (t, s).
Proof.
  induction t as [|a t IH]; [done|]. cbn [json_chars]. rewrite string_app_assoc, scan_json_char, IH. done.
Qed.

(** A text that is read as a value, whatever follows it, with little fuel. *)
Definition text_of (t : string) (v : json) : Prop :=
  forall fuel rest, scan_value (S fuel) (t +:+ rest) = Some (v, rest).

Lemma string_length_append s t : String.length (s +:+ t) = (String.length s + String.length t)%nat.
Proof. induction s as [|a s IH]; [done|]. exact (f_equal S IH). Qed.

(** A written string, seen from its opening quote. *)
Lemma json_string_app t s : json_string t +:+ s = String quote (json_chars t +:+ String quote s).
Proof. unfold json_string. by rewrite !string_app_assoc. Qed.

Lemma scan_value_quote fuel s : scan_value (S fuel) (String quote s) = '(t, rest) ← scan_chars s; Some (JString t, rest).
Proof. done. Qed.

Lemma scan_members_quote fuel s :
  scan_members (S fuel) (String quote s) =
  '(name, s) ← scan_chars s;
  match skip_space s with
  | String ":" s =>
      '(v, s) ← scan_value fuel s;
      match skip_space s with
      | String "," s => '(l, rest) ← scan_members fuel s; Some ((name, v) :: l, rest)
      | String "}" s => Some ([(name, v)], s)
      | _ => None
      end
  | _ => None
  end.
Proof. done. Qed.

Lemma text_of_string t : text_of (json_string t) (JString t).
Proof. intros fuel rest. by rewrite json_string_app, scan_value_quote, scan_json_chars. Qed.

Lemma text_of_false : text_of "false" (JBool false).
Proof. by intros fuel rest. Qed.

Lemma member_text name t v fuel s :
  text_of t v ->
  scan_members (S (S fuel)) ((json_string name +:+ ":" +:+ t) +:+ s) =
  match skip_space s with
  | String "," s => '(l, rest) ← scan_members (S fuel) s; Some ((name, v) :: l, rest)
  | String "}" s => Some ([(name, v)], s)
  | _ => None
  end.
Proof.
  intros Ht. rewrite string_app_assoc, json_string_app, scan_members_quote, scan_json_chars.
  change ((":" +:+ t) +:+ s) with (String ":" (t +:+ s)). cbn [mbind option_bind].
  change (skip_space (String ":" ?s)) with (String ":" s). cbn iota. by rewrite Ht.
Qed.

(** The text of a member given by its name, its value's text and its value. *)
Definition member_of (m : string * string * json) : string := json_string m.1.1 +:+ ":" +:+ m.1.2.
Definition value_of (m : string * string * json) : string * json := (m.1.1, m.2).
Definition readable (m : string * string * json) : Prop := text_of m.1.2 m.2.

(** The members of an object's text are read back. *)
Lemma scan_members_text l fuel rest :
  l <> [] -> Forall readable l ->
  scan_members (S (length l + fuel)) (String.concat "," (member_of <$> l) +:+ String "}" rest) =
  Some (value_of <$> l, rest).
Proof.
  intros Hne Hl. induction Hl as [|[[k t] v] l Ht Hl IH]; [done|].
  rewrite !fmap_cons. cbn [length plus]. change (member_of (k, t, v)) with (json_string k +:+ ":" +:+ t).
  destruct l as [|m l]; [by rewrite fmap_nil; cbn [String.concat]; rewrite (member_text k t v)|].
  specialize (IH ltac:(done)). rewrite !fmap_cons in *.
  change (String.concat "," (?x :: ?y :: ?l)) with (x +:+ "," +:+ String.concat "," (y :: l)).
  rewrite string_app_assoc, (member_text k t v) by done. rewrite string_app_assoc.
  change (skip_space ("," +:+ ?s)) with (String "," s). cbn iota.
  by rewrite IH.
Qed.

Lemma members_length l : (length l <= String.length (String.concat "," (member_of <$> l)))%nat.
Proof.
  induction l as [|m l IH]; [done|]. rewrite fmap_cons. destruct l as [|m' l].
  - rewrite fmap_nil. cbn [String.concat length]. unfold member_of. rewrite json_string_app. simpl. lia.
  - rewrite fmap_cons in *. change (String.concat "," (?x :: ?y :: ?l)) with (x +:+ "," +:+ String.concat "," (y :: l)).
    rewrite !string_length_append. change (String.length ",") with 1%nat. cbn [length] in *. lia.
Qed.

(** An object's text is read back, from its members'. *)
Lemma parse_json_object l :
  l <> [] -> Forall readable l -> parse_json (json_object (fst <$> l)) = Ok (JObject (value_of <$> l)).
Proof.
  intros Hne Hl.
  assert (E : json_object (fst <$> l) = String "{" (String.concat "," (member_of <$> l) +:+ String "}" "")).
  { unfold json_object. rewrite <- list_fmap_compose. do 3 f_equal. apply list_fmap_ext. by intros i [[k t] v] _. }
  rewrite E. unfold parse_json. pose proof (members_length l) as Hlen.
  set (text := String.concat "," (member_of <$> l) +:+ String "}" "") in *.
  assert (Hq : exists y, text = String quote y).
  { unfold text. destruct l as [|m [|m' l]]; [done| |]; rewrite !fmap_cons; unfold member_of at 1;
      cbn [String.concat fmap list_fmap]; rewrite ?string_app_assoc, json_string_app; by eexists. }
  destruct Hq as [y Hy]. change (String.length (String "{" text)) with (S (String.length text)).
  assert (Hs : scan_value (S (S (String.length text))) (String "{" text) =
    '(l, rest) ← scan_members (S (String.length text)) text; Some (JObject l, rest)) by (rewrite Hy; reflexivity).
  rewrite Hs. clear Hs.
  replace (String.length text) with (length l + (String.length text - length l))%nat.
  2: { unfold text in *. rewrite string_length_append. lia. }
  unfold text. by rewrite scan_members_text.
Qed.
