(* ===== verification/GoTime.v ===== *)
(** * Go's [time] package, as far as the scheduling code uses it

    The language's standard library: instants, time zones, the proleptic
    Gregorian calendar and [time.Date].  Time zone data is not code of the
    repository, so a location is given by its lookup function. *)

From S2P Require Import Prelude.

(** ** Durations, in nanoseconds *)

Definition Nanosecond : Z := 1.
Definition Microsecond : Z := 1000.
Definition Millisecond : Z := 1000000.
Definition Second : Z := 1000000000.
Definition Minute : Z := 60 * Second.
Definition Hour : Z := 60 * Minute.

(** ** Locations and instants *)

(** [loc_lookup sec] is [(offset, start, end)]: the offset in seconds east of
    UTC in effect at Unix time [sec] and the Unix times between which it holds. *)
Record Location := mkLocation {
  loc_name : string;
  loc_lookup : Z -> Z * Z * Z;
}.

Definition loc_offset (l : Location) (sec : Z) : Z := (loc_lookup l sec).1.1.

Definition fixed_zone (name : string) (offset : Z) : Location :=
  mkLocation name (fun _ => (offset, - 2 ^ 63, 2 ^ 63 - 1)).
Definition UTC : Location := fixed_zone "UTC" 0.

(** An instant (nanoseconds since the Unix epoch) with the location it is shown in. *)
Record Time := mkTime { t_ns : Z; t_loc : Location }.

(** January 1, year 1, 00:00:00 UTC: Go's zero [Time]. *)
Definition zero_ns : Z := -62135596800 * Second.
Definition zeroTime : Time := mkTime zero_ns UTC.

Definition IsZero (t : Time) : bool := t_ns t =? zero_ns.
Definition Before (t u : Time) : bool := t_ns t <? t_ns u.
Definition After (t u : Time) : bool := t_ns u <? t_ns t.
Definition Equal (t u : Time) : bool := t_ns t =? t_ns u.
Definition Add (t : Time) (d : Z) : Time := mkTime (t_ns t + d) (t_loc t).
(** [t.Sub(u)] saturates at the least and the greatest duration. *)
Definition Sub (t u : Time) : Z := Z.max (- 2 ^ 63) (Z.min (2 ^ 63 - 1) (t_ns t - t_ns u)).
Definition In_ (t : Time) (l : Location) : Time := mkTime (t_ns t) l.
(** [t.Truncate(d)]: rounding down to a multiple of [d] since the zero time. *)
Definition Truncate (t : Time) (d : Z) : Time :=
  if d <=? 0 then t else mkTime (t_ns t - (t_ns t - zero_ns) mod d) (t_loc t).
(** [t.Round(d)]: rounding half up to a multiple of [d] since the zero time. *)
Definition Round (t : Time) (d : Z) : Time :=
  if d <=? 0 then t
  else
    let r := (t_ns t - zero_ns) mod d in
    mkTime (if 2 * r <? d then t_ns t - r else t_ns t + (d - r)) (t_loc t).
Definition Unix (t : Time) : Z := t_ns t / Second.

Arguments IsZero : simpl never.
Arguments Before : simpl never.
Arguments After : simpl never.
Arguments Equal : simpl never.
Arguments Truncate : simpl never.
Arguments Round : simpl never.
Arguments Second : simpl never.
Arguments Minute : simpl never.
Arguments Hour : simpl never.

(** ** The calendar *)

Definition is_leap (y : Z) : bool :=
  (y mod 4 =? 0) && (negb (y mod 100 =? 0) || (y mod 400 =? 0)).
Definition year_len (y : Z) : Z := if is_leap y then 366 else 365.

(** Days from 0001-01-01 to January 1 of year [y]. *)
Definition days_before_year (y : Z) : Z :=
  365 * (y - 1) + (y - 1) / 4 - (y - 1) / 100 + (y - 1) / 400.

(** Days before month [m] (1 to 12) in a year. *)
Definition days_before_month (leap : bool) (m : Z) : Z :=
  (match m with
   | 1 => 0 | 2 => 31 | 3 => 59 | 4 => 90 | 5 => 120 | 6 => 151
   | 7 => 181 | 8 => 212 | 9 => 243 | 10 => 273 | 11 => 304 | _ => 334
   end)%Z + (if leap && (2 <? m) then 1 else 0).

(** The day number (0 for 0001-01-01) of a date; month and day may be out of
    range and are normalised the way [time.Date] does. *)
Definition day_number (y m d : Z) : Z :=
  let y' := y + (m - 1) / 12 in
  let m' := (m - 1) mod 12 + 1 in
  days_before_year y' + days_before_month (is_leap y') m' + (d - 1).

(** The year of a day number, by 400-, 100-, 4- and 1-year cycles. *)
Definition year_of (n : Z) : Z :=
  let n400 := n / 146097 in let r := n mod 146097 in
  let n100 := Z.min (r / 36524) 3 in let r := r - 36524 * n100 in
  let n4 := r / 1461 in let r := r mod 1461 in
  let n1 := Z.min (r / 365) 3 in
  400 * n400 + 100 * n100 + 4 * n4 + n1 + 1.

(** 0-based day of the year. *)
Definition yday_of (n : Z) : Z := n - days_before_year (year_of n).

Definition month_of_yday (leap : bool) (yd : Z) : Z :=
  let b m := days_before_month leap m <=? yd in
  if b 12 then 12 else if b 11 then 11 else if b 10 then 10 else if b 9 then 9
  else if b 8 then 8 else if b 7 then 7 else if b 6 then 6 else if b 5 then 5
  else if b 4 then 4 else if b 3 then 3 else if b 2 then 2 else 1.

Definition month_of (n : Z) : Z := month_of_yday (is_leap (year_of n)) (yday_of n).
Definition mday_of (n : Z) : Z :=
  yday_of n - days_before_month (is_leap (year_of n)) (month_of n) + 1.

(** Sunday is 0. 0001-01-01 is a Monday. *)
Definition weekday_of (n : Z) : Z := (n + 1) mod 7.

(** ** Dates of instants *)

(** Days from 0001-01-01 to 1970-01-01. *)
Definition unix_epoch_day : Z := 719162.

(** Seconds on the local wall clock since 1970-01-01 00:00. *)
Definition local_sec (t : Time) : Z := Unix t + loc_offset (t_loc t) (Unix t).
Definition local_day (t : Time) : Z := local_sec t / 86400 + unix_epoch_day.

Definition Year (t : Time) : Z := year_of (local_day t).
Definition Month (t : Time) : Z := month_of (local_day t).
Definition Day (t : Time) : Z := mday_of (local_day t).
Definition YearDay (t : Time) : Z := yday_of (local_day t) + 1.
Definition Weekday (t : Time) : Z := weekday_of (local_day t).
Definition second_of_day (t : Time) : Z := local_sec t mod 86400.
Definition nanosecond_of (t : Time) : Z := t_ns t mod Second.

(** [time.Date] for a wall clock reading given as a day number and a second of
    the day: the offset is looked up at the reading taken as UTC, and again at
    the adjusted instant when that falls outside the zone that was found. *)
Definition date_sec (day sec : Z) (l : Location) : Z :=
  let unix := (day - unix_epoch_day) * 86400 + sec in
  let '(offset, start, stop) := loc_lookup l unix in
  if offset =? 0 then unix
  else
    let utc := unix - offset in
    let offset := if (utc <? start) || (stop <=? utc) then loc_offset l utc else offset in
    unix - offset.

Definition Date (y m d : Z) (sec nsec : Z) (l : Location) : Time :=
  mkTime (date_sec (day_number y m d) sec l * Second + nsec) l.

(** [t.AddDate(0, 0, n)]. *)
Definition AddDays (t : Time) (n : Z) : Time :=
  Date (Year t) (Month t) (Day t + n) (second_of_day t) (nanosecond_of t) (t_loc t).

(** ** Laws of the calendar *)

Lemma days_before_year_succ y : days_before_year (y + 1) = days_before_year y + year_len y.
Proof.
  unfold days_before_year, year_len, is_leap.
  replace (y + 1 - 1) with y by lia.
  assert (H4 : y / 4 = (y - 1) / 4 + if y mod 4 =? 0 then 1 else 0).
  { destruct (Z.eqb_spec (y mod 4) 0); Z.to_euclidean_division_equations; lia. }
  assert (H100 : y / 100 = (y - 1) / 100 + if y mod 100 =? 0 then 1 else 0).
  { destruct (Z.eqb_spec (y mod 100) 0); Z.to_euclidean_division_equations; lia. }
  assert (H400 : y / 400 = (y - 1) / 400 + if y mod 400 =? 0 then 1 else 0).
  { destruct (Z.eqb_spec (y mod 400) 0); Z.to_euclidean_division_equations; lia. }
  rewrite H4, H100, H400.
  destruct (Z.eqb_spec (y mod 4) 0), (Z.eqb_spec (y mod 100) 0), (Z.eqb_spec (y mod 400) 0);
    simpl; Z.to_euclidean_division_equations; lia.
Qed.

Lemma year_len_bounds y : 365 <= year_len y <= 366.
Proof. unfold year_len. case_match; lia. Qed.

Lemma days_before_year_mono y z : y <= z -> days_before_year y <= days_before_year z.
Proof.
  unfold days_before_year. intros. Z.to_euclidean_division_equations. lia.
Qed.

Lemma days_before_year_mono_lt y z : y < z -> days_before_year y + 365 <= days_before_year z.
Proof.
  intros H. pose proof (days_before_year_mono (y + 1) z ltac:(lia)).
  rewrite days_before_year_succ in *. pose proof (year_len_bounds y). lia.
Qed.

Lemma year_of_spec n :
  days_before_year (year_of n) <= n < days_before_year (year_of n + 1).
Proof.
  unfold year_of, days_before_year.
  Z.to_euclidean_division_equations. lia.
Qed.

Lemma year_of_unique n y :
  days_before_year y <= n < days_before_year (y + 1) -> year_of n = y.
Proof.
  intros Hy. pose proof (year_of_spec n) as Hn.
  destruct (Z.lt_trichotomy (year_of n) y) as [Hlt|[->|Hlt]]; [|done|].
  - pose proof (days_before_year_mono (year_of n + 1) y). lia.
  - pose proof (days_before_year_mono (y + 1) (year_of n)). lia.
Qed.

Lemma year_of_mono n m : n <= m -> year_of n <= year_of m.
Proof.
  intros H. destruct (decide (year_of n <= year_of m)) as [|Hlt]; [done|].
  pose proof (year_of_spec n). pose proof (year_of_spec m).
  pose proof (days_before_year_mono (year_of m + 1) (year_of n)). lia.
Qed.

Lemma yday_of_bounds n : 0 <= yday_of n < year_len (year_of n).
Proof.
  unfold yday_of. pose proof (year_of_spec n). rewrite days_before_year_succ in *. lia.
Qed.

(** The month found for a day of the year starts at or before it and is in range. *)
Lemma month_of_yday_spec leap yd :
  0 <= yd -> 1 <= month_of_yday leap yd <= 12 /\
  days_before_month leap (month_of_yday leap yd) <= yd.
Proof.
  intros Hyd. unfold month_of_yday, days_before_month.
  destruct leap; simpl; repeat case_match; simplify_eq; simpl; lia.
Qed.

Lemma month_of_bounds n : 1 <= month_of n <= 12.
Proof. apply month_of_yday_spec, yday_of_bounds. Qed.

Lemma day_number_in_range y m d :
  1 <= m <= 12 ->
  day_number y m d = days_before_year y + days_before_month (is_leap y) m + (d - 1).
Proof.
  intros H. unfold day_number.
  replace ((m - 1) / 12) with 0 by (symmetry; apply Z.div_small; lia).
  replace ((m - 1) mod 12) with (m - 1) by (symmetry; apply Z.mod_small; lia).
  replace (m - 1 + 1) with m by lia. by rewrite Z.add_0_r.
Qed.

Lemma days_before_month_January leap : days_before_month leap 1 = 0.
Proof. by destruct leap. Qed.

(** Reading a day number as a date and putting the date back together, with
    [k] more days, counts [k] days on: the month overflow is normalised away. *)
Lemma day_number_of_date n k :
  day_number (year_of n) (month_of n) (mday_of n + k) = n + k.
Proof.
  rewrite day_number_in_range by apply month_of_bounds.
  unfold mday_of, yday_of. lia.
Qed.

Lemma weekday_of_bounds n : 0 <= weekday_of n < 7.
Proof. apply Z.mod_pos_bound. lia. Qed.

Lemma weekday_of_shift n k : weekday_of (n + k) = (weekday_of n + k) mod 7.
Proof. unfold weekday_of. rewrite Zplus_mod_idemp_l. f_equal. lia. Qed.

Lemma weekday_of_week n k : weekday_of (n + 7 * k) = weekday_of n.
Proof. unfold weekday_of. Z.to_euclidean_division_equations. lia. Qed.

(** ** Zones in which every day starts *)

(** Local midnight of day [d] in zone [l], as [time.Date] computes it. *)
Definition midnight (l : Location) (d : Z) : Time := mkTime (date_sec d 0 l * Second) l.

(** The zone moves its clocks at an hour other than midnight, so the wall clock
    reading that [time.Date] is given for a midnight exists: the instant it
    returns shows that date again at 00:00.  [Date] documents this as the case
    in which its result is the time asked for. *)
Definition regular_zone (l : Location) : Prop :=
  forall d, local_sec (midnight l d) = (d - unix_epoch_day) * 86400.

Lemma Unix_sec s n l : 0 <= n < Second -> Unix (mkTime (s * Second + n) l) = s.
Proof. unfold Unix, Second; simpl. intros. Z.to_euclidean_division_equations. lia. Qed.

Lemma midnight_local_day l d : regular_zone l -> local_day (midnight l d) = d.
Proof.
  intros Hl. unfold local_day. rewrite (Hl d), Z.div_mul by lia.
  unfold unix_epoch_day. lia.
Qed.

Lemma midnight_zone l d : t_loc (midnight l d) = l.
Proof. done. Qed.

Lemma Date_midnight y m d l : Date y m d 0 0 l = midnight l (day_number y m d).
Proof. unfold Date, midnight. f_equal. lia. Qed.

(** Every zone with one offset is regular. *)
Lemma fixed_zone_regular name off :
  -2 ^ 40 < off < 2 ^ 40 -> regular_zone (fixed_zone name off).
Proof.
  intros Hoff d. unfold local_sec, midnight, date_sec, loc_offset; simpl.
  destruct (Z.eqb_spec off 0) as [->|].
  - unfold Unix; simpl. rewrite Z.div_mul by (unfold Second; lia). lia.
  - replace (if _ || _ then off else off) with off by by case_match.
    unfold Unix; simpl. rewrite Z.div_mul by (unfold Second; lia). lia.
Qed.

Lemma UTC_regular : regular_zone UTC.
Proof. apply fixed_zone_regular. lia. Qed.

Create HintDb gotime.
Create Rewrite HintDb gotime.
#[export] Hint Resolve UTC_regular weekday_of_bounds month_of_bounds : gotime.
#[export] Hint Rewrite Date_midnight day_number_of_date midnight_zone : gotime.
