(* ===== verification/Cron.v ===== *)
(** * Cron schedules: [wirtuald/schedule/cron/cron.go]

    The validation and the textual form of schedules.  Parsing one schedule
    and computing its next occurrence is robfig/cron, a third-party package:
    its operations are the class [CronLib], whose laws state what that package
    documents and this code relies on. *)

From Stdlib Require Import Ascii.
From stdpp Require Import pretty.
From S2P Require Import Prelude GoStrings GoTime.

(** robfig/cron v3: a parsed [SpecSchedule], its location, its next activation
    time, and the parser.  [cron_Parse] gives [None] for a schedule that is not
    a [*SpecSchedule]. *)
Class CronLib := {
  SpecSchedule : Type;
  spec_Location : SpecSchedule -> Location;
  spec_is_Local : SpecSchedule -> bool;
  spec_Next : SpecSchedule -> Time -> Time;
  cron_Parse : string -> result (option SpecSchedule);
}.

Definition CRON_TZ : string := "CRON_TZ=".

Section Cron.
Context `{CronLib}.

Record Schedule := mkSchedule { sched : SpecSchedule; cronStr : string }.

Definition Location_ (s : Schedule) : Location := spec_Location (sched s).
Definition Next (s : Schedule) (t : Time) : Time := spec_Next (sched s) t.
Definition Cron (s : Schedule) : string := cronStr s.
Definition String_ (s : Schedule) : string :=
  CRON_TZ +:+ loc_name (Location_ s) +:+ " " +:+ cronStr s.

Definition part (parts : list string) (i : nat) : string := default ""%string (parts !! i).
Definition is_star (s : string) : bool := String.eqb s "*".

(** [validateWeeklySpec]: day of month and month are both [*]. *)
Definition validateWeeklySpec (spec : string) : result unit :=
  let parts := Fields spec in
  if Nat.ltb (length parts) 5 then
    Err "expected schedule to consist of 5 fields with an optional CRON_TZ=<timezone> prefix"
  else
    let parts := if Nat.eqb (length parts) 6 then drop 1 parts else parts in
    if negb (is_star (part parts 2)) || negb (is_star (part parts 3)) then
      Err "expected day-of-month and month to be *"
    else Ok tt.

(** [validateDailySpec]: day of week is [*] as well. *)
Definition validateDailySpec (spec : string) : result unit :=
  let parts := Fields spec in
  if Nat.ltb (length parts) 5 then
    Err "expected schedule to consist of 5 fields with an optional CRON_TZ=<timezone> prefix"
  else
    let parts := if Nat.eqb (length parts) 6 then drop 1 parts else parts in
    if negb (is_star (part parts 2)) || negb (is_star (part parts 3)) || negb (is_star (part parts 4)) then
      Err "expected day-of-month, month and day-of-week to be *"
    else Ok tt.

Definition parse (raw : string) : result Schedule :=
  let raw := if negb (HasPrefix raw CRON_TZ) then "CRON_TZ=UTC " +:+ raw else raw in
  specSched ← wrap "parse schedule" (cron_Parse raw);
  match specSched with
  | None => Err "expected *cron.SpecSchedule"
  | Some schedule =>
      if spec_is_Local schedule then Err "schedules scoped to time.Local are not supported"
      else
        let cronStr := if HasPrefix raw CRON_TZ then Join (drop 1 (Fields raw)) " " else raw in
        Ok (mkSchedule schedule cronStr)
  end.

(** [time.ParseInLocation("15:4", ...)] on ASCII text: an hour and a minute of one
    or two digits. *)
Definition digit_val (a : ascii) : option Z :=
  let n := Z.of_nat (nat_of_ascii a) in if (48 <=? n) && (n <=? 57) then Some (n - 48) else None.
Definition getnum (s : string) : option (Z * string) :=
  match s with
  | String a s =>
      match digit_val a with
      | None => None
      | Some x =>
          match s with
          | String b s' => match digit_val b with Some y => Some (10 * x + y, s') | None => Some (x, s) end
          | EmptyString => Some (x, s)
          end
      end
  | EmptyString => None
  end.
Definition parse_15_4 (s : string) : option (Z * Z) :=
  match getnum s with
  | Some (h, String c s) =>
      if Ascii.eqb c ":" && (h <? 24) then
        match getnum s with
        | Some (m, EmptyString) => if m <? 60 then Some (h, m) else None
        | _ => None
        end
      else None
  | _ => None
  end.

(** [t.Format(time.Kitchen)], "3:04PM". *)
Definition two_digits (n : Z) : string := if n <? 10 then "0" +:+ pretty n else pretty n.
Definition kitchen (h m : Z) : string :=
  pretty (if h mod 12 =? 0 then 12 else h mod 12) +:+ ":" +:+ two_digits m +:+ (if h <? 12 then "AM" else "PM").

(** [Schedule.Time]. *)
Definition Time_ (s : Schedule) : string :=
  let minute := part (Fields (cronStr s)) 0 in
  let hour := part (Fields (cronStr s)) 1 in
  match parse_15_4 (hour +:+ ":" +:+ minute) with
  | None => "cron(" +:+ minute +:+ " " +:+ hour +:+ ")"
  | Some (h, m) => kitchen h m
  end.

Definition Weekly (raw : string) : result Schedule :=
  _ ← wrap "validate weekly schedule" (validateWeeklySpec raw); parse raw.

Definition Daily (raw : string) : result Schedule :=
  _ ← wrap "validate daily schedule" (validateDailySpec raw); parse raw.

(** [Schedule.Min], the shortest gap between activations in the week after t0.
    [fuel] bounds the loop; see [Min_correct]. *)
Definition t0 : Time := Date 1970 1 1 (3600 + 60 + 1) 0 UTC.
Definition tMax : Time := Add t0 (168 * Hour).

Fixpoint min_loop (fuel : nat) (s : Schedule) (durMin : Z) (tPrev tCurr : Time) : option Z :=
  match fuel with
  | O => None
  | S fuel =>
      let dur := Sub tCurr tPrev in
      let durMin := if dur <? durMin then dur else durMin in
      let tNext := Next s tCurr in
      if After tNext tMax then Some durMin else min_loop fuel s durMin tCurr tNext
  end.

Definition Min (fuel : nat) (s : Schedule) : option Z :=
  let durMin := Sub tMax t0 in
  let tPrev := Next s t0 in
  let tCurr := Next s tPrev in
  min_loop fuel s durMin tPrev tCurr.

(** ** What the schedules rely on in robfig/cron *)

(** The parser documents that a schedule is five fields that white space separates, after a
    prefix with the name of a zone and a space; [time.LoadLocation] that the
    location it gives has the name it was asked for, or is UTC, which has that
    name.  [LoadLocation] depends on the zones that are installed, and [cron_in]
    is the parser of the fields in a location. *)
Class CronParserLaws := {
  LoadLocation : string -> result Location;
  cron_in : Location -> list string -> result (option SpecSchedule);
  load_name zone loc :
    no_space zone = true -> LoadLocation zone = Ok loc ->
    no_space (loc_name loc) = true /\ LoadLocation (loc_name loc) = Ok loc;
  (** the zone and the rest of a text that is accepted *)
  parse_zone raw spec :
    HasPrefix raw CRON_TZ = true -> cron_Parse raw = Ok (Some spec) ->
    exists zone loc rest, raw = CRON_TZ +:+ zone +:+ " " +:+ rest /\ no_space zone = true /\ LoadLocation zone = Ok loc;
  (** only the fields of the rest matter *)
  parse_rest zone loc rest :
    no_space zone = true -> LoadLocation zone = Ok loc ->
    cron_Parse (CRON_TZ +:+ zone +:+ " " +:+ rest) = cron_in loc (Fields rest);
  (** there are five of them, and the schedule is in the location *)
  cron_in_spec zone loc fields spec :
    LoadLocation zone = Ok loc -> cron_in loc fields = Ok (Some spec) -> length fields = 5%nat /\ spec_Location spec = loc;
}.

Lemma prefix_app p s : String.prefix p (p +:+ s) = true.
Proof.
  induction p as [|a p IH]; [by destruct s|].
  change (String.prefix (String a p) (String a (p +:+ s)) = true). simpl.
  destruct (Ascii.ascii_dec a a); [exact IH|done].
Qed.

Lemma zone_word n : no_space n = true -> word (CRON_TZ +:+ n).
Proof. intros Hn. by split. Qed.

Lemma Forall_drop1 {A} (P : A -> Prop) l : Forall P l -> Forall P (drop 1 l).
Proof. by apply Forall_drop. Qed.

(** The fields of a schedule's text: the zone, then the fields of the cron string. *)
Lemma Fields_String_ (s : Schedule) :
  no_space (loc_name (Location_ s)) = true ->
  Fields (String_ s) = (CRON_TZ +:+ loc_name (Location_ s)) :: Fields (cronStr s).
Proof.
  intros Hn. unfold String_. rewrite <- string_app_assoc.
  exact (Fields_word_space _ _ (zone_word _ Hn)).
Qed.

(** What the parser accepted, taken apart. *)
Lemma parse_parts `{!CronParserLaws} raw spec :
  HasPrefix raw CRON_TZ = true -> cron_Parse raw = Ok (Some spec) ->
  exists f rest, Fields raw = f :: Fields rest /\ length (Fields rest) = 5%nat /\
    cron_in (spec_Location spec) (Fields rest) = Ok (Some spec) /\
    no_space (loc_name (spec_Location spec)) = true /\ LoadLocation (loc_name (spec_Location spec)) = Ok (spec_Location spec).
Proof.
  intros Hp Hparse. destruct (parse_zone _ _ Hp Hparse) as (zone & loc & rest & -> & Hz & Hloc).
  rewrite (parse_rest _ _ _ Hz Hloc) in Hparse. destruct (cron_in_spec _ _ _ _ Hloc Hparse) as [Hlen <-].
  exists (CRON_TZ +:+ zone), rest. split; [|split; [done|split; [done|by apply (load_name zone)]]].
  rewrite <- string_app_assoc. exact (Fields_word_space _ _ (zone_word _ Hz)).
Qed.

(** What a parsed schedule is: its text is the zone and the fields that were parsed. *)
Lemma parse_print `{!CronParserLaws} raw s :
  parse raw = Ok s -> parse (String_ s) = Ok s.
Proof.
  unfold parse at 1. set (raw' := if negb _ then _ else raw).
  assert (Hp : HasPrefix raw' CRON_TZ = true).
  { unfold raw'. destruct (HasPrefix raw CRON_TZ) eqn:E; [done|].
    exact (prefix_app CRON_TZ ("UTC " +:+ raw)). }
  clearbody raw'. rewrite Hp. intros (o & Hparse%wrap_Ok & Hs)%bind_Ok.
  destruct o as [spec|]; [|done]. destruct (spec_is_Local spec) eqn:Hl; [done|]. simplify_eq.
  destruct (parse_parts _ _ Hp Hparse) as (f & rest & Hf & _ & Hin & Hn & Hload).
  set (s := mkSchedule spec (Join (drop 1 (Fields raw')) " ")).
  assert (Htidy : cron_Parse (String_ s) = Ok (Some spec)).
  { unfold String_. cbn [cronStr s]. change (Location_ s) with (spec_Location spec).
    rewrite (parse_rest _ _ _ Hn Hload). rewrite Fields_Join by (apply Forall_drop1, Fields_words). rewrite Hf. exact Hin. }
  assert (Hp' : HasPrefix (String_ s) CRON_TZ = true) by (unfold HasPrefix, String_; apply (prefix_app CRON_TZ)).
  unfold parse. rewrite Hp'. cbn [negb]. cbv zeta iota. rewrite Hp', Htidy. cbn. rewrite Hl.
  do 2 f_equal. rewrite Fields_String_ by done. cbn [drop].
  rewrite drop_0. f_equal. apply Fields_Join, Forall_drop1, Fields_words.
Qed.

(** C13: a schedule's text parses back to the schedule.  Whatever text a schedule
    was parsed from, with or without a zone and however it is spaced, parsing the text [String]
    prints, the name of the schedule's location and its fields with single
    spaces, gives the schedule again, so that storing the printed form loses
    nothing.  This relies on what robfig/cron and [time.LoadLocation] document:
    the fields are separated by white space, and a location is loaded again by
    its name. *)
Theorem parse_String_ `{!CronParserLaws} raw s : parse raw = Ok s -> parse (String_ s) = Ok s.
Proof. apply parse_print. Qed.

(** The fields of a parsed text: an optional zone and the fields that are kept. *)
Lemma parse_cronStr `{!CronParserLaws} raw s :
  parse raw = Ok s ->
  no_space (loc_name (Location_ s)) = true /\ length (Fields (cronStr s)) = 5%nat /\
  exists zone, Fields raw = zone ++ Fields (cronStr s) /\ (length zone <= 1)%nat.
Proof.
  unfold parse at 1. set (raw' := if negb _ then _ else raw).
  assert (Hp : HasPrefix raw' CRON_TZ = true).
  { unfold raw'. destruct (HasPrefix raw CRON_TZ) eqn:E; [done|].
    exact (prefix_app CRON_TZ ("UTC " +:+ raw)). }
  rewrite Hp. intros (o & Hparse%wrap_Ok & Hs)%bind_Ok.
  destruct o as [spec|]; [|done]. destruct (spec_is_Local spec); [done|]. injection Hs as <-.
  destruct (parse_parts _ _ Hp Hparse) as (f & rest & Hfs & Hlen & _ & Hn & _).
  assert (Hf : Fields (Join (drop 1 (Fields raw')) " ") = drop 1 (Fields raw'))
    by (apply Fields_Join, Forall_drop1, Fields_words).
  split; [exact Hn|]. cbn [cronStr]. rewrite Hf. split; [by rewrite Hfs|].
  unfold raw' in *. destruct (HasPrefix raw CRON_TZ); cbn [negb] in *.
  - exists (take 1 (Fields raw)). split; [by rewrite take_drop|]. rewrite length_take. lia.
  - exists []. split; [|simpl; lia]. pose proof (Fields_word_space "CRON_TZ=UTC" raw) as E.
    change ("CRON_TZ=UTC" +:+ String " " raw)%string with ("CRON_TZ=UTC " +:+ raw)%string in E.
    rewrite E by (by split). done.
Qed.

Lemma validate_fields (l : list string) : length l = 5%nat ->
  forall zone, (length zone <= 1)%nat ->
  (if Nat.eqb (length (zone ++ l)) 6 then drop 1 (zone ++ l) else zone ++ l) = l /\
  Nat.ltb (length (zone ++ l)) 5 = false.
Proof.
  intros Hl zone Hz. rewrite length_app, Hl. destruct zone as [|z [|]]; simpl in *; [done|done|lia].
Qed.

Lemma Daily_print `{!CronParserLaws} raw s : Daily raw = Ok s -> Daily (String_ s) = Ok s.
Proof.
  intros ([] & Hv%wrap_Ok & Hp)%bind_Ok. destruct (parse_cronStr _ _ Hp) as (Hn & Hlen & zone & Hf & Hz).
  apply bind_Ok. exists tt. split; [|by eapply parse_print]. apply wrap_Ok.
  unfold validateDailySpec in *. rewrite Hf in Hv. rewrite Fields_String_ by done.
  destruct (validate_fields _ Hlen zone Hz) as [E1 E2]. rewrite E1, E2 in Hv.
  destruct (validate_fields _ Hlen [(CRON_TZ +:+ loc_name (Location_ s))%string] ltac:(simpl; lia)) as [E3 E4].
  cbn [app] in E3, E4. by rewrite E3, E4.
Qed.
(** *** The shortest gap *)

(** robfig/cron's [Next] returns a later time. *)
Definition progresses (s : Schedule) : Prop := forall t, t_ns t < t_ns (Next s t).

(** The [n]-th activation after [p], and the gaps [Min] looks at: the first
    one, and those that end in the week. *)
Definition activation (s : Schedule) (p : Time) (n : nat) : Time := Nat.iter n (Next s) p.
Definition gap (s : Schedule) (p : Time) (n : nat) : Z :=
  Sub (activation s p (S n)) (activation s p n).
Definition looked_at (s : Schedule) (p : Time) (n : nat) : Prop :=
  n = O \/ t_ns (activation s p (S n)) <= t_ns tMax.

Lemma activation_shift s p n : activation s (Next s p) n = activation s p (S n).
Proof. unfold activation. rewrite Nat.iter_succ_r. done. Qed.

Lemma activation_mono s p n : progresses s -> t_ns (activation s p 2) <= t_ns (activation s p (S (S n))).
Proof.
  intros Hp. induction n as [|n IH]; [done|]. pose proof (Hp (activation s p (S (S n)))).
  change (activation s p (S (S (S n)))) with (Next s (activation s p (S (S n)))). lia.
Qed.

Lemma min_loop_spec s fuel d p :
  progresses s -> (0 < fuel)%nat -> t_ns tMax - t_ns (Next s p) < Z.of_nat fuel ->
  exists m, min_loop fuel s d p (Next s p) = Some m /\
    m <= d /\ (forall n, looked_at s p n -> m <= gap s p n) /\
    (m = d \/ exists n, looked_at s p n /\ m = gap s p n).
Proof.
  intros Hp. revert d p. induction fuel as [|fuel IH]; intros d p H0 Hf; [lia|]. cbn [min_loop].
  change (Sub (Next s p) p) with (gap s p 0).
  set (d' := if gap s p 0 <? d then gap s p 0 else d).
  assert (Hd' : d' <= d /\ d' <= gap s p 0 /\ (d' = d \/ d' = gap s p 0))
    by (unfold d'; destruct (Z.ltb_spec (gap s p 0) d); lia).
  destruct Hd' as (Hd & Hg & Hc). unfold After. pose proof (Hp (Next s p)) as Hlt.
  destruct (Z.ltb_spec (t_ns tMax) (t_ns (Next s (Next s p)))) as [Hstop|Hgo].
  - exists d'. split; [done|]. split; [done|]. split.
    + intros [|n] [Hn|Hn]; try done. pose proof (activation_mono s p n Hp) as Hm.
      change (activation s p 2) with (Next s (Next s p)) in Hm. lia.
    + destruct Hc as [->|Hc]; [by left|right]. exists O. split; [by left|done].
  - destruct (IH d' (Next s p)) as (m & Hm & Hle & Hall & Hex); [lia..|].
    assert (Hsh : forall n, looked_at s p (S n) -> looked_at s (Next s p) n /\ gap s (Next s p) n = gap s p (S n)).
    { intros n [|Hn]; [done|]. unfold looked_at, gap. rewrite !activation_shift. auto. }
    exists m. split; [done|]. split; [lia|]. split.
    + intros [|n] Hn; [lia|]. destruct (Hsh n Hn) as [Hl <-]. by apply Hall.
    + destruct Hex as [->|(n & Hn & ->)].
      * destruct Hc as [->|Hc]; [by left|right; exists O; split; [by left|done]].
      * right. exists (S n). unfold gap. rewrite !activation_shift. split; [|done]. right.
        rewrite <- activation_shift. destruct Hn as [->|Hn]; [|done]. exact Hgo.
Qed.

(** [Min] ends, with the shortest gap between activations in the week it looks
    at: a week, or the gap of two consecutive activations, and no larger than
    any gap between activations up to the end of the week.  One step of fuel
    per nanosecond of the week is enough, since every activation is later. *)
Lemma Min_correct s fuel :
  progresses s -> Z.of_nat fuel > 168 * Hour ->
  exists m, Min fuel s = Some m /\ m <= 168 * Hour /\
    (forall n, looked_at s (Next s t0) n -> m <= gap s (Next s t0) n) /\
    (m = 168 * Hour \/ exists n, looked_at s (Next s t0) n /\ m = gap s (Next s t0) n).
Proof.
  intros Hp Hf. unfold Min. change (Sub tMax t0) with (168 * Hour).
  assert (0 < 168 * Hour) by done. apply min_loop_spec; [done|lia|].
  pose proof (Hp t0). pose proof (Hp (Next s t0)).
  assert (t_ns tMax = t_ns t0 + 168 * Hour) by reflexivity. lia.
Qed.
End Cron.

(** ** A concrete schedule library, for witnesses

    Daily schedules at one time of day in zones with offset 0. *)
Module DailyCron.

Definition digit (a : Ascii.ascii) : option Z :=
  let n := Z.of_nat (Ascii.nat_of_ascii a) - 48 in if (0 <=? n) && (n <=? 9) then Some n else None.

Fixpoint number (acc : Z) (s : string) : option Z :=
  match s with
  | EmptyString => Some acc
  | String a s => n ← digit a; number (10 * acc + n) s
  end.

Fixpoint drop_chars (n : nat) (s : string) : string :=
  match n, s with
  | S n, String _ s => drop_chars n s
  | _, _ => s
  end.

(** [zone, second of day]. *)
Definition spec : Type := string * Z.

Definition next (sp : spec) (t : Time) : Time :=
  let c := (Unix t / 86400 * 86400 + sp.2) * Second in
  mkTime (if c <=? t_ns t then c + 24 * Hour else c) (t_loc t).

Definition of_fields (l : list string) : result (option spec) :=
  match l with
  | [f; m; h; "*"; "*"; "*"]%string =>
      if HasPrefix f CRON_TZ then
        match number 0 m, number 0 h with
        | Some m, Some h => Ok (Some (drop_chars 8 f, 3600 * h + 60 * m))
        | _, _ => Err "bad number"
        end
      else Err "no zone"
  | _ => Err "unsupported"
  end.

(** The zone ends at the first space. *)
Fixpoint until_space (s : string) : option (string * string) :=
  match s with
  | EmptyString => None
  | String a s => if ascii_dec a " "%char then Some (""%string, s) else '(w, rest) ← until_space s; Some (String a w, rest)
  end.

#[export] Instance lib : CronLib := {
  SpecSchedule := spec;
  spec_Location sp := fixed_zone sp.1 0;
  spec_is_Local _ := false;
  spec_Next := next;
  cron_Parse raw :=
    match until_space raw with
    | Some (w, rest) => if no_space w then of_fields (w :: Fields rest) else Err "unknown time zone"
    | None => Err "no fields"
    end;
}.

(** [next] is later: it is the first instant at the time of day after [t]. *)
Lemma next_later sp t : 0 <= sp.2 -> t_ns t < t_ns (next sp t).
Proof.
  intros Hs. unfold next, Unix. simpl.
  destruct (Z.leb_spec ((t_ns t / Second / 86400 * 86400 + sp.2) * Second) (t_ns t)); [|lia].
  unfold Hour, Minute, Second in *. Z.to_euclidean_division_equations. lia.
Qed.

Lemma drop_chars_zone n : drop_chars 8 (CRON_TZ +:+ n) = n.
Proof. by destruct n. Qed.

Lemma no_space_drop_chars n s : no_space s = true -> no_space (drop_chars n s) = true.
Proof.
  revert s. induction n as [|n IH]; intros [|a s]; simpl; [done..|].
  intros [_ Hs]%andb_true_iff. auto.
Qed.

Lemma of_fields_shape l sp :
  of_fields l = Ok (Some sp) ->
  exists f m h, l = [f; m; h; "*"; "*"; "*"]%string /\ HasPrefix f CRON_TZ = true /\ sp.1 = drop_chars 8 f /\
    forall f', HasPrefix f' CRON_TZ = true -> of_fields [f'; m; h; "*"; "*"; "*"]%string = Ok (Some (drop_chars 8 f', sp.2)).
Proof.
  unfold of_fields. repeat (case_match; try done). intros ?; simplify_eq.
  do 3 eexists. split; [reflexivity|]. repeat split; try done. intros f' Hf'.
  rewrite Hf'. by repeat match goal with H : number _ _ = _ |- _ => rewrite H end.
Qed.

Lemma until_space_word w rest : no_space w = true -> until_space (w +:+ String " "%char rest) = Some (w, rest).
Proof.
  induction w as [|a w IH]; [done|]. intros [Ha Hw]%andb_true_iff.
  change (until_space (String a w +:+ String " "%char rest)) with
    (if ascii_dec a " "%char then Some (""%string, w +:+ String " "%char rest)
     else '(w, rest) ← until_space (w +:+ String " "%char rest); Some (String a w, rest)).
  destruct (ascii_dec a " "%char) as [->|_]; [done|]. by rewrite (IH Hw).
Qed.

Lemma until_space_split s w rest : until_space s = Some (w, rest) -> s = w +:+ String " "%char rest.
Proof.
  revert w. induction s as [|a s IH]; intros w; [done|]. simpl. destruct (ascii_dec a " "%char) as [->|_]; [by intros [= <- <-]|].
  destruct (until_space s) as [[w' rest']|]; [|done]. simpl. intros [= <- <-]. by rewrite (IH w' eq_refl).
Qed.

Lemma prefix_split w : HasPrefix w CRON_TZ = true -> w = CRON_TZ +:+ drop_chars 8 w.
Proof.
  unfold CRON_TZ, HasPrefix. intros H.
  do 8 (destruct w as [|?a w]; [done|cbn [String.prefix] in H; destruct (ascii_dec _ _) as [<-|]; [|done]]).
  by destruct w.
Qed.

#[export] Instance laws : CronParserLaws.
Proof.
  refine {| LoadLocation := fun zone => Ok (fixed_zone zone 0); cron_in := fun loc l => of_fields ((CRON_TZ +:+ loc_name loc) :: l) |}.
  - intros zone loc Hz [= <-]. done.
  - intros raw sp _ H. cbn [cron_Parse lib] in H. destruct (until_space raw) as [[w rest]|] eqn:E; [|done]. destruct (no_space w) eqn:Hw; [|done].
    destruct (of_fields_shape _ _ H) as (f & m & h & Hl & Hf & _ & _). injection Hl as -> _.
    apply until_space_split in E as ->. exists (drop_chars 8 f), (fixed_zone (drop_chars 8 f) 0), rest.
    split; [|split; [by apply no_space_drop_chars|done]]. rewrite <- string_app_assoc. by rewrite <- prefix_split.
  - intros zone loc rest Hz [= <-]. cbn [cron_Parse lib]. rewrite <- string_app_assoc.
    change ((CRON_TZ +:+ zone) +:+ " " +:+ rest) with ((CRON_TZ +:+ zone) +:+ String " "%char rest).
    rewrite until_space_word by (by apply zone_word). by rewrite (proj2 (zone_word _ Hz)).
  - intros zone loc fields sp [= <-] H. destruct (of_fields_shape _ _ H) as (f & m & h & Hl & _ & Hz & _). injection Hl as <- ->.
    split; [done|]. simpl. rewrite Hz. by rewrite drop_chars_zone.
Qed.
Lemma parse_String__witness :
  exists s : Schedule, parse "30 9 * * *" = Ok s /\ parse (String_ s) = Ok s /\
    String_ s = "CRON_TZ=UTC 30 9 * * *"%string.
Proof.
  set (s := @mkSchedule lib ("UTC"%string, 34200) "30 9 * * *").
  assert (Hs : parse "30 9 * * *" = Ok s) by reflexivity.
  exists s. split; [exact Hs|]. split; [exact (parse_String_ _ s Hs)|]. reflexivity.
Defined.

Lemma Min_correct_witness :
  exists m, Min (Z.to_nat (168 * Hour + 1)) (@mkSchedule lib ("UTC"%string, 34200) "30 9 * * *") = Some m /\
    m <= 24 * Hour.
Proof.
  destruct (Min_correct (@mkSchedule lib ("UTC"%string, 34200) "30 9 * * *") (Z.to_nat (168 * Hour + 1)))
    as (m & Hm & _ & Hall & _).
  - intros t. apply next_later. done.
  - rewrite Z2Nat.id; done.
  - exists m. split; [exact Hm|]. apply (Hall O). by left.
Defined.

End DailyCron.

(** The example in the documentation of [Weekly], three fields, is refused. *)
Example Weekly_doc_example `{CronLib} : is_ok (Weekly "59 23 *") = false.
Proof. reflexivity. Qed.
