(* ===== verification/Tags.v ===== *)
(** * Provisioner tags: [provisionersdk/provisionertags.go]

    The tag sets that route jobs to provisioner daemons, and the comparisons
    the store's queue makes on them. *)

From S2P Require Import Prelude.

Abbreviation TagMap := (gmap string string).

Definition TagScope : string := "scope".
Definition TagOwner : string := "owner".
Definition ScopeUser : string := "user".
Definition ScopeOrganization : string := "organization".

(** [for k, v := range b { if v == "" { continue }; m[k] = v }] over a copy of [a]. *)
Definition mergeTags (a b : TagMap) : TagMap :=
  map_fold (fun k v m => if String.eqb v "" then m else <[k := v]> m) a b.

Section MutateTags.
(** [uuid.UUID.String] of the third-party package google/uuid. *)
Variable uuid_String : N -> string.

Definition MutateTags (userID : N) (provided : list TagMap) : TagMap :=
  let tags := foldl mergeTags ∅ provided in
  let tags := match tags !! TagScope with
              | Some _ => tags
              | None => <[TagOwner := ""]> (<[TagScope := ScopeOrganization]> tags)
              end in
  match tags !! TagScope with
  | Some s =>
      if String.eqb s ScopeUser then <[TagOwner := uuid_String userID]> tags
      else if String.eqb s ScopeOrganization then <[TagOwner := ""]> tags
      else <[TagOwner := ""]> (<[TagScope := ScopeOrganization]> tags)
  | None => <[TagOwner := ""]> (<[TagScope := ScopeOrganization]> tags)
  end.
End MutateTags.

(** [m1] is contained in [m2]: the loop of [tagsSubset]. *)
Definition tagsSubset (m1 m2 : TagMap) : bool :=
  forallb (fun '(k, v1) => match m2 !! k with
                           | Some v2 => String.eqb v1 v2
                           | None => false
                           end) (map_to_list m1).

Definition tagsEqual (m1 m2 : TagMap) : bool :=
  Nat.eqb (size m1) (size m2) && tagsSubset m1 m2.

(** [provisionersdk.MutateTags(uuid.Nil, nil)]; see [MutateTags_untagged]. *)
Definition tagsUntagged : TagMap :=
  {[ TagScope := ScopeOrganization; TagOwner := "" ]}.

(** ** Lemmas *)

Lemma tagsSubset_spec m1 m2 : reflect (m1 ⊆ m2) (tagsSubset m1 m2).
Proof.
  apply iff_reflect. symmetry. unfold tagsSubset. rewrite forallb_forall, map_subseteq_spec.
  setoid_rewrite <- list_elem_of_In. split.
  - intros H k v Hk. specialize (H (k, v)). simpl in H.
    apply elem_of_map_to_list in Hk. specialize (H Hk).
    case_match; [|done]. by apply String.eqb_eq in H as ->.
  - intros H [k v] Hk%elem_of_map_to_list. apply H in Hk. rewrite Hk. apply String.eqb_refl.
Qed.

Lemma tagsEqual_spec m1 m2 : reflect (m1 = m2) (tagsEqual m1 m2).
Proof.
  unfold tagsEqual. destruct (Nat.eqb_spec (size m1) (size m2)), (tagsSubset_spec m1 m2) as [|Hn];
    constructor; try congruence.
  - apply map_subseteq_size_eq; [done|lia].
  - intros ->. by apply Hn.
Qed.

Lemma mergeTags_lookup a b k :
  mergeTags a b !! k = match b !! k with
                       | Some v => if String.eqb v "" then a !! k else Some v
                       | None => a !! k
                       end.
Proof.
  unfold mergeTags. revert k. apply (map_fold_weak_ind (fun r b =>
    forall k, r !! k = match b !! k with
      | Some v => if String.eqb v "" then a !! k else Some v | None => a !! k end)).
  - intros k. by rewrite lookup_empty.
  - intros k v b' r Hk IH k'. destruct (decide (k = k')) as [->|Hne].
    + rewrite lookup_insert_eq. case_match; [|by rewrite lookup_insert_eq].
      rewrite IH. by rewrite Hk.
    + rewrite lookup_insert_ne by done. rewrite <- IH.
      case_match; [done|]. by rewrite lookup_insert_ne.
Qed.

Lemma MutateTags_untagged uuid_String :
  MutateTags uuid_String 0 [] = tagsUntagged.
Proof. vm_compute. reflexivity. Qed.

(** Values that reach [MutateTags]' result non-empty, the owner tag apart. *)
Definition clean (t : TagMap) : Prop := forall k v, t !! k = Some v -> k <> TagOwner -> v <> ""%string.

Lemma merge_all_clean provided t :
  clean t -> clean (foldl mergeTags t provided).
Proof.
  revert t. induction provided as [|b l IH]; intros t Ht; simpl; [done|].
  apply IH. intros k v. rewrite mergeTags_lookup. repeat case_match; intros ??; simplify_eq; eauto.
  by apply String.eqb_neq.
Qed.

Section Normal.
Variable uuid_String : N -> string.

(** What a tag set that went through [MutateTags] for user [uid] looks like. *)
Definition normal (uid : N) (t : TagMap) : Prop :=
  clean t /\
  ((t !! TagScope = Some ScopeUser /\ t !! TagOwner = Some (uuid_String uid)) \/
   (t !! TagScope = Some ScopeOrganization /\ t !! TagOwner = Some ""%string)).

(** Whatever tags are provided, the tag set [MutateTags] returns has a scope
    that is user or organization, an owner that is the user's own ID in the
    first case and empty in the second, and no other empty value. *)
Lemma MutateTags_normal uid provided : normal uid (MutateTags uuid_String uid provided).
Proof.
  unfold MutateTags. pose proof (merge_all_clean provided ∅ ltac:(intros ??; by rewrite lookup_empty)) as Hc.
  set (t := foldl mergeTags ∅ provided) in *.
  destruct (t !! TagScope) as [s|] eqn:Hs.
  - rewrite Hs. destruct (String.eqb_spec s ScopeUser) as [->|]; [|destruct (String.eqb_spec s ScopeOrganization) as [->|]].
    all: split; [|(left + right); split; by simplify_map_eq].
    all: intros k v Hk Hne; rewrite ?lookup_insert_ne in Hk by done; eauto.
    destruct (decide (k = TagScope)) as [->|]; simplify_map_eq; eauto.
  - simplify_map_eq.
    split; [|right; split; by simplify_map_eq].
    intros k v Hk Hne. rewrite !lookup_insert_ne in Hk by done.
    destruct (decide (k = TagScope)) as [->|]; simplify_map_eq; eauto.
Qed.

(** Normalising twice changes nothing: a job's stored tags are a fixed point. *)
Lemma MutateTags_idempotent uid provided :
  MutateTags uuid_String uid [MutateTags uuid_String uid provided] =
  MutateTags uuid_String uid provided.
Proof.
  pose proof (MutateTags_normal uid provided) as [Hc Hso].
  set (t := MutateTags uuid_String uid provided) in *. clearbody t.
  assert (Hm : forall k, k <> TagOwner -> mergeTags ∅ t !! k = t !! k).
  { intros k Hk. rewrite mergeTags_lookup. case_match eqn:Ht; [|done].
    destruct (String.eqb_spec s ""); [|done]. by destruct (Hc k s). }
  unfold MutateTags. simpl. rewrite Hm by done.
  destruct Hso as [[Hs Ho]|[Hs Ho]]; rewrite Hs; simpl; rewrite Hm, Hs by done; simpl;
    apply map_eq; intros k; (destruct (decide (k = TagOwner)) as [->|]; simplify_map_eq; [done|by apply Hm]).
Qed.
End Normal.
