(* ===== verification/Db.v ===== *)
(** * The in-memory store: [wirtuald/database/dbmem]

    The tables that the scheduling, autobuild and provisioner queue code reads
    and writes, and the [FakeQuerier] methods on them.  A table is the Go slice,
    in insertion order.  Struct fields no modelled code reads (password hashes,
    icons, display names, ACLs) are left out; the joined display columns of the
    [Template] and [Workspace] views are left out for the same reason, so that
    [templateWithNameNoLock] and [extendWorkspace] are identities here.  The
    request structs' enum fields are inductive types, so [validateDatabaseType]
    always succeeds.  The mutex makes each method one atomic step. *)

From Stdlib Require Import Strings.Byte.
From S2P Require Import Prelude GoTime Tags.

Definition uuid_Nil : uuid := 0%N.

(** ** Column types *)

Record NullTime := mkNullTime { nt_Time : Time; nt_Valid : bool }.
Definition noTime : NullTime := mkNullTime zeroTime false.
Record NullString := mkNullString { ns_String : string; ns_Valid : bool }.
Record NullInt64 := mkNullInt64 { ni_Int64 : Z; ni_Valid : bool }.

Inductive WorkspaceTransition := TransitionStart | TransitionStop | TransitionDelete.
#[export] Instance WorkspaceTransition_eq_dec : EqDecision WorkspaceTransition.
Proof. solve_decision. Defined.

Inductive BuildReason :=
  ReasonInitiator | ReasonAutostart | ReasonAutostop | ReasonDormancy
| ReasonFailedstop | ReasonAutodelete.
#[export] Instance BuildReason_eq_dec : EqDecision BuildReason.
Proof. solve_decision. Defined.

Inductive UserStatus := UserActive | UserSuspended | UserDormant.
#[export] Instance UserStatus_eq_dec : EqDecision UserStatus.
Proof. solve_decision. Defined.

Inductive LoginType :=
  LoginTypePassword | LoginTypeGithub | LoginTypeOIDC | LoginTypeToken | LoginTypeNone | LoginTypeOAuth2ProviderApp.
#[export] Instance LoginType_eq_dec : EqDecision LoginType.
Proof. solve_decision. Defined.

Inductive AutomaticUpdates := AutomaticUpdatesAlways | AutomaticUpdatesNever.
#[export] Instance AutomaticUpdates_eq_dec : EqDecision AutomaticUpdates.
Proof. solve_decision. Defined.

Inductive ProvisionerType := ProvisionerEcho | ProvisionerTerraform.
#[export] Instance ProvisionerType_eq_dec : EqDecision ProvisionerType.
Proof. solve_decision. Defined.

Inductive ProvisionerJobType := JobTemplateVersionImport | JobWorkspaceBuild | JobTemplateVersionDryRun.
#[export] Instance ProvisionerJobType_eq_dec : EqDecision ProvisionerJobType.
Proof. solve_decision. Defined.

Inductive ProvisionerJobStatus :=
  JobPending | JobRunning | JobSucceeded | JobCanceling | JobCanceled | JobFailed | JobUnknown.
#[export] Instance ProvisionerJobStatus_eq_dec : EqDecision ProvisionerJobStatus.
Proof. solve_decision. Defined.

(** ** Rows *)

Record User := mkUser {
  u_ID : uuid;
  u_Username : string;
  u_Status : UserStatus;
  u_Deleted : bool;
  u_QuietHoursSchedule : string;
  u_RBACRoles : list string;
  u_CreatedAt : Time;
  u_UpdatedAt : Time;
  u_LoginType : LoginType;
  u_LastSeenAt : Time;
}.

Record WorkspaceTable := mkWorkspace {
  ws_ID : uuid;
  ws_CreatedAt : Time;
  ws_UpdatedAt : Time;
  ws_OwnerID : uuid;
  ws_OrganizationID : uuid;
  ws_TemplateID : uuid;
  ws_Deleted : bool;
  ws_Name : string;
  ws_AutostartSchedule : NullString;
  ws_Ttl : NullInt64;
  ws_LastUsedAt : Time;
  ws_DormantAt : NullTime;
  ws_DeletingAt : NullTime;
  ws_AutomaticUpdates : AutomaticUpdates;
  ws_Favorite : bool;
}.

Record WorkspaceBuild := mkBuild {
  wb_ID : uuid;
  wb_CreatedAt : Time;
  wb_UpdatedAt : Time;
  wb_WorkspaceID : uuid;
  wb_TemplateVersionID : uuid;
  wb_BuildNumber : Z;
  wb_Transition : WorkspaceTransition;
  wb_InitiatorID : uuid;
  wb_JobID : uuid;
  wb_Deadline : Time;
  wb_Reason : BuildReason;
  wb_MaxDeadline : Time;
  wb_ProvisionerState : list byte;
  wb_DailyCost : Z;                        (* int32 *)
}.

Record TemplateTable := mkTemplate {
  tpl_ID : uuid;
  tpl_UpdatedAt : Time;
  tpl_OrganizationID : uuid;
  tpl_Name : string;
  tpl_ActiveVersionID : uuid;
  tpl_DefaultTTL : Z;
  tpl_AllowUserAutostart : bool;
  tpl_AllowUserAutostop : bool;
  tpl_FailureTTL : Z;
  tpl_TimeTilDormant : Z;
  tpl_TimeTilDormantAutoDelete : Z;
  tpl_AutostopRequirementDaysOfWeek : Z;   (* int16 *)
  tpl_AutostopRequirementWeeks : Z;
  tpl_AutostartBlockDaysOfWeek : Z;        (* int16 *)
  tpl_RequireActiveVersion : bool;
  tpl_ActivityBump : Z;
  tpl_Provisioner : ProvisionerType;
  tpl_AllowUserCancelWorkspaceJobs : bool;
  tpl_UserACL : gmap string (list string);
  tpl_GroupACL : gmap string (list string);
}.

Record TemplateVersion := mkTemplateVersion {
  tv_ID : uuid;
  tv_TemplateID : option uuid;
  tv_Name : string;
  tv_Message : string;
  tv_JobID : uuid;
  tv_UpdatedAt : Time;
  tv_Readme : string;
  tv_ExternalAuthProviders : string;       (* JSON *)
  tv_OrganizationID : uuid;
}.

Record ProvisionerJob := mkJob {
  pj_ID : uuid;
  pj_CreatedAt : Time;
  pj_UpdatedAt : Time;
  pj_StartedAt : NullTime;
  pj_CanceledAt : NullTime;
  pj_CompletedAt : NullTime;
  pj_Error : NullString;
  pj_OrganizationID : uuid;
  pj_InitiatorID : uuid;
  pj_Provisioner : ProvisionerType;
  pj_Type : ProvisionerJobType;
  pj_Input : string;
  pj_WorkerID : option uuid;
  pj_FileID : uuid;
  pj_Tags : gmap string string;
  pj_ErrorCode : NullString;
  pj_JobStatus : ProvisionerJobStatus;
}.

(** A parameter of a template version.  The [options] column, a JSON text, is
    given as what it decodes to: the options' values, or the decoding error. *)
Record TemplateVersionParameter := mkTVP {
  tvp_TemplateVersionID : uuid;
  tvp_Name : string;
  tvp_Description : string;
  tvp_Type : string;
  tvp_Mutable : bool;
  tvp_DefaultValue : string;
  tvp_Options : result (list string);
  tvp_ValidationRegex : string;
  tvp_ValidationMin : option Z;      (* int32 *)
  tvp_ValidationMax : option Z;      (* int32 *)
  tvp_ValidationError : string;
  tvp_ValidationMonotonic : string;
  tvp_Required : bool;
  tvp_DisplayName : string;
  tvp_DisplayOrder : Z;              (* int32 *)
  tvp_Ephemeral : bool;
}.

Record TemplateVersionWorkspaceTag := mkTVWT {
  wt_TemplateVersionID : uuid;
  wt_Key : string;
  wt_Value : string;
}.

Record WorkspaceBuildParameter := mkWBP {
  wbp_WorkspaceBuildID : uuid;
  wbp_Name : string;
  wbp_Value : string;
}.

Record ParameterSchema := mkParameterSchema { ps_JobID : uuid; ps_Name : string; ps_Index : Z }.

(** *** What provisioning leaves *)

Inductive LogLevel := LogLevelTrace | LogLevelDebug | LogLevelInfo | LogLevelWarn | LogLevelError.
Inductive LogSource := LogSourceProvisionerDaemon | LogSourceProvisioner.

Record ProvisionerJobLog := mkJobLog {
  jl_JobID : uuid;
  jl_CreatedAt : Time;
  jl_Source : LogSource;
  jl_Level : LogLevel;
  jl_Stage : string;
  jl_Output : string;
  jl_ID : Z;                               (* int64 *)
}.

Record TemplateVersionVariable := mkVariable {
  tvv_TemplateVersionID : uuid;
  tvv_Name : string;
  tvv_Description : string;
  tvv_Type : string;
  tvv_Value : string;
  tvv_DefaultValue : string;
  tvv_Required : bool;
  tvv_Sensitive : bool;
}.

Record WorkspaceResource := mkResource {
  wr_ID : uuid;
  wr_CreatedAt : Time;
  wr_JobID : uuid;
  wr_Transition : WorkspaceTransition;
  wr_Type : string;
  wr_Name : string;
  wr_Hide : bool;
  wr_Icon : string;
  wr_InstanceType : NullString;
  wr_DailyCost : Z;                        (* int32 *)
  wr_ModulePath : NullString;
}.

Record WorkspaceResourceMetadatum := mkResourceMetadatum {
  wrm_WorkspaceResourceID : uuid;
  wrm_Key : string;
  wrm_Value : NullString;
  wrm_Sensitive : bool;
  wrm_ID : Z;                              (* int64 *)
}.

Record WorkspaceModule := mkModule {
  wm_ID : uuid;
  wm_JobID : uuid;
  wm_Transition : WorkspaceTransition;
  wm_Source : string;
  wm_Version : string;
  wm_Key : string;
  wm_CreatedAt : Time;
}.

Inductive DisplayApp := AppVscode | AppVscodeInsiders | AppWebTerminal | AppSSHHelper | AppPortForwardingHelper.

(** The columns that are set when the agent is created; it starts in the
    lifecycle state [created] and never connected. *)
Record WorkspaceAgent := mkAgent {
  wa_ID : uuid;
  wa_CreatedAt : Time;
  wa_UpdatedAt : Time;
  wa_Name : string;
  wa_ResourceID : uuid;
  wa_AuthToken : uuid;
  wa_AuthInstanceID : NullString;
  wa_Architecture : string;
  wa_EnvironmentVariables : option (gmap string string);
  wa_OperatingSystem : string;
  wa_Directory : string;
  wa_ConnectionTimeoutSeconds : Z;         (* int32 *)
  wa_TroubleshootingURL : string;
  wa_MOTDFile : string;
  wa_DisplayApps : list DisplayApp;
  wa_DisplayOrder : Z;                     (* int32 *)
}.

Record WorkspaceAgentMetadatum := mkAgentMetadatum {
  wam_WorkspaceAgentID : uuid;
  wam_DisplayName : string;
  wam_Key : string;
  wam_Script : string;
  wam_Timeout : Z;
  wam_Interval : Z;
  wam_DisplayOrder : Z;
}.

Record WorkspaceAgentLogSource := mkLogSource {
  wls_WorkspaceAgentID : uuid;
  wls_ID : uuid;
  wls_CreatedAt : Time;
  wls_DisplayName : string;
  wls_Icon : string;
}.

Record WorkspaceAgentScript := mkScript {
  was_WorkspaceAgentID : uuid;
  was_LogSourceID : uuid;
  was_LogPath : string;
  was_CreatedAt : Time;
  was_Script : string;
  was_Cron : string;
  was_StartBlocksLogin : bool;
  was_RunOnStart : bool;
  was_RunOnStop : bool;
  was_TimeoutSeconds : Z;
  was_DisplayName : string;
  was_ID : uuid;
}.

Inductive WorkspaceAppHealth := AppHealthDisabled | AppHealthInitializing | AppHealthHealthy | AppHealthUnhealthy.
Inductive AppSharingLevel := SharingOwner | SharingAuthenticated | SharingPublic.

Record WorkspaceApp := mkApp {
  app_ID : uuid;
  app_CreatedAt : Time;
  app_AgentID : uuid;
  app_DisplayName : string;
  app_Icon : string;
  app_Command : NullString;
  app_Url : NullString;
  app_HealthcheckUrl : string;
  app_HealthcheckInterval : Z;
  app_HealthcheckThreshold : Z;
  app_Health : WorkspaceAppHealth;
  app_Subdomain : bool;
  app_SharingLevel : AppSharingLevel;
  app_Slug : string;
  app_External : bool;
  app_DisplayOrder : Z;
  app_Hidden : bool;
}.

(** The tables that only provisioning writes. *)
Record Results := mkResults {
  provisionerJobLogs : list ProvisionerJobLog;
  templateVersionVariables : list TemplateVersionVariable;
  workspaceResources : list WorkspaceResource;
  workspaceResourceMetadata : list WorkspaceResourceMetadatum;
  workspaceModules : list WorkspaceModule;
  workspaceAgents : list WorkspaceAgent;
  workspaceAgentMetadata : list WorkspaceAgentMetadatum;
  workspaceAgentLogSources : list WorkspaceAgentLogSource;
  workspaceAgentScripts : list WorkspaceAgentScript;
  workspaceApps : list WorkspaceApp;
}.
Definition noResults : Results := mkResults [] [] [] [] [] [] [] [] [] [].

(** ** The store *)

Record Data := mkData {
  users : list User;
  templates : list TemplateTable;
  templateVersions : list TemplateVersion;
  workspaces : list WorkspaceTable;
  workspaceBuilds : list WorkspaceBuild;
  provisionerJobs : list ProvisionerJob;
  templateVersionParameters : list TemplateVersionParameter;
  templateVersionWorkspaceTags : list TemplateVersionWorkspaceTag;
  workspaceBuildParameters : list WorkspaceBuildParameter;
  parameterSchemas : list ParameterSchema;
  results : Results;
}.
Definition emptyData : Data := mkData [] [] [] [] [] [] [] [] [] [] noResults.

(** A database call: the store after the call, and its result.  An error keeps
    the store it happened in: [InTx] of the in-memory store has no rollback. *)
Definition DB (A : Type) : Type := Data -> Data * result A.

#[export] Instance DB_ret : MRet DB := fun A a d => (d, Ok a).
#[export] Instance DB_bind : MBind DB := fun A B f m d =>
  match m d with (d, Ok a) => f a d | (d, Err e) => (d, Err e) end.

Definition db_err {A} (e : string) : DB A := fun d => (d, Err e).
Definition db_read {A} (f : Data -> result A) : DB A := fun d => (d, f d).
Definition db_wrap {A} (context : string) (m : DB A) : DB A :=
  fun d => let '(d, r) := m d in (d, wrap context r).

(** [sql.ErrNoRows]. *)
Definition ErrNoRows : string := "sql: no rows in result set".

Definition or_no_rows {A} (o : option A) : result A :=
  match o with Some a => Ok a | None => Err ErrNoRows end.

(** A read inside a transaction: it leaves the store, and its error ends the transaction. *)
Lemma db_read_bind {A B} c (g : Data -> result A) (f : A -> DB B) d :
  (db_wrap c (db_read g) ≫= f) d =
  match g d with Ok a => f a d | Err e => (d, Err (c +:+ ": " +:+ e)) end.
Proof. unfold mbind, DB_bind, db_wrap, db_read. by destruct (g d). Qed.

Lemma db_wrap_bind {A B} c (m : DB A) (f : A -> DB B) d :
  (db_wrap c m ≫= f) d =
  match m d with (d', Ok a) => f a d' | (d', Err e) => (d', Err (c +:+ ": " +:+ e)) end.
Proof. unfold mbind, DB_bind, db_wrap. by destruct (m d) as [? []]. Qed.

Lemma db_bind_eq {A B} (m : DB A) (f : A -> DB B) d :
  (m ≫= f) d = match m d with (d', Ok a) => f a d' | (d', Err e) => (d', Err e) end.
Proof. done. Qed.

(** *** Methods that leave a part of the store *)

Definition preserves {A B} (f : Data -> B) (m : DB A) : Prop := forall d, f (m d).1 = f d.

Section Preserves.
Context {B : Type} (f : Data -> B).

Lemma preserves_ret {A} (a : A) : preserves f (mret a : DB A).
Proof. done. Qed.

Lemma preserves_read {A} (g : Data -> result A) : preserves f (db_read g).
Proof. done. Qed.

Lemma preserves_wrap {A} c (m : DB A) : preserves f m -> preserves f (db_wrap c m).
Proof. intros Hm d. specialize (Hm d). unfold db_wrap. destruct (m d). exact Hm. Qed.

Lemma preserves_bind {A C} (m : DB A) (k : A -> DB C) :
  preserves f m -> (forall a, preserves f (k a)) -> preserves f (m ≫= k).
Proof.
  intros Hm Hk d. specialize (Hm d). unfold mbind, DB_bind. destruct (m d) as [d1 [a|e]]; [|exact Hm].
  simpl in Hm. rewrite <- Hm. apply Hk.
Qed.
End Preserves.
Create HintDb preserves.
#[export] Hint Resolve preserves_ret preserves_read preserves_wrap preserves_bind : preserves.

(** ** Derived columns *)

Definition provisionerJobStatus (j : ProvisionerJob) : ProvisionerJobStatus :=
  if nt_Valid (pj_CompletedAt j) then
    if negb (bool_decide (ns_String (pj_Error j) = ""%string)) then JobFailed
    else if nt_Valid (pj_CanceledAt j) then JobCanceled
    else JobSucceeded
  else if nt_Valid (pj_CanceledAt j) then JobCanceling
  else if negb (nt_Valid (pj_StartedAt j)) then JobPending
  else JobRunning.

Definition Finished (p : ProvisionerJob) : bool :=
  nt_Valid (pj_CanceledAt p) || nt_Valid (pj_CompletedAt p).

Definition FinishedAt (p : ProvisionerJob) : Time :=
  if nt_Valid (pj_CompletedAt p) then nt_Time (pj_CompletedAt p)
  else if nt_Valid (pj_CanceledAt p) then nt_Time (pj_CanceledAt p)
  else zeroTime.

(** [^uint8(t.AutostartBlockDaysOfWeek) & 0b01111111]. *)
Definition AutostartAllowedDays (t : TemplateTable) : Z :=
  Z.land (255 - wrapu 8 (tpl_AutostartBlockDaysOfWeek t)) 127.

Definition maxTime (t u : Time) : Time := if After t u then t else u.
Definition minTime (t u : Time) : Time := if Before t u then t else u.

(** ** Reads *)

Definition getUserByIDNoLock (id : uuid) (d : Data) : result User :=
  or_no_rows (find_first (fun u => (u_ID u =? id)%N) (users d)).

Definition getWorkspaceNoLock (find : WorkspaceTable -> bool) (d : Data) : result WorkspaceTable :=
  or_no_rows (find_first find (workspaces d)).

Definition getWorkspaceByIDNoLock (id : uuid) (d : Data) : result WorkspaceTable :=
  getWorkspaceNoLock (fun w => (ws_ID w =? id)%N) d.

Definition getTemplateByIDNoLock (id : uuid) (d : Data) : result TemplateTable :=
  or_no_rows (find_first (fun t => (tpl_ID t =? id)%N) (templates d)).

Definition getTemplateVersionByIDNoLock (id : uuid) (d : Data) : result TemplateVersion :=
  or_no_rows (find_first (fun t => (tv_ID t =? id)%N) (templateVersions d)).

Definition getProvisionerJobByIDNoLock (id : uuid) (d : Data) : result ProvisionerJob :=
  or_no_rows (find_first (fun j => (pj_ID j =? id)%N) (provisionerJobs d)).

(** The loop of [getLatestWorkspaceBuildByWorkspaceIDNoLock]: the row kept so
    far and its build number, -1 when none was seen. *)
Fixpoint latest_build_loop (id : uuid) (l : list WorkspaceBuild)
    (row : option WorkspaceBuild) (buildNum : Z) : option WorkspaceBuild * Z :=
  match l with
  | [] => (row, buildNum)
  | b :: l =>
      if (wb_WorkspaceID b =? id)%N && (buildNum <? wb_BuildNumber b)
      then latest_build_loop id l (Some b) (wb_BuildNumber b)
      else latest_build_loop id l row buildNum
  end.

Definition getLatestWorkspaceBuildByWorkspaceIDNoLock (id : uuid) (d : Data) : result WorkspaceBuild :=
  let '(row, buildNum) := latest_build_loop id (workspaceBuilds d) None (-1) in
  if buildNum =? -1 then Err ErrNoRows else or_no_rows row.

(** [GetLatestWorkspaceBuildsByWorkspaceIDs]: the maps [builds] and
    [buildNumbers], filled by one pass over the build table. *)
Definition latest_builds_step (ids : list uuid) (m : gmap uuid WorkspaceBuild) (b : WorkspaceBuild)
    : gmap uuid WorkspaceBuild :=
  foldl (fun m id =>
    if (id =? wb_WorkspaceID b)%N &&
       (match m !! id with Some c => wb_BuildNumber c | None => 0 end <? wb_BuildNumber b)
    then <[id := b]> m else m) m ids.

Definition GetLatestWorkspaceBuildsByWorkspaceIDs (ids : list uuid) (d : Data) : result (list WorkspaceBuild) :=
  let m := foldl (latest_builds_step ids) ∅ (workspaceBuilds d) in
  let returnBuilds := List.filter (fun b => 0 <? wb_BuildNumber b) (map_to_list m).*2 in
  match returnBuilds with
  | [] => Err ErrNoRows
  | _ => Ok returnBuilds
  end.

Definition GetActiveWorkspaceBuildsByTemplateID (templateID : uuid) (d : Data) : result (list WorkspaceBuild) :=
  let workspaceIDs := ws_ID <$> List.filter (fun w => (ws_TemplateID w =? templateID)%N) (workspaces d) in
  builds ← GetLatestWorkspaceBuildsByWorkspaceIDs workspaceIDs d;
  Ok (List.filter (fun b => bool_decide (wb_Transition b = TransitionStart)) builds).

(** One iteration of [GetWorkspacesEligibleForTransition]: whether the row of
    [workspace] is part of the answer. *)
Definition eligible_for_transition (now : Time) (d : Data) (workspace : WorkspaceTable) : result bool :=
  build ← wrap "get workspace build by ID" (getLatestWorkspaceBuildByWorkspaceIDNoLock (ws_ID workspace) d);
  user ← wrap "get user by ID" (getUserByIDNoLock (ws_OwnerID workspace) d);
  job ← wrap "get provisioner job by ID" (getProvisionerJobByIDNoLock (wb_JobID build) d);
  template ← wrap "get template by ID" (getTemplateByIDNoLock (ws_TemplateID workspace) d);
  let failed := bool_decide (pj_JobStatus job = JobFailed) in
  if ws_Deleted workspace then Ok false
  else if negb failed && negb (nt_Valid (ws_DormantAt workspace)) &&
          bool_decide (wb_Transition build = TransitionStart) &&
          (bool_decide (u_Status user = UserSuspended) ||
           (negb (IsZero (wb_Deadline build)) && Before (wb_Deadline build) now))
  then Ok true
  else if bool_decide (u_Status user = UserActive) && negb failed &&
          bool_decide (wb_Transition build = TransitionStop) && ns_Valid (ws_AutostartSchedule workspace)
  then Ok true
  else if negb (nt_Valid (ws_DormantAt workspace)) && (0 <? tpl_TimeTilDormant template) &&
          (tpl_TimeTilDormant template <? Sub now (ws_LastUsedAt workspace))
  then Ok true
  else if nt_Valid (ws_DormantAt workspace) && nt_Valid (ws_DeletingAt workspace) &&
          Before (nt_Time (ws_DeletingAt workspace)) now && (0 <? tpl_TimeTilDormantAutoDelete template)
  then
    if bool_decide (wb_Transition build = TransitionDelete) && failed then
      if nt_Valid (pj_CanceledAt job) && (Sub now (nt_Time (pj_CanceledAt job)) <=? 24 * Hour) then Ok false
      else if nt_Valid (pj_CompletedAt job) && (Sub now (nt_Time (pj_CompletedAt job)) <=? 24 * Hour) then Ok false
      else Ok true
    else Ok true
  else if (0 <? tpl_FailureTTL template) && bool_decide (wb_Transition build = TransitionStart) &&
          failed && nt_Valid (pj_CompletedAt job) &&
          (tpl_FailureTTL template <? Sub now (nt_Time (pj_CompletedAt job)))
  then Ok true
  else Ok false.

Fixpoint eligible_loop (now : Time) (d : Data) (l : list WorkspaceTable) : result (list (uuid * string)) :=
  match l with
  | [] => Ok []
  | w :: l =>
      b ← eligible_for_transition now d w;
      rows ← eligible_loop now d l;
      Ok (if b : bool then (ws_ID w, ws_Name w) :: rows else rows)
  end.

Definition GetWorkspacesEligibleForTransition (now : Time) (d : Data) : result (list (uuid * string)) :=
  eligible_loop now d (workspaces d).

Definition GetHungProvisionerJobs (hungSince : Time) (d : Data) : list ProvisionerJob :=
  List.filter (fun j => nt_Valid (pj_StartedAt j) && negb (nt_Valid (pj_CompletedAt j)) &&
                        Before (pj_UpdatedAt j) hungSince) (provisionerJobs d).

(** The rows of [GetProvisionerJobsByIDsWithQueuePosition]. *)
Record JobWithQueue := mkJobWithQueue {
  jq_Job : ProvisionerJob;
  jq_QueuePosition : Z;
  jq_QueueSize : Z;
}.

(** The first loop: the rows found and the final [queuePosition]. *)
Fixpoint queue_loop (ids : list uuid) (l : list ProvisionerJob) (queuePosition : Z)
    : list JobWithQueue * Z :=
  match l with
  | [] => ([], queuePosition)
  | job :: l =>
      let pending := negb (nt_Valid (pj_StartedAt job)) in
      let '(rows, last) := queue_loop ids l (if pending then queuePosition + 1 else queuePosition) in
      let row := mkJobWithQueue job (if pending then queuePosition else 0) 0 in
      (if existsb (N.eqb (pj_ID job)) ids then row :: rows else rows, last)
  end.

(** The second loop, [for _, job := range jobs { job.QueueSize = ... }], assigns
    to the loop variable, a copy of the row: the rows are returned unchanged. *)
Definition GetProvisionerJobsByIDsWithQueuePosition (ids : list uuid) (d : Data) : list JobWithQueue :=
  (queue_loop ids (provisionerJobs d) 1).1.

(** ** Writes *)

(** A method that updates the first row of a table that matches. *)
Definition update_table {A} (get : Data -> list A) (set : list A -> Data -> Data)
    (p : A -> bool) (f : A -> A) : DB A := fun d =>
  match update_first p f (get d) with
  | Some (x, l) => (set l d, Ok x)
  | None => (d, Err ErrNoRows)
  end.

Definition set_users (l : list User) (d : Data) : Data := d{{users := l}}.
Definition set_templates (l : list TemplateTable) (d : Data) : Data := d{{templates := l}}.
Definition set_workspaces (l : list WorkspaceTable) (d : Data) : Data := d{{workspaces := l}}.
Definition set_builds (l : list WorkspaceBuild) (d : Data) : Data := d{{workspaceBuilds := l}}.
Definition set_jobs (l : list ProvisionerJob) (d : Data) : Data := d{{provisionerJobs := l}}.

Record UpdateTemplateScheduleByIDParams := mkUpdateTemplateSchedule {
  uts_ID : uuid;
  uts_UpdatedAt : Time;
  uts_AllowUserAutostart : bool;
  uts_AllowUserAutostop : bool;
  uts_DefaultTTL : Z;
  uts_ActivityBump : Z;
  uts_AutostopRequirementDaysOfWeek : Z;
  uts_AutostopRequirementWeeks : Z;
  uts_AutostartBlockDaysOfWeek : Z;
  uts_FailureTTL : Z;
  uts_TimeTilDormant : Z;
  uts_TimeTilDormantAutoDelete : Z;
}.

Definition UpdateTemplateScheduleByID (now : Time) (arg : UpdateTemplateScheduleByIDParams) : DB unit :=
  _ ← update_table templates set_templates (fun t => (tpl_ID t =? uts_ID arg)%N)
        (fun tpl => tpl{{ tpl_AllowUserAutostart := uts_AllowUserAutostart arg;
                          tpl_AllowUserAutostop := uts_AllowUserAutostop arg;
                          tpl_UpdatedAt := now;
                          tpl_DefaultTTL := uts_DefaultTTL arg;
                          tpl_ActivityBump := uts_ActivityBump arg;
                          tpl_AutostopRequirementDaysOfWeek := uts_AutostopRequirementDaysOfWeek arg;
                          tpl_AutostopRequirementWeeks := uts_AutostopRequirementWeeks arg;
                          tpl_AutostartBlockDaysOfWeek := uts_AutostartBlockDaysOfWeek arg;
                          tpl_FailureTTL := uts_FailureTTL arg;
                          tpl_TimeTilDormant := uts_TimeTilDormant arg;
                          tpl_TimeTilDormantAutoDelete := uts_TimeTilDormantAutoDelete arg }});
  mret tt.

Definition UpdateWorkspaceBuildDeadlineByID (id : uuid) (updatedAt deadline maxDeadline : Time) : DB unit :=
  _ ← update_table workspaceBuilds set_builds (fun b => (wb_ID b =? id)%N)
        (fun b => b{{ wb_Deadline := deadline; wb_MaxDeadline := maxDeadline; wb_UpdatedAt := updatedAt }});
  mret tt.

Definition UpdateUserQuietHoursSchedule (id : uuid) (schedule : string) : DB User :=
  update_table users set_users (fun u => (u_ID u =? id)%N)
    (fun u => u{{ u_QuietHoursSchedule := schedule }}).

(** The row after [UpdateWorkspaceDormantDeletingAt], or the error of a
    workspace whose template does not exist. *)
Definition dormant_deleting_at (now : Time) (tpls : list TemplateTable) (dormantAt : NullTime)
    (w : WorkspaceTable) : result WorkspaceTable :=
  let w := w{{ ws_DormantAt := dormantAt }} in
  if IsZero (nt_Time dormantAt) then Ok (w{{ ws_LastUsedAt := now; ws_DeletingAt := noTime }})
  else
    match find_first (fun t => (tpl_ID t =? ws_TemplateID w)%N) tpls with
    | Some t =>
        if (tpl_ID t =? uuid_Nil)%N then Err "unable to find workspace template"
        else if 0 <? tpl_TimeTilDormantAutoDelete t then
          Ok (w{{ ws_DeletingAt := mkNullTime (Add (nt_Time dormantAt) (tpl_TimeTilDormantAutoDelete t)) true }})
        else Ok w
    | None => Err "unable to find workspace template"
    end.

Definition UpdateWorkspaceDormantDeletingAt (now : Time) (id : uuid) (dormantAt : NullTime)
    : DB WorkspaceTable := fun d =>
  match find_first (fun w => (ws_ID w =? id)%N) (workspaces d) with
  | None => (d, Err ErrNoRows)
  | Some w =>
      match dormant_deleting_at now (templates d) dormantAt w with
      | Err e => (d, Err e)
      | Ok w' => update_table workspaces set_workspaces (fun w => (ws_ID w =? id)%N) (fun _ => w') d
      end
  end.

(** One row of [UpdateWorkspacesDormantDeletingAtByTemplateID]; [None] for a row
    the loop skips. *)
Definition dormant_row (templateID : uuid) (autodeleteMs : Z) (dormantAt : Time) (w : WorkspaceTable)
    : option WorkspaceTable :=
  if negb (ws_TemplateID w =? templateID)%N then None
  else if IsZero (nt_Time (ws_DormantAt w)) then None
  else
    let w := if negb (IsZero dormantAt) then w{{ ws_DormantAt := mkNullTime dormantAt true }} else w in
    let deletingAt :=
      if 0 <? autodeleteMs
      then mkNullTime (Add (nt_Time (ws_DormantAt w)) (autodeleteMs * 1000000)) true
      else noTime in
    Some (w{{ ws_DeletingAt := deletingAt }}).

Definition UpdateWorkspacesDormantDeletingAtByTemplateID (templateID : uuid) (autodeleteMs : Z)
    (dormantAt : Time) : DB (list WorkspaceTable) := fun d =>
  let row := dormant_row templateID autodeleteMs dormantAt in
  (d{{ workspaces := (fun w => default w (row w)) <$> workspaces d }}, Ok (omap row (workspaces d))).

(** [ActivityBumpWorkspace].  The duration the deadline is moved to from now. *)
Definition bump_duration (now nextAutostart : Time) (workspace : WorkspaceTable) (template : TemplateTable) : Z :=
  let activityBump := tpl_ActivityBump template in
  if After (Add now activityBump) nextAutostart && After nextAutostart now then
    Sub nextAutostart now +
    (if ni_Valid (ws_Ttl workspace) && tpl_AllowUserAutostop template
     then ni_Int64 (ws_Ttl workspace) else tpl_DefaultTTL template)
  else activityBump.

(** The build after the bump; [None] when the call leaves it alone. *)
Definition bumped_build (now : Time) (ttlDur : Z) (b : WorkspaceBuild) : option WorkspaceBuild :=
  let ttlDur95 := ttlDur - Z.quot ttlDur 20 in
  let minBumpDeadline := Add (wb_Deadline b) (- ttlDur95) in
  if Before now minBumpDeadline then None
  else
    let newDeadline := maxTime (Add now ttlDur) (wb_Deadline b) in
    let b := b{{ wb_UpdatedAt := now }} in
    Some (if negb (IsZero (wb_MaxDeadline b))
          then b{{ wb_Deadline := minTime newDeadline (wb_MaxDeadline b) }}
          else b{{ wb_Deadline := newDeadline }}).

(** The body of the loop for the build [b] it stops at. *)
Definition bump_body (now nextAutostart : Time) (workspace : WorkspaceTable) (b : WorkspaceBuild) (d : Data)
    : result (option WorkspaceBuild) :=
  if negb (bool_decide (wb_Transition b = TransitionStart)) then Ok None
  else
    pj ← getProvisionerJobByIDNoLock (wb_JobID b) d;
    if negb (nt_Valid (pj_CompletedAt pj)) then Ok None
    else if IsZero (wb_Deadline b) then Ok None
    else
      template ← getTemplateByIDNoLock (ws_TemplateID workspace) d;
      if tpl_ActivityBump template =? 0 then Ok None
      else Ok (bumped_build now (bump_duration now nextAutostart workspace template) b).

(** The loop over the build table stops at the first row whose build number is
    that of the workspace's latest build. *)
Definition ActivityBumpWorkspace (now : Time) (workspaceID : uuid) (nextAutostart : Time) : DB unit := fun d =>
  match getWorkspaceByIDNoLock workspaceID d with
  | Err e => (d, Err e)
  | Ok workspace =>
      match getLatestWorkspaceBuildByWorkspaceIDNoLock workspaceID d with
      | Err e => (d, Err e)
      | Ok latestBuild =>
          let p b := wb_BuildNumber b =? wb_BuildNumber latestBuild in
          match find_first p (workspaceBuilds d) with
          | None => (d, Err ErrNoRows)
          | Some b =>
              match bump_body now nextAutostart workspace b d with
              | Err e => (d, Err e)
              | Ok None => (d, Ok tt)
              | Ok (Some b') =>
                  (_ ← update_table workspaceBuilds set_builds p (fun _ => b'); mret tt) d
              end
          end
      end
  end.

(** *** The provisioner job queue *)

Record AcquireProvisionerJobParams := mkAcquire {
  ap_StartedAt : NullTime;
  ap_WorkerID : option uuid;
  ap_OrganizationID : uuid;
  ap_Types : list ProvisionerType;
  (** [None] for a nil message, otherwise the outcome of [json.Unmarshal] on it. *)
  ap_ProvisionerTags : option (result TagMap);
}.

Definition acquired (arg : AcquireProvisionerJobParams) (j : ProvisionerJob) : ProvisionerJob :=
  let j := j{{ pj_StartedAt := ap_StartedAt arg;
               pj_UpdatedAt := nt_Time (ap_StartedAt arg);
               pj_WorkerID := ap_WorkerID arg }} in
  j{{ pj_JobStatus := provisionerJobStatus j }}.

Fixpoint acquire_loop (arg : AcquireProvisionerJobParams) (l : list ProvisionerJob)
    : result (ProvisionerJob * list ProvisionerJob) :=
  match l with
  | [] => Err ErrNoRows
  | j :: l =>
      let continue := '(j', l') ← acquire_loop arg l; Ok (j', j :: l') in
      if negb (pj_OrganizationID j =? ap_OrganizationID arg)%N then continue
      else if nt_Valid (pj_StartedAt j) then continue
      else if negb (existsb (fun t => bool_decide (pj_Provisioner j = t)) (ap_Types arg)) then continue
      else
        tags ← (match ap_ProvisionerTags arg with None => Ok ∅ | Some r => wrap "unmarshal" r end);
        if tagsEqual (pj_Tags j) tagsUntagged && negb (tagsEqual (pj_Tags j) tags) then continue
        else if negb (tagsSubset (pj_Tags j) tags) then continue
        else Ok (acquired arg j, acquired arg j :: l)
  end.

Definition AcquireProvisionerJob (arg : AcquireProvisionerJobParams) : DB ProvisionerJob := fun d =>
  match acquire_loop arg (provisionerJobs d) with
  | Ok (j, l) => (set_jobs l d, Ok j)
  | Err e => (d, Err e)
  end.

Record InsertProvisionerJobParams := mkInsertJob {
  ij_ID : uuid;
  ij_CreatedAt : Time;
  ij_UpdatedAt : Time;
  ij_OrganizationID : uuid;
  ij_InitiatorID : uuid;
  ij_Provisioner : ProvisionerType;
  ij_FileID : uuid;
  ij_Type : ProvisionerJobType;
  ij_Input : string;
  ij_Tags : TagMap;
}.

Definition noString : NullString := mkNullString "" false.

Definition InsertProvisionerJob (arg : InsertProvisionerJobParams) : DB ProvisionerJob := fun d =>
  let job := mkJob (ij_ID arg) (ij_CreatedAt arg) (ij_UpdatedAt arg) noTime noTime noTime noString
               (ij_OrganizationID arg) (ij_InitiatorID arg) (ij_Provisioner arg) (ij_Type arg)
               (ij_Input arg) None (ij_FileID arg) (ij_Tags arg) noString JobUnknown in
  let job := job{{ pj_JobStatus := provisionerJobStatus job }} in
  (set_jobs (provisionerJobs d ++ [job]) d, Ok job).

(** The update methods of a job recompute its status column from the new row. *)
Definition update_job (id : uuid) (f : ProvisionerJob -> ProvisionerJob) : DB unit :=
  _ ← update_table provisionerJobs set_jobs (fun j => (id =? pj_ID j)%N)
        (fun j => let j := f j in j{{ pj_JobStatus := provisionerJobStatus j }});
  mret tt.

Definition UpdateProvisionerJobByID (id : uuid) (updatedAt : Time) : DB unit :=
  update_job id (fun j => j{{ pj_UpdatedAt := updatedAt }}).

Definition UpdateProvisionerJobWithCancelByID (id : uuid) (canceledAt completedAt : NullTime) : DB unit :=
  update_job id (fun j => j{{ pj_CanceledAt := canceledAt; pj_CompletedAt := completedAt }}).

Definition UpdateProvisionerJobWithCompleteByID (id : uuid) (updatedAt : Time) (completedAt : NullTime)
    (error errorCode : NullString) : DB unit :=
  update_job id (fun j => j{{ pj_UpdatedAt := updatedAt; pj_CompletedAt := completedAt;
                              pj_Error := error; pj_ErrorCode := errorCode }}).

Definition InsertWorkspaceBuild (b : WorkspaceBuild) : DB unit := fun d =>
  (set_builds (workspaceBuilds d ++ [b]) d, Ok tt).

(** [InTx] runs [fn] on the same store under the lock; nothing is undone when
    [fn] fails. *)
Definition InTx {A} (fn : DB A) : DB A := fn.

(** * Theorems *)

Lemma jobs_set_jobs l d : provisionerJobs (set_jobs l d) = l.
Proof. done. Qed.
Lemma builds_set_builds l d : workspaceBuilds (set_builds l d) = l.
Proof. done. Qed.
Lemma workspaces_set_workspaces l d : workspaces (set_workspaces l d) = l.
Proof. done. Qed.
Create HintDb db.
Create Rewrite HintDb db.
#[export] Hint Rewrite jobs_set_jobs builds_set_builds : db.

(** ** The job queue as a state machine *)

(** The calls that change the job table.  An inserted job has a new ID, as
    [uuid.New] gives it. *)
Inductive job_step : Data -> Data -> Prop :=
| step_insert arg d :
    ij_ID arg ∉ pj_ID <$> provisionerJobs d ->
    job_step d (InsertProvisionerJob arg d).1
| step_acquire arg d :
    nt_Valid (ap_StartedAt arg) = true -> job_step d (AcquireProvisionerJob arg d).1
| step_update id t d : job_step d (UpdateProvisionerJobByID id t d).1
| step_cancel id t u d : job_step d (UpdateProvisionerJobWithCancelByID id t u d).1
| step_complete id t u e c d : job_step d (UpdateProvisionerJobWithCompleteByID id t u e c d).1.

(** The job table a reachable store holds: IDs are unique, and the status column
    is the one computed from the other columns. *)
Record jobs_ok (d : Data) : Prop := {
  jobs_nodup : NoDup (pj_ID <$> provisionerJobs d);
  jobs_status : Forall (fun j => pj_JobStatus j = provisionerJobStatus j) (provisionerJobs d);
}.

Definition startable (arg : AcquireProvisionerJobParams) (tags : TagMap) (j : ProvisionerJob) : Prop :=
  pj_OrganizationID j = ap_OrganizationID arg /\
  nt_Valid (pj_StartedAt j) = false /\
  pj_Provisioner j ∈ ap_Types arg /\
  (pj_Tags j = tagsUntagged -> tags = tagsUntagged) /\
  pj_Tags j ⊆ tags.

(** The tags an acquire request carries once decoded. *)
Definition request_tags (arg : AcquireProvisionerJobParams) : result TagMap :=
  match ap_ProvisionerTags arg with None => Ok ∅ | Some r => wrap "unmarshal" r end.

Lemma existsb_types j l :
  reflect (pj_Provisioner j ∈ l) (existsb (fun t => bool_decide (pj_Provisioner j = t)) l).
Proof.
  apply iff_reflect. rewrite existsb_exists, list_elem_of_In.
  setoid_rewrite bool_decide_eq_true. split; [eauto|by intros (? & ? & ->)].
Qed.

Ltac not_startable :=
  right; split; [let H := fresh in intros H; unfold startable in H; intuition congruence|done].

(** One row of the acquire loop: it takes the row exactly when it is startable. *)
Lemma acquire_loop_cons arg tags j l :
  request_tags arg = Ok tags ->
  (startable arg tags j /\ acquire_loop arg (j :: l) = Ok (acquired arg j, acquired arg j :: l)) \/
  (~ startable arg tags j /\
   acquire_loop arg (j :: l) = ('(j', l') ← acquire_loop arg l; Ok (j', j :: l'))).
Proof.
  intros Ht. unfold request_tags in Ht. simpl. rewrite Ht. simpl.
  destruct (N.eqb_spec (pj_OrganizationID j) (ap_OrganizationID arg)); simpl; [|not_startable].
  destruct (nt_Valid (pj_StartedAt j)) eqn:?; [not_startable|].
  destruct (existsb_types j (ap_Types arg)); simpl; [|not_startable].
  destruct (tagsEqual_spec (pj_Tags j) tagsUntagged), (tagsEqual_spec (pj_Tags j) tags); simpl;
    [|not_startable| |]; (destruct (tagsSubset_spec (pj_Tags j) tags); simpl; [|not_startable]);
    left; (split; [unfold startable; intuition congruence|done]).
Qed.

Lemma acquire_loop_spec arg tags l j l' :
  request_tags arg = Ok tags ->
  acquire_loop arg l = Ok (j, l') <->
  exists l1 j0 l2, l = l1 ++ j0 :: l2 /\ startable arg tags j0 /\
    Forall (fun k => ~ startable arg tags k) l1 /\
    j = acquired arg j0 /\ l' = l1 ++ acquired arg j0 :: l2.
Proof.
  intros Ht. revert j l'. induction l as [|x l IH]; intros j l'.
  { split; [done|]. intros (l1 & ? & ? & Heq & _). by destruct l1. }
  destruct (acquire_loop_cons arg tags x l Ht) as [[Hx ->]|[Hx ->]].
  - split.
    + intros ?; simplify_eq. by exists [], x, l.
    + intros ([|y l1] & j0 & l2 & ? & ? & Hl1 & -> & ->); simplify_eq/=; [done|].
      apply Forall_cons in Hl1 as [? _]. done.
  - split.
    + destruct (acquire_loop arg l) as [[j1 l1']|] eqn:E; [|done]. intros ?; simplify_eq/=.
      destruct (proj1 (IH j l1') eq_refl) as (l1 & j0 & l2 & -> & ? & ? & -> & ->).
      exists (x :: l1), j0, l2. auto.
    + intros ([|y l1] & j0 & l2 & ? & ? & Hl1 & -> & ->); simplify_eq/=; [done|].
      apply Forall_cons in Hl1 as [_ Hl1].
      by rewrite (proj2 (IH (acquired arg j0) (l1 ++ acquired arg j0 :: l2)));
        [|exists l1, j0, l2].
Qed.

Lemma acquire_loop_err arg l j l' :
  acquire_loop arg l = Ok (j, l') -> exists tags, request_tags arg = Ok tags.
Proof.
  revert j l'. induction l as [|x l IH]; intros j l'; simpl; [done|].
  assert (Hc : forall r, ('(j', l') ← acquire_loop arg l; Ok (j', x :: l')) = Ok r ->
                  exists tags, request_tags arg = Ok tags).
  { intros r ([j' k] & Hl & _)%bind_Ok. eauto. }
  destruct (negb _); [by eauto|]. destruct (nt_Valid _); [by eauto|]. destruct (negb _); [by eauto|].
  intros (tags & Ht & _)%bind_Ok. eauto.
Qed.

Lemma acquire_spec arg d d' j :
  AcquireProvisionerJob arg d = (d', Ok j) <->
  exists tags l1 j0 l2, request_tags arg = Ok tags /\
    provisionerJobs d = l1 ++ j0 :: l2 /\ startable arg tags j0 /\
    Forall (fun k => ~ startable arg tags k) l1 /\
    j = acquired arg j0 /\ d' = set_jobs (l1 ++ acquired arg j0 :: l2) d.
Proof.
  unfold AcquireProvisionerJob. split.
  - destruct (acquire_loop arg (provisionerJobs d)) as [[j1 l]|] eqn:E; [|done].
    intros ?; simplify_eq. destruct (acquire_loop_err _ _ _ _ E) as [tags Ht].
    destruct (proj1 (acquire_loop_spec _ _ _ _ _ Ht) E) as (l1 & j0 & l2 & Hd & Hs & Hn & -> & ->).
    by exists tags, l1, j0, l2.
  - intros (tags & l1 & j0 & l2 & Ht & Hd & Hs & Hn & -> & ->).
    by rewrite (proj2 (acquire_loop_spec arg tags _ (acquired arg j0) (l1 ++ acquired arg j0 :: l2) Ht));
      [|exists l1, j0, l2].
Qed.

(** A provisioner daemon that asks for a job gets the oldest one it may run.
    The acquired job is the first row of the queue that belongs to the
    daemon's organization, is not started, has a provisioner type the daemon
    offers and tags contained in the daemon's tags, where an untagged job goes
    to an untagged daemon only; that row, and no other, is marked started. *)
Lemma AcquireProvisionerJob_first arg tags d :
  request_tags arg = Ok tags ->
  match AcquireProvisionerJob arg d with
  | (d', Ok j) => exists l1 j0 l2,
      provisionerJobs d = l1 ++ j0 :: l2 /\ startable arg tags j0 /\
      Forall (fun k => ~ startable arg tags k) l1 /\
      j = acquired arg j0 /\ d' = set_jobs (l1 ++ j :: l2) d
  | (d', Err e) => e = ErrNoRows /\ d' = d /\
      Forall (fun k => ~ startable arg tags k) (provisionerJobs d)
  end.
Proof.
  intros Ht. destruct (AcquireProvisionerJob arg d) as [d' [j|e]] eqn:E.
  - apply acquire_spec in E as (tags' & l1 & j0 & l2 & Ht' & ? & ? & ? & -> & ->).
    rewrite Ht in Ht'. simplify_eq. by exists l1, j0, l2.
  - unfold AcquireProvisionerJob in E. destruct (acquire_loop _ _) as [[??]|e'] eqn:Hl; simplify_eq.
    revert Hl. generalize (provisionerJobs d'). intros l. induction l as [|x l IH]; simpl.
    + intros ?; simplify_eq. auto.
    + fold (acquire_loop arg). intros Hl.
      destruct (acquire_loop_cons arg tags x l Ht) as [[_ Hx]|[Hx Heq]];
        [simpl in Hx; congruence|].
      assert (Hl' : acquire_loop arg l = Err e).
      { simpl in Heq. rewrite Heq in Hl. apply bind_Err in Hl as [?|([??] & ? & ?)]; done. }
      destruct (IH Hl') as (-> & _ & ?). auto.
Qed.

(** A witness queue: a started job, one for another organization, and a match. *)
Definition example_time : Time := mkTime (1700000000 * Second) UTC.
Definition example_job (id org : N) (started : bool) : ProvisionerJob :=
  mkJob id example_time example_time (mkNullTime example_time started) noTime noTime noString org 7
    ProvisionerTerraform JobWorkspaceBuild "" None 0 tagsUntagged noString
    (if started then JobRunning else JobPending).
Definition example_queue : Data :=
  mkData [] [] [] [] [] [example_job 1 5 true; example_job 2 6 false; example_job 3 5 false] [] [] [] [] noResults.
Definition example_acquire (worker : N) : AcquireProvisionerJobParams :=
  mkAcquire (mkNullTime example_time true) (Some worker) 5 [ProvisionerTerraform]
    (Some (Ok tagsUntagged)).

Lemma AcquireProvisionerJob_first_witness :
  request_tags (example_acquire 9) = Ok tagsUntagged /\
  exists d' j, AcquireProvisionerJob (example_acquire 9) example_queue = (d', Ok j) /\ pj_ID j = 3%N /\
  exists l1 j0 l2,
      provisionerJobs example_queue = l1 ++ j0 :: l2 /\ startable (example_acquire 9) tagsUntagged j0.
Proof.
  split; [reflexivity|].
  pose proof (AcquireProvisionerJob_first (example_acquire 9) tagsUntagged example_queue eq_refl) as H.
  destruct (AcquireProvisionerJob (example_acquire 9) example_queue) as [d' [j|e]] eqn:E.
  - exists d', j. split; [reflexivity|]. destruct H as (l1 & j0 & l2 & H1 & H2 & _).
    split; [|exists l1, j0, l2; split; assumption].
    apply (f_equal (fun r => match r.2 with Ok j => pj_ID j | Err _ => 0%N end)) in E.
    vm_compute in E. symmetry. exact E.
  - apply (f_equal (fun r => is_ok r.2)) in E. vm_compute in E. discriminate E.
Defined.

(** *** Invariants of the queue *)

(** An update method either changes the first row with the ID, and that row's
    status column with it, or changes nothing. *)
Lemma update_job_table id f d :
  (exists l1 j l2, provisionerJobs d = l1 ++ j :: l2 /\
     provisionerJobs (update_job id f d).1 =
       l1 ++ (f j){{ pj_JobStatus := provisionerJobStatus (f j) }} :: l2) \/
  update_job id f d = (d, Err ErrNoRows).
Proof.
  unfold update_job, update_table, mbind, DB_bind.
  destruct (update_first _ _ _) as [[x l]|] eqn:E; [left|by right].
  apply update_first_split in E as (l1 & y & l2 & Hl & _ & _ & _ & ->). by exists l1, y, l2.
Qed.

Lemma update_job_ok id f d :
  (forall j, pj_ID (f j) = pj_ID j) -> jobs_ok d -> jobs_ok (update_job id f d).1.
Proof.
  intros Hid [Hnd Hst].
  destruct (update_job_table id f d) as [(l1 & j & l2 & Hd & Hd')| ->]; [|by split].
  rewrite Hd in *. split; rewrite Hd'.
  - by rewrite fmap_app, fmap_cons in *; rewrite <- Hid in Hnd.
  - rewrite Forall_app, Forall_cons in *. destruct Hst as (? & _ & ?). by destruct (f j).
Qed.

Lemma acquired_ID arg j : pj_ID (acquired arg j) = pj_ID j.
Proof. done. Qed.

Lemma job_step_ok d d' : job_step d d' -> jobs_ok d -> jobs_ok d'.
Proof.
  intros Hstep [Hnd Hst]. destruct Hstep as [arg d Hfresh|arg d Hv|id t d|id t u d|id t u e c d].
  - split; unfold InsertProvisionerJob; cbn [fst]; rewrite jobs_set_jobs.
    + rewrite fmap_app. apply NoDup_app. split; [done|]. split; [|apply NoDup_singleton].
      intros x Hx. simpl. rewrite list_elem_of_singleton. intros ->. by apply Hfresh.
    + apply Forall_app. split; [done|]. by repeat constructor.
  - destruct (AcquireProvisionerJob arg d) as [d' [j|e]] eqn:E; simpl.
    + apply acquire_spec in E as (tags & l1 & j0 & l2 & _ & Hd & _ & _ & _ & ->).
      rewrite Hd in *. split; rewrite jobs_set_jobs.
      * by rewrite fmap_app, fmap_cons, acquired_ID, <- fmap_cons, <- fmap_app.
      * rewrite Forall_app, Forall_cons in *. by destruct Hst as (? & _ & ?).
    + unfold AcquireProvisionerJob in E. destruct (acquire_loop _ _) as [[??]|]; simplify_eq. by split.
  - by apply update_job_ok.
  - by apply update_job_ok.
  - by apply update_job_ok.
Qed.

(** In every store reached from the empty one by queue operations, among them
    insertions under IDs that no job has, which the code takes from fresh UUIDs, job IDs
    are unique and each job's status column is the status its timestamps and
    error determine. *)
Lemma job_queue_invariant d : rtc job_step emptyData d -> jobs_ok d.
Proof.
  intros H. assert (Hok : jobs_ok emptyData) by (split; constructor).
  induction H as [|d1 d2 d3 Hstep _ IH]; [done|]. eauto using job_step_ok.
Qed.

Definition example_insert (id : N) : InsertProvisionerJobParams :=
  mkInsertJob id example_time example_time 5 7 ProvisionerTerraform 0 JobWorkspaceBuild "" tagsUntagged.

Lemma job_queue_invariant_witness :
  exists d, rtc job_step emptyData d /\ jobs_ok d /\
            pj_JobStatus <$> provisionerJobs d = [JobRunning; JobPending].
Proof.
  set (d1 := (InsertProvisionerJob (example_insert 1) emptyData).1).
  set (d2 := (InsertProvisionerJob (example_insert 2) d1).1).
  set (d3 := (AcquireProvisionerJob (example_acquire 9) d2).1).
  assert (H : rtc job_step emptyData d3).
  { apply (rtc_l _ _ d1); [apply step_insert; apply not_elem_of_nil|].
    apply (rtc_l _ _ d2).
    - apply step_insert. cbn. rewrite list_elem_of_singleton. discriminate.
    - apply rtc_once, step_acquire. reflexivity. }
  exists d3. split; [exact H|]. split; [exact (job_queue_invariant d3 H)|]. vm_compute. reflexivity.
Defined.

(** A job that was started: no operation makes it startable again. *)
Definition is_started (id : uuid) (d : Data) : Prop :=
  exists j, j ∈ provisionerJobs d /\ pj_ID j = id /\ nt_Valid (pj_StartedAt j) = true.

Lemma update_job_started id f d k :
  (forall j, pj_ID (f j) = pj_ID j /\ pj_StartedAt (f j) = pj_StartedAt j) ->
  is_started k d -> is_started k (update_job id f d).1.
Proof.
  intros Hf (j & Hj & Hk & Hv).
  destruct (update_job_table id f d) as [(l1 & y & l2 & Hd & Hd')| ->]; [|by exists j].
  unfold is_started. rewrite Hd', Hd in *.
  apply elem_of_app in Hj as [Hj|[->|Hj]%elem_of_cons].
  - exists j. set_solver.
  - destruct (Hf y) as [H1 H2]. exists ((f y){{ pj_JobStatus := provisionerJobStatus (f y) }}).
    split; [set_solver|]. split; [exact (eq_trans H1 Hk)|exact (eq_trans (f_equal nt_Valid H2) Hv)].
  - exists j. set_solver.
Qed.

Lemma job_step_started d d' k : job_step d d' -> is_started k d -> is_started k d'.
Proof.
  intros Hstep Hk. destruct Hstep as [arg d Hfresh|arg d Hv|id t d|id t u d|id t u e c d];
    try by apply update_job_started.
  - destruct Hk as (j & Hj & ? & ?). exists j. simpl. set_solver.
  - destruct (AcquireProvisionerJob arg d) as [d' [j|e]] eqn:E; simpl.
    + apply acquire_spec in E as (tags & l1 & j0 & l2 & _ & Hd & _ & _ & _ & ->).
      destruct Hk as (j1 & Hj & Hid & Hst). rewrite Hd in Hj.
      apply elem_of_app in Hj as [Hj|[->|Hj]%elem_of_cons].
      * exists j1. simpl. set_solver.
      * exists (acquired arg j0). rewrite jobs_set_jobs.
        split; [set_solver|]. split; [exact Hid|exact Hv].
      * exists j1. simpl. set_solver.
    + unfold AcquireProvisionerJob in E. destruct (acquire_loop _ _) as [[??]|]; by simplify_eq.
Qed.

(** C9: no job is handed out twice.  Between two successful acquisitions, whatever
    queue operations happen and whichever daemons ask, the two jobs have
    different IDs. *)
Theorem AcquireProvisionerJob_exclusive d0 d1 d2 d3 arg1 arg2 j1 j2 :
  jobs_ok d0 ->
  nt_Valid (ap_StartedAt arg1) = true ->
  AcquireProvisionerJob arg1 d0 = (d1, Ok j1) ->
  rtc job_step d1 d2 ->
  AcquireProvisionerJob arg2 d2 = (d3, Ok j2) ->
  pj_ID j1 <> pj_ID j2.
Proof.
  intros Hok Hv H1 Hsteps H2 Heq.
  assert (Hok1 : jobs_ok d1).
  { apply (job_step_ok d0); [|done]. replace d1 with (AcquireProvisionerJob arg1 d0).1 by (by rewrite H1).
    by constructor. }
  assert (Hs1 : is_started (pj_ID j1) d1).
  { apply acquire_spec in H1 as (tags & l1 & j0 & l2 & _ & _ & _ & _ & -> & ->).
    exists (acquired arg1 j0). simpl. set_solver. }
  assert (Hs2 : is_started (pj_ID j1) d2 /\ jobs_ok d2).
  { clear H1 H2. induction Hsteps; [done|]. eauto using job_step_started, job_step_ok. }
  destruct Hs2 as [(j & Hj & Hid & Hst) [Hnd _]].
  apply acquire_spec in H2 as (tags & l1 & j0 & l2 & _ & Hd & Hstart & _ & -> & _).
  rewrite acquired_ID in Heq. destruct Hstart as (_ & Hns & _).
  assert (j = j0); [|congruence].
  rewrite Hd in *. apply (NoDup_fmap_elem_of_inj pj_ID _ _ _ Hnd); [done|set_solver|congruence].
Qed.

Lemma AcquireProvisionerJob_exclusive_witness :
  exists d0 d1 d3 j1 j2,
    AcquireProvisionerJob (example_acquire 9) d0 = (d1, Ok j1) /\
    AcquireProvisionerJob (example_acquire 8) d1 = (d3, Ok j2) /\ pj_ID j1 <> pj_ID j2.
Proof.
  set (d0 := mkData [] [] [] [] [] [example_job 1 5 false; example_job 2 5 false] [] [] [] [] noResults).
  set (r1 := AcquireProvisionerJob (example_acquire 9) d0).
  set (r2 := AcquireProvisionerJob (example_acquire 8) r1.1).
  assert (Hok : jobs_ok d0).
  { split; [|by repeat constructor]. cbn. repeat constructor; set_solver. }
  set (j1 := acquired (example_acquire 9) (example_job 1 5 false)).
  set (j2 := acquired (example_acquire 8) (example_job 2 5 false)).
  assert (H1 : AcquireProvisionerJob (example_acquire 9) d0 = (r1.1, Ok j1)) by reflexivity.
  assert (H2 : AcquireProvisionerJob (example_acquire 8) r1.1 = (r2.1, Ok j2)) by reflexivity.
  exists d0, r1.1, r2.1, j1, j2. split; [exact H1|]. split; [exact H2|].
  exact (AcquireProvisionerJob_exclusive d0 r1.1 r1.1 r2.1 (example_acquire 9) (example_acquire 8)
           j1 j2 Hok eq_refl H1 (rtc_refl _ _) H2).
Defined.

(** *** Queue positions *)

Definition pending (j : ProvisionerJob) : bool := negb (nt_Valid (pj_StartedAt j)).

Lemma queue_loop_rows ids l n row :
  row ∈ (queue_loop ids l n).1 ->
  exists l1 l2, l = l1 ++ jq_Job row :: l2 /\ pj_ID (jq_Job row) ∈ ids /\ jq_QueueSize row = 0 /\
    jq_QueuePosition row =
      if pending (jq_Job row) then n + Z.of_nat (length (List.filter pending l1)) else 0.
Proof.
  revert n. induction l as [|j l IH]; intros n; simpl; [set_solver|]. fold (pending j).
  set (n' := if pending j then n + 1 else n). specialize (IH n').
  destruct (queue_loop ids l n') as [rows last]; simpl in *.
  assert (Hcons : row ∈ rows -> exists l1 l2, j :: l = l1 ++ jq_Job row :: l2 /\
    pj_ID (jq_Job row) ∈ ids /\ jq_QueueSize row = 0 /\ jq_QueuePosition row =
      if pending (jq_Job row) then n + Z.of_nat (length (List.filter pending l1)) else 0).
  { intros Hrow. destruct (IH Hrow) as (l1 & l2 & -> & ? & ? & ->). exists (j :: l1), l2.
    split; [done|]. split; [done|]. split; [done|]. simpl. unfold n'.
    destruct (pending (jq_Job row)); [|done]. destruct (pending j); simpl; lia. }
  destruct (existsb (N.eqb (pj_ID j)) ids) eqn:Hid; simpl; [|exact Hcons].
  intros [->|Hrow]%elem_of_cons; [|by apply Hcons].
  exists [], l. simpl. split; [done|]. split.
  - apply existsb_exists in Hid as (x & Hx & Heq%N.eqb_eq). rewrite Heq. by apply list_elem_of_In.
  - split; [done|]. destruct (pending j); lia.
Qed.

(** The position reported for a waiting job is one more than the number of
    waiting jobs queued before it, and 0 for a job that was started.  The queue
    size reported is always 0: the loop that should fill it in assigns to a copy. *)
Lemma queue_position_correct ids d row :
  row ∈ GetProvisionerJobsByIDsWithQueuePosition ids d ->
  pj_ID (jq_Job row) ∈ ids /\
  (exists l1 l2, provisionerJobs d = l1 ++ jq_Job row :: l2 /\
     jq_QueuePosition row =
       if pending (jq_Job row) then 1 + Z.of_nat (length (List.filter pending l1)) else 0) /\
  jq_QueueSize row = 0.
Proof.
  intros (l1 & l2 & ? & ? & ? & ?)%queue_loop_rows. eauto 6.
Qed.

Lemma queue_position_correct_witness :
  exists row, row ∈ GetProvisionerJobsByIDsWithQueuePosition [3%N] example_queue /\
    jq_QueuePosition row = 2 /\ jq_QueueSize row = 0.
Proof.
  set (row := mkJobWithQueue (example_job 3 5 false) 2 0).
  assert (H : row ∈ GetProvisionerJobsByIDsWithQueuePosition [3%N] example_queue).
  { vm_compute. apply elem_of_cons. left. reflexivity. }
  exists row. split; [exact H|]. split; [reflexivity|].
  exact (proj2 (proj2 (queue_position_correct [3%N] example_queue row H))).
Defined.

(** ** Activity bumps *)

(** What a bump may do to a build: extend its deadline, up to its max deadline. *)
Definition bump_rel (now : Time) (b b' : WorkspaceBuild) : Prop :=
  wb_ID b' = wb_ID b /\ wb_WorkspaceID b' = wb_WorkspaceID b /\ wb_MaxDeadline b' = wb_MaxDeadline b /\
  wb_Transition b = TransitionStart /\ IsZero (wb_Deadline b) = false /\ wb_UpdatedAt b' = now /\
  (IsZero (wb_MaxDeadline b) = false -> t_ns (wb_Deadline b') <= t_ns (wb_MaxDeadline b)) /\
  (IsZero (wb_MaxDeadline b) = false -> t_ns (wb_Deadline b) <= t_ns (wb_MaxDeadline b) ->
     t_ns (wb_Deadline b) <= t_ns (wb_Deadline b')) /\
  (IsZero (wb_MaxDeadline b) = true -> t_ns (wb_Deadline b) <= t_ns (wb_Deadline b')).

Lemma maxTime_ns t u : t_ns (maxTime t u) = Z.max (t_ns t) (t_ns u).
Proof. unfold maxTime, After. case_match; lia. Qed.
Lemma minTime_ns t u : t_ns (minTime t u) = Z.min (t_ns t) (t_ns u).
Proof. unfold minTime, Before. case_match; lia. Qed.
#[export] Hint Rewrite maxTime_ns minTime_ns : db.

(** The deadline after a bump: the requested one, not before the old one, not
    after the max deadline. *)
Lemma bumped_build_spec now ttl b b' :
  bumped_build now ttl b = Some b' ->
  t_ns (wb_Deadline b) - (ttl - Z.quot ttl 20) <= t_ns now /\
  b' = b{{ wb_UpdatedAt := now; wb_Deadline := wb_Deadline b' }} /\
  t_ns (wb_Deadline b') =
    let target := Z.max (t_ns now + ttl) (t_ns (wb_Deadline b)) in
    if IsZero (wb_MaxDeadline b) then target else Z.min target (t_ns (wb_MaxDeadline b)).
Proof.
  unfold bumped_build, Before. destruct (Z.ltb_spec (t_ns now) (t_ns (Add (wb_Deadline b) (- (ttl - Z.quot ttl 20))))); [done|].
  destruct b; simpl in *. intros ?; simplify_eq. split; [lia|].
  destruct (IsZero _); simpl; by autorewrite with db.
Qed.

Lemma bump_body_rel now na ws b d b' :
  bump_body now na ws b d = Ok (Some b') -> bump_rel now b b'.
Proof.
  unfold bump_body. destruct (bool_decide_reflect (wb_Transition b = TransitionStart)); simpl; [|done].
  intros (pj & _ & H)%bind_Ok. destruct (negb _); [done|].
  destruct (IsZero (wb_Deadline b)) eqn:Hz; [done|].
  apply bind_Ok in H as (tpl & _ & H). destruct (_ =? 0); [done|]. simplify_eq.
  apply bumped_build_spec in H as (_ & Hb & Hd). rewrite Hb in Hd |- *. destruct b; simpl in *.
  unfold bump_rel; simpl. repeat (split; [done|]).
  destruct (IsZero wb_MaxDeadline0); simpl in *; repeat split; intros; try done; lia.
Qed.

(** A workspace's activity never shortens the time it has left and never takes a
    deadline past the max deadline.  [ActivityBumpWorkspace] changes at most one
    row of the build table; that build is a running one whose deadline is set,
    its max deadline is kept, the new deadline is at most the max deadline when
    there is one, and it is not before the old one unless the old one was
    already past the max deadline. *)
Lemma ActivityBumpWorkspace_bounds now id na d :
  let d' := (ActivityBumpWorkspace now id na d).1 in
  d' = d \/
  exists l1 b b' l2, workspaceBuilds d = l1 ++ b :: l2 /\ d' = set_builds (l1 ++ b' :: l2) d /\
                     bump_rel now b b'.
Proof.
  unfold ActivityBumpWorkspace.
  destruct (getWorkspaceByIDNoLock id d) as [ws|]; [|by left].
  destruct (getLatestWorkspaceBuildByWorkspaceIDNoLock id d) as [lb|]; [|by left].
  destruct (find_first _ _) as [b|] eqn:Hf; [|by left].
  destruct (bump_body now na ws b d) as [[b'|]|] eqn:Hb; [|by left..].
  right. apply find_first_split in Hf as (l1 & l2 & Hl & Hp & Hn).
  exists l1, b, b', l2. split; [done|]. split; [|by eapply bump_body_rel].
  unfold update_table, mbind, DB_bind.
  rewrite (proj2 (update_first_split _ (fun _ => b') _ b' (l1 ++ b' :: l2))); [done|].
  by exists l1, b, l2.
Qed.

(** A store with two running workspaces whose first builds have one number. *)
Definition example_workspace (id : uuid) : WorkspaceTable :=
  mkWorkspace id example_time example_time 7 5 20 false "ws" (mkNullString "" false)
    (mkNullInt64 0 false) example_time noTime noTime AutomaticUpdatesNever false.
Definition example_build (id ws : uuid) (deadline maxDeadline : Time) : WorkspaceBuild :=
  mkBuild id example_time example_time ws 30 1 TransitionStart 7 40 deadline ReasonInitiator maxDeadline [] 0.
Definition example_template (bump : Z) : TemplateTable :=
  mkTemplate 20 example_time 5 "tpl" 30 0 true true 0 0 0 0 1 0 false bump ProvisionerTerraform true ∅ ∅.
Definition example_done_job : ProvisionerJob :=
  mkJob 40 example_time example_time (mkNullTime example_time true) noTime (mkNullTime example_time true)
    noString 5 7 ProvisionerTerraform JobWorkspaceBuild "" None 0 tagsUntagged noString JobSucceeded.
Definition example_store : Data :=
  mkData [] [example_template Hour] [] [example_workspace 1; example_workspace 2]
    [example_build 101 1 (Add example_time Hour) zeroTime; example_build 102 2 (Add example_time Hour) zeroTime]
    [example_done_job] [] [] [] [] noResults.

(** The in-memory store can bump another workspace.  The loop compares build
    numbers only, so activity of workspace 2 extends the deadline of workspace
    1, whose build has the same number and comes first, and leaves the deadline
    of workspace 2 as it was. *)
Theorem ActivityBumpWorkspace_wrong_workspace :
  let now := Add example_time (30 * Minute) in
  let d' := (ActivityBumpWorkspace now 2 zeroTime example_store).1 in
  getLatestWorkspaceBuildByWorkspaceIDNoLock 2 d' =
    getLatestWorkspaceBuildByWorkspaceIDNoLock 2 example_store /\
  exists b b', getLatestWorkspaceBuildByWorkspaceIDNoLock 1 example_store = Ok b /\
    getLatestWorkspaceBuildByWorkspaceIDNoLock 1 d' = Ok b' /\
    t_ns (wb_Deadline b') = t_ns (wb_Deadline b) + 30 * Minute.
Proof. vm_compute. split; [reflexivity|]. do 2 eexists. repeat split; reflexivity. Qed.

(** ** Dormancy *)

Definition dormant_in (id : uuid) (d : Data) : Prop :=
  exists w, getWorkspaceByIDNoLock id d = Ok w /\ nt_Valid (ws_DormantAt w) = true.

Lemma dormant_in_table id d d' :
  workspaces d' = workspaces d -> dormant_in id d' <-> dormant_in id d.
Proof. intros E. unfold dormant_in, getWorkspaceByIDNoLock, getWorkspaceNoLock. by rewrite E. Qed.

Lemma getWorkspaceByID_ID id d w : getWorkspaceByIDNoLock id d = Ok w -> ws_ID w = id.
Proof.
  unfold getWorkspaceByIDNoLock, getWorkspaceNoLock, or_no_rows.
  destruct (find_first _ _) as [x|] eqn:E; [|done]. intros ?; simplify_eq.
  apply find_first_Some in E as [_ E]. by apply N.eqb_eq.
Qed.

Lemma dormant_deleting_at_row now tpls na w w' :
  dormant_deleting_at now tpls na w = Ok w' -> ws_ID w' = ws_ID w /\ ws_DormantAt w' = na.
Proof.
  unfold dormant_deleting_at. repeat (case_match; try done); intros ?; simplify_eq; by destruct w.
Qed.

(** Making a workspace dormant, on success, changes the dormancy of that
    workspace alone. *)
Lemma UpdateWorkspaceDormantDeletingAt_spec now id na d d' r :
  UpdateWorkspaceDormantDeletingAt now id na d = (d', r) ->
  match r with
  | Ok w => ws_ID w = id /\ ws_DormantAt w = na /\ (nt_Valid na = true -> dormant_in id d') /\
      (forall k, k <> id -> dormant_in k d' <-> dormant_in k d)
  | Err _ => d' = d
  end.
Proof.
  unfold UpdateWorkspaceDormantDeletingAt.
  destruct (find_first _ (workspaces d)) as [w|] eqn:Hf; [|intros ?; by simplify_eq].
  destruct (dormant_deleting_at _ _ _ _) as [w'|e] eqn:Hd; [|intros ?; by simplify_eq].
  apply dormant_deleting_at_row in Hd as [Hid Hna].
  pose proof Hf as Hf'. apply find_first_split in Hf' as (l1 & l2 & Hl & Hw & Hn).
  apply N.eqb_eq in Hw. unfold update_table.
  rewrite (proj2 (update_first_split _ (fun _ => w') _ w' (l1 ++ w' :: l2))).
  2:{ exists l1, w, l2. rewrite N.eqb_eq. auto. }
  intros ?; simplify_eq. split; [by rewrite Hid|]. split; [done|]. split.
  - intros Hv. exists w'. split; [|done].
    unfold getWorkspaceByIDNoLock, getWorkspaceNoLock. rewrite workspaces_set_workspaces.
    rewrite (proj2 (find_first_split _ _ w')); [done|]. exists l1, l2. rewrite N.eqb_eq. auto.
  - intros k Hk. unfold dormant_in, getWorkspaceByIDNoLock, getWorkspaceNoLock.
    rewrite workspaces_set_workspaces, Hl. clear Hl Hf Hn.
    assert (E : find_first (fun w0 => (ws_ID w0 =? k)%N) (l1 ++ w' :: l2) =
                find_first (fun w0 => (ws_ID w0 =? k)%N) (l1 ++ w :: l2)); [|by rewrite E].
    induction l1 as [|x l1 IH]; simpl; [|by case_match].
    rewrite Hid. destruct (N.eqb_spec (ws_ID w) k); [congruence|done].
Qed.
