(* ===== verification/DbBuild.v ===== *)
(** * The in-memory store: builds and what provisioning leaves

    More methods of [wirtuald/database/dbmem/dbmem.go], those that the workspace
    builder, the provisioner daemon server and the hung job detector call. *)

From Stdlib Require Import Strings.Byte.
From stdpp Require Import sorting.
From S2P Require Import Prelude GoTime GoStrings Db.

(** ** Versions, parameters and builds *)

(** The order of [sort.Slice], which need not keep equal elements in place. *)
Definition param_order (i j : TemplateVersionParameter) : Prop :=
  tvp_DisplayOrder i < tvp_DisplayOrder j \/
  (tvp_DisplayOrder i = tvp_DisplayOrder j /\ String.le (ToLower (tvp_Name i)) (ToLower (tvp_Name j))).
#[export] Instance param_order_dec : RelDecision param_order.
Proof. intros i j. apply _. Defined.

Definition tag_order (i j : TemplateVersionWorkspaceTag) : Prop := String.le (wt_Key i) (wt_Key j).
#[export] Instance tag_order_dec : RelDecision tag_order.
Proof. intros i j. unfold tag_order. apply _. Defined.

Definition GetTemplateVersionParameters (templateVersionID : uuid) (d : Data) : result (list TemplateVersionParameter) :=
  Ok (merge_sort param_order
        (List.filter (fun p => (tvp_TemplateVersionID p =? templateVersionID)%N) (templateVersionParameters d))).

Definition GetTemplateVersionWorkspaceTags (templateVersionID : uuid) (d : Data) : result (list TemplateVersionWorkspaceTag) :=
  Ok (merge_sort tag_order
        (List.filter (fun t => (wt_TemplateVersionID t =? templateVersionID)%N) (templateVersionWorkspaceTags d))).

Definition GetWorkspaceBuildParameters (workspaceBuildID : uuid) (d : Data) : result (list WorkspaceBuildParameter) :=
  Ok (List.filter (fun p => (wbp_WorkspaceBuildID p =? workspaceBuildID)%N) (workspaceBuildParameters d)).

(** The rows, by index; their order is not used. *)
Definition GetParameterSchemasByJobID (jobID : uuid) (d : Data) : result (list ParameterSchema) :=
  match List.filter (fun p => (ps_JobID p =? jobID)%N) (parameterSchemas d) with
  | [] => Err ErrNoRows
  | l => Ok l
  end.

Definition getWorkspaceBuildByIDNoLock (id : uuid) (d : Data) : result WorkspaceBuild :=
  or_no_rows (find_first (fun b => (wb_ID b =? id)%N) (workspaceBuilds d)).

Definition set_build_parameters (l : list WorkspaceBuildParameter) (d : Data) : Data :=
  d{{ workspaceBuildParameters := l }}.

(** [None] stands for the index panic when there are fewer values than names. *)
Fixpoint build_parameter_rows (id : uuid) (names values : list string) : option (list WorkspaceBuildParameter) :=
  match names, values with
  | [], _ => Some []
  | name :: names, value :: values => cons (mkWBP id name value) <$> build_parameter_rows id names values
  | _ :: _, [] => None
  end.

Definition InsertWorkspaceBuildParameters (id : uuid) (names values : list string) : DB unit := fun d =>
  match build_parameter_rows id names values with
  | Some rows => (set_build_parameters (workspaceBuildParameters d ++ rows) d, Ok tt)
  | None => (d, Err "panic: index out of range")
  end.

Definition GetWorkspaceBuildByJobID (jobID : uuid) (d : Data) : result WorkspaceBuild :=
  or_no_rows (find_first (fun b => (wb_JobID b =? jobID)%N) (workspaceBuilds d)).

Definition GetWorkspaceBuildByWorkspaceIDAndBuildNumber (workspaceID : uuid) (number : Z) (d : Data) : result WorkspaceBuild :=
  or_no_rows (find_first (fun b => (wb_WorkspaceID b =? workspaceID)%N && (wb_BuildNumber b =? number)) (workspaceBuilds d)).

Definition UpdateWorkspaceBuildProvisionerStateByID (id : uuid) (updatedAt : Time) (state : list byte) : DB unit :=
  _ ← update_table workspaceBuilds set_builds (fun b => (wb_ID b =? id)%N)
        (fun b => b{{ wb_ProvisionerState := state; wb_UpdatedAt := updatedAt }});
  mret tt.

Definition UpdateWorkspaceDeletedByID (id : uuid) (deleted : bool) : DB unit :=
  _ ← update_table workspaces set_workspaces (fun w => (ws_ID w =? id)%N) (fun w => w{{ ws_Deleted := deleted }});
  mret tt.

Definition set_versions (l : list TemplateVersion) (d : Data) : Data := d{{ templateVersions := l }}.
Definition set_tags (l : list TemplateVersionWorkspaceTag) (d : Data) : Data := d{{ templateVersionWorkspaceTags := l }}.
Definition set_parameters (l : list TemplateVersionParameter) (d : Data) : Data := d{{ templateVersionParameters := l }}.

Definition GetTemplateVersionByJobID (jobID : uuid) (d : Data) : result TemplateVersion :=
  or_no_rows (find_first (fun v => (tv_JobID v =? jobID)%N) (templateVersions d)).

Definition InsertTemplateVersionWorkspaceTag (t : TemplateVersionWorkspaceTag) : DB TemplateVersionWorkspaceTag := fun d =>
  (set_tags (templateVersionWorkspaceTags d ++ [t]) d, Ok t).

Definition InsertTemplateVersionParameter (p : TemplateVersionParameter) : DB TemplateVersionParameter := fun d =>
  (set_parameters (templateVersionParameters d ++ [p]) d, Ok p).

Definition UpdateTemplateVersionDescriptionByJobID (jobID : uuid) (readme : string) (updatedAt : Time) : DB unit :=
  _ ← update_table templateVersions set_versions (fun v => (tv_JobID v =? jobID)%N)
        (fun v => v{{ tv_Readme := readme; tv_UpdatedAt := updatedAt }});
  mret tt.

Definition UpdateTemplateVersionExternalAuthProvidersByJobID (jobID : uuid) (providers : string) (updatedAt : Time) : DB unit :=
  _ ← update_table templateVersions set_versions (fun v => (tv_JobID v =? jobID)%N)
        (fun v => v{{ tv_ExternalAuthProviders := providers; tv_UpdatedAt := updatedAt }});
  mret tt.

(** ** The results of provisioning *)

(** A method that changes the result tables only. *)
Definition on_results {A} (f : Results -> Results * result A) : DB A := fun d =>
  let '(r, a) := f (results d) in (d{{ results := r }}, a).

(** Consecutive IDs after that of the table's last row, counting from 1 in an empty table. *)
Definition next_row_id {A} (id : A -> Z) (l : list A) : Z :=
  match last l with Some x => id x | None => 1 end + 1.

Fixpoint number_from {A B} (f : Z -> A -> B) (id : Z) (l : list A) : list B :=
  match l with [] => [] | a :: l => f id a :: number_from f (id + 1) l end.

(** The columns of [InsertProvisionerJobLogsParams], row by row. *)
Record NewLog := mkNewLog {
  nl_CreatedAt : Time;
  nl_Source : LogSource;
  nl_Level : LogLevel;
  nl_Stage : string;
  nl_Output : string;
}.

Definition InsertProvisionerJobLogs (jobID : uuid) (rows : list NewLog) : DB (list ProvisionerJobLog) :=
  on_results (fun r =>
    let logs := number_from (fun id l => mkJobLog jobID (nl_CreatedAt l) (nl_Source l) (nl_Level l) (nl_Stage l) (nl_Output l) id)
                  (next_row_id jl_ID (provisionerJobLogs r)) rows in
    (r{{ provisionerJobLogs := provisionerJobLogs r ++ logs }}, Ok logs)).

Definition GetProvisionerLogsAfterID (jobID : uuid) (createdAfter : Z) (d : Data) : result (list ProvisionerJobLog) :=
  Ok (List.filter (fun l => (jl_JobID l =? jobID)%N && negb (jl_ID l <=? createdAfter)) (provisionerJobLogs (results d))).

Definition InsertTemplateVersionVariable (v : TemplateVersionVariable) : DB TemplateVersionVariable :=
  on_results (fun r => (r{{ templateVersionVariables := templateVersionVariables r ++ [v] }}, Ok v)).

Definition GetTemplateVersionVariables (templateVersionID : uuid) (d : Data) : result (list TemplateVersionVariable) :=
  Ok (List.filter (fun v => (tvv_TemplateVersionID v =? templateVersionID)%N) (templateVersionVariables (results d))).

(** The instance type is not stored. *)
Definition InsertWorkspaceResource (w : WorkspaceResource) : DB WorkspaceResource :=
  on_results (fun r =>
    let w := w{{ wr_InstanceType := mkNullString "" false }} in
    (r{{ workspaceResources := workspaceResources r ++ [w] }}, Ok w)).

Definition InsertWorkspaceResourceMetadata (resourceID : uuid) (rows : list (string * string * bool))
    : DB (list WorkspaceResourceMetadatum) :=
  on_results (fun r =>
    let metadata := number_from (fun id '(key, value, sensitive) =>
                        mkResourceMetadatum resourceID key (mkNullString value (negb (String.eqb value ""))) sensitive id)
                      (next_row_id wrm_ID (workspaceResourceMetadata r)) rows in
    (r{{ workspaceResourceMetadata := workspaceResourceMetadata r ++ metadata }}, Ok metadata)).

Definition InsertWorkspaceModule (m : WorkspaceModule) : DB WorkspaceModule :=
  on_results (fun r => (r{{ workspaceModules := workspaceModules r ++ [m] }}, Ok m)).

Definition InsertWorkspaceAgent (a : WorkspaceAgent) : DB WorkspaceAgent :=
  on_results (fun r => (r{{ workspaceAgents := workspaceAgents r ++ [a] }}, Ok a)).

Definition InsertWorkspaceAgentMetadata (m : WorkspaceAgentMetadatum) : DB unit :=
  on_results (fun r => (r{{ workspaceAgentMetadata := workspaceAgentMetadata r ++ [m] }}, Ok tt)).

(** The columns of the parameters are given row by row. *)
Definition InsertWorkspaceAgentLogSources (l : list WorkspaceAgentLogSource) : DB (list WorkspaceAgentLogSource) :=
  on_results (fun r => (r{{ workspaceAgentLogSources := workspaceAgentLogSources r ++ l }}, Ok l)).

(** The display name is not stored. *)
Definition InsertWorkspaceAgentScripts (l : list WorkspaceAgentScript) : DB (list WorkspaceAgentScript) :=
  on_results (fun r =>
    let l := (fun s => s{{ was_DisplayName := ""%string }}) <$> l in
    (r{{ workspaceAgentScripts := workspaceAgentScripts r ++ l }}, Ok l)).

Definition InsertWorkspaceApp (a : WorkspaceApp) : DB WorkspaceApp :=
  on_results (fun r => (r{{ workspaceApps := workspaceApps r ++ [a] }}, Ok a)).

(** * Theorems *)

(** ** What an update leaves to be read *)

Definition with_status (j : ProvisionerJob) : ProvisionerJob := j{{ pj_JobStatus := provisionerJobStatus j }}.

Lemma update_job_found id f d j :
  getProvisionerJobByIDNoLock id d = Ok j -> pj_ID (f j) = pj_ID j ->
  exists l, update_job id f d = (set_jobs l d, Ok tt) /\
    forall k, getProvisionerJobByIDNoLock k (set_jobs l d) =
      if (k =? id)%N then Ok (with_status (f j)) else getProvisionerJobByIDNoLock k d.
Proof.
  unfold getProvisionerJobByIDNoLock. intros Hj Hf. destruct (find_first _ (provisionerJobs d)) as [x|] eqn:E; [|done].
  injection Hj as ->. destruct (find_update pj_ID id (fun j => with_status (f j)) _ _ E Hf) as (l & Hl & Hk).
  exists l. split.
  - unfold update_job, update_table, mbind, DB_bind. rewrite (update_first_ext _ (fun a => (pj_ID a =? id)%N)).
    + change (update_first _ _ _) with
        (update_first (fun a => (pj_ID a =? id)%N) (fun j => with_status (f j)) (provisionerJobs d)). by rewrite Hl.
    + intros y. apply N.eqb_sym.
  - intros k. rewrite jobs_set_jobs, Hk. by destruct (k =? id)%N.
Qed.

Lemma update_build_found id f d b :
  getWorkspaceBuildByIDNoLock id d = Ok b -> wb_ID (f b) = wb_ID b ->
  exists l, (_ ← update_table workspaceBuilds set_builds (fun b => (wb_ID b =? id)%N) f; mret tt) d = (set_builds l d, Ok tt) /\
    forall k, getWorkspaceBuildByIDNoLock k (set_builds l d) =
      if (k =? id)%N then Ok (f b) else getWorkspaceBuildByIDNoLock k d.
Proof.
  unfold getWorkspaceBuildByIDNoLock. intros Hb Hf. destruct (find_first _ (workspaceBuilds d)) as [x|] eqn:E; [|done].
  injection Hb as ->. destruct (find_update wb_ID id f _ _ E Hf) as (l & Hl & Hk).
  exists l. split; [unfold update_table, mbind, DB_bind; by rewrite Hl|].
  intros k. rewrite builds_set_builds, Hk. by destruct (k =? id)%N.
Qed.

Lemma update_workspace_found id f d w :
  getWorkspaceByIDNoLock id d = Ok w -> ws_ID (f w) = ws_ID w ->
  exists l, (_ ← update_table workspaces set_workspaces (fun w => (ws_ID w =? id)%N) f; mret tt) d = (set_workspaces l d, Ok tt) /\
    forall k, getWorkspaceByIDNoLock k (set_workspaces l d) =
      if (k =? id)%N then Ok (f w) else getWorkspaceByIDNoLock k d.
Proof.
  unfold getWorkspaceByIDNoLock, getWorkspaceNoLock. intros Hw Hf.
  destruct (find_first _ (workspaces d)) as [x|] eqn:E; [|done].
  injection Hw as ->. destruct (find_update ws_ID id f _ _ E Hf) as (l & Hl & Hk).
  exists l. split; [unfold update_table, mbind, DB_bind; by rewrite Hl|].
  intros k. rewrite workspaces_set_workspaces, Hk. by destruct (k =? id)%N.
Qed.

(** One job, or one build, is changed; the others read as before. *)
Definition job_becomes (d : Data) (id : uuid) (j : ProvisionerJob) (d' : Data) : Prop :=
  forall k, getProvisionerJobByIDNoLock k d' = if (k =? id)%N then Ok j else getProvisionerJobByIDNoLock k d.
Definition build_becomes (d : Data) (id : uuid) (b : WorkspaceBuild) (d' : Data) : Prop :=
  forall k, getWorkspaceBuildByIDNoLock k d' = if (k =? id)%N then Ok b else getWorkspaceBuildByIDNoLock k d.

Lemma job_becomes_same d id j d' : job_becomes d id j d' -> getProvisionerJobByIDNoLock id d' = Ok j.
Proof. intros Hd. by rewrite Hd, N.eqb_refl. Qed.
Lemma build_becomes_same d id b d' : build_becomes d id b d' -> getWorkspaceBuildByIDNoLock id d' = Ok b.
Proof. intros Hd. by rewrite Hd, N.eqb_refl. Qed.

Lemma build_becomes_trans d id b d1 b' d2 : build_becomes d id b d1 -> build_becomes d1 id b' d2 -> build_becomes d id b' d2.
Proof. intros Hb Hb' k. rewrite Hb', Hb. by destruct (k =? id)%N. Qed.

Lemma build_becomes_refl d id b : getWorkspaceBuildByIDNoLock id d = Ok b -> build_becomes d id b d.
Proof. intros Hb k. destruct (k =? id)%N eqn:E; [|done]. by apply N.eqb_eq in E as ->. Qed.

(** The row of a job that ended at [t]. *)
Definition ended_job (t : Time) (error errorCode : NullString) (j : ProvisionerJob) : ProvisionerJob :=
  with_status (j{{ pj_UpdatedAt := t; pj_CompletedAt := mkNullTime t true; pj_Error := error; pj_ErrorCode := errorCode }}).

Lemma end_job id t error code d j :
  getProvisionerJobByIDNoLock id d = Ok j ->
  exists l, UpdateProvisionerJobWithCompleteByID id t (mkNullTime t true) error code d = (set_jobs l d, Ok tt) /\
    job_becomes d id (ended_job t error code j) (set_jobs l d).
Proof.
  intros Hj. by apply (update_job_found id (fun j : ProvisionerJob => j{{ pj_UpdatedAt := t; pj_CompletedAt := mkNullTime t true;
    pj_Error := error; pj_ErrorCode := code }}) d j Hj).
Qed.

(** ** Rows numbered in sequence *)

Lemma number_from_length {A B} (f : Z -> A -> B) id l : length (number_from f id l) = length l.
Proof. revert id. induction l as [|a l IH]; intros id; simpl; [done|]. by rewrite IH. Qed.

Lemma number_from_lookup {A B} (f : Z -> A -> B) id l i :
  number_from f id l !! i = f (id + Z.of_nat i) <$> l !! i.
Proof.
  revert id i. induction l as [|a l IH]; intros id [|i]; simpl; [done..| |].
  - by rewrite Z.add_0_r.
  - rewrite IH. do 2 f_equal. lia.
Qed.

Lemma number_from_id {A B} (f : Z -> A -> B) (id_of : B -> Z) id l :
  (forall k a, id_of (f k a) = k) -> id_of <$> number_from f id l = seqZ id (Z.of_nat (length l)).
Proof.
  intros Hf. apply list_eq. intros i. rewrite list_lookup_fmap, number_from_lookup.
  destruct (l !! i) as [a|] eqn:E; simpl.
  - rewrite Hf. symmetry. apply lookup_seqZ. apply lookup_lt_Some in E. lia.
  - symmetry. apply lookup_seqZ_ge. apply lookup_ge_None in E. lia.
Qed.

(** ** Logs *)

(** The next ID of a log row, and that every row's ID is below it. *)
Definition next_log (d : Data) : Z := next_row_id jl_ID (provisionerJobLogs (results d)).
Definition logs_numbered (d : Data) : Prop := Forall (fun l => jl_ID l < next_log d) (provisionerJobLogs (results d)).

(** The rows that [InsertProvisionerJobLogs] adds, and the store it leaves. *)
Definition log_rows (id : uuid) (rows : list NewLog) (d : Data) : list ProvisionerJobLog :=
  number_from (fun i l => mkJobLog id (nl_CreatedAt l) (nl_Source l) (nl_Level l) (nl_Stage l) (nl_Output l) i) (next_log d) rows.
Definition with_logs (new : list ProvisionerJobLog) (d : Data) : Data :=
  d{{ results := (results d){{ provisionerJobLogs := provisionerJobLogs (results d) ++ new }} }}.

Lemma logs_after_new id (old new : list ProvisionerJobLog) first :
  Forall (fun l => jl_ID l < first) old -> Forall (fun l => jl_JobID l = id /\ first <= jl_ID l) new ->
  List.filter (fun l => (jl_JobID l =? id)%N && negb (jl_ID l <=? first - 1)) (old ++ new) = new.
Proof.
  intros Ho Hn. rewrite List.filter_app.
  replace (List.filter _ old) with ([] : list ProvisionerJobLog).
  2: { symmetry. induction Ho as [|x l Hx _ IH]; simpl; [done|]. by replace (_ && _) with false by lia. }
  simpl. induction Hn as [|x l [E Hx] _ IH]; simpl; [done|].
  replace (_ && _) with true by (rewrite E; lia). by f_equal.
Qed.

Lemma log_rows_bounds id rows d :
  Forall (fun l => jl_JobID l = id /\ next_log d <= jl_ID l < next_log d + Z.of_nat (length rows)) (log_rows id rows d).
Proof.
  apply Forall_lookup. intros i x. unfold log_rows. rewrite number_from_lookup.
  destruct (rows !! i) as [y|] eqn:Ey; [|done]. intros [= <-]. apply lookup_lt_Some in Ey. simpl. split; [done|lia].
Qed.

Lemma next_log_after id rows d : next_log (with_logs (log_rows id rows d) d) = next_log d + Z.of_nat (length rows).
Proof.
  unfold next_log at 1, next_row_id, with_logs. simpl. rewrite last_app, last_lookup. unfold log_rows.
  rewrite number_from_length, number_from_lookup. destruct rows as [|x rows]; simpl; [unfold next_log, next_row_id; lia|].
  destruct ((x :: rows) !! length rows) as [y|] eqn:E; simpl; [lia|]. apply lookup_ge_None in E. simpl in E. lia.
Qed.

(** Inserting logs: the rows are numbered on, a reader that has seen the rows
    before gets the new ones, and the next rows can be numbered on. *)
Lemma insert_logs id rows d :
  rows <> [] ->
  exists first,
    InsertProvisionerJobLogs id rows d = (with_logs (log_rows id rows d) d, Ok (log_rows id rows d)) /\
    head (log_rows id rows d) = Some first /\
    (logs_numbered d -> GetProvisionerLogsAfterID id (next_log d - 1) (with_logs (log_rows id rows d) d) = Ok (log_rows id rows d)) /\
    (logs_numbered d -> logs_numbered (with_logs (log_rows id rows d) d)) /\
    jl_ID first = next_log d /\
    jl_ID <$> log_rows id rows d = seqZ (next_log d) (Z.of_nat (length rows)).
Proof.
  intros Hne. pose proof (log_rows_bounds id rows d) as Hb.
  assert (Hids : jl_ID <$> log_rows id rows d = seqZ (next_log d) (Z.of_nat (length rows))) by (by apply number_from_id).
  destruct (log_rows id rows d) as [|first new] eqn:En; [by destruct rows|]. exists first. split_and!; [|done| | | |done].
  - unfold InsertProvisionerJobLogs, on_results. change (number_from _ _ rows) with (log_rows id rows d). by rewrite En.
  - intros Hnum. unfold GetProvisionerLogsAfterID. f_equal. apply logs_after_new; [exact Hnum|].
    eapply Forall_impl; [exact Hb|]. simpl. lia.
  - intros Hnum. unfold logs_numbered. rewrite <- En, next_log_after, En. apply Forall_app.
    split; (eapply Forall_impl; [first [exact Hnum|exact Hb]|]; simpl; lia).
  - destruct rows as [|r rows]; [done|]. rewrite seqZ_cons in Hids by (simpl; lia). by injection Hids.
Qed.
