(* ===== verification/Schedule.v ===== *)
(** * Autostart and autostop: [wirtuald/schedule]

    The bitmaps of week days, the weeks counted since the epoch of January 2,
    2023, the next autostart of a workspace, and [CalculateAutostop], which
    computes the deadline and the max deadline of a workspace build. *)

From S2P Require Import Prelude GoStrings GoTime Cron Db.

(** ** Days and requirements: [template.go] *)

Definition MaxTemplateAutostopRequirementWeeks : Z := 16.

Definition TemplateAutostopRequirementEpoch (loc : Location) : Time := Date 2023 1 2 0 0 loc.

(** Monday first; Sunday is weekday 0. *)
Definition DaysOfWeek : list Z := [1; 2; 3; 4; 5; 6; 0].

(** [daysOfWeek&(1<<uint(i)) != 0] for every day. *)
Definition daysMap (daysOfWeek : Z) : gmap Z bool :=
  foldl (fun days '(i, day) => <[day := negb (Z.land daysOfWeek (Z.shiftl 1 i) =? 0)]> days) ∅
    (combine (Z.of_nat <$> seq 0 7) DaysOfWeek).

(** Reading a Go map: the zero value for a missing key. *)
Definition day_set (days : gmap Z bool) (d : Z) : bool := default false (days !! d).

Record TemplateAutostartRequirement := mkAutostartReq { asr_DaysOfWeek : Z }.
Record TemplateAutostopRequirement := mkAutostopReq { aor_DaysOfWeek : Z; aor_Weeks : Z }.

Definition autostart_DaysMap (r : TemplateAutostartRequirement) : gmap Z bool := daysMap (asr_DaysOfWeek r).
Definition autostop_DaysMap (r : TemplateAutostopRequirement) : gmap Z bool := daysMap (aor_DaysOfWeek r).

Definition VerifyTemplateAutostopRequirement (days weeks : Z) : result unit :=
  if negb (Z.land days 128 =? 0) then Err "invalid autostop requirement days, last bit is set"
  else if 255 <? days then Err "invalid autostop requirement days, too large"
  else if weeks <? 1 then Err "invalid autostop requirement weeks, less than 1"
  else if MaxTemplateAutostopRequirementWeeks <? weeks then
    Err "invalid autostop requirement weeks, too large"
  else Ok tt.

Definition VerifyTemplateAutostartRequirement (days : Z) : result unit :=
  if negb (Z.land days 128 =? 0) then Err "invalid autostart requirement days, last bit is set"
  else if 255 <? days then Err "invalid autostart requirement days, too large"
  else Ok tt.

Record TemplateScheduleOptions := mkScheduleOptions {
  UserAutostartEnabled : bool;
  UserAutostopEnabled : bool;
  DefaultTTL : Z;
  ActivityBump : Z;
  AutostopRequirement : TemplateAutostopRequirement;
  AutostartRequirement : TemplateAutostartRequirement;
  FailureTTL : Z;
  TimeTilDormant : Z;
  TimeTilDormantAutoDelete : Z;
  UpdateWorkspaceLastUsedAt : option (uuid -> Time -> DB unit);
  UpdateWorkspaceDormantAt : bool;
}.

(** [TemplateScheduleStore]: the interface the callers use; [now] is the clock. *)
Record TemplateScheduleStore := mkTSS {
  tss_Get : uuid -> Data -> result TemplateScheduleOptions;
  tss_Set : Time -> TemplateTable -> TemplateScheduleOptions -> DB TemplateTable;
}.

(** [agplTemplateScheduleStore]. *)
Definition agpl_Get (templateID : uuid) (d : Data) : result TemplateScheduleOptions :=
  tpl ← getTemplateByIDNoLock templateID d;
  Ok (mkScheduleOptions true true (tpl_DefaultTTL tpl) (tpl_ActivityBump tpl)
        (mkAutostopReq 0 1) (mkAutostartReq 127) 0 0 0 None false).

Definition agpl_Set (now : Time) (tpl : TemplateTable) (opts : TemplateScheduleOptions) : DB TemplateTable :=
  if (DefaultTTL opts =? tpl_DefaultTTL tpl) && (ActivityBump opts =? tpl_ActivityBump tpl) then mret tpl
  else InTx (
    _ ← db_wrap "update template schedule" (UpdateTemplateScheduleByID now
          (mkUpdateTemplateSchedule (tpl_ID tpl) now (tpl_AllowUserAutostart tpl) (tpl_AllowUserAutostop tpl)
             (DefaultTTL opts) (ActivityBump opts)
             (tpl_AutostopRequirementDaysOfWeek tpl) (tpl_AutostopRequirementWeeks tpl)
             (tpl_AutostartBlockDaysOfWeek tpl) (tpl_FailureTTL tpl) (tpl_TimeTilDormant tpl)
             (tpl_TimeTilDormantAutoDelete tpl)));
    db_wrap "fetch updated template" (db_read (getTemplateByIDNoLock (tpl_ID tpl)))).

Definition agplTemplateScheduleStore : TemplateScheduleStore := mkTSS agpl_Get agpl_Set.

(** ** Weeks since the epoch: [autostop.go] *)

Definition truncateMidnight (t : Time) : Time := Date (Year t) (Month t) (Day t) 0 0 (t_loc t).

Definition nextDayMidnight (t : Time) : Time := Date (Year t) (Month t) (Day t + 1) 0 0 (t_loc t).

(** The loop [for i := epoch.Year(); i < now.Year(); i++]; [n] is the number of
    iterations left. *)
Fixpoint weeks_loop (loc : Location) (n : nat) (i days : Z) : result Z :=
  match n with
  | O => Ok days
  | S n =>
      let startOfNextYear := Date (i + 1) 1 1 0 0 loc in
      if negb (Year startOfNextYear =? i + 1) then Err "overflow calculating weeks since epoch"
      else
        let endOfThisYear := AddDays startOfNextYear (-1) in
        if negb (Year endOfThisYear =? i) then Err "overflow calculating weeks since epoch"
        else weeks_loop loc n (i + 1) (days + YearDay endOfThisYear)
  end.

Definition WeeksSinceEpoch (now : Time) : result Z :=
  let loc := t_loc now in
  let epoch := TemplateAutostopRequirementEpoch loc in
  if Before now epoch then
    Err "coder server system clock is incorrect, cannot calculate template autostop requirement"
  else
    days ← weeks_loop loc (Z.to_nat (Year now - Year epoch)) (Year epoch) (- YearDay epoch);
    let days := days + YearDay now in
    if days <? 0 then Err "overflow calculating weeks since epoch"
    else Ok (Z.quot days 7).

Definition GetMondayOfWeek (loc : Location) (n : Z) : result Time :=
  if n <? 0 then Err "weeks since epoch must be positive"
  else
    let epoch := TemplateAutostopRequirementEpoch loc in
    let monday := AddDays epoch (wraps 64 (n * 7)) in
    let monday := Date (Year monday) (Month monday) (Day monday) 0 0 loc in
    if negb (Weekday monday =? 1) then Err "calculated incorrect Monday for week"
    else Ok monday.

(** The retry loop: up to three weeks are tried. *)
Fixpoint monday_loop (loc : Location) (attempts : nat) (week : Z) (lastErr : string) : result Time :=
  match attempts with
  | O => Err ("get next applicable Monday of weeks: " +:+ lastErr)
  | S attempts =>
      match GetMondayOfWeek loc week with
      | Ok monday => Ok monday
      | Err e => monday_loop loc attempts (week + 1) e
      end
  end.

Definition GetNextApplicableMondayOfNWeeks (now : Time) (n : Z) : result Time :=
  weeksSinceEpoch ← wrap "get current week number" (WeeksSinceEpoch now);
  let remainder := Z.rem weeksSinceEpoch n in
  let week := weeksSinceEpoch + (n - remainder) in
  if remainder =? 0 then Ok now
  else monday_loop (t_loc now) 3 week "".

(** ** Autostart and autostop *)

Section Autostop.
Context `{CronLib}.

(** [UserQuietHoursScheduleOptions] and the store's interface: [user.go]. *)
Record UserQuietHoursScheduleOptions := mkQuietHours {
  uqh_Schedule : option Schedule;
  uqh_UserSet : bool;
  uqh_UserCanSet : bool;
}.

Record UserQuietHoursScheduleStore := mkUQH {
  uqhs_Get : uuid -> Data -> result UserQuietHoursScheduleOptions;
  uqhs_Set : uuid -> string -> DB UserQuietHoursScheduleOptions;
}.

Definition agpl_quiet_Get (_ : uuid) (_ : Data) : result UserQuietHoursScheduleOptions :=
  Ok (mkQuietHours None false false).
Definition agpl_quiet_Set (_ : uuid) (_ : string) : DB UserQuietHoursScheduleOptions :=
  db_err "user cannot set custom quiet hours schedule due to deployment configuration".
Definition agplUserQuietHoursScheduleStore : UserQuietHoursScheduleStore :=
  mkUQH agpl_quiet_Get agpl_quiet_Set.

(** [NextAutostart]: the next scheduled start after [at_], in the schedule's
    zone, and whether the template allows starts on that day. *)
Definition NextAutostart (at_ : Time) (wsSchedule : string) (templateSchedule : TemplateScheduleOptions)
    : Time * bool :=
  match Weekly wsSchedule with
  | Err _ => (zeroTime, false)
  | Ok sched =>
      let nextTransition := Truncate (Next sched at_) Minute in
      let zonedTransition := In_ nextTransition (Location_ sched) in
      (zonedTransition,
       day_set (autostart_DaysMap (AutostartRequirement templateSchedule)) (Weekday zonedTransition))
  end.

Definition autostopRequirementLeeway : Z := 2 * Hour.
Definition autostopRequirementBuffer : Z := -15 * Minute.

Record AutostopTime := mkAutostop { Deadline : Time; MaxDeadline : Time }.

(** The day loop, [for i := 0; i < len(DaysOfWeek)+1; i++]: [n] is
    [len(DaysOfWeek) - i]. *)
Fixpoint day_loop (requirementDays : gmap Z bool) (n : nat) (startOfStopDay : Time) : result Time :=
  match n with
  | O => Err "could not find suitable day for template autostop requirement in the next 7 days"
  | S n =>
      if day_set requirementDays (Weekday startOfStopDay) then Ok startOfStopDay
      else day_loop requirementDays n (nextDayMidnight startOfStopDay)
  end.

(** The TTL part of [CalculateAutostop]: the deadline of a build finished at [now]. *)
Definition ttl_deadline (now : Time) (workspace : WorkspaceTable) (workspaceAutostart : string)
    (templateSchedule : TemplateScheduleOptions) : Time :=
  let ttl := if ni_Valid (ws_Ttl workspace) then ni_Int64 (ws_Ttl workspace) else 0 in
  let deadline := if ni_Valid (ws_Ttl workspace) then Add now (ni_Int64 (ws_Ttl workspace)) else zeroTime in
  let ttl := if negb (UserAutostopEnabled templateSchedule)
             then (if 0 <? DefaultTTL templateSchedule then DefaultTTL templateSchedule else 0)
             else ttl in
  if 0 <? ttl then
    let deadline := Add now ttl in
    if negb (String.eqb workspaceAutostart "") then
      let '(nextAutostart, ok) := NextAutostart now workspaceAutostart templateSchedule in
      if ok && After deadline nextAutostart then Add nextAutostart ttl else deadline
    else deadline
  else deadline.

(** The day the autostop requirement applies to: the first required day from
    the start of the stop day on. *)
Definition stop_day (now : Time) (req : TemplateAutostopRequirement) (s : Schedule) : result Time :=
  let startOfStopDay := truncateMidnight (Add now autostopRequirementLeeway) in
  startOfStopDay ← (if 1 <? aor_Weeks req
                    then wrap "determine start of stop week"
                           (GetNextApplicableMondayOfNWeeks startOfStopDay (aor_Weeks req))
                    else Ok startOfStopDay);
  let checkSchedule := Next s (Add startOfStopDay autostopRequirementBuffer) in
  let startOfStopDay := if Before checkSchedule (Add now autostopRequirementLeeway)
                        then nextDayMidnight startOfStopDay else startOfStopDay in
  day_loop (autostop_DaysMap req) 7 startOfStopDay.

(** The autostop requirement part: the max deadline, zero when none applies. *)
Definition requirement_deadline (now : Time) (req : TemplateAutostopRequirement) (s : Schedule) : result Time :=
  let now := In_ now (Location_ s) in
  startOfStopDay ← stop_day now req s;
  let checkTime := if Before startOfStopDay (Add now Hour) then Add now Hour
                   else Add startOfStopDay autostopRequirementBuffer in
  let maxDeadline := Next s checkTime in
  if IsZero maxDeadline then
    Err "could not find next occurrence of template autostop requirement in user quiet hours schedule"
  else Ok maxDeadline.

Definition CalculateAutostop (tss : TemplateScheduleStore) (uqhs : UserQuietHoursScheduleStore)
    (workspaceAutostart : string) (now : Time) (workspace : WorkspaceTable) (d : Data)
    : result AutostopTime :=
  templateSchedule ← wrap "get template schedule options" (tss_Get tss (ws_TemplateID workspace) d);
  let deadline := ttl_deadline now workspace workspaceAutostart templateSchedule in
  let req := AutostopRequirement templateSchedule in
  maxDeadline ←
    (if negb (aor_DaysOfWeek req =? 0) then
       userQuietHoursSchedule ← wrap "get user quiet hours schedule options"
                                  (uqhs_Get uqhs (ws_OwnerID workspace) d);
       match uqh_Schedule userQuietHoursSchedule with
       | Some s => requirement_deadline now req s
       | None => Ok zeroTime
       end
     else Ok zeroTime);
  let deadline := if negb (IsZero maxDeadline) && (IsZero deadline || Before maxDeadline deadline)
                  then maxDeadline else deadline in
  if (negb (IsZero deadline) && Before deadline now) || (negb (IsZero maxDeadline) && Before maxDeadline now)
  then Err "deadline calculation error, computed deadline or max deadline is in the past for workspace build"
  else Ok (mkAutostop deadline maxDeadline).
End Autostop.

(** * Theorems *)

(** ** Midnights in a regular zone *)

Definition epoch_day : Z := 738521.

Lemma epoch_midnight loc : TemplateAutostopRequirementEpoch loc = midnight loc epoch_day.
Proof. unfold TemplateAutostopRequirementEpoch. by rewrite Date_midnight. Qed.

Lemma truncateMidnight_day t : truncateMidnight t = midnight (t_loc t) (local_day t).
Proof.
  unfold truncateMidnight. rewrite Date_midnight. unfold Year, Month, Day.
  pose proof (day_number_of_date (local_day t) 0) as E. rewrite !Z.add_0_r in E. by rewrite E.
Qed.

Lemma nextDayMidnight_day t : nextDayMidnight t = midnight (t_loc t) (local_day t + 1).
Proof. unfold nextDayMidnight. rewrite Date_midnight. unfold Year, Month, Day. by rewrite day_number_of_date. Qed.

Section Regular.
Context (loc : Location) (Hloc : regular_zone loc).

Lemma second_of_midnight d : second_of_day (midnight loc d) = 0.
Proof. unfold second_of_day. rewrite Hloc. by apply Z.mod_mul. Qed.

Lemma nanosecond_of_midnight d : nanosecond_of (midnight loc d) = 0.
Proof. unfold nanosecond_of, midnight; simpl. by apply Z.mod_mul. Qed.

Lemma AddDays_midnight d n : AddDays (midnight loc d) n = midnight loc (d + n).
Proof using Hloc.
  unfold AddDays. rewrite second_of_midnight, nanosecond_of_midnight, midnight_zone, Date_midnight.
  unfold Year, Month, Day. by rewrite midnight_local_day, day_number_of_date.
Qed.

Lemma Year_midnight d : Year (midnight loc d) = year_of d.
Proof using Hloc. unfold Year. by rewrite midnight_local_day. Qed.

Lemma YearDay_midnight d : YearDay (midnight loc d) = yday_of d + 1.
Proof using Hloc. unfold YearDay. by rewrite midnight_local_day. Qed.

Lemma Weekday_midnight d : Weekday (midnight loc d) = weekday_of d.
Proof using Hloc. unfold Weekday. by rewrite midnight_local_day. Qed.

(** The loop adds up the lengths of the years it runs over. *)
Lemma weeks_loop_sum n i days :
  weeks_loop loc n i days =
  Ok (days + (days_before_year (i + Z.of_nat n) - days_before_year i)).
Proof using Hloc.
  revert i days. induction n as [|n IH]; intros i days; cbn [weeks_loop].
  - f_equal. rewrite Z.add_0_r. lia.
  - rewrite Date_midnight, day_number_in_range by lia.
    rewrite days_before_month_January.
    replace (days_before_year (i + 1) + 0 + _) with (days_before_year (i + 1)) by lia.
    rewrite AddDays_midnight, !Year_midnight, YearDay_midnight.
    assert (H1 : year_of (days_before_year (i + 1)) = i + 1).
    { apply year_of_unique. pose proof (days_before_year_mono_lt (i + 1) (i + 1 + 1)). lia. }
    assert (H2 : year_of (days_before_year (i + 1) + -1) = i).
    { apply year_of_unique. rewrite days_before_year_succ. pose proof (year_len_bounds i). lia. }
    rewrite H1, H2, !Z.eqb_refl. cbn [negb]. rewrite IH. f_equal.
    replace (i + Z.of_nat (S n)) with (i + 1 + Z.of_nat n) by lia.
    unfold yday_of. rewrite H2. lia.
Qed.
End Regular.

(** The week number is the number of whole weeks between the epoch and the
    local date.  In a zone whose days start at midnight, for a time at or after
    the epoch, the sum over the lengths of the years that [WeeksSinceEpoch]
    computes with [YearDay] is the day count since Monday, January 2, 2023,
    daylight saving or not, and the result is that count divided by 7. *)
Lemma WeeksSinceEpoch_correct now :
  regular_zone (t_loc now) ->
  Before now (TemplateAutostopRequirementEpoch (t_loc now)) = false ->
  epoch_day <= local_day now ->
  WeeksSinceEpoch now = Ok ((local_day now - epoch_day) / 7).
Proof.
  intros Hloc Hb Hday. unfold WeeksSinceEpoch. rewrite Hb, epoch_midnight.
  rewrite Year_midnight, YearDay_midnight, weeks_loop_sum by done.
  assert (Hy : year_of epoch_day <= Year now) by (by apply year_of_mono).
  change (Ok ?x ≫= ?f) with (f x). cbv beta zeta.
  rewrite Z2Nat.id by lia. replace (year_of epoch_day + _) with (Year now) by lia.
  unfold YearDay, yday_of. fold (Year now).
  set (x := _ + _). replace x with (local_day now - epoch_day) by (unfold x; lia).
  destruct (Z.ltb_spec (local_day now - epoch_day) 0); [lia|].
  by rewrite Z.quot_div_nonneg by lia.
Qed.

Lemma WeeksSinceEpoch_correct_witness :
  let now := Date 2024 7 17 3600 0 UTC in WeeksSinceEpoch now = Ok 80.
Proof.
  intros now. assert (Hd : (local_day now - epoch_day) / 7 = 80) by reflexivity.
  rewrite <- Hd. apply (WeeksSinceEpoch_correct now);
    [exact UTC_regular|reflexivity|apply Z.leb_le; reflexivity].
Defined.

(** ** Mondays of weeks *)

Lemma epoch_Monday : weekday_of epoch_day = 1.
Proof. reflexivity. Qed.

Lemma GetMondayOfWeek_spec loc n :
  regular_zone loc -> 0 <= n < 2 ^ 60 ->
  GetMondayOfWeek loc n = Ok (midnight loc (epoch_day + 7 * n)).
Proof.
  intros Hloc Hn. unfold GetMondayOfWeek. destruct (Z.ltb_spec n 0); [lia|].
  rewrite epoch_midnight, AddDays_midnight by done. rewrite wraps_id by lia.
  pose proof (truncateMidnight_day (midnight loc (epoch_day + n * 7))) as E.
  unfold truncateMidnight in E. rewrite midnight_zone in E. rewrite E, midnight_local_day by done.
  rewrite Weekday_midnight by done. replace (epoch_day + n * 7) with (epoch_day + 7 * n) by lia.
  by rewrite weekday_of_week.
Qed.

Definition week_of (t : Time) : Z := (local_day t - epoch_day) / 7.

(** A time the week count is defined at. *)
Definition after_epoch (t : Time) : Prop :=
  regular_zone (t_loc t) /\ Before t (TemplateAutostopRequirementEpoch (t_loc t)) = false /\
  epoch_day <= local_day t.

(** A workspace on an every-n-weeks schedule waits for the right week.  A time in
    a week divisible by [n] since the epoch is returned as is; otherwise the
    result is midnight of the Monday that opens the next week divisible by [n],
    found at the first attempt. *)
Lemma GetNextApplicableMonday_correct now n :
  after_epoch now -> local_day now < 2 ^ 59 -> 0 < n <= MaxTemplateAutostopRequirementWeeks ->
  exists w, week_of now <= w < week_of now + n /\ w mod n = 0 /\
    GetNextApplicableMondayOfNWeeks now n =
      Ok (if w =? week_of now then now else midnight (t_loc now) (epoch_day + 7 * w)) /\
    Weekday (midnight (t_loc now) (epoch_day + 7 * w)) = 1.
Proof.
  intros (Hloc & Hb & Hday) Hbig Hn. unfold GetNextApplicableMondayOfNWeeks.
  rewrite WeeksSinceEpoch_correct by done. fold (week_of now). cbn [wrap].
  change (Ok ?x ≫= ?f) with (f x). cbv beta zeta.
  assert (Hw : 0 <= week_of now < 2 ^ 59).
  { unfold week_of, epoch_day in *. Z.to_euclidean_division_equations. lia. }
  assert (Hmonday : forall w, Weekday (midnight (t_loc now) (epoch_day + 7 * w)) = 1).
  { intros w. rewrite Weekday_midnight by done. by rewrite weekday_of_week. }
  rewrite Z.rem_mod_nonneg by lia. pose proof (Z.mod_pos_bound (week_of now) n).
  destruct (Z.eqb_spec (week_of now mod n) 0) as [H0|H0].
  { exists (week_of now). rewrite Z.eqb_refl. split; [lia|]. auto. }
  unfold MaxTemplateAutostopRequirementWeeks in Hn.
  exists (week_of now + (n - week_of now mod n)). split; [lia|]. split; [|split; [|done]].
  - pose proof (Z.div_mod (week_of now) n ltac:(lia)).
    replace (week_of now + (n - week_of now mod n)) with ((week_of now / n + 1) * n) by lia.
    apply Z.mod_mul. lia.
  - destruct (Z.eqb_spec (week_of now + (n - week_of now mod n)) (week_of now)); [lia|].
    cbn [monday_loop]. by rewrite GetMondayOfWeek_spec by (done || lia).
Qed.

Lemma GetNextApplicableMonday_correct_witness :
  let now := Date 2024 7 17 3600 0 UTC in
  after_epoch now /\ GetNextApplicableMondayOfNWeeks now 3 = Ok (midnight UTC (epoch_day + 7 * 81)).
Proof.
  intros now. assert (H : after_epoch now).
  { split; [exact UTC_regular|]. split; [reflexivity|]. apply Z.leb_le; reflexivity. }
  split; [exact H|].
  destruct (GetNextApplicableMonday_correct now 3 H) as (w & Hrange & Hmod & Ht & _).
  - apply Z.ltb_lt. reflexivity.
  - unfold MaxTemplateAutostopRequirementWeeks. lia.
  - assert (Hw : week_of now = 80) by reflexivity. rewrite Hw in *.
    assert (w = 81) as -> by (clear -Hmod Hrange; Z.to_euclidean_division_equations; lia).
    exact Ht.
Defined.

(** ** The day loop *)

Lemma day_set_daysMap days wd :
  0 <= wd < 7 -> day_set (daysMap days) wd = Z.testbit days ((wd + 6) mod 7).
Proof.
  intros Hwd. assert (Hb : forall i, 0 <= i -> negb (Z.land days (Z.shiftl 1 i) =? 0) = Z.testbit days i).
  { intros i Hi. rewrite Z.shiftl_1_l. destruct (Z.testbit days i) eqn:E.
    - apply negb_true_iff, Z.eqb_neq. intros H0.
      apply (f_equal (fun x => Z.testbit x i)) in H0.
      rewrite Z.land_spec, E, Z.pow2_bits_true, Z.bits_0 in H0 by done. done.
    - apply negb_false_iff, Z.eqb_eq. apply Z.bits_inj'. intros j Hj.
      rewrite Z.land_spec, Z.bits_0, Z.pow2_bits_eqb by done.
      destruct (Z.eqb_spec i j) as [->|]; [by rewrite E|by rewrite andb_false_r]. }
  unfold day_set, daysMap. simpl. rewrite !Hb by lia.
  assert (wd = 0 \/ wd = 1 \/ wd = 2 \/ wd = 3 \/ wd = 4 \/ wd = 5 \/ wd = 6) as Hc by lia.
  destruct Hc as [->|[->|[->|[->|[->|[->| ->]]]]]]; reflexivity.
Qed.

(** The loop stops at the first midnight, within [n] days, of a required day. *)
Lemma day_loop_spec days n loc d :
  regular_zone loc ->
  match day_loop (daysMap days) n (midnight loc d) with
  | Ok t => exists k, 0 <= k < Z.of_nat n /\ t = midnight loc (d + k) /\
      day_set (daysMap days) (weekday_of (d + k)) = true /\
      forall j, 0 <= j < k -> day_set (daysMap days) (weekday_of (d + j)) = false
  | Err _ => forall j, 0 <= j < Z.of_nat n -> day_set (daysMap days) (weekday_of (d + j)) = false
  end.
Proof.
  intros Hloc. revert d. induction n as [|n IH]; intros d; cbn [day_loop]; [lia|].
  rewrite Weekday_midnight by done. destruct (day_set _ (weekday_of d)) eqn:Hd.
  { exists 0. rewrite Z.add_0_r. repeat split; [lia|done|lia]. }
  rewrite nextDayMidnight_day, midnight_local_day, midnight_zone by done.
  assert (Hstep : forall j, 0 <= j -> (forall i, 0 <= i < j - 1 -> day_set (daysMap days) (weekday_of (d + 1 + i)) = false) ->
    forall i, 0 <= i < j -> day_set (daysMap days) (weekday_of (d + i)) = false).
  { intros j Hj Hall i Hi. destruct (decide (i = 0)) as [->|]; [by rewrite Z.add_0_r|].
    replace (d + i) with (d + 1 + (i - 1)) by lia. apply Hall. lia. }
  specialize (IH (d + 1)). destruct (day_loop _ n _) as [t|].
  - destruct IH as (k & Hk & -> & Hset & Hno). exists (k + 1).
    replace (d + (k + 1)) with (d + 1 + k) by lia. repeat split; [lia..|done|].
    apply Hstep; [lia|]. intros i Hi. apply Hno. lia.
  - apply Hstep; [lia|]. intros i Hi. apply IH. lia.
Qed.

(** Some bit of the low seven is set: some day of every week is required. *)
Lemma daysMap_some days :
  0 < days < 128 -> forall d, exists j, 0 <= j < 7 /\ day_set (daysMap days) (weekday_of (d + j)) = true.
Proof.
  intros Hdays d. pose proof (Z.log2_spec days ltac:(lia)) as Hlog.
  assert (Hb : 0 <= Z.log2 days < 7).
  { split; [apply Z.log2_nonneg|]. apply Z.log2_lt_pow2; [lia|]. simpl; lia. }
  set (b := Z.log2 days) in *. set (wd := (b + 1) mod 7).
  exists ((wd - weekday_of d) mod 7). split; [apply Z.mod_pos_bound; lia|].
  rewrite weekday_of_shift.
  replace ((weekday_of d + (wd - weekday_of d) mod 7) mod 7) with wd.
  2:{ rewrite Zplus_mod_idemp_r. replace (weekday_of d + (wd - weekday_of d)) with wd by lia.
      symmetry. apply Z.mod_small. apply Z.mod_pos_bound. lia. }
  rewrite day_set_daysMap by (apply Z.mod_pos_bound; lia).
  replace ((wd + 6) mod 7) with b.
  2:{ unfold wd. rewrite Zplus_mod_idemp_l. replace (b + 1 + 6) with (b + 1 * 7) by lia.
      rewrite Z.mod_add by lia. symmetry. by apply Z.mod_small. }
  apply Z.bit_log2. lia.
Qed.

Lemma land_128_low x : 0 < x < 256 -> Z.land x 128 = 0 -> x < 128.
Proof.
  intros Hx H. destruct (Z.lt_ge_cases x 128) as [|Hge]; [done|]. exfalso.
  assert (Z.log2 x = 7) as Hlog by (apply Z.log2_unique; lia).
  pose proof (Z.bit_log2 x ltac:(lia)) as Hb. rewrite Hlog in Hb.
  apply (f_equal (fun y => Z.testbit y 7)) in H.
  by rewrite Z.land_spec, Hb, Z.bits_0 in H.
Qed.

Section AutostopTheorems.
Context `{CronLib}.
Implicit Types (s : Schedule) (req : TemplateAutostopRequirement).

(** Where the search for the stop day starts: the first applicable week. *)
Lemma start_week req d0 loc :
  after_epoch (midnight loc d0) -> d0 < 2 ^ 59 -> 0 < aor_Weeks req <= MaxTemplateAutostopRequirementWeeks ->
  exists d1, (if 1 <? aor_Weeks req
              then wrap "determine start of stop week" (GetNextApplicableMondayOfNWeeks (midnight loc d0) (aor_Weeks req))
              else Ok (midnight loc d0)) = Ok (midnight loc d1) /\
    d0 <= d1 /\ ((d1 - epoch_day) / 7) mod aor_Weeks req = 0 /\ (d1 = d0 \/ weekday_of d1 = 1).
Proof.
  intros Ha Hbig Hw. pose proof Ha as (Hloc & Hb & Hday). rewrite midnight_zone in Hloc.
  rewrite midnight_local_day in Hday by done.
  destruct (Z.ltb_spec 1 (aor_Weeks req)).
  2:{ exists d0. split; [done|]. split; [lia|]. split; [|by left].
      replace (aor_Weeks req) with 1 by lia. apply Z.mod_1_r. }
  destruct (GetNextApplicableMonday_correct _ _ Ha ltac:(by rewrite midnight_local_day) Hw)
    as (w & Hrange & Hmod & -> & Hmon).
  unfold week_of in *. rewrite Weekday_midnight, midnight_local_day in * by done. cbn [wrap].
  destruct (Z.eqb_spec w ((d0 - epoch_day) / 7)) as [->|Hne].
  - exists d0. auto with lia.
  - exists (epoch_day + 7 * w). split; [done|].
    replace (epoch_day + 7 * w - epoch_day) with (w * 7) by lia. rewrite Z.div_mul by done.
    split; [|auto]. clear -Hrange Hne. Z.to_euclidean_division_equations. lia.
Qed.

(** C12: an entitled workspace always gets a max deadline, on a required day.  With
    a requirement that passes verification and names a day, the search cannot
    fail: it starts at [d1], today in the user's zone (two hours from now) or
    the Monday of the next applicable week, and stops within a week at a day
    [D] the requirement names; the max deadline is the first quiet hour after a
    quarter to midnight of that day, or after one hour from now if that day has
    begun.  The zone is one whose clocks do not change at midnight, so that every
    day of it begins at a midnight ([regular_zone]); today is not before the
    requirement's epoch, January 2, 2023, and is less than 2^59 days away; and the quiet hours' schedule has a
    later next time whatever the time it is asked ([progresses]), which a cron schedule that names
    a day that never comes, like February 30, has not. *)
Theorem requirement_deadline_correct now req s :
  let loc := Location_ s in
  let d0 := local_day (Add (In_ now loc) autostopRequirementLeeway) in
  progresses s -> zero_ns <= t_ns now ->
  after_epoch (midnight loc d0) -> d0 < 2 ^ 59 ->
  is_ok (VerifyTemplateAutostopRequirement (aor_DaysOfWeek req) (aor_Weeks req)) = true ->
  0 < aor_DaysOfWeek req < 256 ->
  exists d1 D, d0 <= d1 <= D /\ D <= d1 + 7 /\
    (d1 = d0 \/ weekday_of d1 = 1) /\ ((d1 - epoch_day) / 7) mod aor_Weeks req = 0 /\
    day_set (autostop_DaysMap req) (weekday_of D) = true /\
    requirement_deadline now req s =
      Ok (Next s (if Before (midnight loc D) (Add (In_ now loc) Hour) then Add (In_ now loc) Hour
                  else Add (midnight loc D) autostopRequirementBuffer)).
Proof.
  intros loc d0 Hnext Hnow Ha Hbig Hv Hdays.
  assert (Hreq : 0 < aor_DaysOfWeek req < 128 /\ 0 < aor_Weeks req <= MaxTemplateAutostopRequirementWeeks).
  { unfold VerifyTemplateAutostopRequirement in Hv.
    destruct (Z.eqb_spec (Z.land (aor_DaysOfWeek req) 128) 0) as [H128|]; [|done]. simpl in Hv.
    destruct (Z.ltb_spec 255 (aor_DaysOfWeek req)); [done|].
    destruct (Z.ltb_spec (aor_Weeks req) 1); [done|].
    destruct (Z.ltb_spec MaxTemplateAutostopRequirementWeeks (aor_Weeks req)); [done|].
    split; [|lia]. split; [lia|]. by apply land_128_low. }
  destruct Hreq as [Hdays' Hweeks].
  pose proof (proj1 Ha) as Hloc. rewrite midnight_zone in Hloc.
  destruct (start_week req d0 loc Ha Hbig Hweeks) as (d1 & Hstart & Hd1 & Hmod & Hkind).
  unfold requirement_deadline, stop_day. fold loc.
  rewrite truncateMidnight_day. change (t_loc (Add (In_ now loc) autostopRequirementLeeway)) with loc.
  fold d0. rewrite Hstart. change (Ok ?x ≫= ?f) with (f x). cbv beta zeta.
  set (skip := Before (Next s _) _).
  set (d2 := if skip then d1 + 1 else d1).
  replace (if skip then nextDayMidnight (midnight loc d1) else midnight loc d1) with (midnight loc d2).
  2:{ unfold d2. destruct skip; [|done]. by rewrite nextDayMidnight_day, midnight_local_day. }
  assert (Hd2 : d1 <= d2 <= d1 + 1) by (unfold d2; destruct skip; lia).
  pose proof (day_loop_spec (aor_DaysOfWeek req) 7 loc d2 Hloc) as Hloop.
  unfold autostop_DaysMap. destruct (day_loop _ 7 _) as [t|e].
  2:{ destruct (daysMap_some _ Hdays' d2) as (j & Hj & Hset). rewrite Hloop in Hset by lia. done. }
  destruct Hloop as (k & Hk & -> & Hset & _).
  exists d1, (d2 + k). split; [lia|]. split; [lia|]. split; [done|]. split; [done|]. split; [done|].
  change (Ok ?x ≫= ?f) with (f x). cbv beta zeta.
  set (check := if Before _ _ then _ else _).
  assert (Hcheck : t_ns now < t_ns check).
  { unfold check, Before.
    destruct (Z.ltb_spec (t_ns (midnight loc (d2 + k))) (t_ns (Add (In_ now loc) Hour)));
      cbn [Add In_ t_ns] in *; unfold autostopRequirementBuffer, Hour, Minute, Second in *; lia. }
  unfold IsZero. destruct (Z.eqb_spec (t_ns (Next s check)) zero_ns); [|done].
  pose proof (Hnext check). lia.
Qed.

(** The deadlines of a build are consistent.  When [CalculateAutostop] returns
    without error, a deadline that is set is not in the past, a max deadline
    that is set is not in the past either, and a build with a max deadline has
    a deadline at or before it. *)
Lemma CalculateAutostop_consistent tss uqhs autostart now ws d a :
  CalculateAutostop tss uqhs autostart now ws d = Ok a ->
  (IsZero (Deadline a) = false -> t_ns now <= t_ns (Deadline a)) /\
  (IsZero (MaxDeadline a) = false ->
     t_ns now <= t_ns (MaxDeadline a) /\ IsZero (Deadline a) = false /\
     t_ns (Deadline a) <= t_ns (MaxDeadline a)).
Proof.
  unfold CalculateAutostop. intros (ts & _ & H1)%bind_Ok. cbv zeta in H1.
  apply bind_Ok in H1 as (m & _ & H1). revert H1. set (dl := ttl_deadline _ _ _ _).
  destruct (_ || _) eqn:Hpast; [done|]. intros [= <-]. simpl.
  bool_to_prop. unfold Before in *.
  destruct (IsZero m) eqn:Hm, (IsZero dl) eqn:Hdl; simpl in *; rewrite ?Hm, ?Hdl in *; simpl in *;
    repeat split; intros; try done; try lia.
  all: destruct (t_ns m <? t_ns dl) eqn:E; rewrite ?Hm, ?Hdl in *; simpl in *; try done; lia.
Qed.
End AutostopTheorems.

(** ** Concrete schedules *)

Module Examples.
Import DailyCron.

(** Quiet hours at midnight UTC; a Monday requirement every two weeks. *)
Definition midnight_UTC : Schedule := @mkSchedule lib ("UTC"%string, 0) "0 0 * * *".
Definition every_other_Monday : TemplateAutostopRequirement := mkAutostopReq 1 2.

Lemma midnight_UTC_progresses : progresses midnight_UTC.
Proof. intros t. apply (next_later ("UTC"%string, 0)). simpl. lia. Qed.

(** Tuesday, July 16, 2024, 10:00: week 80 since the epoch. *)
Definition tuesday : Time := Date 2024 7 16 36000 0 UTC.

Lemma tuesday_after_epoch :
  after_epoch (midnight UTC (local_day (Add (In_ tuesday UTC) autostopRequirementLeeway))).
Proof. split; [exact UTC_regular|]. split; [reflexivity|]. apply Z.leb_le; reflexivity. Qed.

Lemma requirement_deadline_correct_witness :
  exists d1 D, ((d1 - epoch_day) / 7) mod 2 = 0 /\
    day_set (autostop_DaysMap every_other_Monday) (weekday_of D) = true /\
    requirement_deadline tuesday every_other_Monday midnight_UTC = Ok (midnight UTC D).
Proof.
  destruct (requirement_deadline_correct tuesday every_other_Monday midnight_UTC midnight_UTC_progresses)
    as (d1 & D & _ & _ & _ & Hmod & Hset & Hreq).
  - apply Z.leb_le. reflexivity.
  - exact tuesday_after_epoch.
  - apply Z.ltb_lt. reflexivity.
  - reflexivity.
  - split; [apply Z.ltb_lt|apply Z.ltb_lt]; reflexivity.
  - exists d1. exists (epoch_day + 7 * 81). split; [exact Hmod|]. split; reflexivity.
Defined.

(** An every-other-week requirement can stop a workspace in the week that is not
    its turn.  [CalculateAutostop] keeps the current time when its week is
    divisible by the number of weeks, and the day loop then runs past the end
    of that week: built on a Tuesday of week 80 with a Monday requirement every
    two weeks, the workspace gets Monday of week 81 as its max deadline. *)
Theorem autostop_requirement_wrong_week :
  exists m, requirement_deadline tuesday every_other_Monday midnight_UTC = Ok m /\
    week_of tuesday mod aor_Weeks every_other_Monday = 0 /\
    week_of m = week_of tuesday + 1 /\ Weekday m = 1 /\
    week_of m mod aor_Weeks every_other_Monday = 1.
Proof.
  exists (midnight UTC (epoch_day + 7 * 81)). repeat split; reflexivity.
Qed.

(** A store with one workspace, whose TTL is 8 hours, and a template store that
    forbids users their own TTL and has no default TTL. *)
Definition forbidding : TemplateScheduleOptions :=
  mkScheduleOptions true false 0 0 (mkAutostopReq 0 1) (mkAutostartReq 127) 0 0 0 None false.
Definition forbidding_store : TemplateScheduleStore :=
  mkTSS (fun _ _ => Ok forbidding) (fun _ t _ => mret t).
Definition ttl_workspace : WorkspaceTable :=
  (example_workspace 1){{ ws_Ttl := mkNullInt64 (8 * Hour) true }}.
End Examples.

(** A TTL the user is not permitted to set still takes effect.  When the template
    forbids user autostop and has no default TTL, the deadline is the
    workspace's own TTL from now: it was assigned before the permission is
    checked, and the branch for a TTL of zero leaves it. *)
Theorem CalculateAutostop_forbidden_ttl `{CronLib} tss uqhs autostart now ws d ts :
  tss_Get tss (ws_TemplateID ws) d = Ok ts ->
  UserAutostopEnabled ts = false -> DefaultTTL ts <= 0 -> aor_DaysOfWeek (AutostopRequirement ts) = 0 ->
  ni_Valid (ws_Ttl ws) = true -> 0 <= ni_Int64 (ws_Ttl ws) ->
  CalculateAutostop tss uqhs autostart now ws d =
    Ok (mkAutostop (Add now (ni_Int64 (ws_Ttl ws))) zeroTime).
Proof.
  intros Hget Hua Hdef Hdays Hv Hpos. unfold CalculateAutostop. rewrite Hget. cbn [wrap].
  change (Ok ?x ≫= ?f) with (f x). cbv beta zeta. rewrite Hdays. cbn [Z.eqb negb].
  change (Ok ?x ≫= ?f) with (f x). cbv beta zeta.
  unfold ttl_deadline. rewrite Hua, Hv. cbn [negb].
  destruct (Z.ltb_spec 0 (DefaultTTL ts)); [lia|]. cbn.
  change (IsZero zeroTime) with true. cbn [negb andb].
  unfold Before. destruct (Z.ltb_spec (t_ns (Add now (ni_Int64 (ws_Ttl ws)))) (t_ns now)) as [Hlt|].
  - cbn [Add t_ns] in Hlt. lia.
  - by rewrite andb_false_r.
Qed.

Lemma CalculateAutostop_forbidden_ttl_witness :
  @CalculateAutostop DailyCron.lib Examples.forbidding_store (@agplUserQuietHoursScheduleStore DailyCron.lib)
    "" Examples.tuesday Examples.ttl_workspace example_store =
  Ok (mkAutostop (Add Examples.tuesday (8 * Hour)) zeroTime).
Proof.
  assert (Hpos : 0 <= ni_Int64 (ws_Ttl Examples.ttl_workspace)) by (apply Z.leb_le; reflexivity).
  exact (@CalculateAutostop_forbidden_ttl DailyCron.lib Examples.forbidding_store agplUserQuietHoursScheduleStore
           "" Examples.tuesday Examples.ttl_workspace example_store Examples.forbidding
           eq_refl eq_refl (Z.le_refl 0) eq_refl eq_refl Hpos).
Defined.

Lemma CalculateAutostop_consistent_witness :
  exists a, @CalculateAutostop DailyCron.lib Examples.forbidding_store (@agplUserQuietHoursScheduleStore DailyCron.lib)
    "" Examples.tuesday Examples.ttl_workspace example_store = Ok a /\
    t_ns Examples.tuesday <= t_ns (Deadline a).
Proof.
  exists (mkAutostop (Add Examples.tuesday (8 * Hour)) zeroTime).
  assert (H : @CalculateAutostop DailyCron.lib Examples.forbidding_store (@agplUserQuietHoursScheduleStore DailyCron.lib)
    "" Examples.tuesday Examples.ttl_workspace example_store =
    Ok (mkAutostop (Add Examples.tuesday (8 * Hour)) zeroTime)) by reflexivity.
  split; [exact H|].
  destruct (@CalculateAutostop_consistent DailyCron.lib _ _ _ _ _ _ _ H) as [Hd _]. apply Hd. reflexivity.
Defined.
