(* ===== verification/Autobuild.v ===== *)
(** * The lifecycle executor: [wirtuald/autobuild/lifecycle_executor.go]

    Which transition a workspace is due for, and the run over all workspaces
    that builds it.  The builder of [wirtuald/wsbuilder] is used through the
    interface [WorkspaceBuilder]. *)

From S2P Require Import Prelude GoStrings GoTime Cron Tags Db Schedule.

Section Decisions.
Context `{CronLib}.

Definition isEligibleForAutostart (user : User) (ws : WorkspaceTable) (build : WorkspaceBuild)
    (job : ProvisionerJob) (templateSchedule : TemplateScheduleOptions) (currentTick : Time) : bool :=
  if negb (bool_decide (u_Status user = UserActive)) then false
  else if bool_decide (pj_JobStatus job = JobFailed) then false
  else if nt_Valid (ws_DormantAt ws) then false
  else if negb (bool_decide (wb_Transition build = TransitionStop)) then false
  else if negb (UserAutostartEnabled templateSchedule) || negb (ns_Valid (ws_AutostartSchedule ws)) ||
          String.eqb (ns_String (ws_AutostartSchedule ws)) "" then false
  else
    let '(nextTransition, allowed) :=
      NextAutostart (wb_CreatedAt build) (ns_String (ws_AutostartSchedule ws)) templateSchedule in
    if negb allowed then false else negb (Before currentTick nextTransition).

Definition isEligibleForAutostop (user : User) (ws : WorkspaceTable) (build : WorkspaceBuild)
    (job : ProvisionerJob) (currentTick : Time) : bool :=
  if bool_decide (pj_JobStatus job = JobFailed) then false
  else if nt_Valid (ws_DormantAt ws) then false
  else if bool_decide (wb_Transition build = TransitionStart) && bool_decide (u_Status user = UserSuspended)
  then true
  else bool_decide (wb_Transition build = TransitionStart) && negb (IsZero (wb_Deadline build)) &&
       negb (Before currentTick (wb_Deadline build)).

Definition isEligibleForDormantStop (ws : WorkspaceTable) (templateSchedule : TemplateScheduleOptions)
    (currentTick : Time) : bool :=
  negb (nt_Valid (ws_DormantAt ws)) && (0 <? TimeTilDormant templateSchedule) &&
  (TimeTilDormant templateSchedule <? Sub currentTick (ws_LastUsedAt ws)).

Definition isEligibleForDelete (ws : WorkspaceTable) (templateSchedule : TemplateScheduleOptions)
    (lastBuild : WorkspaceBuild) (lastJob : ProvisionerJob) (currentTick : Time) : bool :=
  let eligible := nt_Valid (ws_DormantAt ws) && nt_Valid (ws_DeletingAt ws) &&
                  (0 <? TimeTilDormantAutoDelete templateSchedule) &&
                  After currentTick (nt_Time (ws_DeletingAt ws)) in
  if bool_decide (wb_Transition lastBuild = TransitionDelete) && bool_decide (pj_JobStatus lastJob = JobFailed)
  then eligible && Finished lastJob && (Hour * 24 <? Sub currentTick (FinishedAt lastJob))
  else eligible.

Definition isEligibleForFailedStop (build : WorkspaceBuild) (job : ProvisionerJob)
    (templateSchedule : TemplateScheduleOptions) (currentTick : Time) : bool :=
  (0 <? FailureTTL templateSchedule) && bool_decide (pj_JobStatus job = JobFailed) &&
  bool_decide (wb_Transition build = TransitionStart) && nt_Valid (pj_CompletedAt job) &&
  (FailureTTL templateSchedule <? Sub currentTick (nt_Time (pj_CompletedAt job))).

(** [None] is the empty transition: no provisioning, the workspace only goes dormant. *)
Definition getNextTransition (user : User) (ws : WorkspaceTable) (latestBuild : WorkspaceBuild)
    (latestJob : ProvisionerJob) (templateSchedule : TemplateScheduleOptions) (currentTick : Time)
    : result (option WorkspaceTransition * BuildReason) :=
  if isEligibleForAutostop user ws latestBuild latestJob currentTick then
    Ok (Some TransitionStop, ReasonAutostop)
  else if isEligibleForAutostart user ws latestBuild latestJob templateSchedule currentTick then
    Ok (Some TransitionStart, ReasonAutostart)
  else if isEligibleForFailedStop latestBuild latestJob templateSchedule currentTick then
    Ok (Some TransitionStop, ReasonAutostop)
  else if isEligibleForDormantStop ws templateSchedule currentTick then
    if bool_decide (wb_Transition latestBuild = TransitionStart) then Ok (Some TransitionStop, ReasonDormancy)
    else Ok (None, ReasonDormancy)
  else if isEligibleForDelete ws templateSchedule latestBuild latestJob currentTick then
    Ok (Some TransitionDelete, ReasonAutodelete)
  else Err "last transition not valid for autostart or autostop".

(** ** One run *)

Record TemplateAccessControl := mkAccessControl { tac_RequireActiveVersion : bool; tac_Deprecated : string }.

Definition useActiveVersion (opts : TemplateAccessControl) (ws : WorkspaceTable) : bool :=
  tac_RequireActiveVersion opts || bool_decide (ws_AutomaticUpdates ws = AutomaticUpdatesAlways).

(** The request [wsbuilder.New(ws, transition)...] stands for. *)
Record BuildRequest := mkBuildRequest {
  br_Workspace : WorkspaceTable;
  br_Transition : WorkspaceTransition;
  br_LastBuild : WorkspaceBuild;
  br_LastJob : ProvisionerJob;
  br_Reason : BuildReason;
  br_ActiveVersion : bool;
}.

(** What the executor relies on in the builder: a build leaves the workspace and
    template tables alone. *)
Class WorkspaceBuilder := {
  builder_Build : BuildRequest -> DB (WorkspaceBuild * ProvisionerJob);
  builder_tables req d :
    workspaces (builder_Build req d).1 = workspaces d /\ templates (builder_Build req d).1 = templates d;
}.

(** What a run does besides changing the store. *)
Inductive Event :=
| EvAudit (old new : WorkspaceTable) (success : bool)
| EvNotifyAutoUpdated (ws : uuid) (reason : option BuildReason) (version : string)
| EvPostJob (job : uuid)
| EvNotifyDormant (ws : uuid).

Record Stats := mkStats {
  st_Transitions : gmap uuid WorkspaceTransition;
  st_Errors : gmap uuid string;
}.

(** The variables the transaction closure sets. *)
Record TxVars := mkTxVars {
  tx_job : option ProvisionerJob;
  tx_audit : option (WorkspaceTable * WorkspaceTable);
  tx_notifyDormancy : bool;
  tx_nextBuild : option WorkspaceBuild;
  tx_activeVersion : TemplateVersion;
  tx_ws : WorkspaceTable;
  tx_didAutoUpdate : bool;
  tx_transition : option WorkspaceTransition;
}.

Section Run.
Context `{WorkspaceBuilder}.
Context (tss : TemplateScheduleStore) (acs : TemplateTable -> TemplateAccessControl).
(** [provisionerjobs.PostJob]: publishing on the pubsub, which may fail. *)
Context (postJob : ProvisionerJob -> result unit).
(** [dbtime.Now()] at the time of the run. *)
Context (now : Time).

Definition transition_tx (wsID : uuid) (currentTick : Time) : DB TxVars :=
  ws ← db_wrap "get workspace by id" (db_read (getWorkspaceByIDNoLock wsID));
  user ← db_wrap "get user by id" (db_read (getUserByIDNoLock (ws_OwnerID ws)));
  latestBuild ← db_wrap "get latest workspace build"
                  (db_read (getLatestWorkspaceBuildByWorkspaceIDNoLock (ws_ID ws)));
  latestJob ← db_wrap "get latest provisioner job"
                (db_read (getProvisionerJobByIDNoLock (wb_JobID latestBuild)));
  templateSchedule ← db_wrap "get template scheduling options" (db_read (tss_Get tss (ws_TemplateID ws)));
  tmpl ← db_wrap "get template by ID" (db_read (getTemplateByIDNoLock (ws_TemplateID ws)));
  activeTemplateVersion ← db_wrap "get active template version by ID"
                            (db_read (getTemplateVersionByIDNoLock (tpl_ActiveVersionID tmpl)));
  match getNextTransition user ws latestBuild latestJob templateSchedule currentTick with
  | Err _ => mret (mkTxVars None None false None activeTemplateVersion ws false None)
  | Ok (nextTransition, reason) =>
      '(nextBuild, job, didAutoUpdate) ←
        (match nextTransition with
         | None => mret (None, None, false)
         | Some tr =>
             let active := bool_decide (tr = TransitionStart) && useActiveVersion (acs tmpl) ws in
             '(b, j) ← db_wrap "build workspace with transition"
                        (builder_Build (mkBuildRequest ws tr latestBuild latestJob reason active));
             mret (Some b, Some j,
                   active && negb (wb_TemplateVersionID latestBuild =? tpl_ActiveVersionID tmpl)%N)
         end : DB (option WorkspaceBuild * option ProvisionerJob * bool));
      if bool_decide (reason = ReasonDormancy) then
        wsNew ← db_wrap "update workspace dormant deleting at"
                  (UpdateWorkspaceDormantDeletingAt now (ws_ID ws) (mkNullTime now true));
        mret (mkTxVars job (Some (ws, wsNew)) true nextBuild activeTemplateVersion
                (ws{{ ws_DormantAt := ws_DormantAt wsNew }}) didAutoUpdate nextTransition)
      else
        mret (mkTxVars job None false nextBuild activeTemplateVersion ws didAutoUpdate nextTransition)
  end.

(** The goroutine of one workspace: its transaction, then what follows the commit. *)
Definition process_row (currentTick : Time) (wsID : uuid) (st : Data * Stats * list Event)
    : Data * Stats * list Event :=
  let '(d, stats, events) := st in
  match InTx (transition_tx wsID currentTick) d with
  | (d, Err e) =>
      (d, stats{{ st_Errors ::= <[wsID := "transition workspace: " +:+ e]> }}, events)
  | (d, Ok v) =>
      let stats := match tx_transition v with
                   | Some tr => stats{{ st_Transitions ::= <[ws_ID (tx_ws v) := tr]> }}
                   | None => stats
                   end in
      let events := events ++
        match tx_audit v with Some (old, new) => [EvAudit old new true] | None => [] end ++
        (if tx_didAutoUpdate v
         then [EvNotifyAutoUpdated (ws_ID (tx_ws v)) (wb_Reason <$> tx_nextBuild v) (tv_Name (tx_activeVersion v))]
         else []) in
      match (match tx_job v with
             | Some job => _ ← wrap "post provisioner job to pubsub" (postJob job); Ok [EvPostJob (pj_ID job)]
             | None => Ok []
             end) with
      | Err e => (d, stats{{ st_Errors ::= <[wsID := e]> }}, events)
      | Ok posted =>
          (d, stats, events ++ posted ++
             (if tx_notifyDormancy v then [EvNotifyDormant (ws_ID (tx_ws v))] else []))
      end
  end.

(** [runOnce].  The rows are processed one at a time, each in a transaction of
    its own; the code runs up to ten of these at once. *)
Definition runOnce (t : Time) (d : Data) : Data * Stats * list Event :=
  let stats := mkStats ∅ ∅ in
  let currentTick := Truncate t Minute in
  match GetWorkspacesEligibleForTransition t d with
  | Err _ => (d, stats, [])
  | Ok rows => foldl (fun st '(id, _) => process_row currentTick id st) (d, stats, []) rows
  end.
End Run.
End Decisions.

(** * Theorems *)

Section Theorems.
Context `{CronLib}.

(** Turns a branch condition of the executor or of the query into a proposition. *)
Ltac cond_to_prop :=
  unfold Before, After, Sub in *;
  repeat rewrite ?andb_true_iff, ?orb_true_iff, ?negb_true_iff, ?bool_decide_eq_true, ?bool_decide_eq_false,
    ?Z.ltb_lt, ?Z.ltb_ge, ?Z.leb_le, ?Z.leb_gt in *.

(** The conditions under which each transition is legal. *)
Definition legal (user : User) (ws : WorkspaceTable) (build : WorkspaceBuild) (job : ProvisionerJob)
    (ts : TemplateScheduleOptions) (tick : Time) (tr : option WorkspaceTransition) (reason : BuildReason) : Prop :=
  match tr, reason with
  | Some TransitionStart, ReasonAutostart =>
      u_Status user = UserActive /\ wb_Transition build = TransitionStop /\ pj_JobStatus job <> JobFailed /\
      nt_Valid (ws_DormantAt ws) = false /\ UserAutostartEnabled ts = true /\
      ns_Valid (ws_AutostartSchedule ws) = true /\
      exists next, NextAutostart (wb_CreatedAt build) (ns_String (ws_AutostartSchedule ws)) ts = (next, true) /\
                   t_ns next <= t_ns tick
  | Some TransitionStop, ReasonAutostop =>
      wb_Transition build = TransitionStart /\
      ((nt_Valid (ws_DormantAt ws) = false /\ pj_JobStatus job <> JobFailed /\
        (u_Status user = UserSuspended \/
         (IsZero (wb_Deadline build) = false /\ t_ns (wb_Deadline build) <= t_ns tick))) \/
       (pj_JobStatus job = JobFailed /\ 0 < FailureTTL ts /\ nt_Valid (pj_CompletedAt job) = true /\
        FailureTTL ts < Sub tick (nt_Time (pj_CompletedAt job))))
  | Some TransitionStop, ReasonDormancy | None, ReasonDormancy =>
      nt_Valid (ws_DormantAt ws) = false /\ 0 < TimeTilDormant ts /\
      TimeTilDormant ts < Sub tick (ws_LastUsedAt ws) /\
      (tr = None <-> wb_Transition build <> TransitionStart)
  | Some TransitionDelete, ReasonAutodelete =>
      nt_Valid (ws_DormantAt ws) = true /\ nt_Valid (ws_DeletingAt ws) = true /\
      0 < TimeTilDormantAutoDelete ts /\ t_ns (nt_Time (ws_DeletingAt ws)) < t_ns tick /\
      (wb_Transition build = TransitionDelete -> pj_JobStatus job = JobFailed ->
         Finished job = true /\ 24 * Hour < Sub tick (FinishedAt job))
  | _, _ => False
  end.

Lemma autostart_legal user ws build job ts tick :
  isEligibleForAutostart user ws build job ts tick = true ->
  legal user ws build job ts tick (Some TransitionStart) ReasonAutostart.
Proof.
  unfold isEligibleForAutostart.
  destruct (bool_decide_reflect (u_Status user = UserActive)); [|done].
  destruct (bool_decide_reflect (pj_JobStatus job = JobFailed)); [done|].
  destruct (nt_Valid (ws_DormantAt ws)) eqn:?; [done|].
  destruct (bool_decide_reflect (wb_Transition build = TransitionStop)); [|done]. cbn [negb].
  destruct (UserAutostartEnabled ts) eqn:?, (ns_Valid (ws_AutostartSchedule ws)) eqn:?; simpl; try done.
  case_match; [done|].
  destruct (NextAutostart _ _ _) as [next allowed] eqn:Hn. destruct allowed; [|done]. simpl.
  intros Hb. cond_to_prop. rewrite ?Hn. do 6 (split; [assumption|]). exists next. auto.
Qed.

Lemma autostop_legal user ws build job ts tick :
  isEligibleForAutostop user ws build job tick = true ->
  legal user ws build job ts tick (Some TransitionStop) ReasonAutostop.
Proof.
  unfold isEligibleForAutostop. destruct (bool_decide_reflect (pj_JobStatus job = JobFailed)); [done|].
  destruct (nt_Valid (ws_DormantAt ws)) eqn:?; [done|]. simpl.
  destruct (bool_decide_reflect (wb_Transition build = TransitionStart)); simpl; [|done].
  destruct (bool_decide_reflect (u_Status user = UserSuspended)); simpl; [unfold legal; tauto|].
  intros Hb. cond_to_prop. tauto.
Qed.

Lemma next_transition_legal user ws build job ts tick tr reason :
  getNextTransition user ws build job ts tick = Ok (tr, reason) ->
  legal user ws build job ts tick tr reason.
Proof.
  unfold getNextTransition.
  destruct (isEligibleForAutostop _ _ _ _ _) eqn:E1; [intros [= <- <-]; by apply autostop_legal|].
  destruct (isEligibleForAutostart _ _ _ _ _ _) eqn:E2; [intros [= <- <-]; by apply autostart_legal|].
  destruct (isEligibleForFailedStop _ _ _ _) eqn:E3.
  { intros [= <- <-]. unfold isEligibleForFailedStop in E3. cond_to_prop. simpl. unfold Sub. tauto. }
  destruct (isEligibleForDormantStop _ _ _) eqn:E4.
  { unfold isEligibleForDormantStop in E4. cond_to_prop.
    destruct (bool_decide_reflect (wb_Transition build = TransitionStart)); intros [= <- <-]; simpl; unfold Sub;
      intuition congruence. }
  destruct (isEligibleForDelete _ _ _ _ _) eqn:E5; [|done]. intros [= <- <-].
  unfold isEligibleForDelete in E5. rewrite (Z.mul_comm Hour) in E5.
  destruct (bool_decide_reflect (wb_Transition build = TransitionDelete)),
    (bool_decide_reflect (pj_JobStatus job = JobFailed)); simpl in *; unfold Sub; cond_to_prop; tauto.
Qed.

(** C11: no illegal transition.  Whatever transition and reason [getNextTransition]
    returns, its conditions hold: a workspace is started only for an active
    user, from a stopped state, when its schedule is due on an allowed day; it
    is stopped only when started and either suspended, past its deadline, past
    the failure TTL, or idle; a dormant workspace is never started or stopped
    by its schedule; and only a dormant workspace past its deletion time is
    deleted, a failed deletion being retried after 24 hours. *)
Theorem getNextTransition_legal user ws build job ts tick tr reason :
  getNextTransition user ws build job ts tick = Ok (tr, reason) ->
  legal user ws build job ts tick tr reason.
Proof. apply next_transition_legal. Qed.

(** *** The query that preselects workspaces *)

(** The schedule options a template store gives agree with the template's
    columns where they are in force. *)
Record schedule_of (ts : TemplateScheduleOptions) (tpl : TemplateTable) : Prop := {
  so_failure : 0 < FailureTTL ts -> FailureTTL ts = tpl_FailureTTL tpl;
  so_dormant : 0 < TimeTilDormant ts -> TimeTilDormant ts = tpl_TimeTilDormant tpl;
  so_delete : 0 < TimeTilDormantAutoDelete ts -> TimeTilDormantAutoDelete ts = tpl_TimeTilDormantAutoDelete tpl;
}.

Lemma Truncate_le t d : t_ns (Truncate t d) <= t_ns t.
Proof.
  unfold Truncate. destruct (Z.leb_spec d 0); simpl; [lia|].
  pose proof (Z.mod_pos_bound (t_ns t - zero_ns) d). lia.
Qed.

(** Steps through the query's chain of tests: past one that would already
    select the row, or into one whose condition is shown. *)
Ltac past := match goal with |- (if ?c then Ok true else _) = _ => destruct c; [done|] end.
Ltac hit := match goal with |- (if ?c then _ else _) = _ =>
  let H := fresh in assert (c = true) as H; [cond_to_prop; intuition lia|rewrite H; clear H] end.

(** The query never hides a due workspace.  A workspace for which the executor
    would find a transition at the truncated tick is among the rows
    [GetWorkspacesEligibleForTransition] returns for the tick, so the
    preselection loses nothing: except a workspace whose deadline is the very
    instant of the tick, which the next tick picks up. *)
Lemma eligible_query_complete t d ws build user job tpl ts tr reason :
  getLatestWorkspaceBuildByWorkspaceIDNoLock (ws_ID ws) d = Ok build ->
  getUserByIDNoLock (ws_OwnerID ws) d = Ok user ->
  getProvisionerJobByIDNoLock (wb_JobID build) d = Ok job ->
  getTemplateByIDNoLock (ws_TemplateID ws) d = Ok tpl ->
  ws_Deleted ws = false ->
  schedule_of ts tpl ->
  t_ns (wb_Deadline build) <> t_ns t ->
  (nt_Valid (pj_CanceledAt job) = true -> nt_Valid (pj_CompletedAt job) = true ->
     t_ns (nt_Time (pj_CanceledAt job)) <= t_ns (nt_Time (pj_CompletedAt job))) ->
  getNextTransition user ws build job ts (Truncate t Minute) = Ok (tr, reason) ->
  eligible_for_transition t d ws = Ok true.
Proof.
  intros Hb Hu Hj Ht Hdel [Hso1 Hso2 Hso3] Hne Hcc Hnext%next_transition_legal.
  unfold eligible_for_transition. rewrite Hb. cbn [wrap mbind result_bind].
  rewrite Hu. cbn [wrap mbind result_bind]. rewrite Hj. cbn [wrap mbind result_bind].
  rewrite Ht. cbn [wrap mbind result_bind]. rewrite Hdel. cbv zeta.
  pose proof (Truncate_le t Minute) as Htr. set (tick := Truncate t Minute) in *. clearbody tick.
  destruct tr as [[]|], reason; try done; simpl in Hnext.
  - destruct Hnext as (H1 & H2 & H3 & H4 & _ & H6 & _). past. hit. done.
  - destruct Hnext as (H1 & [(H2 & H3 & H4)|(H2 & H3 & H4 & H5)]).
    + hit. done.
    + do 3 past. specialize (Hso1 H3). match goal with |- (if ?c then _ else _) = _ => destruct c end.
      * rewrite H1. done.
      * hit. done.
  - destruct Hnext as (H1 & H2 & H3 & _). specialize (Hso2 H2). do 2 past. hit. done.
  - destruct Hnext as (H1 & H2 & H3 & H4 & H5). specialize (Hso3 H3). do 3 past. hit.
    destruct (bool_decide_reflect (wb_Transition build = TransitionDelete)) as [Hd|]; [|done].
    destruct (bool_decide_reflect (pj_JobStatus job = JobFailed)) as [Hf|]; [|done]. cbn [andb].
    destruct (H5 Hd Hf) as [Hfin Hage]. unfold Finished, FinishedAt, Sub in *.
    destruct (nt_Valid (pj_CompletedAt job)) eqn:?, (nt_Valid (pj_CanceledAt job)) eqn:?; simpl in *; try done;
      repeat match goal with |- context [?a <=? ?b] => destruct (Z.leb_spec a b); [lia|] end; done.
  - destruct Hnext as (H1 & H2 & H3 & _). specialize (Hso2 H2). do 2 past. hit. done.
Qed.

(** *** Dormancy notifications *)

Section Notifications.
Context `{!WorkspaceBuilder}.
Context (tss : TemplateScheduleStore) (acs : TemplateTable -> TemplateAccessControl).
Context (postJob : ProvisionerJob -> result unit) (now : Time).

(** The effect of one workspace's transaction on dormancy. *)
Lemma transition_tx_dormancy id tick d d' r :
  transition_tx tss acs now id tick d = (d', r) ->
  match r with
  | Ok v =>
      (tx_notifyDormancy v = false /\ forall k, dormant_in k d' <-> dormant_in k d) \/
      (tx_notifyDormancy v = true /\ ws_ID (tx_ws v) = id /\ ~ dormant_in id d /\ dormant_in id d' /\
       forall k, k <> id -> dormant_in k d' <-> dormant_in k d)
  | Err _ => forall k, dormant_in k d' <-> dormant_in k d
  end.
Proof.
  unfold transition_tx. rewrite db_read_bind.
  destruct (getWorkspaceByIDNoLock id d) as [ws|] eqn:Hws; [|intros ?; by simplify_eq].
  do 6 (rewrite db_read_bind; match goal with |- match ?x with _ => _ end = _ -> _ => destruct x end;
        [|intros ?; by simplify_eq]).
  destruct (getNextTransition _ _ _ _ _ _) as [[tr reason]|] eqn:Hnext.
  2:{ intros [= <- <-]. left. split; [reflexivity|]. intros k. reflexivity. }
  apply next_transition_legal in Hnext.
  rewrite db_bind_eq. set (b := match tr with Some _ => _ | None => _ end).
  assert (Hb : workspaces (b d).1 = workspaces d).
  { unfold b. destruct tr as [tr|]; [|done]. rewrite db_wrap_bind.
    match goal with |- context [builder_Build ?q d] =>
      destruct (builder_tables q d) as [Hq _]; destruct (builder_Build q d) as [d1 [[??]|]] end; exact Hq. }
  pose proof (getWorkspaceByID_ID _ _ _ Hws) as Hid.
  destruct (b d) as [d1 [[[nb job] auto]|e]]; simpl in Hb.
  2:{ intros [= <- <-]. intros k. by apply dormant_in_table. }
  destruct (bool_decide_reflect (reason = ReasonDormancy)) as [->|].
  2:{ intros [= <- <-]. left. split; [reflexivity|]. intros k. by apply dormant_in_table. }
  rewrite db_wrap_bind. destruct (UpdateWorkspaceDormantDeletingAt _ _ _ d1) as [d2 [w'|e]] eqn:Hup;
    apply UpdateWorkspaceDormantDeletingAt_spec in Hup.
  2:{ intros [= <- <-]. intros k. apply dormant_in_table. by rewrite Hup. }
  destruct Hup as (_ & _ & Hin & Hother). rewrite Hid in Hin, Hother.
  intros [= <- <-]. right. simpl.
  assert (Hnd : nt_Valid (ws_DormantAt ws) = false) by (destruct tr as [[]|]; simpl in Hnext; tauto).
  split; [done|]. split; [by destruct ws|]. split; [|split; [by apply Hin|]].
  - intros (w & Hw & Hv). congruence.
  - intros k Hk. rewrite Hother by done. by apply dormant_in_table.
Qed.

Definition notified (events : list Event) : list uuid :=
  omap (fun e => match e with EvNotifyDormant id => Some id | _ => None end) events.

Lemma notified_app l1 l2 : notified (l1 ++ l2) = notified l1 ++ notified l2.
Proof. apply omap_app. Qed.

(** Every workspace notified so far is dormant, and was notified once. *)
Definition notified_ok (st : Data * Stats * list Event) : Prop :=
  NoDup (notified st.2) /\ forall id, id ∈ notified st.2 -> dormant_in id st.1.1.

Lemma process_row_ok tick id st : notified_ok st -> notified_ok (process_row tss acs postJob now tick id st).
Proof.
  destruct st as [[d stats] ev]. intros [Hnd Hin]. simpl in Hin, Hnd. unfold process_row, InTx.
  destruct (transition_tx _ _ _ id tick d) as [d' r] eqn:Htx. apply transition_tx_dormancy in Htx.
  destruct r as [v|e].
  2:{ split; [done|]. intros k Hk. simpl. by apply Htx, Hin. }
  set (ev' := ev ++ _ ++ _).
  assert (Hev : notified ev' = notified ev).
  { unfold ev'. rewrite !notified_app. destruct (tx_audit v) as [[??]|], (tx_didAutoUpdate v); simpl;
      by rewrite ?app_nil_r. }
  assert (Hkeep : forall k, k ∈ notified ev -> dormant_in k d').
  { intros k Hk. destruct Htx as [[_ Hsame]|(_ & _ & Hn & Hd & Hother)]; [by apply Hsame, Hin|].
    destruct (decide (k = id)) as [->|]; [done|]. by apply Hother, Hin. }
  assert (Hpost : forall posted, notified posted = [] ->
    notified_ok (d', match tx_transition v with Some tr => stats{{ st_Transitions ::= <[ws_ID (tx_ws v) := tr]> }} | None => stats end,
      ev' ++ posted ++ (if tx_notifyDormancy v then [EvNotifyDormant (ws_ID (tx_ws v))] else []))).
  { intros posted Hp. unfold notified_ok. cbn [fst snd]. rewrite !notified_app, Hev, Hp. simpl.
    destruct Htx as [[-> _]|(-> & Hid & Hn & Hd & _)]; simpl; [rewrite app_nil_r; auto|]. rewrite Hid. split.
    - apply NoDup_app. split; [done|]. split; [|apply NoDup_singleton].
      intros k Hk. rewrite list_elem_of_singleton. intros ->. by apply Hn, Hin.
    - intros k [Hk|Hk]%elem_of_app; [by apply Hkeep|]. apply list_elem_of_singleton in Hk as ->. done. }
  destruct (tx_job v) as [job|]; simpl; [|by apply (Hpost [])].
  destruct (postJob job); simpl; [by apply (Hpost [_])|].
  split; simpl; rewrite Hev; auto.
Qed.

(** A run marks a workspace dormant at most once and tells its owner at most
    once.  Each dormancy notification of a run is for a workspace that is
    dormant in the store the run leaves, and no workspace is notified twice. *)
Lemma runOnce_dormancy t d :
  let '(d', _, events) := runOnce tss acs postJob now t d in
  NoDup (notified events) /\ forall id, id ∈ notified events -> dormant_in id d'.
Proof.
  unfold runOnce. destruct (GetWorkspacesEligibleForTransition t d) as [rows|]; simpl.
  2:{ split; [constructor|]. intros id []%not_elem_of_nil. }
  assert (Hinit : notified_ok (d, mkStats ∅ ∅, [])) by (split; [constructor|intros id []%not_elem_of_nil]).
  revert Hinit. generalize (d, mkStats ∅ ∅, @nil Event).
  induction rows as [|[id nm] rows IH]; intros st Hst; simpl.
  - destruct st as [[??]?]. exact Hst.
  - apply IH. by apply process_row_ok.
Qed.
End Notifications.
End Theorems.

(** ** Concrete runs *)

Module Examples.
(** The example store, its users present, two hours after the first builds. *)
Definition due_user : User := mkUser 7 "u" UserActive false "" [] zeroTime zeroTime LoginTypePassword zeroTime.
Definition due_store : Data := example_store{{ users := [due_user] }}.
Definition due_tick : Time := Truncate (Add example_time (2 * Hour)) Minute.
Definition due_build : WorkspaceBuild := example_build 101 1 (Add example_time Hour) zeroTime.
Definition due_options : TemplateScheduleOptions :=
  mkScheduleOptions true true 0 0 (mkAutostopReq 0 1) (mkAutostartReq 127) 0 0 0 None false.
End Examples.

Lemma getNextTransition_legal_witness :
  @getNextTransition DailyCron.lib Examples.due_user (example_workspace 1) Examples.due_build example_done_job
    Examples.due_options Examples.due_tick = Ok (Some TransitionStop, ReasonAutostop) /\
  @legal DailyCron.lib Examples.due_user (example_workspace 1) Examples.due_build example_done_job
    Examples.due_options Examples.due_tick (Some TransitionStop) ReasonAutostop.
Proof. split; [reflexivity|]. apply getNextTransition_legal. reflexivity. Defined.

Lemma eligible_query_complete_witness :
  eligible_for_transition (Add example_time (2 * Hour)) Examples.due_store (example_workspace 1) = Ok true.
Proof.
  apply (@eligible_query_complete DailyCron.lib _ _ _ Examples.due_build Examples.due_user example_done_job
           (example_template Hour) Examples.due_options (Some TransitionStop) ReasonAutostop);
    try reflexivity.
  - split; discriminate.
  - discriminate.
  - discriminate.
Defined.
