(* ===== verification/Parameters.v ===== *)
(** * Workspace build parameters: [wirtualsdk/richparameters.go]

    Validation of the values a build is given for its template version's
    parameters, and their resolution against those of the previous build.  The
    validation of a value by its type is a third-party package's. *)

From S2P Require Import Prelude GoStrings GoEncoding.

(** [wirtualsdk.TemplateVersionParameter], the fields these functions read; an
    option is given by its value. *)
Record RichParameter := mkRichParameter {
  rp_Name : string;
  rp_DisplayName : string;
  rp_Type : string;
  rp_Mutable : bool;
  rp_DefaultValue : string;
  rp_Options : list string;
  rp_ValidationError : string;
  rp_ValidationRegex : string;
  rp_ValidationMin : option Z;
  rp_ValidationMax : option Z;
  rp_ValidationMonotonic : string;
  rp_Required : bool;
  rp_Ephemeral : bool;
}.

Record BuildParameter := mkBuildParameter { bp_Name : string; bp_Value : string }.

Definition MonotonicOrderIncreasing : string := "increasing".
Definition MonotonicOrderDecreasing : string := "decreasing".

(** [provider.Validation] and its method [Valid], of the Terraform provider. *)
Record Validation := mkValidation {
  v_Min : Z; v_Max : Z; v_MinDisabled : bool; v_MaxDisabled : bool;
  v_Regex : string; v_Error : string; v_Monotonic : string;
}.
Class ProviderValidation := { validation_Valid : Validation -> string -> string -> result unit }.

Definition nonempty (s : string) : bool := negb (String.eqb s "").

Definition findBuildParameter (params : list BuildParameter) (parameterName : string) : option BuildParameter :=
  find_first (fun p => String.eqb (bp_Name p) parameterName) params.

Definition validationEnabled (param : RichParameter) : bool :=
  nonempty (rp_ValidationRegex param) || bool_decide (is_Some (rp_ValidationMin param)) ||
  bool_decide (is_Some (rp_ValidationMax param)) || nonempty (rp_ValidationMonotonic param) ||
  String.eqb (rp_Type param) "bool" || String.eqb (rp_Type param) "list(string)".

Section Validate.
Context `{ProviderValidation}.

(** The monotonicity check, on the previous value and the new one; [None] stands
    for the dereference of a nil parameter. *)
Definition monotonic_check (p : RichParameter) (build last : option BuildParameter) : option (result unit) :=
  match last with
  | Some l =>
      if nonempty (bp_Value l) && String.eqb (rp_Type p) "number" && nonempty (rp_ValidationMonotonic p) then
        match Atoi (bp_Value l) with
        | Err _ => Some (Err "previous parameter value is not a number")
        | Ok prev =>
            match build with
            | None => None
            | Some b =>
                Some (match Atoi (bp_Value b) with
                      | Err _ => Err "current parameter value is not a number"
                      | Ok current =>
                          if String.eqb (rp_ValidationMonotonic p) MonotonicOrderIncreasing && (current <? prev) then
                            Err "parameter value must be equal or greater than previous value"
                          else if String.eqb (rp_ValidationMonotonic p) MonotonicOrderDecreasing && (prev <? current) then
                            Err "parameter value must be equal or lower than previous value"
                          else Ok tt
                      end)
            end
        end
      else Some (Ok tt)
  | None => Some (Ok tt)
  end.

(** The value that is validated: the default for an empty one. *)
Definition effective_value (p : RichParameter) (build : option BuildParameter) : string :=
  let value := match build with Some b => bp_Value b | None => ""%string end in
  if String.eqb value "" then rp_DefaultValue p else value.

Definition validateBuildParameter (p : RichParameter) (build last : option BuildParameter) : option (result unit) :=
  if rp_Required p && String.eqb (match build with Some b => bp_Value b | None => ""%string end) "" then
    Some (Err "parameter value is required")
  else
    let value := effective_value p build in
    match monotonic_check p build last with
    | Some (Ok _) =>
        Some (match rp_Options p with
              | _ :: _ =>
                  if existsb (String.eqb value) (rp_Options p) then Ok tt
                  else Err "parameter value must match one of options"
              | [] =>
                  if negb (validationEnabled p) then Ok tt
                  else validation_Valid
                         (mkValidation (default 0 (rp_ValidationMin p)) (default 0 (rp_ValidationMax p))
                            (bool_decide (rp_ValidationMin p = None)) (bool_decide (rp_ValidationMax p = None))
                            (rp_ValidationRegex p) (rp_ValidationError p) (rp_ValidationMonotonic p))
                         (rp_Type p) value
              end)
    | r => r
    end.

Definition ValidateWorkspaceBuildParameter (p : RichParameter) (build last : option BuildParameter) : option (result unit) :=
  r ← validateBuildParameter p build last;
  let name := if nonempty (rp_DisplayName p) then rp_DisplayName p else rp_Name p in
  Some (wrap ("can't validate build parameter " +:+ name) r).

Fixpoint ValidateWorkspaceBuildParameters (richParameters : list RichParameter) (buildParameters lastBuildParameters : list BuildParameter)
    : option (result unit) :=
  match richParameters with
  | [] => Some (Ok tt)
  | p :: richParameters =>
      let build := findBuildParameter buildParameters (rp_Name p) in
      let last := findBuildParameter lastBuildParameters (rp_Name p) in
      let found := bool_decide (is_Some build) in
      let foundLast := bool_decide (is_Some last) in
      if rp_Required p && negb found && negb foundLast then
        Some (Err ("workspace build parameter " +:+ rp_Name p +:+ " is required"))
      else if negb found && foundLast then
        ValidateWorkspaceBuildParameters richParameters buildParameters lastBuildParameters
      else
        match ValidateWorkspaceBuildParameter p build last with
        | Some (Ok _) => ValidateWorkspaceBuildParameters richParameters buildParameters lastBuildParameters
        | r => r
        end
  end.

Definition ValidateNewWorkspaceParameters (richParameters : list RichParameter) (buildParameters : list BuildParameter)
    : option (result unit) := ValidateWorkspaceBuildParameters richParameters buildParameters [].

(** ** [ParameterResolver], given by its field [Rich] *)

Definition findLastValue (rich : list BuildParameter) (p : RichParameter) : option BuildParameter :=
  find_first (fun rp => String.eqb (bp_Name rp) (rp_Name p)) rich.

Definition ValidateResolve (rich : list BuildParameter) (p : RichParameter) (v : option BuildParameter)
    : option (result string) :=
  let prevV := findLastValue rich p in
  if negb (rp_Mutable p) && bool_decide (is_Some v) && bool_decide (is_Some prevV) then
    Some (Err ("Parameter " +:+ rp_Name p +:+ " is not mutable, so it can't be updated after creating a workspace."))
  else if rp_Required p && negb (bool_decide (is_Some v)) && negb (bool_decide (is_Some prevV)) then
    Some (Err ("Parameter " +:+ rp_Name p +:+ " is required but not provided"))
  else
    let resolvedValue := match v with Some _ => v | None => if rp_Ephemeral p then None else prevV end in
    let resolvedValue := match resolvedValue with
                         | Some b => b
                         | None => mkBuildParameter (rp_Name p) (rp_DefaultValue p)
                         end in
    match ValidateWorkspaceBuildParameter p (Some resolvedValue) prevV with
    | None => None
    | Some (Err e) => Some (Err e)
    | Some (Ok _) => Some (Ok (bp_Value resolvedValue))
    end.

End Validate.

(** ** Theorems *)

Section Theorems.
Context `{ProviderValidation}.

Lemma nonempty_true s : nonempty s = true <-> s <> ""%string.
Proof. unfold nonempty. by destruct (String.eqb_spec s ""). Qed.

(** A given value is never a nil pointer to the checks. *)
Lemma monotonic_check_Some p b last : exists r, monotonic_check p (Some b) last = Some r.
Proof. unfold monotonic_check. repeat case_match; by eexists. Qed.

Lemma validateBuildParameter_Some p b last : exists r, validateBuildParameter p (Some b) last = Some r.
Proof.
  unfold validateBuildParameter. destruct (monotonic_check_Some p b last) as [r ->].
  repeat case_match; by eexists.
Qed.

Lemma ValidateWorkspaceBuildParameter_Some p b last : exists r, ValidateWorkspaceBuildParameter p (Some b) last = Some r.
Proof.
  unfold ValidateWorkspaceBuildParameter. destruct (validateBuildParameter_Some p b last) as [r ->]. by eexists.
Qed.

(** The monotonic order of a number parameter holds between two values. *)
Definition monotonic_order (p : RichParameter) (prev value : string) : Prop :=
  prev <> ""%string -> rp_Type p = "number"%string -> rp_ValidationMonotonic p <> ""%string ->
  exists a b, Atoi prev = Ok a /\ Atoi value = Ok b /\
    (rp_ValidationMonotonic p = MonotonicOrderIncreasing -> a <= b) /\
    (rp_ValidationMonotonic p = MonotonicOrderDecreasing -> b <= a).

Lemma monotonic_check_Ok p b l :
  monotonic_check p (Some b) (Some l) = Some (Ok tt) -> monotonic_order p (bp_Value l) (bp_Value b).
Proof.
  unfold monotonic_check. intros Hc Hl Ht Hm. apply nonempty_true in Hl, Hm. rewrite Hl, Hm, Ht, String.eqb_refl in Hc. cbn [andb] in Hc.
  destruct (Atoi (bp_Value l)) as [a|]; [|by injection Hc]. destruct (Atoi (bp_Value b)) as [c|]; [|by injection Hc].
  exists a, c. split; [done|]. split; [done|].
  destruct (String.eqb_spec (rp_ValidationMonotonic p) MonotonicOrderIncreasing) as [->|];
    destruct (String.eqb_spec (rp_ValidationMonotonic p) MonotonicOrderDecreasing) as [E|];
    destruct (Z.ltb_spec c a), (Z.ltb_spec a c); simpl in Hc; split; intros ?; try congruence; try discriminate; lia.
Qed.

(** What an accepted value of a parameter satisfies. *)
Record accepted (p : RichParameter) (last : option BuildParameter) (value : string) : Prop := {
  acc_required : rp_Required p = true -> value <> ""%string;
  acc_options : rp_Options p <> [] -> (if String.eqb value "" then rp_DefaultValue p else value) ∈ rp_Options p;
  acc_monotonic : forall l, last = Some l -> monotonic_order p (bp_Value l) value;
}.

Lemma validate_accepted p b last :
  ValidateWorkspaceBuildParameter p (Some b) last = Some (Ok tt) -> accepted p last (bp_Value b).
Proof.
  unfold ValidateWorkspaceBuildParameter. intros (r & Hr & Hw)%bind_Some.
  injection Hw as Hw. apply wrap_Ok in Hw as ->. unfold validateBuildParameter in Hr.
  destruct (rp_Required p && _) eqn:Hreq; [done|].
  destruct (monotonic_check p (Some b) last) as [[[]|]|] eqn:Hm; [|done|done].
  split.
  - intros Hp. rewrite Hp in Hreq. simpl in Hreq. by destruct (String.eqb_spec (bp_Value b) "").
  - intros Ho. destruct (rp_Options p) as [|o os]; [done|].
    destruct (existsb _ _) eqn:He; [|by injection Hr]. apply existsb_exists in He as (x & Hx & Hv).
    apply String.eqb_eq in Hv. unfold effective_value in Hv. simpl in Hv. rewrite Hv. by apply list_elem_of_In.
  - intros l ->. by apply monotonic_check_Ok.
Qed.

(** What [ValidateResolve] resolves a parameter to.  It always returns, never
    through a nil pointer.  On success the value is the one given, else the
    previous build's unless the parameter is ephemeral, else the default; an
    immutable parameter with a previous value was not given a new one, so it keeps
    it; the value is not empty if one is required, it is one of the options if
    there are any, and a monotonic number has moved in its direction only. *)
Lemma ValidateResolve_correct rich p v :
  exists r, ValidateResolve rich p v = Some r /\
  forall value, r = Ok value ->
    value = match v with
            | Some b => bp_Value b
            | None => match (if rp_Ephemeral p then None else findLastValue rich p) with
                      | Some b => bp_Value b
                      | None => rp_DefaultValue p
                      end
            end /\
    (rp_Mutable p = false -> is_Some (findLastValue rich p) -> v = None) /\
    accepted p (findLastValue rich p) value.
Proof.
  unfold ValidateResolve. set (prev := findLastValue rich p).
  destruct (negb (rp_Mutable p) && _ && _) eqn:Hmut; [by eexists|].
  destruct (rp_Required p && _ && _) eqn:Hreq; [by eexists|].
  set (rv := match _ with Some b => b | None => _ end).
  destruct (ValidateWorkspaceBuildParameter_Some p rv prev) as [[[]|e] Hr]; rewrite Hr; [|by eexists].
  eexists. split; [done|]. intros value [= <-]. split; [|split].
  - unfold rv. destruct v as [b|]; [done|]. destruct (rp_Ephemeral p); [done|]. by destruct prev.
  - intros Hp Hs. rewrite Hp in Hmut. simpl in Hmut. rewrite (bool_decide_eq_true_2 _ Hs), andb_true_r in Hmut.
    by destruct v.
  - by apply validate_accepted.
Qed.

(** [ValidateWorkspaceBuildParameters] never goes through a nil pointer either: a
    previous value is only compared with a given one. *)
Lemma ValidateWorkspaceBuildParameters_Some ps builds lasts :
  exists r, ValidateWorkspaceBuildParameters ps builds lasts = Some r.
Proof.
  induction ps as [|p ps [r IH]]; simpl; [by eexists|].
  destruct (findBuildParameter builds (rp_Name p)) as [b|].
  - rewrite bool_decide_eq_true_2 by by eexists. rewrite andb_false_r. simpl.
    destruct (ValidateWorkspaceBuildParameter_Some p b (findBuildParameter lasts (rp_Name p))) as [[|] ->]; by eexists.
  - rewrite bool_decide_eq_false_2 by by intros []. destruct (findBuildParameter lasts (rp_Name p)) as [l|].
    + rewrite bool_decide_eq_true_2 by by eexists. rewrite andb_false_r. by eexists.
    + rewrite bool_decide_eq_false_2 by by intros []. simpl. rewrite !andb_true_r.
      destruct (rp_Required p) eqn:Hr; [by eexists|].
      unfold ValidateWorkspaceBuildParameter, validateBuildParameter. rewrite Hr. simpl.
      destruct (match rp_Options p with [] => _ | _ => _ end) as [|]; by eexists.
Qed.
End Theorems.
