(* ===== verification/Builder.v ===== *)
(** * The workspace builder: [wirtuald/wsbuilder/wsbuilder.go]

    A [Builder] holds the options of a build and caches the rows it has read;
    [Build] checks the request against them and inserts the new build, its job
    and its parameters.  Everything runs in one transaction, so a computation is
    a function of the builder and the store.  Third-party code (the HCL
    evaluator, markdown rendering, UUID generation) is given by parameters. *)

From Stdlib Require Import Strings.Byte Ascii.
From S2P Require Import Prelude GoTime GoStrings GoEncoding Tags Db DbBuild Autobuild Parameters.

(** ** Errors *)

(** An error: the HTTP status of a [BuildError], whether [sql.ErrNoRows] is in
    its chain, and its text. *)
Record error := mkError { er_Status : option Z; er_NoRows : bool; er_Text : string }.

Definition StatusBadRequest : Z := 400.
Definition StatusForbidden : Z := 403.
Definition StatusNotFound : Z := 404.
Definition StatusNotAcceptable : Z := 406.
Definition StatusConflict : Z := 409.
Definition StatusInternalServerError : Z := 500.

(** An error of the store. *)
Definition db_error (e : string) : error := mkError None (String.eqb e ErrNoRows) e.
(** [xerrors.Errorf("context: %w", err)]; the row IDs that some contexts name are left out. *)
Definition errorf (context : string) (e : error) : error :=
  mkError (er_Status e) (er_NoRows e) (context +:+ ": " +:+ er_Text e).
(** [BuildError{status, message, err}]; its text is the wrapped error's. *)
Definition build_error (status : Z) (e : error) : error := mkError (Some status) (er_NoRows e) (er_Text e).
(** [xerrors.New(msg)] *)
Definition new_error (msg : string) : error := mkError None false msg.

(** ** The builder *)

Record versionTarget := mkVersionTarget { vt_active : bool; vt_specific : option uuid }.
Record stateTarget := mkStateTarget { st_orphan : bool; st_explicit : option (list byte) }.

Record Builder := mkBuilder {
  b_workspace : WorkspaceTable;
  b_trans : WorkspaceTransition;
  b_version : versionTarget;
  b_state : stateTarget;
  b_logLevel : string;
  b_deploymentValues : option bool;          (* EnableTerraformDebugMode *)
  b_richParameterValues : list BuildParameter;
  b_initiator : uuid;
  b_reason : option BuildReason;
  (* the cache *)
  b_template : option TemplateTable;
  b_templateVersion : option TemplateVersion;
  b_templateVersionJob : option ProvisionerJob;
  b_templateVersionParameters : option (list TemplateVersionParameter);
  b_templateVersionWorkspaceTags : option (list TemplateVersionWorkspaceTag);
  b_lastBuild : option WorkspaceBuild;
  b_lastBuildErr : option error;
  b_lastBuildParameters : option (list WorkspaceBuildParameter);
  b_lastBuildJob : option ProvisionerJob;
  b_parameters : option (list string * list string);
  b_verifyNoLegacyParametersOnce : bool;
}.

Definition New (w : WorkspaceTable) (t : WorkspaceTransition) : Builder :=
  mkBuilder w t (mkVersionTarget false None) (mkStateTarget false None) "" None [] uuid_Nil None
    None None None None None None None None None None false.

Definition VersionID (v : uuid) (b : Builder) : Builder := b{{ b_version := mkVersionTarget false (Some v) }}.
Definition ActiveVersion (b : Builder) : Builder := b{{ b_version := mkVersionTarget true None }}.
Definition State (state : list byte) (b : Builder) : Builder := b{{ b_state := mkStateTarget false (Some state) }}.
Definition Orphan (b : Builder) : Builder := b{{ b_state := mkStateTarget true None }}.
Definition LogLevel (l : string) (b : Builder) : Builder := b{{ b_logLevel := l }}.
Definition DeploymentValues (dv : bool) (b : Builder) : Builder := b{{ b_deploymentValues := Some dv }}.
Definition Initiator (u : uuid) (b : Builder) : Builder := b{{ b_initiator := u }}.
Definition Reason (r : BuildReason) (b : Builder) : Builder := b{{ b_reason := Some r }}.
Definition RichParameterValues (p : list BuildParameter) (b : Builder) : Builder := b{{ b_richParameterValues := p }}.
Definition SetLastWorkspaceBuildInTx (build : WorkspaceBuild) (b : Builder) : Builder := b{{ b_lastBuild := Some build }}.
Definition SetLastWorkspaceBuildJobInTx (job : ProvisionerJob) (b : Builder) : Builder := b{{ b_lastBuildJob := Some job }}.

(** ** Computations on the builder and the store *)

Inductive outcome (A : Type) := Good (a : A) | Bad (e : error).
Arguments Good {A} _.
Arguments Bad {A} _.

Definition BM (A : Type) : Type := Builder -> Data -> Builder * Data * outcome A.
#[export] Instance BM_ret : MRet BM := fun A a b d => (b, d, Good a).
#[export] Instance BM_bind : MBind BM := fun A B f m b d =>
  match m b d with (b, d, Good a) => f a b d | (b, d, Bad e) => (b, d, Bad e) end.

Definition fail {A} (e : error) : BM A := fun b d => (b, d, Bad e).
Definition get {A} (f : Builder -> A) : BM A := fun b d => (b, d, Good (f b)).
Definition set (f : Builder -> Builder) : BM unit := fun b d => (f b, d, Good tt).
(** A database call. *)
Definition call {A} (m : DB A) : BM A := fun b d =>
  match m d with (d, Ok a) => (b, d, Good a) | (d, Err e) => (b, d, Bad (db_error e)) end.
(** [if err != nil { return f(err) }] *)
Definition on_error {A} (f : error -> error) (m : BM A) : BM A := fun b d =>
  match m b d with (b, d, Bad e) => (b, d, Bad (f e)) | r => r end.
(** [if err != nil && !xerrors.Is(err, sql.ErrNoRows) { return f(err) }] *)
Definition unless_no_rows {A} (zero : A) (f : error -> error) (m : BM A) : BM A := fun b d =>
  match m b d with
  | (b, d, Bad e) => if er_NoRows e then (b, d, Good zero) else (b, d, Bad (f e))
  | r => r
  end.
(** [if err != nil { b.field = &err; return err }] *)
Definition on_failure {A} (keep : error -> Builder -> Builder) (m : BM A) : BM A := fun b d =>
  match m b d with (b, d, Bad e) => (keep e b, d, Bad e) | r => r end.
(** [if b.cache != nil { return *b.cache }], else compute and keep it. *)
Definition cached {A} (field : Builder -> option A) (keep : A -> Builder -> Builder) (m : BM A) : BM A :=
  c ← get field;
  match c with
  | Some a => mret a
  | None => a ← m; _ ← set (keep a); mret a
  end.

(** ** Third-party code *)

(** [cty.Value]; a number by its text. *)
Inductive cty_Value := CtyBool (b : bool) | CtyNumber (text : string) | CtyString (s : string) | CtyOther.
Inductive tag_result := TagParseError (diags : string) | TagEvalError (diags : string) | TagValue (v : cty_Value).

(** [render.PlaintextFromMarkdown], and parsing and evaluating an HCL expression
    with the build's parameters ([None] is a nil context). *)
Class BuilderLib := {
  plaintext : string -> result string;
  eval_expression : option (gmap string string) -> string -> tag_result;
}.

(** What the authorisation is asked: an action on an object. *)
Inductive Action := ActionDelete | ActionUpdate | ActionRead.
Inductive Object := ObjectWorkspace (w : WorkspaceTable) | ObjectTemplate (t : TemplateTable) | ObjectDeploymentConfig.
Definition AuthFunc : Type := Action -> Object -> bool.

Section Build.
Context `{UuidText, BuilderLib, ProviderValidation}.

(** ** Rows, read once *)

Definition getTemplate : BM TemplateTable :=
  cached b_template (fun t b => b{{ b_template := Some t }})
    (w ← get b_workspace;
     on_error (errorf "get template") (call (db_read (getTemplateByIDNoLock (ws_TemplateID w))))).

Definition getLastBuild : BM WorkspaceBuild :=
  c ← get b_lastBuild;
  match c with
  | Some bld => mret bld
  | None =>
      err ← get b_lastBuildErr;
      match err with
      | Some e => fail e
      | None =>
          w ← get b_workspace;
          on_failure (fun e b => b{{ b_lastBuildErr := Some e }})
            (bld ← on_error (errorf "get workspace last build")
                     (call (db_read (getLatestWorkspaceBuildByWorkspaceIDNoLock (ws_ID w))));
             _ ← set (fun b => b{{ b_lastBuild := Some bld }});
             mret bld)
      end
  end.

Definition getTemplateVersionID : BM uuid :=
  v ← get b_version;
  match vt_specific v with
  | Some id => mret id
  | None =>
      if vt_active v then
        t ← on_error (errorf "get template so we can get active version") getTemplate;
        mret (tpl_ActiveVersionID t)
      else
        bld ← on_error (errorf "get last build so we can get version") getLastBuild;
        mret (wb_TemplateVersionID bld)
  end.

Definition getTemplateVersion : BM TemplateVersion :=
  cached b_templateVersion (fun v b => b{{ b_templateVersion := Some v }})
    (id ← on_error (errorf "get template version ID so we can get version") getTemplateVersionID;
     on_error (errorf "get template version") (call (db_read (getTemplateVersionByIDNoLock id)))).

Definition getTemplateVersionJob : BM ProvisionerJob :=
  cached b_templateVersionJob (fun j b => b{{ b_templateVersionJob := Some j }})
    (v ← on_error (errorf "get template version so we can get provisioner job") getTemplateVersion;
     on_error (errorf "get template provisioner job") (call (db_read (getProvisionerJobByIDNoLock (tv_JobID v))))).

Definition getLastBuildJob : BM ProvisionerJob :=
  cached b_lastBuildJob (fun j b => b{{ b_lastBuildJob := Some j }})
    (bld ← on_error (errorf "get last build to get job") getLastBuild;
     on_error (errorf "get build provisioner job") (call (db_read (getProvisionerJobByIDNoLock (wb_JobID bld))))).

(** [bld.BuildNumber + 1], 32-bit. *)
Definition getBuildNumber : BM Z :=
  unless_no_rows 1 (errorf "get last build to compute build number")
    (bld ← getLastBuild; mret (wraps 32 (wb_BuildNumber bld + 1))).

Definition getState : BM (list byte) :=
  s ← get b_state;
  if st_orphan s then mret []
  else match st_explicit s with
       | Some state => mret state
       | None => unless_no_rows [] (errorf "get last build to get state") (bld ← getLastBuild; mret (wb_ProvisionerState bld))
       end.

(** ** Parameters *)

Definition getTemplateVersionParameters : BM (list TemplateVersionParameter) :=
  cached b_templateVersionParameters (fun p b => b{{ b_templateVersionParameters := Some p }})
    (tvID ← on_error (errorf "get template version ID to get parameters") getTemplateVersionID;
     unless_no_rows [] (errorf "get template version parameters") (call (db_read (GetTemplateVersionParameters tvID)))).

Definition getLastBuildParameters : BM (list WorkspaceBuildParameter) :=
  cached b_lastBuildParameters (fun p b => b{{ b_lastBuildParameters := Some p }})
    (bld ← unless_no_rows None (errorf "get last build to get parameters") (bld ← getLastBuild; mret (Some bld));
     match bld with
     | None => mret []
     | Some bld =>
         unless_no_rows [] (errorf "get last build parameters") (call (db_read (GetWorkspaceBuildParameters (wb_ID bld))))
     end).

Definition verifyNoLegacyParameters : BM unit :=
  once ← get b_verifyNoLegacyParametersOnce;
  if once : bool then mret tt
  else
    _ ← set (fun b => b{{ b_verifyNoLegacyParametersOnce := true }});
    trans ← get b_trans;
    if negb (bool_decide (trans = TransitionStart)) then mret tt
    else
      templateVersionJob ← on_error (errorf "failed to fetch template version job") getTemplateVersionJob;
      schemas ← unless_no_rows [] (errorf "failed to get parameter schemas")
                  (call (db_read (GetParameterSchemasByJobID (pj_ID templateVersionJob))));
      match schemas with
      | [] => mret tt
      | _ => fail (new_error "Legacy parameters in use on this version are not supported anymore. Contact your administrator for assistance.")
      end.

Definition findNewBuildParameterValue (richParameterValues : list BuildParameter) (name : string) : option BuildParameter :=
  find_first (fun v => String.eqb (bp_Name v) name) richParameterValues.

(** [db2sdk.TemplateVersionParameter] *)
Definition sdk_TemplateVersionParameter (p : TemplateVersionParameter) : result RichParameter :=
  options ← tvp_Options p;
  _ ← plaintext (tvp_Description p);
  Ok (mkRichParameter (tvp_Name p) (tvp_DisplayName p) (tvp_Type p) (tvp_Mutable p) (tvp_DefaultValue p) options
        (tvp_ValidationError p) (tvp_ValidationRegex p) (tvp_ValidationMin p) (tvp_ValidationMax p)
        (tvp_ValidationMonotonic p) (tvp_Required p) (tvp_Ephemeral p)).

(** [db2sdk.WorkspaceBuildParameters] *)
Definition sdk_WorkspaceBuildParameters (l : list WorkspaceBuildParameter) : list BuildParameter :=
  (fun p => mkBuildParameter (wbp_Name p) (wbp_Value p)) <$> l.

(** The loop of [getParameters] over the version's parameters. *)
Fixpoint resolve_parameters (rich new : list BuildParameter) (l : list TemplateVersionParameter)
    : outcome (list string * list string) :=
  match l with
  | [] => Good ([], [])
  | p :: l =>
      match sdk_TemplateVersionParameter p with
      | Err e => Bad (build_error StatusInternalServerError (db_error e))
      | Ok tvp =>
          match ValidateResolve rich tvp (findNewBuildParameterValue new (tvp_Name p)) with
          | None => Bad (new_error "panic: nil pointer dereference")
          | Some (Err e) => Bad (build_error StatusBadRequest (new_error e))
          | Some (Ok value) =>
              match resolve_parameters rich new l with
              | Bad e => Bad e
              | Good (names, values) => Good (tvp_Name p :: names, value :: values)
              end
          end
      end
  end.

Definition getParameters : BM (list string * list string) :=
  cached b_parameters (fun p b => b{{ b_parameters := Some p }})
    (templateVersionParameters ← on_error (build_error StatusInternalServerError) getTemplateVersionParameters;
     lastBuildParameters ← on_error (build_error StatusInternalServerError) getLastBuildParameters;
     _ ← on_error (build_error StatusBadRequest) verifyNoLegacyParameters;
     new ← get b_richParameterValues;
     match resolve_parameters (sdk_WorkspaceBuildParameters lastBuildParameters) new templateVersionParameters with
     | Good r => mret r
     | Bad e => fail e
     end).

(** ** Tags *)

Definition getTemplateVersionWorkspaceTags : BM (list TemplateVersionWorkspaceTag) :=
  cached b_templateVersionWorkspaceTags (fun t b => b{{ b_templateVersionWorkspaceTags := Some t }})
    (v ← on_error (errorf "get template version") getTemplateVersion;
     unless_no_rows [] (errorf "get template version workspace tags")
       (call (db_read (GetTemplateVersionWorkspaceTags (tv_ID v))))).

Definition buildParametersEvalContext (names values : list string) : option (gmap string string) :=
  match zip names values with
  | [] => None
  | l => Some (foldl (fun m '(name, value) => <[name := value]> m) ∅ l)
  end.

Definition ctyValueString (val : cty_Value) : result string :=
  match val with
  | CtyBool b => Ok (if b then "true"%string else "false"%string)
  | CtyNumber text => Ok text
  | CtyString s => Ok s
  | CtyOther => Err "only primitive types are supported - bool, number, and string"
  end.

Fixpoint evaluate_tags (evalCtx : option (gmap string string)) (l : list TemplateVersionWorkspaceTag) (tags : TagMap)
    : outcome TagMap :=
  match l with
  | [] => Good tags
  | t :: l =>
      match eval_expression evalCtx (wt_Value t) with
      | TagParseError diags | TagEvalError diags => Bad (build_error StatusBadRequest (new_error diags))
      | TagValue v =>
          match ctyValueString v with
          | Err e => Bad (build_error StatusBadRequest (new_error e))
          | Ok str => evaluate_tags evalCtx l (<[wt_Key t := str]> tags)
          end
      end
  end.

Definition getProvisionerTags : BM TagMap :=
  templateVersionJob ← on_error (build_error StatusInternalServerError) getTemplateVersionJob;
  w ← get b_workspace;
  let tags := MutateTags uuid_String (ws_OwnerID w) [pj_Tags templateVersionJob] in
  workspaceTags ← on_error (build_error StatusInternalServerError) getTemplateVersionWorkspaceTags;
  '(names, values) ← getParameters;
  match evaluate_tags (buildParametersEvalContext names values) workspaceTags tags with
  | Good tags => mret tags
  | Bad e => fail e
  end.

(** ** Checks *)

Definition authorize (authFunc : AuthFunc) : BM unit :=
  trans ← get b_trans;
  w ← get b_workspace;
  let action := match trans with TransitionDelete => ActionDelete | _ => ActionUpdate end in
  if negb (authFunc action (ObjectWorkspace w)) then
    fail (build_error StatusNotFound (new_error "Resource not found or you do not have access to this resource"))
  else
    template ← on_error (build_error StatusInternalServerError) getTemplate;
    state ← get b_state;
    logLevel ← get b_logLevel;
    dv ← get b_deploymentValues;
    if (bool_decide (is_Some (st_explicit state)) || st_orphan state) && negb (authFunc ActionUpdate (ObjectTemplate template)) then
      fail (build_error StatusForbidden (new_error "Only template managers may provide custom state"))
    else if nonempty logLevel && negb (authFunc ActionRead ObjectDeploymentConfig) then
      fail (build_error StatusBadRequest (new_error "Workspace builds with a custom log level are restricted to administrators only."))
    else if nonempty logLevel && bool_decide (dv = Some false) then
      fail (build_error StatusBadRequest (new_error "Terraform debug mode is disabled in the deployment configuration."))
    else mret tt.

(** The values that the messages of the checks quote are left out. *)
Definition checkTemplateVersionMatchesTemplate : BM unit :=
  template ← on_error (build_error StatusInternalServerError) getTemplate;
  templateVersion ← on_error (fun e => build_error (if er_NoRows e then StatusBadRequest else StatusInternalServerError) e)
                      getTemplateVersion;
  if bool_decide (tv_TemplateID templateVersion = Some (tpl_ID template)) then mret tt
  else fail (build_error StatusBadRequest (new_error "template version doesn't match template")).

Definition checkTemplateJobStatus : BM unit :=
  templateVersion ← on_error (build_error StatusInternalServerError) getTemplateVersion;
  templateVersionJob ← on_error (build_error StatusInternalServerError) getTemplateVersionJob;
  match pj_JobStatus templateVersionJob with
  | JobPending | JobRunning =>
      fail (build_error StatusNotAcceptable (new_error "The provided template version is not complete. Wait for it to complete importing!"))
  | JobFailed | JobCanceled =>
      fail (build_error StatusBadRequest (new_error "The provided template version has failed to import. You cannot build workspaces with it!"))
  | _ => mret tt
  end.

(** [ProvisionerJobStatus.Active] *)
Definition status_Active (p : ProvisionerJobStatus) : bool :=
  match p with JobPending | JobRunning | JobCanceling => true | _ => false end.

Definition checkRunningBuild : BM unit :=
  job ← unless_no_rows None (build_error StatusInternalServerError) (j ← getLastBuildJob; mret (Some j));
  match job with
  | None => mret tt
  | Some job =>
      if status_Active (pj_JobStatus job) then
        fail (build_error StatusConflict (new_error "A workspace build is already active."))
      else mret tt
  end.

(** ** The build *)

(** The JSON text of [WorkspaceProvisionJob{WorkspaceBuildID, LogLevel}]. *)
Definition provision_job_input (buildID : uuid) (logLevel : string) : string :=
  json_object ([("workspace_build_id"%string, json_string (uuid_String buildID)); ("dry_run"%string, "false"%string)] ++
    (if nonempty logLevel then [("log_level"%string, json_string logLevel)] else [])).

(** [b.store.InTx] inside the transaction: the build, its parameters, and the build read back. *)
Definition insert_build (buildID : uuid) (now : Time) (jobID templateVersionID : uuid) (buildNum : Z) (state : list byte)
    : BM WorkspaceBuild :=
  w ← get b_workspace;
  initiator ← get b_initiator;
  trans ← get b_trans;
  reason ← get b_reason;
  _ ← on_error (build_error StatusInternalServerError)
        (call (InsertWorkspaceBuild (mkBuild buildID now now (ws_ID w) templateVersionID buildNum trans initiator jobID
                 zeroTime (default ReasonInitiator reason) zeroTime state 0)));
  '(names, values) ← getParameters;
  _ ← on_error (build_error StatusInternalServerError) (call (InsertWorkspaceBuildParameters buildID names values));
  on_error (build_error StatusInternalServerError) (call (db_read (getWorkspaceBuildByIDNoLock buildID))).

(** The defaults: the owner initiates, and initiation is the reason. *)
Definition with_initiator (b : Builder) : Builder :=
  if (b_initiator b =? uuid_Nil)%N then b{{ b_initiator := ws_OwnerID (b_workspace b) }} else b.
Definition with_reason (b : Builder) : Builder :=
  match b_reason b with None => b{{ b_reason := Some ReasonInitiator }} | Some _ => b end.

(** [buildTx]; [buildID] and [jobID] are the two new UUIDs and [now] is
    [dbtime.Now()].  The marshalling of the input and of the trace metadata does
    not fail. *)
Definition buildTx (authFunc : option AuthFunc) (buildID jobID : uuid) (now : Time) : BM (WorkspaceBuild * ProvisionerJob) :=
  _ ← match authFunc with Some f => authorize f | None => mret tt end;
  _ ← checkTemplateVersionMatchesTemplate;
  _ ← checkTemplateJobStatus;
  _ ← checkRunningBuild;
  template ← on_error (build_error StatusInternalServerError) getTemplate;
  templateVersionJob ← on_error (build_error StatusInternalServerError) getTemplateVersionJob;
  _ ← set with_initiator;
  _ ← set with_reason;
  logLevel ← get b_logLevel;
  initiator ← get b_initiator;
  tags ← getProvisionerTags;
  provisionerJob ← on_error (build_error StatusInternalServerError)
    (call (InsertProvisionerJob (mkInsertJob jobID now now (tpl_OrganizationID template) initiator (tpl_Provisioner template)
       (pj_FileID templateVersionJob) JobWorkspaceBuild (provision_job_input buildID logLevel) tags)));
  templateVersionID ← on_error (build_error StatusInternalServerError) getTemplateVersionID;
  buildNum ← on_error (build_error StatusInternalServerError) getBuildNumber;
  state ← on_error (build_error StatusInternalServerError) getState;
  workspaceBuild ← insert_build buildID now (pj_ID provisionerJob) templateVersionID buildNum state;
  mret (workspaceBuild, provisionerJob).

(** [ReadModifyUpdate] runs the transaction again, up to five times, when it fails
    with a serialization error; the builder, and so its cache, is kept. *)
Fixpoint ReadModifyUpdate {A} (is_serialization_error : error -> bool) (retries : nat) (f : BM A) : BM A := fun b d =>
  match retries with
  | O => (b, d, Bad (new_error "too many errors; last error"))
  | S retries =>
      match f b d with
      | (b', d', Bad e) =>
          if is_serialization_error e then ReadModifyUpdate is_serialization_error retries f b' d'
          else (b', d', Bad e)
      | r => r
      end
  end.

Definition maxRetries : nat := 5.

(** [Build]; the in-memory store has no serialization errors. *)
Definition Build (authFunc : option AuthFunc) (buildID jobID : uuid) (now : Time) : BM (WorkspaceBuild * ProvisionerJob) :=
  on_error (errorf "build tx") (ReadModifyUpdate (fun _ => false) maxRetries (buildTx authFunc buildID jobID now)).

End Build.

(** * Theorems *)

(** ** What the builder reads

    [b0] is the builder as [buildTx] finds it and [d] the store; these predicates
    say what its rows are without regard to the cache. *)

Section Reads.
Context `{UuidText, BuilderLib, ProviderValidation}.
Context (b0 : Builder) (d : Data).

Definition the_workspace : WorkspaceTable := b_workspace b0.
Definition the_template (t : TemplateTable) : Prop := getTemplateByIDNoLock (ws_TemplateID the_workspace) d = Ok t.
Definition latest : result WorkspaceBuild := getLatestWorkspaceBuildByWorkspaceIDNoLock (ws_ID the_workspace) d.

Definition version_id (id : uuid) : Prop :=
  match vt_specific (b_version b0) with
  | Some s => id = s
  | None => if vt_active (b_version b0) then exists t, the_template t /\ id = tpl_ActiveVersionID t
            else exists bld, latest = Ok bld /\ id = wb_TemplateVersionID bld
  end.
Definition version (v : TemplateVersion) : Prop :=
  exists id, version_id id /\ getTemplateVersionByIDNoLock id d = Ok v.
Definition version_job (j : ProvisionerJob) : Prop :=
  exists v, version v /\ getProvisionerJobByIDNoLock (tv_JobID v) d = Ok j.
Definition last_job (j : ProvisionerJob) : Prop :=
  exists bld, latest = Ok bld /\ getProvisionerJobByIDNoLock (wb_JobID bld) d = Ok j.
Definition no_last_job : Prop :=
  forall bld, latest = Ok bld -> getProvisionerJobByIDNoLock (wb_JobID bld) d = Err ErrNoRows.
Definition version_parameters (l : list TemplateVersionParameter) : Prop :=
  exists id, version_id id /\ GetTemplateVersionParameters id d = Ok l.
Definition version_tags (l : list TemplateVersionWorkspaceTag) : Prop :=
  exists v, version v /\ GetTemplateVersionWorkspaceTags (tv_ID v) d = Ok l.
Definition last_parameters (l : list WorkspaceBuildParameter) : Prop :=
  match latest with Ok bld => GetWorkspaceBuildParameters (wb_ID bld) d = Ok l | Err _ => l = [] end.
Definition parameters (p : list string * list string) : Prop :=
  exists tvps last, version_parameters tvps /\ last_parameters last /\
    resolve_parameters (sdk_WorkspaceBuildParameters last) (b_richParameterValues b0) tvps = Good p.

(** The builder is the one [b0] stands for, and what it caches is what it would read. *)
Record coherent (b : Builder) : Prop := {
  co_workspace : b_workspace b = b_workspace b0;
  co_trans : b_trans b = b_trans b0;
  co_target : b_version b = b_version b0;
  co_state : b_state b = b_state b0;
  co_logLevel : b_logLevel b = b_logLevel b0;
  co_debug : b_deploymentValues b = b_deploymentValues b0;
  co_rich : b_richParameterValues b = b_richParameterValues b0;
  co_template : forall t, b_template b = Some t -> the_template t;
  co_version : forall v, b_templateVersion b = Some v -> version v;
  co_version_job : forall j, b_templateVersionJob b = Some j -> version_job j;
  co_version_params : forall l, b_templateVersionParameters b = Some l -> version_parameters l;
  co_version_tags : forall l, b_templateVersionWorkspaceTags b = Some l -> version_tags l;
  co_last : forall bld, b_lastBuild b = Some bld -> latest = Ok bld;
  co_last_err : forall e, b_lastBuildErr b = Some e -> latest = Err ErrNoRows /\ er_NoRows e = true;
  co_last_params : forall l, b_lastBuildParameters b = Some l -> last_parameters l;
  co_last_job : forall j, b_lastBuildJob b = Some j -> last_job j;
  co_params : forall p, b_parameters b = Some p -> parameters p;
}.

(** The builder keeps its initiator and reason, and parameters once it has them. *)
Definition grown (b b' : Builder) : Prop :=
  b_initiator b' = b_initiator b /\ b_reason b' = b_reason b /\ (is_Some (b_parameters b) -> is_Some (b_parameters b')).

Lemma grown_refl b : grown b b.
Proof. by split_and!. Qed.
Lemma grown_trans b1 b2 b3 : grown b1 b2 -> grown b2 b3 -> grown b1 b3.
Proof. intros (E1 & E2 & ?) (? & ? & ?). split_and!; [congruence..|auto]. Qed.

(** [m] reads only: it leaves the store, and keeps the builder coherent;
    its value satisfies [P], its error [Q]. *)
Definition reads {A} (m : BM A) (P : A -> Prop) (Q : error -> Prop) : Prop := forall b,
  coherent b ->
  let '(b', d', r) := m b d in
  d' = d /\ coherent b' /\ grown b b' /\
  match r with Good a => P a | Bad e => Q e end.

Definition any {A} (_ : A) : Prop := True.

Section Rules.
Context {A B : Type}.
Implicit Types (P : A -> Prop) (Q : error -> Prop).

Lemma reads_ret (a : A) P Q : P a -> reads (mret a) P Q.
Proof. intros Ha b Hb. simpl. auto using grown_refl. Qed.

Lemma reads_fail e P Q : Q e -> reads (fail e : BM A) P Q.
Proof. intros He b Hb. simpl. auto using grown_refl. Qed.

Lemma reads_weaken (m : BM A) P P' Q Q' :
  reads m P Q -> (forall a, P a -> P' a) -> (forall e, Q e -> Q' e) -> reads m P' Q'.
Proof.
  intros Hm HP HQ b Hb. specialize (Hm b Hb). destruct (m b d) as [[b' d'] r].
  destruct Hm as (? & ? & ? & Hr). split_and!; [done..|]. destruct r; auto.
Qed.

Lemma reads_bind (m : BM A) (f : A -> BM B) P (P' : B -> Prop) Q :
  reads m P Q -> (forall a, P a -> reads (f a) P' Q) -> reads (m ≫= f) P' Q.
Proof.
  intros Hm Hf b Hb. specialize (Hm b Hb). unfold mbind, BM_bind.
  destruct (m b d) as [[b1 d1] [a|e]]; [|exact Hm].
  destruct Hm as (-> & Hb1 & G1 & Ha). specialize (Hf a Ha b1 Hb1).
  destruct (f a b1 d) as [[b2 d2] r]. destruct Hf as (? & ? & G2 & ?). split_and!; try done. by eapply grown_trans.
Qed.

Lemma reads_get (f : Builder -> A) P Q : (forall b, coherent b -> P (f b)) -> reads (get f) P Q.
Proof. intros Hf b Hb. unfold get. auto 6 using grown_refl. Qed.

Lemma reads_on_error (g : error -> error) (m : BM A) P Q :
  reads m P (fun e => Q (g e)) -> reads (on_error g m) P Q.
Proof.
  intros Hm b Hb. specialize (Hm b Hb). unfold on_error. destruct (m b d) as [[b' d'] []]; exact Hm.
Qed.

(** The error of a row that is not there is turned into the zero value. *)
Lemma reads_unless_no_rows zero (g : error -> error) (m : BM A) P Q :
  reads m P (fun e => if er_NoRows e then P zero else Q (g e)) -> reads (unless_no_rows zero g m) P Q.
Proof.
  intros Hm b Hb. specialize (Hm b Hb). unfold unless_no_rows. destruct (m b d) as [[b' d'] [a|e]]; [exact Hm|].
  destruct (er_NoRows e); exact Hm.
Qed.

Lemma reads_call (g : Data -> result A) P Q :
  match g d with Ok a => P a | Err e => Q (db_error e) end -> reads (call (db_read g)) P Q.
Proof. intros Hg b Hb. unfold call, db_read. destruct (g d); auto 6 using grown_refl. Qed.

(** A field that is kept once it is computed. *)
Lemma reads_cached (field : Builder -> option A) keep (m : BM A) P Q :
  (forall b a, coherent b -> field b = Some a -> P a) ->
  (forall b a, coherent b -> P a -> coherent (keep a b) /\ grown b (keep a b)) ->
  reads m P Q -> reads (cached field keep m) P Q.
Proof.
  intros Hfield Hkeep Hm b Hb. unfold cached, get, set, mbind, BM_bind, mret, BM_ret.
  destruct (field b) as [a|] eqn:E; [by eauto 8 using grown_refl|]. specialize (Hm b Hb). destruct (m b d) as [[b' d'] [a|e]]; [|exact Hm].
  destruct Hm as (-> & Hb' & G1 & Ha). destruct (Hkeep b' a Hb' Ha) as (? & G2). split_and!; try done. by eapply grown_trans.
Qed.
End Rules.

Lemma reads_set (f : Builder -> Builder) (P : unit -> Prop) Q :
  (forall b, coherent b -> coherent (f b) /\ grown b (f b)) ->
  P tt -> reads (set f) P Q.
Proof. intros Hf HP b Hb. destruct (Hf b Hb) as (? & ?). unfold set. auto 6. Qed.

(** ** The getters *)

Lemma or_no_rows_Err {A} (o : option A) e : or_no_rows o = Err e -> e = ErrNoRows.
Proof. destruct o; simpl; congruence. Qed.

Lemma latest_Err w dd e : getLatestWorkspaceBuildByWorkspaceIDNoLock w dd = Err e -> e = ErrNoRows.
Proof.
  unfold getLatestWorkspaceBuildByWorkspaceIDNoLock. destruct (latest_build_loop _ _ _ _) as [row n].
  destruct (n =? -1); [congruence|apply or_no_rows_Err].
Qed.

(** The row is kept in its field of the builder. *)
Ltac keeps :=
  intros b a Hb Ha; destruct b, Hb; (split; [|split_and!; [reflexivity..|simpl; by eauto]]);
  constructor; simpl in *; try assumption; intros; simplify_eq; first [assumption|by eauto].
Ltac rows := match goal with |- match ?r with Ok _ => _ | Err _ => _ end => destruct r eqn:? end.

Lemma getTemplate_reads : reads getTemplate the_template any.
Proof.
  apply reads_cached; [intros b a Hb; apply (co_template _ Hb)|keeps|].
  eapply reads_bind; [apply (reads_get _ (fun w => w = the_workspace) any), co_workspace|]. intros w ->.
  apply reads_on_error, reads_call. by rows.
Qed.

Lemma getLastBuild_reads :
  reads getLastBuild (fun bld => latest = Ok bld) (fun e => latest = Err ErrNoRows /\ er_NoRows e = true).
Proof.
  intros b Hb. unfold getLastBuild, get, set, on_failure, on_error, call, db_read, mbind, BM_bind, mret, BM_ret.
  destruct (b_lastBuild b) as [bld|] eqn:E1; [pose proof (co_last _ Hb _ E1); auto using grown_refl|].
  destruct (b_lastBuildErr b) as [e|] eqn:E2; [pose proof (co_last_err _ Hb _ E2); unfold fail; auto using grown_refl|].
  rewrite (co_workspace _ Hb). fold the_workspace. fold latest.
  destruct latest as [bld|e] eqn:El.
  - split; [done|]. split; [|split; [by split_and!|auto]]. destruct b, Hb; constructor; simpl in *; try assumption. intros; by simplify_eq.
  - pose proof El as El'. apply latest_Err in El' as ->. split; [done|]. split; [|split; [by split_and!|auto]].
    destruct b, Hb; constructor; simpl in *; try assumption. intros; by simplify_eq.
Qed.

Lemma getTemplateVersionID_reads : reads getTemplateVersionID version_id any.
Proof.
  eapply reads_bind; [apply (reads_get _ (fun v => v = b_version b0) any), co_target|]. intros v ->.
  unfold version_id. destruct (vt_specific (b_version b0)); [by apply reads_ret|].
  destruct (vt_active (b_version b0)).
  - eapply reads_bind; [apply reads_on_error, getTemplate_reads|]. intros t Ht. apply reads_ret. by exists t.
  - eapply reads_bind; [eapply reads_on_error, reads_weaken; [apply getLastBuild_reads|done|by intros]|].
    intros bld Hbld. apply reads_ret. by exists bld.
Qed.

Lemma getTemplateVersion_reads : reads getTemplateVersion version any.
Proof.
  apply reads_cached; [intros b a Hb; apply (co_version _ Hb)|keeps|].
  eapply reads_bind; [apply reads_on_error, getTemplateVersionID_reads|]. intros id Hid.
  apply reads_on_error, reads_call. rows; [|done]. by exists id.
Qed.

Lemma getTemplateVersionJob_reads : reads getTemplateVersionJob version_job any.
Proof.
  apply reads_cached; [intros b a Hb; apply (co_version_job _ Hb)|keeps|].
  eapply reads_bind; [apply reads_on_error, getTemplateVersion_reads|]. intros v Hv.
  apply reads_on_error, reads_call. rows; [|done]. by exists v.
Qed.

Lemma getLastBuildJob_reads : reads getLastBuildJob last_job (fun _ => no_last_job).
Proof.
  apply reads_cached; [intros b a Hb; apply (co_last_job _ Hb)|keeps|].
  eapply reads_bind.
  - eapply reads_on_error, reads_weaken; [apply getLastBuild_reads|intros bld H'; exact H'|].
    intros e [E _] bld Hbld. congruence.
  - intros bld Hbld. apply reads_on_error, reads_call. rows; [by exists bld|].
    intros bld' Hbld'. assert (bld' = bld) as -> by congruence.
    match goal with H : _ = Err _ |- _ => rewrite H; by apply or_no_rows_Err in H as -> end.
Qed.

Definition next_number : Z := match latest with Ok bld => wraps 32 (wb_BuildNumber bld + 1) | Err _ => 1 end.

Lemma getBuildNumber_reads : reads getBuildNumber (fun n => n = next_number) any.
Proof.
  apply reads_unless_no_rows. eapply reads_bind.
  - eapply reads_weaken; [apply getLastBuild_reads|intros bld H'; exact H'|].
    intros e [E ->]. unfold next_number. by rewrite E.
  - intros bld Hbld. apply reads_ret. unfold next_number. by rewrite Hbld.
Qed.

Definition next_state : list byte :=
  if st_orphan (b_state b0) then []
  else match st_explicit (b_state b0) with
       | Some s => s
       | None => match latest with Ok bld => wb_ProvisionerState bld | Err _ => [] end
       end.

Lemma getState_reads : reads getState (fun s => s = next_state) any.
Proof.
  eapply reads_bind; [apply (reads_get _ (fun s => s = b_state b0) any), co_state|]. intros s ->.
  unfold next_state. destruct (st_orphan (b_state b0)); [by apply reads_ret|].
  destruct (st_explicit (b_state b0)); [by apply reads_ret|]. apply reads_unless_no_rows. eapply reads_bind.
  - eapply reads_weaken; [apply getLastBuild_reads|intros bld H'; exact H'|]. intros e [E ->]. by rewrite E.
  - intros bld Hbld. apply reads_ret. by rewrite Hbld.
Qed.

Lemma getTemplateVersionParameters_reads : reads getTemplateVersionParameters version_parameters any.
Proof.
  apply reads_cached; [intros b a Hb; apply (co_version_params _ Hb)|keeps|].
  eapply reads_bind; [apply reads_on_error, getTemplateVersionID_reads|]. intros id Hid.
  apply reads_unless_no_rows, reads_call. by exists id.
Qed.

Lemma getLastBuildParameters_reads : reads getLastBuildParameters last_parameters any.
Proof.
  apply reads_cached; [intros b a Hb; apply (co_last_params _ Hb)|keeps|].
  eapply (reads_bind _ _ (fun o => match o with Some bld => latest = Ok bld | None => latest = Err ErrNoRows end)).
  - apply reads_unless_no_rows. eapply reads_bind.
    + eapply reads_weaken; [apply getLastBuild_reads|intros bld H'; exact H'|]. by intros e [E ->].
    + intros bld Hbld. by apply reads_ret.
  - intros [bld|] Hl; unfold last_parameters; rewrite Hl; [|by apply reads_ret].
    apply reads_unless_no_rows, reads_call. done.
Qed.

Lemma verifyNoLegacyParameters_reads : reads verifyNoLegacyParameters any any.
Proof.
  eapply reads_bind; [by apply (reads_get _ any any)|]. intros [] _; [by apply reads_ret|].
  eapply reads_bind.
  { apply (reads_set _ any any); [|done]. intros b Hb. split; [by destruct b, Hb; constructor|by split_and!]. }
  intros _ _. eapply reads_bind; [by apply (reads_get _ any any)|]. intros tr _.
  destruct (negb _); [by apply reads_ret|].
  eapply reads_bind; [apply reads_on_error, getTemplateVersionJob_reads|]. intros j _.
  eapply (reads_bind _ _ any).
  { apply reads_unless_no_rows, reads_call. rows; [done|]. by destruct (er_NoRows _). }
  intros [|s l] _; [by apply reads_ret|by apply reads_fail].
Qed.

Lemma getParameters_reads : reads getParameters parameters any.
Proof.
  apply reads_cached; [intros b a Hb; apply (co_params _ Hb)|keeps|].
  eapply reads_bind; [apply reads_on_error, getTemplateVersionParameters_reads|]. intros tvps Ht.
  eapply reads_bind; [apply reads_on_error, getLastBuildParameters_reads|]. intros last Hl.
  eapply reads_bind; [apply reads_on_error, verifyNoLegacyParameters_reads|]. intros _ _.
  eapply reads_bind; [apply (reads_get _ (fun r => r = b_richParameterValues b0) any), co_rich|]. intros r ->.
  destruct (resolve_parameters _ _ _) eqn:E; [apply reads_ret; by exists tvps, last|by apply reads_fail].
Qed.

Lemma getTemplateVersionWorkspaceTags_reads : reads getTemplateVersionWorkspaceTags version_tags any.
Proof.
  apply reads_cached; [intros b a Hb; apply (co_version_tags _ Hb)|keeps|].
  eapply reads_bind; [apply reads_on_error, getTemplateVersion_reads|]. intros v Hv.
  apply reads_unless_no_rows, reads_call. by exists v.
Qed.

(** The tags of the job: the version job's, for the owner, and the workspace tags evaluated over them. *)
Definition job_tags (p : list string * list string) (tags : TagMap) : Prop :=
  exists j wts, version_job j /\ version_tags wts /\
    evaluate_tags (buildParametersEvalContext p.1 p.2) wts (MutateTags uuid_String (ws_OwnerID the_workspace) [pj_Tags j]) =
      Good tags.

Lemma getProvisionerTags_reads : reads getProvisionerTags (fun tags => exists p, parameters p /\ job_tags p tags) any.
Proof.
  eapply reads_bind; [apply reads_on_error, getTemplateVersionJob_reads|]. intros j Hj.
  eapply reads_bind; [apply (reads_get _ (fun w => w = the_workspace) any), co_workspace|]. intros w ->.
  eapply reads_bind; [apply reads_on_error, getTemplateVersionWorkspaceTags_reads|]. intros wts Hw.
  eapply reads_bind; [apply getParameters_reads|]. intros [names values] Hp.
  destruct (evaluate_tags _ _ _) eqn:E; [|by apply reads_fail].
  apply reads_ret. exists (names, values). split; [done|]. by exists j, wts.
Qed.

(** ** The checks *)

(** What the caller must be allowed to do. *)
Definition permitted (f : AuthFunc) : Prop :=
  f (match b_trans b0 with TransitionDelete => ActionDelete | _ => ActionUpdate end) (ObjectWorkspace the_workspace) = true /\
  (st_orphan (b_state b0) = true \/ is_Some (st_explicit (b_state b0)) ->
     exists t, the_template t /\ f ActionUpdate (ObjectTemplate t) = true) /\
  (b_logLevel b0 <> ""%string -> f ActionRead ObjectDeploymentConfig = true /\ b_deploymentValues b0 <> Some false).

Lemma authorize_reads f : reads (authorize f) (fun _ => permitted f) any.
Proof.
  eapply reads_bind; [apply (reads_get _ (fun t => t = b_trans b0) any), co_trans|]. intros tr ->.
  eapply reads_bind; [apply (reads_get _ (fun w => w = the_workspace) any), co_workspace|]. intros w ->.
  cbv zeta. destruct (negb (f _ (ObjectWorkspace _))) eqn:Hw; [by apply reads_fail|]. apply negb_false_iff in Hw.
  eapply reads_bind; [apply reads_on_error, getTemplate_reads|]. intros t Ht.
  eapply reads_bind; [apply (reads_get _ (fun s => s = b_state b0) any), co_state|]. intros s ->.
  eapply reads_bind; [apply (reads_get _ (fun l => l = b_logLevel b0) any), co_logLevel|]. intros l ->.
  eapply reads_bind; [apply (reads_get _ (fun v => v = b_deploymentValues b0) any), co_debug|]. intros dv ->.
  destruct (_ && negb (f ActionUpdate _)) eqn:Hc1; [by apply reads_fail|].
  destruct (_ && negb (f ActionRead _)) eqn:Hc2; [by apply reads_fail|].
  destruct (_ && bool_decide _) eqn:Hc3; [by apply reads_fail|].
  apply reads_ret. split; [exact Hw|]. split.
  - intros Hs. exists t. split; [done|]. apply andb_false_iff in Hc1 as [Hc1|Hc1]; [|by apply negb_false_iff].
    apply orb_false_iff in Hc1 as [Hx Ho]. apply bool_decide_eq_false in Hx. destruct Hs; congruence.
  - intros Hl. apply nonempty_true in Hl. rewrite Hl in Hc2, Hc3. simpl in Hc2, Hc3.
    split; [by apply negb_false_iff|by apply bool_decide_eq_false in Hc3].
Qed.

Lemma checkTemplateVersionMatchesTemplate_reads :
  reads checkTemplateVersionMatchesTemplate
    (fun _ => exists t v, the_template t /\ version v /\ tv_TemplateID v = Some (tpl_ID t)) any.
Proof.
  eapply reads_bind; [apply reads_on_error, getTemplate_reads|]. intros t Ht.
  eapply reads_bind; [apply reads_on_error, getTemplateVersion_reads|]. intros v Hv.
  case_bool_decide; [apply reads_ret; by exists t, v|by apply reads_fail].
Qed.

(** The version's import job neither failed nor is still to complete. *)
Definition importable (s : ProvisionerJobStatus) : Prop := s = JobSucceeded \/ s = JobCanceling \/ s = JobUnknown.

Lemma checkTemplateJobStatus_reads :
  reads checkTemplateJobStatus (fun _ => exists j, version_job j /\ importable (pj_JobStatus j)) any.
Proof.
  eapply reads_bind; [apply reads_on_error, getTemplateVersion_reads|]. intros v _.
  eapply reads_bind; [apply reads_on_error, getTemplateVersionJob_reads|]. intros j Hj.
  destruct (pj_JobStatus j) eqn:E; (by apply reads_fail) || (apply reads_ret; exists j; unfold importable; rewrite E; auto).
Qed.

(** No build of the workspace is known to run. *)
Definition nothing_running : Prop := no_last_job \/ exists j, last_job j /\ status_Active (pj_JobStatus j) = false.

Lemma checkRunningBuild_reads : reads checkRunningBuild (fun _ => nothing_running) any.
Proof.
  eapply (reads_bind _ _ (fun o => match o with Some j => last_job j | None => no_last_job end)).
  - apply reads_unless_no_rows. eapply reads_bind; [|intros j Hj; by apply reads_ret].
    eapply reads_weaken; [apply getLastBuildJob_reads|intros j Hj; exact Hj|]. intros e He. by destruct (er_NoRows e).
  - intros [j|] Hj; [|apply reads_ret; by left]. destruct (status_Active _) eqn:E; [by apply reads_fail|].
    apply reads_ret. right. by exists j.
Qed.
End Reads.

Create HintDb builder.
#[export] Hint Resolve getTemplate_reads getLastBuild_reads getTemplateVersionID_reads getTemplateVersionJob_reads
  getBuildNumber_reads getState_reads getParameters_reads getProvisionerTags_reads authorize_reads
  checkTemplateVersionMatchesTemplate_reads checkTemplateJobStatus_reads checkRunningBuild_reads : builder.

(** ** A successful build, step by step *)

Lemma BM_bind_Good {A B} (m : BM A) (f : A -> BM B) b d b' d' r :
  (m ≫= f) b d = (b', d', Good r) <-> exists b1 d1 a, m b d = (b1, d1, Good a) /\ f a b1 d1 = (b', d', Good r).
Proof.
  unfold mbind, BM_bind. destruct (m b d) as [[b1 d1] [a|e]]; split.
  - intros E. by exists b1, d1, a.
  - by intros (? & ? & ? & [= <- <- <-] & E).
  - done.
  - by intros (? & ? & ? & ? & ?).
Qed.

Lemma on_error_Good {A} g (m : BM A) b d b' d' r :
  on_error g m b d = (b', d', Good r) <-> m b d = (b', d', Good r).
Proof. unfold on_error. destruct (m b d) as [[? ?] []]; naive_solver. Qed.

Section BuildTx.
Context `{UuidText, BuilderLib, ProviderValidation}.

Lemma reads_Good {A} b0 d (m : BM A) P Q b b' d' r :
  reads b0 d m P Q -> coherent b0 d b -> m b d = (b', d', Good r) ->
  d' = d /\ coherent b0 d b' /\ grown b b' /\ P r.
Proof. intros Hm Hb E. specialize (Hm b Hb). by rewrite E in Hm. Qed.

(** Another job in the table does not change what was read. *)
Lemma find_first_app {A} (p : A -> bool) l l' x : find_first p l = Some x -> find_first p (l ++ l') = Some x.
Proof. induction l as [|y l IH]; simpl; [done|]. destruct (p y); auto. Qed.

Lemma job_found_app id dd job j :
  getProvisionerJobByIDNoLock id dd = Ok j ->
  getProvisionerJobByIDNoLock id (set_jobs (provisionerJobs dd ++ [job]) dd) = Ok j.
Proof.
  unfold getProvisionerJobByIDNoLock. change (provisionerJobs (set_jobs ?l _)) with l.
  destruct (find_first _ (provisionerJobs dd)) eqn:E; [|done]. intros Hj. by rewrite (find_first_app _ _ _ _ E).
Qed.

Lemma coherent_insert_job b0 d b job :
  coherent b0 d b -> coherent b0 (set_jobs (provisionerJobs d ++ [job]) d) b.
Proof.
  intros []. split; try done.
  - intros j Hj. destruct (co_version_job0 j Hj) as (v & Hv & Hjob). exists v. split; [exact Hv|by apply job_found_app].
  - intros j Hj. destruct (co_last_job0 j Hj) as (bld & Hl & Hjob). exists bld. split; [exact Hl|by apply job_found_app].
Qed.

(** Once the parameters are known they come from the cache. *)
Lemma getParameters_cached b d b' d' p : getParameters b d = (b', d', Good p) -> b_parameters b' = Some p.
Proof.
  unfold getParameters, cached. intros (b1 & d1 & c & Hc & E)%BM_bind_Good. unfold get in Hc. injection Hc as <- <- <-.
  destruct (b_parameters b) as [p0|] eqn:Hp; [unfold mret, BM_ret in E; by injection E as <- _ <-|].
  apply BM_bind_Good in E as (b2 & d2 & a & _ & Ha). unfold set, mbind, BM_bind, mret, BM_ret in Ha. by injection Ha as <- _ ->.
Qed.

Lemma getParameters_hit b d p : b_parameters b = Some p -> getParameters b d = (b, d, Good p).
Proof. intros E. unfold getParameters, cached, get, mbind, BM_bind, mret, BM_ret. by rewrite E. Qed.

Lemma getProvisionerTags_cached b d b' d' tags :
  getProvisionerTags b d = (b', d', Good tags) -> is_Some (b_parameters b').
Proof.
  unfold getProvisionerTags. intros (? & ? & j & _ & E)%BM_bind_Good.
  apply BM_bind_Good in E as (? & ? & w & _ & E). apply BM_bind_Good in E as (? & ? & wts & _ & E).
  apply BM_bind_Good in E as (b1 & d1 & [names values] & Hp & E). apply getParameters_cached in Hp.
  destruct (evaluate_tags _ _ _); [|done]. injection E as <- _ _. by eexists.
Qed.

Definition the_initiator (b0 : Builder) : uuid :=
  if (b_initiator b0 =? uuid_Nil)%N then ws_OwnerID (b_workspace b0) else b_initiator b0.

Lemma coherent_defaults b0 d b :
  coherent b0 d b -> coherent b0 d (with_reason (with_initiator b)).
Proof.
  intros [].
  assert (coherent b0 d (with_initiator b)) as [].
  { unfold with_initiator. destruct (b_initiator b =? uuid_Nil)%N; [|by split]. by destruct b; split. }
  unfold with_reason. destruct (b_reason (with_initiator b)); [by split|].
  by destruct (with_initiator b); split.
Qed.

Lemma defaults_initiator b0 d b :
  coherent b0 d b -> grown b0 b -> b_initiator (with_reason (with_initiator b)) = the_initiator b0.
Proof.
  intros Hb (Ei & Er & _). unfold with_reason, with_initiator, the_initiator. rewrite Ei, <- (co_workspace _ _ _ Hb).
  destruct (b_initiator b0 =? uuid_Nil)%N; destruct b; simpl in *; subst; destruct (b_reason b0); reflexivity.
Qed.

Lemma defaults_reason b0 b :
  grown b0 b -> b_reason (with_reason (with_initiator b)) = Some (default ReasonInitiator (b_reason b0)).
Proof.
  intros (Ei & Er & _). unfold with_reason, with_initiator.
  destruct (b_initiator b =? uuid_Nil)%N; destruct b; simpl in *; subst; destruct (b_reason b0); reflexivity.
Qed.

(** The rows of a build. *)
Definition new_job (jobID buildID : uuid) (now : Time) (b0 : Builder) (t : TemplateTable) (vj : ProvisionerJob) (tags : TagMap)
    : ProvisionerJob :=
  mkJob jobID now now noTime noTime noTime noString (tpl_OrganizationID t) (the_initiator b0) (tpl_Provisioner t)
    JobWorkspaceBuild (provision_job_input buildID (b_logLevel b0)) None (pj_FileID vj) tags noString JobPending.

Definition new_build (jobID buildID : uuid) (now : Time) (b0 : Builder) (d : Data) (versionID : uuid) : WorkspaceBuild :=
  mkBuild buildID now now (ws_ID (b_workspace b0)) versionID (next_number b0 d) (b_trans b0) (the_initiator b0) jobID
    zeroTime (default ReasonInitiator (b_reason b0)) zeroTime (next_state b0 d) 0.

(** The store after a build: the three rows are appended. *)
Definition built_store (d : Data) (job : ProvisionerJob) (bld : WorkspaceBuild) (rows : list WorkspaceBuildParameter) : Data :=
  set_build_parameters (workspaceBuildParameters d ++ rows)
    (set_builds (workspaceBuilds d ++ [bld]) (set_jobs (provisionerJobs d ++ [job]) d)).

Lemma find_first_new {A} (p : A -> bool) l x :
  Forall (fun y => p y = false) l -> p x = true -> find_first p (l ++ [x]) = Some x.
Proof. induction 1 as [|y l Hy _ IH]; simpl; intros Hx; [by rewrite Hx|]. rewrite Hy. auto. Qed.

Lemma resolve_lengths rich new l p : resolve_parameters rich new l = Good p -> length p.1 = length p.2.
Proof.
  revert p. induction l as [|x l IH]; intros p; simpl; [by intros [= <-]|].
  destruct (sdk_TemplateVersionParameter x); [|done]. destruct (ValidateResolve _ _ _) as [[]|]; [|done..].
  destruct (resolve_parameters rich new l) as [[ns vs]|]; [|done]. intros [= <-]. simpl. f_equal. by apply (IH (ns, vs)).
Qed.

Lemma build_parameter_rows_Some id names values :
  length names = length values -> exists rows, build_parameter_rows id names values = Some rows.
Proof.
  revert values. induction names as [|n names IH]; intros [|v values]; simpl; try done; [by eexists|].
  intros [= Hl]. destruct (IH values Hl) as [rows ->]. by eexists.
Qed.

(** Inserting the build does not fail once the parameters are known. *)
Lemma insert_build_run b0 d d1 b jobID buildID now versionID p :
  coherent b0 d b -> b_initiator b = the_initiator b0 -> b_reason b = Some (default ReasonInitiator (b_reason b0)) ->
  b_parameters b = Some p -> parameters b0 d p -> buildID ∉ wb_ID <$> workspaceBuilds d1 ->
  exists rows, build_parameter_rows buildID p.1 p.2 = Some rows /\
  insert_build buildID now jobID versionID (next_number b0 d) (next_state b0 d) b d1 =
    (b, set_build_parameters (workspaceBuildParameters d1 ++ rows)
          (set_builds (workspaceBuilds d1 ++ [new_build jobID buildID now b0 d versionID]) d1),
     Good (new_build jobID buildID now b0 d versionID)).
Proof.
  intros Hb Hi Hr Hp (ts & ls & _ & _ & Hres) Hnew.
  destruct (build_parameter_rows_Some buildID p.1 p.2 (resolve_lengths _ _ _ _ Hres)) as [rows Hrows].
  exists rows. split; [done|]. unfold insert_build, get, on_error, call, InsertWorkspaceBuild, mbind, BM_bind.
  rewrite (getParameters_hit _ _ p Hp). destruct p as [names values]. simpl in Hrows.
  unfold InsertWorkspaceBuildParameters. rewrite Hrows. unfold db_read, getWorkspaceBuildByIDNoLock.
  rewrite Hi, Hr, (co_workspace _ _ _ Hb), (co_trans _ _ _ Hb).
  change (mkBuild _ _ _ _ _ _ _ _ _ _ _ _ _ _) with (new_build jobID buildID now b0 d versionID).
  change (workspaceBuilds (set_build_parameters _ (set_builds ?l _))) with l.
  rewrite find_first_new; [done| |apply N.eqb_refl].
  apply Forall_forall. intros x Hx. apply N.eqb_neq. intros Ex. apply Hnew. rewrite <- Ex. by apply list_elem_of_fmap_2.
Qed.

(** What was checked, and what was computed, for a build that succeeded. *)
Record checked (authFunc : option AuthFunc) (b0 : Builder) (d : Data) (t : TemplateTable) (vj : ProvisionerJob) : Prop := {
  ck_auth : forall f, authFunc = Some f -> permitted b0 d f;
  ck_template : the_template b0 d t;
  ck_version : exists v, version b0 d v /\ tv_TemplateID v = Some (tpl_ID t);
  ck_job : version_job b0 d vj;
  ck_importable : importable (pj_JobStatus vj);
  ck_running : nothing_running b0 d;
}.

Lemma version_id_unique b0 d id id' : version_id b0 d id -> version_id b0 d id' -> id = id'.
Proof.
  unfold version_id. destruct (vt_specific _); [congruence|]. destruct (vt_active _).
  - intros (t & Ht & ->) (t' & Ht' & ->). unfold the_template in *. congruence.
  - intros (l & Hl & ->) (l' & Hl' & ->). congruence.
Qed.

Lemma version_unique b0 d v v' : version b0 d v -> version b0 d v' -> v = v'.
Proof. intros (id & Hid & Hv) (id' & Hid' & Hv'). rewrite (version_id_unique _ _ _ _ Hid Hid') in Hv. congruence. Qed.

Lemma version_job_unique b0 d j j' : version_job b0 d j -> version_job b0 d j' -> j = j'.
Proof. intros (v & Hv & Hj) (v' & Hv' & Hj'). rewrite (version_unique _ _ _ _ Hv Hv') in Hj. congruence. Qed.

Lemma parameters_unique b0 d p p' : parameters b0 d p -> parameters b0 d p' -> p = p'.
Proof.
  intros (ts & ls & (id & Hid & Ht) & Hl & Hr) (ts' & ls' & (id' & Hid' & Ht') & Hl' & Hr').
  rewrite (version_id_unique _ _ _ _ Hid Hid') in Ht. assert (ts = ts') as -> by congruence.
  assert (ls = ls') as -> by (unfold last_parameters in *; destruct (latest b0 d); congruence). congruence.
Qed.

Lemma insert_job_eq b0 d b jobID buildID now t vj tags :
  coherent b0 d b -> b_initiator b = the_initiator b0 ->
  InsertProvisionerJob (mkInsertJob jobID now now (tpl_OrganizationID t) (b_initiator b) (tpl_Provisioner t)
    (pj_FileID vj) JobWorkspaceBuild (provision_job_input buildID (b_logLevel b)) tags) d =
  (set_jobs (provisionerJobs d ++ [new_job jobID buildID now b0 t vj tags]) d, Ok (new_job jobID buildID now b0 t vj tags)).
Proof. intros Hb Hi. unfold InsertProvisionerJob. rewrite Hi, (co_logLevel _ _ _ Hb). reflexivity. Qed.

(** What is computed after the job was inserted is as before. *)
Lemma version_id_jobs b0 d l id : version_id b0 (set_jobs l d) id -> version_id b0 d id.
Proof. done. Qed.

(** A read at the front of a computation. *)
Lemma reads_front {A B} b0 d (m : BM A) P Q (f : A -> BM B) b b' d' r (R : Prop) :
  reads b0 d m P Q -> coherent b0 d b -> (m ≫= f) b d = (b', d', r) ->
  (forall b1 a, coherent b0 d b1 -> grown b b1 -> P a -> m b d = (b1, d, Good a) -> f a b1 d = (b', d', r) -> R) ->
  (forall e, d' = d -> r = Bad e -> R) -> R.
Proof.
  intros Hm Hb E Hgood Hbad. specialize (Hm b Hb). unfold mbind, BM_bind in E.
  destruct (m b d) as [[b1 d1] [a|e]] eqn:Em; destruct Hm as (-> & Hb1 & G & Ha).
  - by apply (Hgood b1 a).
  - injection E as _ <- <-. by apply (Hbad e).
Qed.

(** The part of [buildTx] after the job was inserted, in the store with the job. *)
Definition finish (buildID : uuid) (now : Time) (job : ProvisionerJob) : BM (WorkspaceBuild * ProvisionerJob) :=
  templateVersionID ← on_error (build_error StatusInternalServerError) getTemplateVersionID;
  buildNum ← on_error (build_error StatusInternalServerError) getBuildNumber;
  state ← on_error (build_error StatusInternalServerError) getState;
  workspaceBuild ← insert_build buildID now (pj_ID job) templateVersionID buildNum state;
  mret (workspaceBuild, job).

(** It inserts the build, or fails and leaves the store. *)
Lemma finish_cases b0 d b buildID now job p b' d' r :
  coherent b0 d b -> b_initiator b = the_initiator b0 -> b_reason b = Some (default ReasonInitiator (b_reason b0)) ->
  is_Some (b_parameters b) -> parameters b0 d p -> buildID ∉ wb_ID <$> workspaceBuilds d ->
  finish buildID now job b d = (b', d', r) ->
  match r with
  | Good (bld, job') => exists id rows, version_id b0 d id /\ job' = job /\ bld = new_build (pj_ID job) buildID now b0 d id /\
      build_parameter_rows buildID p.1 p.2 = Some rows /\
      d' = set_build_parameters (workspaceBuildParameters d ++ rows) (set_builds (workspaceBuilds d ++ [bld]) d)
  | Bad _ => d' = d
  end.
Proof.
  intros Hb Hi Hr Hps Hp Hnew E. unfold finish in E.
  eapply (reads_front _ _ _ _ _ _ _ _ _ _ _ (reads_on_error _ _ _ _ _ any (getTemplateVersionID_reads b0 d)) Hb E);
    [|by intros e -> ->]. clear E. intros b1 id Hb1 (Ei1 & Er1 & Gp1) Hid _ E.
  eapply (reads_front _ _ _ _ _ _ _ _ _ _ _ (reads_on_error _ _ _ _ _ any (getBuildNumber_reads b0 d)) Hb1 E);
    [|by intros e -> ->]. clear E. intros b2 n Hb2 (Ei2 & Er2 & Gp2) -> _ E.
  eapply (reads_front _ _ _ _ _ _ _ _ _ _ _ (reads_on_error _ _ _ _ _ any (getState_reads b0 d)) Hb2 E);
    [|by intros e -> ->]. clear E. intros b3 st Hb3 (Ei3 & Er3 & Gp3) -> _ E.
  destruct (Gp3 (Gp2 (Gp1 Hps))) as [p' Hp'].
  assert (p' = p) as -> by (eapply parameters_unique; [exact (co_params _ _ _ Hb3 _ Hp')|exact Hp]).
  destruct (insert_build_run b0 d d b3 (pj_ID job) buildID now id p) as (rows & Hrows & Hrun); try done; try congruence.
  unfold mbind, BM_bind in E. rewrite Hrun in E. injection E as _ <- <-. by exists id, rows.
Qed.

(** The first part of [buildTx]. *)
Lemma checks_cases b0 d authFunc b' d' r (k : BM (WorkspaceBuild * ProvisionerJob)) :
  coherent b0 d b0 ->
  (_ ← match authFunc with Some f => authorize f | None => mret tt end;
   _ ← checkTemplateVersionMatchesTemplate; _ ← checkTemplateJobStatus; _ ← checkRunningBuild; k) b0 d = (b', d', r) ->
  (exists b1 t vj, k b1 d = (b', d', r) /\ coherent b0 d b1 /\ grown b0 b1 /\ checked authFunc b0 d t vj) \/
  (exists e, d' = d /\ r = Bad e).
Proof.
  intros Hb E.
  assert (Hauth : reads b0 d (match authFunc with Some f => authorize f | None => mret tt end)
    (fun _ => forall f, authFunc = Some f -> permitted b0 d f) any).
  { destruct authFunc as [f|]; [|by apply reads_ret].
    eapply reads_weaken; [apply authorize_reads|by intros ? ? ? [= <-]|done]. }
  eapply (reads_front _ _ _ _ _ _ _ _ _ _ _ Hauth Hb E); [|by eauto]. clear E. intros b1 [] Hb1 G1 Ha _ E.
  eapply (reads_front _ _ _ _ _ _ _ _ _ _ _ (checkTemplateVersionMatchesTemplate_reads b0 d) Hb1 E); [|by eauto].
  clear E. intros b2 [] Hb2 G2 (t & v & Ht & Hv & Htv) _ E.
  eapply (reads_front _ _ _ _ _ _ _ _ _ _ _ (checkTemplateJobStatus_reads b0 d) Hb2 E); [|by eauto].
  clear E. intros b3 [] Hb3 G3 (vj & Hvj & Him) _ E.
  eapply (reads_front _ _ _ _ _ _ _ _ _ _ _ (checkRunningBuild_reads b0 d) Hb3 E); [|by eauto].
  clear E. intros b4 [] Hb4 G4 Hrun _ E. left. exists b4, t, vj. split; [done|]. split; [done|].
  split; [by repeat (eapply grown_trans; [eassumption|]); apply grown_refl|].
  split; [done|done|by exists v|done|done|done].
Qed.

(** What [buildTx] does to the store: on success the three kinds of rows are
    appended; an error leaves the store, or the job that was inserted before it. *)
Lemma buildTx_cases b0 d authFunc buildID jobID now b' d' r :
  coherent b0 d b0 -> buildID ∉ wb_ID <$> workspaceBuilds d ->
  buildTx authFunc buildID jobID now b0 d = (b', d', r) ->
  match r with
  | Good (bld, job) =>
      exists t vj p tags id rows, checked authFunc b0 d t vj /\ parameters b0 d p /\ job_tags b0 d p tags /\
        version_id b0 d id /\ job = new_job jobID buildID now b0 t vj tags /\ bld = new_build jobID buildID now b0 d id /\
        build_parameter_rows buildID p.1 p.2 = Some rows /\ d' = built_store d job bld rows
  | Bad _ => d' = d \/ exists t vj tags, d' = set_jobs (provisionerJobs d ++ [new_job jobID buildID now b0 t vj tags]) d
  end.
Proof.
  intros Hb Hnew E. unfold buildTx in E.
  destruct (checks_cases _ _ _ _ _ _ _ Hb E) as [(b1 & t & vj & E1 & Hb1 & G1 & Hck)|(e & -> & ->)]; [|by left]. clear E.
  eapply (reads_front _ _ _ _ _ _ _ _ _ _ _ (reads_on_error _ _ _ _ _ any (getTemplate_reads b0 d)) Hb1 E1);
    [|by intros e -> ->; left]. clear E1. intros b2 t' Hb2 G2 Ht' _ E.
  eapply (reads_front _ _ _ _ _ _ _ _ _ _ _ (reads_on_error _ _ _ _ _ any (getTemplateVersionJob_reads b0 d)) Hb2 E);
    [|by intros e -> ->; left]. clear E. intros b3 vj' Hb3 G3' Hvj' _ E.
  assert (t' = t) as ->. { pose proof (ck_template _ _ _ _ _ Hck) as Ht. unfold the_template in *. congruence. }
  assert (vj' = vj) as -> by (eapply version_job_unique; [done|apply Hck]).
  assert (G3 : grown b0 b3) by (eapply grown_trans; [exact G1|]; by eapply grown_trans).
  unfold mbind at 1, BM_bind at 1, set at 1 in E. unfold mbind at 1, BM_bind at 1, set at 1 in E.
  pose proof (coherent_defaults _ _ _ Hb3) as Hb5.
  pose proof (defaults_initiator _ _ _ Hb3 G3) as Hi5. pose proof (defaults_reason _ _ G3) as Hr5.
  set (b5 := with_reason (with_initiator b3)) in *. clearbody b5.
  unfold mbind at 1, BM_bind at 1, get at 1 in E. unfold mbind at 1, BM_bind at 1, get at 1 in E.
  eapply (reads_front _ _ _ _ _ _ _ _ _ _ _ (getProvisionerTags_reads b0 d) Hb5 E); [|by intros e -> ->; left].
  clear E. intros b6 tags Hb6 (Ei6 & Er6 & _) (p & Hp & Htags) Et E.
  pose proof (getProvisionerTags_cached _ _ _ _ _ Et) as Hp6.
  unfold mbind at 1, BM_bind at 1, on_error at 1, call in E. rewrite (insert_job_eq b0 _ _ _ _ _ _ _ _ Hb5 Hi5) in E.
  set (job := new_job jobID buildID now b0 t vj tags) in E.
  change (finish buildID now job b6 (set_jobs (provisionerJobs d ++ [job]) d) = (b', d', r)) in E.
  eapply (finish_cases b0) in E;
    [|by apply coherent_insert_job|congruence|congruence|done|exact Hp|exact Hnew].
  destruct r as [[bld job']|e]; [|by right; exists t, vj, tags].
  destruct E as (id & rows & Hid & -> & Hbld & Hrows & Hd'). exists t, vj, p, tags, id, rows. by split_and!.
Qed.

Lemma Build_buildTx authFunc buildID jobID now b d :
  Build authFunc buildID jobID now b d =
  match buildTx authFunc buildID jobID now b d with (b', d', Bad e) => (b', d', Bad (errorf "build tx" e)) | r => r end.
Proof.
  unfold Build, on_error, maxRetries. cbn [ReadModifyUpdate].
  by destruct (buildTx authFunc buildID jobID now b d) as [[b1 d1] [a|e]].
Qed.

(** ** The latest build *)

Lemma latest_build_loop_spec id l row n :
  let '(row', n') := latest_build_loop id l row n in
  n <= n' /\ (forall b, b ∈ l -> wb_WorkspaceID b = id -> wb_BuildNumber b <= n') /\
  ((row' = row /\ n' = n) \/ exists b, row' = Some b /\ b ∈ l /\ wb_WorkspaceID b = id /\ wb_BuildNumber b = n').
Proof.
  revert row n. induction l as [|b l IH]; intros row n; simpl.
  { split; [lia|]. split; [set_solver|by left]. }
  destruct (N.eqb_spec (wb_WorkspaceID b) id) as [Hw|Hw]; simpl; [destruct (Z.ltb_spec n (wb_BuildNumber b)) as [Hn|Hn]|].
  - specialize (IH (Some b) (wb_BuildNumber b)). destruct (latest_build_loop _ _ _ _) as [row' n'].
    destruct IH as (Hle & Hall & Hrow). split; [lia|]. split; [intros x [->|Hx]%elem_of_cons ?; [lia|auto]|].
    right. destruct Hrow as [[-> ->]|(x & ? & ? & ? & ?)]; [exists b; split_and!; [done|left|done|done]|].
    exists x. split_and!; [done|by right|done|done].
  - specialize (IH row n). destruct (latest_build_loop _ _ _ _) as [row' n'].
    destruct IH as (Hle & Hall & Hrow). split; [lia|]. split; [intros x [->|Hx]%elem_of_cons ?; [lia|auto]|].
    destruct Hrow as [?|(x & ? & ? & ? & ?)]; [by left|]. right. exists x. split_and!; [done|by right|done|done].
  - specialize (IH row n). destruct (latest_build_loop _ _ _ _) as [row' n'].
    destruct IH as (Hle & Hall & Hrow). split; [lia|]. split; [intros x [->|Hx]%elem_of_cons ?; [done|auto]|].
    destruct Hrow as [?|(x & ? & ? & ? & ?)]; [by left|]. right. exists x. split_and!; [done|by right|done|done].
Qed.

(** ** The builds of a store *)

(** The job of a build is found, and its status. *)
Definition job_of (d : Data) (x : WorkspaceBuild) (j : ProvisionerJob) : Prop :=
  getProvisionerJobByIDNoLock (wb_JobID x) d = Ok j.
Definition finished (d : Data) (x : WorkspaceBuild) : Prop :=
  exists j, job_of d x j /\ status_Active (pj_JobStatus j) = false.

(** Builds are numbered from 1 in each workspace, each has a job, and only the
    highest-numbered one of a workspace can be active. *)
Record builds_ok (d : Data) : Prop := {
  bo_ids : NoDup (wb_ID <$> workspaceBuilds d);
  bo_numbers : forall x y, x ∈ workspaceBuilds d -> y ∈ workspaceBuilds d -> wb_WorkspaceID x = wb_WorkspaceID y ->
    wb_BuildNumber x = wb_BuildNumber y -> x = y;
  bo_positive : forall x, x ∈ workspaceBuilds d -> 1 <= wb_BuildNumber x;
  bo_jobs : forall x, x ∈ workspaceBuilds d -> exists j, job_of d x j;
  bo_last : forall x y, x ∈ workspaceBuilds d -> y ∈ workspaceBuilds d -> wb_WorkspaceID x = wb_WorkspaceID y ->
    wb_BuildNumber x < wb_BuildNumber y -> finished d x;
}.

Lemma latest_Ok d w bld :
  builds_ok d -> getLatestWorkspaceBuildByWorkspaceIDNoLock w d = Ok bld ->
  bld ∈ workspaceBuilds d /\ wb_WorkspaceID bld = w /\
  forall x, x ∈ workspaceBuilds d -> wb_WorkspaceID x = w -> wb_BuildNumber x <= wb_BuildNumber bld.
Proof.
  intros Hok. unfold getLatestWorkspaceBuildByWorkspaceIDNoLock.
  pose proof (latest_build_loop_spec w (workspaceBuilds d) None (-1)) as Hs.
  destruct (latest_build_loop _ _ _ _) as [row n]. destruct Hs as (Hle & Hall & Hrow).
  destruct (Z.eqb_spec n (-1)); [done|]. destruct row as [x|]; [|done]. intros [= ->].
  destruct Hrow as [[_ ?]|(y & [= <-] & ? & ? & <-)]; [done|]. auto.
Qed.

Lemma latest_none d w x :
  builds_ok d -> getLatestWorkspaceBuildByWorkspaceIDNoLock w d = Err ErrNoRows -> x ∈ workspaceBuilds d ->
  wb_WorkspaceID x <> w.
Proof.
  intros Hok. unfold getLatestWorkspaceBuildByWorkspaceIDNoLock.
  pose proof (latest_build_loop_spec w (workspaceBuilds d) None (-1)) as Hs.
  destruct (latest_build_loop _ _ _ _) as [row n]. destruct Hs as (Hle & Hall & Hrow).
  intros He Hx Hw. pose proof (bo_positive _ Hok x Hx). specialize (Hall x Hx Hw).
  destruct (Z.eqb_spec n (-1)); [lia|]. destruct Hrow as [[-> ?]|(y & -> & _)]; [lia|done].
Qed.

(** The new build's number is above all others of the workspace, whose jobs are finished. *)
Lemma next_number_spec b0 d authFunc t vj x :
  builds_ok d -> checked authFunc b0 d t vj -> x ∈ workspaceBuilds d -> wb_WorkspaceID x = ws_ID (b_workspace b0) ->
  wb_BuildNumber x < 2 ^ 31 - 1 -> (forall y, y ∈ workspaceBuilds d -> wb_BuildNumber y < 2 ^ 31 - 1) ->
  wb_BuildNumber x < next_number b0 d /\ finished d x.
Proof.
  intros Hok Hck Hx Hw Hlt Hbound. unfold next_number, latest, the_workspace.
  destruct (getLatestWorkspaceBuildByWorkspaceIDNoLock _ d) as [bld|e] eqn:El.
  2: { pose proof (latest_Err _ _ _ El) as ->. by destruct (latest_none d _ x Hok El Hx). }
  destruct (latest_Ok _ _ _ Hok El) as (Hb & Hbw & Hmax). pose proof (Hmax x Hx Hw).
  pose proof (bo_positive _ Hok bld Hb). pose proof (Hbound bld Hb). rewrite wraps_id by lia. split; [lia|].
  assert (Hfin : finished d bld).
  { destruct (ck_running _ _ _ _ _ Hck) as [Hno|(j & (bld' & El' & Hj) & Ha)].
    - destruct (bo_jobs _ Hok bld Hb) as [j Hj]. specialize (Hno bld El). unfold job_of in Hj. congruence.
    - unfold latest, the_workspace in El'. rewrite El in El'. injection El' as <-. by exists j. }
  destruct (Z.eq_dec (wb_BuildNumber x) (wb_BuildNumber bld)) as [E|E].
  - by rewrite (bo_numbers _ Hok x bld Hx Hb ltac:(congruence) E).
  - apply (bo_last _ Hok x bld); [done|done|congruence|lia].
Qed.

(** The invariant after a build's rows are appended. *)
Lemma builds_ok_built b0 d authFunc t vj jobID buildID now tags id rows :
  builds_ok d -> checked authFunc b0 d t vj -> buildID ∉ wb_ID <$> workspaceBuilds d -> jobID ∉ pj_ID <$> provisionerJobs d ->
  (forall y, y ∈ workspaceBuilds d -> wb_BuildNumber y < 2 ^ 31 - 1) ->
  builds_ok (built_store d (new_job jobID buildID now b0 t vj tags) (new_build jobID buildID now b0 d id) rows).
Proof.
  intros Hok Hck Hbid Hjid Hbound. set (job := new_job _ _ _ _ _ _ _). set (bld := new_build _ _ _ _ _ _).
  set (d' := built_store d job bld rows).
  assert (Hbuilds : forall x, x ∈ workspaceBuilds d' <-> x ∈ workspaceBuilds d \/ x = bld).
  { intros x. change (workspaceBuilds d') with (workspaceBuilds d ++ [bld]). by rewrite elem_of_app, list_elem_of_singleton. }
  assert (Hjob : forall x j, job_of d x j -> job_of d' x j) by (intros x j Hj; by apply (job_found_app (wb_JobID x) d job j)).
  assert (Hfin : forall x, finished d x -> finished d' x) by (intros x (j & Hj & ?); exists j; auto).
  assert (Hnext : forall x, x ∈ workspaceBuilds d -> wb_WorkspaceID x = wb_WorkspaceID bld ->
    wb_BuildNumber x < wb_BuildNumber bld /\ finished d x).
  { intros x Hx Hw. by apply (next_number_spec b0 d authFunc t vj x Hok Hck Hx Hw); [apply Hbound|]. }
  split.
  - change (workspaceBuilds d') with (workspaceBuilds d ++ [bld]). rewrite fmap_app. apply NoDup_app.
    split; [apply Hok|]. split; [|apply NoDup_singleton]. intros i Hi Hi'. apply list_elem_of_singleton in Hi' as ->. done.
  - intros x y [Hx| ->]%Hbuilds [Hy| ->]%Hbuilds Hw Hn; [by apply (bo_numbers _ Hok)| | |done].
    + destruct (Hnext x Hx Hw). lia.
    + destruct (Hnext y Hy (eq_sym Hw)). lia.
  - intros x [Hx| ->]%Hbuilds; [by apply (bo_positive _ Hok)|]. simpl. unfold next_number.
    destruct (latest b0 d) as [l|] eqn:El; [|lia]. destruct (latest_Ok _ _ _ Hok El) as (Hl & _).
    pose proof (bo_positive _ Hok l Hl). pose proof (Hbound l Hl). rewrite wraps_id; lia.
  - intros x [Hx| ->]%Hbuilds; [destruct (bo_jobs _ Hok x Hx) as [j Hj]; exists j; auto|].
    exists job. unfold job_of, getProvisionerJobByIDNoLock. change (provisionerJobs d') with (provisionerJobs d ++ [job]).
    rewrite find_first_new; [done| |apply N.eqb_refl]. apply Forall_forall. intros j Hj. apply N.eqb_neq. intros E.
    apply Hjid. change jobID with (wb_JobID bld). rewrite <- E. by apply list_elem_of_fmap_2.
  - intros x y [Hx| ->]%Hbuilds [Hy| ->]%Hbuilds Hw Hn; [by apply Hfin, (bo_last _ Hok x y)| | |lia].
    + by apply Hfin, Hnext.
    + destruct (Hnext y Hy (eq_sym Hw)). lia.
Qed.

(** Adding a job keeps the invariant. *)
Lemma builds_ok_jobs d job : builds_ok d -> builds_ok (set_jobs (provisionerJobs d ++ [job]) d).
Proof.
  intros Hok. set (d' := set_jobs _ d).
  assert (Hj : forall x j, job_of d x j -> job_of d' x j) by (intros x j; apply job_found_app).
  split; [exact (bo_ids _ Hok)|exact (bo_numbers _ Hok)|exact (bo_positive _ Hok)| |].
  - intros x Hx. destruct (bo_jobs _ Hok x Hx) as [j ?]. exists j. auto.
  - intros x y Hx Hy Hw Hn. destruct (bo_last _ Hok x y Hx Hy Hw Hn) as (j & ? & ?). exists j. auto.
Qed.

Lemma builds_ok_one_active d x y :
  builds_ok d -> x ∈ workspaceBuilds d -> y ∈ workspaceBuilds d -> wb_WorkspaceID x = wb_WorkspaceID y ->
  ~ finished d x -> ~ finished d y -> x = y.
Proof.
  intros Hok Hx Hy Hw Hfx Hfy. destruct (Z.lt_trichotomy (wb_BuildNumber x) (wb_BuildNumber y)) as [Hxy|[Hxy|Hxy]].
  - destruct Hfx. by apply (bo_last _ Hok x y).
  - by apply (bo_numbers _ Hok).
  - destruct Hfy. by apply (bo_last _ Hok y x).
Qed.

(** Build numbers stay below [n]. *)
Definition numbers_below (n : Z) (d : Data) : Prop := forall x, x ∈ workspaceBuilds d -> wb_BuildNumber x < n.

Lemma buildTx_ok n b0 d authFunc buildID jobID now b' d' r :
  builds_ok d -> numbers_below n d -> 1 < n < 2 ^ 31 -> coherent b0 d b0 ->
  buildID ∉ wb_ID <$> workspaceBuilds d -> jobID ∉ pj_ID <$> provisionerJobs d ->
  buildTx authFunc buildID jobID now b0 d = (b', d', r) -> builds_ok d' /\ numbers_below (n + 1) d'.
Proof.
  intros Hok Hn Hlt Hb Hbid Hjid E. pose proof (buildTx_cases _ _ _ _ _ _ _ _ _ Hb Hbid E) as Hr.
  assert (Hn' : numbers_below (n + 1) d) by (intros x Hx; specialize (Hn x Hx); lia).
  destruct r as [[bld job]|e].
  - destruct Hr as (t & vj & p & tags & id & rows & Hck & _ & _ & _ & -> & -> & _ & ->).
    split; [eapply builds_ok_built; try done; intros y Hy; specialize (Hn y Hy); lia|].
    intros x Hx. change (x ∈ workspaceBuilds d ++ [new_build jobID buildID now b0 d id]) in Hx.
    apply elem_of_app in Hx as [Hx|Hx]; [by apply Hn'|]. apply list_elem_of_singleton in Hx as ->. simpl.
    unfold next_number. destruct (latest b0 d) as [l|] eqn:El; [|lia]. destruct (latest_Ok _ _ _ Hok El) as (Hl & _).
    pose proof (bo_positive _ Hok l Hl). specialize (Hn l Hl). rewrite wraps_id; lia.
  - destruct Hr as [->|(t & vj & tags & ->)]; [done|]. split; [by apply builds_ok_jobs|exact Hn'].
Qed.

(** The job table stays in order as well. *)
Lemma buildTx_jobs_ok b0 d authFunc buildID jobID now b' d' r :
  jobs_ok d -> coherent b0 d b0 -> buildID ∉ wb_ID <$> workspaceBuilds d -> jobID ∉ pj_ID <$> provisionerJobs d ->
  buildTx authFunc buildID jobID now b0 d = (b', d', r) -> jobs_ok d'.
Proof.
  intros [Hnd Hst] Hb Hbid Hjid E. pose proof (buildTx_cases _ _ _ _ _ _ _ _ _ Hb Hbid E) as Hr.
  assert (Happ : forall t vj tags dd, provisionerJobs dd = provisionerJobs d ++ [new_job jobID buildID now b0 t vj tags] -> jobs_ok dd).
  { intros t vj tags dd Hdd. split; rewrite Hdd.
    - rewrite fmap_app. apply NoDup_app. split; [done|]. split; [|apply NoDup_singleton].
      intros i Hi Hi'. apply list_elem_of_singleton in Hi' as ->. done.
    - apply Forall_app. split; [done|]. by repeat constructor. }
  destruct r as [[bld job]|e].
  - destruct Hr as (t & vj & p & tags & id & rows & _ & _ & _ & _ & -> & -> & _ & ->). by apply (Happ t vj tags).
  - destruct Hr as [->|(t & vj & tags & ->)]; [done|by apply (Happ t vj tags)].
Qed.

(** C2: what a build that succeeds has checked and inserted.  For a builder whose
    cache, if it holds anything, holds what the store holds, and a new build ID:
    the caller was permitted to do it; the template version exists, belongs to the
    workspace's template, and its import succeeded or is being canceled (the code lets
    that pass; a status that is none of the known ones too); the workspace has no build, or
    the job of its latest build is neither pending, running nor being
    canceled; the store then is the old one with exactly three things appended: a
    pending job with the template's organization and provisioner, the version's
    file and the evaluated tags; a build for it with the next number, the chosen
    version, the chosen or inherited state and the default initiator and reason;
    and one parameter row for each parameter of the version, in their order, with
    the resolved values. *)
Theorem build_correct authFunc buildID jobID now b0 d b' d' bld job :
  coherent b0 d b0 -> buildID ∉ wb_ID <$> workspaceBuilds d ->
  Build authFunc buildID jobID now b0 d = (b', d', Good (bld, job)) ->
  exists t vj p tags id rows, checked authFunc b0 d t vj /\ parameters b0 d p /\ job_tags b0 d p tags /\
    version_id b0 d id /\ job = new_job jobID buildID now b0 t vj tags /\ bld = new_build jobID buildID now b0 d id /\
    build_parameter_rows buildID p.1 p.2 = Some rows /\ d' = built_store d job bld rows.
Proof.
  intros Hb Hnew. rewrite Build_buildTx. destruct (buildTx _ _ _ _ b0 d) as [[b1 d1] [a|e]] eqn:E; [|done].
  intros [= -> -> ->]. exact (buildTx_cases _ _ _ _ _ _ _ _ _ Hb Hnew E).
Qed.

(** At most one build of a workspace is active.  If in every workspace the
    builds are numbered from 1 without repetition, have their jobs, and all but
    the highest-numbered are finished, then that is so after [Build], successful
    or not, for new IDs and before the 32-bit numbers are used up. *)
Lemma build_one_active n authFunc buildID jobID now b0 d b' d' r :
  builds_ok d -> numbers_below n d -> 1 < n < 2 ^ 31 -> coherent b0 d b0 ->
  buildID ∉ wb_ID <$> workspaceBuilds d -> jobID ∉ pj_ID <$> provisionerJobs d ->
  Build authFunc buildID jobID now b0 d = (b', d', r) ->
  builds_ok d' /\ forall x y, x ∈ workspaceBuilds d' -> y ∈ workspaceBuilds d' -> wb_WorkspaceID x = wb_WorkspaceID y ->
    ~ finished d' x -> ~ finished d' y -> x = y.
Proof.
  intros Hok Hn Hlt Hb Hbid Hjid. rewrite Build_buildTx. destruct (buildTx _ _ _ _ b0 d) as [[b1 d1] r1] eqn:E. intros E'.
  destruct (buildTx_ok n _ _ _ _ _ _ _ _ _ Hok Hn Hlt Hb Hbid Hjid E) as [Hok1 _].
  assert (d' = d1) as -> by (destruct r1; congruence). split; [done|]. intros x y. by apply builds_ok_one_active.
Qed.
End BuildTx.
