(* ===== verification/BuildRun.v ===== *)
(** * The builder in the lifecycle executor

    [wirtuald/autobuild/lifecycle_executor.go] builds through
    [wirtuald/wsbuilder/wsbuilder.go].  Here the builder is made the executor's
    [WorkspaceBuilder], which discharges what the executor relies on, and the two
    are composed: a whole run keeps the builds of every workspace in order. *)

From S2P Require Import Prelude GoTime GoStrings GoEncoding Cron Tags Db DbBuild Schedule Autobuild Parameters Builder.

(** ** A build leaves the other tables *)

Section Leaves.
Context {B : Type} (f : Data -> B).

(** [m] leaves a part of the store, whatever the builder holds. *)
Definition leaves {A} (m : BM A) : Prop := forall b d, f (m b d).1.2 = f d.

Lemma leaves_ret {A} (a : A) : leaves (mret a).
Proof. done. Qed.
Lemma leaves_fail {A} e : leaves (fail e : BM A).
Proof. done. Qed.
Lemma leaves_get {A} (g : Builder -> A) : leaves (get g).
Proof. done. Qed.
Lemma leaves_set g : leaves (set g).
Proof. done. Qed.

Lemma leaves_call {A} (m : DB A) : preserves f m -> leaves (call m).
Proof. intros Hm b d. specialize (Hm d). unfold call. by destruct (m d) as [? []]. Qed.

Lemma leaves_bind {A C} (m : BM A) (k : A -> BM C) : leaves m -> (forall a, leaves (k a)) -> leaves (m ≫= k).
Proof.
  intros Hm Hk b d. specialize (Hm b d). unfold mbind, BM_bind. destruct (m b d) as [[b1 d1] [a|e]]; [|exact Hm].
  simpl in Hm. rewrite <- Hm. apply Hk.
Qed.

Lemma leaves_on_error {A} g (m : BM A) : leaves m -> leaves (on_error g m).
Proof. intros Hm b d. specialize (Hm b d). unfold on_error. by destruct (m b d) as [[? ?] []]. Qed.
Lemma leaves_on_failure {A} g (m : BM A) : leaves m -> leaves (on_failure g m).
Proof. intros Hm b d. specialize (Hm b d). unfold on_failure. by destruct (m b d) as [[? ?] []]. Qed.
Lemma leaves_unless_no_rows {A} (z : A) g m : leaves m -> leaves (unless_no_rows z g m).
Proof.
  intros Hm b d. specialize (Hm b d). unfold unless_no_rows. destruct (m b d) as [[? ?] []]; [done|by case_match].
Qed.
Lemma leaves_cached {A} field keep (m : BM A) : leaves m -> leaves (cached field keep m).
Proof.
  intros Hm. apply leaves_bind; [done|]. intros [a|]; [done|]. apply leaves_bind; [done|]. intros a. by apply leaves_bind.
Qed.
End Leaves.

Create HintDb leaves.
#[export] Hint Resolve leaves_ret leaves_fail leaves_get leaves_set leaves_call leaves_bind leaves_on_error
  leaves_on_failure leaves_unless_no_rows leaves_cached preserves_read : leaves.

(** Goes through a computation, case by case. *)
Ltac leave := repeat (first [progress intros | progress auto with leaves | progress case_match
  | apply leaves_bind | apply leaves_on_error | apply leaves_unless_no_rows | apply leaves_cached]).

Section Untouched.
Context `{UuidText, BuilderLib, ProviderValidation}.
Context {B : Type} (f : Data -> B).

Lemma getTemplate_leaves : leaves f getTemplate.
Proof. unfold getTemplate. leave. Qed.
Lemma getLastBuild_leaves : leaves f getLastBuild.
Proof. unfold getLastBuild. leave. Qed.
Hint Resolve getTemplate_leaves getLastBuild_leaves : leaves.
Lemma getTemplateVersionID_leaves : leaves f getTemplateVersionID.
Proof. unfold getTemplateVersionID. leave. Qed.
Hint Resolve getTemplateVersionID_leaves : leaves.
Lemma getTemplateVersion_leaves : leaves f getTemplateVersion.
Proof. unfold getTemplateVersion. leave. Qed.
Hint Resolve getTemplateVersion_leaves : leaves.
Lemma getTemplateVersionJob_leaves : leaves f getTemplateVersionJob.
Proof. unfold getTemplateVersionJob. leave. Qed.
Hint Resolve getTemplateVersionJob_leaves : leaves.
Lemma getParameters_leaves : leaves f getParameters.
Proof.
  unfold getParameters, getTemplateVersionParameters, getLastBuildParameters, verifyNoLegacyParameters. leave.
Qed.
Hint Resolve getParameters_leaves : leaves.

(** What a build appends to is all it changes. *)
Lemma Build_leaves authFunc buildID jobID now :
  (forall l d, f (set_jobs l d) = f d) -> (forall l d, f (set_builds l d) = f d) ->
  (forall l d, f (set_build_parameters l d) = f d) -> leaves f (Build authFunc buildID jobID now).
Proof.
  intros Hj Hb Hp.
  assert (Hins : forall a, leaves f (call (InsertProvisionerJob a))) by (intros a; apply leaves_call; intros d; apply Hj).
  assert (Hbld : forall a, leaves f (call (InsertWorkspaceBuild a))) by (intros a; apply leaves_call; intros d; apply Hb).
  assert (Hpar : forall i n v, leaves f (call (InsertWorkspaceBuildParameters i n v))).
  { intros i n v. apply leaves_call. intros d. unfold InsertWorkspaceBuildParameters. case_match; [apply Hp|done]. }
  intros b d. rewrite Build_buildTx.
  assert (Htx : leaves f (buildTx authFunc buildID jobID now)).
  { unfold buildTx, authorize, checkTemplateVersionMatchesTemplate, checkTemplateJobStatus, checkRunningBuild,
      getLastBuildJob, getProvisionerTags, getTemplateVersionWorkspaceTags, getBuildNumber, getState, insert_build. leave. }
  specialize (Htx b d). by destruct (buildTx _ _ _ _ b d) as [[? ?] []].
Qed.
End Untouched.

(** ** The executor's builder *)

(** [wsbuilder.New(ws, nextTransition).SetLastWorkspaceBuildInTx(&latestBuild)...] *)
Definition request_builder (req : BuildRequest) : Builder :=
  let b := Reason (br_Reason req) (SetLastWorkspaceBuildJobInTx (br_LastJob req)
             (SetLastWorkspaceBuildInTx (br_LastBuild req) (New (br_Workspace req) (br_Transition req)))) in
  if br_ActiveVersion req then ActiveVersion b else b.

Section Executor.
Context `{UuidText, BuilderLib, ProviderValidation}.
(** [uuid.New], for the build and for its job, and [dbtime.Now]. *)
Context (newBuildID newJobID : Data -> uuid) (now : Time).

(** [builder.Build(e.ctx, tx, nil, ...)] *)
Definition executor_Build (req : BuildRequest) : DB (WorkspaceBuild * ProvisionerJob) := fun d =>
  match Build None (newBuildID d) (newJobID d) now (request_builder req) d with
  | (_, d', Good r) => (d', Ok r)
  | (_, d', Bad e) => (d', Err (er_Text e))
  end.

#[export] Program Instance executor_builder : WorkspaceBuilder := {| builder_Build := executor_Build |}.
Next Obligation.
  intros req d. unfold executor_Build.
  pose proof (fun B (f : Data -> B) Hj Hb Hp =>
    Build_leaves f None (newBuildID d) (newJobID d) now Hj Hb Hp (request_builder req) d) as Hl.
  pose proof (Hl _ workspaces ltac:(done) ltac:(done) ltac:(done)) as Hw.
  pose proof (Hl _ templates ltac:(done) ltac:(done) ltac:(done)) as Ht.
  destruct (Build _ _ _ _ _ d) as [[b' d'] [r|e]]; by split.
Qed.

(** ** The run keeps the builds in order *)

Context `{CronLib} (tss : TemplateScheduleStore) (acs : TemplateTable -> TemplateAccessControl).
Context (postJob : ProvisionerJob -> result unit).

(** New UUIDs are not in use. *)
Class FreshIDs : Prop := {
  fresh_build d : newBuildID d ∉ wb_ID <$> workspaceBuilds d;
  fresh_job d : newJobID d ∉ pj_ID <$> provisionerJobs d;
}.
Context `{!FreshIDs}.

(** The builder a request stands for caches what the store holds. *)
Lemma request_coherent req d :
  getLatestWorkspaceBuildByWorkspaceIDNoLock (ws_ID (br_Workspace req)) d = Ok (br_LastBuild req) ->
  getProvisionerJobByIDNoLock (wb_JobID (br_LastBuild req)) d = Ok (br_LastJob req) ->
  coherent (request_builder req) d (request_builder req).
Proof.
  intros Hb Hj. destruct req as [ws tr lb lj rs act]. simpl in Hb, Hj. unfold request_builder. simpl.
  destruct act; split; try done; simpl; intros ? [= <-]; unfold latest; simpl; try exact Hb; exists lb; done.
Qed.

(** The builds are in order, and numbered below [n]; so are the jobs. *)
Record in_order (n : Z) (d : Data) : Prop := {
  io_jobs : jobs_ok d;
  io_builds : builds_ok d;
  io_numbers : numbers_below n d;
}.

Lemma in_order_weaken n m d : n <= m -> in_order n d -> in_order m d.
Proof. intros Hle [Hj Hok Hn]. split; [done|done|]. intros x Hx. specialize (Hn x Hx). lia. Qed.

(** Only the two tables count. *)
Lemma in_order_tables n d d' :
  workspaceBuilds d' = workspaceBuilds d -> provisionerJobs d' = provisionerJobs d -> in_order n d -> in_order n d'.
Proof.
  intros Eb Ej [[] [] Hn]. unfold numbers_below, finished, job_of, getProvisionerJobByIDNoLock in *.
  split; [split|split|unfold numbers_below]; unfold finished, job_of, getProvisionerJobByIDNoLock in *; rewrite ?Eb, ?Ej in *; done.
Qed.

Lemma executor_Build_in_order n req d :
  coherent (request_builder req) d (request_builder req) -> 1 < n < 2 ^ 31 -> in_order n d ->
  in_order (n + 1) (executor_Build req d).1.
Proof.
  intros Hc Hn [Hj Hok Hb]. unfold executor_Build. rewrite Build_buildTx.
  destruct (buildTx _ _ _ _ (request_builder req) d) as [[b' d'] r] eqn:E.
  pose proof (buildTx_ok n _ _ _ _ _ _ _ _ _ Hok Hb Hn Hc (fresh_build d) (fresh_job d) E) as [? ?].
  pose proof (buildTx_jobs_ok _ _ _ _ _ _ _ _ _ Hj Hc (fresh_build d) (fresh_job d) E). by destruct r.
Qed.

Lemma dormant_in_order n nw id at_ d : in_order n d -> in_order n (UpdateWorkspaceDormantDeletingAt nw id at_ d).1.
Proof.
  intros Hd. unfold UpdateWorkspaceDormantDeletingAt. case_match; [|done]. case_match; [|done].
  unfold update_table. destruct (update_first _ _ _) as [[? ?]|]; [|done]. by apply (in_order_tables n d).
Qed.

Lemma transition_tx_in_order n id tick d :
  1 < n < 2 ^ 31 -> in_order n d ->
  in_order (n + 1) (transition_tx tss acs now id tick d).1.
Proof.
  intros Hn Hd. assert (Hd' : in_order (n + 1) d) by (apply (in_order_weaken n); [lia|done]).
  unfold transition_tx.
  do 3 (rewrite db_read_bind; match goal with |- context [match ?x with _ => _ end] => destruct x eqn:? end; [|done]).
  do 4 (rewrite db_read_bind; match goal with |- context [match ?x with _ => _ end] => destruct x eqn:? end; [|done]).
  destruct (getNextTransition _ _ _ _ _ _) as [[tr reason]|]; [|done].
  rewrite db_bind_eq. set (b := match tr with Some _ => _ | None => _ end).
  assert (Hb : in_order (n + 1) (b d).1).
  { unfold b. destruct tr as [tr|]; [|done]. rewrite db_wrap_bind.
    match goal with |- context [builder_Build ?q d] =>
      pose proof (executor_Build_in_order n q d ltac:(by apply request_coherent) Hn Hd) as Hq;
      change (builder_Build q d) with (executor_Build q d); destruct (executor_Build q d) as [d1 [[??]|]] end; exact Hq. }
  destruct (b d) as [d1 [[[nb job] auto]|e]]; [|exact Hb]. simpl in Hb.
  case_bool_decide; [|exact Hb]. rewrite db_wrap_bind.
  match goal with |- context [UpdateWorkspaceDormantDeletingAt ?x ?y ?z d1] =>
    pose proof (dormant_in_order (n + 1) x y z d1 Hb) as Hu; destruct (UpdateWorkspaceDormantDeletingAt x y z d1) as [d2 []] end;
    exact Hu.
Qed.

Lemma process_row_in_order n tick id st :
  1 < n < 2 ^ 31 -> in_order n st.1.1 -> in_order (n + 1) (process_row tss acs postJob now tick id st).1.1.
Proof.
  destruct st as [[d stats] ev]. intros Hn Hd. pose proof (transition_tx_in_order n id tick d Hn Hd) as Ht.
  unfold process_row, InTx. destruct (transition_tx _ _ _ id tick d) as [d' [v|e]]; [|exact Ht].
  by destruct (match tx_job v with Some _ => _ | None => _ end).
Qed.

Lemma process_rows_in_order tick (rows : list (uuid * string)) n st :
  1 < n -> n + Z.of_nat (length rows) <= 2 ^ 31 -> in_order n st.1.1 ->
  in_order (n + Z.of_nat (length rows))
    (foldl (fun st '(id, _) => process_row tss acs postJob now tick id st) st rows).1.1.
Proof.
  revert n st. induction rows as [|[id nm] rows IH]; intros n st Hn Hlen Hd.
  { apply (in_order_weaken n); [simpl; lia|done]. }
  cbn [length foldl] in *. replace (n + Z.of_nat (S (length rows))) with (n + 1 + Z.of_nat (length rows)) by lia.
  apply IH; [lia|lia|]. apply process_row_in_order; [lia|done].
Qed.

Lemma eligible_rows t d rows : GetWorkspacesEligibleForTransition t d = Ok rows -> (length rows <= length (workspaces d))%nat.
Proof.
  unfold GetWorkspacesEligibleForTransition. generalize (workspaces d) as l. intros l. revert rows.
  induction l as [|w l IH]; intros rows E; simpl in E; [by injection E as <-|].
  apply bind_Ok in E as (b & _ & E). apply bind_Ok in E as (rs & Hrs & E). injection E as <-. specialize (IH _ Hrs).
  destruct b; simpl; lia.
Qed.

(** C3: a whole run of the executor, building with the real builder, never starts
    a second build.  From a store in which the builds of each workspace are
    numbered from 1, have their jobs, and all but the last are finished, the run
    ends in such a store, whatever fails on the way; so in no workspace two
    builds are active.  New UUIDs are assumed to be unused, and the 32-bit build
    numbers not to run out. *)
Theorem runOnce_one_active n t d :
  jobs_ok d -> builds_ok d -> numbers_below n d -> 1 < n -> n + Z.of_nat (length (workspaces d)) <= 2 ^ 31 ->
  let d' := (runOnce tss acs postJob now t d).1.1 in
  builds_ok d' /\ forall x y, x ∈ workspaceBuilds d' -> y ∈ workspaceBuilds d' -> wb_WorkspaceID x = wb_WorkspaceID y ->
    ~ finished d' x -> ~ finished d' y -> x = y.
Proof.
  intros Hj Hok Hn Hn1 Hlen d'. assert (Hd : builds_ok d').
  { unfold d', runOnce. destruct (GetWorkspacesEligibleForTransition t d) as [rows|] eqn:E; [|done].
    apply eligible_rows in E. simple refine (io_builds _ _ (process_rows_in_order _ rows n (d, _, _) Hn1 _ _)); [lia|by split]. }
  split; [done|]. intros x y. by apply builds_ok_one_active.
Qed.
End Executor.

(** ** A run that builds *)

Module Examples.
(** Types accept every value, markdown is plain text already, and tag
    expressions are literals. *)
#[export] Instance lib : BuilderLib :=
  {| plaintext s := Ok s; eval_expression _ s := TagValue (CtyString s) |}.
#[export] Instance validation : ProviderValidation := {| validation_Valid _ _ _ := Ok tt |}.
#[export] Instance text : UuidText := {| uuid_String i := FormatInt (Z.of_N i) |}.

Definition next_id (l : list uuid) : uuid := (1 + foldr N.max 0 l)%N.
Definition newBuildID (d : Data) : uuid := next_id (wb_ID <$> workspaceBuilds d).
Definition newJobID (d : Data) : uuid := next_id (pj_ID <$> provisionerJobs d).

Lemma next_id_fresh l : next_id l ∉ l.
Proof.
  assert (Hle : forall i, i ∈ l -> (i <= foldr N.max 0 l)%N).
  { induction l as [|x l IH]; intros i; [by intros ?%not_elem_of_nil|].
    intros [->|Hi]%elem_of_cons; simpl; [lia|]. specialize (IH i Hi). lia. }
  intros Hin%Hle. unfold next_id in Hin. lia.
Qed.

#[export] Instance fresh_ids : FreshIDs newBuildID newJobID.
Proof. split; intros d; apply next_id_fresh. Qed.

(** The store of the executor's example, with the template's version and its
    import job, and a parameter. *)
Definition import_job : ProvisionerJob :=
  mkJob 41 example_time example_time (mkNullTime example_time true) noTime (mkNullTime example_time true)
    noString 5 7 ProvisionerTerraform JobTemplateVersionImport "" None 9 tagsUntagged noString JobSucceeded.
Definition store : Data := Autobuild.Examples.due_store{{
  templateVersions := [mkTemplateVersion 30 (Some 20%N) "v1" "" 41 zeroTime "" "null" 0];
  provisionerJobs := [example_done_job; import_job];
  templateVersionParameters :=
    [mkTVP 30 "region" "" "string" true "eu" (Ok ["eu"; "us"]) "" None None "" "" false "" 0 false]%string }}.
Definition tick : Time := Add example_time (2 * Hour).
(** A start with a given parameter, by a user who may do everything. *)
Definition starting : Builder :=
  RichParameterValues [mkBuildParameter "region" "us"] (Initiator 7 (ActiveVersion (New (example_workspace 1) TransitionStart))).
Definition allow : AuthFunc := fun _ _ => true.
Definition built := Build (Some allow) (newBuildID store) (newJobID store) tick starting store.
Definition run := @runOnce DailyCron.lib (executor_builder newBuildID newJobID tick) agplTemplateScheduleStore
  (fun _ => mkAccessControl false "") (fun _ => Ok tt) tick tick store.

Lemma store_builds_ok : builds_ok store.
Proof.
  assert (Hin : forall x, x ∈ workspaceBuilds store -> x = Autobuild.Examples.due_build \/ x = example_build 102 2 (Add example_time Hour) zeroTime).
  { intros x [->|[->|[]%not_elem_of_nil]%elem_of_cons]%elem_of_cons; auto. }
  split.
  - apply (bool_decide_unpack _). vm_compute. done.
  - by intros x y [->| ->]%Hin [->| ->]%Hin.
  - by intros x [->| ->]%Hin.
  - by intros x [->| ->]%Hin; exists example_done_job.
  - by intros x y [->| ->]%Hin [->| ->]%Hin.
Qed.

Lemma store_jobs_ok : jobs_ok store.
Proof. split; [apply (bool_decide_unpack _); vm_compute; done|by repeat constructor]. Qed.

Lemma store_numbers : numbers_below 2 store.
Proof. by intros x [->|[->|[]%not_elem_of_nil]%elem_of_cons]%elem_of_cons. Qed.

(** A fresh builder holds nothing. *)
Lemma starting_coherent : coherent starting store starting.
Proof. by split. Qed.
End Examples.

Import Examples.

(** The start succeeds: the job and the build are the fourth and the third row. *)
Lemma build_correct_witness :
  exists b' d' bld job, built = (b', d', Good (bld, job)) /\ wb_BuildNumber bld = 2 /\
  (exists t vj p tags id rows, checked (Some allow) starting store t vj /\ parameters starting store p /\
    job_tags starting store p tags /\ version_id starting store id /\
    job = new_job (newJobID store) (newBuildID store) tick starting t vj tags /\
    bld = new_build (newJobID store) (newBuildID store) tick starting store id /\
    build_parameter_rows (newBuildID store) p.1 p.2 = Some rows /\ d' = built_store store job bld rows).
Proof.
  destruct built as [[b' d'] [[bld job]|e]] eqn:E; [|vm_compute in E; discriminate].
  exists b', d', bld, job. split; [done|]. split; [vm_compute in E; by injection E as _ _ <- _|].
  apply (build_correct (Some allow) (newBuildID store) (newJobID store) tick starting store b' d' bld job);
    [exact starting_coherent|apply next_id_fresh|exact E].
Defined.

Lemma build_one_active_witness : builds_ok built.1.2.
Proof.
  apply (build_one_active 2 (Some allow) (newBuildID store) (newJobID store) tick starting store built.1.1 built.1.2 built.2);
    [exact store_builds_ok|exact store_numbers|lia|exact starting_coherent|apply next_id_fresh|apply next_id_fresh|].
  unfold built. by destruct (Build _ _ _ _ _ _) as [[? ?] ?].
Defined.

(** Both workspaces are past their deadline: the run builds twice. *)
Lemma runOnce_one_active_witness : length (workspaceBuilds run.1.1) = 4%nat /\ builds_ok run.1.1.
Proof.
  split; [vm_compute; reflexivity|].
  apply (runOnce_one_active newBuildID newJobID tick (H2 := DailyCron.lib) agplTemplateScheduleStore (fun _ => mkAccessControl false "")
           (fun _ => Ok tt) 2 tick store store_jobs_ok store_builds_ok store_numbers); [lia|vm_compute; discriminate].
Defined.

(** A build that is retried does not see what made it retry.  The first attempt
    of a start and another start of the same workspace both begin in [store]; the
    other commits, and the first is rolled back with a serialization error and run
    again by [ReadModifyUpdate] on the new store.  As the builder keeps the rows it
    has cached, the attempt finds no active build and inserts a second build with
    the number of the active one; a builder that holds nothing is refused. *)
Lemma retried_build_is_stale :
  let first := buildTx (Some allow) 201 301 tick starting store in
  let committed := (buildTx (Some allow) 202 302 tick starting store).1.2 in
  (exists x j, x ∈ workspaceBuilds committed /\ wb_ID x = 202%N /\ job_of committed x j /\ status_Active (pj_JobStatus j) = true /\
     exists b d bld job, buildTx (Some allow) 201 301 tick first.1.1 committed = (b, d, Good (bld, job)) /\
       wb_WorkspaceID bld = wb_WorkspaceID x /\ wb_BuildNumber bld = wb_BuildNumber x) /\
  (buildTx (Some allow) 201 301 tick starting committed).2 =
    Bad (build_error StatusConflict (new_error "A workspace build is already active.")).
Proof.
  cbv zeta. split; [|vm_compute; reflexivity].
  set (committed := (buildTx (Some allow) 202 302 tick starting store).1.2).
  pose (x := List.nth 2 (workspaceBuilds committed) Autobuild.Examples.due_build).
  pose (j := List.nth 2 (provisionerJobs committed) import_job).
  exists x, j. split; [right; right; left|]. do 3 (split; [vm_compute; reflexivity|]).
  eexists _, _, _, _. split; [vm_compute; reflexivity|]. split; vm_compute; reflexivity.
Qed.
