(* ===== verification/Resources.v ===== *)
(** * Inserting what a provisioner reports: [InsertWorkspaceResource], [InsertWorkspaceModule]

    [wirtuald/provisionerdserver/provisionerdserver.go], the rows of a resource
    with its agents, their applications and scripts; and the state of the daemon
    server's handlers.  The provisioner protocol's messages are generated code:
    their records have the fields that are read. *)

From Stdlib Require Import Ascii.
From S2P Require Import Prelude GoTime Db DbBuild.

(** ** Handlers *)

Inductive WorkspaceEventKind := KindStateChange | KindAgentTimeout.

(** What a handler does besides changing the store. *)
Inductive Event :=
| PublishWorkspace (owner : uuid) (kind : WorkspaceEventKind) (workspace : uuid)
| PublishLogs (job : uuid) (createdAfter : Z) (endOfLogs : bool)
| NotifyAutobuildFailed (owner : uuid) (name : string) (reason : BuildReason)
| NotifyManualBuildFailed (workspace build : uuid)
| NotifyDeleted (owner : uuid) (name reason initiator : string)
| Audit (user request : uuid) (transition : WorkspaceTransition) (old : option WorkspaceBuild) (new : WorkspaceBuild) (status : Z)
| AgentTimeouts (owner workspace : uuid) (delays : list Z).

(** The store, the events so far, and the number of UUIDs made. *)
Record St := mkSt { st_data : Data; st_events : list Event; st_next : nat }.

Definition SM (A : Type) : Type := St -> St * result A.
#[export] Instance SM_ret : MRet SM := fun A a s => (s, Ok a).
#[export] Instance SM_bind : MBind SM := fun A B f m s =>
  match m s with (s, Ok a) => f a s | (s, Err e) => (s, Err e) end.

Definition throw {A} (e : string) : SM A := fun s => (s, Err e).
Definition db {A} (m : DB A) : SM A := fun s => let '(d, r) := m (st_data s) in (s{{ st_data := d }}, r).
Definition emit (e : Event) : SM unit := fun s => (s{{ st_events := st_events s ++ [e] }}, Ok tt).
(** [if err != nil { return xerrors.Errorf("context: %w", err) }] *)
Definition context {A} (c : string) (m : SM A) : SM A := fun s => let '(s, r) := m s in (s, wrap c r).
(** A pure computation that may fail. *)
Definition lift {A} (r : result A) : SM A := fun s => (s, r).
(** [value, err := m]: the error as a value. *)
Definition try {A} (m : SM A) : SM (result A) := fun s => let '(s, r) := m s in (s, Ok r).

Fixpoint for_each {A} (f : A -> SM unit) (l : list A) : SM unit :=
  match l with [] => mret tt | a :: l => _ ← f a; for_each f l end.

(** [uuid.New]: the n-th UUID made. *)
Class UuidSupply := { uuid_supply : nat -> uuid }.
Definition uuid_New `{UuidSupply} : SM uuid := fun s => (s{{ st_next := S (st_next s) }}, Ok (uuid_supply (st_next s))).
Fixpoint uuids_New `{UuidSupply} (n : nat) : SM (list uuid) :=
  match n with O => mret [] | S n => u ← uuid_New; l ← uuids_New n; mret (u :: l) end.

(** ** Messages of the provisioner protocol *)

Record ProtoHealthcheck := mkHealthcheck { hc_Url : string; hc_Interval : Z; hc_Threshold : Z }.

Record ProtoApp := mkProtoApp {
  pa_Slug : string;
  pa_DisplayName : string;
  pa_Command : string;
  pa_Url : string;
  pa_Icon : string;
  pa_Subdomain : bool;
  pa_Healthcheck : option ProtoHealthcheck;
  pa_SharingLevel : Z;                     (* enum *)
  pa_External : bool;
  pa_Order : Z;                            (* int64 *)
  pa_Hidden : bool;
}.

Record ProtoScript := mkProtoScript {
  ps_DisplayName : string;
  ps_Icon : string;
  ps_Script : string;
  ps_Cron : string;
  ps_StartBlocksLogin : bool;
  ps_RunOnStart : bool;
  ps_RunOnStop : bool;
  ps_TimeoutSeconds : Z;
  ps_LogPath : string;
}.

Record ProtoAgentMetadata := mkProtoMetadata {
  pm_Key : string;
  pm_DisplayName : string;
  pm_Script : string;
  pm_Interval : Z;
  pm_Timeout : Z;
  pm_Order : Z;
}.

Record ProtoDisplayApps := mkDisplayApps {
  da_Vscode : bool;
  da_VscodeInsiders : bool;
  da_WebTerminal : bool;
  da_SshHelper : bool;
  da_PortForwardingHelper : bool;
}.

Inductive AgentAuth := AuthNone | AuthToken (token : string) | AuthInstanceId (id : string).

Record ProtoAgent := mkProtoAgent {
  ag_Name : string;
  ag_Env : gmap string string;
  ag_OperatingSystem : string;
  ag_Architecture : string;
  ag_Directory : string;
  ag_Apps : list ProtoApp;
  ag_Auth : AgentAuth;
  ag_ConnectionTimeoutSeconds : Z;
  ag_TroubleshootingUrl : string;
  ag_MotdFile : string;
  ag_Metadata : list ProtoAgentMetadata;
  ag_DisplayApps : option ProtoDisplayApps;
  ag_Scripts : list ProtoScript;
  ag_ExtraEnvs : list (string * string);
  ag_Order : Z;
}.

Record ProtoResourceMetadata := mkProtoResourceMetadata {
  prm_Key : string; prm_Value : string; prm_Sensitive : bool; prm_IsNull : bool;
}.

Record ProtoResource := mkProtoResource {
  pr_Name : string;
  pr_Type : string;
  pr_Agents : list ProtoAgent;
  pr_Metadata : list ProtoResourceMetadata;
  pr_Hide : bool;
  pr_Icon : string;
  pr_InstanceType : string;
  pr_DailyCost : Z;
  pr_ModulePath : string;
}.

Record ProtoModule := mkProtoModule { pmod_Source : string; pmod_Version : string; pmod_Key : string }.

Definition GetToken (a : ProtoAgent) : string := match ag_Auth a with AuthToken t => t | _ => "" end.
Definition GetInstanceId (a : ProtoAgent) : string := match ag_Auth a with AuthInstanceId i => i | _ => "" end.

(** ** Application slugs: [provisioner/appslug.go] *)

Definition slug_char (a : ascii) : bool :=
  let n := nat_of_ascii a in (Nat.leb 97 n && Nat.leb n 122) || (Nat.leb 48 n && Nat.leb n 57).

(** [(-?[a-z0-9])*] to the end of the text. *)
Fixpoint slug_rest (s : string) : bool :=
  match s with
  | EmptyString => true
  | String a s' =>
      if slug_char a then slug_rest s'
      else if Ascii.eqb a "-" then match s' with String b s'' => slug_char b && slug_rest s'' | EmptyString => false end
      else false
  end.

(** [AppSlugRegex.MatchString], for [^[a-z0-9](-?[a-z0-9])*$]. *)
Definition AppSlugRegex (s : string) : bool :=
  match s with EmptyString => false | String a s => slug_char a && slug_rest s end.

(** ** Insertion *)

(** The zero value of a string is a null column. *)
Definition null_if_empty (s : string) : NullString := mkNullString s (negb (String.eqb s "")).

Definition convertDisplayApps (apps : option ProtoDisplayApps) : list DisplayApp :=
  match apps with
  | None => []
  | Some a =>
      (if da_Vscode a then [AppVscode] else []) ++
      (if da_VscodeInsiders a then [AppVscodeInsiders] else []) ++
      (if da_SshHelper a then [AppSSHHelper] else []) ++
      (if da_PortForwardingHelper a then [AppPortForwardingHelper] else []) ++
      (if da_WebTerminal a then [AppWebTerminal] else [])
  end.

(** The agent's environment: the extra variables, overridden by its own. *)
Definition agent_env (a : ProtoAgent) : gmap string string :=
  ag_Env a ∪ foldl (fun env '(name, value) => <[name := value]> env) ∅ (ag_ExtraEnvs a).

Definition app_row (id agentID : uuid) (now : Time) (app : ProtoApp) : WorkspaceApp :=
  let hc := default (mkHealthcheck "" 0 0) (pa_Healthcheck app) in
  mkApp id now agentID (pa_DisplayName app) (pa_Icon app) (null_if_empty (pa_Command app)) (null_if_empty (pa_Url app))
    (hc_Url hc) (hc_Interval hc) (hc_Threshold hc)
    (if negb (String.eqb (hc_Url hc) "") then AppHealthInitializing else AppHealthDisabled)
    (pa_Subdomain app)
    (if pa_SharingLevel app =? 1 then SharingAuthenticated else if pa_SharingLevel app =? 2 then SharingPublic else SharingOwner)
    (pa_Slug app) (pa_External app) (wraps 32 (pa_Order app)) (pa_Hidden app).

Section Insert.
Context `{UuidSupply}.
(** [uuid.Parse], and [dbtime.Now], read once. *)
Context (parse : string -> result uuid) (now : Time).

(** The loop over an agent's applications; the slugs seen so far. *)
Fixpoint insert_apps (agentID : uuid) (apps : list ProtoApp) (appSlugs : gset string) : SM (gset string) :=
  match apps with
  | [] => mret appSlugs
  | app :: apps =>
      let slug := pa_Slug app in
      if String.eqb slug "" then throw "app must have a slug or name set"
      else if negb (AppSlugRegex slug) then throw "app slug does not match regex"
      else if bool_decide (slug ∈ appSlugs) then throw "duplicate app slug, must be unique per template"
      else
        id ← uuid_New;
        _ ← context "insert app" (db (InsertWorkspaceApp (app_row id agentID now app)));
        insert_apps agentID apps ({[slug]} ∪ appSlugs)
  end.

Definition insert_scripts (agentID : uuid) (scripts : list ProtoScript) : SM unit :=
  ids ← uuids_New (2 * length scripts);
  (* a log source and a script of each, in turn *)
  let pairs := (fix go (ids : list uuid) (l : list ProtoScript) :=
                  match ids, l with s :: i :: ids, x :: l => (s, i, x) :: go ids l | _, _ => [] end) ids scripts in
  _ ← context "insert agent log sources"
        (db (InsertWorkspaceAgentLogSources
          ((fun '(s, _, x) => mkLogSource agentID s now (ps_DisplayName x) (ps_Icon x)) <$> pairs)));
  _ ← context "insert agent scripts"
        (db (InsertWorkspaceAgentScripts
          ((fun '(s, i, x) => mkScript agentID s (ps_LogPath x) now (ps_Script x) (ps_Cron x) (ps_StartBlocksLogin x)
              (ps_RunOnStart x) (ps_RunOnStop x) (ps_TimeoutSeconds x) (ps_DisplayName x) i) <$> pairs)));
  mret tt.

(** One agent: its row, its metadata, its scripts and its applications. *)
Definition insert_agent (resourceID : uuid) (a : ProtoAgent) (appSlugs : gset string) : SM (gset string) :=
  let env := agent_env a in
  token ← uuid_New;
  authToken ← (if String.eqb (GetToken a) "" then mret token
               else context "invalid auth token format; must be uuid" (lift (parse (GetToken a))));
  agentID ← uuid_New;
  _ ← context "insert agent" (db (InsertWorkspaceAgent
        (mkAgent agentID now now (ag_Name a) resourceID authToken (null_if_empty (GetInstanceId a)) (ag_Architecture a)
           (if bool_decide (env = ∅) then None else Some env) (ag_OperatingSystem a) (ag_Directory a)
           (ag_ConnectionTimeoutSeconds a) (ag_TroubleshootingUrl a) (ag_MotdFile a)
           (convertDisplayApps (ag_DisplayApps a)) (wraps 32 (ag_Order a)))));
  _ ← for_each (fun md => context "insert agent metadata" (db (InsertWorkspaceAgentMetadata
        (mkAgentMetadatum agentID (pm_DisplayName md) (pm_Key md) (pm_Script md) (pm_Timeout md) (pm_Interval md)
           (wraps 32 (pm_Order md)))))) (ag_Metadata a);
  _ ← insert_scripts agentID (ag_Scripts a);
  insert_apps agentID (ag_Apps a) appSlugs.

Fixpoint insert_agents (resourceID : uuid) (agents : list ProtoAgent) (agentNames appSlugs : gset string) : SM unit :=
  match agents with
  | [] => mret tt
  | a :: agents =>
      if bool_decide (ag_Name a ∈ agentNames) then throw "duplicate agent name"
      else
        slugs ← insert_agent resourceID a appSlugs;
        insert_agents resourceID agents ({[ag_Name a]} ∪ agentNames) slugs
  end.

Definition InsertWorkspaceResource (jobID : uuid) (transition : WorkspaceTransition) (r : ProtoResource) : SM unit :=
  id ← uuid_New;
  _ ← context "insert provisioner job resource" (db (DbBuild.InsertWorkspaceResource
        (mkResource id now jobID transition (pr_Type r) (pr_Name r) (pr_Hide r) (pr_Icon r)
           (null_if_empty (pr_InstanceType r)) (pr_DailyCost r) (mkNullString (pr_ModulePath r) true))));
  _ ← insert_agents id (pr_Agents r) ∅ ∅;
  _ ← context "insert workspace resource metadata" (db (InsertWorkspaceResourceMetadata id
        ((fun m => (prm_Key m, prm_Value m, prm_Sensitive m)) <$> List.filter (fun m => negb (prm_IsNull m)) (pr_Metadata r))));
  mret tt.

Definition InsertWorkspaceModule (jobID : uuid) (transition : WorkspaceTransition) (m : ProtoModule) : SM unit :=
  id ← uuid_New;
  _ ← context "insert provisioner job module" (db (DbBuild.InsertWorkspaceModule
        (mkModule id jobID transition (pmod_Source m) (pmod_Version m) (pmod_Key m) now)));
  mret tt.
End Insert.

(** * Theorems *)

Create HintDb run.

(** ** Running a handler, call by call *)

Lemma run_bind {A B} (m : SM A) (f : A -> SM B) s s' a : m s = (s', Ok a) -> (m ≫= f) s = f a s'.
Proof. unfold mbind, SM_bind. by intros ->. Qed.
Lemma run_fails {A B} (m : SM A) (f : A -> SM B) s s' e : m s = (s', Err e) -> (m ≫= f) s = (s', Err e).
Proof. unfold mbind, SM_bind. by intros ->. Qed.
Lemma run_context {A} c (m : SM A) s s' a : m s = (s', Ok a) -> context c m s = (s', Ok a).
Proof. unfold context. by intros ->. Qed.
Lemma run_db {A} (m : DB A) d ev k d' r : m d = (d', r) -> db m (mkSt d ev k) = (mkSt d' ev k, r).
Proof. unfold db. simpl. by intros ->. Qed.
Lemma run_read {A} (f : Data -> result A) s a : f (st_data s) = Ok a -> db (db_read f) s = (s, Ok a).
Proof. unfold db, db_read. destruct s as [d ev k]. simpl. by intros ->. Qed.
Lemma run_lift {A} (r : result A) s a : r = Ok a -> lift r s = (s, Ok a).
Proof. by intros ->. Qed.
#[export] Hint Resolve run_context run_db run_read run_lift : run.

(** Runs the next call, whose outcome is known. *)
Ltac run := erewrite run_bind; [|eauto with run]; cbv beta.

(** ** What a handler does to the store, whatever its outcome *)

Section Keeps.
Context (P : Data -> Data -> Prop) `{!Reflexive P, !Transitive P}.

(** [m] takes the store to one that [P] relates to it. *)
Definition keeps {A} (m : SM A) : Prop := forall s, P (st_data s) (st_data (m s).1).

Lemma keeps_ret {A} (a : A) : keeps (mret a).
Proof. intros s. simpl. reflexivity. Qed.
Lemma keeps_throw {A} e : keeps (throw e : SM A).
Proof. intros s. simpl. reflexivity. Qed.
Lemma keeps_emit e : keeps (emit e).
Proof. intros s. destruct s. simpl. reflexivity. Qed.
Lemma keeps_lift {A} (r : result A) : keeps (lift r).
Proof. intros s. simpl. reflexivity. Qed.
Lemma keeps_uuid_New `{UuidSupply} : keeps uuid_New.
Proof. intros s. destruct s. simpl. reflexivity. Qed.

Lemma keeps_db {A} (m : DB A) : (forall d, P d (m d).1) -> keeps (db m).
Proof. intros Hm [d ev n]. specialize (Hm d). unfold db. simpl. by destruct (m d). Qed.

Lemma keeps_read {A} (f : Data -> result A) : keeps (db (db_read f)).
Proof. apply keeps_db. intros d. simpl. reflexivity. Qed.

Lemma keeps_bind {A B} (m : SM A) (f : A -> SM B) : keeps m -> (forall a, keeps (f a)) -> keeps (m ≫= f).
Proof.
  intros Hm Hf s. specialize (Hm s). unfold mbind, SM_bind. destruct (m s) as [s1 [a|e]]; [|exact Hm].
  etransitivity; [exact Hm|apply Hf].
Qed.

Lemma keeps_context {A} c (m : SM A) : keeps m -> keeps (context c m).
Proof. intros Hm s. specialize (Hm s). unfold context. by destruct (m s). Qed.
Lemma keeps_try {A} (m : SM A) : keeps m -> keeps (try m).
Proof. intros Hm s. specialize (Hm s). unfold try. by destruct (m s). Qed.

Lemma keeps_for_each {A} (f : A -> SM unit) l : (forall a, keeps (f a)) -> keeps (for_each f l).
Proof. intros Hf. induction l as [|a l IH]; [apply keeps_ret|]. by apply keeps_bind; [|intros _]. Qed.

Lemma keeps_uuids_New `{UuidSupply} n : keeps (uuids_New n).
Proof.
  induction n as [|n IH]; [apply keeps_ret|]. apply keeps_bind; [apply keeps_uuid_New|]. intros u.
  apply keeps_bind; [exact IH|]. intros l. apply keeps_ret.
Qed.
End Keeps.

Create HintDb keeps.
#[export] Hint Resolve keeps_ret keeps_throw keeps_emit keeps_lift keeps_uuid_New keeps_read keeps_uuids_New : keeps.

(** Goes through a handler, case by case. *)
Ltac keep := repeat (first
  [ progress intros | solve [eauto with keeps typeclass_instances] | apply keeps_bind; [typeclasses eauto| |]
  | apply keeps_context | apply keeps_try | apply keeps_for_each; [typeclasses eauto..|]
  | progress cbv zeta | case_match ]).

(** Only the result tables change. *)
Definition only_results (d d' : Data) : Prop := exists r, d' = d{{ results := r }}.
#[export] Instance only_results_refl : Reflexive only_results.
Proof. intros d. exists (results d). by destruct d. Qed.
#[export] Instance only_results_trans : Transitive only_results.
Proof. intros d1 d2 d3 [r1 ->] [r2 ->]. exists r2. by destruct d1. Qed.

Lemma on_results_only {A} (f : Results -> Results * result A) : keeps only_results (db (on_results f)).
Proof. apply keeps_db. intros d. unfold on_results. destruct (f (results d)) as [r a]. by exists r. Qed.
#[export] Hint Resolve on_results_only : keeps.

(** The job table is kept. *)
Definition jobs_kept (d d' : Data) : Prop := provisionerJobs d' = provisionerJobs d.
#[export] Instance jobs_kept_refl : Reflexive jobs_kept.
Proof. by intros d. Qed.
#[export] Instance jobs_kept_trans : Transitive jobs_kept.
Proof. unfold jobs_kept. intros d1 d2 d3 E1 E2. congruence. Qed.

Lemma on_results_jobs {A} (f : Results -> Results * result A) : keeps jobs_kept (db (on_results f)).
Proof. apply keeps_db. intros d. unfold on_results. by destruct (f (results d)). Qed.
#[export] Hint Resolve on_results_jobs : keeps.

Section OnlyResults.
Context `{UuidSupply} (parse : string -> result uuid) (now : Time).

Lemma insert_apps_only agentID apps slugs : keeps only_results (insert_apps now agentID apps slugs).
Proof. revert slugs. induction apps as [|app apps IH]; intros slugs; simpl; unfold InsertWorkspaceApp; keep. Qed.
Hint Resolve insert_apps_only : keeps.

Lemma insert_agent_only resourceID a slugs : keeps only_results (insert_agent parse now resourceID a slugs).
Proof.
  unfold insert_agent, insert_scripts, InsertWorkspaceAgent, InsertWorkspaceAgentMetadata, InsertWorkspaceAgentLogSources,
    InsertWorkspaceAgentScripts. keep.
Qed.
Hint Resolve insert_agent_only : keeps.

Lemma insert_agents_only resourceID agents names slugs :
  keeps only_results (insert_agents parse now resourceID agents names slugs).
Proof. revert names slugs. induction agents as [|a agents IH]; intros names slugs; simpl; keep. Qed.
Hint Resolve insert_agents_only : keeps.

Lemma InsertWorkspaceResource_only jobID tr r : keeps only_results (InsertWorkspaceResource parse now jobID tr r).
Proof. unfold InsertWorkspaceResource, DbBuild.InsertWorkspaceResource, InsertWorkspaceResourceMetadata. keep. Qed.

Lemma InsertWorkspaceModule_only jobID tr m : keeps only_results (InsertWorkspaceModule now jobID tr m).
Proof. unfold InsertWorkspaceModule, DbBuild.InsertWorkspaceModule. keep. Qed.
End OnlyResults.
#[export] Hint Resolve InsertWorkspaceResource_only InsertWorkspaceModule_only : keeps.

(** ** Which resources are accepted, and what is inserted *)

(** The rows added to the tables of resources, agents and applications, with no event. *)
Definition adds (s s' : St) (rs : list WorkspaceResource) (ags : list WorkspaceAgent) (aps : list WorkspaceApp) : Prop :=
  workspaceResources (results (st_data s')) = workspaceResources (results (st_data s)) ++ rs /\
  workspaceAgents (results (st_data s')) = workspaceAgents (results (st_data s)) ++ ags /\
  workspaceApps (results (st_data s')) = workspaceApps (results (st_data s)) ++ aps /\
  st_events s' = st_events s.

Lemma adds_same s s' : results (st_data s') = results (st_data s) -> st_events s' = st_events s -> adds s s' [] [] [].
Proof. unfold adds. intros -> ->. by rewrite !app_nil_r. Qed.
Lemma adds_trans s1 s2 s3 rs ags aps rs' ags' aps' :
  adds s1 s2 rs ags aps -> adds s2 s3 rs' ags' aps' -> adds s1 s3 (rs ++ rs') (ags ++ ags') (aps ++ aps').
Proof.
  intros (E1 & E2 & E3 & E4) (F1 & F2 & F3 & F4). split_and!; rewrite ?F1, ?F2, ?F3, ?F4, ?E1, ?E2, ?E3, ?E4; by rewrite ?app_assoc.
Qed.

(** A call that succeeds, whatever the store, and adds nothing to those tables. *)
Definition aside {A} (m : SM A) : Prop := forall s, exists s' a, m s = (s', Ok a) /\ adds s s' [] [] [].

Lemma aside_bind {A B} (m : SM A) (f : A -> SM B) : aside m -> (forall a, aside (f a)) -> aside (m ≫= f).
Proof.
  intros Hm Hf s. destruct (Hm s) as (s1 & a & E & G). destruct (Hf a s1) as (s2 & b & E' & G').
  exists s2, b. split; [by erewrite run_bind|]. exact (adds_trans _ _ _ _ _ _ _ _ _ G G').
Qed.
Lemma aside_ret {A} (a : A) : aside (mret a).
Proof. intros s. exists s, a. split; [done|by apply adds_same]. Qed.
Lemma aside_results {A} c (f : Results -> Results * result A) :
  (forall r, exists r' a, f r = (r', Ok a) /\ workspaceResources r' = workspaceResources r /\
     workspaceAgents r' = workspaceAgents r /\ workspaceApps r' = workspaceApps r) ->
  aside (context c (db (on_results f))).
Proof.
  intros Hf [d ev k]. destruct (Hf (results d)) as (r' & a & E & E1 & E2 & E3).
  exists (mkSt (d{{ results := r' }}) ev k), a. unfold context, db, on_results. simpl. rewrite E. split; [done|].
  unfold adds. simpl. rewrite E1, E2, E3. by rewrite !app_nil_r.
Qed.
Lemma aside_for_each {A} (f : A -> SM unit) l : (forall a, aside (f a)) -> aside (for_each f l).
Proof. intros Hf. induction l as [|a l IH]; simpl; [apply aside_ret|]. by apply aside_bind. Qed.
Lemma aside_uuids `{UuidSupply} n : aside (uuids_New n).
Proof.
  induction n as [|n IH]; simpl; [apply aside_ret|]. apply aside_bind.
  - intros s. eexists _, _. split; [reflexivity|]. by apply adds_same.
  - intros u. apply aside_bind; [exact IH|]. intros l. apply aside_ret.
Qed.

Section Accepted.
Context `{UuidSupply} (parse : string -> result uuid) (now : Time).

Definition slugs_of (r : ProtoResource) : list string := pa_Slug <$> (pr_Agents r ≫= ag_Apps).

(** The names of the agents differ, the slugs of all their applications are
    well-formed and differ, and the tokens are UUIDs. *)
Record valid_resource (r : ProtoResource) : Prop := {
  vr_names : NoDup (ag_Name <$> pr_Agents r);
  vr_slugs : Forall (fun s => AppSlugRegex s = true) (slugs_of r);
  vr_unique : NoDup (slugs_of r);
  vr_tokens : Forall (fun a => GetToken a = ""%string \/ is_ok (parse (GetToken a)) = true) (pr_Agents r);
}.

(** Slugs after those of [seen]. *)
Definition fresh_slugs (slugs : list string) (seen : gset string) : Prop :=
  Forall (fun s => AppSlugRegex s = true) slugs /\ NoDup slugs /\ Forall (fun s => s ∉ seen) slugs.

Lemma fresh_slugs_cons x l seen :
  fresh_slugs (x :: l) seen <-> AppSlugRegex x = true /\ (x ∉ seen) /\ fresh_slugs l ({[x]} ∪ seen).
Proof.
  unfold fresh_slugs. rewrite !Forall_cons, NoDup_cons. split.
  - intros ([Hx Hl] & [Hnx Hnd] & [Hs Hls]). split_and!; try done.
    rewrite !Forall_forall in *. intros y Hy [->%elem_of_singleton|Hin]%elem_of_union; [done|]. by apply (Hls y).
  - intros (Hx & Hs & Hl & Hnd & Hls). split_and!; try done.
    + intros Hin. rewrite Forall_forall in Hls. specialize (Hls x Hin). set_solver.
    + eapply Forall_impl; [exact Hls|]. simpl. set_solver.
Qed.

Lemma fresh_slugs_app l1 l2 seen :
  fresh_slugs (l1 ++ l2) seen <-> fresh_slugs l1 seen /\ fresh_slugs l2 (list_to_set l1 ∪ seen).
Proof.
  revert seen. induction l1 as [|x l1 IH]; intros seen; cbn [app].
  - simpl. rewrite (left_id_L ∅ (∪)). unfold fresh_slugs at 2. rewrite !Forall_nil, NoDup_nil. tauto.
  - rewrite !fresh_slugs_cons, IH. replace (list_to_set (x :: l1) ∪ seen) with (list_to_set l1 ∪ ({[x]} ∪ seen) : gset string) by set_solver.
    tauto.
Qed.

(** The call succeeds exactly when [ok] holds, and then [post] holds of what it returns. *)
Definition succeeds_iff {A} (m : SM A) (s : St) (ok : Prop) (post : St -> A -> Prop) : Prop :=
  match m s with (s', Ok a) => ok /\ post s' a | (_, Err _) => ~ ok end.

Lemma insert_apps_spec agentID apps seen s :
  succeeds_iff (insert_apps now agentID apps seen) s (fresh_slugs (pa_Slug <$> apps) seen) (fun s' seen' =>
    seen' = list_to_set (pa_Slug <$> apps) ∪ seen /\
    exists aps, app_Slug <$> aps = pa_Slug <$> apps /\ adds s s' [] [] aps).
Proof.
  unfold succeeds_iff. revert seen s. induction apps as [|app apps IH]; intros seen s; cbn [insert_apps].
  - simpl. split; [by split_and!; constructor|]. split; [set_solver|]. exists []. split; [done|by apply adds_same].
  - rewrite fmap_cons. assert (Hcons := fresh_slugs_cons (pa_Slug app) (pa_Slug <$> apps) seen).
    destruct (String.eqb (pa_Slug app) "") eqn:E0; [simpl; rewrite Hcons; apply String.eqb_eq in E0 as ->; naive_solver|].
    destruct (AppSlugRegex (pa_Slug app)) eqn:E1; [|simpl; rewrite Hcons; naive_solver]. cbn [negb].
    case_bool_decide as E2; [simpl; rewrite Hcons; naive_solver|].
    destruct s as [d ev k]. set (row := app_row (uuid_supply k) agentID now app).
    set (s1 := mkSt d ev (S k)).
    set (s2 := mkSt (InsertWorkspaceApp row d).1 ev (S k)).
    erewrite run_bind; [|reflexivity]. cbv beta. fold s1.
    erewrite run_bind; [|apply run_context; reflexivity]. cbv beta. change (st_data _) with d. fold row.
    specialize (IH ({[pa_Slug app]} ∪ seen) s2).
    match goal with |- context [insert_apps now agentID apps ?x ?y] => change (insert_apps now agentID apps x y) with
      (insert_apps now agentID apps ({[pa_Slug app]} ∪ seen) s2) end.
    destruct (insert_apps now agentID apps _ s2) as [s' [seen'|e]]; [|rewrite Hcons; naive_solver].
    destruct IH as (Hf & -> & aps & Haps & Hg). rewrite Hcons. split; [done|]. split; [set_solver|].
    exists (row :: aps). split; [by rewrite fmap_cons, Haps|].
    apply (adds_trans _ s2 _ [] [] [row] [] [] aps); [|done]. split_and!; by rewrite ?app_nil_r.
Qed.

Lemma aside_scripts agentID scripts : aside (insert_scripts now agentID scripts).
Proof.
  apply aside_bind; [apply aside_uuids|]. intros ids. cbv zeta.
  apply aside_bind; [apply aside_results; intros r; by eexists _, _|]. intros _.
  apply aside_bind; [apply aside_results; intros r; by eexists _, _|]. intros _. apply aside_ret.
Qed.

Definition valid_token (a : ProtoAgent) : Prop := GetToken a = ""%string \/ is_ok (parse (GetToken a)) = true.

Lemma insert_agent_spec resourceID a seen s :
  succeeds_iff (insert_agent parse now resourceID a seen) s (valid_token a /\ fresh_slugs (pa_Slug <$> ag_Apps a) seen) (fun s' seen' =>
    seen' = list_to_set (pa_Slug <$> ag_Apps a) ∪ seen /\
    exists row aps, wa_Name row = ag_Name a /\ wa_ResourceID row = resourceID /\
      app_Slug <$> aps = pa_Slug <$> ag_Apps a /\ adds s s' [] [row] aps).
Proof.
  unfold succeeds_iff, insert_agent. destruct s as [d ev k].
  erewrite run_bind; [|reflexivity]. cbv beta.
  set (s1 := mkSt d ev (S k)). change (mkSt d ev k){{st_next := _}} with s1.
  assert (Htok : (exists t, (if String.eqb (GetToken a) "" then mret (uuid_supply k)
      else context "invalid auth token format; must be uuid" (lift (parse (GetToken a)))) s1 = (s1, Ok t) /\ valid_token a) \/
    (exists e, (if String.eqb (GetToken a) "" then mret (uuid_supply k)
      else context "invalid auth token format; must be uuid" (lift (parse (GetToken a)))) s1 = (s1, Err e) /\ ~ valid_token a)).
  { unfold valid_token, context, lift. destruct (String.eqb (GetToken a) "") eqn:E.
    - left. apply String.eqb_eq in E. eexists. by split; [|left].
    - apply String.eqb_neq in E. destruct (parse (GetToken a)) as [t|e]; simpl; [left; exists t; auto|right; eexists; split; [done|]].
      by intros [?|?]. }
  destruct Htok as [(t & E & Ht)|(e & E & Ht)]; [|erewrite run_fails by exact E; tauto].
  erewrite run_bind by exact E. cbv beta. erewrite run_bind; [|reflexivity]. cbv beta.
  erewrite run_bind; [|apply run_context; reflexivity]. cbv beta.
  match goal with |- context [_ ++ [?r]] => set (row := r) end.
  match goal with |- context [(for_each _ _ ≫= _) ?x] => set (s2 := x) end.
  destruct (aside_for_each (fun md => context "insert agent metadata" (db (InsertWorkspaceAgentMetadata
    (mkAgentMetadatum (uuid_supply (S k)) (pm_DisplayName md) (pm_Key md) (pm_Script md) (pm_Timeout md) (pm_Interval md)
       (wraps 32 (pm_Order md)))))) (ag_Metadata a)) with (s := s2) as (s3 & [] & E3 & G3).
  { intros md. apply aside_results. intros r. by eexists _, _. }
  erewrite run_bind by exact E3. destruct (aside_scripts (uuid_supply (S k)) (ag_Scripts a) s3) as (s4 & [] & E4 & G4).
  erewrite run_bind by exact E4. pose proof (insert_apps_spec (uuid_supply (S k)) (ag_Apps a) seen s4) as Happs. unfold succeeds_iff in Happs.
  change (uuid_supply (st_next s1)) with (uuid_supply (S k)).
  destruct (insert_apps now _ _ _ s4) as [s' [seen'|e]]; [|tauto].
  destruct Happs as (Hf & -> & aps & Haps & Hg). split; [done|]. split; [done|]. exists row, aps. split_and!; [done..|].
  assert (Hg2 : adds (mkSt d ev k) s2 [] [row] []) by (split_and!; simpl; by rewrite ?app_nil_r).
  exact (adds_trans _ _ _ _ _ _ _ _ _ Hg2 (adds_trans _ _ _ _ _ _ _ _ _ G3 (adds_trans _ _ _ _ _ _ _ _ _ G4 Hg))).
Qed.

Definition agent_slugs (agents : list ProtoAgent) : list string := pa_Slug <$> (agents ≫= ag_Apps).

Definition valid_agents (agents : list ProtoAgent) (names seen : gset string) : Prop :=
  NoDup (ag_Name <$> agents) /\ Forall (fun a => ag_Name a ∉ names) agents /\ Forall valid_token agents /\
  fresh_slugs (agent_slugs agents) seen.

Lemma valid_agents_cons a agents names seen :
  valid_agents (a :: agents) names seen <->
  (ag_Name a ∉ names) /\ (valid_token a /\ fresh_slugs (pa_Slug <$> ag_Apps a) seen) /\
  valid_agents agents ({[ag_Name a]} ∪ names) (list_to_set (pa_Slug <$> ag_Apps a) ∪ seen).
Proof.
  unfold valid_agents, agent_slugs. rewrite bind_cons, fmap_app, fresh_slugs_app, fmap_cons, NoDup_cons, !Forall_cons.
  rewrite !Forall_forall. rewrite list_elem_of_fmap. split.
  - intros ([Hna Hnd] & [Hn Hns] & [Ht Hts] & Hs & Hss). split_and!; try done.
    intros x Hx [E%elem_of_singleton|Hin]%elem_of_union; [apply Hna; eauto|by apply (Hns x)].
  - intros (Hn & (Ht & Hs) & Hnd & Hns & Hts & Hss). split_and!; try done.
    + intros (x & E & Hx). apply (Hns x Hx). set_solver.
    + intros x Hx Hin. apply (Hns x Hx). set_solver.
Qed.

Lemma insert_agents_spec resourceID agents names seen s :
  succeeds_iff (insert_agents parse now resourceID agents names seen) s (valid_agents agents names seen) (fun s' _ =>
    exists rows aps, wa_Name <$> rows = ag_Name <$> agents /\ Forall (fun row => wa_ResourceID row = resourceID) rows /\
      app_Slug <$> aps = agent_slugs agents /\ adds s s' [] rows aps).
Proof.
  unfold succeeds_iff. revert names seen s. induction agents as [|a agents IH]; intros names seen s; cbn [insert_agents].
  - simpl. split; [split_and!; repeat constructor|]. exists [], []. split_and!; first [done|by apply adds_same|constructor].
  - assert (Hcons := valid_agents_cons a agents names seen).
    case_bool_decide as E1; [simpl; rewrite Hcons; tauto|].
    pose proof (insert_agent_spec resourceID a seen s) as Ha. unfold succeeds_iff in Ha. unfold mbind, SM_bind.
    destruct (insert_agent parse now resourceID a seen s) as [s1 [seen1|e]]; [|simpl; rewrite Hcons; tauto].
    destruct Ha as (Hv & -> & row & aps & Hn & Hr & Haps & Hg). specialize (IH ({[ag_Name a]} ∪ names) (list_to_set (pa_Slug <$> ag_Apps a) ∪ seen) s1).
    destruct (insert_agents parse now resourceID agents _ _ s1) as [s2 [[]|e]]; [|rewrite Hcons; tauto].
    destruct IH as (Hvs & rows & aps' & Hns & Hrs & Haps' & Hg'). rewrite Hcons. split; [done|].
    exists (row :: rows), (aps ++ aps'). split_and!.
    + by rewrite !fmap_cons, Hn, Hns.
    + by constructor.
    + unfold agent_slugs. by rewrite bind_cons, !fmap_app, Haps, Haps'.
    + exact (adds_trans _ _ _ _ _ _ _ _ _ Hg Hg').
Qed.

Lemma InsertWorkspaceResource_succeeds jobID tr r s :
  succeeds_iff (InsertWorkspaceResource parse now jobID tr r) s (valid_resource r) (fun s' _ =>
    exists row agents apps, wr_JobID row = jobID /\ wr_Transition row = tr /\ wr_Name row = pr_Name r /\
      wa_Name <$> agents = ag_Name <$> pr_Agents r /\ Forall (fun a => wa_ResourceID a = wr_ID row) agents /\
      app_Slug <$> apps = slugs_of r /\ adds s s' [row] agents apps).
Proof.
  assert (Hval : valid_resource r <-> valid_agents (pr_Agents r) ∅ ∅).
  { unfold valid_agents, fresh_slugs, agent_slugs. rewrite !Forall_forall. split.
    - intros [Hn Hs Hu Ht]. split_and!; first [exact Hn|by apply Forall_forall|exact Hu|intros x _; apply not_elem_of_empty].
    - intros (Hn & _ & Ht & Hs & Hu & _). split; rewrite ?Forall_forall; done. }
  unfold succeeds_iff, InsertWorkspaceResource. destruct s as [d ev k].
  erewrite run_bind; [|reflexivity]. cbv beta. erewrite run_bind; [|apply run_context; reflexivity]. cbv beta.
  match goal with |- context [_ ++ [?x]] => set (row := x) end.
  match goal with |- context [(insert_agents _ _ _ _ _ _ ≫= _) ?x] => set (s1 := x) end.
  pose proof (insert_agents_spec (uuid_supply k) (pr_Agents r) ∅ ∅ s1) as Ha. unfold succeeds_iff in Ha.
  unfold mbind at 1, SM_bind at 1. change (uuid_supply (st_next _)) with (uuid_supply k).
  destruct (insert_agents parse now (uuid_supply k) _ _ _ s1) as [s2 [[]|e]]; [|tauto].
  destruct Ha as (Hv & agents & apps & Hn & Hr & Hap & Hg).
  assert (Hm : forall rows, aside (_ ← context "insert workspace resource metadata" (db (InsertWorkspaceResourceMetadata (uuid_supply k) rows)); mret tt)).
  { intros rows. apply aside_bind; [|intros _; apply aside_ret]. apply aside_results. intros t. by eexists _, _. }
  match goal with |- context [InsertWorkspaceResourceMetadata _ ?rows] => specialize (Hm rows s2) end.
  destruct Hm as (s3 & [] & E3 & G3). erewrite E3. split; [tauto|]. exists row, agents, apps.
  split_and!; [done..|].
  assert (Hg1 : adds (mkSt d ev k) s1 [row] [] []) by (split_and!; simpl; by rewrite ?app_nil_r).
  pose proof (adds_trans _ _ _ _ _ _ _ _ _ Hg1 (adds_trans _ _ _ _ _ _ _ _ _ Hg G3)) as Hall. by rewrite !app_nil_r in Hall.
Qed.

(** Which resources are accepted.  A resource a daemon reports is inserted
    exactly when its agents' names differ, the slugs of all its agents'
    applications are well-formed and differ, and its agents' tokens are UUIDs.
    Then one row is added for it, one for each agent, in order and belonging to
    it, and one for each application, in order. *)
Lemma InsertWorkspaceResource_correct jobID tr r s :
  succeeds_iff (InsertWorkspaceResource parse now jobID tr r) s (valid_resource r) (fun s' _ =>
    exists row agents apps, wr_JobID row = jobID /\ wr_Transition row = tr /\ wr_Name row = pr_Name r /\
      wa_Name <$> agents = ag_Name <$> pr_Agents r /\ Forall (fun a => wa_ResourceID a = wr_ID row) agents /\
      app_Slug <$> apps = slugs_of r /\ adds s s' [row] agents apps).
Proof. apply InsertWorkspaceResource_succeeds. Qed.

(** All the resources of a build are inserted, in order, when they are all accepted. *)
Lemma insert_all_spec c jobID tr resources s :
  Forall valid_resource resources ->
  exists s' rows agents apps,
    for_each (fun r => context c (InsertWorkspaceResource parse now jobID tr r)) resources s = (s', Ok tt) /\
    only_results (st_data s) (st_data s') /\ adds s s' rows agents apps /\ wr_Name <$> rows = pr_Name <$> resources /\ Forall (fun row => wr_JobID row = jobID) rows.
Proof.
  intros Hl. revert s. induction Hl as [|r l Hr Hl IH]; intros s; cbn [for_each].
  - exists s, [], [], []. split_and!; first [done|reflexivity|by apply adds_same|constructor].
  - pose proof (InsertWorkspaceResource_succeeds jobID tr r s) as Hi. unfold succeeds_iff in Hi.
    destruct (InsertWorkspaceResource parse now jobID tr r s) as [s1 [[]|e]] eqn:E; [|done].
    destruct Hi as (_ & row & agents & apps & Hj & _ & Hn & _ & _ & _ & Hg).
    destruct (IH s1) as (s2 & rows & agents' & apps' & E' & Ho' & Hg' & Hns & Hjs).
    exists s2, (row :: rows), (agents ++ agents'), (apps ++ apps'). split_and!.
    + erewrite run_bind; [exact E'|]. by apply run_context.
    + pose proof (InsertWorkspaceResource_only parse now jobID tr r s) as Ho. rewrite E in Ho. by etransitivity.
    + exact (adds_trans _ _ _ _ _ _ _ _ _ Hg Hg').
    + by rewrite !fmap_cons, Hn, Hns.
    + by constructor.
Qed.

Lemma insert_modules_spec c jobID tr modules s :
  exists s', for_each (fun m => context c (InsertWorkspaceModule now jobID tr m)) modules s = (s', Ok tt) /\
    only_results (st_data s) (st_data s') /\ adds s s' [] [] [].
Proof.
  assert (Ha : aside (for_each (fun m => context c (InsertWorkspaceModule now jobID tr m)) modules)).
  { apply aside_for_each. intros m [d ev k]. eexists _, _. split; [reflexivity|]. unfold adds. simpl. by rewrite !app_nil_r. }
  destruct (Ha s) as (s' & [] & E & Hg). exists s'. split_and!; [done| |done].
  pose proof (keeps_for_each only_results (fun m => context c (InsertWorkspaceModule now jobID tr m)) modules
    ltac:(intros m; apply keeps_context, InsertWorkspaceModule_only) s) as Hk. by rewrite E in Hk.
Qed.
End Accepted.
