(* ===== verification/ProvisionerServer.v ===== *)
(** * The provisioner daemon server: [wirtuald/provisionerdserver/provisionerdserver.go]

    The calls a provisioner daemon makes on the job it has acquired: [UpdateJob]
    with its heartbeat, logs and template data, [FailJob], [CompleteJob] and
    [CommitQuota].  A handler changes the store and emits events; publishing on
    the pubsub may fail.  [s.timeNow] is read once per call. *)

From Stdlib Require Import Strings.Byte.
From stdpp Require Import sorting.
From S2P Require Import Prelude GoTime GoStrings GoEncoding GoJson Cron Tags Db DbBuild Schedule Resources.

(** ** Payloads of jobs *)

Record WorkspaceProvisionJob := mkProvisionJob {
  wpj_WorkspaceBuildID : uuid;
  wpj_DryRun : bool;
  wpj_LogLevel : string;
}.

Record VariableValue := mkVariableValue { vv_Name : string; vv_Value : string; vv_Sensitive : bool }.

Record TemplateVersionImportJob := mkImportJob {
  tij_TemplateVersionID : uuid;
  tij_UserVariableValues : list VariableValue;
}.

Section Payloads.
Context `{UuidParse}.

Definition set_provision_job (name : string) (v : json) (j : WorkspaceProvisionJob) : result WorkspaceProvisionJob :=
  if for_field "workspace_build_id" name then
    id ← unmarshal_uuid v (wpj_WorkspaceBuildID j); Ok (j{{ wpj_WorkspaceBuildID := id }})
  else if for_field "dry_run" name then
    b ← unmarshal_bool v (wpj_DryRun j); Ok (j{{ wpj_DryRun := b }})
  else if for_field "log_level" name then
    l ← unmarshal_string v (wpj_LogLevel j); Ok (j{{ wpj_LogLevel := l }})
  else Ok j.

(** [json.Unmarshal(job.Input, &input)] *)
Definition unmarshal_provision_job (s : string) : result WorkspaceProvisionJob :=
  v ← parse_json s; unmarshal_struct set_provision_job (mkProvisionJob uuid_Nil false "") v.

Definition set_variable_value (name : string) (v : json) (x : VariableValue) : result VariableValue :=
  if for_field "name" name then s ← unmarshal_string v (vv_Name x); Ok (x{{ vv_Name := s }})
  else if for_field "value" name then s ← unmarshal_string v (vv_Value x); Ok (x{{ vv_Value := s }})
  else Ok x.

Definition set_import_job (name : string) (v : json) (j : TemplateVersionImportJob) : result TemplateVersionImportJob :=
  if for_field "template_version_id" name then
    id ← unmarshal_uuid v (tij_TemplateVersionID j); Ok (j{{ tij_TemplateVersionID := id }})
  else if for_field "user_variable_values" name then
    match v with
    | JNull => Ok (j{{ tij_UserVariableValues := [] }})
    | _ =>
        l ← unmarshal_slice (unmarshal_struct set_variable_value (mkVariableValue "" "" false)) v;
        Ok (j{{ tij_UserVariableValues := l }})
    end
  else Ok j.

Definition unmarshal_import_job (s : string) : result TemplateVersionImportJob :=
  v ← parse_json s; unmarshal_struct set_import_job (mkImportJob uuid_Nil []) v.
End Payloads.

(** ** Requests *)

Record ProtoLog := mkProtoLog {
  lg_Source : Z;                           (* enum *)
  lg_Level : Z;                            (* enum *)
  lg_CreatedAt : Z;                        (* Unix milliseconds *)
  lg_Stage : string;
  lg_Output : string;
}.

Record ProtoTemplateVariable := mkTemplateVariable {
  tv'_Name : string;
  tv'_Description : string;
  tv'_Type : string;
  tv'_DefaultValue : string;
  tv'_Required : bool;
  tv'_Sensitive : bool;
}.

Record UpdateJobRequest := mkUpdateJob {
  uj_JobId : string;
  uj_Logs : list ProtoLog;
  uj_TemplateVariables : list ProtoTemplateVariable;
  uj_UserVariableValues : list VariableValue;
  uj_Readme : string;
  uj_WorkspaceTags : gmap string string;
}.

Record UpdateJobResponse := mkUpdateResponse { ur_Canceled : bool; ur_VariableValues : list VariableValue }.

(** [FailedJob.Type]: of a workspace build, with the state if there is one. *)
Inductive FailedJobType := FailedWorkspaceBuild (state : option (list byte)) | FailedTemplateImport | FailedOther.

Record FailedJob := mkFailedJob {
  fj_JobId : string;
  fj_Error : string;
  fj_ErrorCode : string;
  fj_Type : FailedJobType;
}.

Record ProtoRichParameter := mkProtoRichParameter {
  rp'_Name : string;
  rp'_Description : string;
  rp'_Type : string;
  rp'_Mutable : bool;
  rp'_DefaultValue : string;
  rp'_Options : list string;
  rp'_ValidationRegex : string;
  rp'_ValidationError : string;
  rp'_ValidationMin : option Z;
  rp'_ValidationMax : option Z;
  rp'_ValidationMonotonic : string;
  rp'_Required : bool;
  rp'_DisplayName : string;
  rp'_Order : Z;
  rp'_Ephemeral : bool;
}.

Record CompletedImport := mkCompletedImport {
  ci_StartResources : list ProtoResource;
  ci_StopResources : list ProtoResource;
  ci_StartModules : list ProtoModule;
  ci_StopModules : list ProtoModule;
  ci_RichParameters : list ProtoRichParameter;
  ci_ExternalAuthProvidersNames : list string;
  ci_ExternalAuthProviders : list (string * bool);     (* ID, optional *)
}.

Record CompletedBuild := mkCompletedBuild {
  cb_State : list byte;
  cb_Resources : list ProtoResource;
  cb_Modules : list ProtoModule;
}.

Inductive CompletedJobType :=
| CompletedTemplateImport (c : CompletedImport)
| CompletedWorkspaceBuild (c : CompletedBuild)
| CompletedTemplateDryRun (resources : list ProtoResource) (modules : list ProtoModule).

(** The type is [None] when no payload was sent. *)
Record CompletedJob := mkCompletedJob { cj_JobId : string; cj_Type : option CompletedJobType }.

(** ** Conversions *)

Definition convertLogLevel (l : Z) : result LogLevel :=
  if l =? 0 then Ok LogLevelTrace else if l =? 1 then Ok LogLevelDebug else if l =? 2 then Ok LogLevelInfo
  else if l =? 3 then Ok LogLevelWarn else if l =? 4 then Ok LogLevelError else Err "unknown log level".

Definition convertLogSource (s : Z) : result LogSource :=
  if s =? 0 then Ok LogSourceProvisionerDaemon else if s =? 1 then Ok LogSourceProvisioner else Err "unknown log source".

(** [time.UnixMilli] *)
Definition UnixMilli (ms : Z) : Time := mkTime (ms * 1000000) UTC.

(** ** The server *)

Section Server.
Context `{CronLib, UuidText, UuidParse, UuidSupply, MapRange}.

(** [proto.CommitQuotaRequest] and [proto.CommitQuotaResponse], of 32-bit numbers. *)
Record CommitQuotaRequest := mkCommitQuotaRequest { cq_JobId : string; cq_DailyCost : Z }.
Record CommitQuotaResponse := mkCommitQuotaResponse { cr_Ok : bool; cr_CreditsConsumed : Z; cr_Budget : Z }.

Record Server := mkServer {
  s_ID : uuid;
  s_ExternalAuthConfigs : list string;      (* their IDs *)
  s_TemplateScheduleStore : TemplateScheduleStore;
  s_UserQuietHoursScheduleStore : UserQuietHoursScheduleStore;
  (* None in the community edition *)
  s_QuotaCommitter : option (CommitQuotaRequest -> DB CommitQuotaResponse);
}.

Context (s : Server).
(** [s.timeNow] (which is also [dbtime.Now] for the rows of resources), and the
    pubsub, whose publishing may fail. *)
Context (now : Time) (Publish : Event -> result unit).

Definition publish (e : Event) : SM unit := _ ← lift (Publish e); emit e.

Definition get {A} (f : Data -> result A) : SM A := db (db_read f).

(** [job.WorkerID.UUID.String() != s.ID.String()] *)
Definition owns (job : ProvisionerJob) : bool :=
  String.eqb (uuid_String (default uuid_Nil (pj_WorkerID job))) (uuid_String (s_ID s)).

Definition CommitQuota (request : CommitQuotaRequest) : SM CommitQuotaResponse :=
  jobID ← context "parse job id" (lift (uuid_Parse (cq_JobId request)));
  job ← context "get job" (get (getProvisionerJobByIDNoLock jobID));
  if bool_decide (pj_WorkerID job = None) then throw "job isn't running yet"
  else if negb (owns job) then throw "you don't own this job"
  else match s_QuotaCommitter s with
       | None => mret (mkCommitQuotaResponse true 0 (-1))
       | Some q => db (q request)
       end.

(** *** [UpdateJob] *)

Fixpoint convert_logs (l : list ProtoLog) : result (list NewLog) :=
  match l with
  | [] => Ok []
  | x :: l =>
      level ← wrap "convert log level" (convertLogLevel (lg_Level x));
      source ← wrap "convert log source" (convertLogSource (lg_Source x));
      rows ← convert_logs l;
      Ok (mkNewLog (UnixMilli (lg_CreatedAt x)) source level (lg_Stage x) (lg_Output x) :: rows)
  end.

Definition update_logs (jobID : uuid) (l : list ProtoLog) : SM unit :=
  match l with
  | [] => mret tt
  | _ =>
      rows ← lift (convert_logs l);
      logs ← context "insert job logs" (db (InsertProvisionerJobLogs jobID rows));
      match logs with
      | [] => throw "panic: index out of range"
      | first :: _ => context "publish job logs" (publish (PublishLogs jobID (jl_ID first - 1) false))
      end
  end.

(** The value of a template variable: the user's, else the default. *)
Definition variable_value (user : list VariableValue) (v : ProtoTemplateVariable) : string :=
  match find_first (fun u => String.eqb (vv_Name u) (tv'_Name v)) user with
  | Some u => vv_Value u
  | None => tv'_DefaultValue v
  end.

Definition missing (user : list VariableValue) (v : ProtoTemplateVariable) : bool :=
  tv'_Required v && String.eqb (variable_value user v) "".

Definition variable_row (versionID : uuid) (user : list VariableValue) (v : ProtoTemplateVariable) : TemplateVersionVariable :=
  mkVariable versionID (tv'_Name v) (tv'_Description v) (tv'_Type v) (variable_value user v) (tv'_DefaultValue v)
    (tv'_Required v) (tv'_Sensitive v).

Definition update_variables (job : ProvisionerJob) (vars : list ProtoTemplateVariable) (user : list VariableValue)
    : SM UpdateJobResponse :=
  templateVersion ← context "get template version by job id" (get (GetTemplateVersionByJobID (pj_ID job)));
  _ ← for_each (fun v => _ ← context "insert parameter schema"
        (db (InsertTemplateVersionVariable (variable_row (tv_ID templateVersion) user v))); mret tt) vars;
  match List.filter (missing user) vars with
  | [] => mret (mkUpdateResponse (nt_Valid (pj_CanceledAt job))
                  ((fun v => mkVariableValue (tv'_Name v) (variable_value user v) (tv'_Sensitive v)) <$> vars))
  | l => throw ("required template variables need values: " +:+ String.concat ", " (tv'_Name <$> l))
  end.

Definition update_tags (job : ProvisionerJob) (tags : gmap string string) : SM unit :=
  if bool_decide (tags = ∅) then mret tt
  else
    templateVersion ← context "get template version by job id" (get (GetTemplateVersionByJobID (pj_ID job)));
    for_each (fun key => _ ← context "update template version workspace tags"
      (db (InsertTemplateVersionWorkspaceTag (mkTVWT (tv_ID templateVersion) key (default "" (tags !! key))))); mret tt)
      (range (dom tags)).

Definition UpdateJob (request : UpdateJobRequest) : SM UpdateJobResponse :=
  parsedID ← context "parse job id" (lift (uuid_Parse (uj_JobId request)));
  job ← context "get job" (get (getProvisionerJobByIDNoLock parsedID));
  if bool_decide (pj_WorkerID job = None) then throw "job isn't running yet"
  else if negb (owns job) then throw "you don't own this job"
  else
    _ ← context "update job" (db (UpdateProvisionerJobByID parsedID now));
    _ ← update_logs parsedID (uj_Logs request);
    _ ← update_tags job (uj_WorkspaceTags request);
    _ ← (if String.eqb (uj_Readme request) "" then mret tt
         else context "update template version description"
                (db (UpdateTemplateVersionDescriptionByJobID (pj_ID job) (uj_Readme request) now)));
    match uj_TemplateVariables request with
    | [] => mret (mkUpdateResponse (nt_Valid (pj_CanceledAt job)) [])
    | vars => update_variables job vars (uj_UserVariableValues request)
    end.

(** *** [FailJob] *)

Definition notifyWorkspaceBuildFailed (workspace : WorkspaceTable) (build : WorkspaceBuild) : SM unit :=
  match wb_Reason build with
  | ReasonInitiator => emit (NotifyManualBuildFailed (ws_ID workspace) (wb_ID build))
  | reason => emit (NotifyAutobuildFailed (ws_OwnerID workspace) (ws_Name workspace) reason)
  end.

(** The audit entry of a build, with the build before it. *)
Definition audit_build (job : ProvisionerJob) (workspace : WorkspaceTable) (build : WorkspaceBuild) (status : Z) : SM unit :=
  previous ← try (get (GetWorkspaceBuildByWorkspaceIDAndBuildNumber (ws_ID workspace) (wraps 32 (wb_BuildNumber build - 1))));
  emit (Audit (pj_InitiatorID job) (pj_ID job) (wb_Transition build)
          (match previous with Ok p => Some p | Err _ => None end) build status).

Definition fail_build_tx (input : WorkspaceProvisionJob) (state : option (list byte)) : SM (WorkspaceBuild * WorkspaceTable) :=
  build ← context "get workspace build" (get (getWorkspaceBuildByIDNoLock (wpj_WorkspaceBuildID input)));
  workspace ← context "get workspace" (get (getWorkspaceByIDNoLock (wb_WorkspaceID build)));
  match state with
  | None => mret (build, workspace)
  | Some state =>
      _ ← context "update workspace build state"
            (db (UpdateWorkspaceBuildProvisionerStateByID (wpj_WorkspaceBuildID input) now state));
      _ ← context "update workspace build deadline"
            (db (UpdateWorkspaceBuildDeadlineByID (wpj_WorkspaceBuildID input) now (wb_Deadline build) (wb_MaxDeadline build)));
      mret (build, workspace)
  end.

Definition fail_build (job : ProvisionerJob) (state : option (list byte)) : SM unit :=
  input ← context "unmarshal workspace provision input" (lift (unmarshal_provision_job (pj_Input job)));
  '(build, workspace) ← fail_build_tx input state;
  _ ← notifyWorkspaceBuildFailed workspace build;
  context "publish workspace update" (publish (PublishWorkspace (ws_OwnerID workspace) KindStateChange (ws_ID workspace))).

Definition fail_audit (job : ProvisionerJob) : SM unit :=
  build ← try (get (GetWorkspaceBuildByJobID (pj_ID job)));
  match build with
  | Err _ => mret tt
  | Ok build =>
      workspace ← try (get (getWorkspaceByIDNoLock (wb_WorkspaceID build)));
      match workspace with
      | Err _ => mret tt
      | Ok workspace => audit_build job workspace build 500
      end
  end.

Definition FailJob (failJob : FailedJob) : SM unit :=
  jobID ← context "parse job id" (lift (uuid_Parse (fj_JobId failJob)));
  job ← context "get provisioner job" (get (getProvisionerJobByIDNoLock jobID));
  if negb (owns job) then throw "you don't own this job"
  else if nt_Valid (pj_CompletedAt job) then throw "job already completed"
  else
    _ ← context "update provisioner job"
          (db (UpdateProvisionerJobWithCompleteByID jobID now (mkNullTime now true)
                 (null_if_empty (fj_Error failJob)) (null_if_empty (fj_ErrorCode failJob))));
    _ ← match fj_Type failJob with
        | FailedWorkspaceBuild state => fail_build job state
        | FailedTemplateImport | FailedOther => mret tt
        end;
    _ ← (if bool_decide (pj_Type job = JobWorkspaceBuild) then fail_audit job else mret tt);
    context "publish end of job logs" (publish (PublishLogs jobID 0 true)).

(** *** [CompleteJob] *)

(** The two maps of an import, ranged over in either order. *)
Context (start_first_resources start_first_modules : bool).
Definition both {A} (start_first : bool) (start stop : A) : list (WorkspaceTransition * A) :=
  if start_first then [(TransitionStart, start); (TransitionStop, stop)] else [(TransitionStop, stop); (TransitionStart, start)].

Definition parameter_row (versionID : uuid) (p : ProtoRichParameter) : TemplateVersionParameter :=
  mkTVP versionID (rp'_Name p) (rp'_Description p) (rp'_Type p) (rp'_Mutable p) (rp'_DefaultValue p) (Ok (rp'_Options p))
    (rp'_ValidationRegex p) (rp'_ValidationMin p) (rp'_ValidationMax p) (rp'_ValidationError p) (rp'_ValidationMonotonic p)
    (rp'_Required p) (rp'_DisplayName p) (rp'_Order p) (rp'_Ephemeral p).

(** The first provider that is not configured. *)
Definition provider_error (providers : list (string * bool)) : NullString :=
  match find_first (fun p => negb (existsb (String.eqb p.1) (s_ExternalAuthConfigs s))) providers with
  | Some p => mkNullString ("external auth provider " +:+ Quote p.1 +:+ " is not configured") true
  | None => mkNullString "" false
  end.

(** The JSON text of the providers, or of those given by name only. *)
Definition providers_json (providers : list (string * bool)) (names : list string) : string :=
  let l := match providers with [] => (fun n => (n, false)) <$> names | l => l end in
  match l with
  | [] => "null"
  | l => "[" +:+ String.concat "," ((fun '(id, optional) =>
           json_object ([("id"%string, json_string id)] ++ (if optional : bool then [("optional"%string, "true"%string)] else []))) <$> l) +:+ "]"
  end.

Definition insert_resources (jobID : uuid) (transition : WorkspaceTransition) (l : list ProtoResource) : SM unit :=
  for_each (fun r => context "insert resource" (InsertWorkspaceResource uuid_Parse now jobID transition r)) l.
Definition insert_modules (jobID : uuid) (transition : WorkspaceTransition) (l : list ProtoModule) : SM unit :=
  for_each (fun m => context "insert module" (InsertWorkspaceModule now jobID transition m)) l.

Definition complete_import (jobID : uuid) (job : ProvisionerJob) (c : CompletedImport) : SM unit :=
  input ← context "template version ID is expected" (lift (unmarshal_import_job (pj_Input job)));
  _ ← for_each (fun '(tr, l) => insert_resources jobID tr l) (both start_first_resources (ci_StartResources c) (ci_StopResources c));
  _ ← for_each (fun '(tr, l) => insert_modules jobID tr l) (both start_first_modules (ci_StartModules c) (ci_StopModules c));
  _ ← for_each (fun p => _ ← context "insert parameter"
        (db (InsertTemplateVersionParameter (parameter_row (tij_TemplateVersionID input) p))); mret tt) (ci_RichParameters c);
  _ ← context "update template version external auth providers"
        (db (UpdateTemplateVersionExternalAuthProvidersByJobID jobID
               (providers_json (ci_ExternalAuthProviders c) (ci_ExternalAuthProvidersNames c)) now));
  context "update provisioner job"
    (db (UpdateProvisionerJobWithCompleteByID jobID now (mkNullTime now true)
           (provider_error (ci_ExternalAuthProviders c)) (mkNullString "" false))).

(** The distinct connection timeouts of the resources' agents, in order. *)
Definition agent_timeouts (l : list ProtoResource) : list Z :=
  merge_sort Z.le (elements (list_to_set ((fun a => ag_ConnectionTimeoutSeconds a * Second) <$> (l ≫= pr_Agents)) : gset Z)).

Definition complete_build_tx (jobID : uuid) (job : ProvisionerJob) (input : WorkspaceProvisionJob)
    (workspaceBuild : WorkspaceBuild) (c : CompletedBuild) : SM WorkspaceTable :=
  workspace ← get (getWorkspaceByIDNoLock (wb_WorkspaceID workspaceBuild));
  autoStop ← context "calculate auto stop"
    (get (CalculateAutostop (s_TemplateScheduleStore s) (s_UserQuietHoursScheduleStore s)
            (ns_String (ws_AutostartSchedule workspace)) now workspace));
  _ ← context "update provisioner job"
    (db (UpdateProvisionerJobWithCompleteByID jobID now (mkNullTime now true) (mkNullString "" false) (mkNullString "" false)));
  _ ← context "update workspace build provisioner state"
    (db (UpdateWorkspaceBuildProvisionerStateByID (wb_ID workspaceBuild) now (cb_State c)));
  _ ← context "update workspace build deadline"
    (db (UpdateWorkspaceBuildDeadlineByID (wb_ID workspaceBuild) now (Deadline autoStop) (MaxDeadline autoStop)));
  _ ← for_each (fun r => context "insert provisioner job"
        (InsertWorkspaceResource uuid_Parse now (pj_ID job) (wb_Transition workspaceBuild) r)) (cb_Resources c);
  _ ← for_each (fun m => context "insert provisioner job module"
        (InsertWorkspaceModule now (pj_ID job) (wb_Transition workspaceBuild) m)) (cb_Modules c);
  let timeouts := agent_timeouts (cb_Resources c) in
  _ ← (if negb (wpj_DryRun input) && bool_decide (wb_Transition workspaceBuild = TransitionStart) && negb (bool_decide (timeouts = []))
       then emit (AgentTimeouts (ws_OwnerID workspace) (ws_ID workspace) timeouts) else mret tt);
  if negb (bool_decide (wb_Transition workspaceBuild = TransitionDelete)) then mret workspace
  else
    _ ← context "update workspace deleted" (db (UpdateWorkspaceDeletedByID (wb_WorkspaceID workspaceBuild) true));
    mret workspace.

(** The view's initiator name is looked up among the users. *)
Definition initiator_name (build : WorkspaceBuild) (d : Data) : string :=
  match getUserByIDNoLock (wb_InitiatorID build) d with Ok u => u_Username u | Err _ => "" end.

Definition reason_text (r : BuildReason) : string :=
  match r with
  | ReasonInitiator => "initiator" | ReasonAutostart => "autostart" | ReasonAutostop => "autostop"
  | ReasonDormancy => "dormancy" | ReasonFailedstop => "failedstop" | ReasonAutodelete => "autodelete"
  end.

Definition notifyWorkspaceDeleted (workspace : WorkspaceTable) (build : WorkspaceBuild) : SM unit :=
  initiator ← get (fun d => Ok (initiator_name build d));
  match wb_Reason build with
  | ReasonInitiator =>
      if (wb_InitiatorID build =? ws_OwnerID workspace)%N then mret tt
      else emit (NotifyDeleted (ws_OwnerID workspace) (ws_Name workspace) "initiated by user" initiator)
  | ReasonAutodelete =>
      emit (NotifyDeleted (ws_OwnerID workspace) (ws_Name workspace) "autodeleted due to dormancy" "autobuild")
  | r => emit (NotifyDeleted (ws_OwnerID workspace) (ws_Name workspace) (reason_text r) initiator)
  end.

Definition complete_build (jobID : uuid) (job : ProvisionerJob) (c : CompletedBuild) : SM unit :=
  input ← context "unmarshal job data" (lift (unmarshal_provision_job (pj_Input job)));
  workspaceBuild ← context "get workspace build" (get (getWorkspaceBuildByIDNoLock (wpj_WorkspaceBuildID input)));
  workspace ← context "complete job" (complete_build_tx jobID job input workspaceBuild c);
  _ ← (if bool_decide (wb_Transition workspaceBuild = TransitionDelete) then notifyWorkspaceDeleted workspace workspaceBuild
       else mret tt);
  _ ← audit_build job workspace workspaceBuild 200;
  context "update workspace" (publish (PublishWorkspace (ws_OwnerID workspace) KindStateChange (ws_ID workspace))).

Definition complete_dry_run (jobID : uuid) (resources : list ProtoResource) (modules : list ProtoModule) : SM unit :=
  _ ← insert_resources jobID TransitionStart resources;
  _ ← insert_modules jobID TransitionStart modules;
  context "update provisioner job"
    (db (UpdateProvisionerJobWithCompleteByID jobID now (mkNullTime now true) (mkNullString "" false) (mkNullString "" false))).

Definition CompleteJob (completed : CompletedJob) : SM unit :=
  jobID ← context "parse job id" (lift (uuid_Parse (cj_JobId completed)));
  job ← context "get job by id" (get (getProvisionerJobByIDNoLock jobID));
  if negb (owns job) then throw "you don't own this job"
  else
    _ ← match cj_Type completed with
        | Some (CompletedTemplateImport c) => complete_import jobID job c
        | Some (CompletedWorkspaceBuild c) => complete_build jobID job c
        | Some (CompletedTemplateDryRun resources modules) => complete_dry_run jobID resources modules
        | None => throw "type payload must be provided"
        end;
    context "publish end of job logs" (publish (PublishLogs jobID 0 true)).
End Server.

(** * Theorems *)

Section Facts.
Context `{CronLib, UuidText, UuidParse, UuidSupply, MapRange}.
Context (s : Server) (now : Time) (Publish : Event -> result unit) (start_first_resources start_first_modules : bool).
Implicit Types (st : St) (d : Data) (job : ProvisionerJob).

Lemma run_publish e d ev k : Publish e = Ok tt -> publish Publish e (mkSt d ev k) = (mkSt d (ev ++ [e]) k, Ok tt).
Proof. intros He. unfold publish, lift, mbind, SM_bind. by rewrite He. Qed.
Hint Resolve run_publish : run.

(** Whether the text names a job that the daemon owns. *)
Definition owned (jobId : string) (d : Data) : bool :=
  match (id ← uuid_Parse jobId; getProvisionerJobByIDNoLock id d) with Ok job => owns s job | Err _ => false end.

Lemma owned_iff jobId d :
  owned jobId d = true <->
  exists id job, uuid_Parse jobId = Ok id /\ getProvisionerJobByIDNoLock id d = Ok job /\ owns s job = true.
Proof.
  unfold owned. split.
  - destruct (uuid_Parse jobId) as [id|]; simpl; [|done]. destruct (getProvisionerJobByIDNoLock id d) as [job|] eqn:E; [|done].
    intros Ho. by exists id, job.
  - intros (id & job & -> & E & Ho). simpl. by rewrite E.
Qed.

(** C8: only the daemon that runs a job acts on it.  When the job's ID does not
    parse, when there is no such job, or when the job was acquired by another
    daemon or by none, then [UpdateJob], [FailJob], [CompleteJob] and
    [CommitQuota] return an error, change nothing in the store and publish
    nothing. *)
Theorem only_owner_acts jobId st :
  owned jobId (st_data st) = false ->
  (forall req, uj_JobId req = jobId -> exists e, UpdateJob s now Publish req st = (st, Err e)) /\
  (forall req, fj_JobId req = jobId -> exists e, FailJob s now Publish req st = (st, Err e)) /\
  (forall req, cj_JobId req = jobId -> exists e,
     CompleteJob s now Publish start_first_resources start_first_modules req st = (st, Err e)) /\
  (forall req, cq_JobId req = jobId -> exists e, CommitQuota s req st = (st, Err e)).
Proof.
  destruct st as [d ev k]. unfold owned. intros Ho.
  split_and!; intros req <-;
    unfold UpdateJob, FailJob, CompleteJob, CommitQuota, context, lift, get, db, db_read, mbind, SM_bind, result_bind in *; simpl in *;
    (destruct (uuid_Parse _) as [id|]; simpl in *; [|by eexists]);
    (destruct (getProvisionerJobByIDNoLock id d) as [job|] eqn:E; simpl in *; rewrite ?E; simpl; [|by eexists]);
    rewrite ?Ho; simpl; try (by eexists); by case_bool_decide; eexists.
Qed.

(** *** [FailJob] *)








(** *** [UpdateJob] *)

(** Whether a row holds what the daemon sent. *)
Definition row_of (id : uuid) (l : ProtoLog) (row : ProvisionerJobLog) : Prop :=
  jl_JobID row = id /\ jl_Output row = lg_Output l /\ jl_Stage row = lg_Stage l /\ jl_CreatedAt row = UnixMilli (lg_CreatedAt l) /\
  convertLogLevel (lg_Level l) = Ok (jl_Level row) /\ convertLogSource (lg_Source l) = Ok (jl_Source row).

Lemma convert_logs_spec id l rows d : convert_logs l = Ok rows -> Forall2 (row_of id) l (log_rows id rows d).
Proof.
  unfold log_rows. generalize (next_log d). revert rows. induction l as [|x l IH]; intros rows k; simpl; [intros [= <-]; constructor|].
  intros (level & Hlevel%wrap_Ok & (source & Hsource%wrap_Ok & (rest & Hrest & [= <-])%bind_Ok)%bind_Ok)%bind_Ok. simpl.
  constructor; [by split_and!|by apply IH].
Qed.

(** The heartbeat is set whatever else the request holds and however it ends. *)
Lemma versions_jobs p f : keeps jobs_kept (db (_ ← update_table templateVersions set_versions p f; mret tt)).
Proof. apply keeps_db. intros d. unfold update_table, mbind, DB_bind. by destruct (update_first _ _ _) as [[? ?]|]. Qed.
Lemma tag_jobs t : keeps jobs_kept (db (InsertTemplateVersionWorkspaceTag t)).
Proof. by apply keeps_db. Qed.
Hint Resolve versions_jobs tag_jobs : keeps.

Lemma UpdateJob_heartbeat req st id job :
  uuid_Parse (uj_JobId req) = Ok id -> getProvisionerJobByIDNoLock id (st_data st) = Ok job ->
  pj_WorkerID job <> None -> owns s job = true ->
  job_becomes (st_data st) id (with_status (job{{ pj_UpdatedAt := now }})) (st_data (UpdateJob s now Publish req st).1).
Proof.
  intros Hp Hj Hw Ho. destruct st as [d ev k].
  destruct (update_job_found id (fun j : ProvisionerJob => j{{ pj_UpdatedAt := now }}) d job Hj ltac:(done)) as (l1 & E1 & Hr1).
  intros i. rewrite <- Hr1. unfold getProvisionerJobByIDNoLock. do 2 f_equal.
  unfold UpdateJob, get. run. run. rewrite bool_decide_false by done. rewrite Ho. cbn [negb].
  erewrite run_bind; [|apply run_context, run_db; exact E1]. cbv beta.
  match goal with |- context [?m (mkSt _ ev k)] => assert (Hk : keeps jobs_kept m); [|exact (Hk (mkSt (set_jobs l1 d) ev k))] end.
  unfold update_logs, update_tags, update_variables, publish, get, InsertProvisionerJobLogs, InsertTemplateVersionVariable,
    UpdateTemplateVersionDescriptionByJobID. keep.
Qed.

(** Logs of a job.  When the daemon that runs a job sends logs, the job's
    heartbeat is set and its other columns are kept, one row is added per log, in
    order, with the next IDs, and followers are told an ID after which [GetProvisionerLogsAfterID]
    gives them exactly the new rows; the response says whether the job was canceled. *)
Lemma UpdateJob_logs req st id job rows :
  uuid_Parse (uj_JobId req) = Ok id -> getProvisionerJobByIDNoLock id (st_data st) = Ok job ->
  pj_WorkerID job <> None -> owns s job = true ->
  uj_Logs req <> [] -> convert_logs (uj_Logs req) = Ok rows ->
  uj_TemplateVariables req = [] -> uj_Readme req = ""%string -> uj_WorkspaceTags req = ∅ ->
  (forall e, Publish e = Ok tt) -> logs_numbered (st_data st) ->
  let first := next_log (st_data st) in
  exists d' new,
    UpdateJob s now Publish req st =
      (mkSt d' (st_events st ++ [PublishLogs id (first - 1) false]) (st_next st),
       Ok (mkUpdateResponse (nt_Valid (pj_CanceledAt job)) [])) /\
    job_becomes (st_data st) id (with_status (job{{ pj_UpdatedAt := now }})) d' /\
    workspaceBuilds d' = workspaceBuilds (st_data st) /\
    provisionerJobLogs (results d') = provisionerJobLogs (results (st_data st)) ++ new /\
    Forall2 (row_of id) (uj_Logs req) new /\
    jl_ID <$> new = seqZ first (Z.of_nat (length (uj_Logs req))) /\
    GetProvisionerLogsAfterID id (first - 1) d' = Ok new /\ logs_numbered d'.
Proof.
  intros Hp Hj Hw Ho Hne Hc Hv Hr Ht Hpub Hnum first. destruct st as [d ev k]. simpl in *.
  destruct (update_job_found id (fun j : ProvisionerJob => j{{ pj_UpdatedAt := now }}) d job Hj ltac:(done)) as (l1 & E1 & Hr1).
  set (d1 := set_jobs l1 d) in *.
  pose proof (convert_logs_spec id _ _ d1 Hc) as Hrows. pose proof (Forall2_length _ _ _ Hrows) as Hlen.
  destruct (insert_logs id rows d1) as (n0 & Hins & Hn0 & Hread & Hnum' & Hfirst & Hids).
  { intros ->. by destruct (uj_Logs req). }
  unfold log_rows in Hlen. rewrite number_from_length in Hlen. rewrite <- Hlen in Hids. set (new := log_rows id rows d1) in *.
  exists (d1{{ results := (results d){{ provisionerJobLogs := provisionerJobLogs (results d) ++ new }} }}), new.
  split_and!; [|exact Hr1|done|done|exact Hrows|exact Hids|by apply Hread|by apply Hnum'].
  unfold UpdateJob. run. unfold get. run. rewrite bool_decide_false by done. rewrite Ho. cbn [negb]. run.
  assert (Hlogs : update_logs Publish id (uj_Logs req) (mkSt d1 ev k) =
    (mkSt (with_logs new d1) (ev ++ [PublishLogs id (first - 1) false]) k, Ok tt)).
  { unfold update_logs. destruct (uj_Logs req) as [|x l]; [done|]. run.
    erewrite run_bind; [|apply run_context, run_db, Hins]. destruct new as [|n1 new']; [done|]. injection Hn0 as ->.
    cbv beta iota. rewrite Hfirst. apply run_context, run_publish, Hpub. }
  run. rewrite Ht, Hr, Hv. done.
Qed.

(** *** [CompleteJob] *)









End Facts.
