(* ===== verification/Unhanger.v ===== *)
(** * The hung job detector: [wirtuald/unhanger/detector.go]

    Jobs that were started and whose daemon has not updated them for five minutes
    are terminated as failed, with messages in their log.  The detector runs on a
    ticker; one run is modelled, each job in a transaction of its own. *)

From Stdlib Require Import Strings.Byte.
From S2P Require Import Prelude GoTime Db DbBuild Resources.

Definition HungJobDuration : Z := 5 * Minute.
Definition HungJobExitTimeout : Z := 3 * Minute.
Definition MaxJobsPerRun : nat := 10.

Definition HungJobLogMessages : list string :=
  [""; "===================="; "Coder: Build has been detected as hung for 5 minutes and will be terminated.";
   "===================="; ""]%string.

Definition hung_error : string :=
  "Coder: Build has been detected as hung for 5 minutes and has been terminated by hang detector.".

Section Detector.
(** [time.Now] and [dbtime.Now], read once per job, and the pubsub. *)
Context (now : Time) (Publish : Event -> result unit).

(** The messages' rows: a millisecond apart, in the stage of the last log. *)
Definition hung_logs (logs : list ProvisionerJobLog) : list NewLog :=
  let stage := match last logs with Some l => jl_Stage l | None => "" end in
  let stage := if String.eqb stage "" then "Unknown"%string else stage in
  number_from (fun i msg => mkNewLog (Add now (Millisecond * i)) LogSourceProvisionerDaemon LogLevelError stage msg) 0 HungJobLogMessages.

(** Copying the provisioner state of the build before. *)
Definition copy_state (build : WorkspaceBuild) : SM unit :=
  match wb_ProvisionerState build with
  | _ :: _ => mret tt
  | [] =>
      prevBuild ← try (db (db_read (GetWorkspaceBuildByWorkspaceIDAndBuildNumber (wb_WorkspaceID build) (wraps 32 (wb_BuildNumber build - 1)))));
      match prevBuild with
      | Err e => if String.eqb e ErrNoRows then mret tt else throw ("get previous workspace build: " +:+ e)
      | Ok prev =>
          context "update workspace build by id"
            (db (UpdateWorkspaceBuildProvisionerStateByID (wb_ID build) now (wb_ProvisionerState prev)))
      end
  end.

(** The transaction; the result is the lowest ID of the new logs.  [locked]: the
    job's advisory lock was free. *)
Definition unhang_tx (locked : bool) (jobID : uuid) : SM Z :=
  if negb locked then throw "lock is held by another client"
  else
    job ← context "get provisioner job" (db (db_read (getProvisionerJobByIDNoLock jobID)));
    if negb (nt_Valid (pj_StartedAt job)) then
      throw "job is no longer eligible to be terminated: job is not started"
    else if nt_Valid (pj_CompletedAt job) then
      throw "job is no longer eligible to be terminated: job is completed"
    else if After (pj_UpdatedAt job) (Add now (- HungJobDuration)) then
      throw "job is no longer eligible to be terminated: job has been updated recently"
    else
      logs ← context "get logs for hung job" (db (db_read (GetProvisionerLogsAfterID (pj_ID job) 0)));
      newLogs ← context "insert logs for hung job" (db (InsertProvisionerJobLogs (pj_ID job) (hung_logs logs)));
      _ ← context "mark job as failed"
            (db (UpdateProvisionerJobWithCompleteByID (pj_ID job) now (mkNullTime now true)
                   (mkNullString hung_error true) (mkNullString "" false)));
      _ ← (if bool_decide (pj_Type job = JobWorkspaceBuild) then
             build ← context "get workspace build for workspace build job by job id"
                       (db (db_read (GetWorkspaceBuildByJobID (pj_ID job))));
             copy_state build
           else mret tt);
      match newLogs with
      | [] => throw "panic: index out of range"
      | first :: _ => mret (jl_ID first)
      end.

Definition unhangJob (locked : bool) (jobID : uuid) : SM unit :=
  lowestLogID ← context "in tx" (unhang_tx locked jobID);
  context "publish log notification"
    (_ ← lift (Publish (PublishLogs jobID (lowestLogID - 1) true)); emit (PublishLogs jobID (lowestLogID - 1) true)).

(** The loop over the jobs: an error is logged and the next job is tried. *)
Fixpoint unhang_all (locked : uuid -> bool) (jobs : list ProvisionerJob) : SM (list uuid) :=
  match jobs with
  | [] => mret []
  | job :: jobs =>
      r ← try (unhangJob (locked (pj_ID job)) (pj_ID job));
      ids ← unhang_all locked jobs;
      mret (match r with Ok _ => pj_ID job :: ids | Err _ => ids end)
  end.

(** [run]; [shuffle] is [rand.Shuffle], any order of the jobs. *)
Definition run (shuffle : list ProvisionerJob -> list ProvisionerJob) (locked : uuid -> bool) (t : Time) : SM (list uuid) :=
  jobs ← db (db_read (fun d => Ok (GetHungProvisionerJobs (Add t (- HungJobDuration)) d)));
  unhang_all locked (if Nat.ltb MaxJobsPerRun (length jobs) then firstn MaxJobsPerRun (shuffle jobs) else jobs).
End Detector.

(** * Theorems *)

Lemma state_jobs id t state : keeps jobs_kept (db (UpdateWorkspaceBuildProvisionerStateByID id t state)).
Proof.
  apply keeps_db. intros d. unfold UpdateWorkspaceBuildProvisionerStateByID, update_table, mbind, DB_bind.
  by destruct (update_first _ _ _) as [[? ?]|].
Qed.
#[export] Hint Resolve state_jobs : keeps.

Section Facts.
Context (now : Time) (Publish : Event -> result unit).
Implicit Types (st : St) (job : ProvisionerJob) (locked : uuid -> bool).

(** Started, not completed, and not heard of for [HungJobDuration]. *)
Definition hung (job : ProvisionerJob) : bool :=
  nt_Valid (pj_StartedAt job) && negb (nt_Valid (pj_CompletedAt job)) && negb (After (pj_UpdatedAt job) (Add now (- HungJobDuration))).

(** The row of a job that the detector ended; it failed. *)
Definition hung_job (job : ProvisionerJob) : ProvisionerJob :=
  ended_job now (mkNullString hung_error true) (mkNullString "" false) job.

Lemma hung_job_status job : pj_JobStatus (hung_job job) = JobFailed /\ hung (hung_job job) = false.
Proof. split; [done|]. unfold hung. simpl. by rewrite andb_false_r. Qed.

Lemma copy_state_jobs build : keeps jobs_kept (copy_state now build).
Proof. unfold copy_state. keep. Qed.
Hint Resolve copy_state_jobs : keeps.

(** The transaction refuses a job that is not hung, or whose lock is held. *)
Lemma unhang_tx_refused free id d ev k :
  (forall job, getProvisionerJobByIDNoLock id d = Ok job -> free && hung job = false) ->
  exists e, unhang_tx now free id (mkSt d ev k) = (mkSt d ev k, Err e).
Proof.
  intros Hno. unfold unhang_tx. destruct free; [|by eexists]. cbn [negb].
  destruct (getProvisionerJobByIDNoLock id d) as [job|e] eqn:Hj.
  2: { eexists. apply run_fails. unfold context, db, db_read. simpl. by rewrite Hj. }
  erewrite run_bind; [|apply run_context, run_read; exact Hj]. cbv beta. specialize (Hno job eq_refl). unfold hung in Hno.
  destruct (nt_Valid (pj_StartedAt job)); [|by eexists]. destruct (nt_Valid (pj_CompletedAt job)); [by eexists|].
  destruct (After _ _); [by eexists|done].
Qed.

(** Otherwise it logs, ends the job, and goes on without touching the jobs. *)
Lemma unhang_tx_ends id job d ev k :
  getProvisionerJobByIDNoLock id d = Ok job -> hung job = true ->
  exists d1 (rest : SM Z), job_becomes d id (hung_job job) d1 /\ keeps jobs_kept rest /\
    unhang_tx now true id (mkSt d ev k) = rest (mkSt d1 ev k).
Proof.
  intros Hj Hh. unfold hung in Hh. bool_to_prop.
  assert (Eid : pj_ID job = id).
  { unfold getProvisionerJobByIDNoLock in Hj. destruct (find_first _ _) as [x|] eqn:E; [|done]. injection Hj as ->.
    apply find_first_Some in E as [_ E]. by apply N.eqb_eq. }
  set (mine := List.filter (fun l => (jl_JobID l =? id)%N && negb (jl_ID l <=? 0)) (provisionerJobLogs (results d))).
  destruct (insert_logs id (hung_logs now mine) d) as (first & Ei & _); [done|]. set (d1 := with_logs _ d) in *.
  destruct (end_job id now (mkNullString hung_error true) (mkNullString "" false) d1 job Hj) as (l & Ee & Hr).
  unfold unhang_tx. cbn [negb]. erewrite run_bind; [|apply run_context, run_read; exact Hj]. cbv beta.
  repeat match goal with H : nt_Valid _ = _ |- _ => rewrite H | H : After _ _ = _ |- _ => rewrite H end. cbn [negb].
  rewrite Eid. erewrite run_bind; [|apply run_context, run_read; reflexivity]. cbv beta. cbn [st_data]. fold mine.
  erewrite run_bind; [|apply run_context, run_db; exact Ei]. cbv beta. erewrite run_bind; [|apply run_context, run_db; exact Ee]. cbv beta.
  exists (set_jobs l d1). eexists. split; [exact Hr|]. split; [|reflexivity]. keep.
Qed.

(** One job: it is ended when it is hung and its lock is free, whatever happens
    after; else nothing happens. *)
Lemma unhangJob_spec free id st :
  let r := unhangJob now Publish free id st in
  (exists job, getProvisionerJobByIDNoLock id (st_data st) = Ok job /\ free && hung job = true /\
     job_becomes (st_data st) id (hung_job job) (st_data r.1)) \/
  ((forall job, getProvisionerJobByIDNoLock id (st_data st) = Ok job -> free && hung job = false) /\ exists e, r = (st, Err e)).
Proof.
  destruct st as [d ev k]. cbn [st_data]. cbv zeta.
  assert (Hcase : (exists job, getProvisionerJobByIDNoLock id d = Ok job /\ free && hung job = true) \/
    (forall job, getProvisionerJobByIDNoLock id d = Ok job -> free && hung job = false)).
  { destruct (getProvisionerJobByIDNoLock id d) as [job|]; [|by right].
    destruct (free && hung job) eqn:E; [by left; exists job|by right; intros ? [= <-]]. }
  destruct Hcase as [(job & Hj & Hh)|Hno]; [left|right].
  - exists job. split; [done|]. split; [done|]. apply andb_true_iff in Hh as [-> Hh].
    destruct (unhang_tx_ends id job d ev k Hj Hh) as (d1 & rest & Hr & Hk & E).
    intros i. rewrite <- Hr. unfold getProvisionerJobByIDNoLock. do 2 f_equal. unfold unhangJob.
    set (finish := fun lowestLogID => context "publish log notification"
      (_ ← lift (Publish (PublishLogs id (lowestLogID - 1) true)); emit (PublishLogs id (lowestLogID - 1) true))).
    assert (Hall : keeps jobs_kept (context "in tx" rest ≫= finish)) by (unfold finish; keep).
    assert (Ef : (context "in tx" (unhang_tx now true id) ≫= finish) (mkSt d ev k) = (context "in tx" rest ≫= finish) (mkSt d1 ev k)).
    { unfold mbind, SM_bind, context. by rewrite E. }
    rewrite Ef. exact (Hall (mkSt d1 ev k)).
  - split; [done|]. destruct (unhang_tx_refused free id d ev k Hno) as [e E]. eexists. unfold unhangJob. apply run_fails.
    unfold context. by rewrite E.
Qed.

(** What a pass does to the job of an ID: nothing, or it ends it; a job that is
    hung, and visited with its lock free, is ended. *)
Definition passed (id : uuid) (visited : Prop) (d d' : Data) : Prop :=
  match getProvisionerJobByIDNoLock id d with
  | Ok job =>
      (getProvisionerJobByIDNoLock id d' = Ok job /\ ~ (visited /\ hung job = true)) \/
      (hung job = true /\ getProvisionerJobByIDNoLock id d' = Ok (hung_job job))
  | Err e => getProvisionerJobByIDNoLock id d' = Err e
  end.

Lemma unhang_all_cons locked j jobs st :
  unhang_all now Publish locked (j :: jobs) st =
  let '(st1, r1) := unhangJob now Publish (locked (pj_ID j)) (pj_ID j) st in
  let '(st2, r2) := unhang_all now Publish locked jobs st1 in
  (st2, (fun ids => match r1 with Ok _ => pj_ID j :: ids | Err _ => ids end) <$> r2).
Proof.
  cbn [unhang_all]. unfold try, mbind, SM_bind. destruct (unhangJob _ _ _ _ st) as [st1 r1].
  by destruct (unhang_all now Publish locked jobs st1) as [st2 [ids|e]].
Qed.

Lemma unhang_all_spec locked jobs st id :
  (exists ids, (unhang_all now Publish locked jobs st).2 = Ok ids) /\
  passed id (id ∈ pj_ID <$> jobs /\ locked id = true) (st_data st) (st_data (unhang_all now Publish locked jobs st).1).
Proof.
  revert st. induction jobs as [|j jobs IH]; intros st.
  - split; [by eexists|]. unfold passed. simpl. destruct (getProvisionerJobByIDNoLock id _); [left|done]. split; [done|set_solver].
  - rewrite unhang_all_cons. pose proof (unhangJob_spec (locked (pj_ID j)) (pj_ID j) st) as Hone. cbv zeta in Hone.
    destruct (unhangJob now Publish _ _ st) as [st1 r1]. cbn [fst] in Hone.
    destruct (IH st1) as [[ids Hids] Hrest]. destruct (unhang_all now Publish locked jobs st1) as [st2 r2].
    cbn [fst snd] in *. subst r2. split; [by eexists|].
    unfold passed in *. rewrite fmap_cons.
    destruct Hone as [(job & Hj & Hh & Hb)|(Hno & e & [= -> ->])].
    + rewrite Hb in Hrest. apply andb_true_iff in Hh as [Hl Hh]. destruct (id =? pj_ID j)%N eqn:Eid.
      * apply N.eqb_eq in Eid as ->. rewrite Hj. right. split; [done|].
        destruct Hrest as [[? _]|[Hc _]]; [done|]. by rewrite (proj2 (hung_job_status job)) in Hc.
      * destruct (getProvisionerJobByIDNoLock id (st_data st)) as [job'|]; [|done]. destruct Hrest as [[? Hn]|?]; [left|by right].
        split; [done|]. intros ([[->|Hin]%elem_of_cons ?] & ?); [by rewrite N.eqb_refl in Eid|by apply Hn].
    + destruct (getProvisionerJobByIDNoLock id (st_data st)) as [job'|] eqn:Ej; [|done]. destruct Hrest as [[? Hn]|?]; [left|by right].
      split; [done|]. intros ([[->|Hin]%elem_of_cons Hl] & Hh); [|by apply Hn].
      specialize (Hno _ Ej). by rewrite Hl, Hh in Hno.
Qed.

Lemma run_spec shuffle locked t st id :
  let jobs := GetHungProvisionerJobs (Add t (- HungJobDuration)) (st_data st) in
  let visited := if (MaxJobsPerRun <? length jobs)%nat then firstn MaxJobsPerRun (shuffle jobs) else jobs in
  (exists ids, (run now Publish shuffle locked t st).2 = Ok ids) /\
  passed id (id ∈ pj_ID <$> visited /\ locked id = true) (st_data st) (st_data (run now Publish shuffle locked t st).1).
Proof. cbv zeta. unfold run. erewrite run_bind; [|apply run_read; reflexivity]. apply unhang_all_spec. Qed.

(** C6: a run of the detector.  It always returns.  A job that it changes was
    started, not completed and not updated for five minutes, and the job is then failed,
    completed now, with the detector's error; every other job reads as before.
    When at most ten jobs are hung and no lock is held, every job that was hung
    at the tick is ended. *)
Theorem run_ends_hung shuffle locked t st id :
  let st' := (run now Publish shuffle locked t st).1 in
  (exists ids, (run now Publish shuffle locked t st).2 = Ok ids) /\
  match getProvisionerJobByIDNoLock id (st_data st) with
  | Ok job =>
      (getProvisionerJobByIDNoLock id (st_data st') = Ok job \/
       hung job = true /\ getProvisionerJobByIDNoLock id (st_data st') = Ok (hung_job job)) /\
      (nt_Valid (pj_StartedAt job) = true -> nt_Valid (pj_CompletedAt job) = false ->
       t_ns (pj_UpdatedAt job) < t_ns t - HungJobDuration -> t_ns t <= t_ns now -> locked id = true ->
       (length (GetHungProvisionerJobs (Add t (- HungJobDuration)) (st_data st)) <= MaxJobsPerRun)%nat ->
       getProvisionerJobByIDNoLock id (st_data st') = Ok (hung_job job))
  | Err e => getProvisionerJobByIDNoLock id (st_data st') = Err e
  end.
Proof.
  destruct (run_spec shuffle locked t st id) as [Hr Hp]. cbv zeta in *. split; [exact Hr|]. unfold passed in Hp.
  set (jobs := GetHungProvisionerJobs _ _) in *. destruct (getProvisionerJobByIDNoLock id (st_data st)) as [job|] eqn:Ej; [|done].
  split; [tauto|]. intros Hs Hc Hu Ht Hl Hlen. destruct Hp as [[_ Hn]|[_ Hp]]; [|done]. exfalso. apply Hn.
  assert (Hh : hung job = true) by (unfold hung, After; rewrite Hs, Hc; cbn [negb andb]; unfold Add; simpl; lia).
  split; [split|]; [|done|done]. replace (MaxJobsPerRun <? length jobs)%nat with false by lia.
  unfold getProvisionerJobByIDNoLock in Ej. destruct (find_first _ _) as [x|] eqn:E; [|done]. injection Ej as ->.
  apply find_first_Some in E as [Hin Eid%N.eqb_eq]. rewrite <- Eid. apply list_elem_of_fmap_2. unfold jobs, GetHungProvisionerJobs.
  apply list_elem_of_In, filter_In. split; [by apply list_elem_of_In|]. unfold Before, Add. rewrite Hs, Hc. simpl. lia.
Qed.
End Facts.
