(* ===== verification/CancelBuild.v ===== *)
(** * Cancelling a build: [patchCancelWorkspaceBuild] of [wirtuald/workspacebuilds.go]

    The handler reads the job, checks it and then writes its row.  The two are
    separate calls of the store, with no transaction around them. *)

From S2P Require Import Prelude GoTime Db DbBuild Resources.

Definition RoleOwner : string := "owner".

Definition verifyUserCanCancelWorkspaceBuilds (userID templateID : uuid) (d : Data) : result bool :=
  match getTemplateByIDNoLock templateID d with
  | Err _ => Err "no template exists for this workspace"
  | Ok template =>
      if tpl_AllowUserCancelWorkspaceJobs template then Ok true
      else match getUserByIDNoLock userID d with
           | Err _ => Err "user does not exist"
           | Ok user => Ok (existsb (String.eqb RoleOwner) (u_RBACRoles user))
           end
  end.

(** The reads and the checks: an HTTP status, or the workspace and the job to be canceled. *)
Definition cancel_check (userID : uuid) (workspaceBuild : WorkspaceBuild) (d : Data) : Z + WorkspaceTable * ProvisionerJob :=
  match getWorkspaceByIDNoLock (wb_WorkspaceID workspaceBuild) d with
  | Err _ => inl 500
  | Ok workspace =>
      match verifyUserCanCancelWorkspaceBuilds userID (ws_TemplateID workspace) d with
      | Err _ => inl 500
      | Ok false => inl 403
      | Ok true =>
          match getProvisionerJobByIDNoLock (wb_JobID workspaceBuild) d with
          | Err _ => inl 500
          | Ok job =>
              if nt_Valid (pj_CompletedAt job) then inl 400
              else if nt_Valid (pj_CanceledAt job) then inl 400
              else inr (workspace, job)
          end
      end
  end.

(** The write, and the response: a running job is not marked completed. *)
Definition cancel_write (now : Time) (Publish : Event -> result unit) (workspace : WorkspaceTable) (job : ProvisionerJob) : SM Z :=
  r ← try (db (UpdateProvisionerJobWithCancelByID (pj_ID job) (mkNullTime now true)
                 (mkNullTime now (bool_decide (pj_WorkerID job = None)))));
  match r with
  | Err _ => mret 500
  | Ok _ =>
      let event := PublishWorkspace (ws_OwnerID workspace) KindStateChange (ws_ID workspace) in
      _ ← try (_ ← lift (Publish event); emit event);
      mret 200
  end.

Definition patchCancelWorkspaceBuild (now : Time) (Publish : Event -> result unit) (userID : uuid) (workspaceBuild : WorkspaceBuild)
    : SM Z := fun s =>
  match cancel_check userID workspaceBuild (st_data s) with
  | inl status => (s, Ok status)
  | inr (workspace, job) => cancel_write now Publish workspace job s
  end.
