(* ===== verification/Lifecycle.v ===== *)
(** * The life of workspace builds

    The parts that act on builds and their jobs, put together: users and the
    executor build through [Builder], daemons acquire jobs from the queue in [Db]
    and report through [ProvisionerServer], users cancel through [CancelBuild],
    and [Unhanger] ends jobs whose daemon went silent.  Each handler's calls are
    taken together; what goes wrong when they interleave is shown at the end. *)

From Stdlib Require Import Strings.Byte.
From S2P Require Import Prelude GoTime GoStrings GoEncoding GoJson Cron Tags Db DbBuild Schedule Autobuild Parameters Builder BuildRun Resources ProvisionerServer Unhanger CancelBuild.

(** ** The payload of a build's job *)

(** The server reads what the builder wrote.  The JSON text that [Builder] puts
    into the input of a job decodes to the build's ID and the log level, whatever
    characters the level has, as long as the ID's text parses to the ID. *)
Lemma provision_job_roundtrip `{UuidText, UuidParse} buildID logLevel :
  uuid_Parse (uuid_String buildID) = Ok buildID ->
  unmarshal_provision_job (provision_job_input buildID logLevel) = Ok (mkProvisionJob buildID false logLevel).
Proof.
  intros Hid. pose (level := if nonempty logLevel then [("log_level", json_string logLevel, JString logLevel)]%string else []).
  assert (E : provision_job_input buildID logLevel = json_object (fst <$>
    [("workspace_build_id", json_string (uuid_String buildID), JString (uuid_String buildID)); ("dry_run", "false", JBool false)]%string ++ level)).
  { unfold provision_job_input, level. by destruct (nonempty logLevel). }
  unfold unmarshal_provision_job. rewrite E, parse_json_object; [|done|].
  2: { apply Forall_app. split; [constructor; [apply text_of_string|constructor; [apply text_of_false|constructor]]|].
       unfold level. destruct (nonempty logLevel); [constructor; [apply text_of_string|constructor]|constructor]. }
  unfold level. destruct (nonempty logLevel) eqn:El; unfold value_of, unmarshal_struct; simpl;
    unfold set_provision_job at 1; simpl; rewrite Hid; simpl; [done|].
  by apply negb_false_iff, String.eqb_eq in El as ->.
Qed.

(** ** How jobs and builds evolve *)

(** A build keeps its identity. *)
Definition same_build (b b' : WorkspaceBuild) : Prop :=
  wb_ID b' = wb_ID b /\ wb_WorkspaceID b' = wb_WorkspaceID b /\ wb_BuildNumber b' = wb_BuildNumber b /\ wb_JobID b' = wb_JobID b.

(** A job keeps its ID, and once completed it stays so; its status column follows
    its other columns. *)
Definition consistent (j : ProvisionerJob) : Prop := pj_JobStatus j = provisionerJobStatus j.
Definition later_job (j j' : ProvisionerJob) : Prop :=
  pj_ID j' = pj_ID j /\ (nt_Valid (pj_CompletedAt j) = true -> nt_Valid (pj_CompletedAt j') = true) /\
  (consistent j -> consistent j').

#[export] Instance same_build_refl : Reflexive same_build.
Proof. intros b. by split_and!. Qed.
#[export] Instance same_build_trans : Transitive same_build.
Proof. intros b1 b2 b3 (? & ? & ? & ?) (? & ? & ? & ?). split_and!; congruence. Qed.
#[export] Instance later_job_refl : Reflexive later_job.
Proof. intros j. by split_and!. Qed.
#[export] Instance later_job_trans : Transitive later_job.
Proof. intros j1 j2 j3 (? & ? & ?) (? & ? & ?). split_and!; [congruence|auto|auto]. Qed.

(** No build or job is added or lost. *)
Record evolves (d d' : Data) : Prop := {
  ev_builds : Forall2 same_build (workspaceBuilds d) (workspaceBuilds d');
  ev_jobs : Forall2 later_job (provisionerJobs d) (provisionerJobs d');
}.
#[export] Instance evolves_refl : Reflexive evolves.
Proof. intros d. by split. Qed.
#[export] Instance evolves_trans : Transitive evolves.
Proof. intros d1 d2 d3 [] []. split; by etransitivity. Qed.

Lemma evolves_tables d d' :
  workspaceBuilds d' = workspaceBuilds d -> provisionerJobs d' = provisionerJobs d -> evolves d d'.
Proof. intros E1 E2. split; rewrite ?E1, ?E2; done. Qed.

Lemma evolves_only_results d d' : only_results d d' -> evolves d d'.
Proof. intros [r ->]. by apply evolves_tables. Qed.

Lemma keeps_evolves {A} (m : SM A) : keeps only_results m -> keeps evolves m.
Proof. intros Hm s. by apply evolves_only_results. Qed.

(** Whether a job is active is whether it is completed. *)
Lemma consistent_active j : consistent j -> status_Active (pj_JobStatus j) = negb (nt_Valid (pj_CompletedAt j)).
Proof.
  unfold consistent, provisionerJobStatus. intros ->.
  destruct (nt_Valid (pj_CompletedAt j)), (nt_Valid (pj_CanceledAt j)), (nt_Valid (pj_StartedAt j)); try done; by case_match.
Qed.

Section Evolves.
Context (d d' : Data) (Hev : evolves d d').

Lemma evolves_job_found id j :
  getProvisionerJobByIDNoLock id d = Ok j ->
  exists j', getProvisionerJobByIDNoLock id d' = Ok j' /\ later_job j j'.
Proof.
  unfold getProvisionerJobByIDNoLock. destruct (ev_jobs _ _ Hev) as [|x x' l l' Hx Hl]; [done|].
  revert x x' Hx. induction Hl as [|y y' l l' Hy Hl IH]; intros x x' Hx; simpl.
  - destruct Hx as (E & ?). rewrite E. destruct (pj_ID x =? id)%N; [|done]. intros [= <-]. by exists x'.
  - pose proof Hx as (E & _). rewrite E. destruct (pj_ID x =? id)%N; [intros [= <-]; by exists x'|]. apply (IH y y' Hy).
Qed.

Lemma evolves_build b' : b' ∈ workspaceBuilds d' -> exists b, b ∈ workspaceBuilds d /\ same_build b b'.
Proof.
  intros [i Hi]%list_elem_of_lookup. destruct (Forall2_lookup_r _ _ _ _ _ (ev_builds _ _ Hev) Hi) as (b & Hb & Hs).
  exists b. split; [by apply list_elem_of_lookup; exists i|done].
Qed.

Lemma evolves_consistent : jobs_ok d -> jobs_ok d'.
Proof.
  intros [Hnd Hst]. pose proof (ev_jobs _ _ Hev) as Hj. split.
  - replace (pj_ID <$> provisionerJobs d') with (pj_ID <$> provisionerJobs d); [done|].
    clear Hnd Hst. induction Hj as [|x x' l l' (E & _) _ IH]; [done|]. rewrite !fmap_cons. by rewrite E, IH.
  - clear Hnd. induction Hj as [|x x' l l' (_ & _ & Hc) _ IH]; [constructor|]. apply Forall_cons in Hst as [].
    constructor; [by apply Hc|by apply IH].
Qed.

Lemma evolves_in_order n : in_order n d -> in_order n d'.
Proof.
  intros [Hjobs Hok Hn].
  assert (Hfin : forall x x', same_build x x' -> finished d x -> finished d' x').
  { intros x x' (_ & _ & _ & Ej) (j & Hj & Ha). destruct (evolves_job_found _ _ Hj) as (j' & Hj' & _ & Hc & Hs).
    exists j'. unfold job_of. rewrite Ej. split; [done|].
    assert (Hjc : consistent j).
    { unfold job_of, getProvisionerJobByIDNoLock in Hj. destruct (find_first _ _) as [k|] eqn:E; [|done].
      injection Hj as <-. apply find_first_Some in E as [E _]. by apply (proj1 (Forall_forall _ _) (jobs_status _ Hjobs)). }
    rewrite consistent_active in Ha by done. rewrite consistent_active by auto.
    apply negb_false_iff in Ha. rewrite Hc by done. done. }
  split; [by apply evolves_consistent|split|].
  - replace (wb_ID <$> workspaceBuilds d') with (wb_ID <$> workspaceBuilds d); [apply Hok|].
    pose proof (ev_builds _ _ Hev) as Hb. clear -Hb. induction Hb as [|x x' l l' (E & _) _ IH]; [done|].
    rewrite !fmap_cons. by rewrite E, IH.
  - intros x' y' [i Hx]%list_elem_of_lookup [k Hy]%list_elem_of_lookup Ew En.
    destruct (Forall2_lookup_r _ _ _ _ _ (ev_builds _ _ Hev) Hx) as (x & Hx0 & _ & Exw & Exn & _).
    destruct (Forall2_lookup_r _ _ _ _ _ (ev_builds _ _ Hev) Hy) as (y & Hy0 & _ & Eyw & Eyn & _).
    assert (x = y) as ->.
    { apply (bo_numbers _ Hok); [by apply list_elem_of_lookup; exists i|by apply list_elem_of_lookup; exists k|congruence|congruence]. }
    assert (i = k) as ->; [|congruence].
    apply (NoDup_lookup (wb_ID <$> workspaceBuilds d) i k (wb_ID y)); [apply Hok| |]; by rewrite list_lookup_fmap, ?Hx0, ?Hy0.
  - intros x' (x & Hx & _ & _ & -> & _)%evolves_build. by apply (bo_positive _ Hok).
  - intros x' (x & Hx & _ & _ & _ & Ej)%evolves_build. destruct (bo_jobs _ Hok x Hx) as [j Hj].
    destruct (evolves_job_found _ _ Hj) as (j' & Hj' & _). exists j'. unfold job_of. by rewrite Ej.
  - intros x' y' (x & Hx & Hxs)%evolves_build (y & Hy & Hys)%evolves_build Ew En. apply (Hfin x x' Hxs).
    destruct Hxs as (_ & Exw & Exn & _), Hys as (_ & Eyw & Eyn & _). apply (bo_last _ Hok x y Hx Hy); [congruence|lia].
  - intros x' (x & Hx & _ & _ & -> & _)%evolves_build. by apply Hn.
Qed.
End Evolves.

(** ** Every call evolves the store *)

Lemma update_builds_evolves p f :
  (forall b, same_build b (f b)) -> keeps evolves (db (_ ← update_table workspaceBuilds set_builds p f; mret tt)).
Proof.
  intros Hf. apply keeps_db. intros d. unfold mbind, DB_bind, update_table.
  destruct (update_first p f (workspaceBuilds d)) as [[x l]|] eqn:E; [|reflexivity].
  split; simpl; [|reflexivity]. eapply (update_first_Forall2 same_build); [exact E|]. auto.
Qed.

(** A table of its own. *)
Lemma update_other_evolves {A} (get : Data -> list A) set p f :
  (forall l d, workspaceBuilds (set l d) = workspaceBuilds d) -> (forall l d, provisionerJobs (set l d) = provisionerJobs d) ->
  keeps evolves (db (_ ← update_table get set p f; mret tt)).
Proof.
  intros Hb Hj. apply keeps_db. intros d. unfold mbind, DB_bind, update_table.
  destruct (update_first p f (get d)) as [[x l]|]; [apply evolves_tables; [apply Hb|apply Hj]|reflexivity].
Qed.

Lemma update_job_evolves id f d :
  (forall j, j ∈ provisionerJobs d -> (id =? pj_ID j)%N = true -> pj_ID (f j) = pj_ID j /\
     (nt_Valid (pj_CompletedAt j) = true -> nt_Valid (pj_CompletedAt (f j)) = true)) ->
  evolves d (update_job id f d).1.
Proof.
  intros Hf. unfold update_job, mbind, DB_bind, update_table.
  destruct (update_first _ _ (provisionerJobs d)) as [[x l]|] eqn:E; [|reflexivity].
  split; [by apply Forall_Forall2_diag, Forall_true|]. simpl.
  apply update_first_split in E as (l1 & y & l2 & Hd & Hy & _ & _ & ->). rewrite Hd in *.
  apply Forall2_app; [by apply Forall_Forall2_diag, Forall_true|].
  constructor; [|by apply Forall_Forall2_diag, Forall_true].
  destruct (Hf y ltac:(set_solver) Hy) as [Hid Hc]. split; [by rewrite <- Hid|]. split; [exact Hc|]. intros _. done.
Qed.

Lemma UpdateJobByID_evolves id t : keeps evolves (db (UpdateProvisionerJobByID id t)).
Proof. apply keeps_db. intros d. by apply update_job_evolves. Qed.

Lemma Complete_evolves id t ct e c : keeps evolves (db (UpdateProvisionerJobWithCompleteByID id t (mkNullTime ct true) e c)).
Proof. apply keeps_db. intros d. by apply update_job_evolves. Qed.

Lemma State_evolves id t st : keeps evolves (db (UpdateWorkspaceBuildProvisionerStateByID id t st)).
Proof. by apply update_builds_evolves. Qed.
Lemma Deadline_evolves id t dl ml : keeps evolves (db (UpdateWorkspaceBuildDeadlineByID id t dl ml)).
Proof. by apply update_builds_evolves. Qed.
Lemma Deleted_evolves id b : keeps evolves (db (UpdateWorkspaceDeletedByID id b)).
Proof. by apply update_other_evolves. Qed.
Lemma Description_evolves id r t : keeps evolves (db (UpdateTemplateVersionDescriptionByJobID id r t)).
Proof. by apply update_other_evolves. Qed.
Lemma AuthProviders_evolves id r t : keeps evolves (db (UpdateTemplateVersionExternalAuthProvidersByJobID id r t)).
Proof. by apply update_other_evolves. Qed.
Lemma InsertTag_evolves t : keeps evolves (db (InsertTemplateVersionWorkspaceTag t)).
Proof. apply keeps_db. intros d. by apply evolves_tables. Qed.
Lemma InsertParameter_evolves t : keeps evolves (db (InsertTemplateVersionParameter t)).
Proof. apply keeps_db. intros d. by apply evolves_tables. Qed.
Lemma on_results_evolves {A} (f : Results -> Results * result A) : keeps evolves (db (on_results f)).
Proof. apply keeps_evolves, on_results_only. Qed.

#[export] Hint Resolve UpdateJobByID_evolves Complete_evolves State_evolves Deadline_evolves Deleted_evolves Description_evolves
  AuthProviders_evolves InsertTag_evolves InsertParameter_evolves on_results_evolves : keeps.

Lemma keeps_drop {A} P (m : SM A) `{!Reflexive P, !Transitive P} : keeps P m -> keeps P (_ ← m; mret tt).
Proof. intros Hm. apply keeps_bind; [done|done|]. intros _. by apply keeps_ret. Qed.

Section Handlers.
Context `{CronLib, UuidText, UuidParse, UuidSupply, MapRange}.
Context (s : Server) (now : Time) (Publish : Event -> result unit).

Lemma publish_evolves e : keeps evolves (publish Publish e).
Proof. unfold publish. keep. Qed.
Hint Resolve publish_evolves : keeps.

Lemma InsertWorkspaceResource_evolves jobID tr r : keeps evolves (InsertWorkspaceResource uuid_Parse now jobID tr r).
Proof. apply keeps_evolves, InsertWorkspaceResource_only. Qed.
Lemma InsertWorkspaceModule_evolves jobID tr m : keeps evolves (InsertWorkspaceModule now jobID tr m).
Proof. apply keeps_evolves, InsertWorkspaceModule_only. Qed.
Hint Resolve InsertWorkspaceResource_evolves InsertWorkspaceModule_evolves : keeps.

Lemma UpdateJob_evolves req : keeps evolves (UpdateJob s now Publish req).
Proof.
  unfold UpdateJob, update_logs, update_tags, update_variables, ProvisionerServer.get, InsertProvisionerJobLogs,
    InsertTemplateVersionVariable. keep.
Qed.

Lemma FailJob_evolves req : keeps evolves (FailJob s now Publish req).
Proof.
  unfold FailJob, fail_build, fail_build_tx, fail_audit, audit_build, notifyWorkspaceBuildFailed, ProvisionerServer.get. keep.
Qed.

Lemma CompleteJob_evolves b1 b2 req : keeps evolves (CompleteJob s now Publish b1 b2 req).
Proof.
  unfold CompleteJob, complete_import, complete_build, complete_build_tx, complete_dry_run, insert_resources, insert_modules,
    notifyWorkspaceDeleted, audit_build, ProvisionerServer.get. keep.
Qed.

Lemma unhangJob_evolves locked id : keeps evolves (unhangJob now Publish locked id).
Proof. unfold unhangJob, unhang_tx, copy_state, InsertProvisionerJobLogs. keep. Qed.
Hint Resolve unhangJob_evolves : keeps.

Lemma unhang_all_evolves locked jobs : keeps evolves (unhang_all now Publish locked jobs).
Proof. induction jobs as [|j jobs IH]; simpl; keep. Qed.
Hint Resolve unhang_all_evolves : keeps.

Lemma run_evolves shuffle locked t : keeps evolves (run now Publish shuffle locked t).
Proof. unfold run. keep. Qed.
End Handlers.

(** ** Cancelling, acquiring and inserting jobs *)

Lemma cancel_evolves now Publish user bld s :
  jobs_ok (st_data s) -> evolves (st_data s) (st_data (patchCancelWorkspaceBuild now Publish user bld s).1).
Proof.
  intros Hj. unfold patchCancelWorkspaceBuild, cancel_check.
  destruct (getWorkspaceByIDNoLock _ _) as [ws|]; [|reflexivity].
  destruct (verifyUserCanCancelWorkspaceBuilds _ _ _) as [[]|]; [|reflexivity..].
  destruct (getProvisionerJobByIDNoLock _ _) as [job|] eqn:E; [|reflexivity].
  destruct (nt_Valid (pj_CompletedAt job)) eqn:Hc; [reflexivity|]. destruct (nt_Valid (pj_CanceledAt job)); [reflexivity|].
  unfold cancel_write. revert s Hj E. destruct s as [d ev k]. simpl. intros Hj E.
  set (m := UpdateProvisionerJobWithCancelByID _ _ _).
  assert (Hm : evolves d (m d).1).
  { apply update_job_evolves. intros j Hin Hid. split; [done|]. intros Hv.
    unfold getProvisionerJobByIDNoLock in E. destruct (find_first _ _) as [k'|] eqn:Ek; [|done]. injection E as <-.
    apply find_first_Some in Ek as [Hk' _].
    assert (j = k') as ->; [|congruence].
    apply N.eqb_eq in Hid. by apply (NoDup_fmap_elem_of_inj pj_ID (provisionerJobs d) _ _ (jobs_nodup _ Hj)). }
  unfold mbind, SM_bind, try, db. simpl. destruct (m d) as [d' [u|e]]; [|exact Hm]. simpl in *.
  unfold lift, emit. by destruct (Publish _).
Qed.

Lemma acquire_evolves arg d : evolves d (AcquireProvisionerJob arg d).1.
Proof.
  destruct (AcquireProvisionerJob arg d) as [d' [j|e]] eqn:E.
  - apply acquire_spec in E as (tags & l1 & j0 & l2 & _ & Hd & _ & _ & _ & ->). simpl.
    split; simpl; [reflexivity|]. rewrite Hd. apply Forall2_app; [reflexivity|]. constructor; [|reflexivity].
    split; [done|]. split; [done|]. by intros _.
  - unfold AcquireProvisionerJob in E. destruct (acquire_loop _ _) as [[? ?]|]; [done|]. injection E as <- _. reflexivity.
Qed.

Lemma insert_job_in_order n arg d :
  ij_ID arg ∉ pj_ID <$> provisionerJobs d -> in_order n d -> in_order n (InsertProvisionerJob arg d).1.
Proof.
  intros Hid [Hj Hok Hn]. split; [|by apply builds_ok_jobs|done].
  apply (job_step_ok d); [by apply step_insert|done].
Qed.

(** ** The system *)

Section System.
Context `{CronLib, UuidText, UuidParse, UuidSupply, MapRange, BuilderLib, ProviderValidation}.
Implicit Types (d : Data) (s : Server) (Publish : Event -> result unit) (now : Time).

(** The calls that insert no build.  Each handler starts from any events and any
    number of UUIDs made. *)
Inductive call : Data -> Data -> Prop :=
(** another part of the server changes tables other than those of jobs and builds *)
| call_other d d' : workspaceBuilds d' = workspaceBuilds d -> provisionerJobs d' = provisionerJobs d -> call d d'
(** a template version's import or dry-run is queued *)
| call_insert arg d : ij_ID arg ∉ pj_ID <$> provisionerJobs d -> call d (InsertProvisionerJob arg d).1
| call_acquire arg d : call d (AcquireProvisionerJob arg d).1
| call_update s now Publish req d ev k : call d (st_data (UpdateJob s now Publish req (mkSt d ev k)).1)
| call_fail s now Publish req d ev k : call d (st_data (FailJob s now Publish req (mkSt d ev k)).1)
| call_complete s now Publish b1 b2 req d ev k : call d (st_data (CompleteJob s now Publish b1 b2 req (mkSt d ev k)).1)
| call_unhang now Publish shuffle locked t d ev k : call d (st_data (run now Publish shuffle locked t (mkSt d ev k)).1)
| call_cancel now Publish user bld d ev k : call d (st_data (patchCancelWorkspaceBuild now Publish user bld (mkSt d ev k)).1).

(** The calls that may insert one: a build that is asked for, with a builder whose
    cache holds nothing stale, and a workspace's turn in the executor's run. *)
Inductive builds : Data -> Data -> Prop :=
| builds_user authFunc buildID jobID now b d :
    coherent b d b -> buildID ∉ wb_ID <$> workspaceBuilds d -> jobID ∉ pj_ID <$> provisionerJobs d ->
    builds d (Builder.Build authFunc buildID jobID now b d).1.2
| builds_executor newBuildID newJobID `{!FreshIDs newBuildID newJobID} tss acs postJob now tick id stats ev d :
    builds d (process_row (H0 := executor_builder newBuildID newJobID now) tss acs postJob now tick id (d, stats, ev)).1.1.

(** The stores reached with [n] calls that may insert a build. *)
Inductive reachable (d0 : Data) : nat -> Data -> Prop :=
| reach_start : reachable d0 0 d0
| reach_call n d d' : reachable d0 n d -> call d d' -> reachable d0 n d'
| reach_build n d d' : reachable d0 n d -> builds d d' -> reachable d0 (S n) d'.

Lemma call_in_order n d d' : call d d' -> in_order n d -> in_order n d'.
Proof.
  intros Hc Hd. destruct Hc.
  - by eapply in_order_tables.
  - by apply insert_job_in_order.
  - eapply evolves_in_order; [apply acquire_evolves|done].
  - eapply evolves_in_order; [apply (UpdateJob_evolves s now Publish req (mkSt d ev k))|done].
  - eapply evolves_in_order; [apply (FailJob_evolves s now Publish req (mkSt d ev k))|done].
  - eapply evolves_in_order; [apply (CompleteJob_evolves s now Publish b1 b2 req (mkSt d ev k))|done].
  - eapply evolves_in_order; [apply (run_evolves now Publish shuffle locked t (mkSt d ev k))|done].
  - eapply evolves_in_order; [apply (cancel_evolves now Publish user bld (mkSt d ev k))|done]. apply Hd.
Qed.

Lemma builds_in_order n d d' : 1 < n < 2 ^ 31 -> builds d d' -> in_order n d -> in_order (n + 1) d'.
Proof.
  intros Hn Hb Hd. destruct Hb.
  - rewrite Build_buildTx. destruct Hd as [Hj Hok Hnum].
    destruct (buildTx _ _ _ _ b d) as [[b' d'] r] eqn:E.
    destruct (buildTx_ok n b d _ _ _ _ _ _ _ Hok Hnum Hn ltac:(done) ltac:(done) ltac:(done) E).
    pose proof (buildTx_jobs_ok _ _ _ _ _ _ _ _ _ Hj ltac:(done) ltac:(done) ltac:(done) E). by destruct r.
  - by apply (process_row_in_order newBuildID newJobID now tss acs postJob n tick id (d, stats, ev)).
Qed.

Lemma reachable_in_order d0 n d :
  reachable d0 n d -> in_order 2 d0 -> Z.of_nat n < 2 ^ 31 - 2 -> in_order (2 + Z.of_nat n) d.
Proof.
  intros Hr Hstart. induction Hr as [|n d d' _ IH Hc|n d d' _ IH Hb]; intros Hn; [done| |].
  - by eapply call_in_order; [|apply IH].
  - replace (2 + Z.of_nat (S n)) with (2 + Z.of_nat n + 1) by lia. apply (builds_in_order _ d); [lia|done|]. apply IH. lia.
Qed.

(** C1: at most one build of a workspace is active, through the whole life of its
    builds.  Take any sequence of builds by users and by the executor, of jobs
    acquired by daemons, of their updates, failures and completions, valid or
    not, of runs of the hung job detector, of cancellations and of any change of
    other tables, starting where the builds are in order (in a new deployment,
    say): as long as there were fewer than 2^31 builds, no workspace has two
    builds whose jobs are pending, running or being canceled, job IDs are unique
    and each job's status column follows from its other columns. *)
Theorem lifecycle_one_active d0 n d :
  reachable d0 n d -> in_order 2 d0 -> Z.of_nat n < 2 ^ 31 - 2 ->
  jobs_ok d /\
  forall x y, x ∈ workspaceBuilds d -> y ∈ workspaceBuilds d -> wb_WorkspaceID x = wb_WorkspaceID y ->
    ~ finished d x -> ~ finished d y -> x = y.
Proof.
  intros Hr Hstart Hn. destruct (reachable_in_order _ _ _ Hr Hstart Hn) as [Hj Hok _]. split; [done|].
  intros x y. by apply builds_ok_one_active.
Qed.
End System.

(** ** The heartbeat and the detector *)

(** C7: a daemon that reports is left alone.  When the daemon that runs a job made
    an update, whatever it held and however it ended, a run of the detector
    within five minutes keeps the job as the update left it. *)
Theorem heartbeat_protects `{CronLib, UuidText, UuidParse, UuidSupply, MapRange} s t0 now Publish Publish' req shuffle locked t st id job :
  uuid_Parse (uj_JobId req) = Ok id -> getProvisionerJobByIDNoLock id (st_data st) = Ok job ->
  pj_WorkerID job <> None -> owns s job = true -> t_ns now - HungJobDuration < t_ns t0 ->
  getProvisionerJobByIDNoLock id (st_data (run now Publish' shuffle locked t (UpdateJob s t0 Publish req st).1).1) =
    Ok (with_status (job{{ pj_UpdatedAt := t0 }})).
Proof.
  intros Hp Hj Hw Ho Ht. pose proof (UpdateJob_heartbeat s t0 Publish req st id job Hp Hj Hw Ho) as Hb.
  apply job_becomes_same in Hb. destruct (run_spec now Publish' shuffle locked t (UpdateJob s t0 Publish req st).1 id) as [_ Hr].
  unfold passed in Hr. rewrite Hb in Hr. destruct Hr as [[? _]|[Hh _]]; [done|].
  unfold hung, After, Add in Hh. simpl in Hh. bool_to_prop. lia.
Qed.

(** ** A life, and what interleaved calls do *)

Module Examples.
Import BuildRun.Examples.
#[export] Instance parse : UuidParse := {| uuid_Parse s := (Z.to_N <$> ParseInt 64 s) |}.
#[export] Instance supply : UuidSupply := {| uuid_supply n := (1000 + N.of_nat n)%N |}.
#[export] Instance cron : CronLib := DailyCron.lib.

Definition server : Server := mkServer 9 [] agplTemplateScheduleStore agplUserQuietHoursScheduleStore None.
Definition ok_publish : Event -> result unit := fun _ => Ok tt.
Definition at_ (minutes : Z) : Time := Add tick (minutes * Minute).
Definition fresh_st (d : Data) : St := mkSt d [] 0.

(** A user's build of the first workspace with the active version. *)
Definition build_of (tr : WorkspaceTransition) : Builder := Initiator 7 (ActiveVersion (New (example_workspace 1) tr)).
Definition user_build (tr : WorkspaceTransition) (buildID jobID : uuid) (now : Time) (d : Data) : Data :=
  (Builder.Build None buildID jobID now (build_of tr) d).1.2.
Definition acquire (worker : uuid) (now : Time) (d : Data) : Data :=
  (AcquireProvisionerJob (mkAcquire (mkNullTime now true) (Some worker) 5 [ProvisionerTerraform]
     (Some (Ok (<["scope" := "organization"]> (<["owner" := ""]> ∅))))) d).1.
Definition completed (jobID : string) : CompletedJob :=
  mkCompletedJob jobID (Some (CompletedWorkspaceBuild (mkCompletedBuild [] [] []))).
Definition complete (jobID : string) (now : Time) (d : Data) : St * result unit :=
  CompleteJob server now ok_publish true true (completed jobID) (fresh_st d).
Definition unhang (jobID : uuid) (now : Time) (d : Data) : St * result unit := unhangJob now ok_publish true jobID (fresh_st d).

(** Build 103 starts the first workspace, a daemon runs it and completes it. *)
Definition started : Data := user_build TransitionStart 103 42 tick store.
Definition running : Data := acquire 9 (at_ 1) started.
Definition succeeded : Data := st_data (complete "42" (at_ 2) running).1.

(** The running job, its build and their payload. *)
Definition running_job : ProvisionerJob := List.nth 2 (provisionerJobs running) example_done_job.
Definition running_build : WorkspaceBuild := List.nth 2 (workspaceBuilds running) Autobuild.Examples.due_build.


Definition log_of (text : string) : ProtoLog := mkProtoLog 1 2 1700000000000 "apply" text.
Definition log_request : UpdateJobRequest := mkUpdateJob "42" [log_of "a"; log_of "b"] [] [] "" ∅.

Lemma store_in_order : in_order 2 store.
Proof. split; [exact store_jobs_ok|exact store_builds_ok|exact store_numbers]. Qed.

Lemma succeeded_reachable : reachable store 1 succeeded.
Proof.
  assert (Hs : reachable store 1 started).
  { eapply reach_build; [apply reach_start|]. apply builds_user; [by split|..]; apply (bool_decide_unpack _); vm_compute; done. }
  eapply reach_call; [|apply call_complete]. eapply reach_call; [exact Hs|]. apply call_acquire.
Qed.
End Examples.

Import BuildRun.Examples Examples.

Lemma provision_job_roundtrip_witness :
  unmarshal_provision_job (provision_job_input 103 "a\b") = Ok (mkProvisionJob 103 false "a\b").
Proof. apply provision_job_roundtrip. vm_compute. reflexivity. Defined.

Lemma lifecycle_one_active_witness :
  (pj_JobStatus <$> provisionerJobs succeeded) = [JobSucceeded; JobSucceeded; JobSucceeded] /\ jobs_ok succeeded.
Proof.
  split; [vm_compute; reflexivity|].
  exact (proj1 (lifecycle_one_active store 1 succeeded succeeded_reachable store_in_order ltac:(lia))).
Defined.

Lemma only_owner_acts_witness :
  exists e, FailJob server (at_ 2) ok_publish (mkFailedJob "41" "late" "" FailedOther) (fresh_st running) = (fresh_st running, Err e).
Proof. apply (only_owner_acts server (at_ 2) ok_publish true true "41" (fresh_st running)); [vm_compute|]; reflexivity. Defined.


Lemma UpdateJob_logs_witness :
  (UpdateJob server (at_ 2) ok_publish log_request (fresh_st running)).2 = Ok (mkUpdateResponse false []).
Proof.
  destruct (convert_logs (uj_Logs log_request)) as [rows|] eqn:Erows; [|discriminate Erows].
  destruct (UpdateJob_logs server (at_ 2) ok_publish log_request (fresh_st running) 42 running_job rows) as (d' & new & E & _);
    [vm_compute; reflexivity|vm_compute; reflexivity|vm_compute; discriminate|vm_compute; reflexivity|discriminate|exact Erows
    |reflexivity|reflexivity|reflexivity|reflexivity|vm_compute; constructor|].
  rewrite E. vm_compute. reflexivity.
Defined.

Lemma run_ends_hung_witness :
  getProvisionerJobByIDNoLock 42 (st_data (Unhanger.run (at_ 10) ok_publish (fun l => l) (fun _ => true) (at_ 10) (fresh_st running)).1) =
    Ok (hung_job (at_ 10) running_job).
Proof.
  destruct (run_ends_hung (at_ 10) ok_publish (fun l => l) (fun _ => true) (at_ 10) (fresh_st running) 42) as [_ T].
  assert (E : getProvisionerJobByIDNoLock 42 (st_data (fresh_st running)) = Ok running_job) by (vm_compute; reflexivity).
  rewrite E in T. destruct T as [_ T]. apply T; [vm_compute; reflexivity..| |vm_compute; reflexivity|].
  - vm_compute. discriminate.
  - apply (bool_decide_unpack _). vm_compute. done.
Defined.

Lemma heartbeat_protects_witness :
  exists job, getProvisionerJobByIDNoLock 42 (st_data (Unhanger.run (at_ 10) ok_publish (fun l => l) (fun _ => true) (at_ 10)
    (UpdateJob server (at_ 6) ok_publish log_request (fresh_st running)).1).1) = Ok job.
Proof.
  eexists. apply (heartbeat_protects server (at_ 6) (at_ 10) ok_publish ok_publish log_request (fun l => l) (fun _ => true) (at_ 10)
    (fresh_st running) 42 running_job); [vm_compute; reflexivity|vm_compute; reflexivity|vm_compute; discriminate|vm_compute; reflexivity|vm_compute; reflexivity].
Defined.


(** The builds of the first workspace whose jobs are active. *)
Definition active_builds (d : Data) : list uuid :=
  wb_ID <$> List.filter (fun b => (wb_WorkspaceID b =? 1)%N &&
    match getProvisionerJobByIDNoLock (wb_JobID b) d with Ok j => status_Active (pj_JobStatus j) | Err _ => false end) (workspaceBuilds d).

(** A cancellation that overlaps the end of the job revives it.  The handler of
    the cancellation reads a running job and passes its checks; the daemon
    completes the job, and the user starts a new build; then the handler writes
    the row it decided on, which has no completion time.  The first job is
    canceling again, and the workspace has two active builds. *)
Lemma cancel_race_two_active :
  exists workspace job b, b ∈ workspaceBuilds running /\ wb_ID b = 103%N /\
  cancel_check 7 b running = inr (workspace, job) /\
  let after := user_build TransitionStop 104 43 (at_ 3) succeeded in
  let written := st_data (cancel_write (at_ 3) ok_publish workspace job (fresh_st after)).1 in
  active_builds running = [103%N] /\ active_builds succeeded = [] /\ active_builds after = [104%N] /\
  active_builds written = [103; 104]%N.
Proof.
  pose (b := List.nth 2 (workspaceBuilds running) Autobuild.Examples.due_build).
  pose (j := List.nth 2 (provisionerJobs running) example_done_job).
  exists (example_workspace 1), j, b. split; [right; right; left|]. split; [vm_compute; reflexivity|].
  split; [vm_compute; reflexivity|]. vm_compute. by split_and!.
Qed.

(** A job that was already ended can still be completed.  A daemon that runs the
    deletion of a workspace goes silent, and the detector ends the job as failed;
    the owner starts the workspace again; then the daemon comes back and completes
    its job.  [FailJob] refuses a job that is completed, but [CompleteJob] does
    not: the failed job is now a success, and the workspace is marked deleted
    while its new build is active. *)
Lemma late_completion_deletes :
  let deleting := acquire 9 (at_ 1) (user_build TransitionDelete 103 42 tick store) in
  let hung := unhang 42 (at_ 10) deleting in
  let restarted := user_build TransitionStart 104 43 (at_ 11) (st_data hung.1) in
  let late := complete "42" (at_ 12) restarted in
  is_ok hung.2 = true /\ active_builds deleting = [103%N] /\ active_builds restarted = [104%N] /\
  (exists j, getProvisionerJobByIDNoLock 42 restarted = Ok j /\ pj_JobStatus j = JobFailed) /\
  (FailJob server (at_ 12) ok_publish (mkFailedJob "42" "late" "" FailedOther) (fresh_st restarted)).2 = Err "job already completed" /\
  is_ok late.2 = true /\ active_builds (st_data late.1) = [104%N] /\
  (exists j, getProvisionerJobByIDNoLock 42 (st_data late.1) = Ok j /\ pj_JobStatus j = JobSucceeded) /\
  (exists w, getWorkspaceByIDNoLock 1 (st_data late.1) = Ok w /\ ws_Deleted w = true).
Proof.
  cbv zeta. do 3 (split; [vm_compute; reflexivity|]).
  split; [eexists; split; vm_compute; reflexivity|]. do 3 (split; [vm_compute; reflexivity|]).
  split; [eexists; split; vm_compute; reflexivity|]. eexists. split; [vm_compute; reflexivity|reflexivity].
Qed.

(** A job that was canceled before it started is completed, yet it stays in the
    queue: only [started_at] keeps a job from being acquired.  The workspace can
    be built again at once, and two daemons then work on its two builds. *)
Lemma canceled_job_acquired :
  let canceled := st_data (patchCancelWorkspaceBuild (at_ 1) ok_publish 7 running_build (fresh_st started)).1 in
  let restarted := user_build TransitionStart 104 43 (at_ 2) canceled in
  let both := acquire 8 (at_ 4) (acquire 9 (at_ 3) restarted) in
  active_builds started = [103%N] /\ active_builds canceled = [] /\ active_builds restarted = [104%N] /\
  (fun j => (pj_ID j, pj_WorkerID j, pj_JobStatus j)) <$> List.skipn 2 (provisionerJobs both) =
    [(42%N, Some 9%N, JobCanceled); (43%N, Some 8%N, JobRunning)].
Proof. vm_compute. by split_and!. Qed.
