(* ===== verification/Tunnels.v ===== *)
(** * The tunnel store: [tailnet/tunnel.go]

    The tunnels of the in-memory coordinator, indexed by source and by
    destination, and the proof that the two indices are one set of pairs. *)

From S2P Require Import Prelude.

Module Tunnels.

(** [tunnelStore]: [bySrc] and [byDst]; the inner maps to [struct{}] are sets. *)
Record tunnelStore := mkTunnels {
  bySrc : gmap uuid (gset uuid);
  byDst : gmap uuid (gset uuid);
}.

Definition newTunnelStore : tunnelStore := mkTunnels ∅ ∅.

(** Indexing a map of maps: a missing inner map reads as empty. *)
Definition inner (m : gmap uuid (gset uuid)) (k : uuid) : gset uuid := default ∅ (m !! k).

Definition add_entry (m : gmap uuid (gset uuid)) (k v : uuid) : gmap uuid (gset uuid) :=
  <[k := {[v]} ∪ inner m k]> m.

(** [delete(m[k], v)], and [m[k]] itself when nothing is left in it. *)
Definition remove_entry (m : gmap uuid (gset uuid)) (k v : uuid) : gmap uuid (gset uuid) :=
  let s := inner m k ∖ {[v]} in
  if decide (s = ∅) then delete k m else <[k := s]> m.

Definition add (s : tunnelStore) (src dst : uuid) : tunnelStore :=
  mkTunnels (add_entry (bySrc s) src dst) (add_entry (byDst s) dst src).

Definition remove (s : tunnelStore) (src dst : uuid) : tunnelStore :=
  mkTunnels (remove_entry (bySrc s) src dst) (remove_entry (byDst s) dst src).

Definition removeAll `{MapRange} (s : tunnelStore) (src : uuid) : tunnelStore :=
  foldl (fun s dst => remove s src dst) s (range (inner (bySrc s) src)).

Definition findTunnelPeers `{MapRange} (s : tunnelStore) (id : uuid) : list uuid :=
  range (inner (bySrc s) id ∪ inner (byDst s) id).

Definition tunnelExists (s : tunnelStore) (src dst : uuid) : bool :=
  bool_decide (dst ∈ inner (bySrc s) src) || bool_decide (dst ∈ inner (byDst s) src).

(** ** Specification: a set of directed tunnels *)

Definition tunnel (s : tunnelStore) (x y : uuid) : Prop := y ∈ inner (bySrc s) x.
Definition linked (s : tunnelStore) (x y : uuid) : Prop := tunnel s x y \/ tunnel s y x.

(** The two indices hold the same pairs, and no inner map is empty. *)
Record consistent (s : tunnelStore) : Prop := {
  cs_dual x y : y ∈ inner (bySrc s) x <-> x ∈ inner (byDst s) y;
  cs_src x t : bySrc s !! x = Some t -> t <> ∅;
  cs_dst x t : byDst s !! x = Some t -> t <> ∅;
}.

Lemma inner_add_entry m k v x : inner (add_entry m k v) x = if decide (x = k) then {[v]} ∪ inner m k else inner m x.
Proof.
  unfold add_entry. unfold inner at 1. destruct (decide (x = k)) as [->|].
  - by rewrite lookup_insert_eq.
  - by rewrite lookup_insert_ne.
Qed.

Lemma inner_remove_entry m k v x :
  inner (remove_entry m k v) x = if decide (x = k) then inner m k ∖ {[v]} else inner m x.
Proof.
  unfold remove_entry. unfold inner at 1.
  destruct (decide (inner m k ∖ {[v]} = ∅)) as [E|]; destruct (decide (x = k)) as [->|].
  - by rewrite lookup_delete_eq.
  - by rewrite lookup_delete_ne.
  - by rewrite lookup_insert_eq.
  - by rewrite lookup_insert_ne.
Qed.

Lemma elem_add_entry m k v x y : y ∈ inner (add_entry m k v) x <-> (x = k /\ y = v) \/ y ∈ inner m x.
Proof. rewrite inner_add_entry. case_decide; subst; set_solver. Qed.

Lemma elem_remove_entry m k v x y : y ∈ inner (remove_entry m k v) x <-> y ∈ inner m x /\ ~ (x = k /\ y = v).
Proof. rewrite inner_remove_entry. case_decide; subst; set_solver. Qed.

Lemma add_entry_filled m k v :
  (forall x t, m !! x = Some t -> t <> ∅) -> forall x t, add_entry m k v !! x = Some t -> t <> ∅.
Proof.
  intros Hm x t. unfold add_entry. rewrite lookup_insert_Some. intros [[_ <-]|[_ ?]]; [set_solver|eauto].
Qed.

Lemma remove_entry_filled m k v :
  (forall x t, m !! x = Some t -> t <> ∅) -> forall x t, remove_entry m k v !! x = Some t -> t <> ∅.
Proof.
  intros Hm x t. unfold remove_entry. case_decide.
  - rewrite lookup_delete_Some. intros [_ ?]. eauto.
  - rewrite lookup_insert_Some. intros [[_ <-]|[_ ?]]; eauto.
Qed.

Lemma tunnel_add s x y src dst : tunnel (add s src dst) x y <-> (x = src /\ y = dst) \/ tunnel s x y.
Proof. apply elem_add_entry. Qed.

Lemma tunnel_remove s x y src dst : tunnel (remove s src dst) x y <-> tunnel s x y /\ ~ (x = src /\ y = dst).
Proof. apply elem_remove_entry. Qed.

Lemma consistent_new : consistent newTunnelStore.
Proof. split; done. Qed.

Lemma consistent_add s src dst : consistent s -> consistent (add s src dst).
Proof.
  intros [Hd Hs Ht]. split; simpl.
  - intros x y. rewrite !elem_add_entry, Hd. naive_solver.
  - by apply add_entry_filled.
  - by apply add_entry_filled.
Qed.

Lemma consistent_remove s src dst : consistent s -> consistent (remove s src dst).
Proof.
  intros [Hd Hs Ht]. split; simpl.
  - intros x y. rewrite !elem_remove_entry, Hd. naive_solver.
  - by apply remove_entry_filled.
  - by apply remove_entry_filled.
Qed.

Section Ranges.
Context `{MapRange}.

Lemma removeAll_fold l s src :
  consistent s ->
  consistent (foldl (fun s dst => remove s src dst) s l) /\
  forall x y, tunnel (foldl (fun s dst => remove s src dst) s l) x y <-> tunnel s x y /\ ~ (x = src /\ y ∈ l).
Proof.
  revert s. induction l as [|dst l IH]; intros s Hs; simpl.
  - split; [done|]. set_solver.
  - destruct (IH (remove s src dst)) as [Hc Ht]; [by apply consistent_remove|]. split; [done|].
    intros x y. rewrite Ht, tunnel_remove, elem_of_cons. tauto.
Qed.

Lemma consistent_removeAll s src : consistent s -> consistent (removeAll s src).
Proof. intros Hs. by apply removeAll_fold. Qed.

Lemma tunnel_removeAll s x y src : consistent s -> tunnel (removeAll s src) x y <-> tunnel s x y /\ x <> src.
Proof.
  intros Hs. unfold removeAll. destruct (removeAll_fold (range (inner (bySrc s) src)) s src Hs) as [_ ->].
  rewrite range_elem. unfold tunnel. split; [|tauto]. intros [Ht Hn]. split; [done|]. intros ->. tauto.
Qed.

Lemma elem_findTunnelPeers s id x : consistent s -> x ∈ findTunnelPeers s id <-> linked s id x.
Proof.
  intros Hs. unfold findTunnelPeers, linked, tunnel. rewrite range_elem, elem_of_union, <- (cs_dual s Hs). done.
Qed.

Lemma tunnelExists_linked s x y : consistent s -> tunnelExists s x y = true <-> linked s x y.
Proof.
  intros Hs. unfold tunnelExists, linked, tunnel.
  by rewrite orb_true_iff, !bool_decide_eq_true, <- (cs_dual s Hs).
Qed.

(** C27: the tunnel store is a set of directed tunnels.  [add], [remove] and
    [removeAll] insert and delete pairs and keep the two indices in step, with
    no empty entry left behind; [findTunnelPeers] lists, each once, the peers a
    tunnel in either direction links to, and [tunnelExists] decides that. *)
Theorem tunnelStore_refines s src dst :
  consistent s ->
  (consistent (add s src dst) /\
   forall x y, tunnel (add s src dst) x y <-> (x = src /\ y = dst) \/ tunnel s x y) /\
  (consistent (remove s src dst) /\
   forall x y, tunnel (remove s src dst) x y <-> tunnel s x y /\ ~ (x = src /\ y = dst)) /\
  (consistent (removeAll s src) /\
   forall x y, tunnel (removeAll s src) x y <-> tunnel s x y /\ x <> src) /\
  (NoDup (findTunnelPeers s src) /\
   forall x, x ∈ findTunnelPeers s src <-> tunnel s src x \/ tunnel s x src) /\
  (tunnelExists s src dst = true <-> tunnel s src dst \/ tunnel s dst src).
Proof.
  intros Hs. split; [|split; [|split; [|split]]].
  - split; [by apply consistent_add|]. intros. apply tunnel_add.
  - split; [by apply consistent_remove|]. intros. apply tunnel_remove.
  - split; [by apply consistent_removeAll|]. intros. by apply tunnel_removeAll.
  - split; [apply range_NoDup|]. intros. by apply elem_findTunnelPeers.
  - by apply tunnelExists_linked.
Qed.
End Ranges.

Lemma tunnelStore_refines_witness :
  consistent (add newTunnelStore 1%N 2%N) /\
  (consistent (remove (add newTunnelStore 1%N 2%N) 1%N 2%N) /\
   findTunnelPeers (add newTunnelStore 1%N 2%N) 2%N = [1%N]).
Proof.
  destruct (tunnelStore_refines newTunnelStore 1%N 2%N consistent_new) as [[Hadd _] _].
  destruct (tunnelStore_refines _ 1%N 2%N Hadd) as (_ & [Hrem _] & _).
  split; [exact Hadd|]. split; [exact Hrem|reflexivity].
Defined.
End Tunnels.
