(* ===== verification/Coordinator.v ===== *)
(** * The in-memory tailnet coordinator: [tailnet/coordinator.go], [tailnet/peer.go]

    The coordinator tells the peers that share a tunnel about each other's
    nodes.  A peer object is reached through a reference, because a connection
    keeps its object after another one has replaced it in the [peers] map; its
    response channel is a bounded buffer that can be closed, and sending on a
    closed channel or closing it twice is a panic, as in Go.  Each method runs
    under the core's mutex and is one atomic step. *)

From S2P Require Import Prelude Tunnels.
Import Tunnels.

Definition ResponseBufferSize : nat := 512.

(** [proto.Node], which is generated, and its [Equal]: two nodes compare by
    their marshalled bytes; marshalling may fail.  [None] is the nil pointer. *)
Class NodeLib := {
  Node : Type;
  node_Equal : option Node -> option Node -> result bool;
}.

Inductive CoordError := ErrClosed | ErrWouldBlock | ErrAlreadyRemoved | ErrOther (msg : string).

(** [CoordinateResponse_PeerUpdate_Kind]. *)
Inductive Kind := KIND_UNSPECIFIED | NODE | DISCONNECTED | LOST | READY_FOR_HANDSHAKE.
#[export] Instance Kind_eq_dec : EqDecision Kind.
Proof. solve_decision. Defined.

Section Coordinator.
Context `{NL : NodeLib} `{MR : MapRange}.

Record PeerUpdate := mkPeerUpdate {
  pu_Id : uuid;
  pu_Kind : Kind;
  pu_Node : option Node;
  pu_Reason : string;
}.

Record CoordinateResponse := mkResponse { rs_PeerUpdates : list PeerUpdate; rs_Error : string }.

(** An identifier in a request is a byte string; [None] is one that is not a UUID. *)
Record CoordinateRequest := mkRequest {
  rq_UpdateSelf : option (option Node);
  rq_Disconnect : bool;
  rq_AddTunnel : option (option uuid);
  rq_RemoveTunnel : option (option uuid);
  rq_ReadyForHandshake : list (option uuid);
}.

(** What [CoordinateeAuth.Authorize] can do. *)
Inductive AuthResult := AuthOk | AuthErr (msg : string) | AuthPanic (msg : string).
Definition CoordinateeAuth : Type := CoordinateRequest -> AuthResult.

(** [peer].  [p_resps] is the buffer of the response channel, [p_open] is
    false once it is closed. *)
Record peer := mkPeer {
  p_id : uuid;
  p_node : option Node;
  p_resps : list CoordinateResponse;
  p_open : bool;
  p_auth : CoordinateeAuth;
  p_sent : gmap uuid (option Node);
  p_name : string;
  p_overwrites : Z;
}.

(** [core], with the store of peer objects the references point into. *)
Record Core := mkCore {
  closed : bool;
  objects : gmap N peer;
  peers : gmap uuid N;
  tunnels : tunnelStore;
}.

Definition newCore : Core := mkCore false ∅ ∅ newTunnelStore.

(** ** Effects: state, panics, and fuel for the recursion of [removePeerLocked] *)

Inductive outcome (A : Type) : Type :=
| Done (a : A) (c : Core)
| Panic (why : string)
| OutOfFuel.
Arguments Done {A} _ _.
Arguments Panic {A} _.
Arguments OutOfFuel {A}.

Definition M (A : Type) : Type := Core -> outcome A.
#[export] Instance M_ret : MRet M := fun A a c => Done a c.
#[export] Instance M_bind : MBind M := fun A B f m c =>
  match m c with Done a c => f a c | Panic w => Panic w | OutOfFuel => OutOfFuel end.

Definition gets {A} (f : Core -> A) : M A := fun c => Done (f c) c.
Definition modify (f : Core -> Core) : M unit := fun c => Done tt (f c).
Definition panic {A} (why : string) : M A := fun _ => Panic why.

Definition deref (r : N) : M peer := fun c =>
  match objects c !! r with Some p => Done p c | None => Panic "nil pointer dereference" end.
Definition store (r : N) (p : peer) : M unit := modify (fun c => c{{ objects ::= <[r := p]> }}).

(** [select { case ch <- resp: default: return ErrWouldBlock }] *)
Definition send (r : N) (resp : CoordinateResponse) : M (option CoordError) :=
  p ← deref r;
  if negb (p_open p) then panic "send on closed channel"
  else if (length (p_resps p) <? ResponseBufferSize)%nat then
    _ ← store r (p{{ p_resps ::= fun l => l ++ [resp] }}); mret None
  else mret (Some ErrWouldBlock).

(** [close(ch)] *)
Definition close_resps (r : N) : M unit :=
  p ← deref r;
  if negb (p_open p) then panic "close of closed channel" else store r (p{{ p_open := false }}).

Fixpoint for_each {A} (l : list A) (f : A -> M unit) : M unit :=
  match l with [] => mret tt | x :: l => _ ← f x; for_each l f end.

(** ** [peer.go] *)

(** [storeMappingLocked]; [Ok None] is [noResp]. *)
Definition storeMapping (p : peer) (id : uuid) (n : option Node) (k : Kind) (reason : string)
    : peer * result (option PeerUpdate) :=
  let update := mkPeerUpdate id k n reason in
  match p_sent p !! id, k with
  | None, (LOST | DISCONNECTED) => (p, Ok None)
  | None, NODE => (p{{ p_sent ::= <[id := n]> }}, Ok (Some update))
  | Some _, (LOST | DISCONNECTED) => (p{{ p_sent ::= delete id }}, Ok (Some update))
  | Some sn, NODE =>
      match node_Equal sn n with
      | Err _ => (p, Err "failed to compare nodes")
      | Ok true => (p, Ok None)
      | Ok false => (p{{ p_sent ::= <[id := n]> }}, Ok (Some update))
      end
  | _, _ => (p, Ok (Some update))
  end.

Definition storeMappingLocked (r : N) (id : uuid) (n : option Node) (k : Kind) (reason : string)
    : M (result (option PeerUpdate)) :=
  p ← deref r;
  let '(p', res) := storeMapping p id n k reason in
  _ ← store r p'; mret res.

Definition updateMappingLocked (r : N) (id : uuid) (n : option Node) (k : Kind) (reason : string)
    : M (option CoordError) :=
  res ← storeMappingLocked r id n k reason;
  match res with
  | Ok None => mret None
  | Err e => mret (Some (ErrOther e))
  | Ok (Some update) => send r (mkResponse [update] "")
  end.

(** The loop of [batchUpdateMappingLocked]; [None] is a nil peer. *)
Fixpoint batch_loop (r : N) (others : list (option N)) (k : Kind) (reason : string)
    (updates : list PeerUpdate) : M (result (list PeerUpdate)) :=
  match others with
  | [] => mret (Ok updates)
  | None :: others => batch_loop r others k reason updates
  | Some o :: others =>
      other ← deref o;
      match p_node other with
      | None => batch_loop r others k reason updates
      | Some n =>
          res ← storeMappingLocked r (p_id other) (Some n) k reason;
          match res with
          | Ok None => batch_loop r others k reason updates
          | Err e => mret (Err e)
          | Ok (Some update) => batch_loop r others k reason (updates ++ [update])
          end
      end
  end.

Definition batchUpdateMappingLocked (r : N) (others : list (option N)) (k : Kind) (reason : string)
    : M (option CoordError) :=
  res ← batch_loop r others k reason [];
  match res with
  | Err e => mret (Some (ErrOther e))
  | Ok [] => mret None
  | Ok updates => send r (mkResponse updates "")
  end.

(** ** [coordinator.go] *)

(** The body of the loop of [updateTunnelPeersLocked]; [remove] is [removePeerLocked]. *)
Definition update_tunnel_peer (remove : uuid -> Kind -> string -> M unit)
    (id : uuid) (n : option Node) (k : Kind) (reason : string) (otherID : uuid) : M unit :=
  other ← gets (fun c => peers c !! otherID);
  match other with
  | None => mret tt
  | Some o =>
      err ← updateMappingLocked o id n k reason;
      match err with
      | None => mret tt
      | Some _ => other ← deref o; remove (p_id other) DISCONNECTED "failed update"
      end
  end.

Definition update_tunnel_peers (remove : uuid -> Kind -> string -> M unit)
    (id : uuid) (n : option Node) (k : Kind) (reason : string) : M unit :=
  tp ← gets (fun c => findTunnelPeers (tunnels c) id);
  for_each tp (update_tunnel_peer remove id n k reason).

(** [removePeerLocked]: it calls itself for each tunnel peer that cannot be told. *)
Fixpoint remove_peer (fuel : nat) (id : uuid) (kind : Kind) (reason : string) : M unit :=
  match fuel with
  | O => fun _ => OutOfFuel
  | S fuel =>
      p ← gets (fun c => peers c !! id);
      match p with
      | None => mret tt
      | Some r =>
          _ ← update_tunnel_peers (remove_peer fuel) id None kind reason;
          _ ← modify (fun c => c{{ tunnels ::= fun t => removeAll t id }});
          _ ← close_resps r;
          modify (fun c => c{{ peers ::= delete id }})
      end
  end.

(** The entries of all [sent] maps: each recursive call has deleted one. *)
Definition total_sent (c : Core) : nat :=
  map_fold (fun _ p n => (size (p_sent p) + n)%nat) O (objects c).

Definition removePeerLocked (id : uuid) (kind : Kind) (reason : string) : M unit :=
  fun c => remove_peer (S (total_sent c)) id kind reason c.

Definition updateTunnelPeersLocked (id : uuid) (n : option Node) (k : Kind) (reason : string) : M unit :=
  update_tunnel_peers removePeerLocked id n k reason.

Definition nodeUpdateLocked (r : N) (node : option Node) : M (option CoordError) :=
  p ← deref r;
  _ ← store r (p{{ p_node := node }});
  _ ← updateTunnelPeersLocked (p_id p) node NODE "node update";
  mret None.

Definition addTunnelLocked (src : N) (dstID : uuid) : M (option CoordError) :=
  s ← deref src;
  _ ← modify (fun c => c{{ tunnels ::= fun t => add t (p_id s) dstID }});
  dst ← gets (fun c => peers c !! dstID);
  match dst with
  | None => mret None
  | Some dst =>
      d ← deref dst;
      err ← match p_node d with
            | Some n => updateMappingLocked src dstID (Some n) NODE "add tunnel"
            | None => mret None
            end;
      match err with
      | Some e => _ ← removePeerLocked (p_id s) DISCONNECTED "failed update"; mret (Some e)
      | None =>
          match p_node s with
          | None => mret None
          | Some n =>
              err ← updateMappingLocked dst (p_id s) (Some n) NODE "add tunnel";
              match err with
              | Some _ => _ ← removePeerLocked (p_id d) DISCONNECTED "failed update"; mret None
              | None => mret None
              end
          end
      end
  end.

Definition removeTunnelLocked (src : N) (dstID : uuid) : M (option CoordError) :=
  s ← deref src;
  err ← updateMappingLocked src dstID None DISCONNECTED "remove tunnel";
  match err with
  | Some e => _ ← removePeerLocked (p_id s) DISCONNECTED "failed update"; mret (Some e)
  | None =>
      dst ← gets (fun c => peers c !! dstID);
      _ ← match dst with
          | None => mret tt
          | Some dst =>
              err ← updateMappingLocked dst (p_id s) None DISCONNECTED "remove tunnel";
              match err with
              | Some _ => d ← deref dst; removePeerLocked (p_id d) DISCONNECTED "failed update"
              | None => mret tt
              end
          end;
      _ ← modify (fun c => c{{ tunnels ::= fun t => remove t (p_id s) dstID }});
      mret None
  end.

Fixpoint handleReadyForHandshakeLocked (src : N) (rfhs : list (option uuid)) : M (option CoordError) :=
  match rfhs with
  | [] => mret None
  | None :: _ => mret (Some (ErrOther "unable to convert bytes to UUID"))
  | Some dstID :: rfhs =>
      s ← deref src;
      exists_ ← gets (fun c => tunnelExists (tunnels c) (p_id s) dstID);
      if negb exists_ then
        err ← send src (mkResponse [] "you do not share a tunnel");
        match err with Some e => mret (Some e) | None => handleReadyForHandshakeLocked src rfhs end
      else
        dst ← gets (fun c => peers c !! dstID);
        match dst with
        | None => handleReadyForHandshakeLocked src rfhs
        | Some d =>
            err ← send d (mkResponse [mkPeerUpdate (p_id s) READY_FOR_HANDSHAKE None ""] "");
            match err with Some e => mret (Some e) | None => handleReadyForHandshakeLocked src rfhs end
        end
  end.

(** One part of a request: [Some e] returns [e] from the handler, [None] goes on. *)
Definition stage (part : M (option (option CoordError))) (rest : M (option CoordError)) : M (option CoordError) :=
  r ← part; match r with Some e => mret e | None => rest end.

Definition stage_result (context : string) (err : option CoordError) : M (option (option CoordError)) :=
  match err with
  | Some (ErrAlreadyRemoved | ErrClosed) => mret (Some None)
  | Some e => mret (Some (Some (ErrOther context)))
  | None => mret None
  end.

Definition tunnel_stage (f : N -> uuid -> M (option CoordError)) (context : string) (r : N)
    (req : option (option uuid)) : M (option (option CoordError)) :=
  match req with
  | None => mret None
  | Some None => mret (Some (Some (ErrOther "unable to convert bytes to UUID")))
  | Some (Some dstID) => err ← f r dstID; stage_result context err
  end.

Definition handleRequest (r : N) (req : CoordinateRequest) : M (option CoordError) :=
  is_closed ← gets closed;
  if is_closed : bool then mret (Some ErrClosed) else
  p ← deref r;
  registered ← gets (fun c => bool_decide (peers c !! p_id p = Some r));
  if negb registered then mret (Some ErrAlreadyRemoved) else
  match p_auth p req with
  | AuthPanic why => panic why
  | AuthErr e => mret (Some (ErrOther ("authorize request: " +:+ e)))
  | AuthOk =>
      stage (match rq_UpdateSelf req with
             | None => mret None
             | Some node => err ← nodeUpdateLocked r node; stage_result "node update failed" err
             end) (
      stage (tunnel_stage addTunnelLocked "add tunnel failed" r (rq_AddTunnel req)) (
      stage (tunnel_stage removeTunnelLocked "remove tunnel failed" r (rq_RemoveTunnel req)) (
      _ ← (if rq_Disconnect req then removePeerLocked (p_id p) DISCONNECTED "graceful disconnect" else mret tt);
      err ← handleReadyForHandshakeLocked r (rq_ReadyForHandshake req);
      match err with Some _ => mret (Some (ErrOther "handle ack")) | None => mret None end)))
  end.

(** [initPeer]; the peer object is already in the store, at [r]. *)
Definition initPeer (r : N) : M (option CoordError) :=
  is_closed ← gets closed;
  if is_closed : bool then mret (Some ErrClosed) else
  p ← deref r;
  match p_node p with
  | Some _ => mret (Some (ErrOther "peer must be initialized with nil node"))
  | None =>
      old ← gets (fun c => peers c !! p_id p);
      _ ← match old with
          | None => mret tt
          | Some o =>
              _ ← close_resps o;
              old ← deref o;
              q ← deref r;
              store r (q{{ p_overwrites := p_overwrites old + 1 }})
          end;
      _ ← modify (fun c => c{{ peers ::= <[p_id p := r]> }});
      others ← gets (fun c => (fun id => peers c !! id) <$> findTunnelPeers (tunnels c) (p_id p));
      batchUpdateMappingLocked r others NODE "init"
  end.

(** [lostPeer]: the connection of the object [r] ended. *)
Definition lostPeer (r : N) : M (option CoordError) :=
  is_closed ← gets closed;
  if is_closed : bool then mret (Some ErrClosed) else
  p ← deref r;
  existing ← gets (fun c => peers c !! p_id p);
  if bool_decide (existing = Some r) then
    _ ← removePeerLocked (p_id p) LOST "lost"; mret None
  else mret (Some ErrAlreadyRemoved).

(** [core.close]: [range] skips the keys deleted while it runs. *)
Definition close_core : M unit :=
  is_closed ← gets closed;
  if is_closed : bool then mret tt else
  _ ← modify (fun c => c{{ closed := true }});
  ids ← gets (fun c => range (dom (peers c)));
  for_each ids (fun id =>
    p ← gets (fun c => peers c !! id);
    match p with None => mret tt | Some _ => removePeerLocked id LOST "coordinator close" end).

(** [Coordinate]: a new peer object at a fresh reference, and its [initPeer]. *)
Definition new_peer (id : uuid) (name : string) (auth : CoordinateeAuth) : peer :=
  mkPeer id None [] true auth ∅ name 0.

Definition Coordinate (r : N) (id : uuid) (name : string) (a : CoordinateeAuth) : M (option CoordError) :=
  _ ← store r (new_peer id name a); initPeer r.

(** The body of [peer.reqLoop] and what follows the loop: a request that fails
    ends the loop, and the peer is lost. *)
Definition serve (r : N) (req : CoordinateRequest) : M unit :=
  err ← handleRequest r req;
  match err with None => mret tt | Some _ => _ ← lostPeer r; mret tt end.

(** The other end of the connection takes a response from the channel. *)
Definition receive (r : N) : M unit :=
  p ← deref r; store r (p{{ p_resps ::= tail }}).

(** * Theorems *)

Implicit Types (c : Core) (p : peer) (r : N) (k : Kind).

(** What holds after [m] when it ends, and whether it may panic or run out of fuel. *)
Definition wp {A} (m : M A) (Q : A -> Core -> Prop) (may_panic may_stop : Prop) (c : Core) : Prop :=
  match m c with Done a c' => Q a c' | Panic _ => may_panic | OutOfFuel => may_stop end.

Lemma wp_bind {A B} (m : M A) (f : A -> M B) Q P F c :
  wp (m ≫= f) Q P F c <-> wp m (fun a c' => wp (f a) Q P F c') P F c.
Proof. unfold wp, mbind, M_bind. by destruct (m c). Qed.

Lemma wp_mono {A} (m : M A) (Q Q' : A -> Core -> Prop) (P P' F F' : Prop) c :
  wp m Q P F c -> (forall a c', Q a c' -> Q' a c') -> (P -> P') -> (F -> F') -> wp m Q' P' F' c.
Proof. unfold wp. destruct (m c); auto. Qed.

Lemma wp_ret {A} (a : A) Q P F c : wp (mret a) Q P F c <-> Q a c.
Proof. done. Qed.

Lemma wp_gets {A} (f : Core -> A) Q P F c : wp (gets f) Q P F c <-> Q (f c) c.
Proof. done. Qed.

Lemma wp_modify f Q P F c : wp (modify f) Q P F c <-> Q tt (f c).
Proof. done. Qed.

Lemma wp_deref r p Q P F c : objects c !! r = Some p -> wp (deref r) Q P F c <-> Q p c.
Proof. intros Hp. unfold wp, deref. by rewrite Hp. Qed.

(** [c] with the object [r] replaced. *)
Definition put r p c : Core := c{{ objects ::= <[r := p]> }}.

Lemma wp_store r p Q P F c : wp (store r p) Q P F c <-> Q tt (put r p c).
Proof. done. Qed.

Lemma wp_send r p resp Q (P F : Prop) c :
  objects c !! r = Some p ->
  (p_open p = false -> P) ->
  (p_open p = true -> (length (p_resps p) < ResponseBufferSize)%nat ->
     Q None (put r (p{{ p_resps ::= fun l => l ++ [resp] }}) c)) ->
  (p_open p = true -> (ResponseBufferSize <= length (p_resps p))%nat -> Q (Some ErrWouldBlock) c) ->
  wp (send r resp) Q P F c.
Proof.
  intros Hp H1 H2 H3. unfold send. rewrite wp_bind, wp_deref by done.
  destruct (p_open p) eqn:Ho; [|by apply H1]. cbn [negb].
  destruct (Nat.ltb_spec (length (p_resps p)) ResponseBufferSize); [|by apply H3].
  rewrite wp_bind, wp_store. by apply H2.
Qed.

Lemma total_put c r p p' :
  objects c !! r = Some p ->
  (total_sent (put r p' c) + size (p_sent p) = total_sent c + size (p_sent p'))%nat.
Proof.
  intros Hp. unfold total_sent, put. simpl.
  rewrite <- (insert_delete_eq (objects c)).
  rewrite map_fold_insert_L; [|intros; lia|apply lookup_delete_eq].
  rewrite (map_fold_delete_L _ _ r p (objects c)); [lia|intros; lia|done].
Qed.

Lemma lookup_put r p c : objects (put r p c) !! r = Some p.
Proof. apply lookup_insert_eq. Qed.

Lemma lookup_put_ne r r' p c : r' <> r -> objects (put r p c) !! r' = objects c !! r'.
Proof. intros Hne. by apply lookup_insert_ne. Qed.

Lemma put_put r p p' c : put r p' (put r p c) = put r p' c.
Proof. unfold put. destruct c. simpl. by rewrite insert_insert_eq. Qed.

(** ** What removing peers does to the rest *)

Definition gone k : Prop := k = LOST \/ k = DISCONNECTED.

Lemma storeMapping_gone p id n k reason :
  gone k ->
  storeMapping p id n k reason =
    match p_sent p !! id with
    | None => (p, Ok None)
    | Some _ => (p{{ p_sent ::= delete id }}, Ok (Some (mkPeerUpdate id k n reason)))
    end.
Proof. intros [->| ->]; unfold storeMapping; by destruct (p_sent p !! id). Qed.

(** Telling a peer that another is gone: its entry is deleted, and the channel
    may be full, only if there was an entry. *)
Lemma update_gone r p id n k reason c (F : Prop) :
  objects c !! r = Some p -> gone k ->
  wp (updateMappingLocked r id n k reason) (fun err c' =>
    exists l, c' = put r (p{{ p_sent ::= delete id; p_resps := l }}) c /\
      (err <> None -> (total_sent c' < total_sent c)%nat) /\ (total_sent c' <= total_sent c)%nat) True F c.
Proof.
  intros Hp Hk. unfold updateMappingLocked, storeMappingLocked.
  rewrite !wp_bind, wp_deref by done. rewrite storeMapping_gone by done.
  destruct (p_sent p !! id) as [sn|] eqn:Hs; rewrite wp_bind, wp_store, wp_ret.
  - set (p1 := p{{ p_sent ::= delete id }}).
    assert (Ht : forall l, (total_sent (put r (p1{{ p_resps := l }}) c) < total_sent c)%nat).
    { intros l. pose proof (total_put c r p (p1{{ p_resps := l }}) Hp) as Ht.
      change (p_sent (p1{{ p_resps := l }})) with (delete id (p_sent p)) in Ht.
      rewrite (map_size_delete_Some id (p_sent p)) in Ht by (by eexists).
      assert (size (p_sent p) <> O)
        by (intros E; apply map_size_empty_iff in E; rewrite E, lookup_empty in Hs; done). lia. }
    eapply wp_send; [apply lookup_put|done|..]; intros Ho Hl.
    + eexists. rewrite put_put. split; [reflexivity|].
      set (u := [mkResponse [mkPeerUpdate id k n reason] ""]). split; [intros _|apply Nat.lt_le_incl];
        exact (Ht (p_resps p1 ++ u)).
    + exists (p_resps p). split; [by destruct p|]. specialize (Ht (p_resps p)).
      assert (E : p1{{ p_resps := p_resps p }} = p1) by (by destruct p). rewrite E in Ht. lia.
  - exists (p_resps p). assert (E : p{{ p_sent ::= delete id; p_resps := p_resps p }} = p).
    { destruct p. simpl in *. by rewrite delete_id. }
    rewrite E. split; [done|]. split; [done|]. pose proof (total_put c r p p Hp). lia.
Qed.

(** The registered peers have open channels and are registered under their id. *)
Record wf_peers c : Prop := {
  wf_tunnels : consistent (tunnels c);
  wf_registered id r : peers c !! id = Some r ->
    exists p, objects c !! r = Some p /\ p_id p = id /\ p_open p = true;
}.

(** [p] becomes [p']: it only forgets what it was told of peers in [X] or no longer registered. *)
Definition forgets (X : gset uuid) c' p p' : Prop :=
  p_id p' = p_id p /\ p_node p' = p_node p /\ p_auth p' = p_auth p /\
  forall x, p_sent p' !! x = p_sent p !! x \/ (p_sent p' !! x = None /\ (x ∈ X \/ peers c' !! x = None)).

Record shrinks (X : gset uuid) c c' : Prop := {
  sh_closed : closed c' = closed c;
  sh_peers id r : peers c' !! id = Some r -> peers c !! id = Some r;
  sh_tunnel x y : tunnel (tunnels c') x y -> tunnel (tunnels c) x y;
  sh_objects r p : objects c !! r = Some p -> exists p', objects c' !! r = Some p' /\ forgets X c' p p';
}.

Lemma shrinks_refl X c : shrinks X c c.
Proof. split; eauto. intros r p Hp. exists p. unfold forgets. auto 10. Qed.

Lemma shrinks_trans X c1 c2 c3 : shrinks X c1 c2 -> shrinks X c2 c3 -> shrinks X c1 c3.
Proof.
  intros [a1 b1 d1 e1] [a2 b2 d2 e2]. split; [congruence|eauto..|].
  intros r p Hp. destruct (e1 r p Hp) as (p' & Hp' & I1 & I2 & I3 & I4).
  destruct (e2 r p' Hp') as (p'' & Hp'' & J1 & J2 & J3 & J4).
  exists p''. split; [done|]. split; [congruence|]. split; [congruence|]. split; [congruence|].
  intros x. destruct (J4 x) as [->|]; [|by right]. destruct (I4 x) as [->|[-> Hx]]; [by left|]. right.
  split; [done|]. destruct Hx as [|Hn]; [by left|right]. destruct (peers c3 !! x) eqn:E; [|done].
  apply b2 in E. congruence.
Qed.

Lemma shrinks_put X r p p' c :
  objects c !! r = Some p -> forgets X c p p' -> shrinks X c (put r p' c).
Proof.
  intros Hp Hf. split; eauto. intros r' q Hq. destruct (decide (r' = r)) as [->|Hne].
  - exists p'. rewrite lookup_put. split; [done|]. assert (q = p) as -> by congruence. exact Hf.
  - exists q. unfold put. simpl. rewrite lookup_insert_ne by done. split; [done|]. unfold forgets. auto 10.
Qed.

Lemma wf_put r p p' c :
  objects c !! r = Some p -> p_id p' = p_id p -> p_open p' = p_open p -> wf_peers c -> wf_peers (put r p' c).
Proof.
  intros Hp Hid Hop [Ht Hw]. split; [done|]. intros id r' Hr. unfold put. simpl.
  destruct (Hw id r' Hr) as (q & Hq & Hi & Ho). destruct (decide (r' = r)) as [->|].
  - exists p'. rewrite lookup_insert_eq. assert (q = p) as -> by congruence. split; [done|]. split; congruence.
  - exists q. by rewrite lookup_insert_ne.
Qed.

Lemma shrinks_mono X Y c c' : X ⊆ Y -> shrinks X c c' -> shrinks Y c c'.
Proof.
  intros HXY [a b d e]. split; auto. intros r p Hp. destruct (e r p Hp) as (p' & Hp' & I1 & I2 & I3 & I4).
  exists p'. split; [done|]. unfold forgets. do 3 (split; [done|]). intros x. specialize (I4 x). set_solver.
Qed.

(** What [p] has not been told of, it is not told of by shrinking. *)
Lemma shrinks_untold X c c' x r p' id :
  shrinks X c c' -> wf_peers c -> peers c' !! x = Some r -> objects c' !! r = Some p' ->
  (forall p, peers c !! x = Some r -> objects c !! r = Some p -> p_sent p !! id = None) -> p_sent p' !! id = None.
Proof.
  intros Hsh Hw Hr Hp' Hun. pose proof (sh_peers _ _ _ Hsh _ _ Hr) as Hr0.
  destruct (wf_registered c Hw x r Hr0) as (p & Hp & _ & _).
  destruct (sh_objects _ _ _ Hsh r p Hp) as (q & Hq & _ & _ & _ & Hs).
  assert (q = p') as -> by congruence. destruct (Hs id) as [->|[-> _]]; [|done]. by apply Hun.
Qed.

(** The effect of [removePeerLocked id], when it does not panic. *)
Record removed (id : uuid) c c' : Prop := {
  rm_wf : wf_peers c';
  rm_shrinks : shrinks ∅ c c';
  rm_total : (total_sent c' <= total_sent c)%nat;
  rm_gone : peers c' !! id = None;
  rm_tunnels x : is_Some (peers c !! id) -> ~ tunnel (tunnels c') id x;
  rm_untold x r p : is_Some (peers c !! id) -> linked (tunnels c) id x ->
    peers c' !! x = Some r -> objects c' !! r = Some p -> p_sent p !! id = None;
  rm_closed r p : peers c !! id = Some r -> objects c' !! r = Some p -> p_open p = false;
}.

Definition removes (fuel : nat) : Prop := forall id k reason c,
  gone k -> wf_peers c -> (total_sent c < fuel)%nat ->
  wp (remove_peer fuel id k reason) (fun _ c' => removed id c c') True False c.

Lemma gone_step fuel id n k reason x c :
  gone k -> removes fuel -> wf_peers c -> (total_sent c <= fuel)%nat ->
  wp (update_tunnel_peer (remove_peer fuel) id n k reason x) (fun _ c' =>
    wf_peers c' /\ shrinks {[id]} c c' /\ (total_sent c' <= total_sent c)%nat /\
    forall r p, peers c' !! x = Some r -> objects c' !! r = Some p -> p_sent p !! id = None) True False c.
Proof.
  intros Hk Hrec Hw Hf. unfold update_tunnel_peer. rewrite wp_bind, wp_gets.
  destruct (peers c !! x) as [r|] eqn:Hr.
  2:{ rewrite wp_ret. split; [done|]. split; [apply shrinks_refl|]. split; [done|]. congruence. }
  destruct (wf_registered c Hw x r Hr) as (p & Hp & Hid & Ho).
  rewrite wp_bind. eapply wp_mono; [by apply (update_gone r p)| |done|done].
  intros err c1 (l & -> & Hlt & Hle). set (p1 := p{{ p_sent ::= delete id; p_resps := l }}) in *.
  assert (Hsent : p_sent p1 = delete id (p_sent p)) by done.
  assert (Hsh : shrinks {[id]} c (put r p1 c)).
  { apply (shrinks_put _ r p); [done|]. do 3 (split; [done|]). intros y. rewrite Hsent.
    destruct (decide (y = id)) as [->|]; [right; rewrite lookup_delete_eq; set_solver|left].
    by rewrite lookup_delete_ne. }
  assert (Hw1 : wf_peers (put r p1 c)) by (by apply (wf_put r p)).
  destruct err as [err|].
  - rewrite wp_bind, (wp_deref r p1) by apply lookup_put.
    change (p_id p1) with (p_id p). rewrite Hid.
    assert (Hlt' : (total_sent (put r p1 c) < fuel)%nat) by (specialize (Hlt ltac:(done)); lia).
    eapply wp_mono; [apply Hrec; [by right|done|exact Hlt']| |done|done].
    intros [] c2 Hrm. split; [by eapply rm_wf|]. split.
    { eapply shrinks_trans; [exact Hsh|]. eapply shrinks_mono; [apply empty_subseteq|]. by eapply rm_shrinks. }
    split; [pose proof (rm_total _ _ _ Hrm); lia|]. intros r2 p2 Hr2. pose proof (rm_gone _ _ _ Hrm). congruence.
  - rewrite wp_ret. split; [done|]. split; [done|]. split; [done|]. intros r2 p2 Hr2 Hp2.
    change (peers (put r p1 c)) with (peers c) in Hr2. assert (r2 = r) as -> by congruence. rewrite lookup_put in Hp2.
    injection Hp2 as <-. rewrite Hsent. apply lookup_delete_eq.
Qed.

Lemma gone_loop fuel id n k reason l c :
  gone k -> removes fuel -> wf_peers c -> (total_sent c <= fuel)%nat ->
  wp (for_each l (update_tunnel_peer (remove_peer fuel) id n k reason)) (fun _ c' =>
    wf_peers c' /\ shrinks {[id]} c c' /\ (total_sent c' <= total_sent c)%nat /\
    forall x r p, x ∈ l -> peers c' !! x = Some r -> objects c' !! r = Some p -> p_sent p !! id = None) True False c.
Proof.
  intros Hk Hrec. revert c. induction l as [|x l IH]; intros c Hw Hf; cbn [for_each].
  - rewrite wp_ret. split; [done|]. split; [apply shrinks_refl|]. split; [done|]. intros x r p []%not_elem_of_nil.
  - rewrite wp_bind. eapply wp_mono; [by apply gone_step| |done|done].
    intros [] c1 (Hw1 & Hsh1 & Ht1 & Hun1). eapply wp_mono; [apply IH; [done|lia]| |done|done].
    intros [] c2 (Hw2 & Hsh2 & Ht2 & Hun2). split; [done|]. split; [by eapply shrinks_trans|]. split; [lia|].
    intros y r p [->|Hy]%elem_of_cons Hr Hp; [|by eapply Hun2].
    eapply shrinks_untold; [exact Hsh2|done|exact Hr|exact Hp|]. intros q. apply Hun1.
Qed.

Lemma remove_peer_removes fuel : removes fuel.
Proof.
  induction fuel as [|fuel IH]; intros id k reason c Hk Hw Hf; [lia|]. cbn [remove_peer].
  rewrite wp_bind, wp_gets. destruct (peers c !! id) as [r|] eqn:Hr.
  2:{ rewrite wp_ret. split; try done; [apply shrinks_refl|intros x; rewrite Hr; by intros []..|congruence]. }
  rewrite wp_bind. unfold update_tunnel_peers. rewrite wp_bind, wp_gets.
  eapply wp_mono; [apply gone_loop; [done|exact IH|done|lia]| |done|done].
  intros [] c1 (Hw1 & Hsh1 & Ht1 & Hun1). rewrite wp_bind, wp_modify, wp_bind.
  destruct (wf_registered c Hw id r Hr) as (p & Hp & Hid & Ho).
  destruct (sh_objects _ _ _ Hsh1 r p Hp) as (p1 & Hp1 & Hid1 & Hf1).
  set (c2 := c1{{ tunnels ::= fun t => removeAll t id }}).
  unfold close_resps. rewrite wp_bind, (wp_deref r p1) by done.
  destruct (p_open p1) eqn:Ho1; [|done]. cbn [negb]. rewrite wp_store, wp_modify.
  set (p2 := p1{{ p_open := false }}). set (c3 := (put r p2 c2){{ peers ::= delete id }}).
  assert (Htun : forall x y, tunnel (tunnels c3) x y -> tunnel (tunnels c1) x y /\ x <> id).
  { intros x y. change (tunnels c3) with (removeAll (tunnels c1) id).
    rewrite tunnel_removeAll by apply Hw1. tauto. }
  assert (Hobj : forall r' q, objects c1 !! r' = Some q -> exists q', objects c3 !! r' = Some q' /\
    p_id q' = p_id q /\ p_node q' = p_node q /\ p_auth q' = p_auth q /\ p_sent q' = p_sent q /\
    (r' <> r -> p_open q' = p_open q)).
  { intros r' q Hq. change (objects c3) with (<[r := p2]> (objects c1)). destruct (decide (r' = r)) as [->|].
    - exists p2. rewrite lookup_insert_eq. assert (q = p1) as -> by congruence. done.
    - exists q. by rewrite lookup_insert_ne. }
  assert (Hpeers : forall x r', peers c3 !! x = Some r' <-> x <> id /\ peers c1 !! x = Some r').
  { intros x r'. change (peers c3) with (delete id (peers c1)). rewrite lookup_delete_Some. intuition congruence. }
  assert (Hgone : peers c3 !! id = None) by apply lookup_delete_eq.
  split.
  - split; [by apply consistent_removeAll, Hw1|]. intros x r' [Hx Hr']%Hpeers.
    destruct (wf_registered c1 Hw1 x r' Hr') as (q & Hq & Hqi & Hqo).
    destruct (Hobj r' q Hq) as (q' & Hq' & E1 & E2 & E3 & E4 & E5). exists q'. split; [done|]. split; [congruence|].
    rewrite E5; [done|]. intros ->. congruence.
  - split.
    + exact (sh_closed _ _ _ Hsh1).
    + intros x r' [_ Hr']%Hpeers. by apply (sh_peers _ _ _ Hsh1).
    + intros x y [Hl _]%Htun. by apply (sh_tunnel _ _ _ Hsh1).
    + intros r' q Hq. destruct (sh_objects _ _ _ Hsh1 r' q Hq) as (q1 & Hq1 & F1 & F2 & F3 & F4).
      destruct (Hobj r' q1 Hq1) as (q' & Hq' & E1 & E2 & E3 & E4 & _). exists q'. split; [done|].
      split; [congruence|]. split; [congruence|]. split; [congruence|]. intros x. rewrite E4.
      destruct (F4 x) as [->|[-> [Hx|Hx]]]; [by left|right..].
      * apply elem_of_singleton in Hx as ->. auto.
      * split; [done|]. right. destruct (peers c3 !! x) eqn:E; [|done]. apply Hpeers in E as [_ E]. congruence.
  - assert (Ht3 : total_sent c3 = total_sent (put r p2 c1)) by done.
    pose proof (total_put c1 r p1 p2 Hp1) as Ht. change (p_sent p2) with (p_sent p1) in Ht. lia.
  - exact Hgone.
  - intros x _ [_ Ht]%Htun. done.
  - intros x r' q _ Hl [Hx Hr']%Hpeers Hq.
    destruct (wf_registered c1 Hw1 x r' Hr') as (q1 & Hq1 & _ & _).
    destruct (Hobj r' q1 Hq1) as (q' & Hq' & _ & _ & _ & E4 & _).
    assert (q' = q) as -> by congruence. rewrite E4. eapply Hun1; [|exact Hr'|exact Hq1].
    rewrite elem_findTunnelPeers by apply Hw. exact Hl.
  - intros r' q Hr'. assert (r' = r) as -> by congruence. change (objects c3) with (<[r := p2]> (objects c1)).
    rewrite lookup_insert_eq. by intros [= <-].
Qed.

Lemma removePeer_removed id k reason c :
  gone k -> wf_peers c -> wp (removePeerLocked id k reason) (fun _ c' => removed id c c') True False c.
Proof. intros Hk Hw. unfold removePeerLocked, wp. apply remove_peer_removes; [done..|lia]. Qed.

(** ** Agreement: peers that share a tunnel know each other's node *)

(** A node as last sent is the node, or one with the same contents. *)
Definition told (n : option Node) (sent : option (option Node)) : Prop :=
  exists n', sent = Some n' /\ (n' = n \/ node_Equal n' n = Ok true).

(** Every registered [x] linked to a registered [y] that has a node was told of
    that node, except for the pairs in [E]. *)
Definition agree_but (E : uuid -> uuid -> Prop) c : Prop := forall x y rx ry px py,
  peers c !! x = Some rx -> objects c !! rx = Some px ->
  peers c !! y = Some ry -> objects c !! ry = Some py ->
  linked (tunnels c) x y -> p_node py <> None -> E x y \/ told (p_node py) (p_sent px !! y).

Definition wf c : Prop := wf_peers c /\ agree_but (fun _ _ => False) c.

(** [c] becomes [c'] by removing peers and telling peers the node [n] of [id]. *)
Definition learns (id : uuid) (n : option Node) c' p p' : Prop :=
  p_id p' = p_id p /\ p_node p' = p_node p /\ p_auth p' = p_auth p /\
  forall y, p_sent p' !! y = p_sent p !! y \/ (p_sent p' !! y = None /\ peers c' !! y = None) \/
            (y = id /\ told n (p_sent p' !! y)).

Record moves (id : uuid) (n : option Node) c c' : Prop := {
  mv_closed : closed c' = closed c;
  mv_peers x r : peers c' !! x = Some r -> peers c !! x = Some r;
  mv_tunnel x y : tunnel (tunnels c') x y -> tunnel (tunnels c) x y;
  mv_objects r p : objects c !! r = Some p -> exists p', objects c' !! r = Some p' /\ learns id n c' p p';
}.

Lemma moves_trans id n c1 c2 c3 : moves id n c1 c2 -> moves id n c2 c3 -> moves id n c1 c3.
Proof.
  intros [a1 b1 d1 e1] [a2 b2 d2 e2]. split; [congruence|eauto..|].
  intros r p Hp. destruct (e1 r p Hp) as (p' & Hp' & I1 & I2 & I3 & I4).
  destruct (e2 r p' Hp') as (p'' & Hp'' & J1 & J2 & J3 & J4).
  exists p''. split; [done|]. do 3 (split; [congruence|]).
  intros x. destruct (J4 x) as [->|[|]]; [|by auto..]. destruct (I4 x) as [->|[[-> Hx]|]]; [by left| |by auto].
  right. left. split; [done|]. destruct (peers c3 !! x) eqn:E; [|done]. apply b2 in E. congruence.
Qed.

Lemma shrinks_moves id n c c' : shrinks ∅ c c' -> moves id n c c'.
Proof.
  intros [a b d e]. split; auto. intros r p Hp. destruct (e r p Hp) as (p' & Hp' & I1 & I2 & I3 & I4).
  exists p'. split; [done|]. do 3 (split; [done|]). intros x. destruct (I4 x) as [|[? [|]]]; [auto|set_solver|auto].
Qed.

Lemma moves_refl id n c : moves id n c c.
Proof. apply shrinks_moves, shrinks_refl. Qed.

Lemma moves_linked id n c c' x y : moves id n c c' -> linked (tunnels c') x y -> linked (tunnels c) x y.
Proof. intros [_ _ Ht _] [|]; [left|right]; auto. Qed.

Lemma moves_put id n r p p' c :
  objects c !! r = Some p -> learns id n c p p' -> moves id n c (put r p' c).
Proof.
  intros Hp Hf. split; eauto. intros r' q Hq. destruct (decide (r' = r)) as [->|Hne].
  - exists p'. rewrite lookup_put. split; [done|]. assert (q = p) as -> by congruence. exact Hf.
  - exists q. unfold put. simpl. rewrite lookup_insert_ne by done. split; [done|]. unfold learns. auto 10.
Qed.

(** Registered peers, before and after. *)
Lemma moves_back id n c c' x r p' :
  moves id n c c' -> wf_peers c -> peers c' !! x = Some r -> objects c' !! r = Some p' ->
  exists p, peers c !! x = Some r /\ objects c !! r = Some p /\ learns id n c' p p'.
Proof.
  intros Hm Hw Hr Hp'. pose proof (mv_peers _ _ _ _ Hm _ _ Hr) as Hr0.
  destruct (wf_registered c Hw x r Hr0) as (p & Hp & _ & _).
  destruct (mv_objects _ _ _ _ Hm r p Hp) as (q & Hq & Hl). exists p. by assert (q = p') as <- by congruence.
Qed.

Lemma agree_moves E id n c c' :
  agree_but E c -> wf_peers c -> moves id n c c' ->
  (forall r p, peers c !! id = Some r -> objects c !! r = Some p -> p_node p <> None -> p_node p = n) ->
  agree_but E c'.
Proof.
  intros Ha Hw Hm Hn x y rx ry px py Hrx Hpx Hry Hpy Hl Hny.
  destruct (moves_back _ _ _ _ _ _ _ Hm Hw Hrx Hpx) as (qx & Hrx0 & Hqx & _ & _ & _ & Hsx).
  destruct (moves_back _ _ _ _ _ _ _ Hm Hw Hry Hpy) as (qy & Hry0 & Hqy & _ & Hnode & _ & _).
  rewrite Hnode in *. destruct (Hsx y) as [->|[[_ Hx]|[-> Hx]]].
  - eapply Ha; eauto. by eapply moves_linked.
  - congruence.
  - right. by rewrite (Hn ry qy).
Qed.

Lemma agree_shrinks E c c' : agree_but E c -> wf_peers c -> shrinks ∅ c c' -> agree_but E c'.
Proof.
  intros Ha Hw Hsh x y rx ry px py Hrx Hpx Hry Hpy Hl Hny.
  destruct (moves_back y (p_node py) c c' y ry py) as (qy & Hry0 & Hqy & _ & Hnode & _);
    [by apply shrinks_moves|done..|].
  eapply (agree_moves E y (p_node py)); [done|done|by apply shrinks_moves| |done..].
  intros r p Hr Hp _. congruence.
Qed.

(** An exception is discharged when one of the two is not registered. *)
Lemma agree_unregistered (E : uuid -> uuid -> Prop) c :
  agree_but E c -> (forall x y, E x y -> peers c !! x = None \/ peers c !! y = None) -> agree_but (fun _ _ => False) c.
Proof.
  intros Ha Hn x y rx ry px py Hrx Hpx Hry Hpy Hl Hny. right.
  destruct (Ha x y rx ry px py) as [He|]; try done. destruct (Hn _ _ He); congruence.
Qed.

Lemma update_node r p id n reason c (F : Prop) :
  objects c !! r = Some p ->
  wp (updateMappingLocked r id n NODE reason) (fun err c' =>
    exists p', c' = put r p' c /\ p_open p' = p_open p /\
      p_id p' = p_id p /\ p_node p' = p_node p /\ p_auth p' = p_auth p /\
      (forall y, y <> id -> p_sent p' !! y = p_sent p !! y) /\
      (p_sent p' !! id = p_sent p !! id \/ told n (p_sent p' !! id)) /\
      (err = None -> told n (p_sent p' !! id))) True F c.
Proof.
  intros Hp. unfold updateMappingLocked, storeMappingLocked. rewrite !wp_bind, wp_deref by done.
  assert (Hset : forall (sent : gmap uuid (option Node)), told n (<[id := n]> sent !! id)).
  { intros sent. exists n. rewrite lookup_insert_eq. auto. }
  assert (Hoth : forall (sent : gmap uuid (option Node)) y, y <> id -> <[id := n]> sent !! y = sent !! y)
    by (intros; by rewrite lookup_insert_ne).
  assert (Hsend : forall u, wp (send r u) (fun err c' =>
    exists p', c' = put r p' c /\ p_open p' = p_open p /\
      p_id p' = p_id p /\ p_node p' = p_node p /\ p_auth p' = p_auth p /\
      (forall y, y <> id -> p_sent p' !! y = p_sent p !! y) /\
      (p_sent p' !! id = p_sent p !! id \/ told n (p_sent p' !! id)) /\
      (err = None -> told n (p_sent p' !! id))) True F (put r (p{{ p_sent ::= <[id := n]> }}) c)).
  { intros u. eapply wp_send; [apply lookup_put|done|..]; intros _ _.
    - rewrite put_put. eexists. split; [reflexivity|]. simpl. auto 10.
    - eexists. split; [reflexivity|]. simpl. auto 10. }
  unfold storeMapping. destruct (p_sent p !! id) as [sn|] eqn:Hs.
  - destruct (node_Equal sn n) as [[]|e] eqn:He; rewrite wp_bind, wp_store, wp_ret.
    + exists p. rewrite Hs. repeat (split; [done|]). split; [by left|]. intros _. exists sn. auto.
    + apply Hsend.
    + exists p. rewrite Hs. repeat (split; [done|]). split; [by left|]. done.
  - rewrite wp_bind, wp_store, wp_ret. apply Hsend.
Qed.

(** *** A node update *)

Lemma told_moves id n c c' x r p' :
  moves id n c c' -> wf_peers c -> peers c' !! x = Some r -> objects c' !! r = Some p' ->
  (forall p, peers c !! x = Some r -> objects c !! r = Some p -> told n (p_sent p !! id)) ->
  told n (p_sent p' !! id) \/ peers c' !! id = None.
Proof.
  intros Hm Hw Hr Hp' Ht. destruct (moves_back _ _ _ _ _ _ _ Hm Hw Hr Hp') as (p & Hr0 & Hp & _ & _ & _ & Hs).
  destruct (Hs id) as [->|[[_ ?]|[_ ?]]]; auto.
Qed.

Lemma node_step id n reason x c :
  wf_peers c ->
  wp (update_tunnel_peer removePeerLocked id n NODE reason x) (fun _ c' =>
    wf_peers c' /\ moves id n c c' /\
    forall r p, peers c' !! x = Some r -> objects c' !! r = Some p ->
      told n (p_sent p !! id)) True False c.
Proof.
  intros Hw. unfold update_tunnel_peer. rewrite wp_bind, wp_gets.
  destruct (peers c !! x) as [r|] eqn:Hr.
  2:{ rewrite wp_ret. split; [done|]. split; [apply moves_refl|]. congruence. }
  destruct (wf_registered c Hw x r Hr) as (p & Hp & Hid & Ho).
  rewrite wp_bind. eapply wp_mono; [by apply (update_node r p)| |done|done].
  intros err c1 (p1 & -> & Ho1 & Hid1 & Hn1 & Ha1 & Hoth & Hsame & Htold).
  assert (Hm : moves id n c (put r p1 c)).
  { apply (moves_put _ _ r p); [done|]. do 3 (split; [done|]). intros y.
    destruct (decide (y = id)) as [->|]; [destruct Hsame; auto|left; auto]. }
  assert (Hw1 : wf_peers (put r p1 c)) by (by apply (wf_put r p)).
  destruct err as [err|].
  - rewrite wp_bind, (wp_deref r p1) by apply lookup_put. rewrite Hid1, Hid.
    eapply wp_mono; [apply removePeer_removed; [by right|done]| |done|done].
    intros [] c2 Hrm. split; [by eapply rm_wf|]. split.
    { eapply moves_trans; [exact Hm|]. apply shrinks_moves. by eapply rm_shrinks. }
    intros r2 p2 Hr2. pose proof (rm_gone _ _ _ Hrm). congruence.
  - rewrite wp_ret. split; [done|]. split; [done|]. intros r2 p2 Hr2 Hp2.
    change (peers (put r p1 c)) with (peers c) in Hr2. assert (r2 = r) as -> by congruence.
    rewrite lookup_put in Hp2. injection Hp2 as <-. by apply Htold.
Qed.

Lemma node_loop id n reason l c :
  wf_peers c ->
  wp (for_each l (update_tunnel_peer removePeerLocked id n NODE reason)) (fun _ c' =>
    wf_peers c' /\ moves id n c c' /\
    forall x r p, x ∈ l -> peers c' !! x = Some r -> objects c' !! r = Some p ->
      told n (p_sent p !! id) \/ peers c' !! id = None) True False c.
Proof.
  revert c. induction l as [|x l IH]; intros c Hw; cbn [for_each].
  - rewrite wp_ret. split; [done|]. split; [apply moves_refl|]. intros x r p []%not_elem_of_nil.
  - rewrite wp_bind. eapply wp_mono; [by apply node_step| |done|done].
    intros [] c1 (Hw1 & Hm1 & Ht1). eapply wp_mono; [by apply IH| |done|done].
    intros [] c2 (Hw2 & Hm2 & Ht2). split; [done|]. split; [by eapply moves_trans|].
    intros y r p [->|Hy]%elem_of_cons Hr Hp; [|by eapply Ht2].
    eapply told_moves; [exact Hm2|done|exact Hr|exact Hp|]. intros q. apply Ht1.
Qed.

(** Replacing an object's node leaves agreement on the other nodes. *)
Lemma agree_set_node r p n c :
  wf c -> objects c !! r = Some p -> agree_but (fun _ y => y = p_id p) (put r (p{{ p_node := n }}) c).
Proof.
  intros [Hw Ha] Hp x y rx ry px py Hrx Hpx Hry Hpy Hl Hny.
  change (peers (put _ _ c)) with (peers c) in *. change (tunnels (put _ _ c)) with (tunnels c) in *.
  destruct (wf_registered c Hw x rx Hrx) as (qx & Hqx & _). destruct (wf_registered c Hw y ry Hry) as (qy & Hqy & Hyi & _).
  destruct (decide (ry = r)) as [->|]; [left; congruence|]. right.
  rewrite lookup_put_ne in Hpy by done. assert (qy = py) as -> by congruence.
  assert (p_sent px = p_sent qx) as ->.
  { destruct (decide (rx = r)) as [->|]; [rewrite lookup_put in Hpx|rewrite lookup_put_ne in Hpx by done; congruence].
    injection Hpx as <-. by assert (qx = p) as -> by congruence. }
  by destruct (Ha x y rx ry qx py).
Qed.

(** The coordinator and the object [r] of a running handler: whatever is
    registered under the object's id is the object. *)
Definition own r p c : Prop :=
  objects c !! r = Some p /\ forall r', peers c !! p_id p = Some r' -> r' = r.

(** The effect of a part of a handler that is run for the object [r]. *)
Definition handles r p c c' : Prop :=
  wf c' /\ (forall x y, tunnel (tunnels c') x y -> tunnel (tunnels c) x y \/ x = p_id p) /\
  exists p', own r p' c' /\ p_id p' = p_id p.

Lemma own_moves id n r p c c' : own r p c -> moves id n c c' -> exists p', own r p' c' /\ p_id p' = p_id p.
Proof.
  intros [Hp Ho] Hm. destruct (mv_objects _ _ _ _ Hm r p Hp) as (p' & Hp' & Hid & _). exists p'.
  split; [|done]. split; [done|]. intros r' Hr'. apply Ho. rewrite <- Hid. by apply (mv_peers _ _ _ _ Hm).
Qed.

Lemma handles_moves id n r p c c' : own r p c -> wf c' -> moves id n c c' -> handles r p c c'.
Proof.
  intros Ho Hw Hm. split; [done|]. split; [intros x y Hx; left; by apply (mv_tunnel _ _ _ _ Hm)|].
  by eapply own_moves.
Qed.

Lemma nodeUpdate_handles r p node c :
  wf c -> own r p c ->
  wp (nodeUpdateLocked r node) (fun err c' => err = None /\ handles r p c c') True False c.
Proof.
  intros Hwf [Hp Ho]. pose proof Hwf as [Hw _]. unfold nodeUpdateLocked. rewrite wp_bind, (wp_deref r p), wp_bind, wp_store by done.
  set (p1 := p{{ p_node := node }}). pose proof (agree_set_node r p node c Hwf Hp) as Ha1.
  change (p{{ p_node := node }}) with p1 in Ha1. set (c1 := put r p1 c) in *.
  assert (Hw1 : wf_peers c1) by (by apply (wf_put r p)).
  assert (Hown1 : own r p1 c1) by (split; [apply lookup_put|exact Ho]).
  rewrite wp_bind. unfold updateTunnelPeersLocked, update_tunnel_peers. rewrite wp_bind, wp_gets.
  eapply wp_mono; [by apply node_loop| |done|done]. intros [] c2 (Hw2 & Hm & Htold). rewrite wp_ret.
  assert (Hnode : forall ro po, peers c1 !! p_id p = Some ro -> objects c1 !! ro = Some po -> p_node po = node).
  { intros ro po Hro Hpo. assert (ro = r) as -> by (apply Ho; exact Hro). unfold c1 in Hpo.
    rewrite lookup_put in Hpo. by injection Hpo as <-. }
  split; [done|]. split; [|split; [intros x y Hx; left; exact (mv_tunnel _ _ _ _ Hm _ _ Hx)|by eapply (own_moves _ _ r p1)]].
  split; [done|]. pose proof (agree_moves _ _ _ _ _ Ha1 Hw1 Hm ltac:(eauto)) as Ha2.
  intros x y rx ry px py Hrx Hpx Hry Hpy Hl Hny. right.
  destruct (Ha2 x y rx ry px py) as [->|]; try done.
  destruct (moves_back _ _ _ _ _ _ _ Hm Hw1 Hry Hpy) as (qy & Hry1 & Hqy & _ & Hn & _).
  assert (p_node py = node) as -> by (rewrite Hn; by eapply Hnode).
  destruct (Htold x rx px) as [|Hnone]; try done; [|congruence].
  rewrite elem_findTunnelPeers by apply Hw1. destruct (moves_linked _ _ _ _ _ _ Hm Hl); [by right|by left].
Qed.

(** *** Adding and removing a tunnel *)

Definition pair (x y a b : uuid) : Prop := (a = x /\ b = y).

Lemma agree_weaken (E E' : uuid -> uuid -> Prop) c :
  agree_but E c -> (forall x y, E x y -> E' x y) -> agree_but E' c.
Proof. intros Ha HE x y rx ry px py ?????? . destruct (Ha x y rx ry px py) as [|]; auto. Qed.

(** Telling [r] the node of [y] discharges the pair. *)
Lemma tell_node E r p y n reason c :
  wf_peers c -> agree_but E c -> own r p c ->
  (forall r' q, peers c !! y = Some r' -> objects c !! r' = Some q -> p_node q = Some n) ->
  wp (updateMappingLocked r y (Some n) NODE reason) (fun err c' =>
    wf_peers c' /\ agree_but E c' /\ moves y (Some n) c c' /\
    (err = None -> agree_but (fun a b => E a b /\ ~ pair (p_id p) y a b) c')) True False c.
Proof.
  intros Hw Ha [Hp Ho] Hn. eapply wp_mono; [by apply (update_node r p)| |done|done].
  intros err c1 (p1 & -> & Ho1 & Hid1 & Hn1 & Ha1 & Hoth & Hsame & Htold).
  assert (Hm : moves y (Some n) c (put r p1 c)).
  { apply (moves_put _ _ r p); [done|]. do 3 (split; [done|]). intros z.
    destruct (decide (z = y)) as [->|]; [destruct Hsame; auto|left; auto]. }
  assert (Hag : agree_but E (put r p1 c)) by (eapply agree_moves; eauto).
  split; [by apply (wf_put r p)|]. split; [done|]. split; [done|]. intros Herr.
  intros a b ra rb pa pb Hra Hpa Hrb Hpb Hl Hnb.
  destruct (Hag a b ra rb pa pb) as [HE|]; try done; [|by right].
  destruct (decide (a = p_id p)) as [->|]; [|left; unfold pair; tauto].
  destruct (decide (b = y)) as [->|]; [right|left; unfold pair; tauto].
  assert (ra = r) as -> by (by apply Ho). rewrite lookup_put in Hpa. injection Hpa as <-.
  assert (p_node pb = Some n) as ->; [|by apply Htold].
  destruct (moves_back _ _ _ _ _ _ _ Hm Hw Hrb Hpb) as (qb & Hrb0 & Hqb & _ & -> & _). by eapply Hn.
Qed.

(** A peer without a node need not be told of. *)
Lemma agree_no_node (E : uuid -> uuid -> Prop) a b c :
  agree_but E c -> (forall r q, peers c !! b = Some r -> objects c !! r = Some q -> p_node q = None) ->
  agree_but (fun x y => E x y /\ ~ pair a b x y) c.
Proof.
  intros Ha Hn x y rx ry px py Hrx Hpx Hry Hpy Hl Hny.
  destruct (Ha x y rx ry px py) as [|]; try done; [|by right]. left. split; [done|].
  intros [-> ->]. apply Hny. by eapply Hn.
Qed.

Lemma agree_no_pairs (E : uuid -> uuid -> Prop) c :
  agree_but E c -> (forall x y, E x y -> False) -> agree_but (fun _ _ => False) c.
Proof. intros Ha HE. by eapply agree_weaken. Qed.

Lemma add_tunnel_wf a b c :
  wf c -> wf_peers (c{{ tunnels ::= fun t => add t a b }}) /\
  agree_but (fun x y => pair a b x y \/ pair b a x y) (c{{ tunnels ::= fun t => add t a b }}).
Proof.
  intros [[Ht Hw] Ha]. split; [split; [by apply consistent_add|done]|].
  intros x y rx ry px py Hrx Hpx Hry Hpy Hl Hny. unfold linked in Hl. simpl in Hl. rewrite !tunnel_add in Hl.
  unfold pair. destruct Hl as [[|]|[|]]; try tauto; right;
    (destruct (Ha x y rx ry px py) as [|]; try done; first [by left|by right]).
Qed.

(** A failed update removes the peer, which discharges the pairs it is in. *)
Lemma remove_discharges E id c :
  wf_peers c -> agree_but E c -> (forall x y, E x y -> x = id \/ y = id) ->
  wp (removePeerLocked id DISCONNECTED "failed update") (fun _ c' => wf c' /\ shrinks ∅ c c') True False c.
Proof.
  intros Hw Ha HE. eapply wp_mono; [apply removePeer_removed; [by right|done]| |done|done].
  intros [] c' Hrm. pose proof (rm_shrinks _ _ _ Hrm) as Hsh. pose proof (rm_gone _ _ _ Hrm) as Hg.
  split; [|done]. split; [by eapply rm_wf|].
  eapply agree_unregistered; [by eapply agree_shrinks|]. intros x y [->| ->]%HE; auto.
Qed.

(** The last part of [addTunnelLocked]: telling the destination. *)
Lemma tell_destination r s dst d c (n : option Node) (sid did : uuid) :
  p_node s = n -> p_id s = sid -> p_id d = did ->
  wf_peers c -> agree_but (pair did sid) c -> own r s c -> own dst d c ->
  wp (match n with
      | None => mret None
      | Some n =>
          err ← updateMappingLocked dst sid (Some n) NODE "add tunnel";
          match err with
          | Some _ => _ ← removePeerLocked did DISCONNECTED "failed update"; mret None
          | None => mret None
          end
      end : M (option CoordError)) (fun _ c' => wf c' /\ exists y n, moves y n c c') True False c.
Proof.
  intros <- <- <- Hw Ha [Hs Hos] Hd. destruct (p_node s) as [n'|] eqn:Hn.
  - rewrite wp_bind. eapply wp_mono; [apply (tell_node (pair (p_id d) (p_id s)) dst d); [done..|]| |done|done].
    { intros r' q Hr' Hq. assert (r' = r) as -> by (by apply Hos). congruence. }
    intros err c1 (Hw1 & Ha1 & Hm1 & Hagree). destruct err as [err|].
    + rewrite wp_bind. eapply wp_mono; [eapply remove_discharges; [done|exact Ha1|by intros x y [-> _]; left]| |done|done].
      intros [] c2 [Hw2 Hsh2]. rewrite wp_ret. split; [done|]. do 2 eexists.
      eapply moves_trans; [exact Hm1|]. by apply shrinks_moves.
    + rewrite wp_ret. split; [split; [done|]|by eauto].
      apply (agree_no_pairs _ _ (Hagree eq_refl)). intros x y [H1 H2]. by apply H2.
  - rewrite wp_ret. split; [split; [done|]|exists 0%N, None; apply moves_refl].
    assert (Hnn : forall r' q, peers c !! p_id s = Some r' -> objects c !! r' = Some q -> p_node q = None).
    { intros r' q Hr' Hq. assert (r' = r) as -> by (by apply Hos). congruence. }
    apply (agree_no_pairs _ _ (agree_no_node _ (p_id d) (p_id s) c Ha Hnn)). intros x y [H1 H2]. by apply H2.
Qed.

Lemma own_moves_node id n r p c c' :
  own r p c -> moves id n c c' -> exists p', own r p' c' /\ p_id p' = p_id p /\ p_node p' = p_node p.
Proof.
  intros [Hp Ho] Hm. destruct (mv_objects _ _ _ _ Hm r p Hp) as (p' & Hp' & Hid & Hn & _). exists p'.
  split; [|done]. split; [done|]. intros r' Hr'. apply Ho. rewrite <- Hid. by apply (mv_peers _ _ _ _ Hm).
Qed.

Lemma addTunnel_handles r s d c :
  wf c -> own r s c -> wp (addTunnelLocked r d) (fun _ c' => handles r s c c') True False c.
Proof.
  intros Hwf Hown. unfold addTunnelLocked. rewrite wp_bind, (wp_deref r s) by apply Hown.
  rewrite wp_bind, wp_modify. destruct (add_tunnel_wf (p_id s) d c Hwf) as [Hw1 Ha1].
  set (c1 := c{{ tunnels ::= fun t => add t (p_id s) d }}) in *.
  assert (Hown1 : own r s c1) by exact Hown.
  assert (Hfin : forall c', wf c' -> (exists y n, moves y n c1 c') -> handles r s c c').
  { intros c' Hw' (y & n & Hm). split; [done|]. split; [|by eapply own_moves].
    intros a b Hab%(mv_tunnel _ _ _ _ Hm). apply tunnel_add in Hab as [[-> _]|]; auto. }
  rewrite wp_bind, wp_gets. destruct (peers c1 !! d) as [dst|] eqn:Hd.
  2:{ rewrite wp_ret. apply Hfin; [|exists 0%N, None; apply moves_refl]. split; [done|].
      eapply agree_unregistered; [exact Ha1|]. unfold pair. intros x y [[-> ->]|[-> ->]]; auto. }
  destruct (wf_registered c1 Hw1 d dst Hd) as (dp & Hdp & Hdid & _). rewrite wp_bind, (wp_deref dst dp) by done.
  assert (Hownd : own dst dp c1) by (split; [done|]; intros r'; rewrite Hdid; congruence).
  destruct (p_node dp) as [n|] eqn:Hn.
  - rewrite wp_bind. eapply wp_mono; [apply (tell_node (fun x y => pair (p_id s) d x y \/ pair d (p_id s) x y) r s d n); [exact Hw1|exact Ha1|done|]| |done|done].
    { intros r' q Hr' Hq. congruence. }
    intros err c2 (Hw2 & Ha2 & Hm2 & Hagree). destruct err as [err|].
    + rewrite wp_bind. eapply wp_mono; [eapply remove_discharges; [done|exact Ha2|]| |done|done].
      { unfold pair. intros x y [[-> _]|[_ ->]]; auto. }
      intros [] c3 [Hw3 Hsh3]. rewrite wp_ret. apply Hfin; [done|]. do 2 eexists.
      eapply moves_trans; [exact Hm2|]. by apply shrinks_moves.
    + destruct (own_moves_node _ _ r s c1 c2 Hown1 Hm2) as (s2 & Hs2 & Hid2 & Hn2).
      destruct (own_moves_node _ _ dst dp c1 c2 Hownd Hm2) as (d2 & Hd2 & Hdid2 & _).
      eapply wp_mono; [apply (tell_destination r s2 dst d2 c2 (p_node s) (p_id s) (p_id dp))| |done|done]; try done.
      { eapply agree_weaken; [apply (Hagree eq_refl)|]. rewrite Hdid. unfold pair. intros x y [[|] ?]; tauto. }
      intros err c3 [Hw3 (y & n3 & Hm3)]. split; [done|].
      assert (Hmt : forall a b, tunnel (tunnels c3) a b -> tunnel (tunnels c1) a b)
        by (intros a b Hab; apply (mv_tunnel _ _ _ _ Hm2), (mv_tunnel _ _ _ _ Hm3), Hab).
      split; [intros a b Hab%Hmt; apply tunnel_add in Hab as [[-> _]|]; auto|].
      destruct (own_moves _ _ r s2 c2 c3 Hs2 Hm3) as (s3 & Hs3 & Hid3). exists s3. split; [done|congruence].
  - rewrite wp_bind, wp_ret.
    eapply wp_mono; [apply (tell_destination r s dst dp c1 (p_node s) (p_id s) (p_id dp))| |done|done]; try done.
    { eapply agree_weaken; [apply (agree_no_node (fun x y => pair (p_id s) d x y \/ pair d (p_id s) x y) (p_id s) d c1 Ha1)|].
      - intros r' q Hr' Hq. congruence.
      - rewrite Hdid. unfold pair. intros x y [[|] ?]; tauto. }
    intros err c2 [Hw2 Hm]. by apply Hfin.
Qed.

Lemma agree_put (E : uuid -> uuid -> Prop) r p p' id c :
  wf_peers c -> agree_but E c -> objects c !! r = Some p -> p_id p' = p_id p -> p_node p' = p_node p ->
  (forall y, y <> id -> p_sent p' !! y = p_sent p !! y) ->
  agree_but (fun x y => E x y \/ pair (p_id p) id x y) (put r p' c).
Proof.
  intros Hw Ha Hp Hid Hn Hs x y rx ry px py Hrx Hpx Hry Hpy Hl Hny.
  change (peers (put _ _ c)) with (peers c) in *. change (tunnels (put _ _ c)) with (tunnels c) in *.
  destruct (wf_registered c Hw x rx Hrx) as (qx & Hqx & Hxi & _). destruct (wf_registered c Hw y ry Hry) as (qy & Hqy & Hyi & _).
  assert (Hny' : p_node py = p_node qy).
  { destruct (decide (ry = r)) as [->|]; [rewrite lookup_put in Hpy|rewrite lookup_put_ne in Hpy by done]; congruence. }
  rewrite Hny' in *. destruct (Ha x y rx ry qx qy) as [|Ht]; try done; [by left; left|].
  destruct (decide (rx = r)) as [->|].
  - rewrite lookup_put in Hpx. injection Hpx as <-. assert (qx = p) as -> by congruence.
    destruct (decide (y = id)) as [->|]; [left; right; by split|right]. by rewrite Hs.
  - rewrite lookup_put_ne in Hpx by done. right. by assert (qx = px) as <- by congruence.
Qed.

(** Telling [r] that [id] is gone leaves all other knowledge. *)
Lemma untell (E : uuid -> uuid -> Prop) r p id n k reason c :
  wf_peers c -> agree_but E c -> own r p c -> gone k ->
  wp (updateMappingLocked r id n k reason) (fun err c' =>
    wf_peers c' /\ agree_but (fun x y => E x y \/ pair (p_id p) id x y) c' /\
    exists p', c' = put r p' c /\ own r p' c' /\ p_id p' = p_id p) True False c.
Proof.
  intros Hw Ha [Hp Ho] Hk. eapply wp_mono; [by apply (update_gone r p)| |done|done].
  intros err c1 (l & -> & _ & _). split; [by apply (wf_put r p)|]. split.
  - apply (agree_put E r p); try done. intros y Hy. simpl. by rewrite lookup_delete_ne.
  - eexists. split; [reflexivity|]. split; [|done]. split; [apply lookup_put|exact Ho].
Qed.

Lemma remove_tunnel_wf a b c :
  wf_peers c -> agree_but (fun x y => pair a b x y \/ pair b a x y) c -> (b <> a -> ~ tunnel (tunnels c) b a) ->
  wf (c{{ tunnels ::= fun t => remove t a b }}).
Proof.
  intros [Ht Hw] Ha Hrev. split; [split; [by apply consistent_remove|done]|].
  intros x y rx ry px py Hrx Hpx Hry Hpy Hl Hny. right. unfold linked in Hl. simpl in Hl. rewrite !tunnel_remove in Hl.
  destruct (Ha x y rx ry px py) as [Hp|]; try done.
  - unfold linked. tauto.
  - exfalso. unfold pair in Hp. destruct (decide (b = a)) as [->|Hne]; [|specialize (Hrev Hne)];
      destruct Hp as [[-> ->]|[-> ->]]; destruct Hl as [[? Hl]|[? Hl]]; try done; by apply Hl.
Qed.

Lemma removeTunnel_handles r s d c :
  wf c -> own r s c -> (d <> p_id s -> ~ tunnel (tunnels c) d (p_id s)) ->
  wp (removeTunnelLocked r d) (fun _ c' => handles r s c c') True False c.
Proof.
  intros [Hw Ha] Hown Hrev. unfold removeTunnelLocked. rewrite wp_bind, (wp_deref r s) by apply Hown.
  rewrite wp_bind. eapply wp_mono; [apply (untell _ r s d None DISCONNECTED _ c Hw Ha Hown); by right| |done|done].
  intros err c1 (Hw1 & Ha1 & s1 & -> & Hown1 & Hid1). set (c1 := put r s1 c) in *.
  destruct err as [err|].
  - rewrite wp_bind. eapply wp_mono; [eapply remove_discharges; [done|exact Ha1|]| |done|done].
    { unfold pair. intros x y [[]|[-> _]]; auto. }
    intros [] c2 [Hw2 Hsh2]. rewrite wp_ret. split; [done|].
    split; [intros x y Hx; left; exact (sh_tunnel _ _ _ Hsh2 _ _ Hx)|].
    destruct (own_moves 0%N None r s1 c1 c2 Hown1) as (s2 & Hs2 & Hid2); [by apply shrinks_moves|].
    exists s2. split; [done|congruence].
  - rewrite wp_bind, wp_gets, wp_bind.
    set (post := fun c2 => wf_peers c2 /\ agree_but (fun x y => pair (p_id s) d x y \/ pair d (p_id s) x y) c2 /\
      (forall x y, tunnel (tunnels c2) x y -> tunnel (tunnels c) x y) /\ exists s2, own r s2 c2 /\ p_id s2 = p_id s).
    assert (Hfin : forall c2, post c2 ->
      wp (_ ← modify (fun c => c{{ tunnels ::= fun t => remove t (p_id s) d }}); mret None)
        (fun (_ : option CoordError) c' => handles r s c c') True False c2).
    { intros c2 (Hw2 & Ha2 & Ht2 & s2 & Hs2 & Hid2). rewrite wp_bind, wp_modify, wp_ret. split; [|split].
      - apply remove_tunnel_wf; [done|done|]. intros Hne Ht. by apply (Hrev Hne), Ht2.
      - intros x y [Hx _]%tunnel_remove. left. auto.
      - exists s2. by split. }
    destruct (peers c1 !! d) as [dst|] eqn:Hd.
    + destruct (wf_registered c1 Hw1 d dst Hd) as (dp & Hdp & Hdid & _).
      assert (Hownd : own dst dp c1) by (split; [done|]; intros r'; rewrite Hdid; congruence).
      rewrite wp_bind. eapply wp_mono; [apply (untell _ dst dp (p_id s) None DISCONNECTED _ c1 Hw1 Ha1 Hownd); by right| |done|done].
      intros err c2 (Hw2 & Ha2 & d2 & -> & Hown2 & Hid2). set (c2 := put dst d2 c1) in *.
      assert (Hm : exists s2, own r s2 c2 /\ p_id s2 = p_id s).
      { destruct (decide (dst = r)) as [->|Hne].
        - exists d2. split; [done|]. destruct Hown1 as [Hs1 _]. congruence.
        - exists s1. split; [|done]. destruct Hown1 as [Hs1 Ho1]. split; [|exact Ho1].
          unfold c2. by rewrite lookup_put_ne. }
      rewrite Hdid in *. destruct err as [err|].
      * rewrite wp_bind, (wp_deref dst d2) by apply lookup_put. rewrite Hid2.
        eapply wp_mono; [eapply remove_discharges; [done|exact Ha2|]| |done|done].
        { unfold pair. intros x y [[[]|[_ ->]]|[-> _]]; auto. }
        intros [] c3 [[Hw3 Ha3] Hsh3]. apply Hfin. split; [done|]. split; [by eapply agree_weaken|].
        split; [intros x y Hx; exact (sh_tunnel _ _ _ Hsh3 _ _ Hx)|].
        destruct Hm as (s2 & Hs2 & Hi2). destruct (own_moves 0%N None r s2 c2 c3 Hs2) as (s3 & Hs3 & Hi3);
          [by apply shrinks_moves|]. exists s3. split; [done|congruence].
      * rewrite wp_ret. apply Hfin. split; [done|]. split; [eapply agree_weaken; [exact Ha2|]; intros x y; cbv beta; tauto|done].
    + rewrite wp_ret. apply Hfin. split; [done|]. split; [eapply agree_weaken; [exact Ha1|]; intros x y; cbv beta; tauto|].
      split; [done|]. by exists s1.
Qed.

(** *** Requests *)

Lemma send_shrinks r p resp c :
  wf c -> objects c !! r = Some p -> wp (send r resp) (fun _ c' => wf c' /\ shrinks ∅ c c') True False c.
Proof.
  intros [Hw Ha] Hp. eapply wp_send; [done|done|..]; intros Ho Hl; [|split; [done|apply shrinks_refl]].
  assert (Hsh : shrinks ∅ c (put r (p{{ p_resps ::= fun l => l ++ [resp] }}) c)).
  { apply (shrinks_put _ r p); [done|]. do 3 (split; [done|]). by left. }
  split; [|done]. split; [by apply (wf_put r p)|]. by eapply agree_shrinks.
Qed.

Lemma handles_shrinks r p c c' : own r p c -> wf c' -> shrinks ∅ c c' -> handles r p c c'.
Proof. intros Ho Hw Hsh. eapply (handles_moves 0%N None); [done..|by apply shrinks_moves]. Qed.

Lemma handles_trans r p p1 c c1 c2 :
  p_id p1 = p_id p -> handles r p c c1 -> handles r p1 c1 c2 -> handles r p c c2.
Proof.
  intros Hid (H1 & H2 & H3) (J1 & J2 & p2 & J3 & J4). split; [done|]. split.
  - intros x y Hx. destruct (J2 _ _ Hx) as [Hx'| ->]; [by apply H2|right; congruence].
  - exists p2. split; [done|congruence].
Qed.

Lemma readyForHandshake_handles r p l c :
  wf c -> own r p c -> wp (handleReadyForHandshakeLocked r l) (fun _ c' => wf c') True False c.
Proof.
  revert p c. induction l as [|[d|] l IH]; intros p c Hwf Hown; cbn [handleReadyForHandshakeLocked]; [done| |done].
  rewrite wp_bind, (wp_deref r p) by apply Hown. rewrite wp_bind, wp_gets.
  assert (Hgo : forall c' (err : option CoordError), wf c' -> shrinks ∅ c c' ->
    wp (match err with Some e => mret (Some e) | None => handleReadyForHandshakeLocked r l end)
      (fun _ c' => wf c') True False c').
  { intros c' [err|] Hw' Hsh'; [done|].
    destruct (own_moves 0%N None r p c c' Hown) as (p' & Hp' & _); [by apply shrinks_moves|]. by eapply IH. }
  destruct (tunnelExists _ _ _); cbn [negb].
  - rewrite wp_bind, wp_gets. destruct (peers c !! d) as [o|] eqn:Hd; [|by eapply IH].
    destruct (wf_registered c (proj1 Hwf) d o Hd) as (q & Hq & _). rewrite wp_bind.
    eapply wp_mono; [by apply (send_shrinks o q)| |done|done]. intros err c' [Hw' Hsh']. by apply Hgo.
  - rewrite wp_bind. eapply wp_mono; [apply (send_shrinks r p); [done|apply Hown]| |done|done].
    intros err c' [Hw' Hsh']. by apply Hgo.
Qed.

Lemma wp_stage (part : M (option (option CoordError))) rest (Q : option CoordError -> Core -> Prop) P F c :
  wp part (fun res c' => match res with Some e => Q e c' | None => wp rest Q P F c' end) P F c ->
  wp (stage part rest) Q P F c.
Proof.
  intros Hp. unfold stage. rewrite wp_bind. eapply wp_mono; [exact Hp| |done|done]. by intros [e|] c' Hc.
Qed.

Lemma wp_stage_result ctx err (Q : option (option CoordError) -> Core -> Prop) P F c :
  (forall res, Q res c) -> wp (stage_result ctx err) Q P F c.
Proof. intros HQ. destruct err as [[]|]; apply HQ. Qed.

(** A stage that handles the request's part, followed by the rest. *)
Lemma stage_handles r p c (part : M (option (option CoordError))) rest :
  wp part (fun _ c' => handles r p c c') True False c ->
  (forall c' p', handles r p c c' -> own r p' c' -> p_id p' = p_id p -> wp rest (fun _ c' => wf c') True False c') ->
  wp (stage part rest) (fun _ c' => wf c') True False c.
Proof.
  intros Hp Hr. apply wp_stage. eapply wp_mono; [exact Hp| |done|done].
  intros [e|] c' Hh; pose proof Hh as (Hw & _ & p' & Hp' & Hid); [done|]. by eapply Hr.
Qed.

Lemma tunnel_stage_handles f ctx r p req c :
  wf c -> own r p c -> (forall d, req = Some (Some d) -> wp (f r d) (fun _ c' => handles r p c c') True False c) ->
  wp (tunnel_stage f ctx r req) (fun _ c' => handles r p c c') True False c.
Proof.
  intros Hwf Hown Hf. assert (Hid : handles r p c c) by (apply handles_shrinks; [done|done|apply shrinks_refl]).
  destruct req as [[d|]|]; [|exact Hid..]. cbn [tunnel_stage]. rewrite wp_bind.
  eapply wp_mono; [by apply Hf| |done|done]. intros err c' Hh. by apply wp_stage_result.
Qed.

(** The tunnel a request removes is not doubled by one in the other direction. *)
Definition one_way r (req : CoordinateRequest) c : Prop := forall p d,
  objects c !! r = Some p -> rq_RemoveTunnel req = Some (Some d) -> d <> p_id p -> ~ tunnel (tunnels c) d (p_id p).

Lemma handleRequest_wf r req c :
  wf c -> one_way r req c -> wp (handleRequest r req) (fun _ c' => wf c') True False c.
Proof.
  intros Hwf Hone. unfold handleRequest. rewrite wp_bind, wp_gets. destruct (closed c); [done|].
  rewrite wp_bind. destruct (objects c !! r) as [p|] eqn:Hp; [|unfold wp, deref; by rewrite Hp].
  rewrite (wp_deref r p), wp_bind, wp_gets by done. destruct (bool_decide_reflect (peers c !! p_id p = Some r)) as [Hr|]; [|done].
  cbn [negb]. destruct (p_auth p req); [|done..].
  assert (Hown : own r p c) by (split; [done|]; congruence).
  apply (stage_handles r p).
  { destruct (rq_UpdateSelf req) as [node|]; [|apply handles_shrinks; [done|done|apply shrinks_refl]].
    rewrite wp_bind. eapply wp_mono; [by apply (nodeUpdate_handles r p)| |done|done].
    intros err c' [_ Hh]. by apply wp_stage_result. }
  intros c1 p1 Hh1 Hown1 Hid1. apply (stage_handles r p1).
  { apply tunnel_stage_handles; [apply Hh1|done|]. intros d _. apply addTunnel_handles; [apply Hh1|done]. }
  intros c2 p2 Hh2 Hown2 Hid2. apply (stage_handles r p2).
  { apply tunnel_stage_handles; [apply Hh2|done|]. intros d Hd. apply removeTunnel_handles; [apply Hh2|done|].
    rewrite Hid2, Hid1. intros Hne Ht. apply (Hone p d Hp Hd Hne).
    destruct Hh1 as (_ & Ht1 & _), Hh2 as (_ & Ht2 & _). destruct (Ht2 _ _ Ht) as [Ht'|]; [|congruence].
    destruct (Ht1 _ _ Ht') as [|]; [done|congruence]. }
  intros c3 p3 Hh3 Hown3 Hid3. rewrite wp_bind.
  assert (Hrfh : forall c4 p4, wf c4 -> own r p4 c4 ->
    wp (err ← handleReadyForHandshakeLocked r (rq_ReadyForHandshake req);
        match err with Some _ => mret (Some (ErrOther "handle ack")) | None => mret None end)
      (fun _ c' => wf c') True False c4).
  { intros c4 p4 Hw4 Hown4. rewrite wp_bind. eapply wp_mono; [by eapply readyForHandshake_handles| |done|done].
    by intros [err|] c' Hc. }
  destruct (rq_Disconnect req).
  - destruct Hh3 as ([Hw3 Ha3] & _). eapply wp_mono; [apply removePeer_removed; [by right|done]| |done|done].
    intros [] c4 Hrm. destruct (own_moves 0%N None r p3 c3 c4 Hown3) as (p4 & Hown4 & _);
      [by apply shrinks_moves; eapply rm_shrinks|]. eapply Hrfh; [|done].
    split; [by eapply rm_wf|]. eapply agree_shrinks; [exact Ha3|done|by eapply rm_shrinks].
  - rewrite wp_ret. eapply Hrfh; [apply Hh3|done].
Qed.

Lemma lostPeer_wf r c : wf c -> wp (lostPeer r) (fun _ c' => wf c') True False c.
Proof.
  intros [Hw Ha]. unfold lostPeer. rewrite wp_bind, wp_gets. destruct (closed c); [done|].
  rewrite wp_bind. destruct (objects c !! r) as [p|] eqn:Hp; [|unfold wp, deref; by rewrite Hp].
  rewrite (wp_deref r p), wp_bind, wp_gets by done. case_bool_decide; [|done]. rewrite wp_bind.
  eapply wp_mono; [apply removePeer_removed; [by left|done]| |done|done].
  intros [] c' Hrm. rewrite wp_ret. split; [by eapply rm_wf|]. eapply agree_shrinks; [exact Ha|done|by eapply rm_shrinks].
Qed.

Lemma serve_wf r req c : wf c -> one_way r req c -> wp (serve r req) (fun _ c' => wf c') True False c.
Proof.
  intros Hwf Hone. unfold serve. rewrite wp_bind. eapply wp_mono; [by apply handleRequest_wf| |done|done].
  intros [err|] c1 Hw1; [|done]. rewrite wp_bind. eapply wp_mono; [by apply lostPeer_wf| |done|done]. done.
Qed.

Lemma receive_wf r c : wf c -> wp (receive r) (fun _ c' => wf c') True False c.
Proof.
  intros [Hw Ha]. unfold receive. rewrite wp_bind.
  destruct (objects c !! r) as [p|] eqn:Hp; [|unfold wp, deref; by rewrite Hp].
  rewrite (wp_deref r p), wp_store by done. split; [by apply (wf_put r p)|].
  eapply agree_shrinks; [exact Ha|done|]. apply (shrinks_put _ r p); [done|]. do 3 (split; [done|]). by left.
Qed.

(** *** Connecting, and closing *)

Lemma batch_loop_told r c q l us :
  wf_peers c -> peers c !! p_id q = Some r -> p_node q = None -> NoDup l ->
  (forall y, is_Some (p_sent q !! y) -> y ∉ l) ->
  wp (batch_loop r ((fun x => peers c !! x) <$> l) NODE "init" us) (fun res c' => exists us' q',
    res = Ok us' /\ c' = put r q' c /\ p_id q' = p_id q /\ p_node q' = None /\ p_open q' = p_open q /\
    p_resps q' = p_resps q /\ (forall y, y ∉ l -> p_sent q' !! y = p_sent q !! y) /\
    forall x rx px, x ∈ l -> peers c !! x = Some rx -> objects (put r q' c) !! rx = Some px ->
      p_node px <> None -> told (p_node px) (p_sent q' !! x)) False False (put r q c).
Proof.
  intros Hw Hreg. revert q us Hreg. induction l as [|x l IH]; intros q us Hreg Hnode Hnd Hsent.
  { cbn. exists us, q. repeat (split; [done|]). intros x rx px []%not_elem_of_nil. }
  apply NoDup_cons in Hnd as [Hx Hnd]. rewrite fmap_cons. cbn [batch_loop].
  assert (Hskip : forall o, peers c !! x = Some o -> o <> r ->
    exists po, objects c !! o = Some po /\ objects (put r q c) !! o = Some po /\ p_id po = x).
  { intros o Ho Hne. destruct (wf_registered c Hw x o Ho) as (po & Hpo & Hid & _). exists po.
    by rewrite lookup_put_ne. }
  assert (Hnext : (forall rx px, peers c !! x = Some rx -> forall q', p_node q' = None -> objects (put r q' c) !! rx = Some px -> p_node px = None) ->
    wp (batch_loop r ((fun x => peers c !! x) <$> l) NODE "init" us) (fun res c' => exists us' q',
    res = Ok us' /\ c' = put r q' c /\ p_id q' = p_id q /\ p_node q' = None /\ p_open q' = p_open q /\
    p_resps q' = p_resps q /\ (forall y, y ∉ x :: l -> p_sent q' !! y = p_sent q !! y) /\
    forall y ry py, y ∈ x :: l -> peers c !! y = Some ry -> objects (put r q' c) !! ry = Some py ->
      p_node py <> None -> told (p_node py) (p_sent q' !! y)) False False (put r q c)).
  { intros Hnone. eapply wp_mono; [apply (IH q us); [done..|]| |done|done].
    { intros y Hy Hin. apply (Hsent y Hy). by right. }
    intros res c' (us' & q' & -> & -> & H1 & H2 & H3 & H4 & H5 & H6). exists us', q'.
    do 6 (split; [done|]). split; [intros y [_ Hy]%not_elem_of_cons; auto|].
    intros y ry py [->|Hy]%elem_of_cons Hry Hpy Hne; [|by eapply H6]. exfalso. eapply Hne, Hnone; done. }
  destruct (peers c !! x) as [o|] eqn:Ho; [|apply Hnext; congruence].
  destruct (decide (o = r)) as [->|Hne].
  { rewrite wp_bind, (wp_deref r q), Hnode by apply lookup_put. apply Hnext.
    intros rx px ? q' Hq'. simplify_eq. rewrite lookup_put. congruence. }
  destruct (Hskip o eq_refl Hne) as (po & Hpo & Hpo' & Hid). rewrite wp_bind, (wp_deref o po) by done.
  destruct (p_node po) as [n|] eqn:Hn.
  2:{ apply Hnext. intros rx px ? q' Hq'. simplify_eq. rewrite lookup_put_ne by done. congruence. }
  unfold storeMappingLocked. rewrite wp_bind, wp_bind, (wp_deref r q) by apply lookup_put. rewrite Hid.
  assert (Hnew : p_sent q !! x = None).
  { destruct (p_sent q !! x) eqn:E; [|done]. exfalso. apply (Hsent x); [by rewrite E|by left]. }
  unfold storeMapping. rewrite Hnew, wp_bind, wp_store, wp_ret, put_put.
  set (q1 := q{{ p_sent ::= <[x := Some n]> }}).
  eapply wp_mono; [apply (IH q1); [done..|]| |done|done].
  { intros y Hy Hin. destruct (decide (y = x)) as [->|]; [done|]. apply (Hsent y); [|by right].
    change (p_sent q1) with (<[x := Some n]> (p_sent q)) in Hy. by rewrite lookup_insert_ne in Hy. }
  intros res c' (us' & q' & -> & -> & H1 & H2 & H3 & H4 & H5 & H6). exists us', q'.
  do 6 (split; [done|]). split.
  - intros y [Hyx Hy]%not_elem_of_cons. rewrite H5 by done. by apply lookup_insert_ne.
  - intros y ry py [->|Hy]%elem_of_cons Hry Hpy Hne'; [|by eapply H6]. rewrite H5 by done.
    simplify_eq. rewrite lookup_put_ne in Hpy by done. simplify_eq. rewrite Hn. exists (Some n).
    split; [apply lookup_insert_eq|by left].
Qed.

Lemma put_fresh_wf r p c : wf c -> objects c !! r = None -> wf (put r p c).
Proof.
  intros [[Ht Hw] Ha] Hr.
  assert (Hne : forall x rx, peers c !! x = Some rx -> rx <> r).
  { intros x rx Hx ->. destruct (Hw x r Hx) as (q & Hq & _). congruence. }
  split; [split; [done|]|].
  - intros x rx Hx. destruct (Hw x rx Hx) as (q & Hq & ?). exists q. rewrite lookup_put_ne by eauto. done.
  - intros x y rx ry px py Hrx Hpx Hry Hpy. rewrite lookup_put_ne in Hpx, Hpy by eauto. by eapply Ha.
Qed.

(** Registering the fresh object [r], the one it replaces being closed. *)
Lemma register_wf r p p' c c1 :
  wf c -> objects c !! r = None -> p_open p' = true -> p_node p' = None -> p_id p' = p_id p ->
  tunnels c1 = tunnels c -> peers c1 = <[p_id p := r]> (peers c) -> objects c1 !! r = Some p' ->
  (forall x rx, x <> p_id p -> peers c !! x = Some rx -> objects c1 !! rx = objects c !! rx) ->
  wf_peers c1 /\ agree_but (fun x _ => x = p_id p) c1.
Proof.
  intros [[Ht Hw] Ha] Hr Hop Hnode Hid Htun Hpe Hobj Hother. split; [split; [by rewrite Htun|]|].
  - intros x rx. rewrite Hpe, lookup_insert_Some. intros [[<- <-]|[Hne Hx]]; [by exists p'|].
    rewrite (Hother x rx) by done. by apply Hw.
  - intros x y rx ry px py. rewrite Hpe, Htun, !lookup_insert_Some.
    intros [[<- <-]|[Hnx Hx]] Hpx Hy Hpy Hl Hny; [by left|]. destruct Hy as [[<- <-]|[Hn Hy]]; [congruence|].
    rewrite (Hother x rx) in Hpx by done. rewrite (Hother y ry) in Hpy by done. right.
    by destruct (Ha x y rx ry px py).
Qed.

(** The batch of the mappings of all linked peers reaches a fresh connection. *)
Lemma batch_fresh r q c :
  wf_peers c -> agree_but (fun x _ => x = p_id q) c -> objects c !! r = Some q -> peers c !! p_id q = Some r ->
  p_node q = None -> p_resps q = [] -> p_open q = true -> p_sent q = ∅ ->
  wp (batchUpdateMappingLocked r ((fun x => peers c !! x) <$> findTunnelPeers (tunnels c) (p_id q)) NODE "init")
    (fun err c' => err = None /\ wf c' /\ closed c' = closed c /\ peers c' = peers c) False False c.
Proof.
  intros Hw Ha Hq Hreg Hnode Hresps Hop Hsent. unfold batchUpdateMappingLocked. rewrite wp_bind.
  assert (Hself : put r q c = c) by (destruct c; unfold put; simpl in *; by rewrite insert_id).
  match goal with |- wp ?m ?Q ?P ?F c => cut (wp m Q P F (put r q c)); [by rewrite Hself|] end.
  eapply wp_mono; [apply batch_loop_told; [done..| |]| |done|done].
  { apply range_NoDup. } { intros y Hy. rewrite Hsent, lookup_empty in Hy. by destruct Hy. }
  intros res c' (us & q' & -> & -> & H1 & H2 & H3 & H4 & H5 & H6).
  assert (Hfin : forall q2, p_id q2 = p_id q -> p_node q2 = None -> p_open q2 = true -> p_sent q2 = p_sent q' ->
    wf (put r q2 c)).
  { intros q2 E1 E2 E3 E4. assert (Hw2 : wf_peers (put r q2 c)) by (apply (wf_put r q); congruence).
    split; [done|]. intros x y rx ry px py Hrx Hpx Hry Hpy Hl Hny. right.
    change (peers (put _ _ c)) with (peers c) in Hrx, Hry.
    destruct (decide (rx = r)) as [->|Hne].
    - assert (x = p_id q) as ->.
      { destruct (wf_registered c Hw x r Hrx) as (qq & Hqq & Hi & _). congruence. }
      rewrite lookup_put in Hpx. injection Hpx as <-. rewrite E4.
      apply (H6 y ry py); try done.
      + apply elem_findTunnelPeers; [apply Hw|exact Hl].
      + destruct (decide (ry = r)) as [->|]; [rewrite lookup_put in Hpy; congruence|]. by rewrite lookup_put_ne in Hpy |- *.
    - rewrite lookup_put_ne in Hpx by done.
      destruct (decide (ry = r)) as [->|]; [rewrite lookup_put in Hpy; congruence|].
      rewrite lookup_put_ne in Hpy by done. destruct (Ha x y rx ry px py) as [->|]; try done. congruence. }
  destruct us as [|u us].
  - rewrite wp_ret. split; [done|]. split; [|done]. apply Hfin; congruence.
  - eapply wp_send; [apply lookup_put|congruence|..].
    + intros _ _. rewrite put_put. split; [done|]. split; [|done]. apply Hfin; [exact H1|exact H2|exact (eq_trans H3 Hop)|reflexivity].
    + rewrite H4, Hresps. unfold ResponseBufferSize. simpl. lia.
Qed.

Lemma Coordinate_wf r id name a c :
  wf c -> objects c !! r = None ->
  wp (Coordinate r id name a) (fun err c' => wf c' /\
    if closed c then err = Some ErrClosed /\ peers c' = peers c
    else err = None /\ peers c' = <[id := r]> (peers c)) False False c.
Proof.
  intros Hwf Hr. unfold Coordinate. rewrite wp_bind, wp_store. set (p := new_peer id name a).
  unfold initPeer. rewrite wp_bind, wp_gets. change (closed (put r p c)) with (closed c).
  pose proof (put_fresh_wf r p c Hwf Hr) as Hwf1.
  destruct (closed c) eqn:Hc; [by rewrite wp_ret|]. rewrite wp_bind, (wp_deref r p) by apply lookup_put.
  change (p_node p) with (@None Node). cbv iota. change (p_id p) with id. rewrite wp_bind, wp_gets, wp_bind.
  change (peers (put r p c)) with (peers c).
  assert (Hgo : forall q c1, p_id q = id -> p_node q = None -> p_resps q = [] -> p_open q = true -> p_sent q = ∅ ->
    closed c1 = closed c -> peers c1 = peers c -> tunnels c1 = tunnels c -> objects c1 !! r = Some q ->
    (forall x rx, x <> id -> peers c !! x = Some rx -> objects c1 !! rx = objects c !! rx) ->
    wp (_ ← modify (fun c => c{{ peers ::= <[id := r]> }});
        others ← gets (fun c => (fun id => peers c !! id) <$> findTunnelPeers (tunnels c) id);
        batchUpdateMappingLocked r others NODE "init")
      (fun err c' => wf c' /\ err = None /\ peers c' = <[id := r]> (peers c)) False False c1).
  { intros q c1 E1 E2 E3 E4 E5 E6 E7 E8 E9 E10. rewrite wp_bind, wp_modify, wp_bind, wp_gets.
    set (c2 := c1{{ peers ::= <[id := r]> }}).
    assert (Hp2 : peers c2 = <[id := r]> (peers c)) by (by rewrite <- E7).
    destruct (register_wf r p q c c2) as [Hw2 Ha2]; [done..|].
    eapply wp_mono; [rewrite <- E1; apply (batch_fresh r q c2); try done| |done|done].
    - by rewrite E1.
    - by rewrite Hp2, E1, lookup_insert_eq.
    - intros err c3 (-> & Hw3 & _ & ->). done. }
  destruct (peers c !! id) as [o|] eqn:Ho.
  - destruct (wf_registered c (proj1 Hwf) id o Ho) as (po & Hpo & Hpoid & Hpoo).
    assert (Hne : o <> r) by congruence. unfold close_resps.
    rewrite wp_bind, wp_bind, (wp_deref o po), Hpoo by (by rewrite lookup_put_ne).
    cbn [negb]. rewrite wp_store, wp_bind, (wp_deref o) by apply lookup_put.
    rewrite wp_bind, (wp_deref r p) by (rewrite lookup_put_ne by done; apply lookup_put). rewrite wp_store.
    eapply Hgo; [..|apply lookup_put|]; try done. intros x rx Hx Hrx.
    assert (rx <> r) by (intros ->; destruct (wf_registered c (proj1 Hwf) x r Hrx) as (? & ? & _); congruence).
    assert (rx <> o) by (intros ->; destruct (wf_registered c (proj1 Hwf) x o Hrx) as (? & ? & ? & _); congruence).
    by rewrite !lookup_put_ne.
  - rewrite wp_ret. eapply Hgo; [..|apply lookup_put|]; try done. intros x rx Hx Hrx.
    apply lookup_put_ne. intros ->. destruct (wf_registered c (proj1 Hwf) x r Hrx) as (? & ? & _); congruence.
Qed.

Lemma close_loop l c :
  wf c ->
  wp (for_each l (fun id => p ← gets (fun c => peers c !! id);
    match p with None => mret tt | Some _ => removePeerLocked id LOST "coordinator close" end))
  (fun _ c' => wf c' /\ shrinks ∅ c c' /\ forall id, id ∈ l -> peers c' !! id = None) True False c.
Proof.
  revert c. induction l as [|id l IH]; intros c [Hw Ha]; cbn [for_each].
  { rewrite wp_ret. split; [done|]. split; [apply shrinks_refl|]. intros id []%not_elem_of_nil. }
  assert (Hgo : forall c1, wf c1 -> shrinks ∅ c c1 -> peers c1 !! id = None ->
    wp (for_each l (fun id => p ← gets (fun c => peers c !! id);
      match p with None => mret tt | Some _ => removePeerLocked id LOST "coordinator close" end))
    (fun _ c' => wf c' /\ shrinks ∅ c c' /\ forall x, x ∈ id :: l -> peers c' !! x = None) True False c1).
  { intros c1 Hw1 Hsh1 Hn1. eapply wp_mono; [by apply IH| |done|done]. intros [] c2 (Hw2 & Hsh2 & Hn2).
    split; [done|]. split; [by eapply shrinks_trans|]. intros x [->|Hx]%elem_of_cons; [|by apply Hn2].
    destruct (peers c2 !! id) eqn:E; [|done]. apply (sh_peers _ _ _ Hsh2) in E. congruence. }
  rewrite wp_bind, wp_bind, wp_gets. destruct (peers c !! id) eqn:Hid; [|by apply Hgo; [|apply shrinks_refl|]].
  eapply wp_mono; [apply removePeer_removed; [by left|done]| |done|done]. intros [] c1 Hrm.
  apply Hgo; [|by eapply rm_shrinks|by eapply rm_gone].
  split; [by eapply rm_wf|]. eapply agree_shrinks; [exact Ha|done|by eapply rm_shrinks].
Qed.

Lemma close_core_wf c :
  wf c -> wp close_core (fun _ c' => wf c' /\ (closed c = false -> closed c' = true /\ peers c' = ∅)) True False c.
Proof.
  intros Hwf. unfold close_core. rewrite wp_bind, wp_gets. destruct (closed c) eqn:Hc; [by rewrite wp_ret|].
  rewrite wp_bind, wp_modify, wp_bind, wp_gets. set (c1 := c{{ closed := true }}).
  assert (Hw1 : wf c1) by (destruct Hwf as [[Ht Hw] Ha]; split; [split; [exact Ht|exact Hw]|exact Ha]).
  eapply wp_mono; [by apply close_loop| |done|done]. intros [] c2 (Hw2 & Hsh & Hn). split; [done|]. intros _.
  split; [exact (sh_closed _ _ _ Hsh)|]. apply map_empty. intros x. destruct (peers c2 !! x) as [rx|] eqn:E; [|done].
  rewrite Hn in E; [done|]. rewrite range_elem. apply elem_of_dom. exists rx. by apply (sh_peers _ _ _ Hsh).
Qed.

(** ** Runs of the coordinator *)

(** One step: a connection, a request, a lost connection, a response taken from
    a channel, or the coordinator's end. *)
Inductive step : Core -> Core -> Prop :=
| step_connect r id name a err c c' :
    objects c !! r = None -> Coordinate r id name a c = Done err c' -> step c c'
| step_serve r req c c' : one_way r req c -> serve r req c = Done tt c' -> step c c'
| step_lost r err c c' : lostPeer r c = Done err c' -> step c c'
| step_receive r c c' : receive r c = Done tt c' -> step c c'
| step_close c c' : close_core c = Done tt c' -> step c c'.

Inductive reachable : Core -> Prop :=
| reach_new : reachable newCore
| reach_step c c' : reachable c -> step c c' -> reachable c'.

Lemma wp_Done {A} (m : M A) (Q : A -> Core -> Prop) P F c a c' : wp m Q P F c -> m c = Done a c' -> Q a c'.
Proof. unfold wp. intros Hq Hm. by rewrite Hm in Hq. Qed.

Lemma wf_new : wf newCore.
Proof.
  split; [split; [apply consistent_new|]|]; [intros id r|intros x y rx ry px py]; simpl; rewrite lookup_empty; done.
Qed.

Lemma step_wf c c' : wf c -> step c c' -> wf c'.
Proof.
  intros Hwf Hs. revert Hwf.
  destruct Hs as [r id name a err c c' Hr Hm|r req c c' Hone Hm|r err c c' Hm|r c c' Hm|c c' Hm]; intros Hwf.
  - by destruct (wp_Done _ _ _ _ _ _ _ (Coordinate_wf r id name a _ Hwf Hr) Hm).
  - exact (wp_Done _ _ _ _ _ _ _ (serve_wf r req _ Hwf Hone) Hm).
  - exact (wp_Done _ _ _ _ _ _ _ (lostPeer_wf r _ Hwf) Hm).
  - exact (wp_Done _ _ _ _ _ _ _ (receive_wf r _ Hwf) Hm).
  - exact (proj1 (wp_Done _ _ _ _ _ _ _ (close_core_wf _ Hwf) Hm)).
Qed.

Lemma reachable_wf c : reachable c -> wf c.
Proof. induction 1; [apply wf_new|by eapply step_wf]. Qed.

(** C25: tunnel peers know each other's nodes, as long as no tunnel is removed whose reverse
    exists.  In every state the coordinator reaches, by connections, requests,
    losses, reads and its end in any order, but for requests of a peer to remove its
    tunnel to a peer that has a tunnel to it ([one_way] excludes those, because they make the two
    forget each other though they are still linked, [reverse_tunnel_forgotten]):
    of two registered peers that share a tunnel, in either direction, each has
    been sent the other's current node, if it has one; the channel of every
    registered peer is open, and the two tunnel indices agree. *)
Theorem coordinator_agreement c :
  reachable c ->
  consistent (tunnels c) /\
  (forall x r, peers c !! x = Some r -> exists p, objects c !! r = Some p /\ p_id p = x /\ p_open p = true) /\
  (forall x y rx ry px py,
    peers c !! x = Some rx -> objects c !! rx = Some px -> peers c !! y = Some ry -> objects c !! ry = Some py ->
    linked (tunnels c) x y -> p_node py <> None ->
    exists n, p_sent px !! y = Some n /\ (n = p_node py \/ node_Equal n (p_node py) = Ok true)).
Proof.
  intros [[Ht Hw] Ha]%reachable_wf. split; [done|]. split; [done|].
  intros x y rx ry px py Hrx Hpx Hry Hpy Hl Hny. by destruct (Ha x y rx ry px py) as [|Htold].
Qed.

(** A new connection always registers.  [Coordinate] at a fresh reference ends
    without panic and without error, unless the coordinator is closed; the peer
    is registered, in place of the connection it overwrites. *)
Lemma Coordinate_registers r id name a c :
  reachable c -> objects c !! r = None ->
  exists c', if closed c then Coordinate r id name a c = Done (Some ErrClosed) c' /\ peers c' = peers c
             else Coordinate r id name a c = Done None c' /\ peers c' = <[id := r]> (peers c).
Proof.
  intros Hwf%reachable_wf Hr. pose proof (Coordinate_wf r id name a c Hwf Hr) as Hq. unfold wp in Hq.
  destruct (Coordinate r id name a c) as [err c'| |]; [|done..]. exists c'. destruct Hq as [_ Hq].
  destruct (closed c); destruct Hq as [-> ->]; done.
Qed.

(** C26: removing a peer ends, and cleans up.  From any state reached without
    requests to remove a tunnel whose reverse exists ([one_way], as in
    [coordinator_agreement]) the recursion
    of [removePeerLocked] through peers that cannot be told either panics on a
    channel or ends; when it ends the peer and the tunnels it is the source of
    are gone, every linked peer still registered has forgotten it, nobody new
    is registered, and the peers left that share a tunnel still know each other's nodes. *)
Theorem removePeer_cleans id k reason c :
  reachable c -> gone k -> is_Some (peers c !! id) ->
  match removePeerLocked id k reason c with
  | Done _ c' =>
      wf c' /\ peers c' !! id = None /\ peers c' ⊆ peers c /\ (forall x, ~ tunnel (tunnels c') id x) /\
      forall x r p, linked (tunnels c) id x -> peers c' !! x = Some r -> objects c' !! r = Some p ->
        p_sent p !! id = None
  | Panic _ => True
  | OutOfFuel => False
  end.
Proof.
  intros [Hw Ha]%reachable_wf Hk Hid. pose proof (removePeer_removed id k reason c Hk Hw) as Hq. unfold wp in Hq.
  destruct (removePeerLocked id k reason c) as [[] c'| |]; [|done..]. destruct Hq as [H1 H2 H3 H4 H5 H6 _].
  split; [split; [done|by eapply agree_shrinks]|]. split; [done|]. split.
  { apply map_subseteq_spec. intros x r. apply (sh_peers _ _ _ H2). }
  split; [eauto|]. eauto.
Qed.

(** Closing the coordinator unregisters every peer, when no channel panics. *)
Lemma close_empties c :
  reachable c -> closed c = false ->
  match close_core c with
  | Done _ c' => closed c' = true /\ peers c' = ∅
  | Panic _ => True
  | OutOfFuel => False
  end.
Proof.
  intros Hwf%reachable_wf Hc. pose proof (close_core_wf c Hwf) as Hq. unfold wp in Hq.
  destruct (close_core c) as [[] c'| |]; [|done..]. by apply Hq.
Qed.

(** *** Delivery *)

(** A peer that has room after it was told the node [n] of [id]. *)
Definition after_update (id : uuid) (n : option Node) (reason : string) p : peer :=
  let fresh := p{{ p_sent ::= <[id := n]>; p_resps ::= fun l => l ++ [mkResponse [mkPeerUpdate id NODE n reason] ""] }} in
  match p_sent p !! id with
  | None => fresh
  | Some sn => match node_Equal sn n with Ok true => p | _ => fresh end
  end.

(** The peers of [l] can be told: their channels have room and their nodes compare. *)
Definition can_be_told (id : uuid) (n : option Node) c (x : uuid) : Prop := forall rx px,
  peers c !! x = Some rx -> objects c !! rx = Some px ->
  (length (p_resps px) < ResponseBufferSize)%nat /\
  forall sn, p_sent px !! id = Some sn -> is_ok (node_Equal sn n) = true.

Lemma update_with_room r p id n reason c :
  objects c !! r = Some p -> p_open p = true -> (length (p_resps p) < ResponseBufferSize)%nat ->
  (forall sn, p_sent p !! id = Some sn -> is_ok (node_Equal sn n) = true) ->
  updateMappingLocked r id n NODE reason c = Done None (put r (after_update id n reason p) c).
Proof.
  intros Hp Ho Hl He.
  cut (wp (updateMappingLocked r id n NODE reason)
         (fun err c' => err = None /\ c' = put r (after_update id n reason p) c) False False c).
  { unfold wp. destruct (updateMappingLocked r id n NODE reason c); [|done..]. by intros [-> ->]. }
  unfold updateMappingLocked, storeMappingLocked. rewrite !wp_bind, (wp_deref r p) by done.
  assert (Hsend : forall u, wp (send r u) (fun err c' => err = None /\
    c' = put r (p{{ p_sent ::= <[id := n]>; p_resps ::= fun l => l ++ [u] }}) c) False False
    (put r (p{{ p_sent ::= <[id := n]> }}) c)).
  { intros u. eapply wp_send; [apply lookup_put|intros Hf; change (p_open p = false) in Hf; congruence|intros _ _; by rewrite put_put|].
    intros _ Hf. change (ResponseBufferSize <= length (p_resps p))%nat in Hf. lia. }
  unfold storeMapping, after_update. destruct (p_sent p !! id) as [sn|] eqn:Hs.
  - specialize (He sn eq_refl). destruct (node_Equal sn n) as [[]|e]; [| |done]; rewrite wp_bind, wp_store, wp_ret.
    + done.
    + apply Hsend.
  - rewrite wp_bind, wp_store, wp_ret. apply Hsend.
Qed.

Lemma deliver_loop id n reason l c :
  wf_peers c -> NoDup l -> (forall x, x ∈ l -> can_be_told id n c x) ->
  wp (for_each l (update_tunnel_peer removePeerLocked id n NODE reason)) (fun _ c' =>
    peers c' = peers c /\ tunnels c' = tunnels c /\ forall x rx px, peers c !! x = Some rx -> objects c !! rx = Some px ->
      objects c' !! rx = Some (if decide (x ∈ l) then after_update id n reason px else px)) False False c.
Proof.
  revert c. induction l as [|x l IH]; intros c Hw Hnd Hroom; cbn [for_each].
  { rewrite wp_ret. split; [done|]. split; [done|]. intros x rx px Hrx Hpx. by rewrite decide_False by apply not_elem_of_nil. }
  apply NoDup_cons in Hnd as [Hx Hnd]. rewrite wp_bind. unfold update_tunnel_peer at 1. rewrite wp_bind, wp_gets.
  destruct (peers c !! x) as [r|] eqn:Hr.
  - destruct (wf_registered c Hw x r Hr) as (p & Hp & Hid & Ho).
    destruct (Hroom x ltac:(by left) r p Hr Hp) as [Hl He].
    rewrite wp_bind. unfold wp at 1. rewrite (update_with_room r p id n reason c) by done. rewrite wp_ret.
    set (p1 := after_update id n reason p). assert (Hid1 : p_id p1 = p_id p /\ p_open p1 = p_open p).
    { unfold p1, after_update. by repeat case_match. }
    assert (Hinj : forall y ry, peers c !! y = Some ry -> ry = r -> y = x).
    { intros y ry Hy ->. destruct (wf_registered c Hw y r Hy) as (q & Hq & Hqi & _). congruence. }
    eapply wp_mono; [apply (IH (put r p1 c)); [by apply (wf_put r p); [exact Hp|apply Hid1|apply Hid1|]|done|]| |done|done].
    + intros y Hy ry py Hry Hpy. rewrite lookup_put_ne in Hpy.
      * by eapply Hroom; [right|..].
      * intros ->. apply Hx. by rewrite <- (Hinj y r Hry eq_refl).
    + intros [] c' (Hpe & Htu & Hob). split; [done|]. split; [done|]. intros y ry py Hry Hpy.
      destruct (decide (ry = r)) as [->|Hne].
      * assert (y = x) as -> by (by eapply Hinj). assert (py = p) as -> by congruence.
        rewrite (Hob x r p1 Hr) by apply lookup_put. rewrite decide_False by done. by rewrite decide_True by (by left).
      * rewrite (Hob y ry py Hry) by (by rewrite lookup_put_ne).
        assert (y <> x) by congruence. do 2 case_decide; try done; set_solver.
  - rewrite wp_ret. eapply wp_mono; [apply (IH c); [done|done|]| |done|done].
    + intros y Hy. apply Hroom. by right.
    + intros [] c' (Hpe & Htu & Hob). split; [done|]. split; [done|]. intros y ry py Hry Hpy.
      rewrite (Hob y ry py Hry Hpy). assert (y <> x) by congruence. do 2 case_decide; try done; set_solver.
Qed.

(** A node update reaches every tunnel peer.  When the channels of the linked
    peers have room and the nodes can be compared, [nodeUpdateLocked] ends
    without panic, removes nobody, and each linked peer has the new node as
    last sent, with one more update in its channel unless it had been sent a
    node with the same contents; the other peers are left as they were. *)
Lemma nodeUpdate_delivers r p node c :
  reachable c -> objects c !! r = Some p -> peers c !! p_id p = Some r ->
  (forall x, linked (tunnels c) (p_id p) x -> can_be_told (p_id p) node c x) ->
  exists c', nodeUpdateLocked r node c = Done None c' /\ peers c' = peers c /\ tunnels c' = tunnels c /\
    forall x rx px, x <> p_id p -> peers c !! x = Some rx -> objects c !! rx = Some px ->
      (linked (tunnels c) (p_id p) x -> objects c' !! rx = Some (after_update (p_id p) node "node update" px)) /\
      (~ linked (tunnels c) (p_id p) x -> objects c' !! rx = Some px).
Proof.
  intros [Hw _]%reachable_wf Hp Hreg Hroom.
  cut (wp (nodeUpdateLocked r node) (fun err c' => err = None /\ peers c' = peers c /\ tunnels c' = tunnels c /\
    forall x rx px, x <> p_id p -> peers c !! x = Some rx -> objects c !! rx = Some px ->
      objects c' !! rx = Some (if decide (x ∈ findTunnelPeers (tunnels c) (p_id p))
                               then after_update (p_id p) node "node update" px else px)) False False c).
  { unfold wp. destruct (nodeUpdateLocked r node c) as [err c'| |]; [|done..]. intros (-> & Hpe & Htu & Hob).
    exists c'. split; [done|]. split; [done|]. split; [done|]. intros x rx px Hne Hrx Hpx.
    pose proof (elem_findTunnelPeers (tunnels c) (p_id p) x (wf_tunnels c Hw)) as Hlk.
    rewrite (Hob x rx px Hne Hrx Hpx). split; intros Hl; case_decide; tauto. }
  unfold nodeUpdateLocked. rewrite wp_bind, (wp_deref r p), wp_bind, wp_store by done.
  set (p1 := p{{ p_node := node }}). rewrite wp_bind. unfold updateTunnelPeersLocked, update_tunnel_peers.
  rewrite wp_bind, wp_gets.
  assert (Hone : forall x rx, x <> p_id p -> peers c !! x = Some rx -> rx <> r).
  { intros x rx Hne Hx ->. destruct (wf_registered c Hw x r Hx) as (q & Hq & Hqi & _). congruence. }
  eapply wp_mono; [apply (deliver_loop (p_id p) node "node update" _ (put r p1 c))| |done|done].
  - by apply (wf_put r p).
  - apply range_NoDup.
  - intros x Hx%elem_findTunnelPeers rx px Hrx Hpx; [|exact (wf_tunnels c Hw)].
    destruct (decide (rx = r)) as [->|Hne]; [|rewrite lookup_put_ne in Hpx by done; by eapply Hroom].
    rewrite lookup_put in Hpx. injection Hpx as <-. by eapply (Hroom x Hx r p).
  - intros [] c' (Hpe & Htu & Hob). rewrite wp_ret. split; [done|]. split; [done|]. split; [done|].
    intros x rx px Hne Hrx Hpx. apply (Hob x rx px Hrx). rewrite lookup_put_ne; [done|]. by eapply Hone.
Qed.

(** ** Scripts: sequences of connections and requests *)

Inductive op := OpConnect (r : N) (id : uuid) (a : CoordinateeAuth) | OpServe (r : N) (req : CoordinateRequest).

Definition run_op (o : op) : M unit :=
  match o with
  | OpConnect r id a =>
      free ← gets (fun c => bool_decide (objects c !! r = None));
      if free : bool then _ ← Coordinate r id "" a; mret tt else panic "reference in use"
  | OpServe r req => if bool_decide (rq_RemoveTunnel req = None) then serve r req else panic "not in a script"
  end.

Definition run_script (l : list op) : M unit := for_each l run_op.

Lemma run_op_step o c c' : run_op o c = Done tt c' -> step c c'.
Proof.
  destruct o as [r id a|r req]; simpl; unfold mbind, M_bind, gets.
  - case_bool_decide; [|done]. destruct (Coordinate r id "" a c) as [err c1| |] eqn:Hc; [|done..].
    intros [= <-]. by eapply step_connect.
  - case_bool_decide as Hn; [|done]. intros Hs. eapply step_serve; [|exact Hs]. intros p d _. congruence.
Qed.

Lemma run_script_reachable l c c' : reachable c -> run_script l c = Done tt c' -> reachable c'.
Proof.
  revert c. induction l as [|o l IH]; intros c Hr; unfold run_script; cbn [for_each]; [by intros [= <-]|].
  unfold mbind, M_bind. destruct (run_op o c) as [[] c1| |] eqn:Ho; [|done..]. intros Hl.
  eapply IH; [|exact Hl]. eapply reach_step; [exact Hr|]. by apply run_op_step in Ho.
Qed.

End Coordinator.
Arguments Done {NL A} _ _.
Arguments Panic {NL A} _.
Arguments OutOfFuel {NL A}.

(** ** Concrete runs *)

Module Examples.

(** Nodes that are numbers, compared by value. *)
#[export] Instance number_nodes : NodeLib := {
  Node := N;
  node_Equal a b := Ok (bool_decide (a = b));
}.

(** [SingleTailnetCoordinateeAuth]: everything is allowed. *)
Definition allow_all : CoordinateeAuth := fun _ => AuthOk.
Definition set_node (n : N) : CoordinateRequest := mkRequest (Some (Some n)) false None None [].
Definition add_tunnel (id : uuid) : CoordinateRequest := mkRequest None false (Some (Some id)) None [].
Definition remove_tunnel (id : uuid) : CoordinateRequest := mkRequest None false None (Some (Some id)) [].

(** Peers 1 and 2, both with a node, and a tunnel from 1 to 2. *)
Definition linked_pair : list op :=
  [OpConnect 1 1 allow_all; OpConnect 2 2 allow_all; OpServe 1 (set_node 10); OpServe 2 (set_node 20);
   OpServe 1 (add_tunnel 2)].

(** Then [n] further updates of the node of each. *)
Definition updates (n : nat) : list op :=
  concat ((fun k => [OpServe 1 (set_node (100 + N.of_nat k)); OpServe 2 (set_node (100 + N.of_nat k))]) <$> seq 0 n).

Definition state_after (l : list op) : Core :=
  match run_script l newCore with Done _ c => c | _ => newCore end.

Lemma state_after_reachable l : (match run_script l newCore with Done _ _ => True | _ => False end) -> reachable (state_after l).
Proof.
  unfold state_after. destruct (run_script l newCore) as [[] c| |] eqn:E; [|done..]. intros _.
  eapply run_script_reachable; [apply reach_new|exact E].
Qed.

(** Two full channels make the coordinator panic.  When neither of two linked
    peers reads its responses, the update that finds both channels full makes
    the coordinator remove the one, then, since it cannot be told, the other,
    and from there the first again: its channel is closed twice, which is a
    panic. *)
Theorem full_channels_panic :
  reachable (state_after (linked_pair ++ updates 511)) /\
  serve 1 (set_node 7) (state_after (linked_pair ++ updates 511)) = Panic "close of closed channel".
Proof. split; [apply state_after_reachable; by vm_compute|]. by vm_compute. Qed.

(** Removing a tunnel cuts peers that still share one.  When tunnels run in
    both directions and one is removed, both peers are told the other is
    disconnected although the other tunnel still links them: neither has the
    other's node any more. *)
Theorem reverse_tunnel_forgotten :
  let c := state_after (linked_pair ++ [OpServe 2 (add_tunnel 1)]) in
  reachable c /\
  match serve 1 (remove_tunnel 2) c with
  | Done _ c' =>
      linked (tunnels c') 1%N 2%N /\ peers c' = peers c /\
      (p_sent <$> objects c' !! 1%N) = Some ∅ /\ (p_sent <$> objects c' !! 2%N) = Some ∅
  | _ => False
  end.
Proof.
  split; [apply state_after_reachable; by vm_compute|]. vm_compute. split; [right; by vm_compute|done].
Qed.

Lemma linked_pair_reachable : reachable (state_after linked_pair).
Proof. apply state_after_reachable. by vm_compute. Qed.

Lemma coordinator_agreement_witness :
  linked (tunnels (state_after linked_pair)) 2%N 1%N /\
  exists p n, objects (state_after linked_pair) !! 2%N = Some p /\ p_sent p !! 1%N = Some n /\
    (n = Some 10%N \/ node_Equal n (Some 10%N) = Ok true).
Proof.
  assert (Hl : linked (tunnels (state_after linked_pair)) 2%N 1%N) by (right; by vm_compute).
  destruct (coordinator_agreement _ linked_pair_reachable) as (_ & Hw & Ha).
  destruct (Hw 2%N 2%N) as (p2 & Hp2 & _); [by vm_compute|].
  destruct (Hw 1%N 1%N) as (p1 & Hp1 & _); [by vm_compute|].
  assert (Hn : p_node p1 = Some 10%N).
  { assert (E : (p_node <$> objects (state_after linked_pair) !! 1%N) = Some (Some 10%N)) by (by vm_compute).
    rewrite Hp1 in E. by injection E. }
  destruct (Ha 2%N 1%N 2%N 1%N p2 p1) as (n & Hsent & Heq); [by vm_compute|done|by vm_compute|done|done|congruence|].
  rewrite Hn in Heq. split; [exact Hl|]. by exists p2, n.
Defined.

Lemma Coordinate_registers_witness :
  exists c', Coordinate 3 1 "again" allow_all (state_after linked_pair) = Done None c' /\
    peers c' = <[1%N := 3%N]> (peers (state_after linked_pair)).
Proof.
  destruct (Coordinate_registers 3 1 "again" allow_all _ linked_pair_reachable) as [c' Hc']; [by vm_compute|].
  exists c'. exact Hc'.
Defined.

Lemma removePeer_cleans_witness :
  exists c', removePeerLocked 1 LOST "lost" (state_after linked_pair) = Done tt c' /\ peers c' !! 1%N = None /\
    forall x, ~ tunnel (tunnels c') 1%N x.
Proof.
  pose proof (removePeer_cleans 1 LOST "lost" _ linked_pair_reachable (or_introl eq_refl)) as H.
  destruct (removePeerLocked 1 LOST "lost" (state_after linked_pair)) as [[] c'| |] eqn:E;
    [|vm_compute in E; discriminate E..].
  destruct H as (_ & H2 & _ & H4 & _); [by eexists|]. by exists c'.
Defined.

Lemma close_empties_witness :
  exists c', close_core (state_after linked_pair) = Done tt c' /\ peers c' = ∅.
Proof.
  pose proof (close_empties _ linked_pair_reachable) as H.
  destruct (close_core (state_after linked_pair)) as [[] c'| |] eqn:E; [|vm_compute in E; discriminate E..].
  destruct H as [_ H]; [by vm_compute|]. by exists c'.
Defined.

Lemma nodeUpdate_delivers_witness :
  exists c', nodeUpdateLocked 1 (Some 11%N) (state_after linked_pair) = Done None c' /\
    (p_sent <$> objects c' !! 2%N) = Some {[ 1%N := Some 11%N ]}.
Proof.
  destruct (objects (state_after linked_pair) !! 1%N) as [p|] eqn:Hp; [|vm_compute in Hp; discriminate Hp].
  assert (Hid : p_id p = 1%N).
  { assert (E : (p_id <$> objects (state_after linked_pair) !! 1%N) = Some 1%N) by (by vm_compute).
    rewrite Hp in E. by injection E. }
  destruct (nodeUpdate_delivers 1 p (Some 11%N) _ linked_pair_reachable Hp) as (c' & Hc' & _).
  - rewrite Hid. by vm_compute.
  - rewrite Hid. intros x Hl.
    assert (x = 2%N) as ->.
    { assert (E : findTunnelPeers (tunnels (state_after linked_pair)) 1%N = [2%N]) by (by vm_compute).
      apply elem_findTunnelPeers in Hl; [|apply (wf_tunnels _ (proj1 (reachable_wf _ linked_pair_reachable)))].
      rewrite E in Hl. by apply list_elem_of_singleton in Hl. }
    intros rx px Hrx Hpx. vm_compute in Hrx. injection Hrx as <-.
    assert (E : (fun q => (length (p_resps q), p_sent q)) <$> objects (state_after linked_pair) !! 2%N =
                Some (1%nat, {[ 1%N := Some 10%N ]})) by (by vm_compute).
    rewrite Hpx in E. injection E as E1 E2. rewrite E1. split; [by apply Nat.ltb_lt|by intros sn _].
  - exists c'. split; [exact Hc'|].
    assert (E : (match nodeUpdateLocked 1 (Some 11%N) (state_after linked_pair) with
                 | Done _ c' => p_sent <$> objects c' !! 2%N | _ => None end) = Some {[ 1%N := Some 11%N ]}) by (by vm_compute).
    by rewrite Hc' in E.
Defined.

End Examples.
