(* ===== verification/TunnelAuth.v ===== *)
(** * Authorisation of coordinate requests: [tailnet/tunnel.go], [tailnet/conn.go]

    Who may open which tunnel and claim which address.  An address is its 128
    bits as a number; parsing an address prefix and reading the addresses of a
    node are operations of an interface. *)

From S2P Require Import Prelude Tunnels Coordinator.
Import Tunnels.

(** [netip.ParsePrefix]: the address and the number of bits; and
    [Node.Addresses] of the generated node type. *)
Class NetLib `{NodeLib} := {
  node_Addresses : Node -> list string;
  ParsePrefix : string -> result (N * Z);
}.

Definition TailscaleServicePrefix : N := 0xfd7a115ca1e0.
Definition CoderServicePrefix : N := 0xfd60627aa42b.
Definition legacyWorkspaceAgentIP : N := 0xfd7a115ca1e049d6b259b7acb1b248f4.

(** [maskUUID]: the first 6 bytes of the identifier are replaced by the prefix. *)
Definition maskUUID (p : N) (uid : uuid) : N := N.lor (N.shiftl p 80) (N.land uid (N.ones 80)).
Definition AddrFromUUID (p : N) (uid : uuid) : N := maskUUID p uid.

Section Auth.
Context `{NetLib}.

Definition SingleTailnetCoordinateeAuth : CoordinateeAuth := fun _ => AuthOk.

(** The loops over [upd.Node.Addresses]; [check] is the test of the address itself. *)
Fixpoint check_addresses (check : N -> AuthResult) (l : list string) : AuthResult :=
  match l with
  | [] => AuthOk
  | addrStr :: l =>
      match ParsePrefix addrStr with
      | Err e => AuthErr ("parse node address: " +:+ e)
      | Ok (addr, bits) =>
          if negb (bits =? 128) then AuthErr "invalid address bits, expected 128"
          else match check addr with AuthOk => check_addresses check l | r => r end
      end
  end.

(** [upd.Node] is a pointer, and reading the addresses of nil panics. *)
Definition check_update (check : N -> AuthResult) (upd : option (option Node)) : AuthResult :=
  match upd with
  | None => AuthOk
  | Some None => AuthPanic "nil pointer dereference"
  | Some (Some node) => check_addresses check (node_Addresses node)
  end.

Definition handleClientNodeRequests (req : CoordinateRequest) : AuthResult :=
  match check_update (fun _ => AuthOk) (rq_UpdateSelf req) with
  | AuthOk =>
      match rq_ReadyForHandshake req with
      | [] => AuthOk
      | _ => AuthErr "clients may not send ready_for_handshake"
      end
  | r => r
  end.

Definition ClientCoordinateeAuth (AgentID : uuid) : CoordinateeAuth := fun req =>
  match rq_AddTunnel req with
  | None => handleClientNodeRequests req
  | Some None => AuthErr "parse add tunnel id"
  | Some (Some uid) =>
      if negb (AgentID =? uid)%N then AuthErr "invalid agent id" else handleClientNodeRequests req
  end.

Definition agent_address (ID : uuid) (addr : N) : AuthResult :=
  if negb (AddrFromUUID TailscaleServicePrefix ID =? addr)%N && negb (AddrFromUUID CoderServicePrefix ID =? addr)%N &&
     negb (legacyWorkspaceAgentIP =? addr)%N
  then AuthErr "invalid node address" else AuthOk.

Definition AgentCoordinateeAuth (ID : uuid) : CoordinateeAuth := fun req =>
  match rq_AddTunnel req with
  | Some _ => AuthErr "agents cannot open tunnels"
  | None => check_update (agent_address ID) (rq_UpdateSelf req)
  end.

(** [TunnelAuthorizer.AuthorizeTunnel], an interface: whether the user may connect to the agent. *)
Definition ClientUserCoordinateeAuth (AuthorizeTunnel : uuid -> result unit) : CoordinateeAuth := fun req =>
  match rq_AddTunnel req with
  | None => handleClientNodeRequests req
  | Some None => AuthErr "parse add tunnel id"
  | Some (Some uid) =>
      match AuthorizeTunnel uid with
      | Err _ => AuthErr "workspace agent not found or you do not have permission"
      | Ok _ => handleClientNodeRequests req
      end
  end.

(** ** What an accepted request can do *)

(** Every address of the node the request claims satisfies [P] and is a single address. *)
Definition claims_only (P : N -> Prop) (req : CoordinateRequest) : Prop :=
  forall node s, rq_UpdateSelf req = Some (Some node) -> s ∈ node_Addresses node ->
    exists addr, ParsePrefix s = Ok (addr, 128) /\ P addr.

Lemma check_addresses_ok check l (P : N -> Prop) :
  (forall a, check a = AuthOk -> P a) -> check_addresses check l = AuthOk ->
  forall s, s ∈ l -> exists addr, ParsePrefix s = Ok (addr, 128) /\ P addr.
Proof.
  intros HP. induction l as [|x l IH]; cbn [check_addresses]; [intros _ s []%not_elem_of_nil|].
  destruct (ParsePrefix x) as [[addr bits]|] eqn:Hx; [|done].
  destruct (Z.eqb_spec bits 128) as [->|]; [|done]. cbn [negb].
  destruct (check addr) eqn:Hc; [|done..]. intros Hl s [->|Hs]%elem_of_cons; eauto.
Qed.

Lemma check_update_ok check req (P : N -> Prop) :
  (forall a, check a = AuthOk -> P a) -> check_update check (rq_UpdateSelf req) = AuthOk ->
  claims_only P req /\ rq_UpdateSelf req <> Some None.
Proof.
  intros HP Hc. split; [|intros E; by rewrite E in Hc]. intros node s Hn Hs. rewrite Hn in Hc.
  by eapply check_addresses_ok.
Qed.

Lemma handleClient_ok req :
  handleClientNodeRequests req = AuthOk ->
  claims_only (fun _ => True) req /\ rq_UpdateSelf req <> Some None /\ rq_ReadyForHandshake req = [].
Proof.
  unfold handleClientNodeRequests. destruct (check_update _ _) eqn:Hc; [|done..].
  destruct (check_update_ok _ _ (fun _ => True) ltac:(done) Hc). by destruct (rq_ReadyForHandshake req).
Qed.

(** What each kind of peer can be authorised for.  An agent's accepted request
    opens no tunnel and claims no address but the two derived from the agent's
    identifier and the legacy one; a client's accepted request opens a tunnel
    to its one agent only, or, for a user, to an agent the user may reach, and
    acknowledges no handshake; and a node is only accepted with single
    addresses. *)
Lemma authorized_requests req :
  (forall ID, AgentCoordinateeAuth ID req = AuthOk ->
     rq_AddTunnel req = None /\
     claims_only (fun a => a = AddrFromUUID TailscaleServicePrefix ID \/ a = AddrFromUUID CoderServicePrefix ID \/
                           a = legacyWorkspaceAgentIP) req) /\
  (forall AgentID, ClientCoordinateeAuth AgentID req = AuthOk ->
     (rq_AddTunnel req = None \/ rq_AddTunnel req = Some (Some AgentID)) /\
     rq_ReadyForHandshake req = [] /\ claims_only (fun _ => True) req) /\
  (forall az, ClientUserCoordinateeAuth az req = AuthOk ->
     (rq_AddTunnel req = None \/ exists id, rq_AddTunnel req = Some (Some id) /\ az id = Ok tt) /\
     rq_ReadyForHandshake req = [] /\ claims_only (fun _ => True) req).
Proof.
  split; [|split].
  - intros ID. unfold AgentCoordinateeAuth. destruct (rq_AddTunnel req); [done|]. intros Hc. split; [done|].
    apply (check_update_ok (agent_address ID)); [|done]. intros a. unfold agent_address.
    destruct (N.eqb_spec (AddrFromUUID TailscaleServicePrefix ID) a) as [->|]; [by left|].
    destruct (N.eqb_spec (AddrFromUUID CoderServicePrefix ID) a) as [->|]; [by right; left|].
    destruct (N.eqb_spec legacyWorkspaceAgentIP a) as [->|]; [by right; right|done].
  - intros AgentID. unfold ClientCoordinateeAuth. destruct (rq_AddTunnel req) as [[uid|]|]; [|done|].
    + destruct (N.eqb_spec AgentID uid) as [->|]; [|done]. cbn [negb]. intros (H1 & _ & H3)%handleClient_ok. auto.
    + intros (H1 & _ & H3)%handleClient_ok. auto.
  - intros az. unfold ClientUserCoordinateeAuth. destruct (rq_AddTunnel req) as [[uid|]|]; [|done|].
    + destruct (az uid) as [[]|] eqn:Ha; [|done]. intros (H1 & _ & H3)%handleClient_ok. eauto 10.
    + intros (H1 & _ & H3)%handleClient_ok. auto.
Qed.

(** An agent can make the coordinator panic.  A request that disconnects and
    acknowledges a handshake is accepted from any agent; the disconnection
    closes the agent's response channel, and the answer to a handshake with a
    peer that has no tunnel to the agent is then sent on the closed channel. *)
Lemma disconnect_and_handshake_panics `{MapRange} r p c dst :
  reachable c -> closed c = false -> objects c !! r = Some p -> peers c !! p_id p = Some r ->
  p_auth p = AgentCoordinateeAuth (p_id p) -> ~ tunnel (tunnels c) dst (p_id p) ->
  exists why, handleRequest r (mkRequest None true None None [Some dst]) c = Panic why.
Proof.
  intros [Hw _]%reachable_wf Hcl Hp Hreg Hauth Hnone.
  cut (wp (handleRequest r (mkRequest None true None None [Some dst])) (fun _ _ => False) True False c).
  { unfold wp. destruct (handleRequest _ _ c) as [| why |]; [done| |done]. by exists why. }
  unfold handleRequest. rewrite wp_bind, wp_gets, Hcl, wp_bind, (wp_deref r p), wp_bind, wp_gets by done.
  rewrite bool_decide_eq_true_2, Hauth by done. cbn [negb AgentCoordinateeAuth check_update rq_AddTunnel rq_UpdateSelf].
  do 3 (apply wp_stage; cbn [tunnel_stage rq_AddTunnel rq_RemoveTunnel]; rewrite wp_ret).
  cbn [rq_Disconnect rq_ReadyForHandshake]. rewrite wp_bind.
  eapply wp_mono; [apply removePeer_removed; [by right|done]| |done|done]. intros [] c' [Hw' Hsh _ _ Htun _ Hclosed].
  destruct (sh_objects _ _ _ Hsh r p Hp) as (p' & Hp' & Hid & _).
  rewrite wp_bind. cbn [handleReadyForHandshakeLocked]. rewrite wp_bind, (wp_deref r p') by done. rewrite wp_bind, wp_gets, Hid.
  destruct (tunnelExists (tunnels c') (p_id p) dst) eqn:Ht; cbn [negb].
  - apply tunnelExists_linked in Ht as [Ht|Ht]; [| |apply Hw'].
    + exfalso. apply (Htun dst); [by exists r|done].
    + exfalso. apply Hnone. by apply (sh_tunnel _ _ _ Hsh).
  - rewrite wp_bind. pose proof (Hclosed r p' Hreg Hp') as Ho. eapply wp_send; [exact Hp'|done|congruence|congruence].
Qed.
End Auth.

(** ** Concrete requests *)

Module Examples.
Import Coordinator.Examples.

(** Every node has the one address "a", which parses to the first agent's address. *)
#[export] Instance one_address : NetLib := {
  node_Addresses _ := ["a"%string];
  ParsePrefix _ := Ok (AddrFromUUID CoderServicePrefix 1, 128);
}.

(** Agent 1 alone on the coordinator. *)
Definition one_agent : list op := [OpConnect 1 1 (AgentCoordinateeAuth 1); OpServe 1 (set_node 10)].

Lemma authorized_requests_witness :
  claims_only (fun a => a = AddrFromUUID TailscaleServicePrefix 1 \/ a = AddrFromUUID CoderServicePrefix 1 \/
                        a = legacyWorkspaceAgentIP) (set_node 10).
Proof.
  destruct (authorized_requests (set_node 10)) as [Ha _]. apply Ha. by vm_compute.
Defined.

Lemma disconnect_and_handshake_panics_witness :
  exists why, handleRequest 1 (mkRequest None true None None [Some 5%N]) (state_after one_agent) = Panic why.
Proof.
  destruct (objects (state_after one_agent) !! 1%N) as [p|] eqn:Hp; [|vm_compute in Hp; discriminate Hp].
  assert (Hpid : (fun q => (p_id q, p_auth q)) <$> objects (state_after one_agent) !! 1%N =
    Some (1%N, AgentCoordinateeAuth 1)) by reflexivity.
  rewrite Hp in Hpid. injection Hpid as Hid Hauth.
  apply (disconnect_and_handshake_panics 1 p (state_after one_agent) 5); rewrite ?Hid.
  - apply state_after_reachable. by vm_compute.
  - by vm_compute.
  - exact Hp.
  - by vm_compute.
  - exact Hauth.
  - intros Ht. assert (E : bool_decide (1%N ∈ inner (bySrc (tunnels (state_after one_agent))) 5%N) = false) by (by vm_compute).
    by apply bool_decide_eq_false in E.
Defined.
End Examples.
