(* ===== verification/EntSchedule.v ===== *)
(** * Enterprise schedules: [enterprise/wirtuald/schedule]

    The template schedule store with every option ([template.go]) and the
    store of users' quiet hours ([user.go]). *)

From S2P Require Import Prelude GoStrings GoTime Cron Tags Db Schedule.

Section Enterprise.
Context `{CronLib}.
(** The quiet hours store, [s.now()] and [dbtime.Now()] of a call. *)
Context (uqhs : UserQuietHoursScheduleStore) (now dbnow : Time).

(** [Get] *)
Definition ent_Get (templateID : uuid) (d : Data) : result TemplateScheduleOptions :=
  tpl ← getTemplateByIDNoLock templateID d;
  if tpl_AutostopRequirementDaysOfWeek tpl <? 0 then Err "invalid autostop requirement days, negative"
  else if 255 <? tpl_AutostopRequirementDaysOfWeek tpl then Err "invalid autostop requirement days, too large"
  else
    let weeks := if tpl_AutostopRequirementWeeks tpl =? 0 then 1 else tpl_AutostopRequirementWeeks tpl in
    let days := wrapu 8 (tpl_AutostopRequirementDaysOfWeek tpl) in
    _ ← VerifyTemplateAutostopRequirement days weeks;
    Ok (mkScheduleOptions (tpl_AllowUserAutostart tpl) (tpl_AllowUserAutostop tpl)
          (tpl_DefaultTTL tpl) (tpl_ActivityBump tpl)
          (mkAutostopReq days weeks) (mkAutostartReq (AutostartAllowedDays tpl))
          (tpl_FailureTTL tpl) (tpl_TimeTilDormant tpl) (tpl_TimeTilDormantAutoDelete tpl) None false).

(** The store as [CalculateAutostop] uses it: it only reads. *)
Definition ent_reader : TemplateScheduleStore := mkTSS ent_Get (fun _ tpl _ => mret tpl).

(** The deadlines [updateWorkspaceBuild] writes, from what [CalculateAutostop] gave. *)
Definition new_deadlines (build : WorkspaceBuild) (autostop : AutostopTime) : AutostopTime :=
  let maxDeadline := MaxDeadline autostop in
  let maxDeadline := if negb (IsZero maxDeadline) && Before maxDeadline (Add now (2 * Hour))
                     then Add now (Hour * 2) else maxDeadline in
  let deadline := wb_Deadline build in
  let deadline := if negb (IsZero maxDeadline) && After deadline maxDeadline then maxDeadline else deadline in
  let deadline := if negb (IsZero maxDeadline) && IsZero deadline then maxDeadline else deadline in
  mkAutostop deadline maxDeadline.

Definition updateWorkspaceBuild (build : WorkspaceBuild) : DB unit :=
  if negb (IsZero (wb_MaxDeadline build)) && Before (wb_MaxDeadline build) (Add now (2 * Hour)) then mret tt
  else
    workspace ← db_wrap "get workspace" (db_read (getWorkspaceByIDNoLock (wb_WorkspaceID build)));
    job ← db_wrap "get provisioner job" (db_read (getProvisionerJobByIDNoLock (wb_JobID build)));
    if negb (bool_decide (pj_JobStatus job = JobSucceeded)) then mret tt
    else if Before (nt_Time (pj_CompletedAt job))
                   (Add (TemplateAutostopRequirementEpoch UTC) (Hour * 7 * 24)) then mret tt
    else
      autostop ← db_wrap "calculate new autostop for workspace"
                   (db_read (CalculateAutostop ent_reader uqhs (ns_String (ws_AutostartSchedule workspace))
                               (nt_Time (pj_CompletedAt job)) workspace));
      let autostop := new_deadlines build autostop in
      db_wrap "update workspace build"
        (UpdateWorkspaceBuildDeadlineByID (wb_ID build) now (Deadline autostop) (MaxDeadline autostop)).

Fixpoint update_builds_loop (builds : list WorkspaceBuild) : DB unit :=
  match builds with
  | [] => mret tt
  | build :: builds => _ ← db_wrap "update workspace build" (updateWorkspaceBuild build); update_builds_loop builds
  end.

Definition updateWorkspaceBuilds (template : TemplateTable) : DB unit := fun d =>
  match GetActiveWorkspaceBuildsByTemplateID (tpl_ID template) d with
  | Ok builds => update_builds_loop builds d
  | Err e => if String.eqb e ErrNoRows then (d, Ok tt) else (d, Err ("get active workspace builds: " +:+ e))
  end.

(** [Duration.Milliseconds]: truncated. *)
Definition Milliseconds (d : Z) : Z := Z.quot d 1000000.

Definition schedule_params (tpl : TemplateTable) (opts : TemplateScheduleOptions) : UpdateTemplateScheduleByIDParams :=
  mkUpdateTemplateSchedule (tpl_ID tpl) now (UserAutostartEnabled opts) (UserAutostopEnabled opts)
    (DefaultTTL opts) (ActivityBump opts) (aor_DaysOfWeek (AutostopRequirement opts))
    (aor_Weeks (AutostopRequirement opts))
    (Z.land (255 - asr_DaysOfWeek (AutostartRequirement opts)) 127)
    (FailureTTL opts) (TimeTilDormant opts) (TimeTilDormantAutoDelete opts).

(** The transaction of [Set]: the template after the update, and the workspaces
    that are marked for deletion. *)
Definition set_tx (tpl : TemplateTable) (opts : TemplateScheduleOptions) : DB (TemplateTable * list WorkspaceTable) :=
  _ ← db_wrap "update template schedule" (UpdateTemplateScheduleByID dbnow (schedule_params tpl opts));
  let dormantAt := if UpdateWorkspaceDormantAt opts then dbnow else zeroTime in
  markedForDeletion ← db_wrap "update deleting_at of all workspaces for new time_til_dormant_autodelete"
    (UpdateWorkspacesDormantDeletingAtByTemplateID (tpl_ID tpl) (Milliseconds (TimeTilDormantAutoDelete opts)) dormantAt);
  _ ← (match UpdateWorkspaceLastUsedAt opts with
       | Some f => db_wrap "update workspace last used at" (f (tpl_ID tpl) now)
       | None => mret tt
       end);
  template ← db_wrap "get updated template schedule" (db_read (getTemplateByIDNoLock (tpl_ID tpl)));
  _ ← db_wrap "update workspace builds" (updateWorkspaceBuilds template);
  mret (template, markedForDeletion).

(** [Set]; it also gives the workspaces whose owners are notified. *)
Definition ent_Set_notify (tpl : TemplateTable) (opts : TemplateScheduleOptions)
    : DB (TemplateTable * list WorkspaceTable) :=
  let req := AutostopRequirement opts in
  let opts := if aor_Weeks req <=? 0
              then opts{{ AutostopRequirement := mkAutostopReq (aor_DaysOfWeek req) 1 }} else opts in
  let tpl := if tpl_AutostopRequirementWeeks tpl <=? 0 then tpl{{ tpl_AutostopRequirementWeeks := 1 }} else tpl in
  if (DefaultTTL opts =? tpl_DefaultTTL tpl) && (ActivityBump opts =? tpl_ActivityBump tpl) &&
     (aor_DaysOfWeek (AutostopRequirement opts) =? tpl_AutostopRequirementDaysOfWeek tpl) &&
     (asr_DaysOfWeek (AutostartRequirement opts) =? AutostartAllowedDays tpl) &&
     (aor_Weeks (AutostopRequirement opts) =? tpl_AutostopRequirementWeeks tpl) &&
     (FailureTTL opts =? tpl_FailureTTL tpl) && (TimeTilDormant opts =? tpl_TimeTilDormant tpl) &&
     (TimeTilDormantAutoDelete opts =? tpl_TimeTilDormantAutoDelete tpl) &&
     Bool.eqb (UserAutostartEnabled opts) (tpl_AllowUserAutostart tpl) &&
     Bool.eqb (UserAutostopEnabled opts) (tpl_AllowUserAutostop tpl)
  then mret (tpl, [])
  else
    _ ← db_wrap "verify autostop requirement"
          (db_read (fun _ => VerifyTemplateAutostopRequirement (aor_DaysOfWeek (AutostopRequirement opts))
                               (aor_Weeks (AutostopRequirement opts))));
    _ ← db_wrap "verify autostart requirement"
          (db_read (fun _ => VerifyTemplateAutostartRequirement (asr_DaysOfWeek (AutostartRequirement opts))));
    InTx (set_tx tpl opts).

Definition ent_Set (tpl : TemplateTable) (opts : TemplateScheduleOptions) : DB TemplateTable :=
  '(template, _) ← ent_Set_notify tpl opts; mret template.

(** ** Quiet hours *)

Record enterpriseUserQuietHoursScheduleStore := mkQuietStore {
  qs_defaultSchedule : string;
  qs_userCanSet : bool;
}.

Definition parseSchedule (s : enterpriseUserQuietHoursScheduleStore) (rawSchedule : string)
    : result UserQuietHoursScheduleOptions :=
  let userSet := negb (blank rawSchedule) in
  let rawSchedule := if blank rawSchedule then qs_defaultSchedule s else rawSchedule in
  sched ← wrap "parse daily schedule" (Daily rawSchedule);
  if HasPrefix (Time_ sched) "cron(" then Err "daily schedule has more than one time"
  else Ok (mkQuietHours (Some sched) userSet (qs_userCanSet s)).

Definition NewEnterpriseUserQuietHoursScheduleStore (defaultSchedule : string) (userCanSet : bool)
    : result enterpriseUserQuietHoursScheduleStore :=
  if String.eqb defaultSchedule "" then Err "default schedule must be set"
  else
    let s := mkQuietStore defaultSchedule userCanSet in
    _ ← wrap "parse default schedule" (parseSchedule s defaultSchedule); Ok s.

Definition quiet_Get (s : enterpriseUserQuietHoursScheduleStore) (userID : uuid) (d : Data)
    : result UserQuietHoursScheduleOptions :=
  if negb (qs_userCanSet s) then parseSchedule s ""
  else
    user ← wrap "get user by ID" (getUserByIDNoLock userID d);
    parseSchedule s (u_QuietHoursSchedule user).

Definition quiet_Set (s : enterpriseUserQuietHoursScheduleStore) (userID : uuid) (rawSchedule : string)
    : DB UserQuietHoursScheduleOptions :=
  if negb (qs_userCanSet s) then
    db_err "user cannot set custom quiet hours schedule due to deployment configuration"
  else
    opts ← db_read (fun _ => parseSchedule s rawSchedule);
    let rawSchedule := if uqh_UserSet opts
                       then match uqh_Schedule opts with Some sched => String_ sched | None => "" end
                       else "" in
    _ ← db_wrap "update user quiet hours schedule" (UpdateUserQuietHoursSchedule userID rawSchedule);
    mret opts.

(** * Theorems *)

(** ** Deadlines of running builds *)

(** What the new deadlines of a build promise: a max deadline leaves at least two
    hours, the deadline does not pass it, and without one the deadline stays. *)
Definition fair (build : WorkspaceBuild) (a : AutostopTime) : Prop :=
  if IsZero (MaxDeadline a) then Deadline a = wb_Deadline build
  else t_ns now + 2 * Hour <= t_ns (MaxDeadline a) /\ t_ns (Deadline a) <= t_ns (MaxDeadline a) /\
       IsZero (Deadline a) = false /\ (Deadline a = wb_Deadline build \/ Deadline a = MaxDeadline a).

Lemma new_deadlines_fair build a : fair build (new_deadlines build a).
Proof.
  unfold fair, new_deadlines. cbn [MaxDeadline Deadline].
  set (mdl := if negb (IsZero (MaxDeadline a)) && _ then _ else _).
  assert (Hm : IsZero mdl = false -> t_ns now + 2 * Hour <= t_ns mdl).
  { unfold mdl, Before. destruct (IsZero (MaxDeadline a)) eqn:Hz; cbn [negb andb]; [congruence|].
    destruct (Z.ltb_spec (t_ns (MaxDeadline a)) (t_ns (Add now (2 * Hour)))) as [|Hge]; intros _;
      [cbn [Add t_ns]; lia|cbn [Add t_ns] in Hge; lia]. }
  clearbody mdl. destruct (IsZero mdl) eqn:Hz; cbn [negb andb]; [done|]. split; [by apply Hm|].
  unfold After. destruct (Z.ltb_spec (t_ns mdl) (t_ns (wb_Deadline build))) as [|Hle].
  - rewrite Hz. split; [lia|]. split; [done|]. by right.
  - destruct (IsZero (wb_Deadline build)) eqn:Hd; [split; [lia|]; split; [done|by right]|].
    split; [lia|]. split; [done|by left].
Qed.

(** A template change moves a running build's deadlines fairly.  When
    [updateWorkspaceBuild] succeeds it leaves the store or rewrites the
    deadlines of the one build: the new max deadline, if there is one, is at
    least two hours away, the deadline does not pass it, and the deadline is
    otherwise the one the build had; a build whose job has not succeeded is
    left alone. *)
Lemma updateWorkspaceBuild_fair build d d' :
  updateWorkspaceBuild build d = (d', Ok tt) ->
  d' = d \/
  exists job l1 b l2 a,
    getProvisionerJobByIDNoLock (wb_JobID build) d = Ok job /\ pj_JobStatus job = JobSucceeded /\
    workspaceBuilds d = l1 ++ b :: l2 /\ wb_ID b = wb_ID build /\ fair build a /\
    d' = set_builds (l1 ++ b{{ wb_Deadline := Deadline a; wb_MaxDeadline := MaxDeadline a; wb_UpdatedAt := now }} :: l2) d.
Proof.
  unfold updateWorkspaceBuild. case_match; [intros [= <-]; by left|].
  rewrite db_read_bind. destruct (getWorkspaceByIDNoLock _ d) as [ws|]; [|done].
  rewrite db_read_bind. destruct (getProvisionerJobByIDNoLock _ d) as [job|]; [|done].
  destruct (bool_decide_reflect (pj_JobStatus job = JobSucceeded)) as [Hok|]; [cbn [negb]|intros [= <-]; by left].
  case_match; [intros [= <-]; by left|]. rewrite db_read_bind.
  destruct (CalculateAutostop _ _ _ _ _ d) as [a|]; [|done]. cbv zeta.
  unfold db_wrap, UpdateWorkspaceBuildDeadlineByID, update_table, mbind, DB_bind.
  destruct (update_first _ _ (workspaceBuilds d)) as [[b' l]|] eqn:Hu; [|done]. intros [= <-]. right.
  apply update_first_split in Hu as (l1 & b & l2 & Hl & Hb & _ & _ & ->).
  exists job, l1, b, l2, (new_deadlines build a). apply N.eqb_eq in Hb.
  do 4 (split; [done|]). split; [apply new_deadlines_fair|done].
Qed.

(** ** Setting and reading back *)

Lemma updateWorkspaceBuild_templates build : preserves templates (updateWorkspaceBuild build).
Proof.
  unfold updateWorkspaceBuild. case_match; [apply preserves_ret|].
  apply preserves_bind; [auto with preserves|intros ws]. apply preserves_bind; [auto with preserves|intros job].
  do 2 (case_match; [apply preserves_ret|]). apply preserves_bind; [auto with preserves|intros a].
  apply preserves_wrap. intros d. unfold UpdateWorkspaceBuildDeadlineByID, update_table, mbind, DB_bind.
  by destruct (update_first _ _ _) as [[]|].
Qed.

Lemma updateWorkspaceBuilds_templates tpl : preserves templates (updateWorkspaceBuilds tpl).
Proof.
  assert (Hl : forall l, preserves templates (update_builds_loop l)).
  { induction l; cbn [update_builds_loop]; [apply preserves_ret|].
    apply preserves_bind; [apply preserves_wrap, updateWorkspaceBuild_templates|done]. }
  intros d. unfold updateWorkspaceBuilds. destruct (GetActiveWorkspaceBuildsByTemplateID _ d); [apply Hl|].
  by case_match.
Qed.

(** The template row [set_tx] leaves. *)
Definition scheduled (arg : UpdateTemplateScheduleByIDParams) (tpl : TemplateTable) : TemplateTable :=
  tpl{{ tpl_AllowUserAutostart := uts_AllowUserAutostart arg;
        tpl_AllowUserAutostop := uts_AllowUserAutostop arg;
        tpl_UpdatedAt := dbnow;
        tpl_DefaultTTL := uts_DefaultTTL arg;
        tpl_ActivityBump := uts_ActivityBump arg;
        tpl_AutostopRequirementDaysOfWeek := uts_AutostopRequirementDaysOfWeek arg;
        tpl_AutostopRequirementWeeks := uts_AutostopRequirementWeeks arg;
        tpl_AutostartBlockDaysOfWeek := uts_AutostartBlockDaysOfWeek arg;
        tpl_FailureTTL := uts_FailureTTL arg;
        tpl_TimeTilDormant := uts_TimeTilDormant arg;
        tpl_TimeTilDormantAutoDelete := uts_TimeTilDormantAutoDelete arg }}.

Lemma UpdateTemplateSchedule_row arg d d' :
  UpdateTemplateScheduleByID dbnow arg d = (d', Ok tt) ->
  exists tpl, getTemplateByIDNoLock (uts_ID arg) d = Ok tpl /\ getTemplateByIDNoLock (uts_ID arg) d' = Ok (scheduled arg tpl).
Proof.
  unfold UpdateTemplateScheduleByID, update_table, mbind, DB_bind.
  destruct (update_first _ _ (templates d)) as [[t' l]|] eqn:Hu; [|done]. intros [= <-].
  apply update_first_split in Hu as (l1 & t & l2 & Hl & Ht & Hn & _ & ->). exists t.
  unfold getTemplateByIDNoLock, or_no_rows. change (templates (set_templates ?l d)) with l. rewrite Hl.
  split; (erewrite (proj2 (find_first_split _ _ _)); [reflexivity|]); do 2 eexists; (split; [reflexivity|]); by split.
Qed.

Lemma set_tx_row tpl opts d d' r :
  (forall f, UpdateWorkspaceLastUsedAt opts = Some f -> forall id t, preserves templates (f id t)) ->
  set_tx tpl opts d = (d', Ok r) ->
  exists t, getTemplateByIDNoLock (tpl_ID tpl) d' = Ok (scheduled (schedule_params tpl opts) t).
Proof.
  intros Hcb. unfold set_tx. rewrite db_wrap_bind.
  destruct (UpdateTemplateScheduleByID _ _ d) as [d1 [[]|e]] eqn:Hu; [|done].
  apply UpdateTemplateSchedule_row in Hu as (t & _ & Ht). change (uts_ID _) with (tpl_ID tpl) in Ht.
  intros Hrest. exists t. rewrite <- Ht. unfold getTemplateByIDNoLock. f_equal. f_equal.
  match type of Hrest with ?m d1 = _ => assert (Hp : preserves templates m) end.
  { apply preserves_bind; [apply preserves_wrap; by intros ?|intros l].
    apply preserves_bind; [|intros _].
    { destruct (UpdateWorkspaceLastUsedAt opts) as [f|]; [apply preserves_wrap; by apply (Hcb f)|apply preserves_ret]. }
    apply preserves_bind; [auto with preserves|intros t']. apply preserves_bind; [|intros _; apply preserves_ret].
    apply preserves_wrap, updateWorkspaceBuilds_templates. }
  specialize (Hp d1). by rewrite Hrest in Hp.
Qed.

(** The inverse of the allowed days is stored, and read back. *)
Lemma allowed_days_inverse a :
  0 <= a < 128 -> Z.land (255 - wrapu 8 (Z.land (255 - a) 127)) 127 = a.
Proof.
  intros Ha.
  assert (Hall : forallb (fun n => Z.land (255 - wrapu 8 (Z.land (255 - Z.of_nat n) 127)) 127 =? Z.of_nat n) (seq 0 128) = true)
    by (by vm_compute).
  rewrite forallb_forall in Hall. specialize (Hall (Z.to_nat a)). rewrite Z2Nat.id in Hall by lia.
  apply Z.eqb_eq, Hall, in_seq. lia.
Qed.

(** The options as the store keeps them. *)
Definition kept_options (opts : TemplateScheduleOptions) : TemplateScheduleOptions :=
  mkScheduleOptions (UserAutostartEnabled opts) (UserAutostopEnabled opts) (DefaultTTL opts) (ActivityBump opts)
    (mkAutostopReq (aor_DaysOfWeek (AutostopRequirement opts))
       (if aor_Weeks (AutostopRequirement opts) <=? 0 then 1 else aor_Weeks (AutostopRequirement opts)))
    (AutostartRequirement opts) (FailureTTL opts) (TimeTilDormant opts) (TimeTilDormantAutoDelete opts) None false.

Lemma verified_days x : 0 <= x < 256 -> Z.land x 128 = 0 -> 0 <= x < 128.
Proof. intros Hx Hl. destruct (decide (x = 0)) as [->|]; [lia|]. split; [lia|]. apply land_128_low; [lia|done]. Qed.

Lemma VerifyAutostop_ok days weeks :
  VerifyTemplateAutostopRequirement days weeks = Ok tt -> Z.land days 128 = 0 /\ 1 <= weeks.
Proof.
  unfold VerifyTemplateAutostopRequirement. destruct (Z.eqb_spec (Z.land days 128) 0); [|done]. cbn [negb].
  destruct (255 <? days); [done|]. destruct (Z.ltb_spec weeks 1); [done|]. intros _. lia.
Qed.

Lemma VerifyAutostart_ok days :
  VerifyTemplateAutostartRequirement days = Ok tt -> Z.land days 128 = 0.
Proof.
  unfold VerifyTemplateAutostartRequirement. destruct (Z.eqb_spec (Z.land days 128) 0); done.
Qed.

(** Reading a row that [set_tx] wrote from verified options. *)
Lemma ent_Get_scheduled tpl opts t d days weeks :
  AutostopRequirement opts = mkAutostopReq days weeks ->
  0 <= days < 256 -> 0 <= asr_DaysOfWeek (AutostartRequirement opts) < 256 ->
  VerifyTemplateAutostopRequirement days weeks = Ok tt ->
  VerifyTemplateAutostartRequirement (asr_DaysOfWeek (AutostartRequirement opts)) = Ok tt ->
  getTemplateByIDNoLock (tpl_ID tpl) d = Ok (scheduled (schedule_params tpl opts) t) ->
  ent_Get (tpl_ID tpl) d = Ok (kept_options opts).
Proof.
  intros Hreq Hd1 Hd2 Hv1 Hv2 Ht. unfold ent_Get. rewrite Ht. change (Ok ?x ≫= ?f) with (f x). cbv beta.
  set (row := scheduled _ t).
  assert (E1 : tpl_AutostopRequirementDaysOfWeek row = days) by (change (aor_DaysOfWeek (AutostopRequirement opts) = days); by rewrite Hreq).
  assert (E2 : tpl_AutostopRequirementWeeks row = weeks) by (change (aor_Weeks (AutostopRequirement opts) = weeks); by rewrite Hreq).
  rewrite E1, E2. destruct (Z.ltb_spec days 0); [lia|]. destruct (Z.ltb_spec 255 days); [lia|].
  destruct (VerifyAutostop_ok _ _ Hv1) as [_ Hw]. destruct (Z.eqb_spec weeks 0); [lia|]. cbv zeta.
  rewrite wrapu_id by lia. rewrite Hv1. change (Ok ?x ≫= ?f) with (f x). cbv beta.
  unfold kept_options. rewrite Hreq. cbn [aor_DaysOfWeek aor_Weeks]. destruct (Z.leb_spec weeks 0); [lia|].
  assert (E3 : AutostartAllowedDays row = asr_DaysOfWeek (AutostartRequirement opts)).
  { unfold AutostartAllowedDays. change (tpl_AutostartBlockDaysOfWeek row) with
      (Z.land (255 - asr_DaysOfWeek (AutostartRequirement opts)) 127).
    apply allowed_days_inverse, verified_days; [done|]. by apply VerifyAutostart_ok. }
  rewrite E3. by destruct (AutostartRequirement opts).
Qed.

(** The comparison of [Set] that avoids an update, for normalised weeks. *)
Definition unchanged (tpl : TemplateTable) (opts : TemplateScheduleOptions) : bool :=
  (DefaultTTL opts =? tpl_DefaultTTL tpl) && (ActivityBump opts =? tpl_ActivityBump tpl) &&
  (aor_DaysOfWeek (AutostopRequirement opts) =? tpl_AutostopRequirementDaysOfWeek tpl) &&
  (asr_DaysOfWeek (AutostartRequirement opts) =? AutostartAllowedDays tpl) &&
  (aor_Weeks (AutostopRequirement opts) =? tpl_AutostopRequirementWeeks tpl) &&
  (FailureTTL opts =? tpl_FailureTTL tpl) && (TimeTilDormant opts =? tpl_TimeTilDormant tpl) &&
  (TimeTilDormantAutoDelete opts =? tpl_TimeTilDormantAutoDelete tpl) &&
  Bool.eqb (UserAutostartEnabled opts) (tpl_AllowUserAutostart tpl) &&
  Bool.eqb (UserAutostopEnabled opts) (tpl_AllowUserAutostop tpl).

Lemma unchanged_read tpl opts d :
  getTemplateByIDNoLock (tpl_ID tpl) d = Ok tpl -> is_ok (ent_Get (tpl_ID tpl) d) = true ->
  0 < aor_Weeks (AutostopRequirement opts) ->
  unchanged (if tpl_AutostopRequirementWeeks tpl <=? 0 then tpl{{ tpl_AutostopRequirementWeeks := 1 }} else tpl) opts = true ->
  ent_Get (tpl_ID tpl) d = Ok (kept_options opts).
Proof.
  intros Hrow Hread Hw Hsame. unfold ent_Get in *. rewrite Hrow in *. revert Hread.
  change (Ok ?x ≫= ?f) with (f x). cbv beta.
  destruct (Z.ltb_spec (tpl_AutostopRequirementDaysOfWeek tpl) 0); [done|].
  destruct (Z.ltb_spec 255 (tpl_AutostopRequirementDaysOfWeek tpl)); [done|]. cbv zeta.
  rewrite wrapu_id by lia. set (wk := if tpl_AutostopRequirementWeeks tpl =? 0 then _ else _).
  destruct (VerifyTemplateAutostopRequirement _ wk) as [[]|] eqn:Hv; [|done]. intros _.
  change (Ok ?x ≫= ?f) with (f x). cbv beta. apply VerifyAutostop_ok in Hv as [_ Hwk].
  set (tpl1 := if _ <=? 0 then _ else tpl) in Hsame.
  assert (Ht : wk = tpl_AutostopRequirementWeeks tpl1 /\ AutostartAllowedDays tpl1 = AutostartAllowedDays tpl /\
    tpl_DefaultTTL tpl1 = tpl_DefaultTTL tpl /\ tpl_ActivityBump tpl1 = tpl_ActivityBump tpl /\
    tpl_AutostopRequirementDaysOfWeek tpl1 = tpl_AutostopRequirementDaysOfWeek tpl /\
    tpl_FailureTTL tpl1 = tpl_FailureTTL tpl /\ tpl_TimeTilDormant tpl1 = tpl_TimeTilDormant tpl /\
    tpl_TimeTilDormantAutoDelete tpl1 = tpl_TimeTilDormantAutoDelete tpl /\
    tpl_AllowUserAutostart tpl1 = tpl_AllowUserAutostart tpl /\ tpl_AllowUserAutostop tpl1 = tpl_AllowUserAutostop tpl).
  { unfold wk, tpl1 in *. destruct (Z.eqb_spec (tpl_AutostopRequirementWeeks tpl) 0) as [E|].
    - rewrite E. done.
    - destruct (Z.leb_spec (tpl_AutostopRequirementWeeks tpl) 0); [lia|done]. }
  clearbody tpl1 wk. destruct Ht as (E1 & E2 & E3 & E4 & E5 & E6 & E7 & E8 & E9 & E10).
  unfold unchanged in Hsame. rewrite E2, E3, E4, E5, E6, E7, E8, E9, E10, <- E1 in Hsame.
  repeat match type of Hsame with _ && _ = true => apply andb_true_iff in Hsame as [Hsame ?] end.
  repeat match goal with
  | H : (_ =? _) = true |- _ => apply Z.eqb_eq in H
  | H : Bool.eqb _ _ = true |- _ => apply Bool.eqb_prop in H
  end.
  unfold kept_options. destruct (Z.leb_spec (aor_Weeks (AutostopRequirement opts)) 0); [lia|].
  destruct (AutostartRequirement opts). simpl in *. congruence.
Qed.

Lemma set_changed_read tpl opts d d' r :
  0 <= aor_DaysOfWeek (AutostopRequirement opts) < 256 -> 0 <= asr_DaysOfWeek (AutostartRequirement opts) < 256 ->
  (forall f, UpdateWorkspaceLastUsedAt opts = Some f -> forall id t, preserves templates (f id t)) ->
  (_ ← db_wrap "verify autostop requirement"
          (db_read (fun _ => VerifyTemplateAutostopRequirement (aor_DaysOfWeek (AutostopRequirement opts))
                               (aor_Weeks (AutostopRequirement opts))));
   _ ← db_wrap "verify autostart requirement"
          (db_read (fun _ => VerifyTemplateAutostartRequirement (asr_DaysOfWeek (AutostartRequirement opts))));
   InTx (set_tx tpl opts)) d = (d', Ok r) ->
  ent_Get (tpl_ID tpl) d' = Ok (kept_options opts).
Proof.
  intros Hd1 Hd2 Hcb. rewrite db_read_bind.
  destruct (VerifyTemplateAutostopRequirement _ _) as [[]|] eqn:Hv1; [|done]. rewrite db_read_bind.
  destruct (VerifyTemplateAutostartRequirement _) as [[]|] eqn:Hv2; [|done]. intros Hset.
  destruct (set_tx_row tpl opts d d' r Hcb Hset) as [t Ht].
  eapply ent_Get_scheduled; [|exact Hd1|exact Hd2|exact Hv1|exact Hv2|exact Ht]. by destruct (AutostopRequirement opts).
Qed.

(** A schedule that is set is the schedule that is read.  After a successful
    [Set] of a template whose stored schedule was readable, [Get] gives the
    options that were set, a number of weeks below one standing for one;
    whether the template was updated or found unchanged. *)
Lemma ent_Set_Get tpl opts d d' tpl' :
  getTemplateByIDNoLock (tpl_ID tpl) d = Ok tpl -> is_ok (ent_Get (tpl_ID tpl) d) = true ->
  0 <= aor_DaysOfWeek (AutostopRequirement opts) < 256 -> 0 <= asr_DaysOfWeek (AutostartRequirement opts) < 256 ->
  (forall f, UpdateWorkspaceLastUsedAt opts = Some f -> forall id t, preserves templates (f id t)) ->
  ent_Set tpl opts d = (d', Ok tpl') ->
  ent_Get (tpl_ID tpl) d' = Ok (kept_options opts).
Proof.
  intros Hrow Hread Hd1 Hd2 Hcb. unfold ent_Set, ent_Set_notify.
  set (opts1 := if aor_Weeks _ <=? 0 then _ else opts).
  assert (Hopts : kept_options opts1 = kept_options opts /\ 0 < aor_Weeks (AutostopRequirement opts1) /\
    aor_DaysOfWeek (AutostopRequirement opts1) = aor_DaysOfWeek (AutostopRequirement opts) /\
    AutostartRequirement opts1 = AutostartRequirement opts /\ UpdateWorkspaceLastUsedAt opts1 = UpdateWorkspaceLastUsedAt opts).
  { unfold opts1, kept_options. destruct opts as [? ? ? ? [dw wk] ? ? ? ? ? ?]. cbn [AutostopRequirement aor_Weeks].
    destruct (Z.leb_spec wk 0); cbn; destruct (Z.leb_spec wk 0); try lia; repeat split; lia. }
  destruct Hopts as (Ho1 & Ho2 & Ho3 & Ho4 & Ho5). rewrite <- Ho1. clearbody opts1.
  set (tpl1 := if tpl_AutostopRequirementWeeks tpl <=? 0 then _ else tpl).
  assert (Hid : tpl_ID tpl1 = tpl_ID tpl) by (unfold tpl1; by case_match).
  rewrite db_bind_eq. cbv zeta. fold (unchanged tpl1 opts1). destruct (unchanged tpl1 opts1) eqn:Hsame.
  - intros [= <- <-]. by apply unchanged_read.
  - match goal with |- match ?m d with _ => _ end = _ -> _ => destruct (m d) as [d1 [[tpl2 marked]|e]] eqn:Hm end; [|done].
    intros [= <- <-]. rewrite <- Hid. eapply set_changed_read; [..|exact Hm]; try congruence.
    by rewrite Ho5.
Qed.

(** ** Quiet hours *)

(** Quiet hours that are set are the quiet hours that are read.  When a user
    sets a schedule, [Get] then gives the options [Set] returned; an empty
    schedule clears the user's own and leaves the deployment's default, and
    the schedule is stored in its tidy form. *)
Lemma quiet_Set_Get `{!CronParserLaws} s userID raw d d' opts :
  quiet_Set s userID raw d = (d', Ok opts) ->
  quiet_Get s userID d' = Ok opts /\ uqh_UserCanSet opts = true /\ uqh_UserSet opts = negb (blank raw).
Proof.
  unfold quiet_Set. destruct (qs_userCanSet s) eqn:Hcan; [cbn [negb]|done].
  rewrite db_bind_eq. unfold db_read at 1. destruct (parseSchedule s raw) as [o|] eqn:Hp; [|done].
  cbv zeta. rewrite db_wrap_bind. set (stored := if uqh_UserSet o then _ else _).
  destruct (UpdateUserQuietHoursSchedule userID stored d) as [d1 [u|]] eqn:Hu; [|done]. intros [= <- <-].
  assert (Hparse : parseSchedule s stored = Ok o /\ uqh_UserCanSet o = true /\ uqh_UserSet o = negb (blank raw)).
  { unfold parseSchedule in Hp. apply bind_Ok in Hp as (sc & Hd%wrap_Ok & Hp).
    destruct (HasPrefix (Time_ sc) "cron(") eqn:Ht; [done|]. injection Hp as <-. unfold stored. clear stored Hu.
    cbn [uqh_UserSet uqh_UserCanSet uqh_Schedule]. split; [|done].
    destruct (blank raw) eqn:Hb; cbn [negb].
    - unfold parseSchedule. change (blank "") with true. cbn [negb]. rewrite Hd. cbn [wrap]. change (Ok ?x ≫= ?f) with (f x). cbv beta. by rewrite Ht.
    - apply Daily_print in Hd. unfold parseSchedule. replace (blank (String_ sc)) with false by (symmetry; apply blank_word; reflexivity). cbn [negb]. rewrite Hd.
      cbn [wrap]. change (Ok ?x ≫= ?f) with (f x). cbv beta. by rewrite Ht. }
  destruct Hparse as [Hparse Hrest]. split; [|exact Hrest].
  unfold quiet_Get. rewrite Hcan. cbn [negb].
  unfold UpdateUserQuietHoursSchedule, update_table in Hu.
  destruct (update_first _ _ (users d)) as [[u' l]|] eqn:E; [|done]. injection Hu as <- <-.
  apply update_first_split in E as (l1 & x & l2 & Hl & Hx & Hn & -> & ->).
  unfold getUserByIDNoLock. change (users (set_users ?l d)) with l.
  erewrite (proj2 (find_first_split _ _ _)); [|do 2 eexists; split; [reflexivity|]; split; [exact Hx|exact Hn]].
  exact Hparse.
Qed.
End Enterprise.

(** ** Concrete runs *)

Module Examples.

Definition quiet_store : enterpriseUserQuietHoursScheduleStore := mkQuietStore "0 0 * * *" true.
Definition quiet_uqhs : @UserQuietHoursScheduleStore DailyCron.lib :=
  @mkUQH DailyCron.lib (@quiet_Get DailyCron.lib quiet_store) (@quiet_Set DailyCron.lib quiet_store).
Definition user_store : Data := example_store{{ users := [mkUser 7 "u" UserActive false "" [] zeroTime zeroTime LoginTypePassword zeroTime] }}.
Definition later : Time := Add example_time (30 * Minute).
(** Stop on Sundays. *)
Definition sundays : TemplateScheduleOptions :=
  mkScheduleOptions true true (8 * Hour) Hour (mkAutostopReq 64 1) (mkAutostartReq 31) 0 0 0 None false.
Definition stored_template : TemplateTable := example_template Hour.
Definition running_build : WorkspaceBuild := example_build 101 1 (Add example_time Hour) zeroTime.
End Examples.

Lemma db_ok_cases {A} (m : DB A) d : is_ok (m d).2 = true -> exists d' a, m d = (d', Ok a).
Proof. destruct (m d) as [d' [a|e]]; [|done]. intros _. by exists d', a. Qed.

Lemma ent_Set_Get_witness :
  exists d', ent_Get 20 d' = Ok (kept_options Examples.sundays).
Proof.
  destruct (db_ok_cases (@ent_Set DailyCron.lib Examples.quiet_uqhs Examples.later Examples.later
    Examples.stored_template Examples.sundays) Examples.user_store eq_refl) as (d' & t & E).
  exists d'.
  exact (@ent_Set_Get DailyCron.lib Examples.quiet_uqhs Examples.later Examples.later Examples.stored_template
           Examples.sundays Examples.user_store d' t eq_refl eq_refl
           (conj (proj1 (Z.leb_le 0 64) eq_refl) eq_refl) (conj (proj1 (Z.leb_le 0 31) eq_refl) eq_refl)
           ltac:(intros f Hf; discriminate Hf) E).
Defined.

Lemma updateWorkspaceBuild_fair_witness :
  exists d', d' = Examples.user_store \/
    exists b a, b ∈ workspaceBuilds Examples.user_store /\ fair Examples.later Examples.running_build a.
Proof.
  destruct (db_ok_cases (@updateWorkspaceBuild DailyCron.lib Examples.quiet_uqhs Examples.later Examples.running_build)
    Examples.user_store eq_refl) as (d' & [] & E).
  exists d'.
  destruct (@updateWorkspaceBuild_fair DailyCron.lib _ _ _ _ _ E) as [H|(job & l1 & b & l2 & a & _ & _ & Hl & _ & Hf & _)].
  - by left.
  - right. exists b, a. split; [|exact Hf]. rewrite Hl. apply elem_of_app. right. by left.
Defined.

Lemma quiet_Set_Get_witness :
  exists d' opts, @quiet_Get DailyCron.lib Examples.quiet_store 7 d' = Ok opts /\ uqh_UserSet opts = true.
Proof.
  destruct (db_ok_cases (@quiet_Set DailyCron.lib Examples.quiet_store 7 "30 9 * * *") Examples.user_store eq_refl)
    as (d' & opts & E).
  exists d', opts. destruct (@quiet_Set_Get DailyCron.lib DailyCron.laws _ _ _ _ _ _ E) as (H1 & _ & H3).
  split; [exact H1|exact H3].
Defined.
