(* ===== verification/Acquirer.v ===== *)
(** * Acquiring jobs: [wirtuald/provisionerdserver/acquirer.go]

    The acquirees of one domain (organisation, provisioner types and tags)
    share clearance to query the database: at most one of them queries at a
    time.  Each method of the acquirer holds its mutex and is one atomic step;
    a clearance channel has room for one token, and sending to a full one would
    block with the mutex held. *)

From Stdlib Require Import Ascii.
From stdpp Require Import sorting.
From S2P Require Import Prelude Tags Db.

(** [provisionerjobs.JobPosting], and a message of the pubsub as [jobPosted] gets it. *)
Record JobPosting := mkPosting {
  jp_OrganizationID : uuid;
  jp_ProvisionerType : ProvisionerType;
  jp_Tags : TagMap;
}.
Inductive Message := MsgDropped | MsgError | MsgUnparsable | MsgPosting (p : JobPosting).

(** ** Keys *)

Definition nul : string := String zero EmptyString.

Definition provisioner_string (t : ProvisionerType) : string :=
  match t with ProvisionerEcho => "echo" | ProvisionerTerraform => "terraform" end.

(** [slices.Sort] on strings. *)
Definition sort_strings (l : list string) : list string := merge_sort String.le l.

(** [domainKey]. *)
Definition domainKey `{UuidText} (orgID : uuid) (pt : list ProvisionerType) (tags : TagMap) : string :=
  uuid_String orgID +:+ nul +:+
  String.concat "" ((fun t => t +:+ nul) <$> sort_strings (provisioner_string <$> pt)) +:+ nul +:+
  String.concat "" ((fun k => k +:+ nul +:+ default ""%string (tags !! k) +:+ nul) <$>
                    sort_strings (elements (dom tags))).

Fixpoint no_nul (s : string) : bool :=
  match s with EmptyString => true | String a s => negb (Ascii.eqb a zero) && no_nul s end.

(** [Tags.Valid] *)
Definition Tags_Valid (t : TagMap) : bool :=
  bool_decide (map_Forall (fun k v => no_nul k && no_nul v = true) t).

(** ** State *)

Record acquiree := mkAcquiree { inProgress : bool; pending : bool }.

(** A domain; a clearance channel is known by a number. *)
Record domain := mkDomain {
  d_pt : list ProvisionerType;
  d_tags : TagMap;
  d_organizationID : uuid;
  acquirees : gmap N acquiree;
}.

(** [Acquirer]: the domains by key, and the number of tokens in each clearance channel. *)
Record Acquirer := mkAcquirer {
  q : gmap string domain;
  chans : gmap N nat;
}.

(** How a method ends: with an internal error or without, blocked on a channel
    with the mutex held, or at a nil pointer. *)
Inductive act :=
| Returns (err : option string) (a : Acquirer)
| Blocks
| NilPointer.

Definition set_domain (dk : string) (d : domain) (a : Acquirer) : Acquirer := mkAcquirer (<[dk := d]> (q a)) (chans a).
Definition del_domain (dk : string) (a : Acquirer) : Acquirer := mkAcquirer (delete dk (q a)) (chans a).
Definition set_chan (ch : N) (tokens : nat) (a : Acquirer) : Acquirer := mkAcquirer (q a) (<[ch := tokens]> (chans a)).
Definition set_acquiree (ch : N) (w : acquiree) (d : domain) : domain :=
  mkDomain (d_pt d) (d_tags d) (d_organizationID d) (<[ch := w]> (acquirees d)).
Definition del_acquiree (ch : N) (d : domain) : domain :=
  mkDomain (d_pt d) (d_tags d) (d_organizationID d) (delete ch (acquirees d)).

(** [clearance <- struct{}{}], then the rest. *)
Definition grant (ch : N) (a : Acquirer) : act :=
  match chans a !! ch with
  | Some O => Returns None (set_chan ch 1 a)
  | _ => Blocks
  end.

(** ** Methods *)

Definition contains (d : domain) (p : JobPosting) : bool :=
  if negb (jp_OrganizationID p =? uuid_Nil)%N && negb (jp_OrganizationID p =? d_organizationID d)%N then false
  else if negb (bool_decide (jp_ProvisionerType p ∈ d_pt d)) then false
  else bool_decide (map_Forall (fun k v => d_tags d !! k = Some v) (jp_Tags p)).

Section Methods.
Context `{MapRange} `{UuidText}.

Definition want (organization : uuid) (pt : list ProvisionerType) (tags : TagMap) (clearance : N) (a : Acquirer) : act :=
  let dk := domainKey organization pt tags in
  let '(d, cleared) :=
    match q a !! dk with
    | Some d => (d, false)
    | None => (mkDomain pt tags organization ∅, true)
    end in
  let w := default (mkAcquiree false false) (acquirees d !! clearance) in
  let cleared := cleared || pending w in
  let a := set_domain dk (set_acquiree clearance (mkAcquiree cleared false) d) a in
  if cleared then grant clearance a else Returns None a.

(** The loop over the other acquirees of [cancel] and [done], which ends after
    the first one. *)
Definition clear_one (dk : string) (d : domain) (a : Acquirer) : act :=
  match range (dom (acquirees d)) with
  | [] => Returns None a
  | ch :: _ =>
      match acquirees d !! ch with
      | None => Returns None a
      | Some other =>
          if inProgress other then Returns (Some "more than one acquiree in progress for same key"%string) a
          else grant ch (set_domain dk (set_acquiree ch (mkAcquiree true (pending other)) d) a)
      end
  end.

(** [if len(d.acquirees) == 0 { d.cancel(); delete(a.q, dk) }], after a step that returned no error. *)
Definition drop_empty (dk : string) (r : act) : act :=
  match r with
  | Returns None a =>
      match q a !! dk with
      | Some d => if bool_decide (acquirees d = ∅) then Returns None (del_domain dk a) else r
      | None => r
      end
  | _ => r
  end.

Definition cancel (dk : string) (clearance : N) (a : Acquirer) : act :=
  match q a !! dk with
  | None => Returns (Some "cancel for domain that doesn't exist"%string) a
  | Some d =>
      match acquirees d !! clearance with
      | None => Returns (Some "cancel for an acquiree that doesn't exist"%string) a
      | Some w =>
          let d := del_acquiree clearance d in
          let a := set_domain dk d a in
          drop_empty dk
            (if inProgress w && negb (bool_decide (acquirees d = ∅)) then clear_one dk d a else Returns None a)
      end
  end.

Definition done (dk : string) (clearance : N) (a : Acquirer) : act :=
  match q a !! dk with
  | None => Returns (Some "done for a domain that doesn't exist"%string) a
  | Some d =>
      match acquirees d !! clearance with
      | None => Returns (Some "done for an acquiree that doesn't exist"%string) a
      | Some w =>
          if negb (inProgress w) then Returns (Some "done acquiree was not in progress"%string) a
          else
            let d := del_acquiree clearance d in
            let a := set_domain dk d a in
            if bool_decide (acquirees d = ∅) then Returns None (del_domain dk a)
            else clear_one dk d a
      end
  end.

(** The nominee of [clearOrPendLocked]: the first acquiree, or the first one in
    progress if there is one. *)
Fixpoint nominee (d : domain) (l : list N) (best : option (N * acquiree)) : option (N * acquiree) :=
  match l with
  | [] => best
  | ch :: l =>
      match acquirees d !! ch with
      | None => nominee d l best
      | Some w =>
          if inProgress w then Some (ch, w)
          else nominee d l (match best with None => Some (ch, w) | Some _ => best end)
      end
  end.

Definition clearOrPendLocked (dk : string) (d : domain) (a : Acquirer) : act :=
  match nominee d (range (dom (acquirees d))) None with
  | None => NilPointer
  | Some (ch, w) =>
      if inProgress w then Returns None (set_domain dk (set_acquiree ch (mkAcquiree (inProgress w) true) d) a)
      else grant ch (set_domain dk (set_acquiree ch (mkAcquiree true (pending w)) d) a)
  end.

(** [clearOrPend]: the backup poll of a domain that may have been removed. *)
Definition clearOrPend (dk : string) (a : Acquirer) : act :=
  match q a !! dk with
  | None => Returns None a
  | Some d => if bool_decide (acquirees d = ∅) then Returns None a else clearOrPendLocked dk d a
  end.

Fixpoint clear_all (l : list string) (a : Acquirer) : act :=
  match l with
  | [] => Returns None a
  | dk :: l =>
      match q a !! dk with
      | None => clear_all l a
      | Some d => match clearOrPendLocked dk d a with Returns _ a => clear_all l a | r => r end
      end
  end.

Definition clearOrPendAll (a : Acquirer) : act := clear_all (range (dom (q a))) a.

Fixpoint post_loop (posting : JobPosting) (l : list string) (a : Acquirer) : act :=
  match l with
  | [] => Returns None a
  | dk :: l =>
      match q a !! dk with
      | None => post_loop posting l a
      | Some d => if contains d posting then clearOrPendLocked dk d a else post_loop posting l a
      end
  end.

Definition jobPosted (m : Message) (a : Acquirer) : act :=
  match m with
  | MsgDropped => clearOrPendAll a
  | MsgError | MsgUnparsable => Returns None a
  | MsgPosting posting => post_loop posting (range (dom (q a))) a
  end.

(** ** [AcquireJob] as a client of the acquirer *)

(** Where a call of [AcquireJob] is: waiting in [select], querying the database,
    about to want clearance again after a query found no job, or returned. *)
Inductive phase := Waiting | Querying | Retrying | Returned (err : option string).

Record client := mkClient {
  c_org : uuid;
  c_pt : list ProvisionerType;
  c_tags : TagMap;
  c_phase : phase;
}.
Definition c_key (c : client) : string := domainKey (c_org c) (c_pt c) (c_tags c).

Record System := mkSystem { acq : Acquirer; clients : gmap N client }.
Definition newSystem : System := mkSystem (mkAcquirer ∅ ∅) ∅.

(** What the clients and the environment do. *)
Inductive action :=
| ActStart (ch : N) (org : uuid) (pt : list ProvisionerType) (tags : TagMap)
| ActClear (ch : N)
| ActNoJob (ch : N)
| ActRetry (ch : N)
| ActQueried (ch : N)
| ActCancel (ch : N)
| ActPosted (m : Message)
| ActPoll (dk : string).

Definition set_phase (ch : N) (c : client) (p : phase) (s : System) : System :=
  mkSystem (acq s) (<[ch := mkClient (c_org c) (c_pt c) (c_tags c) p]> (clients s)).

(** The call of an acquirer method in an action, and what follows it. *)
Definition method (s : System) (x : action) : option (act * (option string -> System -> System)) :=
  match x with
  | ActStart ch org pt tags =>
      match clients s !! ch with
      | Some _ => None
      | None =>
          Some (want org pt tags ch (set_chan ch 0 (acq s)),
                fun _ => set_phase ch (mkClient org pt tags Waiting) Waiting)
      end
  | ActClear ch =>
      match clients s !! ch with
      | Some c =>
          match c_phase c, chans (acq s) !! ch with
          | Waiting, Some (S n) => Some (Returns None (set_chan ch n (acq s)), fun _ => set_phase ch c Querying)
          | _, _ => None
          end
      | None => None
      end
  | ActNoJob ch =>
      match clients s !! ch with
      | Some c => match c_phase c with
                  | Querying => Some (Returns None (acq s), fun _ => set_phase ch c Retrying)
                  | _ => None
                  end
      | None => None
      end
  | ActRetry ch =>
      match clients s !! ch with
      | Some c => match c_phase c with
                  | Retrying => Some (want (c_org c) (c_pt c) (c_tags c) ch (acq s), fun _ => set_phase ch c Waiting)
                  | _ => None
                  end
      | None => None
      end
  | ActQueried ch =>
      match clients s !! ch with
      | Some c => match c_phase c with
                  | Querying => Some (done (c_key c) ch (acq s), fun err => set_phase ch c (Returned err))
                  | _ => None
                  end
      | None => None
      end
  | ActCancel ch =>
      match clients s !! ch with
      | Some c => match c_phase c with
                  | Waiting => Some (cancel (c_key c) ch (acq s), fun err => set_phase ch c (Returned err))
                  | _ => None
                  end
      | None => None
      end
  | ActPosted m => Some (jobPosted m (acq s), fun _ s => s)
  | ActPoll dk => Some (clearOrPend dk (acq s), fun _ s => s)
  end.

Inductive sys_step (s : System) : System -> Prop :=
| step_action x k err a :
    method s x = Some (Returns err a, k) -> sys_step s (k err (mkSystem a (clients s))).

Inductive sys_reachable : System -> Prop :=
| sys_new : sys_reachable newSystem
| sys_next s s' : sys_reachable s -> sys_step s s' -> sys_reachable s'.

(** * Theorems *)

(** ** The invariant *)

(** What the flags of an acquiree say of its client and of its channel. *)
Definition flags_ok (c : client) (w : acquiree) (tokens : nat) : Prop :=
  match c_phase c with
  | Waiting => tokens = (if inProgress w then 1%nat else 0%nat)
  | Querying | Retrying => inProgress w = true /\ tokens = 0%nat
  | Returned _ => False
  end /\ (pending w = true -> inProgress w = true).

Definition active (c : client) : Prop := match c_phase c with Returned _ => False | _ => True end.

Record inv (a : Acquirer) (cl : gmap N client) : Prop := {
  inv_flags dk d ch w : q a !! dk = Some d -> acquirees d !! ch = Some w ->
    exists c n, cl !! ch = Some c /\ c_key c = dk /\ chans a !! ch = Some n /\ flags_ok c w n;
  inv_active ch c : cl !! ch = Some c -> active c ->
    exists d w, q a !! c_key c = Some d /\ acquirees d !! ch = Some w;
  inv_one dk d ch1 ch2 w1 w2 : q a !! dk = Some d ->
    acquirees d !! ch1 = Some w1 -> acquirees d !! ch2 = Some w2 ->
    inProgress w1 = true -> inProgress w2 = true -> ch1 = ch2;
}.

Definition no_empty (a : Acquirer) : Prop := forall dk d, q a !! dk = Some d -> acquirees d <> ∅.
Definition idle (d : domain) : Prop := forall ch w, acquirees d !! ch = Some w -> inProgress w = false.

(** The acquirer with the acquiree [ch] of the domain [dk] and its channel set. *)
Definition joined (dk : string) (d : domain) (ch : N) (w : acquiree) (n : nat) (a : Acquirer) : Acquirer :=
  mkAcquirer (<[dk := set_acquiree ch w d]> (q a)) (<[ch := n]> (chans a)).

Lemma lookup_set_acquiree ch w d ch' w' :
  acquirees (set_acquiree ch w d) !! ch' = Some w' <-> (ch' = ch /\ w' = w) \/ (ch' <> ch /\ acquirees d !! ch' = Some w').
Proof. unfold set_acquiree. simpl. rewrite lookup_insert_Some. intuition congruence. Qed.

Lemma inv_joined a cl dk d ch w n c :
  inv a cl -> c_key c = dk -> match q a !! dk with Some d0 => d = d0 | None => acquirees d = ∅ end ->
  (forall c0, cl !! ch = Some c0 -> c_key c0 = dk) -> flags_ok c w n ->
  (inProgress w = true -> forall ch2 w2, ch2 <> ch -> acquirees d !! ch2 = Some w2 -> inProgress w2 = false) ->
  inv (joined dk d ch w n a) (<[ch := c]> cl).
Proof.
  intros [Hf Ha Ho] Hkey Hd Hold Hok Hone.
  assert (Hdom : forall ch' w', acquirees d !! ch' = Some w' -> exists d0, q a !! dk = Some d0 /\ acquirees d0 !! ch' = Some w').
  { intros ch' w' Hw. destruct (q a !! dk) as [d0|]; [subst d0; eauto|]. by rewrite Hd, lookup_empty in Hw. }
  split.
  - intros dk' d' ch' w'. unfold joined. cbn [q chans]. rewrite lookup_insert_Some. intros [[<- <-]|[Hne Hq]].
    + rewrite lookup_set_acquiree. intros [[-> ->]|[Hch Hw]].
      * exists c, n. by rewrite !lookup_insert_eq.
      * destruct (Hdom ch' w' Hw) as (d0 & Hq0 & Hw0). rewrite !lookup_insert_ne by done. by eapply Hf.
    + intros Hw. destruct (Hf _ _ _ _ Hq Hw) as (c' & n' & Hc' & Hk' & ?).
      assert (ch' <> ch) by (intros ->; specialize (Hold _ Hc'); congruence).
      rewrite !lookup_insert_ne by done. eauto.
  - intros ch' c'. unfold joined. cbn [q]. rewrite lookup_insert_Some. intros [[<- <-]|[Hch Hc']] Hact.
    + rewrite Hkey, lookup_insert_eq. eexists _, _. split; [reflexivity|]. rewrite lookup_set_acquiree. by left.
    + destruct (Ha _ _ Hc' Hact) as (d' & w' & Hq' & Hw'). destruct (decide (c_key c' = dk)) as [E|].
      * rewrite E, lookup_insert_eq. exists (set_acquiree ch w d), w'. split; [done|].
        rewrite lookup_set_acquiree. right. split; [done|]. rewrite E in Hq'. rewrite Hq' in Hd. congruence.
      * exists d', w'. by rewrite lookup_insert_ne.
  - intros dk' d' ch1 ch2 w1 w2. unfold joined. cbn [q]. rewrite lookup_insert_Some. intros [[<- <-]|[Hne Hq]].
    + rewrite !lookup_set_acquiree. intros [[-> ->]|[Hch1 Hw1]] [[-> ->]|[Hch2 Hw2]] H1 H2; [done|..].
      * specialize (Hone H1 ch2 w2 Hch2 Hw2). congruence.
      * specialize (Hone H2 ch1 w1 Hch1 Hw1). congruence.
      * destruct (Hdom _ _ Hw1) as (d0 & Hq0 & Hw1'). destruct (Hdom _ _ Hw2) as (d0' & Hq0' & Hw2').
        assert (d0' = d0) as -> by congruence. by eapply Ho.
    + eauto.
Qed.

Lemma lookup_del_acquiree ch d ch' w' :
  acquirees (del_acquiree ch d) !! ch' = Some w' <-> ch' <> ch /\ acquirees d !! ch' = Some w'.
Proof. unfold del_acquiree. cbn [acquirees]. rewrite lookup_delete_Some. intuition congruence. Qed.

(** The client's return: its acquiree leaves the domain. *)
Lemma inv_leave a cl dk d ch c c' :
  inv a cl -> q a !! dk = Some d -> cl !! ch = Some c -> c_key c = dk -> ~ active c' ->
  inv (set_domain dk (del_acquiree ch d) a) (<[ch := c']> cl).
Proof.
  intros [Hf Ha Ho] Hd Hc Hk Hret. split.
  - intros dk' d' ch' w'. unfold set_domain. cbn [q chans]. rewrite lookup_insert_Some. intros [[<- <-]|[Hne Hq]].
    + rewrite lookup_del_acquiree. intros [Hch Hw]. rewrite lookup_insert_ne by done. by eapply Hf.
    + intros Hw. destruct (Hf _ _ _ _ Hq Hw) as (c0 & n' & Hc' & Hk' & ?).
      assert (ch' <> ch) by congruence. rewrite lookup_insert_ne by done. eauto.
  - intros ch' c0. rewrite lookup_insert_Some. intros [[<- <-]|[Hch Hc']] Hact; [done|].
    destruct (Ha _ _ Hc' Hact) as (d' & w' & Hq' & Hw'). unfold set_domain. cbn [q].
    destruct (decide (c_key c0 = dk)) as [E|].
    + rewrite E, lookup_insert_eq. eexists _, w'. split; [reflexivity|].
      rewrite lookup_del_acquiree. split; [done|]. rewrite E in Hq'. congruence.
    + exists d', w'. by rewrite lookup_insert_ne.
  - intros dk' d' ch1 ch2 w1 w2. unfold set_domain. cbn [q]. rewrite lookup_insert_Some. intros [[<- <-]|[Hne Hq]].
    + rewrite !lookup_del_acquiree. intros [_ Hw1] [_ Hw2]. by eapply Ho.
    + eauto.
Qed.

Lemma inv_drop a cl dk d :
  inv a cl -> q a !! dk = Some d -> acquirees d = ∅ -> inv (del_domain dk a) cl.
Proof.
  intros [Hf Ha Ho] Hd He. unfold del_domain. split; cbn [q chans].
  - intros dk' d' ch w. rewrite lookup_delete_Some. intros [_ Hq]. by eapply Hf.
  - intros ch c Hc Hact. destruct (Ha _ _ Hc Hact) as (d' & w & Hq & Hw). exists d', w.
    rewrite lookup_delete_ne; [done|]. intros E. rewrite <- E in Hq. assert (d' = d) as -> by congruence.
    by rewrite He, lookup_empty in Hw.
  - intros dk' d' ch1 ch2 w1 w2. rewrite lookup_delete_Some. intros [_ Hq]. by eapply Ho.
Qed.

(** Granting clearance to a waiting acquiree of an idle domain. *)
Lemma grant_ok a cl dk d ch w :
  inv a cl -> q a !! dk = Some d -> acquirees d !! ch = Some w -> idle d ->
  grant ch (set_domain dk (set_acquiree ch (mkAcquiree true (pending w)) d) a) =
    Returns None (joined dk d ch (mkAcquiree true (pending w)) 1 a) /\
  inv (joined dk d ch (mkAcquiree true (pending w)) 1 a) cl.
Proof.
  intros Hinv Hd Hw Hidle. destruct (inv_flags _ _ Hinv _ _ _ _ Hd Hw) as (c & n & Hc & Hk & Hn & Hph & Hp).
  pose proof (Hidle _ _ Hw) as Hi. rewrite Hi in Hph.
  assert (Hphase : c_phase c = Waiting /\ n = 0%nat) by (destruct (c_phase c); naive_solver).
  destruct Hphase as [Hphase ->]. split.
  - unfold grant, set_domain. cbn [chans]. by rewrite Hn.
  - rewrite <- (insert_id cl ch c) by done. apply inv_joined; try done.
    + by rewrite Hd.
    + intros c0 Hc0. congruence.
    + split; [by rewrite Hphase|done].
    + intros _ ch2 w2 _ Hw2. by eapply Hidle.
Qed.

Lemma no_empty_joined a dk d ch w n : no_empty a -> no_empty (joined dk d ch w n a).
Proof.
  intros Hne dk' d'. unfold joined. cbn [q]. rewrite lookup_insert_Some. intros [[<- <-]|[_ Hq]]; [|by eapply Hne].
  unfold set_acquiree. cbn [acquirees]. apply insert_non_empty.
Qed.

(** ** The nominee *)

Lemma nominee_spec d l best ch w :
  (forall b wb, best = Some (b, wb) -> acquirees d !! b = Some wb /\ inProgress wb = false) ->
  nominee d l best = Some (ch, w) ->
  acquirees d !! ch = Some w /\
  (inProgress w = false -> forall ch' w', ch' ∈ l -> acquirees d !! ch' = Some w' -> inProgress w' = false).
Proof.
  revert best. induction l as [|x l IH]; intros best Hb; cbn [nominee].
  - intros ->. split; [by eapply Hb|]. intros _ ch' w' []%not_elem_of_nil.
  - destruct (acquirees d !! x) as [wx|] eqn:Hx.
    + destruct (inProgress wx) eqn:Hp; [intros [= <- <-]; split; [done|congruence]|].
      intros Hn. destruct (IH (match best with None => Some (x, wx) | Some _ => best end)) as [H1 H2]; [|done|].
      { destruct best as [[b wb]|]; [exact Hb|]. intros b wb [= <- <-]. done. }
      split; [done|]. intros Hw ch' w' [->|Hch']%elem_of_cons Hw'; [congruence|by eapply H2].
    + intros Hn. destruct (IH best Hb Hn) as [H1 H2]. split; [done|].
      intros Hw ch' w' [->|Hch']%elem_of_cons Hw'; [congruence|by eapply H2].
Qed.

Lemma nominee_some d l best : is_Some best \/ (exists ch, ch ∈ l /\ is_Some (acquirees d !! ch)) -> is_Some (nominee d l best).
Proof.
  revert best. induction l as [|x l IH]; intros best; cbn [nominee].
  - intros [|(ch & []%not_elem_of_nil & _)]; done.
  - intros Hs. destruct (acquirees d !! x) as [wx|] eqn:Hx.
    + destruct (inProgress wx); [done|]. apply IH. left. by destruct best.
    + apply IH. destruct Hs as [|(ch & [->|Hch]%elem_of_cons & Hw)]; [by left|rewrite Hx in Hw; by destruct Hw|].
      right. eauto.
Qed.

(** An acquiree of the domain will query again: it has a token, or it is marked
    to retry after the query it makes. *)
Definition awake (a : Acquirer) (dk : string) : Prop := exists d ch w,
  q a !! dk = Some d /\ acquirees d !! ch = Some w /\ inProgress w = true /\
  (pending w = true \/ chans a !! ch = Some 1%nat).

Lemma clearOrPendLocked_ok a cl dk d :
  inv a cl -> q a !! dk = Some d -> acquirees d <> ∅ ->
  exists d' C, clearOrPendLocked dk d a = Returns None (mkAcquirer (<[dk := d']> (q a)) C) /\
    inv (mkAcquirer (<[dk := d']> (q a)) C) cl /\ acquirees d' <> ∅ /\
    d_pt d' = d_pt d /\ d_tags d' = d_tags d /\ d_organizationID d' = d_organizationID d /\
    awake (mkAcquirer (<[dk := d']> (q a)) C) dk.
Proof.
  intros Hinv Hd Hne. unfold clearOrPendLocked.
  destruct (nominee d (range (dom (acquirees d))) None) as [[ch w]|] eqn:Hn.
  2:{ exfalso. destruct (nominee_some d (range (dom (acquirees d))) None) as [? Hs]; [|congruence].
      right. destruct (map_choose _ Hne) as (ch & w & Hw). exists ch. rewrite range_elem, elem_of_dom. by rewrite Hw. }
  apply nominee_spec in Hn as [Hw Hall]; [|done].
  assert (Hidle : inProgress w = false -> idle d).
  { intros Hp ch' w' Hw'. eapply Hall; [done| |done]. rewrite range_elem. by apply elem_of_dom_2 in Hw'. }
  destruct (inProgress w) eqn:Hp.
  - destruct (inv_flags _ _ Hinv _ _ _ _ Hd Hw) as (c & n & Hc & Hk & Hn & Hph & Hpe).
    set (w' := mkAcquiree true true).
    exists (set_acquiree ch w' d), (chans a). split; [reflexivity|].
    assert (Hj : mkAcquirer (<[dk := set_acquiree ch w' d]> (q a)) (chans a) = joined dk d ch w' n a).
    { unfold joined. by rewrite (insert_id (chans a) ch n Hn). }
    rewrite Hj. split.
    { rewrite <- (insert_id cl ch c) by done. apply inv_joined; try done.
      + by rewrite Hd.
      + intros c0 Hc0. congruence.
      + rewrite Hp in Hph. by split.
      + intros _ ch2 w2 Hch2 Hw2. destruct (inProgress w2) eqn:E; [|done].
        exfalso. apply Hch2. by eapply (inv_one _ _ Hinv dk d ch2 ch). }
    split; [unfold set_acquiree; cbn [acquirees]; apply insert_non_empty|]. do 3 (split; [done|]).
    exists (set_acquiree ch w' d), ch, w'. unfold joined. cbn [q chans].
    rewrite lookup_insert_eq, lookup_set_acquiree. split; [done|]. split; [by left|]. split; [done|by left].
  - destruct (grant_ok a cl dk d ch w Hinv Hd Hw (Hidle eq_refl)) as [Hg Hi]. set (w' := mkAcquiree true (pending w)) in *.
    rewrite Hg. eexists _, _. split; [reflexivity|]. split; [exact Hi|].
    split; [unfold set_acquiree; cbn [acquirees]; apply insert_non_empty|]. do 3 (split; [done|]).
    exists (set_acquiree ch w' d), ch, w'. cbn [q chans].
    rewrite !lookup_insert_eq, lookup_set_acquiree. split; [done|]. split; [by left|]. split; [done|by right].
Qed.

Lemma clear_one_ok a cl dk d :
  inv a cl -> q a !! dk = Some d -> idle d -> acquirees d <> ∅ ->
  exists a', clear_one dk d a = Returns None a' /\ inv a' cl /\ (no_empty a -> no_empty a') /\
    exists d', q a' !! dk = Some d' /\ acquirees d' <> ∅.
Proof.
  intros Hinv Hd Hidle Hne. unfold clear_one. destruct (range (dom (acquirees d))) as [|ch l] eqn:Hr.
  { exfalso. destruct (map_choose _ Hne) as (ch & w & Hw).
    apply (not_elem_of_nil ch). rewrite <- Hr, range_elem. by apply elem_of_dom_2 in Hw. }
  assert (Hch : ch ∈ dom (acquirees d)) by (rewrite <- range_elem, Hr; by left).
  apply elem_of_dom in Hch as [w Hw]. rewrite Hw, (Hidle _ _ Hw).
  destruct (grant_ok a cl dk d ch w Hinv Hd Hw Hidle) as [-> Hi].
  eexists. split; [reflexivity|]. split; [exact Hi|]. split; [apply no_empty_joined|].
  unfold joined. cbn [q]. rewrite lookup_insert_eq. eexists. split; [reflexivity|].
  unfold set_acquiree. cbn [acquirees]. apply insert_non_empty.
Qed.

Lemma clear_all_ok l a cl :
  inv a cl -> no_empty a -> exists a', clear_all l a = Returns None a' /\ inv a' cl /\ no_empty a'.
Proof.
  revert a. induction l as [|dk l IH]; intros a Hinv Hne; cbn [clear_all]; [eauto|].
  destruct (q a !! dk) as [d|] eqn:Hd; [|by apply IH].
  destruct (clearOrPendLocked_ok a cl dk d Hinv Hd (Hne _ _ Hd)) as (d' & C & -> & Hi & Hd' & _). apply IH; [done|].
  intros dk' d0. cbn [q]. rewrite lookup_insert_Some. intros [[<- <-]|[_ Hq]]; [done|by eapply Hne].
Qed.

Lemma post_loop_ok p l a cl :
  inv a cl -> no_empty a ->
  exists a', post_loop p l a = Returns None a' /\ inv a' cl /\ no_empty a' /\
    ((exists dk d, dk ∈ l /\ q a !! dk = Some d /\ contains d p = true) ->
     exists dk d, q a' !! dk = Some d /\ contains d p = true /\ awake a' dk).
Proof.
  intros Hinv Hne. induction l as [|dk l IH]; cbn [post_loop].
  { exists a. do 3 (split; [done|]). intros (dk & d & []%not_elem_of_nil & _). }
  destruct (q a !! dk) as [d|] eqn:Hd.
  - destruct (contains d p) eqn:Hc.
    + destruct (clearOrPendLocked_ok a cl dk d Hinv Hd (Hne _ _ Hd)) as (d' & C & -> & Hi & Hd' & E1 & E2 & E3 & Hawake).
      eexists. split; [reflexivity|]. split; [done|]. split.
      { intros dk' d0. cbn [q]. rewrite lookup_insert_Some. intros [[<- <-]|[_ Hq]]; [done|by eapply Hne]. }
      intros _. exists dk, d'. cbn [q]. rewrite lookup_insert_eq. split; [done|]. split; [|done].
      unfold contains in *. by rewrite E1, E2, E3.
    + destruct IH as (a' & Ha & Hi & Hne' & Hw). exists a'. do 3 (split; [done|]).
      intros (dk' & d' & [->|Hin]%elem_of_cons & Hd' & Hc'); [congruence|]. eauto 10.
  - destruct IH as (a' & Ha & Hi & Hne' & Hw). exists a'. do 3 (split; [done|]).
    intros (dk' & d' & [->|Hin]%elem_of_cons & Hd' & Hc'); [congruence|]. eauto 10.
Qed.

Lemma jobPosted_ok m a cl :
  inv a cl -> no_empty a -> exists a', jobPosted m a = Returns None a' /\ inv a' cl /\ no_empty a'.
Proof.
  intros Hinv Hne. destruct m; simpl; [by apply clear_all_ok|by eauto..|].
  destruct (post_loop_ok p (range (dom (q a))) a cl Hinv Hne) as (a' & ? & ? & ? & _). eauto.
Qed.

Lemma clearOrPend_ok dk a cl :
  inv a cl -> no_empty a -> exists a', clearOrPend dk a = Returns None a' /\ inv a' cl /\ no_empty a'.
Proof.
  intros Hinv Hne. unfold clearOrPend. destruct (q a !! dk) as [d|] eqn:Hd; [|eauto].
  case_bool_decide; [eauto|].
  destruct (clearOrPendLocked_ok a cl dk d Hinv Hd (Hne _ _ Hd)) as (d' & C & -> & Hi & Hd' & _).
  eexists. split; [done|]. split; [done|].
  intros dk' d0. cbn [q]. rewrite lookup_insert_Some. intros [[<- <-]|[_ Hq]]; [done|by eapply Hne].
Qed.

(** [want] by a new client, or by one whose query found no job. *)
Lemma want_ok org pt tags ch a cl c' :
  inv a cl -> no_empty a -> c' = mkClient org pt tags Waiting -> chans a !! ch = Some 0%nat ->
  (cl !! ch = None \/ exists c, cl !! ch = Some c /\ c_key c = c_key c' /\ c_phase c = Retrying) ->
  exists a', want org pt tags ch a = Returns None a' /\ inv a' (<[ch := c']> cl) /\ no_empty a' /\
    ((exists d w, q a !! c_key c' = Some d /\ acquirees d !! ch = Some w /\ pending w = true) -> chans a' !! ch = Some 1%nat).
Proof.
  intros Hinv Hne Hc' Hch Hcl. set (dk := c_key c') in *.
  assert (Hdk : domainKey org pt tags = dk) by (unfold dk; by rewrite Hc'). unfold want. rewrite Hdk.
  set (dc := match q a !! dk with Some d => (d, false) | None => _ end). destruct dc as [d new] eqn:Hdc. subst dc.
  set (w := default (mkAcquiree false false) (acquirees d !! ch)). set (cleared := new || pending w).
  assert (Hd : match q a !! dk with Some d0 => d = d0 | None => acquirees d = ∅ end)
    by (destruct (q a !! dk); injection Hdc as <- <-; done).
  assert (Hold : forall c0, cl !! ch = Some c0 -> c_key c0 = dk).
  { intros c0 Hc0. destruct Hcl as [Hn|(c & Hc & Hk & _)]; congruence. }
  assert (Hidle : cleared = true -> forall ch2 w2, ch2 <> ch -> acquirees d !! ch2 = Some w2 -> inProgress w2 = false).
  { intros Hcleared ch2 w2 Hne2 Hw2. destruct (q a !! dk) as [d0|] eqn:Hq.
    - subst d0. injection Hdc as <-. unfold cleared, w in Hcleared. cbn [orb] in Hcleared.
      destruct (acquirees d !! ch) as [w0|] eqn:Hw0; [|done]. simpl in Hcleared.
      destruct (inv_flags _ _ Hinv _ _ _ _ Hq Hw0) as (c & n & _ & _ & _ & _ & Hp).
      destruct (inProgress w2) eqn:E; [|done]. exfalso. apply Hne2.
      eapply (inv_one _ _ Hinv dk d ch2 ch); eauto.
    - by rewrite Hd, lookup_empty in Hw2. }
  set (n := if cleared then 1%nat else 0%nat).
  assert (Hres : (if cleared then grant ch (set_domain dk (set_acquiree ch (mkAcquiree cleared false) d) a)
                  else Returns None (set_domain dk (set_acquiree ch (mkAcquiree cleared false) d) a)) =
                 Returns None (joined dk d ch (mkAcquiree cleared false) n a)).
  { unfold n, grant, joined, set_chan, set_domain. cbn [chans q]. destruct cleared; [by rewrite Hch|].
    by rewrite (insert_id (chans a) ch 0%nat). }
  rewrite Hres. eexists. split; [reflexivity|]. split; [|split].
  - apply inv_joined; try done. split; [|done]. rewrite Hc'. cbn [c_phase inProgress]. done.
  - by apply no_empty_joined.
  - intros (d0 & w0 & Hq0 & Hw0 & Hp0). unfold joined. cbn [chans]. rewrite lookup_insert_eq. unfold n.
    fold dk in Hq0. rewrite Hq0 in Hd. subst d0. assert (cleared = true) as ->; [|done].
    unfold cleared, w. rewrite Hw0. simpl. rewrite Hp0. apply orb_true_r.
Qed.

(** [cancel] and [done] when the client leaves. *)
Lemma leave_ok a cl dk d ch w c c' :
  inv a cl -> no_empty a -> q a !! dk = Some d -> acquirees d !! ch = Some w ->
  cl !! ch = Some c -> c_key c = dk -> ~ active c' ->
  let a1 := set_domain dk (del_acquiree ch d) a in
  inv a1 (<[ch := c']> cl) /\ (inProgress w = true -> idle (del_acquiree ch d)) /\
  (acquirees (del_acquiree ch d) <> ∅ -> no_empty a1) /\
  (acquirees (del_acquiree ch d) = ∅ ->
     inv (del_domain dk a1) (<[ch := c']> cl) /\ no_empty (del_domain dk a1)).
Proof.
  intros Hinv Hne Hd Hw Hc Hk Hret a1.
  assert (Hi : inv a1 (<[ch := c']> cl)) by (by eapply inv_leave).
  assert (Hq1 : q a1 !! dk = Some (del_acquiree ch d)) by apply lookup_insert_eq.
  split; [done|]. split; [|split].
  - intros Hp ch' w'. rewrite lookup_del_acquiree. intros [Hch Hw']. destruct (inProgress w') eqn:E; [|done].
    exfalso. apply Hch. by eapply (inv_one _ _ Hinv dk d ch' ch).
  - intros He dk' d'. unfold a1, set_domain. cbn [q]. rewrite lookup_insert_Some.
    intros [[<- <-]|[_ Hq]]; [done|by eapply Hne].
  - intros He. split; [by eapply inv_drop|]. intros dk' d'. unfold a1, del_domain, set_domain. cbn [q].
    rewrite lookup_delete_Some, lookup_insert_Some. intros [Hdk [[<- _]|[_ Hq]]]; [done|by eapply Hne].
Qed.

Lemma done_ok a cl ch c c' :
  inv a cl -> no_empty a -> cl !! ch = Some c -> c_phase c = Querying -> ~ active c' ->
  exists a', done (c_key c) ch a = Returns None a' /\ inv a' (<[ch := c']> cl) /\ no_empty a'.
Proof.
  intros Hinv Hne Hc Hph Hret. destruct (inv_active _ _ Hinv ch c Hc) as (d & w & Hd & Hw); [unfold active; by rewrite Hph|].
  destruct (inv_flags _ _ Hinv _ _ _ _ Hd Hw) as (c0 & n & Hc0 & _ & _ & Hf & _).
  assert (c0 = c) as -> by congruence. rewrite Hph in Hf. destruct Hf as [Hp _].
  unfold done. rewrite Hd, Hw, Hp. cbn [negb].
  destruct (leave_ok a cl _ d ch w c c' Hinv Hne Hd Hw Hc eq_refl Hret) as (Hi & Hidle & Hn1 & Hn2).
  case_bool_decide as He.
  - destruct (Hn2 He). eauto.
  - destruct (clear_one_ok _ (<[ch := c']> cl) (c_key c) (del_acquiree ch d) Hi) as (a' & Ha & Hi' & Hne' & _);
      [apply lookup_insert_eq|auto|done|]. eauto 10.
Qed.

Lemma cancel_ok a cl ch c c' :
  inv a cl -> no_empty a -> cl !! ch = Some c -> c_phase c = Waiting -> ~ active c' ->
  exists a', cancel (c_key c) ch a = Returns None a' /\ inv a' (<[ch := c']> cl) /\ no_empty a'.
Proof.
  intros Hinv Hne Hc Hph Hret. destruct (inv_active _ _ Hinv ch c Hc) as (d & w & Hd & Hw); [unfold active; by rewrite Hph|].
  unfold cancel. rewrite Hd, Hw.
  destruct (leave_ok a cl _ d ch w c c' Hinv Hne Hd Hw Hc eq_refl Hret) as (Hi & Hidle & Hn1 & Hn2).
  set (a1 := set_domain (c_key c) (del_acquiree ch d) a) in *.
  assert (Hq1 : q a1 !! c_key c = Some (del_acquiree ch d)) by apply lookup_insert_eq.
  case_bool_decide as He.
  - rewrite andb_false_r. unfold drop_empty. rewrite Hq1, bool_decide_eq_true_2 by done. destruct (Hn2 He). eauto.
  - rewrite andb_true_r. destruct (inProgress w).
    + destruct (clear_one_ok a1 (<[ch := c']> cl) (c_key c) (del_acquiree ch d) Hi Hq1) as (a' & -> & Hi' & Hne' & d' & Hd' & Hd0);
        [by apply Hidle|done|]. exists a'. unfold drop_empty. rewrite Hd', bool_decide_eq_false_2 by done. auto.
    + unfold drop_empty. rewrite Hq1, bool_decide_eq_false_2 by done. eauto.
Qed.

(** ** Runs *)

Definition sys_ok (s : System) : Prop :=
  inv (acq s) (clients s) /\ no_empty (acq s) /\
  forall ch c err, clients s !! ch = Some c -> c_phase c = Returned err -> err = None.

(** Every method the system calls returns without an internal error, to a state that is ok. *)
Lemma method_ok s x r k :
  sys_ok s -> method s x = Some (r, k) ->
  exists a, r = Returns None a /\ sys_ok (k None (mkSystem a (clients s))).
Proof.
  intros (Hinv & Hne & Hret) Hm.
  assert (Hset : forall a ch c p, inv a (<[ch := mkClient (c_org c) (c_pt c) (c_tags c) p]> (clients s)) -> no_empty a ->
    (forall err, p = Returned err -> err = None) -> sys_ok (set_phase ch c p (mkSystem a (clients s)))).
  { intros a ch c p Hi Hn Hp. split; [done|]. split; [done|]. intros ch' c' err. unfold set_phase. cbn [clients].
    rewrite lookup_insert_Some. intros [[<- <-]|[_ Hc']]; [apply Hp|by eapply Hret]. }
  assert (Hsame : forall ch c p, clients s !! ch = Some c -> c_phase c = Querying \/ c_phase c = Waiting ->
    p = Querying \/ p = Retrying -> chans (acq s) !! ch = Some (match c_phase c with Waiting => 1%nat | _ => 0%nat end) ->
    inv (set_chan ch 0 (acq s)) (<[ch := mkClient (c_org c) (c_pt c) (c_tags c) p]> (clients s))).
  { intros ch c p Hc Hph Hp Hch. destruct (inv_active _ _ Hinv ch c Hc) as (d & w & Hd & Hw); [unfold active; by destruct Hph as [->| ->]|].
    destruct (inv_flags _ _ Hinv _ _ _ _ Hd Hw) as (c0 & n & Hc0 & _ & Hn & Hf & Hpe).
    assert (c0 = c) as -> by congruence.
    assert (Hprog : inProgress w = true).
    { destruct Hph as [Hph|Hph]; rewrite Hph in *; [by destruct Hf|]. destruct (inProgress w); [done|congruence]. }
    assert (Hj : set_chan ch 0 (acq s) = joined (c_key c) d ch w 0 (acq s)).
    { unfold joined, set_chan. f_equal. assert (set_acquiree ch w d = d) as ->
        by (unfold set_acquiree; rewrite insert_id by done; by destruct d). by rewrite insert_id. }
    rewrite Hj. apply inv_joined; try done.
    - by rewrite Hd.
    - intros c1 Hc1. congruence.
    - split; [by destruct Hp as [->| ->]|done].
    - intros _ ch2 w2 Hch2 Hw2. destruct (inProgress w2) eqn:E; [|done]. exfalso. apply Hch2.
      by eapply (inv_one _ _ Hinv (c_key c) d ch2 ch). }
  destruct x as [ch org pt tags|ch|ch|ch|ch|ch|m|dk]; simpl in Hm;
    try (destruct (clients s !! ch) as [c|] eqn:Hc; [|done]).
  - destruct (clients s !! ch) as [c|] eqn:Hc; [done|]. injection Hm as <- <-.
    assert (Hi0 : inv (set_chan ch 0 (acq s)) (clients s)).
    { destruct Hinv as [Hf Ha Ho]. split; [|exact Ha|exact Ho]. intros dk d ch' w Hq Hw.
      destruct (Hf _ _ _ _ Hq Hw) as (c & n & Hc' & ?). exists c, n. unfold set_chan. cbn [chans].
      rewrite lookup_insert_ne by congruence. done. }
    destruct (want_ok org pt tags ch _ (clients s) (mkClient org pt tags Waiting) Hi0 Hne eq_refl) as (a' & -> & Hi & Hn & _);
      [apply lookup_insert_eq|by left|]. exists a'. split; [done|]. by apply Hset.
  - destruct (c_phase c) eqn:Hph; [|done..]. destruct (chans (acq s) !! ch) as [[|n]|] eqn:Hch; [done| |done].
    injection Hm as <- <-. eexists. split; [done|].
    assert (n = 0%nat) as ->.
    { destruct (inv_active _ _ Hinv ch c Hc) as (d & w & Hd & Hw); [unfold active; by rewrite Hph|].
      destruct (inv_flags _ _ Hinv _ _ _ _ Hd Hw) as (c0 & m & Hc0 & _ & Hn & Hf & _).
      assert (c0 = c) as -> by congruence. rewrite Hph in Hf. destruct (inProgress w); congruence. }
    apply Hset; [|done|done]. apply Hsame; auto. by rewrite Hph.
  - destruct (c_phase c) eqn:Hph; [done| |done..]. injection Hm as <- <-. eexists. split; [done|].
    destruct (inv_active _ _ Hinv ch c Hc) as (d & w & Hd & Hw); [unfold active; by rewrite Hph|].
    destruct (inv_flags _ _ Hinv _ _ _ _ Hd Hw) as (c0 & m & Hc0 & _ & Hn & Hf & _).
    assert (c0 = c) as -> by congruence. rewrite Hph in Hf. destruct Hf as [_ ->].
    apply Hset; [|done|done]. assert (acq s = set_chan ch 0 (acq s)) as ->.
    { unfold set_chan. rewrite insert_id by done. by destruct (acq s). }
    apply Hsame; auto. by rewrite Hph.
  - destruct (c_phase c) eqn:Hph; [done..| |done]. injection Hm as <- <-.
    destruct (inv_active _ _ Hinv ch c Hc) as (d & w & Hd & Hw); [unfold active; by rewrite Hph|].
    destruct (inv_flags _ _ Hinv _ _ _ _ Hd Hw) as (c0 & m & Hc0 & _ & Hn & Hf & _).
    assert (c0 = c) as -> by congruence. rewrite Hph in Hf. destruct Hf as [_ ->].
    destruct (want_ok (c_org c) (c_pt c) (c_tags c) ch (acq s) (clients s) (mkClient (c_org c) (c_pt c) (c_tags c) Waiting)
      Hinv Hne eq_refl Hn) as (a' & -> & Hi & Hne' & _); [right; by exists c|].
    exists a'. split; [done|]. by apply Hset.
  - destruct (c_phase c) eqn:Hph; [done| |done..]. injection Hm as <- <-.
    destruct (done_ok (acq s) (clients s) ch c (mkClient (c_org c) (c_pt c) (c_tags c) (Returned None)) Hinv Hne Hc Hph)
      as (a' & -> & Hi & Hn); [by intros []|]. exists a'. split; [done|]. apply Hset; [done|done|congruence].
  - destruct (c_phase c) eqn:Hph; [|done..]. injection Hm as <- <-.
    destruct (cancel_ok (acq s) (clients s) ch c (mkClient (c_org c) (c_pt c) (c_tags c) (Returned None)) Hinv Hne Hc Hph)
      as (a' & -> & Hi & Hn); [by intros []|]. exists a'. split; [done|]. apply Hset; [done|done|congruence].
  - injection Hm as <- <-. destruct (jobPosted_ok m (acq s) (clients s) Hinv Hne) as (a' & -> & Hi & Hn).
    exists a'. split; [done|]. by split.
  - injection Hm as <- <-. destruct (clearOrPend_ok dk (acq s) (clients s) Hinv Hne) as (a' & -> & Hi & Hn).
    exists a'. split; [done|]. by split.
Qed.

Lemma reachable_ok s : sys_reachable s -> sys_ok s.
Proof.
  induction 1 as [|s s' _ IH [x k err a Hm]].
  - split; [split|split].
    + intros dk d ch w Hd; exfalso; exact (lookup_empty_Some _ _ Hd).
    + intros ch c Hc; exfalso; exact (lookup_empty_Some _ _ Hc).
    + intros dk d ch1 ch2 w1 w2 Hd; exfalso; exact (lookup_empty_Some _ _ Hd).
    + intros dk d Hd; exfalso; exact (lookup_empty_Some _ _ Hd).
    + intros ch c err Hc; exfalso; exact (lookup_empty_Some _ _ Hc).
  - destruct (method_ok s x _ k IH Hm) as (a' & [= -> ->] & Hok). exact Hok.
Qed.

(** C38: one query at a time.  In every state the clients reach, by starting,
    querying, cancelling and returning in any order, with job postings and
    polls in between: two clients of one domain are never both cleared or
    querying; no method blocks with the mutex held or dereferences nil, and
    none of the internal errors is ever returned. *)
Theorem one_query_per_domain s :
  sys_reachable s ->
  (forall ch1 ch2 c1 c2, clients s !! ch1 = Some c1 -> clients s !! ch2 = Some c2 -> c_key c1 = c_key c2 ->
     (c_phase c1 = Querying \/ (c_phase c1 = Waiting /\ chans (acq s) !! ch1 = Some 1%nat)) ->
     (c_phase c2 = Querying \/ (c_phase c2 = Waiting /\ chans (acq s) !! ch2 = Some 1%nat)) -> ch1 = ch2) /\
  (forall x r k, method s x = Some (r, k) -> exists a, r = Returns None a) /\
  (forall ch c err, clients s !! ch = Some c -> c_phase c = Returned err -> err = None).
Proof.
  intros Hok%reachable_ok. pose proof Hok as (Hinv & Hne & Hret). split; [|split; [|exact Hret]].
  - assert (Hbusy : forall ch c, clients s !! ch = Some c ->
      (c_phase c = Querying \/ (c_phase c = Waiting /\ chans (acq s) !! ch = Some 1%nat)) ->
      exists d w, q (acq s) !! c_key c = Some d /\ acquirees d !! ch = Some w /\ inProgress w = true).
    { intros ch c Hc Hb.
      destruct (inv_active _ _ Hinv ch c Hc) as (d & w & Hd & Hw); [unfold active; destruct Hb as [->|[-> _]]; done|].
      exists d, w. split; [done|]. split; [done|].
      destruct (inv_flags _ _ Hinv _ _ _ _ Hd Hw) as (c0 & n & Hc0 & _ & Hn & Hf & _).
      assert (c0 = c) as -> by congruence. destruct Hb as [Hb|[Hb Hch]]; rewrite Hb in Hf; [by destruct Hf|].
      destruct (inProgress w); [done|congruence]. }
    intros ch1 ch2 c1 c2 H1 H2 Hk B1 B2.
    destruct (Hbusy ch1 c1 H1 B1) as (d1 & w1 & Hq1 & Hw1 & P1). destruct (Hbusy ch2 c2 H2 B2) as (d2 & w2 & Hq2 & Hw2 & P2).
    rewrite Hk in Hq1. assert (d2 = d1) as -> by congruence. by eapply (inv_one _ _ Hinv).
  - intros x r k Hm. destruct (method_ok s x r k Hok Hm) as (a & -> & _). eauto.
Qed.

(** No posted job is missed.  When a job is posted that some domain accepts, a
    domain that accepts it then has an acquiree that will query after the
    posting: one that has been given clearance, or one that is querying and is
    marked to retry; and such a mark is honoured, since the client gets
    clearance at once when it wants it again. *)
Lemma jobPosted_wakes s p dk d :
  sys_reachable s -> q (acq s) !! dk = Some d -> contains d p = true ->
  (exists a', jobPosted (MsgPosting p) (acq s) = Returns None a' /\
     exists dk' d', q a' !! dk' = Some d' /\ contains d' p = true /\ awake a' dk') /\
  (forall ch c d w, clients s !! ch = Some c -> c_phase c = Retrying ->
     q (acq s) !! c_key c = Some d -> acquirees d !! ch = Some w -> pending w = true ->
     exists a', want (c_org c) (c_pt c) (c_tags c) ch (acq s) = Returns None a' /\ chans a' !! ch = Some 1%nat).
Proof.
  intros (Hinv & Hne & _)%reachable_ok Hd Hc. split.
  - destruct (post_loop_ok p (range (dom (q (acq s)))) (acq s) (clients s) Hinv Hne) as (a' & Ha & _ & _ & Hw).
    exists a'. split; [exact Ha|]. apply Hw. exists dk, d. rewrite range_elem. split; [by apply elem_of_dom_2 in Hd|done].
  - intros ch c d0 w Hcl Hph Hq Hw Hp.
    destruct (inv_flags _ _ Hinv _ _ _ _ Hq Hw) as (c0 & n & Hc0 & _ & Hn & Hf & _).
    assert (c0 = c) as -> by congruence. rewrite Hph in Hf. destruct Hf as [_ ->].
    destruct (want_ok (c_org c) (c_pt c) (c_tags c) ch (acq s) (clients s) (mkClient (c_org c) (c_pt c) (c_tags c) Waiting)
      Hinv Hne eq_refl Hn) as (a' & Ha & _ & _ & Htok); [right; by exists c|].
    exists a'. split; [done|]. apply Htok. by exists d0, w.
Qed.

End Methods.

(** ** Domain keys *)

Section Keys.
Context `{UuidText}.
Context (uuid_inj : forall x y, uuid_String x = uuid_String y -> x = y) (uuid_no_nul : forall x, no_nul (uuid_String x) = true).

(** Text up to the first null byte is determined. *)
Lemma nul_split a b s t :
  no_nul a = true -> no_nul b = true -> (a +:+ nul +:+ s)%string = (b +:+ nul +:+ t)%string -> a = b /\ s = t.
Proof.
  revert b. induction a as [|x a IH]; intros [|y b] Ha Hb He; cbn [no_nul] in *.
  - split; [done|]. by injection He.
  - apply andb_true_iff in Hb as [Hy _]. injection He as <- _. by rewrite Ascii.eqb_refl in Hy.
  - apply andb_true_iff in Ha as [Hx _]. injection He as -> _. by rewrite Ascii.eqb_refl in Hx.
  - apply andb_true_iff in Ha as [_ Ha]. apply andb_true_iff in Hb as [_ Hb]. injection He as -> He.
    destruct (IH b Ha Hb He) as [-> ->]. done.
Qed.

Definition fields (l : list string) : string := String.concat "" ((fun t => t +:+ nul)%string <$> l).

Lemma fields_cons x l s : (fields (x :: l) +:+ s = x +:+ nul +:+ fields l +:+ s)%string.
Proof. unfold fields. rewrite fmap_cons, concat_empty_cons, !string_app_assoc. done. Qed.

(** Non-empty fields ended by an empty one are determined. *)
Lemma fields_inj l1 l2 s t :
  Forall (fun x => no_nul x = true /\ x <> ""%string) l1 -> Forall (fun x => no_nul x = true /\ x <> ""%string) l2 ->
  (fields l1 +:+ nul +:+ s)%string = (fields l2 +:+ nul +:+ t)%string -> l1 = l2 /\ s = t.
Proof.
  intros Hl1. revert l2. induction Hl1 as [|x l1 [Hx Hx0] Hl1 IH]; intros [|y l2] Hl2 He.
  - split; [done|]. by injection He.
  - apply Forall_cons in Hl2 as [[Hy Hy0] Hl2]. rewrite fields_cons in He.
    destruct (nul_split "" y s (fields l2 +:+ nul +:+ t)%string) as [E _]; [done..|]. congruence.
  - rewrite fields_cons in He. destruct (nul_split x "" (fields l1 +:+ nul +:+ s)%string t) as [E _]; done.
  - apply Forall_cons in Hl2 as [[Hy Hy0] Hl2]. rewrite !fields_cons in He.
    apply nul_split in He as [-> He]; [|done..]. destruct (IH l2 Hl2 He) as [-> ->]. done.
Qed.

Definition pairs (tags : TagMap) (keys : list string) : string :=
  String.concat "" ((fun k => k +:+ nul +:+ default "" (tags !! k) +:+ nul)%string <$> keys).

Lemma pairs_inj t1 t2 l1 l2 :
  (forall k, k ∈ l1 -> no_nul k = true /\ no_nul (default ""%string (t1 !! k)) = true) ->
  (forall k, k ∈ l2 -> no_nul k = true /\ no_nul (default ""%string (t2 !! k)) = true) ->
  pairs t1 l1 = pairs t2 l2 -> l1 = l2 /\ forall k, k ∈ l1 -> default ""%string (t1 !! k) = default ""%string (t2 !! k).
Proof.
  assert (Hcons : forall t k l, pairs t (k :: l) = (k +:+ nul +:+ default "" (t !! k) +:+ nul +:+ pairs t l)%string).
  { intros t k l. unfold pairs. rewrite fmap_cons, concat_empty_cons, !string_app_assoc. done. }
  revert l2. induction l1 as [|k1 l1 IH]; intros [|k2 l2] H1 H2 He.
  - split; [done|]. by intros k []%not_elem_of_nil.
  - rewrite Hcons in He. by destruct k2.
  - rewrite Hcons in He. by destruct k1.
  - rewrite !Hcons in He. destruct (H1 k1) as [Ha Hb]; [by left|]. destruct (H2 k2) as [Hc Hd]; [by left|].
    apply nul_split in He as [-> He]; [|done..]. apply nul_split in He as [Hv He]; [|done..].
    destruct (IH l2) as [-> Hall]; [| |done|].
    { intros k Hk. apply H1. by right. } { intros k Hk. apply H2. by right. }
    split; [done|]. intros k [->|Hk]%elem_of_cons; auto.
Qed.

Lemma sort_strings_perm l : sort_strings l ≡ₚ l.
Proof. apply merge_sort_Permutation. Qed.

Lemma sort_strings_unique l1 l2 : l1 ≡ₚ l2 -> sort_strings l1 = sort_strings l2.
Proof.
  intros Hp. apply (Sorted_unique String.le); [apply Sorted_merge_sort, _..|]. by rewrite !sort_strings_perm.
Qed.

Lemma tag_keys (t : TagMap) k :
  Tags_Valid t = true -> k ∈ sort_strings (elements (dom t)) ->
  no_nul k = true /\ no_nul (default ""%string (t !! k)) = true.
Proof.
  intros Hv%bool_decide_eq_true Hk. rewrite sort_strings_perm, elem_of_elements in Hk.
  apply elem_of_dom in Hk as [v Hk]. specialize (Hv k v Hk). rewrite Hk. by apply andb_true_iff.
Qed.

Lemma provisioner_string_perm p1 p2 :
  provisioner_string <$> p1 ≡ₚ provisioner_string <$> p2 -> p1 ≡ₚ p2.
Proof.
  set (g := fun s => if String.eqb s "echo" then Some ProvisionerEcho else Some ProvisionerTerraform).
  assert (Hg : forall p : list ProvisionerType, omap (M:=list) g (provisioner_string <$> p) = p).
  { induction p as [|[] p IH]; [done|..]; rewrite fmap_cons; exact (f_equal (cons _) IH). }
  intros Hp. rewrite <- (Hg p1), <- (Hg p2). by rewrite Hp.
Qed.

(** Two callers share a domain exactly when they ask for the same jobs.  For tags
    without null bytes, [domainKey] gives one key exactly to the requests with
    the same organisation, the same provisioner types in any order, and the
    same tags. *)
Lemma domainKey_exact o1 o2 p1 p2 t1 t2 :
  Tags_Valid t1 = true -> Tags_Valid t2 = true ->
  (domainKey o1 p1 t1 = domainKey o2 p2 t2 <-> o1 = o2 /\ p1 ≡ₚ p2 /\ t1 = t2).
Proof.
  intros Hv1 Hv2. split.
  - unfold domainKey. intros He. apply nul_split in He as [Ho He]; [|apply uuid_no_nul..]. apply uuid_inj in Ho.
    assert (Hp : forall p, Forall (fun x => no_nul x = true /\ x <> ""%string) (sort_strings (provisioner_string <$> p))).
    { intros p. apply Forall_forall. intros x. rewrite sort_strings_perm. intros (y & -> & _)%list_elem_of_fmap. by destruct y. }
    apply (fields_inj _ _ _ _ (Hp p1) (Hp p2)) in He as [Hps He].
    apply (pairs_inj t1 t2) in He as [Hks Hvs]; [|intros; by apply tag_keys..].
    split; [done|]. split.
    + apply provisioner_string_perm. by rewrite <- (sort_strings_perm (_ <$> p1)), Hps, sort_strings_perm.
    + apply map_eq. intros k. assert (Hdom : forall (t : TagMap) k, k ∈ sort_strings (elements (dom t)) <-> is_Some (t !! k)).
      { intros t k'. by rewrite sort_strings_perm, elem_of_elements, elem_of_dom. }
      destruct (t1 !! k) as [v1|] eqn:E1, (t2 !! k) as [v2|] eqn:E2; [| | |done].
      * f_equal. assert (Hk : k ∈ sort_strings (elements (dom t1))) by (apply Hdom; by rewrite E1).
        specialize (Hvs k Hk). by rewrite E1, E2 in Hvs.
      * exfalso. assert (Hk : k ∈ sort_strings (elements (dom t1))) by (apply Hdom; by rewrite E1).
        rewrite Hks in Hk. apply Hdom in Hk as [? Hk]. congruence.
      * exfalso. assert (Hk : k ∈ sort_strings (elements (dom t2))) by (apply Hdom; by rewrite E2).
        rewrite <- Hks in Hk. apply Hdom in Hk as [? Hk]. congruence.
  - intros (-> & Hp & ->). unfold domainKey. do 4 f_equal. f_equal. apply sort_strings_unique. by rewrite Hp.
Qed.
End Keys.

(** ** Concrete runs *)

Module Examples.

(** Identifiers written in unary: distinct texts without null bytes. *)
Fixpoint tally (n : nat) : string := match n with O => "" | S n => String "a" (tally n) end.
#[export] Instance unary_text : UuidText := { uuid_String x := tally (N.to_nat x) }.

Lemma tally_inj m n : tally m = tally n -> m = n.
Proof. revert n. induction m as [|m IH]; intros [|n]; simpl; [done..|]. intros [= E]. f_equal. auto. Qed.

Lemma unary_inj x y : uuid_String x = uuid_String y -> x = y.
Proof. intros H%tally_inj. lia. Qed.

Lemma unary_no_nul x : no_nul (uuid_String x) = true.
Proof. simpl. by induction (N.to_nat x). Qed.

Definition linux : TagMap := {[ "os" := "linux" ]}.
Definition terraform : list ProvisionerType := [ProvisionerTerraform].

(** Two clients of one domain; the first is cleared. *)
Definition run (s : System) (x : action) : System :=
  match method s x with Some (Returns err a, k) => k err (mkSystem a (clients s)) | _ => s end.
Definition two_clients : System := run (run newSystem (ActStart 1 7 terraform linux)) (ActStart 2 7 terraform linux).

Lemma run_reachable s x :
  sys_reachable s -> (match method s x with Some (Returns _ _, _) => true | _ => false end) = true -> sys_reachable (run s x).
Proof.
  intros Hs. unfold run. destruct (method s x) as [[[err a| |] k]|] eqn:E; [|done..]. intros _.
  eapply sys_next; [exact Hs|]. by apply (step_action s x).
Qed.

Lemma two_clients_reachable : sys_reachable two_clients.
Proof. apply run_reachable; [apply run_reachable; [apply sys_new|]|]; by vm_compute. Qed.
End Examples.

Import Examples.

Lemma one_query_per_domain_witness :
  chans (acq two_clients) !! 1%N = Some 1%nat /\
  forall r k, method two_clients (ActCancel 1) = Some (r, k) -> exists a, r = Returns None a.
Proof.
  destruct (one_query_per_domain two_clients two_clients_reachable) as (_ & Hm & _).
  split; [by vm_compute|]. intros r k Hr. exact (Hm _ _ _ Hr).
Defined.

Lemma jobPosted_wakes_witness :
  exists a', @jobPosted elements_range (MsgPosting (mkPosting 7 ProvisionerTerraform Examples.linux)) (acq Examples.two_clients) =
    Returns None a' /\ exists dk, awake a' dk.
Proof.
  destruct (q (acq Examples.two_clients) !! domainKey 7 Examples.terraform Examples.linux) as [d|] eqn:Hd;
    [|vm_compute in Hd; discriminate Hd].
  assert (Hc : contains d (mkPosting 7 ProvisionerTerraform Examples.linux) = true).
  { assert (E : (fun d => contains d (mkPosting 7 ProvisionerTerraform Examples.linux)) <$>
      q (acq Examples.two_clients) !! domainKey 7 Examples.terraform Examples.linux = Some true) by (by vm_compute).
    rewrite Hd in E. by injection E. }
  destruct (@jobPosted_wakes _ _ _ _ _ _ Examples.two_clients_reachable Hd Hc) as [(a' & Ha & dk & _ & _ & _ & Hw) _].
  exists a'. split; [exact Ha|]. by exists dk.
Defined.

Lemma domainKey_exact_witness :
  @domainKey Examples.unary_text 7 [ProvisionerTerraform; ProvisionerEcho] Examples.linux =
  @domainKey Examples.unary_text 7 [ProvisionerEcho; ProvisionerTerraform] Examples.linux.
Proof.
  apply (@domainKey_exact Examples.unary_text Examples.unary_inj Examples.unary_no_nul); [by vm_compute..|].
  split; [done|]. split; [apply perm_swap|done].
Defined.
