(* ===== verification/CryptoKeys.v ===== *)
(** * Signing keys and their rotation: [wirtuald/cryptokeys/rotate.go]

    The [crypto_keys] table with the [FakeQuerier] methods on it, and the
    rotator, which in one transaction deletes keys past their deletion time,
    replaces keys that are about to expire and inserts a key for a feature that
    has none. *)

From Stdlib Require Import Strings.Byte.
From stdpp Require Import sorting.
From S2P Require Import Prelude GoTime GoEncoding Db.

(** ** The table *)

Definition CryptoKeyFeature : Type := string.
Definition CryptoKeyFeatureWorkspaceAppsToken : CryptoKeyFeature := "workspace_apps_token".
Definition CryptoKeyFeatureWorkspaceAppsAPIKey : CryptoKeyFeature := "workspace_apps_api_key".
Definition CryptoKeyFeatureOIDCConvert : CryptoKeyFeature := "oidc_convert".
Definition CryptoKeyFeatureTailnetResume : CryptoKeyFeature := "tailnet_resume".

Definition AllCryptoKeyFeatureValues : list CryptoKeyFeature :=
  [CryptoKeyFeatureWorkspaceAppsToken; CryptoKeyFeatureWorkspaceAppsAPIKey;
   CryptoKeyFeatureOIDCConvert; CryptoKeyFeatureTailnetResume].

(** [CryptoKeyFeature.Valid]. *)
Definition feature_Valid (e : CryptoKeyFeature) : bool :=
  String.eqb e CryptoKeyFeatureWorkspaceAppsToken || String.eqb e CryptoKeyFeatureWorkspaceAppsAPIKey ||
  String.eqb e CryptoKeyFeatureOIDCConvert || String.eqb e CryptoKeyFeatureTailnetResume.

Record CryptoKey := mkKey {
  ck_Feature : CryptoKeyFeature;
  ck_Sequence : Z;                 (* int32 *)
  ck_Secret : NullString;
  ck_SecretKeyID : NullString;
  ck_StartsAt : Time;
  ck_DeletesAt : NullTime;
}.
Definition noString : NullString := mkNullString "" false.
Definition zeroKey : CryptoKey := mkKey "" 0 noString noString zeroTime noTime.

Definition ExpiresAt (k : CryptoKey) (keyDuration : Z) : Time := In_ (Add (ck_StartsAt k) keyDuration) UTC.

Definition CanVerify (k : CryptoKey) (now : Time) : bool :=
  let hasSecret := ns_Valid (ck_Secret k) in
  let isBeforeDeletion := negb (nt_Valid (ck_DeletesAt k)) || Before now (nt_Time (ck_DeletesAt k)) in
  hasSecret && isBeforeDeletion.

Definition CanSign (k : CryptoKey) (now : Time) : bool :=
  let isAfterStart := negb (IsZero (ck_StartsAt k)) && negb (Before now (ck_StartsAt k)) in
  isAfterStart && CanVerify k now.

(** The store: the table, the advisory locks that are held, and the number of
    reads made of the system's random source. *)
Record KeyStore := mkKeyStore {
  cryptoKeys : list CryptoKey;
  locks : gset Z;
  draws : nat;
}.

(** A database call, as in [Db]: an error keeps the store it happened in. *)
Definition KDB (A : Type) : Type := KeyStore -> KeyStore * result A.
#[export] Instance KDB_ret : MRet KDB := fun A a d => (d, Ok a).
#[export] Instance KDB_bind : MBind KDB := fun A B f m d =>
  match m d with (d, Ok a) => f a d | (d, Err e) => (d, Err e) end.

Definition kdb_wrap {A} (context : string) (m : KDB A) : KDB A :=
  fun d => let '(d, r) := m d in (d, wrap context r).
Definition kdb_read {A} (f : KeyStore -> result A) : KDB A := fun d => (d, f d).
Definition set_keys (l : list CryptoKey) (d : KeyStore) : KeyStore := mkKeyStore l (locks d) (draws d).

(** [validateDatabaseType] of an argument whose only checked field is the feature. *)
Definition validateDatabaseType (feature : CryptoKeyFeature) : result unit :=
  if feature_Valid feature then Ok tt else Err "invalid database type fields".

(** [key.Feature == arg.Feature && key.Sequence == arg.Sequence] *)
Definition is_key (feature : CryptoKeyFeature) (sequence : Z) (key : CryptoKey) : bool :=
  String.eqb (ck_Feature key) feature && (ck_Sequence key =? sequence).

Definition clear_secret (k : CryptoKey) : CryptoKey :=
  mkKey (ck_Feature k) (ck_Sequence k) noString noString (ck_StartsAt k) (ck_DeletesAt k).
Definition set_DeletesAt (t : NullTime) (k : CryptoKey) : CryptoKey :=
  mkKey (ck_Feature k) (ck_Sequence k) (ck_Secret k) (ck_SecretKeyID k) (ck_StartsAt k) t.

(** The two methods that change the first row of a feature and sequence. *)
Definition update_key (feature : CryptoKeyFeature) (sequence : Z) (f : CryptoKey -> CryptoKey) : KDB CryptoKey :=
  fun d =>
    match validateDatabaseType feature with
    | Err e => (d, Err e)
    | Ok _ =>
        match update_first (is_key feature sequence) f (cryptoKeys d) with
        | Some (key, l) => (set_keys l d, Ok key)
        | None => (d, Err ErrNoRows)
        end
    end.

Definition DeleteCryptoKey (feature : CryptoKeyFeature) (sequence : Z) : KDB CryptoKey :=
  update_key feature sequence clear_secret.

Definition UpdateCryptoKeyDeletesAt (feature : CryptoKeyFeature) (sequence : Z) (deletesAt : NullTime) : KDB CryptoKey :=
  update_key feature sequence (set_DeletesAt deletesAt).

Definition GetCryptoKeys (d : KeyStore) : result (list CryptoKey) :=
  Ok (List.filter (fun key => ns_Valid (ck_Secret key)) (cryptoKeys d)).

(** [int(j.Sequence - i.Sequence) <= 0], the subtraction of 32-bit integers. *)
Definition seq_order (i j : CryptoKey) : Prop := wraps 32 (ck_Sequence j - ck_Sequence i) <= 0.
#[export] Instance seq_order_dec : RelDecision seq_order.
Proof. intros i j. apply Z_le_dec. Defined.

Definition GetCryptoKeysByFeature (feature : CryptoKeyFeature) (d : KeyStore) : result (list CryptoKey) :=
  Ok (merge_sort seq_order
        (List.filter (fun key => String.eqb (ck_Feature key) feature && ns_Valid (ck_Secret key)) (cryptoKeys d))).

Fixpoint latest_loop (feature : CryptoKeyFeature) (l : list CryptoKey) (latestKey : CryptoKey) : CryptoKey :=
  match l with
  | [] => latestKey
  | key :: l =>
      latest_loop feature l
        (if String.eqb (ck_Feature key) feature && (ck_Sequence latestKey <? ck_Sequence key) then key else latestKey)
  end.

Definition GetLatestCryptoKeyByFeature (feature : CryptoKeyFeature) (d : KeyStore) : result CryptoKey :=
  let latestKey := latest_loop feature (cryptoKeys d) zeroKey in
  if IsZero (ck_StartsAt latestKey) then Err ErrNoRows else Ok latestKey.

Definition InsertCryptoKey (feature : CryptoKeyFeature) (sequence : Z) (secret secretKeyID : NullString)
    (startsAt : Time) : KDB CryptoKey :=
  fun d =>
    match validateDatabaseType feature with
    | Err e => (d, Err e)
    | Ok _ =>
        let key := mkKey feature sequence secret secretKeyID startsAt noTime in
        (set_keys (cryptoKeys d ++ [key]) d, Ok key)
    end.

(** *** Transactions *)

Definition LockIDCryptoKeyRotation : Z := 6.

Definition AcquireLock (id : Z) : KDB unit := fun d =>
  if bool_decide (id ∈ locks d) then (d, Err "cannot acquire lock: already held")
  else (mkKeyStore (cryptoKeys d) ({[id]} ∪ locks d) (draws d), Ok tt).

(** [InTx]: the locks taken by the body are released, its other changes kept. *)
Definition InTx {A} (fn : KDB A) : KDB A := fun d =>
  let '(d', r) := fn d in (mkKeyStore (cryptoKeys d') (locks d) (draws d'), r).

(** ** The rotator *)

Definition WorkspaceAppsTokenDuration : Z := Minute.
Definition OIDCConvertTokenDuration : Z := 5 * Minute.
Definition TailnetResumeTokenDuration : Z := 24 * Hour.
Definition defaultRotationInterval : Z := 10 * Minute.
Definition DefaultKeyDuration : Z := 24 * 30 * Hour.

Definition tokenDuration (feature : CryptoKeyFeature) : Z :=
  if String.eqb feature CryptoKeyFeatureWorkspaceAppsAPIKey then WorkspaceAppsTokenDuration
  else if String.eqb feature CryptoKeyFeatureWorkspaceAppsToken then WorkspaceAppsTokenDuration
  else if String.eqb feature CryptoKeyFeatureOIDCConvert then OIDCConvertTokenDuration
  else if String.eqb feature CryptoKeyFeatureTailnetResume then TailnetResumeTokenDuration
  else 0.

Definition shouldDeleteKey (key : CryptoKey) (now : Time) : bool :=
  nt_Valid (ck_DeletesAt key) && negb (Before now (In_ (nt_Time (ck_DeletesAt key)) UTC)).

Definition shouldRotateKey (key : CryptoKey) (keyDuration : Z) (now : Time) : bool :=
  if nt_Valid (ck_DeletesAt key) then false
  else negb (Before (In_ (Add now Hour) UTC) (ExpiresAt key keyDuration)).

Definition minStartsAt (key : CryptoKey) (now : Time) (keyDuration : Z) : Time :=
  let expiresAt := ExpiresAt key keyDuration in
  let minStartsAt := Add now (3 * defaultRotationInterval) in
  if Before expiresAt minStartsAt then minStartsAt else expiresAt.

Fixpoint group_keys (keys : list CryptoKey) (m : gmap string (list CryptoKey)) : result (gmap string (list CryptoKey)) :=
  match keys with
  | [] => Ok m
  | key :: keys =>
      match m !! ck_Feature key with
      | None => Err ("unknown feature: " +:+ ck_Feature key)
      | Some l => group_keys keys (<[ck_Feature key := l ++ [key]]> m)
      end
  end.

Definition keysByFeature (keys : list CryptoKey) (features : list CryptoKeyFeature) : result (gmap string (list CryptoKey)) :=
  group_keys keys (foldl (fun m feature => <[feature := []]> m) ∅ features).

(** The system's random source: the bytes (or the failure) of the [n]-th read, for a length. *)
Class Entropy := { rand_Read : nat -> nat -> result (list byte) }.

Section Rotator.
Context `{Entropy, MapRange}.

Definition generateKey (length : nat) : KDB string := fun d =>
  (mkKeyStore (cryptoKeys d) (locks d) (S (draws d)),
   b ← wrap "rand read" (rand_Read (draws d) length); Ok (EncodeToString b)).

Definition generateNewSecret (feature : CryptoKeyFeature) : KDB string :=
  if String.eqb feature CryptoKeyFeatureWorkspaceAppsAPIKey then generateKey 32
  else if String.eqb feature CryptoKeyFeatureWorkspaceAppsToken then generateKey 64
  else if String.eqb feature CryptoKeyFeatureOIDCConvert then generateKey 64
  else if String.eqb feature CryptoKeyFeatureTailnetResume then generateKey 64
  else fun d => (d, Err ("unknown feature: " +:+ feature)).

(** The latest key, the zero value when there is none. *)
Definition latest_or_zero (feature : CryptoKeyFeature) (d : KeyStore) : result CryptoKey :=
  match GetLatestCryptoKeyByFeature feature d with
  | Ok k => Ok k
  | Err e => if String.eqb e ErrNoRows then Ok zeroKey else Err ("get latest key: " +:+ e)
  end.

Definition insertNewKey (feature : CryptoKeyFeature) (startsAt : Time) : KDB CryptoKey :=
  secret ← kdb_wrap "generate new secret" (generateNewSecret feature);
  latestKey ← kdb_read (latest_or_zero feature);
  kdb_wrap "inserting new key"
    (InsertCryptoKey feature (wraps 32 (ck_Sequence latestKey + 1)) (mkNullString secret true) noString (In_ startsAt UTC)).

Definition rotateKey (keyDuration : Z) (key : CryptoKey) (now : Time) : KDB (list CryptoKey) :=
  let startsAt := minStartsAt key now keyDuration in
  newKey ← kdb_wrap "insert new key" (insertNewKey (ck_Feature key) startsAt);
  let deletesAt := Add (Add startsAt Hour) (tokenDuration (ck_Feature key)) in
  updatedKey ← kdb_wrap "update old key's deletes_at"
    (UpdateCryptoKeyDeletesAt (ck_Feature key) (ck_Sequence key) (mkNullTime (In_ deletesAt UTC) true));
  mret [updatedKey; newKey].

(** The body of the loop over the keys of a feature, and the loop; it counts valid keys. *)
Definition process_key (keyDuration : Z) (now : Time) (key : CryptoKey) (validKeys : nat) : KDB nat :=
  if shouldDeleteKey key now then
    _ ← kdb_wrap "delete key" (DeleteCryptoKey (ck_Feature key) (ck_Sequence key));
    mret validKeys
  else if shouldRotateKey key keyDuration now then
    _ ← kdb_wrap "rotate key" (rotateKey keyDuration key now);
    mret (S validKeys)
  else mret (if nt_Valid (ck_DeletesAt key) then validKeys else S validKeys).

Fixpoint process_keys (keyDuration : Z) (now : Time) (keys : list CryptoKey) (validKeys : nat) : KDB nat :=
  match keys with
  | [] => mret validKeys
  | key :: keys => v ← process_key keyDuration now key validKeys; process_keys keyDuration now keys v
  end.

Definition process_feature (keyDuration : Z) (now : Time) (featureKeys : gmap string (list CryptoKey))
    (feature : CryptoKeyFeature) : KDB unit :=
  validKeys ← process_keys keyDuration now (default [] (featureKeys !! feature)) 0;
  if Nat.eqb validKeys 0 then
    _ ← kdb_wrap "insert new key" (insertNewKey feature now); mret tt
  else mret tt.

Fixpoint process_features (keyDuration : Z) (now : Time) (featureKeys : gmap string (list CryptoKey))
    (l : list CryptoKeyFeature) : KDB unit :=
  match l with
  | [] => mret tt
  | feature :: l => _ ← process_feature keyDuration now featureKeys feature; process_features keyDuration now featureKeys l
  end.

(** [dbtime.Time(k.clock.Now().UTC())] *)
Definition dbtime (clock : Time) : Time := Round (In_ clock UTC) Microsecond.

Definition rotateKeys (keyDuration : Z) (features : list CryptoKeyFeature) (clock : Time) : KDB unit :=
  InTx (
    _ ← kdb_wrap "acquire lock" (AcquireLock LockIDCryptoKeyRotation);
    keys ← kdb_wrap "get keys" (kdb_read GetCryptoKeys);
    featureKeys ← kdb_wrap "keys by feature" (kdb_read (fun _ => keysByFeature keys features));
    process_features keyDuration (dbtime clock) featureKeys (range (dom featureKeys))).

End Rotator.

(** ** The table's invariant *)

Definition kid (k : CryptoKey) : string * Z := (ck_Feature k, ck_Sequence k).

(** Keys are known by feature and sequence; there is room for [n] more
    sequence numbers in 32 bits. *)
Record keys_ok (n : Z) (l : list CryptoKey) : Prop := {
  ok_ids : NoDup (kid <$> l);
  ok_seq : Forall (fun k => 1 <= ck_Sequence k < 2 ^ 31 - n) l;
  ok_start : Forall (fun k => IsZero (ck_StartsAt k) = false) l;
}.

Definition active (k : CryptoKey) : bool := ns_Valid (ck_Secret k) && negb (nt_Valid (ck_DeletesAt k)).

Lemma is_key_true k x : is_key (ck_Feature k) (ck_Sequence k) x = true <-> kid x = kid k.
Proof.
  unfold is_key, kid. rewrite andb_true_iff, String.eqb_eq, Z.eqb_eq. split; [intros [-> ->]; done|].
  by intros [= -> ->].
Qed.

(** Updating a row that is there changes that row only. *)
Lemma update_key_spec n d k f :
  keys_ok n (cryptoKeys d) -> k ∈ cryptoKeys d -> feature_Valid (ck_Feature k) = true ->
  (forall x, kid (f x) = kid x) -> (forall x, ck_StartsAt (f x) = ck_StartsAt x) ->
  exists l, update_key (ck_Feature k) (ck_Sequence k) f d = (set_keys l d, Ok (f k)) /\ keys_ok n l /\
    forall x, x ∈ l <-> x = f k \/ (x ∈ cryptoKeys d /\ kid x <> kid k).
Proof.
  intros [Hid Hseq Hst] Hk Hv Hf1 Hf2. unfold update_key, validateDatabaseType. rewrite Hv.
  destruct (update_first _ _ _) as [[y l]|] eqn:E.
  2: { apply update_first_None, find_first_None in E. rewrite Forall_forall in E.
       specialize (E k Hk). assert (is_key (ck_Feature k) (ck_Sequence k) k = true) by by apply is_key_true. congruence. }
  pose proof E as (l1 & z & l2 & Hl & Hz & Hl1 & -> & ->)%update_first_split.
  apply is_key_true in Hz.
  assert (z = k) as -> by (eapply (NoDup_fmap_elem_of_inj kid); [exact Hid|rewrite Hl, elem_of_app; right; left|done|done]).
  exists (l1 ++ f k :: l2). split; [done|]. split.
  - split.
    + erewrite update_first_fmap; [exact Hid|exact E|exact Hf1].
    + eapply update_first_Forall; [exact E| |exact Hseq]. intros y _.
      specialize (Hf1 y). unfold kid in Hf1. injection Hf1 as _ ->. done.
    + eapply update_first_Forall; [exact E| |exact Hst]. intros y _. by rewrite Hf2.
  - intros x. rewrite Hl in Hid |- *. rewrite fmap_app, fmap_cons in Hid.
    apply NoDup_app in Hid as (_ & Hd1 & [Hd2 _]%NoDup_cons).
    rewrite !elem_of_app, !elem_of_cons. split.
    + intros [Hx|[->|Hx]]; [right|by left|right].
      * split; [by left|]. intros Ex. apply (Hd1 (kid x)); [by apply list_elem_of_fmap_2|]. rewrite Ex. left.
      * split; [by do 2 right|]. intros Ex. apply Hd2. rewrite <- Ex. by apply list_elem_of_fmap_2.
    + intros [->|[[Hx|[->|Hx]] Hne]]; [by right; left|by left|done|by do 2 right].
Qed.

(** The latest key: no key of the feature has a higher sequence. *)
Lemma latest_loop_spec feature l acc :
  let r := latest_loop feature l acc in
  (r = acc \/ (r ∈ l /\ ck_Feature r = feature)) /\ ck_Sequence acc <= ck_Sequence r /\
  forall k, k ∈ l -> ck_Feature k = feature -> ck_Sequence k <= ck_Sequence r.
Proof.
  revert acc. induction l as [|y l IH]; intros acc; simpl.
  { split; [by left|]. split; [lia|]. intros k Hk. by apply elem_of_nil in Hk. }
  destruct (String.eqb_spec (ck_Feature y) feature) as [Hy|Hy]; simpl.
  - destruct (Z.ltb_spec (ck_Sequence acc) (ck_Sequence y)) as [Hlt|Hge].
    + destruct (IH y) as (Hr & Hle & Hall). split; [|split; [lia|]].
      * right. destruct Hr as [Hr|[Hr ?]]; [rewrite Hr; split; [left|done]|split; [by right|done]].
      * intros k [->|Hk]%elem_of_cons Hf; [lia|auto].
    + destruct (IH acc) as (Hr & Hle & Hall). split; [|split; [lia|]].
      * destruct Hr as [Hr|[Hr ?]]; [by left|right; split; [by right|done]].
      * intros k [->|Hk]%elem_of_cons Hf; [lia|auto].
  - destruct (IH acc) as (Hr & Hle & Hall). split; [|split; [lia|]].
    * destruct Hr as [Hr|[Hr ?]]; [by left|right; split; [by right|done]].
    * intros k [->|Hk]%elem_of_cons Hf; [done|auto].
Qed.

Lemma latest_or_zero_spec n d feature :
  keys_ok n (cryptoKeys d) -> n < 2 ^ 31 ->
  exists k, latest_or_zero feature d = Ok k /\ 0 <= ck_Sequence k < 2 ^ 31 - n /\
    forall x, x ∈ cryptoKeys d -> ck_Feature x = feature -> ck_Sequence x <= ck_Sequence k.
Proof.
  intros [_ Hseq Hst] Hn. unfold latest_or_zero, GetLatestCryptoKeyByFeature.
  destruct (latest_loop_spec feature (cryptoKeys d) zeroKey) as (Hr & Hle & Hall).
  set (r := latest_loop _ _ _) in *. clearbody r. cbv zeta. simpl in Hle.
  rewrite Forall_forall in Hseq, Hst. destruct Hr as [->|[Hr Hf]].
  - exists zeroKey. split; [reflexivity|]. split; [simpl; lia|exact Hall].
  - rewrite (Hst _ Hr). exists r. split; [done|]. split; [specialize (Hseq r Hr); lia|exact Hall].
Qed.

(** ** What the rotator does to the table *)

(** [rand.Read] fills the buffer, and is documented never to fail. *)
Class EntropyLaws `{Entropy} : Prop :=
  rand_fills n len : exists b, rand_Read n len = Ok b /\ length b = len.

(** How many random bytes the secret of a feature has. *)
Definition secret_length (feature : CryptoKeyFeature) : nat :=
  if String.eqb feature CryptoKeyFeatureWorkspaceAppsAPIKey then 32 else 64.

(** The secret of a key is the text of the [m]-th bytes read from the random source, as
    many as its feature's secrets have. *)
Definition drawn `{Entropy} (m : nat) (k : CryptoKey) : Prop :=
  exists b, rand_Read m (secret_length (ck_Feature k)) = Ok b /\ length b = secret_length (ck_Feature k) /\
    ns_String (ck_Secret k) = EncodeToString b.

Section RotatorProofs.
Context `{EntropyLaws, MapRange}.

Lemma generateNewSecret_spec feature d :
  feature_Valid feature = true ->
  exists b, rand_Read (draws d) (secret_length feature) = Ok b /\ length b = secret_length feature /\
    generateNewSecret feature d = (mkKeyStore (cryptoKeys d) (locks d) (S (draws d)), Ok (EncodeToString b)).
Proof.
  intros Hv. destruct (rand_fills (draws d) (secret_length feature)) as (b & Hb & Hlen). exists b. split; [done|]. split; [done|].
  revert Hb. unfold generateNewSecret, secret_length, feature_Valid in *.
  repeat (case_match; [intros Hb; unfold generateKey; by rewrite Hb|]).
  by rewrite !orb_true_iff in Hv; destruct Hv as [[[]|]|].
Qed.

(** Inserting a key appends one with the next sequence number of the feature. *)
Lemma insertNewKey_spec n feature startsAt d :
  keys_ok n (cryptoKeys d) -> 1 <= n < 2 ^ 31 -> feature_Valid feature = true -> IsZero startsAt = false ->
  exists d' new, insertNewKey feature startsAt d = (d', Ok new) /\
    cryptoKeys d' = cryptoKeys d ++ [new] /\ locks d' = locks d /\ keys_ok (n - 1) (cryptoKeys d') /\
    active new = true /\ ck_Feature new = feature /\ ck_StartsAt new = In_ startsAt UTC /\
    (forall x, x ∈ cryptoKeys d -> ck_Feature x = feature -> ck_Sequence x < ck_Sequence new) /\
    drawn (draws d) new /\ draws d' = S (draws d).
Proof.
  intros Hok Hn Hv Hs. destruct (generateNewSecret_spec feature d Hv) as (b & Hb & Hlen & Hg).
  destruct (latest_or_zero_spec n (mkKeyStore (cryptoKeys d) (locks d) (S (draws d))) feature Hok ltac:(lia))
    as (k & Hk & Hseq & Hmax).
  assert (Hw : wraps 32 (ck_Sequence k + 1) = ck_Sequence k + 1) by (apply wraps_id; lia).
  set (new := mkKey feature (ck_Sequence k + 1) (mkNullString (EncodeToString b) true) noString (In_ startsAt UTC) noTime).
  exists (mkKeyStore (cryptoKeys d ++ [new]) (locks d) (S (draws d))), new.
  split.
  { unfold insertNewKey, mbind, KDB_bind, kdb_wrap, kdb_read. rewrite Hg. cbn [wrap]. rewrite Hk, Hw.
    unfold InsertCryptoKey, validateDatabaseType. by rewrite Hv. }
  cbn [cryptoKeys locks] in *. split; [done|]. split; [done|].
  assert (Hlt : forall x, x ∈ cryptoKeys d -> ck_Feature x = feature -> ck_Sequence x < ck_Sequence new).
  { intros x Hx Hf. specialize (Hmax x Hx Hf). simpl. lia. }
  split; [|split; [done|]; split; [done|]; split; [done|]; split; [done|]; split; [by exists b|done]].
  destruct Hok as [Hid Hsq Hst]. split.
  - rewrite fmap_app. apply NoDup_app. split; [done|]. split; [|apply NoDup_singleton].
    intros i (x & -> & Hx)%list_elem_of_fmap Hi. apply list_elem_of_singleton in Hi.
    injection Hi as Hf Hq. specialize (Hlt x Hx Hf). simpl in Hlt. lia.
  - apply Forall_app. split; [eapply Forall_impl; [exact Hsq|simpl; lia]|]. constructor; [simpl; lia|done].
  - apply Forall_app. split; [done|]. by constructor.
Qed.

(** The rows of [l] that are not of [T0] are keys in use with secrets that were drawn, each
    another time, from the [lo]-th on and before the [hi]-th. *)
Definition new_rows (draw : string * Z -> nat) (lo hi : nat) (T0 l : list CryptoKey) : Prop :=
  (forall x, x ∈ l -> kid x ∉ (kid <$> T0) -> active x = true /\ (lo <= draw (kid x) < hi)%nat /\ drawn (draw (kid x)) x) /\
  (forall x y, x ∈ l -> y ∈ l -> kid x ∉ (kid <$> T0) -> kid y ∉ (kid <$> T0) -> draw (kid x) = draw (kid y) -> kid x = kid y).

(** One more draw, for at most one new row. *)
Lemma new_rows_add draw lo hi T0 l l' (new : option CryptoKey) : new_rows draw lo hi T0 l -> (lo <= hi)%nat ->
  (forall x, x ∈ l' -> kid x ∉ (kid <$> T0) -> x ∈ l \/ new = Some x) ->
  (forall s, new = Some s -> active s = true /\ drawn hi s /\ forall x, x ∈ l -> kid x <> kid s) ->
  exists draw', new_rows draw' lo (if new then S hi else hi) T0 l'.
Proof.
  intros [Hd Hi] Hlo Hl Hnew. destruct new as [s|].
  2: { exists draw. split; [intros x Hx Hn; destruct (Hl x Hx Hn); [by apply Hd|done]|].
       intros x y Hx Hy Hnx Hny. destruct (Hl x Hx Hnx), (Hl y Hy Hny); try done. by apply Hi. }
  destruct (Hnew s eq_refl) as (Ha & Hs & Hne). exists (fun i => if decide (i = kid s) then hi else draw i).
  assert (Hcases : forall x, x ∈ l' -> kid x ∉ (kid <$> T0) -> (x ∈ l /\ kid x <> kid s) \/ x = s).
  { intros x Hx Hn. destruct (Hl x Hx Hn) as [Hxl|[= ->]]; [left; auto|by right]. }
  split.
  - intros x Hx Hn. destruct (Hcases x Hx Hn) as [[Hxl Hk]| ->].
    + rewrite decide_False by done. destruct (Hd x Hxl Hn) as (? & ? & ?). split_and!; [done|lia|lia|done].
    + rewrite decide_True by done. split_and!; [done|lia|lia|done].
  - intros x y Hx Hy Hnx Hny. destruct (Hcases x Hx Hnx) as [[Hxl Hkx]| ->], (Hcases y Hy Hny) as [[Hyl Hky]| ->].
    + rewrite !decide_False by done. by apply Hi.
    + rewrite decide_False, decide_True by done. destruct (Hd x Hxl Hnx) as (_ & ? & _). lia.
    + rewrite decide_True, decide_False by done. destruct (Hd y Hyl Hny) as (_ & ? & _). lia.
    + done.
Qed.

Section Progress.
Context (keyDuration : Z) (now : Time) (T0 : list CryptoKey) (lo : nat).
Hypothesis Hnow : 0 <= t_ns now.
Hypothesis HT0 : NoDup (kid <$> T0).

(** A key that is rotated, and what makes a key its successor. *)
Definition retired (k : CryptoKey) : CryptoKey :=
  set_DeletesAt (mkNullTime (In_ (Add (Add (minStartsAt k now keyDuration) Hour) (tokenDuration (ck_Feature k))) UTC) true) k.

Definition successor (k s : CryptoKey) : Prop :=
  active s = true /\ ck_Feature s = ck_Feature k /\ ck_StartsAt s = In_ (minStartsAt k now keyDuration) UTC /\
  ck_Sequence k < ck_Sequence s.

(** What the table [l] holds for a key that was processed. *)
Definition outcome (k : CryptoKey) (l : list CryptoKey) : Prop :=
  if shouldDeleteKey k now then clear_secret k ∈ l
  else if shouldRotateKey k keyDuration now then
    (retired k ∈ l /\ exists s, s ∈ l /\ successor k s /\ kid s ∉ (kid <$> T0))
  else k ∈ l.

(** The table in the middle of the loops: the keys [done] have been processed,
    the others of the first table [T0] are untouched, anything else is new: its
    secret is a draw of its own, made since the first and before the [hi]-th. *)
Record progress (n : Z) (hi : nat) (done l : list CryptoKey) : Prop := {
  pr_ok : keys_ok n l;
  pr_done : forall k, k ∈ done -> outcome k l;
  pr_rest : forall k, k ∈ T0 -> k ∉ done -> k ∈ l;
  pr_new : exists draw, new_rows draw lo hi T0 l;
  pr_draws : (lo <= hi)%nat;
}.

Lemma kid_T0_inj k k' : k ∈ T0 -> k' ∈ T0 -> kid k = kid k' -> k = k'.
Proof. by apply NoDup_fmap_elem_of_inj. Qed.

Lemma outcome_kid k l : outcome k l -> kid k ∈ (kid <$> l).
Proof.
  unfold outcome. repeat case_match; [|intros [? _]|]; intros; by eapply list_elem_of_fmap_2'.
Qed.

(** Changing the row of another key leaves an outcome as it is. *)
Lemma outcome_keep k k' l l' :
  k' ∈ T0 -> kid k <> kid k' -> (forall x, x ∈ l -> kid x <> kid k' -> x ∈ l') -> outcome k l -> outcome k l'.
Proof.
  intros Hk' Hne Hl. unfold outcome. repeat case_match; [by intros ?; apply Hl| |by intros ?; apply Hl].
  intros (Hr & s & Hs & Hsucc & Hnew). split; [by apply Hl|]. exists s. split; [|done]. apply Hl; [done|].
  intros E. apply Hnew. rewrite E. by apply list_elem_of_fmap_2.
Qed.

Lemma outcome_mono k l l' : (forall x, x ∈ l -> x ∈ l') -> outcome k l -> outcome k l'.
Proof. intros Hl. unfold outcome. repeat case_match; naive_solver. Qed.

Lemma progress_ids n hi done l k : progress n hi done l -> k ∈ T0 -> kid k ∈ (kid <$> l).
Proof.
  intros P Hk. destruct (decide (kid k ∈ (kid <$> done))) as [(k' & E & Hd)%list_elem_of_fmap|Hn].
  - rewrite E. by apply outcome_kid, (pr_done _ _ _ _ P).
  - apply list_elem_of_fmap_2, (pr_rest _ _ _ _ P); [done|]. intros Hd. apply Hn. by apply list_elem_of_fmap_2.
Qed.

(** Processing the key [k]: its row changes, and rows may be added. *)
Lemma progress_step n n' hi done l l' k (new : option CryptoKey) :
  progress n hi done l -> k ∈ T0 -> k ∉ done -> (forall x, x ∈ done -> x ∈ T0) -> keys_ok n' l' -> outcome k l' ->
  (forall x, x ∈ l -> kid x <> kid k -> x ∈ l') -> (forall x, x ∈ l' -> x ∈ l \/ kid x = kid k \/ new = Some x) ->
  (forall s, new = Some s -> active s = true /\ drawn hi s /\ forall x, x ∈ l -> kid x <> kid s) ->
  progress n' (if new then S hi else hi) (k :: done) l'.
Proof.
  intros P Hk Hnd Hsub Hok Hout Hl Hl' Hnew. destruct (pr_new _ _ _ _ P) as [draw Hdraw]. pose proof (pr_draws _ _ _ _ P) as Hlo.
  split; [done|..].
  - intros x [->|Hx]%elem_of_cons; [done|]. eapply outcome_keep; [exact Hk| |exact Hl|by apply (pr_done _ _ _ _ P)].
    intros E. apply Hnd. by rewrite (kid_T0_inj k x Hk (Hsub x Hx)).
  - intros x Hx Hn. rewrite not_elem_of_cons in Hn. destruct Hn as [Hne Hn]. apply Hl; [by apply (pr_rest _ _ _ _ P)|].
    intros E. by apply Hne, kid_T0_inj.
  - apply (new_rows_add draw lo hi T0 l l' new); [done..| |done]. intros x Hx Hn. destruct (Hl' x Hx) as [?|[E|?]]; [by left| |by right].
    destruct Hn. rewrite E. by apply list_elem_of_fmap_2.
  - destruct new; lia.
Qed.

(** Inserting a new key changes no row. *)
Lemma progress_insert n n' hi done l new :
  progress n hi done l -> keys_ok n' (l ++ [new]) -> active new = true -> drawn hi new -> progress n' (S hi) done (l ++ [new]).
Proof.
  intros P Hok Ha Hd. destruct (pr_new _ _ _ _ P) as [draw Hdraw]. pose proof (pr_draws _ _ _ _ P) as Hlo. split; [done|..].
  - intros k Hk. eapply outcome_mono; [|by apply (pr_done _ _ _ _ P)]. intros x Hx. apply elem_of_app. by left.
  - intros k Hk Hn. apply elem_of_app. left. by apply (pr_rest _ _ _ _ P).
  - apply (new_rows_add draw lo hi T0 l _ (Some new)); [done..| |].
    + intros x [Hx| ->%list_elem_of_singleton]%elem_of_app _; [by left|by right].
    + intros s [= <-]. split; [done|]. split; [done|]. intros x Hx E. pose proof (ok_ids _ _ Hok) as Hnd. rewrite fmap_app in Hnd.
      apply NoDup_app in Hnd as (_ & Hnd & _). apply (Hnd (kid x)); [by apply list_elem_of_fmap_2|]. rewrite E. by left.
  - lia.
Qed.

Lemma minStartsAt_bounds k :
  t_ns now + 3 * defaultRotationInterval <= t_ns (minStartsAt k now keyDuration) /\
  t_ns (ck_StartsAt k) + keyDuration <= t_ns (minStartsAt k now keyDuration).
Proof. unfold minStartsAt, Before. case_match eqn:E; simpl in *; lia. Qed.

Lemma after_epoch_nonzero t : 0 <= t_ns t -> IsZero t = false.
Proof. intros. unfold IsZero, zero_ns, Second. lia. Qed.

Lemma minStartsAt_nonzero k : IsZero (minStartsAt k now keyDuration) = false.
Proof. apply after_epoch_nonzero. pose proof (minStartsAt_bounds k). unfold defaultRotationInterval, Minute, Second in *. lia. Qed.

(** Rotating a key of the table appends its successor and retires it. *)
Lemma rotateKey_spec n k d :
  keys_ok n (cryptoKeys d) -> 1 <= n < 2 ^ 31 -> k ∈ cryptoKeys d -> feature_Valid (ck_Feature k) = true ->
  exists d' s r, rotateKey keyDuration k now d = (d', Ok r) /\ locks d' = locks d /\
    keys_ok (n - 1) (cryptoKeys d') /\ successor k s /\
    (forall x, x ∈ cryptoKeys d -> ck_Feature x = ck_Feature k -> ck_Sequence x < ck_Sequence s) /\
    drawn (draws d) s /\ draws d' = S (draws d) /\
    forall x, x ∈ cryptoKeys d' <-> x = retired k \/ x = s \/ (x ∈ cryptoKeys d /\ kid x <> kid k).
Proof.
  intros Hok Hn Hk Hv.
  destruct (insertNewKey_spec n (ck_Feature k) (minStartsAt k now keyDuration) d Hok Hn Hv (minStartsAt_nonzero k))
    as (d1 & s & Hins & Hd1 & Hl1 & Hok1 & Hfr & Hfs & Hst & Hmax & Hdr & Hnd).
  assert (Hk1 : k ∈ cryptoKeys d1) by (rewrite Hd1; apply elem_of_app; by left).
  destruct (update_key_spec (n - 1) d1 k
    (set_DeletesAt (mkNullTime (In_ (Add (Add (minStartsAt k now keyDuration) Hour) (tokenDuration (ck_Feature k))) UTC) true))
    Hok1 Hk1 Hv) as (l & Hup & Hok2 & Hl); [done..|].
  exists (set_keys l d1), s, [retired k; s]. split.
  { unfold rotateKey, mbind, KDB_bind, kdb_wrap. rewrite Hins. cbn [wrap]. unfold UpdateCryptoKeyDeletesAt. by rewrite Hup. }
  split; [done|]. split; [exact Hok2|].
  assert (Hlt : ck_Sequence k < ck_Sequence s) by auto.
  split; [done|]. split; [done|]. split; [done|]. split; [done|]. intros x. cbn [cryptoKeys set_keys]. rewrite Hl, Hd1, elem_of_app, list_elem_of_singleton.
  split; [intros [->|[[?| ->] ?]]; auto|]. intros [->|[->|[??]]]; auto. right. split; [by right|].
  intros E. assert (ck_Sequence s = ck_Sequence k) by (by injection E). lia.
Qed.

(** New rows stay. *)
Definition grows (l l' : list CryptoKey) : Prop := forall x, x ∈ l -> kid x ∉ (kid <$> T0) -> x ∈ l'.

Lemma grows_trans l1 l2 l3 : grows l1 l2 -> grows l2 l3 -> grows l1 l3.
Proof. unfold grows. auto. Qed.

Lemma keeps_grows k l l' : k ∈ T0 -> (forall x, x ∈ l -> kid x <> kid k -> x ∈ l') -> grows l l'.
Proof. intros Hk Hl x Hx Hn. apply Hl; [done|]. intros E. apply Hn. rewrite E. by apply list_elem_of_fmap_2. Qed.

(** The count of valid keys: those with no deletion time. *)
Definition counts (k : CryptoKey) : nat := if nt_Valid (ck_DeletesAt k) then 0 else 1.

Lemma process_key_spec n done d k v :
  progress n (draws d) done (cryptoKeys d) -> 1 <= n < 2 ^ 31 -> k ∈ T0 -> k ∉ done -> (forall x, x ∈ done -> x ∈ T0) ->
  feature_Valid (ck_Feature k) = true ->
  exists d', process_key keyDuration now k v d = (d', Ok (v + counts k)%nat) /\ locks d' = locks d /\
    progress (n - 1) (draws d') (k :: done) (cryptoKeys d') /\ grows (cryptoKeys d) (cryptoKeys d').
Proof.
  intros P Hn Hk Hnd Hsub Hv. pose proof (pr_ok _ _ _ _ P) as Hok. pose proof (pr_rest _ _ _ _ P k Hk Hnd) as Hin.
  unfold process_key. destruct (shouldDeleteKey k now) eqn:Hdel; [|destruct (shouldRotateKey k keyDuration now) eqn:Hrot].
  - destruct (update_key_spec n d k clear_secret Hok Hin Hv) as (l & Hup & Hok' & Hl); [done..|].
    exists (set_keys l d). split; [|split; [done|]].
    { unfold mbind, KDB_bind, kdb_wrap, DeleteCryptoKey. rewrite Hup. cbn [wrap]. unfold counts.
      unfold shouldDeleteKey in Hdel. apply andb_true_iff in Hdel as [-> _]. by rewrite Nat.add_0_r. }
    assert (Hkeep : forall x, x ∈ cryptoKeys d -> kid x <> kid k -> x ∈ l) by (intros x Hx Hne; apply Hl; by right).
    split; [|by apply (keeps_grows k)].
    apply (progress_step n (n - 1) (draws d) done (cryptoKeys d) l k None); [done..| | |exact Hkeep| |done].
    + destruct Hok' as [? Hsq ?]. split; [done| |done]. eapply Forall_impl; [exact Hsq|simpl; lia].
    + unfold outcome. rewrite Hdel. apply Hl. by left.
    + intros x [->|[? _]]%Hl; [right; by left|by left].
  - destruct (rotateKey_spec n k d Hok Hn Hin Hv) as (d' & s & r & Hr & Hlk & Hok' & Hs & Hmax & Hdr & Hdn & Hl).
    exists d'. split; [|split; [done|]].
    { unfold mbind, KDB_bind, kdb_wrap. rewrite Hr. cbn [wrap]. unfold counts, shouldRotateKey in *.
      destruct (nt_Valid (ck_DeletesAt k)); [done|]. by rewrite Nat.add_1_r. }
    assert (Hkeep : forall x, x ∈ cryptoKeys d -> kid x <> kid k -> x ∈ cryptoKeys d') by (intros x Hx Hne; apply Hl; by do 2 right).
    split; [|by apply (keeps_grows k)].
    rewrite Hdn. apply (progress_step n (n - 1) (draws d) done (cryptoKeys d) (cryptoKeys d') k (Some s)); [done..| |exact Hkeep| |].
    + unfold outcome. rewrite Hdel, Hrot. split; [apply Hl; by left|]. exists s. split; [apply Hl; right; by left|]. split; [done|].
      intros (y & Ey & Hy)%list_elem_of_fmap. pose proof (progress_ids _ _ _ _ y P Hy) as (x & Ex & Hx)%list_elem_of_fmap.
      rewrite Ex in Ey. injection Ey as Hf Hq. destruct Hs as (_ & Hsf & _).
      specialize (Hmax x Hx). rewrite <- Hf, Hsf in Hmax. specialize (Hmax eq_refl). lia.
    + intros x [->|[->|[? _]]]%Hl; [right; by left|by right; right|by left].
    + intros s' [= <-]. split; [apply Hs|]. split; [done|]. intros x Hx E. injection E as Hf Hq. destruct Hs as (_ & Hsf & _).
      specialize (Hmax x Hx). rewrite Hf, Hsf in Hmax. specialize (Hmax eq_refl). lia.
  - exists d. split; [|split; [done|]].
    { unfold counts. by destruct (nt_Valid (ck_DeletesAt k)); rewrite ?Nat.add_0_r, ?Nat.add_1_r. }
    split; [|by intros ?].
    apply (progress_step n (n - 1) (draws d) done (cryptoKeys d) (cryptoKeys d) k None); [done..| | | | |done].
    + destruct Hok as [? Hsq ?]. split; [done| |done]. eapply Forall_impl; [exact Hsq|simpl; lia].
    + unfold outcome. by rewrite Hdel, Hrot.
    + done.
    + by left.
Qed.

Lemma progress_perm n hi done done' l :
  (forall k, k ∈ done <-> k ∈ done') -> progress n hi done l -> progress n hi done' l.
Proof. intros E [? Hd Hr ? ?]. split; [done| | |done|done]; [intros k Hk; apply Hd|intros k Hk Hn; apply Hr]; rewrite ?E; auto. Qed.

Lemma process_keys_spec ks n done d v :
  progress n (draws d) done (cryptoKeys d) -> Z.of_nat (length ks) <= n < 2 ^ 31 -> NoDup ks ->
  (forall k, k ∈ ks -> k ∈ T0 /\ k ∉ done /\ feature_Valid (ck_Feature k) = true) -> (forall x, x ∈ done -> x ∈ T0) ->
  exists d', process_keys keyDuration now ks v d = (d', Ok (v + sum_list (counts <$> ks))%nat) /\ locks d' = locks d /\
    progress (n - Z.of_nat (length ks)) (draws d') (ks ++ done) (cryptoKeys d') /\ grows (cryptoKeys d) (cryptoKeys d').
Proof.
  revert n done d v. induction ks as [|k ks IH]; intros n done d v P Hn Hnd Hks Hsub.
  { exists d. simpl. rewrite Nat.add_0_r, Z.sub_0_r. split; [done|]. split; [done|]. split; [exact P|by intros ?]. }
  apply NoDup_cons in Hnd as [Hk Hnd]. destruct (Hks k ltac:(left)) as (Hk0 & Hkd & Hv). simpl in Hn.
  destruct (process_key_spec n done d k v P ltac:(lia) Hk0 Hkd Hsub Hv) as (d1 & E1 & L1 & P1 & G1).
  destruct (IH (n - 1) (k :: done) d1 (v + counts k)%nat P1 ltac:(lia) Hnd) as (d2 & E2 & L2 & P2 & G2).
  { intros x Hx. destruct (Hks x ltac:(by right)) as (? & ? & ?). split; [done|]. split; [|done].
    rewrite not_elem_of_cons. split; [by intros ->|done]. }
  { by intros x [->|?]%elem_of_cons; [|apply Hsub]. }
  exists d2. split.
  { simpl. unfold mbind, KDB_bind. rewrite E1, E2. by rewrite Nat.add_assoc. }
  split; [congruence|]. split; [|by eapply grows_trans].
  replace (n - Z.of_nat (length (k :: ks))) with (n - 1 - Z.of_nat (length ks)) by (simpl; lia).
  eapply progress_perm; [|exact P2]. intros x. set_solver.
Qed.

Lemma progress_weaken n n' hi done l : n' <= n -> progress n hi done l -> progress n' hi done l.
Proof.
  intros Hn [[Hid Hsq Hst] ? ? ? ?]. split; [|done..]. split; [done| |done].
  eapply Forall_impl; [exact Hsq|simpl; lia].
Qed.

(** A feature has a key: one that was processed and has no deletion time, or a new one. *)
Definition covered (done l : list CryptoKey) (f : CryptoKeyFeature) : Prop :=
  (exists k, k ∈ done /\ ck_Feature k = f /\ counts k = 1%nat) \/
  (exists x, x ∈ l /\ ck_Feature x = f /\ active x = true /\ kid x ∉ (kid <$> T0)).

Lemma covered_mono done done' l l' f :
  (forall k, k ∈ done -> k ∈ done') -> grows l l' -> covered done l f -> covered done' l' f.
Proof. intros Hd Hl [(k & ? & ?)|(x & ? & ? & ? & ?)]; [left; exists k; auto|right; exists x; auto]. Qed.

Lemma counts_sum ks : sum_list (counts <$> ks) <> 0%nat -> exists k, k ∈ ks /\ counts k = 1%nat.
Proof.
  induction ks as [|k ks IH]; [done|]. intros Hs. destruct (counts k) as [|m] eqn:E.
  - destruct IH as (k' & ? & ?); [by simpl in Hs; rewrite E in Hs|]. exists k'. split; [by right|done].
  - exists k. split; [left|]. unfold counts in *. by destruct (nt_Valid (ck_DeletesAt k)).
Qed.

(** The snapshot's keys of a feature. *)
Definition keys_of (f : CryptoKeyFeature) : list CryptoKey :=
  List.filter (fun k => String.eqb (ck_Feature k) f) (List.filter (fun k => ns_Valid (ck_Secret k)) T0).

Lemma elem_of_keys_of f k : k ∈ keys_of f <-> k ∈ T0 /\ ns_Valid (ck_Secret k) = true /\ ck_Feature k = f.
Proof.
  unfold keys_of. rewrite !list_elem_of_In, !filter_In, String.eqb_eq. tauto.
Qed.

Lemma keys_of_NoDup f : NoDup (keys_of f).
Proof.
  apply NoDup_ListNoDup, List.NoDup_filter, List.NoDup_filter, NoDup_ListNoDup. by eapply NoDup_fmap_1.
Qed.

Lemma process_feature_spec fk f n done d :
  progress n (draws d) done (cryptoKeys d) -> Z.of_nat (length (keys_of f)) + 1 <= n < 2 ^ 31 -> feature_Valid f = true ->
  fk !! f = Some (keys_of f) -> (forall x, x ∈ done -> x ∈ T0 /\ ck_Feature x <> f) ->
  exists d', process_feature keyDuration now fk f d = (d', Ok tt) /\ locks d' = locks d /\
    progress (n - (Z.of_nat (length (keys_of f)) + 1)) (draws d') (keys_of f ++ done) (cryptoKeys d') /\
    grows (cryptoKeys d) (cryptoKeys d') /\ covered (keys_of f ++ done) (cryptoKeys d') f.
Proof.
  intros P Hn Hv Hfk Hdone.
  destruct (process_keys_spec (keys_of f) n done d 0 P ltac:(lia) (keys_of_NoDup f)) as (d1 & E1 & L1 & P1 & G1).
  { intros k (Hk & _ & Hf)%elem_of_keys_of. split; [done|]. split; [|by rewrite Hf].
    intros Hd. by destruct (Hdone k Hd). }
  { intros x Hx. by destruct (Hdone x Hx). }
  unfold process_feature. rewrite Hfk. unfold mbind, KDB_bind. cbn [default from_option id]. rewrite E1.
  destruct (Nat.eqb_spec (0 + sum_list (counts <$> keys_of f))%nat 0%nat) as [Hz|Hz].
  - destruct (insertNewKey_spec _ f now d1 (pr_ok _ _ _ _ P1) ltac:(lia) Hv (after_epoch_nonzero _ Hnow))
      as (d2 & new & E2 & K2 & L2 & Hok2 & Ha & Hf & _ & Hmax & Hdr & Hdn).
    exists d2. split; [unfold kdb_wrap; by rewrite E2|]. split; [congruence|]. rewrite K2 in Hok2 |- *.
    assert (Hnew : kid new ∉ (kid <$> T0)).
    { intros (y & Ey & Hy)%list_elem_of_fmap. pose proof (progress_ids _ _ _ _ y P1 Hy) as (x & Ex & Hx)%list_elem_of_fmap.
      rewrite Ex in Ey. injection Ey as Hfx Hq. specialize (Hmax x Hx). rewrite <- Hfx in Hmax. specialize (Hmax Hf). lia. }
    split; [|split].
    + rewrite Hdn. eapply progress_weaken; [|eapply progress_insert; [exact P1|exact Hok2|done|done]]. lia.
    + eapply grows_trans; [exact G1|]. intros x Hx _. apply elem_of_app. by left.
    + right. exists new. split; [apply elem_of_app; right; left|done].
  - exists d1. split; [done|]. split; [done|]. split; [eapply progress_weaken; [|exact P1]; lia|]. split; [done|].
    apply counts_sum in Hz as (k & Hk & Hc). left. exists k. split; [apply elem_of_app; by left|].
    by apply elem_of_keys_of in Hk as (_ & _ & ?).
Qed.

Lemma process_features_spec fk l n done d (w : Z) :
  progress n (draws d) done (cryptoKeys d) -> NoDup l -> Z.of_nat (length l) * w <= n < 2 ^ 31 ->
  (forall f, f ∈ l -> feature_Valid f = true /\ fk !! f = Some (keys_of f) /\ Z.of_nat (length (keys_of f)) + 1 <= w) ->
  (forall x, x ∈ done -> x ∈ T0 /\ ck_Feature x ∉ l) ->
  exists d' done', process_features keyDuration now fk l d = (d', Ok tt) /\ locks d' = locks d /\
    progress 0 (draws d') done' (cryptoKeys d') /\ grows (cryptoKeys d) (cryptoKeys d') /\
    (forall k, k ∈ done' <-> k ∈ done \/ (k ∈ T0 /\ ns_Valid (ck_Secret k) = true /\ ck_Feature k ∈ l)) /\
    forall f, f ∈ l -> covered done' (cryptoKeys d') f.
Proof.
  revert n done d. induction l as [|f l IH]; intros n done d P Hnd Hn Hl Hdone.
  { exists d, done. split; [done|]. split; [done|]. split; [eapply progress_weaken; [|exact P]; simpl in Hn; lia|].
    split; [by intros ?|]. split; [|set_solver]. set_solver. }
  apply NoDup_cons in Hnd as [Hf Hnd]. destruct (Hl f ltac:(left)) as (Hv & Hfk & Hw).
  destruct (process_feature_spec fk f n done d P) as (d1 & E1 & L1 & P1 & G1 & C1); [simpl in Hn; nia|done..| |].
  { intros x Hx. destruct (Hdone x Hx). set_solver. }
  destruct (IH (n - (Z.of_nat (length (keys_of f)) + 1)) (keys_of f ++ done) d1) as (d2 & done' & E2 & L2 & P2 & G2 & D2 & C2).
  - done.
  - done.
  - rewrite length_cons, Nat2Z.inj_succ in Hn. nia.
  - intros g Hg. apply Hl. by right.
  - intros x [(Hx & _ & Hxf)%elem_of_keys_of|Hx]%elem_of_app; [by rewrite Hxf|]. destruct (Hdone x Hx). set_solver.
  - exists d2, done'. split; [simpl; unfold mbind, KDB_bind; by rewrite E1, E2|]. split; [congruence|].
    split; [done|]. split; [by eapply grows_trans|]. split.
    + intros k. rewrite D2, elem_of_app, elem_of_keys_of, elem_of_cons. naive_solver.
    + intros g [->|Hg]%elem_of_cons; [|by apply C2]. eapply covered_mono; [|exact G2|exact C1].
      intros k Hk. apply D2. by left.
Qed.
End Progress.

(** *** Grouping by feature *)

Lemma group_keys_spec keys m :
  (forall k, k ∈ keys -> ck_Feature k ∈ dom m) ->
  exists m', group_keys keys m = Ok m' /\ dom m' = dom m /\
    forall f l, m !! f = Some l -> m' !! f = Some (l ++ List.filter (fun k => String.eqb (ck_Feature k) f) keys).
Proof.
  revert m. induction keys as [|k keys IH]; intros m Hm; simpl.
  { exists m. split; [done|]. split; [done|]. intros f l. by rewrite app_nil_r. }
  pose proof (Hm k ltac:(left)) as [l0 Hl0]%elem_of_dom. rewrite Hl0.
  assert (Hdom : dom (<[ck_Feature k:=l0 ++ [k]]> m) = dom m) by (apply dom_insert_lookup_L; by eexists).
  destruct (IH (<[ck_Feature k:=l0 ++ [k]]> m)) as (m' & E & Hd & Hl).
  { intros x Hx. rewrite Hdom. apply Hm. by right. }
  exists m'. split; [done|]. split; [congruence|]. intros f l Hf.
  destruct (String.eqb_spec (ck_Feature k) f) as [<-|Hne].
  - assert (l0 = l) as -> by exact (f_equal (default []) (eq_trans (eq_sym Hl0) Hf)). erewrite Hl by apply lookup_insert_eq. by rewrite <- app_assoc.
  - by apply Hl; rewrite lookup_insert_ne.
Qed.

Lemma feature_map_spec (features : list CryptoKeyFeature) (m : gmap string (list CryptoKey)) :
  (forall f l, m !! f = Some l -> l = []) ->
  let m' := foldl (fun m feature => <[feature := []]> m) m features in
  dom m' = dom m ∪ list_to_set features /\ forall f l, m' !! f = Some l -> l = [].
Proof.
  revert m. induction features as [|f features IH]; intros m Hm; simpl; [split; [set_solver|done]|].
  destruct (IH (<[f:=[]]> m)) as [Hd Hl].
  { intros g l. destruct (decide (f = g)) as [->|]; [rewrite lookup_insert_eq; by intros [= ->]|].
    rewrite lookup_insert_ne by done. apply Hm. }
  split; [|done]. rewrite Hd. set_solver.
Qed.

Lemma keysByFeature_spec keys features :
  (forall k, k ∈ keys -> ck_Feature k ∈ features) ->
  exists fk, keysByFeature keys features = Ok fk /\ dom fk = list_to_set features /\
    forall f, f ∈ features -> fk !! f = Some (List.filter (fun k => String.eqb (ck_Feature k) f) keys).
Proof.
  intros Hk. destruct (feature_map_spec features ∅) as [Hd Hl]; [by intros ? ?|].
  unfold keysByFeature. set (m := foldl _ _ _) in *. clearbody m.
  assert (Hd' : dom m = list_to_set features) by (rewrite Hd; set_solver).
  destruct (group_keys_spec keys m) as (fk & E & Hdf & Hf).
  { intros k Hx. rewrite Hd'. by apply elem_of_list_to_set, Hk. }
  exists fk. split; [done|]. split; [congruence|]. intros f Hff.
  assert (is_Some (m !! f)) as [l Hml] by (apply elem_of_dom; rewrite Hd'; by apply elem_of_list_to_set).
  rewrite (Hf f l Hml). by rewrite (Hl f l Hml).
Qed.

(** *** The whole transaction *)

Lemma dbtime_after_epoch clock : Second <= t_ns clock -> 0 <= t_ns (dbtime clock).
Proof.
  unfold dbtime, Round, Second. intros Hc. simpl.
  pose proof (Z.mod_pos_bound (t_ns clock - zero_ns) Microsecond ltac:(unfold Microsecond; lia)).
  unfold Microsecond in *. repeat case_match; simpl; lia.
Qed.

(** The conditions under which a rotation runs. *)
Record rotatable (n : Z) (features : list CryptoKeyFeature) (clock : Time) (d : KeyStore) : Prop := {
  rot_ok : keys_ok n (cryptoKeys d);
  rot_room : Z.of_nat (length features) * (Z.of_nat (length (cryptoKeys d)) + 1) <= n < 2 ^ 31;
  rot_lock : LockIDCryptoKeyRotation ∉ locks d;
  rot_valid : forall f, f ∈ features -> feature_Valid f = true;
  rot_known : forall k, k ∈ cryptoKeys d -> ns_Valid (ck_Secret k) = true -> ck_Feature k ∈ features;
  rot_clock : Second <= t_ns clock;
}.

Lemma rotateKeys_spec n keyDuration features clock d :
  rotatable n features clock d ->
  exists d', rotateKeys keyDuration features clock d = (d', Ok tt) /\ locks d' = locks d /\ keys_ok 0 (cryptoKeys d') /\
    (forall k, k ∈ cryptoKeys d ->
       if ns_Valid (ck_Secret k) then outcome keyDuration (dbtime clock) (cryptoKeys d) k (cryptoKeys d')
       else k ∈ cryptoKeys d') /\
    (exists draw, new_rows draw (draws d) (draws d') (cryptoKeys d) (cryptoKeys d')) /\
    (forall f, f ∈ features -> exists k, k ∈ cryptoKeys d' /\ ck_Feature k = f /\ active k = true).
Proof.
  intros [Hok Hroom Hlock Hvalid Hknown Hclock].
  set (T0 := cryptoKeys d) in *. set (snap := List.filter (fun k => ns_Valid (ck_Secret k)) T0).
  assert (Hsnap : forall k, k ∈ snap <-> k ∈ T0 /\ ns_Valid (ck_Secret k) = true).
  { intros k. unfold snap. by rewrite !list_elem_of_In, filter_In. }
  destruct (keysByFeature_spec snap features) as (fk & Efk & Hdom & Hfk).
  { intros k [? ?]%Hsnap. auto. }
  set (d0 := mkKeyStore T0 ({[LockIDCryptoKeyRotation]} ∪ locks d) (draws d)).
  assert (P0 : progress keyDuration (dbtime clock) T0 (draws d) n (draws d0) [] (cryptoKeys d0)).
  { split; [done|by intros k Hk%elem_of_nil|done| |done]. exists (fun _ => 0%nat).
    split; [intros x Hx Hn|intros x y Hx _ Hn]; destruct Hn; by apply list_elem_of_fmap_2. }
  assert (Hin : forall f, f ∈ range (dom fk) <-> f ∈ features).
  { intros f. rewrite range_elem, Hdom. by rewrite elem_of_list_to_set. }
  assert (Hlen : (length (range (dom fk)) <= length features)%nat).
  { apply NoDup_incl_length; [apply NoDup_ListNoDup, range_NoDup|]. intros f. rewrite <- !list_elem_of_In. apply Hin. }
  destruct (process_features_spec keyDuration (dbtime clock) T0 (draws d) (dbtime_after_epoch clock Hclock) (ok_ids _ _ Hok)
    fk (range (dom fk)) n [] d0 (Z.of_nat (length T0) + 1) P0 (range_NoDup _)) as (d' & done' & E & L & P & _ & D & C).
  - split; [|lia]. etransitivity; [|exact (proj1 Hroom)]. apply Z.mul_le_mono_nonneg_r; [lia|apply Nat2Z.inj_le; exact Hlen].
  - intros f Hf%Hin. split; [auto|]. split; [by apply Hfk|]. unfold keys_of.
    pose proof (List.filter_length_le (fun k => String.eqb (ck_Feature k) f) snap).
    pose proof (List.filter_length_le (fun k => ns_Valid (ck_Secret k)) T0). unfold snap in *. lia.
  - by intros x Hx%elem_of_nil.
  - exists (mkKeyStore (cryptoKeys d') (locks d) (draws d')). split; [|split; [done|]].
    { unfold rotateKeys, InTx, mbind, KDB_bind, kdb_wrap, kdb_read, AcquireLock.
      rewrite bool_decide_eq_false_2 by done. cbn [wrap]. unfold GetCryptoKeys. cbn [wrap cryptoKeys].
      fold T0 snap d0. rewrite Efk. cbn [wrap]. rewrite E. done. }
    cbn [cryptoKeys]. split; [apply (pr_ok _ _ _ _ _ _ _ _ P)|].
    assert (HD : forall k, k ∈ T0 -> k ∈ done' <-> ns_Valid (ck_Secret k) = true).
    { intros k Hk. rewrite D. split; [by intros [?%elem_of_nil|(_ & ? & _)]|]. intros Hs. right.
      split; [done|]. split; [done|]. apply Hin. by apply Hknown. }
    split; [|split; [exact (pr_new _ _ _ _ _ _ _ _ P)|]].
    + intros k Hk. destruct (ns_Valid (ck_Secret k)) eqn:Hs; [by apply (pr_done _ _ _ _ _ _ _ _ P), HD|].
      apply (pr_rest _ _ _ _ _ _ _ _ P); [done|]. rewrite HD by done. congruence.
    + intros f Hf%Hin. destruct (C f Hf) as [(k & Hk & Hkf & Hc)|(x & Hx & ? & ? & _)]; [|by exists x].
      pose proof (proj1 (D k) Hk) as [Hnil|(Hk0 & Hs & _)]; [by apply elem_of_nil in Hnil|].
      pose proof (pr_done _ _ _ _ _ _ _ _ P k Hk) as Ho. unfold outcome in Ho.
      unfold counts in Hc. destruct (nt_Valid (ck_DeletesAt k)) eqn:Hdel; [done|].
      assert (shouldDeleteKey k (dbtime clock) = false) as Hsd by (unfold shouldDeleteKey; by rewrite Hdel).
      rewrite Hsd in Ho. destruct (shouldRotateKey k keyDuration (dbtime clock)).
      * destruct Ho as (_ & s & Hsin & (? & Hsf & _) & _). exists s. split; [done|]. split; [congruence|done].
      * exists k. split; [done|]. split; [done|]. unfold active. by rewrite Hs, Hdel.
Qed.

(** C39: a rotation succeeds and does to each key what its times call for.  With
    enough sequence numbers left, the rotation lock free and every feature
    known: keys past their deletion time lose their secret; keys within an hour
    of expiring get a deletion time and a new row as successor, with a higher
    sequence; all other keys are untouched.  Every new row is a key in use whose secret
    is the hex text of the bytes of a read of the random source made during this
    rotation, as many as its feature asks for, and no two new rows share a read.
    Keys stay unique by feature and sequence, and in the end every feature has a
    key that is not going to be deleted.  (The clock is past the epoch, and the
    features are valid.) *)
Theorem rotateKeys_correct n keyDuration features clock d :
  rotatable n features clock d ->
  exists d', rotateKeys keyDuration features clock d = (d', Ok tt) /\ locks d' = locks d /\ keys_ok 0 (cryptoKeys d') /\
    (forall k, k ∈ cryptoKeys d ->
       if negb (ns_Valid (ck_Secret k)) then k ∈ cryptoKeys d'
       else if shouldDeleteKey k (dbtime clock) then clear_secret k ∈ cryptoKeys d'
       else if shouldRotateKey k keyDuration (dbtime clock) then
         exists s, s ∈ cryptoKeys d' /\ retired keyDuration (dbtime clock) k ∈ cryptoKeys d' /\
                   successor keyDuration (dbtime clock) k s /\ kid s ∉ (kid <$> cryptoKeys d)
       else k ∈ cryptoKeys d') /\
    (exists draw, new_rows draw (draws d) (draws d') (cryptoKeys d) (cryptoKeys d')) /\
    (forall f, f ∈ features -> exists k, k ∈ cryptoKeys d' /\ ck_Feature k = f /\ active k = true).
Proof.
  intros Hrot. destruct (rotateKeys_spec n keyDuration features clock d Hrot) as (d' & E & L & Hok & Ho & Hnew & Hact).
  exists d'. do 3 (split; [done|]). split; [|done]. intros k Hk. specialize (Ho k Hk).
  destruct (ns_Valid (ck_Secret k)); simpl; [|done]. unfold outcome in Ho. repeat case_match; [done| |done].
  destruct Ho as (? & s & ? & ? & ?). by exists s.
Qed.

(** C40: replacing a key leaves no gap.  The old row keeps its secret, the new
    one starts no earlier than thirty minutes from now and than the old one's
    expiry, from the old key's start on one of the two can sign at any time, and
    what the old key signs up to an hour after its successor has started can be
    verified for the lifetime of a token of the feature. *)
Theorem rotation_no_gap n keyDuration features clock d k :
  rotatable n features clock d -> k ∈ cryptoKeys d -> ns_Valid (ck_Secret k) = true ->
  shouldRotateKey k keyDuration (dbtime clock) = true ->
  exists d' k' s, rotateKeys keyDuration features clock d = (d', Ok tt) /\ k' ∈ cryptoKeys d' /\ s ∈ cryptoKeys d' /\
    kid k' = kid k /\ ck_Secret k' = ck_Secret k /\ ck_Feature s = ck_Feature k /\
    t_ns (dbtime clock) + 30 * Minute <= t_ns (ck_StartsAt s) /\
    t_ns (ck_StartsAt k) + keyDuration <= t_ns (ck_StartsAt s) /\
    (forall t, t_ns (ck_StartsAt k) <= t_ns t -> CanSign k' t = true \/ CanSign s t = true) /\
    (forall t u, CanSign k' t = true -> t_ns t <= t_ns (ck_StartsAt s) + Hour ->
       t_ns t <= t_ns u < t_ns t + tokenDuration (ck_Feature k) -> CanVerify k' u = true).
Proof.
  intros Hrot Hk Hsec Hrk.
  destruct (rotateKeys_spec n keyDuration features clock d Hrot) as (d' & E & _ & _ & Ho & _).
  specialize (Ho k Hk). rewrite Hsec in Ho. unfold outcome in Ho.
  assert (Hdel : nt_Valid (ck_DeletesAt k) = false) by (unfold shouldRotateKey in Hrk; by destruct (nt_Valid _)).
  replace (shouldDeleteKey k (dbtime clock)) with false in Ho by (unfold shouldDeleteKey; by rewrite Hdel).
  rewrite Hrk in Ho. destruct Ho as (Hr & s & Hs & (Hact & Hsf & Hst & _) & _).
  exists d', (retired keyDuration (dbtime clock) k), s.
  do 3 (split; [done|]). do 3 (split; [done|]).
  pose proof (minStartsAt_bounds keyDuration (dbtime clock) k) as [B1 B2].
  pose proof (ok_start _ _ (rot_ok _ _ _ _ Hrot)) as Hnz. rewrite Forall_forall in Hnz. specialize (Hnz k Hk).
  pose proof (dbtime_after_epoch clock (rot_clock _ _ _ _ Hrot)) as Hc.
  pose proof (minStartsAt_nonzero keyDuration (dbtime clock) Hc k) as Hms.
  assert (Htok : 0 <= tokenDuration (ck_Feature k)).
  { unfold tokenDuration, WorkspaceAppsTokenDuration, OIDCConvertTokenDuration, TailnetResumeTokenDuration, Hour, Minute, Second.
    repeat case_match; lia. }
  unfold active in Hact. apply andb_true_iff in Hact as [Hsv Hsd].
  rewrite Hst. cbn [t_ns In_]. unfold defaultRotationInterval in B1.
  split; [lia|]. split; [lia|]. split.
  - intros t Ht. unfold CanSign, CanVerify. rewrite Hst, Hsv, Hsd. cbn [retired set_DeletesAt ck_StartsAt ck_Secret ck_DeletesAt].
    rewrite Hnz, Hsec. unfold Before, IsZero in *. cbn in *. unfold Hour, Minute, Second in *. lia.
  - intros t u _ Ht Hu. unfold CanVerify. cbn [retired set_DeletesAt ck_StartsAt ck_Secret ck_DeletesAt].
    rewrite Hsec. unfold Before. cbn. lia.
Qed.
End RotatorProofs.

(** ** A run *)

Module Examples.

(** A source that gives as many bytes as it is asked for, other ones at the first read
    than later. *)
#[export] Instance some_entropy : Entropy := {| rand_Read n len := Ok (repeat (match n with O => x2a | _ => x2b end) len) |}.
#[export] Instance some_entropy_laws : EntropyLaws.
Proof. intros n len. eexists. split; [done|apply repeat_length]. Qed.

Definition day (n : Z) : Time := mkTime (n * 24 * Hour) UTC.
(** A key of the OIDC feature, to be rotated after thirty days. *)
Definition oidc_key : CryptoKey :=
  mkKey CryptoKeyFeatureOIDCConvert 1 (mkNullString "00ff" true) noString (day 100) noTime.
Definition oidc_store : KeyStore := mkKeyStore [oidc_key] ∅ 0.

Lemma oidc_rotatable : rotatable 2 [CryptoKeyFeatureOIDCConvert] (day 130) oidc_store.
Proof.
  split.
  - split; [apply NoDup_singleton|repeat constructor; by vm_compute|by repeat constructor].
  - by vm_compute.
  - by vm_compute.
  - by intros f ->%list_elem_of_singleton.
  - intros k ->%list_elem_of_singleton _. left.
  - by vm_compute.
Qed.
End Examples.

Import Examples.

Lemma rotateKeys_correct_witness :
  exists d', rotateKeys DefaultKeyDuration [CryptoKeyFeatureOIDCConvert] (Examples.day 130) Examples.oidc_store = (d', Ok tt) /\
    exists s draw, s ∈ cryptoKeys d' /\ successor DefaultKeyDuration (dbtime (Examples.day 130)) Examples.oidc_key s /\ drawn draw s.
Proof.
  destruct (rotateKeys_correct 2 DefaultKeyDuration [CryptoKeyFeatureOIDCConvert] (Examples.day 130) Examples.oidc_store
    Examples.oidc_rotatable) as (d' & E & _ & _ & Ho & (draw & Hnew & _) & _).
  exists d'. split; [exact E|]. specialize (Ho Examples.oidc_key ltac:(left)).
  change (shouldRotateKey Examples.oidc_key DefaultKeyDuration (dbtime (Examples.day 130))) with true in Ho.
  change (shouldDeleteKey Examples.oidc_key (dbtime (Examples.day 130))) with false in Ho.
  destruct Ho as (s & Hs & _ & Hsucc & Hn). exists s, (draw (kid s)). destruct (Hnew s Hs Hn) as (_ & _ & Hdrawn).
  exact (conj Hs (conj Hsucc Hdrawn)).
Defined.

Lemma rotation_no_gap_witness :
  exists d' k', rotateKeys DefaultKeyDuration [CryptoKeyFeatureOIDCConvert] (Examples.day 130) Examples.oidc_store = (d', Ok tt) /\
    k' ∈ cryptoKeys d' /\ ck_Secret k' = ck_Secret Examples.oidc_key.
Proof.
  destruct (rotation_no_gap 2 DefaultKeyDuration [CryptoKeyFeatureOIDCConvert] (Examples.day 130) Examples.oidc_store
    Examples.oidc_key Examples.oidc_rotatable ltac:(left) eq_refl eq_refl) as (d' & k' & s & E & Hk & _ & _ & Hsec & _).
  exists d', k'. exact (conj E (conj Hk Hsec)).
Defined.
