(* ===== verification/KeyCache.v ===== *)
(** * The key caches: [wirtuald/cryptokeys/cache.go]

    A cache keeps the keys of one feature by sequence number, refetches them
    when one is missing and on a timer, and hands out secrets for signing or
    encrypting (the latest key) and for verifying or decrypting (a key by its
    number).  Its mutex is given up in two places only, in [cond.Wait] and
    around the fetch, so a call is a sequence of atomic parts.  The fetcher and
    the clock are not code of the package: what a fetch returns and what the
    clock reads are arguments. *)

From Stdlib Require Import Strings.Byte.
From stdpp Require Import sorting.
From S2P Require Import Prelude GoTime GoEncoding Db CryptoKeys.

(** ** Keys as the API has them: [wirtualsdk.CryptoKey] *)

Record sdk_CryptoKey := mkSdkKey {
  sk_Feature : string;
  sk_Secret : string;
  sk_DeletesAt : Time;
  sk_Sequence : Z;      (* int32 *)
  sk_StartsAt : Time;
}.
Definition sdk_zeroKey : sdk_CryptoKey := mkSdkKey "" "" zeroTime 0 zeroTime.

Definition sdk_CanVerify (c : sdk_CryptoKey) (now : Time) : bool :=
  let hasSecret := negb (String.eqb (sk_Secret c) "") in
  let beforeDelete := IsZero (sk_DeletesAt c) || Before now (sk_DeletesAt c) in
  hasSecret && beforeDelete.

Definition sdk_CanSign (c : sdk_CryptoKey) (now : Time) : bool :=
  let isAfterStartsAt := negb (IsZero (sk_StartsAt c)) && negb (Before now (sk_StartsAt c)) in
  isAfterStartsAt && sdk_CanVerify c now.

Definition toSDK (key : CryptoKey) : sdk_CryptoKey :=
  mkSdkKey (ck_Feature key) (ns_String (ck_Secret key)) (nt_Time (ck_DeletesAt key)) (ck_Sequence key) (ck_StartsAt key).
Definition toSDKKeys (keys : list CryptoKey) : list sdk_CryptoKey := toSDK <$> keys.

(** [DBFetcher.Fetch] *)
Definition Fetch (feature : string) (d : KeyStore) : result (list sdk_CryptoKey) :=
  keys ← wrap "get crypto keys by feature" (GetCryptoKeysByFeature feature d);
  Ok (toSDKKeys keys).

(** ** State *)

Definition latestSequence : Z := -1.
Definition refreshInterval : Z := 10 * Minute.

(** [refresher] is the time the timer is set for, if it is. *)
Record cache := mkCache {
  c_feature : string;
  keys : gmap Z sdk_CryptoKey;
  lastFetch : Time;
  refresher : option Time;
  fetching : bool;
  closed : bool;
}.

Definition ErrKeyNotFound : string := "key not found".
Definition ErrKeyInvalid : string := "key is invalid for use".
Definition ErrClosed : string := "closed".
Definition ErrInvalidFeature : string := "invalid feature for this operation".

Definition isEncryptionKeyFeature (feature : string) : bool := String.eqb feature CryptoKeyFeatureWorkspaceAppsAPIKey.
Definition isSigningKeyFeature (feature : string) : bool :=
  String.eqb feature CryptoKeyFeatureTailnetResume || String.eqb feature CryptoKeyFeatureOIDCConvert ||
  String.eqb feature CryptoKeyFeatureWorkspaceAppsToken.

(** The loop of [toKeyMap]; its variable [latest] is never assigned. *)
Fixpoint key_map_loop (latest : sdk_CryptoKey) (l : list sdk_CryptoKey) (now : Time) (m : gmap Z sdk_CryptoKey)
    : gmap Z sdk_CryptoKey :=
  match l with
  | [] => m
  | key :: l =>
      let m := <[sk_Sequence key := key]> m in
      key_map_loop latest l now
        (if (sk_Sequence latest <? sk_Sequence key) && sdk_CanSign key now then <[latestSequence := key]> m else m)
  end.
Definition toKeyMap (l : list sdk_CryptoKey) (now : Time) : gmap Z sdk_CryptoKey :=
  key_map_loop sdk_zeroKey l now ∅.

Definition cryptoKeys (fetched : result (list sdk_CryptoKey)) (now : Time) : result (gmap Z sdk_CryptoKey) :=
  l ← wrap "fetch" fetched; Ok (toKeyMap l now).

Definition idSecret (k : sdk_CryptoKey) : result (string * list byte) :=
  key ← wrap "decode key" (DecodeString (sk_Secret k)); Ok (FormatInt (sk_Sequence k), key).

Definition key (c : cache) (sequence : Z) (now : Time) : sdk_CryptoKey * bool :=
  if sequence =? latestSequence then
    let k := default sdk_zeroKey (keys c !! latestSequence) in (k, sdk_CanSign k now)
  else match keys c !! sequence with Some k => (k, true) | None => (sdk_zeroKey, false) end.

Definition checkKey (k : sdk_CryptoKey) (sequence : Z) (now : Time) : result (string * list byte) :=
  if sequence =? latestSequence then
    if negb (sdk_CanSign k now) then Err ErrKeyInvalid else idSecret k
  else if negb (sdk_CanVerify k now) then Err ErrKeyInvalid
  else idSecret k.

(** [newCache], with the outcome of its first fetch; the clock is read for the
    timer and for the key map. *)
Definition newCache (feature : string) (clk : nat -> Time) (fetched : result (list sdk_CryptoKey)) : cache :=
  let keys := match cryptoKeys fetched (clk 1%nat) with Ok m => m | Err _ => ∅ end in
  mkCache feature keys zeroTime (Some (Add (clk 0%nat) refreshInterval)) false false.

(** ** [cryptoKey], in parts *)

(** How a part ends: the call returns, waits on the condition, goes to fetch,
    or unlocks a mutex that is not locked, which ends the program. *)
Inductive outcome :=
| Returns (r : result (string * list byte))
| Waits
| Fetches
| UnlockOfUnlocked.

Definition set_fetching (b : bool) (c : cache) : cache :=
  mkCache (c_feature c) (keys c) (lastFetch c) (refresher c) b (closed c).

(** The loop and what follows it, up to the fetch.  The loop keeps the [key] and
    [ok] it started with; [clk] gives the readings of the clock. *)
Definition cryptoKey_loop (c : cache) (sequence : Z) (k : sdk_CryptoKey) (ok : bool) (now : Time) : cache * outcome :=
  if negb ok && fetching c && negb (closed c) then (c, Waits)
  else if closed c then (c, Returns (Err ErrClosed))
  else if ok then (c, Returns (checkKey k sequence now))
  else (set_fetching true c, Fetches).

Definition cryptoKey_enter (c : cache) (sequence : Z) (clk : nat -> Time) : cache * outcome :=
  if closed c then (c, Returns (Err ErrClosed))
  else let '(k, ok) := key c sequence (clk 0%nat) in cryptoKey_loop c sequence k ok (clk 1%nat).

(** A call in [cond.Wait] was not [ok]; the key it keeps is the one it read then. *)
Definition cryptoKey_wake (c : cache) (sequence : Z) (k : sdk_CryptoKey) (now : Time) : cache * outcome :=
  cryptoKey_loop c sequence k false now.

(** The fetched keys are stored and the timer is set again. *)
Definition store_keys (m : gmap Z sdk_CryptoKey) (fetched reset : Time) (c : cache) : cache :=
  mkCache (c_feature c) m fetched (Some (Add reset refreshInterval)) false (closed c).

(** After the fetch.  The error path returns with the mutex unlocked, and the
    deferred [Unlock] runs. *)
Definition cryptoKey_fetched (c : cache) (sequence : Z) (fetched : result (list sdk_CryptoKey)) (clk : nat -> Time)
    : cache * outcome :=
  match cryptoKeys fetched (clk 0%nat) with
  | Err _ => (c, UnlockOfUnlocked)
  | Ok m =>
      let c := store_keys m (clk 1%nat) (clk 2%nat) c in
      let '(k, ok) := key c sequence (clk 3%nat) in
      if negb ok then (c, Returns (Err ErrKeyNotFound))
      else (c, Returns (checkKey k sequence (clk 4%nat)))
  end.

(** ** The methods *)

Inductive Request := EncryptingKey | DecryptingKey (id : string) | SigningKey | VerifyingKey (id : string).

(** The checks before [cryptoKey], and the number it is called with. *)
Definition method_sequence (feature : string) (m : Request) : result Z :=
  match m with
  | EncryptingKey => if negb (isEncryptionKeyFeature feature) then Err ErrInvalidFeature else Ok latestSequence
  | DecryptingKey id =>
      if negb (isEncryptionKeyFeature feature) then Err ErrInvalidFeature else wrap "parse id" (ParseInt32 id)
  | SigningKey => if negb (isSigningKeyFeature feature) then Err ErrInvalidFeature else Ok latestSequence
  | VerifyingKey id =>
      if negb (isSigningKeyFeature feature) then Err ErrInvalidFeature else wrap "parse id" (ParseInt32 id)
  end.

(** What the method makes of the result of [cryptoKey]: an id only for the latest key. *)
Definition method_result (m : Request) (r : result (string * list byte)) : result (option string * list byte) :=
  match m with
  | EncryptingKey | SigningKey => '(id, secret) ← r; Ok (Some id, secret)
  | DecryptingKey _ | VerifyingKey _ => '(_, secret) ← wrap "crypto key" r; Ok (None, secret)
  end.

(** ** [refresh], in parts *)

Definition refresh_enter (c : cache) (now : Time) : cache * bool :=
  if closed c then (c, false)
  else if fetching c then (c, false)
  else if Sub now (lastFetch c) <? refreshInterval then (c, false)
  else (set_fetching true c, true).

Definition refresh_fetched (c : cache) (fetched : result (list sdk_CryptoKey)) (clk : nat -> Time) : cache :=
  match cryptoKeys fetched (clk 0%nat) with
  | Err _ => c
  | Ok m => store_keys m (clk 1%nat) (clk 2%nat) c
  end.

Definition Close (c : cache) : cache :=
  if closed c then c
  else mkCache (c_feature c) (keys c) (lastFetch c) None (fetching c) true.

(** ** Concurrent calls *)

(** A call that is waiting (and whether it was woken) or fetching. *)
Inductive call :=
| InWait (m : Request) (sequence : Z) (k : sdk_CryptoKey) (woken : bool)
| InFetch (m : Request) (sequence : Z).

(** The cache, the calls in progress by a number, the [refresh] goroutines that
    the timer started and that have yet to take the lock, those that are
    fetching, and whether the program has ended. *)
Record System := mkSystem {
  ca : cache;
  calls : gmap N call;
  started : nat;
  refreshing : nat;
  crashed : bool;
}.

(** [cond.Broadcast] *)
Definition wake_call (w : call) : call :=
  match w with InWait m sequence k _ => InWait m sequence k true | w => w end.
Definition broadcast (s : System) : System :=
  mkSystem (ca s) (wake_call <$> calls s) (started s) (refreshing s) (crashed s).

Definition set_cache (c : cache) (s : System) : System :=
  mkSystem c (calls s) (started s) (refreshing s) (crashed s).
Definition set_call (id : N) (w : call) (s : System) : System :=
  mkSystem (ca s) (<[id := w]> (calls s)) (started s) (refreshing s) (crashed s).
Definition end_call (id : N) (s : System) : System :=
  mkSystem (ca s) (delete id (calls s)) (started s) (refreshing s) (crashed s).
Definition set_refresh (n r : nat) (s : System) : System :=
  mkSystem (ca s) (calls s) n r (crashed s).
Definition crash (s : System) : System :=
  mkSystem (ca s) (calls s) (started s) (refreshing s) true.

(** A part of call [id] ended with [o]; [k] is the key it goes on waiting with. *)
Definition after_part (id : N) (m : Request) (sequence : Z) (k : sdk_CryptoKey) (o : outcome) (s : System)
    : System * option (result (option string * list byte)) :=
  match o with
  | Returns r => (end_call id s, Some (method_result m r))
  | Waits => (set_call id (InWait m sequence k false) s, None)
  | Fetches => (set_call id (InFetch m sequence) s, None)
  | UnlockOfUnlocked => (crash s, None)
  end.

(** What the steps of the system are: a method is called, a woken call goes on,
    a call's fetch ends, the timer fires, a refresh takes the lock, its fetch
    ends, and [Close]. *)
Inductive event :=
| EvCall (id : N) (m : Request)
| EvWake (id : N)
| EvFetched (id : N) (fetched : result (list sdk_CryptoKey))
| EvTimer
| EvRefresh
| EvRefreshed (fetched : result (list sdk_CryptoKey))
| EvClose.

(** One step, with the clock's readings during it, and the value a call
    returned in it; [None] when the step cannot happen. *)
Definition step (s : System) (e : event) (clk : nat -> Time)
    : option (System * option (result (option string * list byte))) :=
  if crashed s then None
  else
  match e with
  | EvCall id m =>
      match calls s !! id with
      | Some _ => None
      | None =>
          match method_sequence (c_feature (ca s)) m with
          | Err e => Some (s, Some (Err e))
          | Ok sequence =>
              let '(c, o) := cryptoKey_enter (ca s) sequence clk in
              Some (after_part id m sequence (key (ca s) sequence (clk 0%nat)).1 o (set_cache c s))
          end
      end
  | EvWake id =>
      match calls s !! id with
      | Some (InWait m sequence k true) =>
          let '(c, o) := cryptoKey_wake (ca s) sequence k (clk 0%nat) in
          Some (after_part id m sequence k o (set_cache c s))
      | _ => None
      end
  | EvFetched id fetched =>
      match calls s !! id with
      | Some (InFetch m sequence) =>
          let '(c, o) := cryptoKey_fetched (ca s) sequence fetched clk in
          Some (after_part id m sequence sdk_zeroKey o
                  (match o with UnlockOfUnlocked => set_cache c s | _ => broadcast (set_cache c s) end))
      | _ => None
      end
  | EvTimer =>
      match refresher (ca s) with
      | None => None
      | Some _ =>
          let c := ca s in
          Some (set_refresh (S (started s)) (refreshing s)
                  (set_cache (mkCache (c_feature c) (keys c) (lastFetch c) None (fetching c) (closed c)) s), None)
      end
  | EvRefresh =>
      match started s with
      | O => None
      | S n =>
          let '(c, go) := refresh_enter (ca s) (clk 0%nat) in
          Some (set_refresh n (if go : bool then S (refreshing s) else refreshing s) (set_cache c s), None)
      end
  | EvRefreshed fetched =>
      match refreshing s with
      | O => None
      | S r =>
          let s' := set_refresh (started s) r (set_cache (refresh_fetched (ca s) fetched clk) s) in
          Some (match cryptoKeys fetched (clk 0%nat) with Ok _ => broadcast s' | Err _ => s' end, None)
      end
  | EvClose => Some ((if closed (ca s) then s else broadcast (set_cache (Close (ca s)) s)), None)
  end.

Definition newSystem (c : cache) : System := mkSystem c ∅ 0 0 false.

(** ** Runs *)

Section Runs.
(** What the fetcher may return. *)
Context (fetchable : list sdk_CryptoKey -> Prop).
Hypothesis fetchable_seq : forall l k, fetchable l -> k ∈ l -> 1 <= sk_Sequence k < 2 ^ 31.

Definition ok_fetch (fetched : result (list sdk_CryptoKey)) : Prop :=
  forall l, fetched = Ok l -> fetchable l.
Definition ok_event (e : event) : Prop :=
  match e with EvFetched _ f | EvRefreshed f => ok_fetch f | _ => True end.

Inductive reachable (feature : string) : System -> Prop :=
| reach_new clk fetched :
    ok_fetch fetched -> reachable feature (newSystem (newCache feature clk fetched))
| reach_step s e clk s' r :
    reachable feature s -> ok_event e -> step s e clk = Some (s', r) -> reachable feature s'.

(** Later states of a run that goes on from [s] without closing the cache. *)
Inductive runs_open (s : System) : System -> Prop :=
| runs_refl : runs_open s s
| runs_step s1 e clk s2 r :
    runs_open s s1 -> e <> EvClose -> step s1 e clk = Some (s2, r) -> runs_open s s2.

(** *** The keys that are held *)

Definition held (m : gmap Z sdk_CryptoKey) : Prop :=
  m = ∅ \/ exists l now, fetchable l /\ m = toKeyMap l now.

Lemma key_map_loop_lookup l now m i k :
  (forall k, k ∈ l -> 1 <= sk_Sequence k) -> key_map_loop sdk_zeroKey l now m !! i = Some k ->
  m !! i = Some k \/ (k ∈ l /\ (i = sk_Sequence k \/ (i = latestSequence /\ sdk_CanSign k now = true))).
Proof.
  revert m. induction l as [|x l IH]; intros m Hl; simpl; [by left|].
  intros [Hm|(? & ?)]%IH; [|right; split; [by right|done]|intros y Hy; apply Hl; by right].
  pose proof (Hl x ltac:(left)) as Hx. replace (0 <? sk_Sequence x) with true in Hm by lia. simpl in Hm.
  destruct (sdk_CanSign x now) eqn:Hc.
  - destruct (decide (latestSequence = i)) as [<-|Hi].
    + rewrite lookup_insert_eq in Hm. injection Hm as ->. right. split; [left|by right].
    + rewrite lookup_insert_ne in Hm by done. destruct (decide (sk_Sequence x = i)) as [Hi'|Hi'].
      * rewrite Hi', lookup_insert_eq in Hm. injection Hm as ->. right. split; [left|by left].
      * rewrite lookup_insert_ne in Hm by done. by left.
  - destruct (decide (sk_Sequence x = i)) as [Hi'|Hi'].
    + rewrite Hi', lookup_insert_eq in Hm. injection Hm as ->. right. split; [left|by left].
    + rewrite lookup_insert_ne in Hm by done. by left.
Qed.

Lemma held_lookup m i k :
  held m -> m !! i = Some k ->
  exists l, fetchable l /\ k ∈ l /\ (i <> latestSequence -> sk_Sequence k = i).
Proof.
  intros [->|(l & now & Hl & ->)]; [by rewrite lookup_empty|]. intros Hk.
  destruct (key_map_loop_lookup l now ∅ i k) as [Hm|[Hin Hi]]; [|done|by rewrite lookup_empty in Hm|].
  - intros x Hx. by apply (fetchable_seq l).
  - exists l. split; [done|]. split; [done|]. intros Hne. by destruct Hi as [->|[-> _]].
Qed.

(** The method whose call goes on in a step. *)
Definition event_method (s : System) (e : event) : option Request :=
  match e with
  | EvCall _ m => Some m
  | EvWake id | EvFetched id _ => (fun w => match w with InWait m _ _ _ | InFetch m _ => m end) <$> calls s !! id
  | _ => None
  end.

(** What a call that succeeds gives: the secret of a key that was fetched and
    that may be used at a time the clock showed during the step, with its number
    when it is the latest key that was asked for. *)
Definition good_key (feature : string) (m : Request) (clk : nat -> Time) (id : option string) (secret : list byte) : Prop :=
  exists l k j sequence, fetchable l /\ k ∈ l /\ method_sequence feature m = Ok sequence /\
    DecodeString (sk_Secret k) = Ok secret /\
    id = match m with EncryptingKey | SigningKey => Some (FormatInt (sk_Sequence k)) | _ => None end /\
    if sequence =? latestSequence then sdk_CanSign k (clk j) = true
    else sk_Sequence k = sequence /\ sdk_CanVerify k (clk j) = true.

(** *** The invariant *)

Definition in_flight (s : System) (id : N) : Prop := exists m sequence, calls s !! id = Some (InFetch m sequence).

Definition call_sequence (w : call) : Request * Z :=
  match w with InWait m sequence _ _ | InFetch m sequence => (m, sequence) end.

(** The keys were fetched, calls use the number of their method, and at most
    one fetch is in flight, none when [fetching] is unset. *)
Record sys_ok (feature : string) (s : System) : Prop := {
  so_held : held (keys (ca s));
  so_feature : c_feature (ca s) = feature;
  so_calls : forall id w, calls s !! id = Some w ->
    method_sequence feature (call_sequence w).1 = Ok (call_sequence w).2;
  so_idle : fetching (ca s) = false -> refreshing s = 0%nat /\ forall id, ~ in_flight s id;
  so_one : forall id1 id2, in_flight s id1 -> in_flight s id2 -> id1 = id2;
  so_refresh : (refreshing s <= 1)%nat;
  so_either : refreshing s <> 0%nat -> forall id, ~ in_flight s id;
}.

Lemma loop_spec c sequence k ok now c' o :
  cryptoKey_loop c sequence k ok now = (c', o) ->
  (o = Fetches /\ fetching c = false /\ c' = set_fetching true c) \/
  (c' = c /\ (o = Waits \/ o = Returns (Err ErrClosed) \/ (ok = true /\ o = Returns (checkKey k sequence now)))).
Proof.
  unfold cryptoKey_loop. destruct ok; simpl.
  - destruct (closed c); intros [= <- <-]; auto 8.
  - destruct (fetching c) eqn:Hf, (closed c) eqn:Hc; simpl; intros [= <- <-]; auto 8.
Qed.

Lemma enter_spec c sequence clk c' o :
  cryptoKey_enter c sequence clk = (c', o) ->
  (o = Fetches /\ fetching c = false /\ c' = set_fetching true c) \/
  (c' = c /\ (o = Waits \/ o = Returns (Err ErrClosed) \/
              ((key c sequence (clk 0%nat)).2 = true /\
               o = Returns (checkKey (key c sequence (clk 0%nat)).1 sequence (clk 1%nat))))).
Proof.
  unfold cryptoKey_enter. destruct (closed c); [intros [= <- <-]; auto 8|].
  destruct (key c sequence (clk 0%nat)) as [k ok]. apply loop_spec.
Qed.

(** A part of a call that does not come from a fetch. *)
Lemma part_ok feature s id m sequence k c o :
  sys_ok feature s -> method_sequence feature m = Ok sequence -> ~ in_flight s id ->
  (o = Fetches /\ fetching (ca s) = false /\ c = set_fetching true (ca s)) \/ (c = ca s /\ o <> Fetches) ->
  sys_ok feature (after_part id m sequence k o (set_cache c s)).1.
Proof.
  intros Hs Hm Hid [(-> & Hf & ->)|[-> Ho]].
  - destruct (so_idle _ _ Hs Hf) as [Hr Hn]. split; simpl; try apply Hs; try (intros; lia).
    + intros i w Hw. destruct (decide (i = id)) as [->|]; [rewrite lookup_insert_eq in Hw; by injection Hw as <-|].
      rewrite lookup_insert_ne in Hw by done. by apply (so_calls _ _ Hs i).
    + assert (H1 : forall i, in_flight (set_call id (InFetch m sequence) (set_cache (set_fetching true (ca s)) s)) i -> i = id).
      { intros i (m' & q & Hi). simpl in Hi. destruct (decide (i = id)) as [|]; [done|].
        rewrite lookup_insert_ne in Hi by done. destruct (Hn i). by exists m', q. }
      intros i1 i2 ->%H1 ->%H1. done.
  - assert (Hfl : forall i, in_flight (after_part id m sequence k o (set_cache (ca s) s)).1 i -> in_flight s i).
    { intros i (m' & q & Hi). destruct o; simpl in Hi; [|destruct (decide (i = id)) as [->|]|done|by exists m', q].
      - apply lookup_delete_Some in Hi as [_ Hi]. by exists m', q.
      - by rewrite lookup_insert_eq in Hi.
      - rewrite lookup_insert_ne in Hi by done. by exists m', q. }
    assert (E : ca (after_part id m sequence k o (set_cache (ca s) s)).1 = ca s /\
                refreshing (after_part id m sequence k o (set_cache (ca s) s)).1 = refreshing s) by (by destruct o).
    destruct E as [E1 E2]. split; rewrite ?E1, ?E2; try apply Hs.
    + intros i w Hw. destruct o; simpl in Hw; [apply lookup_delete_Some in Hw as [_ Hw]|
        destruct (decide (i = id)) as [->|]; [rewrite lookup_insert_eq in Hw; by injection Hw as <-|
          rewrite lookup_insert_ne in Hw by done]|done|]; by apply (so_calls _ _ Hs i).
    + intros Hf. destruct (so_idle _ _ Hs Hf) as [? Hn]. split; [done|]. intros i Hi%Hfl. by apply (Hn i).
    + intros i1 i2 H1%Hfl H2%Hfl. by apply (so_one _ _ Hs).
    + intros Hr i Hi%Hfl. by apply (so_either _ _ Hs Hr i).
Qed.

Lemma wake_call_sequence w : call_sequence (wake_call w) = call_sequence w.
Proof. by destruct w. Qed.

(** The calls of [s'] are calls of [s], perhaps woken. *)
Definition sub_calls (s' s : System) : Prop :=
  forall id w, calls s' !! id = Some w -> exists w', calls s !! id = Some w' /\ (w = w' \/ w = wake_call w').

Lemma sub_calls_in_flight s' s id : sub_calls s' s -> in_flight s' id -> in_flight s id.
Proof.
  intros Hsub (m & q & Hi). destruct (Hsub _ _ Hi) as (w & Hw & [<-|E]); [by exists m, q|].
  destruct w; simplify_eq/=. by eexists _, _.
Qed.

Lemma sub_calls_same s' s : calls s' = calls s -> sub_calls s' s.
Proof. intros E id w Hw. rewrite E in Hw. exists w. auto. Qed.

Lemma sub_calls_broadcast s' s : sub_calls s' s -> sub_calls (broadcast s') s.
Proof.
  intros Hsub id w Hw. simpl in Hw. rewrite lookup_fmap in Hw.
  destruct (calls s' !! id) as [w'|] eqn:E; simplify_eq/=. destruct (Hsub _ _ E) as (w & Hw & [->| ->]); exists w; auto.
  split; [done|]. right. by destruct w.
Qed.

Lemma sub_calls_end id s' s : sub_calls s' s -> sub_calls (end_call id s') s.
Proof. intros Hsub i w Hw. simpl in Hw. apply lookup_delete_Some in Hw as [_ Hw]. by apply Hsub. Qed.

(** Steps that leave the fetches in flight as they are, or fewer. *)
Lemma sys_ok_sub feature s s' :
  sys_ok feature s -> sub_calls s' s -> held (keys (ca s')) -> c_feature (ca s') = feature ->
  (refreshing s' <= refreshing s)%nat ->
  (fetching (ca s') = false -> refreshing s' = 0%nat /\ forall id, ~ in_flight s' id) -> sys_ok feature s'.
Proof.
  intros Hs Hsub Hh Hf Hr Hi. pose proof (fun i => sub_calls_in_flight s' s i Hsub) as Hfl.
  split; [done|done| |done| | |].
  - intros id w Hw. destruct (Hsub _ _ Hw) as (w' & Hw' & [->| ->]); [|rewrite wake_call_sequence];
      by apply (so_calls _ _ Hs id).
  - intros i1 i2 H1%Hfl H2%Hfl. by apply (so_one _ _ Hs).
  - pose proof (so_refresh _ _ Hs). lia.
  - intros Hn i Hi'%Hfl. apply (so_either _ _ Hs) with i; [lia|done].
Qed.

Lemma cryptoKeys_held fetched now m : ok_fetch fetched -> cryptoKeys fetched now = Ok m -> held m.
Proof.
  intros Hf. unfold cryptoKeys. destruct fetched as [l|]; simpl; [|done].
  intros [= <-]. right. exists l, now. split; [by apply Hf|done].
Qed.

Lemma fetched_ok feature s id m sequence fetched clk c o :
  sys_ok feature s -> ok_fetch fetched -> calls s !! id = Some (InFetch m sequence) ->
  cryptoKey_fetched (ca s) sequence fetched clk = (c, o) ->
  sys_ok feature (after_part id m sequence sdk_zeroKey o
    (match o with UnlockOfUnlocked => set_cache c s | _ => broadcast (set_cache c s) end)).1.
Proof.
  intros Hs Hf Hid. unfold cryptoKey_fetched. destruct (cryptoKeys fetched (clk 0%nat)) as [mp|] eqn:E.
  2: { intros [= <- <-]. eapply sys_ok_sub; [exact Hs|by apply sub_calls_same|apply Hs..|done|apply Hs]. }
  assert (Hnone : forall i, ~ in_flight (end_call id (broadcast (set_cache (store_keys mp (clk 1%nat) (clk 2%nat) (ca s)) s))) i).
  { intros i Hi. assert (in_flight s i) as Hi'.
    { eapply sub_calls_in_flight; [|exact Hi]. by apply sub_calls_end, sub_calls_broadcast, sub_calls_same. }
    assert (i = id) as -> by (eapply (so_one _ _ Hs); [done|by exists m, sequence]).
    destruct Hi as (? & ? & Hi). simpl in Hi. by rewrite lookup_delete_eq in Hi. }
  assert (Hr : refreshing s = 0%nat).
  { destruct (decide (refreshing s = 0%nat)) as [|Hr]; [done|]. destruct (so_either _ _ Hs Hr id). by exists m, sequence. }
  assert (Hend : sys_ok feature (end_call id (broadcast (set_cache (store_keys mp (clk 1%nat) (clk 2%nat) (ca s)) s)))).
  { eapply sys_ok_sub; [exact Hs|by apply sub_calls_end, sub_calls_broadcast, sub_calls_same| |apply Hs|done|done].
    simpl. by eapply cryptoKeys_held. }
  cbv zeta. destruct (key _ _ _) as [k ok]. destruct ok; intros [= <- <-]; exact Hend.
Qed.

Lemma step_ok feature s e clk s' r :
  sys_ok feature s -> ok_event e -> step s e clk = Some (s', r) -> sys_ok feature s'.
Proof.
  intros Hs He. unfold step. destruct (crashed s); [done|]. destruct e as [id m|id|id fetched| | |fetched|].
  - destruct (calls s !! id) eqn:Hid; [done|]. rewrite (so_feature _ _ Hs).
    destruct (method_sequence feature m) as [sequence|] eqn:Hm; [|by intros [= <- <-]].
    destruct (cryptoKey_enter (ca s) sequence clk) as [c o] eqn:E. intros [= H].
    pose proof (part_ok feature s id m sequence (key (ca s) sequence (clk 0%nat)).1 c o Hs Hm) as Hp. rewrite H in Hp.
    apply Hp; [by intros (? & ? & Hi); rewrite Hid in Hi|].
    destruct (enter_spec _ _ _ _ _ E) as [|[-> [->|[->|[_ ->]]]]]; auto.
  - destruct (calls s !! id) as [[m sequence k [|]|]|] eqn:Hid; try done.
    destruct (cryptoKey_wake (ca s) sequence k (clk 0%nat)) as [c o] eqn:E. intros [= H].
    pose proof (part_ok feature s id m sequence k c o Hs (so_calls _ _ Hs id _ Hid)) as Hp. rewrite H in Hp.
    apply Hp; [by intros (? & ? & Hi); rewrite Hid in Hi|].
    destruct (loop_spec _ _ _ _ _ _ _ E) as [|[-> [->|[->|[? ->]]]]]; auto.
  - destruct (calls s !! id) as [[|m sequence]|] eqn:Hid; try done.
    destruct (cryptoKey_fetched (ca s) sequence fetched clk) as [c o] eqn:E. intros [= H].
    pose proof (fetched_ok feature s id m sequence fetched clk c o Hs He Hid E) as Hp. by rewrite H in Hp.
  - destruct (refresher (ca s)); [|done]. intros [= <- <-].
    eapply sys_ok_sub; [exact Hs|by apply sub_calls_same|apply Hs..|done|apply Hs].
  - destruct (started s); [done|]. destruct (refresh_enter (ca s) (clk 0%nat)) as [c go] eqn:E. intros [= <- <-].
    revert E. unfold refresh_enter.
    repeat (case_match; [by intros [= <- <-]; eapply sys_ok_sub; [exact Hs|by apply sub_calls_same|apply Hs..|done|apply Hs]|]).
    intros [= <- <-]. match goal with H : fetching (ca s) = false |- _ => destruct (so_idle _ _ Hs H) as [Hr Hn] end.
    split; simpl; try apply Hs; [done|rewrite Hr; lia|]. intros _. exact Hn.
  - destruct (refreshing s) as [|r'] eqn:Hr; [done|]. intros [= <- <-].
    pose proof (so_refresh _ _ Hs) as Hle. assert (r' = 0%nat) as -> by lia.
    assert (Hn : forall i, ~ in_flight s i) by (apply (so_either _ _ Hs); lia).
    unfold refresh_fetched. destruct (cryptoKeys fetched (clk 0%nat)) as [mp|] eqn:E.
    + eapply sys_ok_sub; [exact Hs|by apply sub_calls_broadcast, sub_calls_same|by eapply cryptoKeys_held|apply Hs|simpl; lia|].
      intros _. split; [done|]. intros i Hi. apply (Hn i). eapply sub_calls_in_flight; [|exact Hi].
      by apply sub_calls_broadcast, sub_calls_same.
    + eapply sys_ok_sub; [exact Hs|by apply sub_calls_same|apply Hs..|simpl; lia|].
      intros _. split; [done|]. exact Hn.
  - intros [= <- <-]. destruct (closed (ca s)) eqn:Hc; [done|]. unfold Close. rewrite Hc.
    eapply sys_ok_sub; [exact Hs|by apply sub_calls_broadcast, sub_calls_same|apply Hs|apply Hs|done|].
    intros Hf. destruct (so_idle _ _ Hs Hf) as [? Hn]. split; [done|]. intros i Hi. apply (Hn i).
    eapply sub_calls_in_flight; [|exact Hi]. by apply sub_calls_broadcast, sub_calls_same.
Qed.

Lemma cache_reachable_ok feature s : reachable feature s -> sys_ok feature s.
Proof.
  induction 1 as [clk fetched Hf|s e clk s' r _ IH He Hst]; [|by eapply step_ok].
  split; simpl; try done; try lia.
  - destruct (cryptoKeys fetched (clk 1%nat)) eqn:E; [by eapply cryptoKeys_held|by left].
  - intros _. split; [done|]. by intros i (? & ? & Hi).
  - by intros i1 i2 (? & ? & Hi).
Qed.

(** *** What calls return *)

Lemma key_checked c sequence now now' k id secret :
  held (keys c) -> key c sequence now = (k, true) -> checkKey k sequence now' = Ok (id, secret) ->
  exists l, fetchable l /\ k ∈ l /\ DecodeString (sk_Secret k) = Ok secret /\ id = FormatInt (sk_Sequence k) /\
    if sequence =? latestSequence then sdk_CanSign k now' = true
    else sk_Sequence k = sequence /\ sdk_CanVerify k now' = true.
Proof.
  intros Hh Hk Hc.
  assert (Hm : keys c !! sequence = Some k).
  { unfold key in Hk. destruct (Z.eqb_spec sequence latestSequence) as [->|_].
    - destruct (keys c !! latestSequence); [by injection Hk as -> _|]. discriminate Hk.
    - destruct (keys c !! sequence); [by injection Hk as ->|done]. }
  destruct (held_lookup _ _ _ Hh Hm) as (l & Hl & Hin & Hseq). exists l. split; [done|]. split; [done|].
  assert (Hid : forall b, (if negb b then Err ErrKeyInvalid else idSecret k) = Ok (id, secret) ->
    b = true /\ DecodeString (sk_Secret k) = Ok secret /\ id = FormatInt (sk_Sequence k)).
  { intros [] H; [|done]. split; [done|]. unfold idSecret in H. simpl in H.
    destruct (DecodeString (sk_Secret k)); by simplify_eq/=. }
  unfold checkKey in Hc. destruct (Z.eqb_spec sequence latestSequence) as [->|Hne].
  - by apply Hid in Hc as (? & ? & ?).
  - apply Hid in Hc as (? & ? & ?). split_and!; [done..|by apply Hseq|done].
Qed.

Lemma method_result_Ok m r id secret :
  method_result m r = Ok (id, secret) ->
  exists i, r = Ok (i, secret) /\ id = match m with EncryptingKey | SigningKey => Some i | _ => None end.
Proof. destruct m, r as [[i b]|]; simpl; intros; simplify_eq; by eexists. Qed.

(** The keys handed out are keys to be used.  Whatever calls, waits,
    fetches, refreshes and closing went before, in whatever order, when a method
    returns a secret it is the decoded secret of a key that the fetcher returned:
    for signing or encrypting, of one past its start and before its deletion,
    with its own number as the id; for verifying or decrypting, of the key with
    the requested number, before its deletion (the id -1 stands for the latest
    key there too). *)
Lemma handed_out_keys_valid feature s e clk s' id secret :
  reachable feature s -> ok_event e -> step s e clk = Some (s', Some (Ok (id, secret))) ->
  exists m, event_method s e = Some m /\ good_key feature m clk id secret.
Proof.
  intros Hs%cache_reachable_ok He. unfold step. destruct (crashed s); [done|].
  destruct e as [i m|i|i fetched| | |fetched|]; simpl.
  - destruct (calls s !! i); [done|]. rewrite (so_feature _ _ Hs).
    destruct (method_sequence feature m) as [sequence|] eqn:Hm; [|done].
    destruct (cryptoKey_enter (ca s) sequence clk) as [c o] eqn:E. exists m. split; [done|].
    destruct (enter_spec _ _ _ _ _ E) as [(-> & _)|(_ & [->|[->|[Hok ->]]])]; simplify_eq/=.
    + by destruct m.
    + match goal with H : method_result _ _ = _ |- _ => apply method_result_Ok in H as (j & Hc & ->) end.
      destruct (key (ca s) sequence (clk 0%nat)) as [k ok] eqn:Hk. simpl in Hok, Hc. subst ok.
      destruct (key_checked _ _ _ _ _ _ _ (so_held _ _ Hs) Hk Hc) as (l & Hl & Hin & Hd & -> & Hu).
      by exists l, k, 1%nat, sequence.
  - destruct (calls s !! i) as [[m sequence k [|]|]|] eqn:Hid; try done.
    destruct (cryptoKey_wake (ca s) sequence k (clk 0%nat)) as [c o] eqn:E. intros H.
    destruct (loop_spec _ _ _ _ _ _ _ E) as [(-> & _)|(_ & [->|[->|[Hok _]]])]; simplify_eq/=. by destruct m.
  - destruct (calls s !! i) as [[|m sequence]|] eqn:Hid; try done.
    destruct (cryptoKey_fetched (ca s) sequence fetched clk) as [c o] eqn:E. exists m. split; [done|].
    unfold cryptoKey_fetched in E. destruct (cryptoKeys fetched (clk 0%nat)) as [mp|] eqn:Hf; [|by simplify_eq/=].
    cbv zeta in E. remember (store_keys mp (clk 1%nat) (clk 2%nat) (ca s)) as c' eqn:Hc'.
    assert (Hh : held (keys c')) by (rewrite Hc'; by eapply cryptoKeys_held). clear Hc'.
    destruct (key c' sequence (clk 3%nat)) as [k ok] eqn:Hk. destruct ok; simplify_eq/=; [|by destruct m].
    match goal with H : method_result _ _ = _ |- _ => apply method_result_Ok in H as (j & Hc & ->) end.
    destruct (key_checked _ _ _ _ _ _ _ Hh Hk Hc) as (l & Hl & Hin & Hd & -> & Hu).
    exists l, k, 4%nat, sequence. pose proof (so_calls _ _ Hs i _ Hid) as Hm. by simpl in Hm.
  - by destruct (refresher (ca s)).
  - destruct (started s); [done|]. by destruct (refresh_enter (ca s) (clk 0%nat)).
  - destruct (refreshing s); [done|]. by destruct (cryptoKeys fetched (clk 0%nat)).
  - by destruct (closed (ca s)).
Qed.

(** *** After a failed refresh *)

(** [fetching] is set and nobody is fetching. *)
Record stuck (feature : string) (m : gmap Z sdk_CryptoKey) (s : System) : Prop := {
  st_feature : c_feature (ca s) = feature;
  st_keys : keys (ca s) = m;
  st_open : closed (ca s) = false;
  st_fetching : fetching (ca s) = true;
  st_calls : forall id, ~ in_flight s id;
  st_refresh : refreshing s = 0%nat;
}.

Lemma stuck_loop c sequence k now :
  fetching c = true -> closed c = false -> cryptoKey_loop c sequence k false now = (c, Waits).
Proof. intros Hf Hc. unfold cryptoKey_loop. by rewrite Hf, Hc. Qed.

(** A call of a stuck cache that finds its key returns; any other call waits. *)
Lemma stuck_enter feature m s sequence clk :
  stuck feature m s -> cryptoKey_enter (ca s) sequence clk =
    (ca s, if (key (ca s) sequence (clk 0%nat)).2
           then Returns (checkKey (key (ca s) sequence (clk 0%nat)).1 sequence (clk 1%nat)) else Waits).
Proof.
  intros Hs. unfold cryptoKey_enter. rewrite (st_open _ _ _ Hs). destruct (key _ _ _) as [k [|]]; simpl.
  - unfold cryptoKey_loop. by rewrite (st_open _ _ _ Hs).
  - by rewrite stuck_loop by apply Hs.
Qed.

Lemma stuck_calls feature m s s' :
  stuck feature m s -> ca s' = ca s -> refreshing s' = refreshing s -> (forall id, in_flight s' id -> in_flight s id) -> stuck feature m s'.
Proof.
  intros Hs Ec Er Hf. split; rewrite ?Ec, ?Er; try apply Hs. intros id Hid%Hf. by apply (st_calls _ _ _ Hs id).
Qed.

Lemma set_call_in_flight id m sequence k s i :
  in_flight (set_call id (InWait m sequence k false) s) i -> in_flight s i.
Proof.
  intros (m' & q & Hi). simpl in Hi. destruct (decide (i = id)) as [->|].
  - by rewrite lookup_insert_eq in Hi.
  - rewrite lookup_insert_ne in Hi by done. by exists m', q.
Qed.

Lemma end_call_in_flight id s i : in_flight (end_call id s) i -> in_flight s i.
Proof. intros (m' & q & Hi). simpl in Hi. apply lookup_delete_Some in Hi as [_ Hi]. by exists m', q. Qed.

Lemma stuck_step feature m s e clk s' r :
  stuck feature m s -> e <> EvClose -> step s e clk = Some (s', r) -> stuck feature m s'.
Proof.
  intros Hs He. unfold step. destruct (crashed s); [done|]. destruct e as [id x|id|id fetched| | |fetched|]; [..|done].
  - destruct (calls s !! id); [done|]. destruct (method_sequence _ x) as [sequence|]; [|by intros [= <- <-]].
    rewrite (stuck_enter _ m s sequence clk Hs). destruct (key _ _ _) as [k ok]; destruct ok; intros [= <- _];
      (eapply stuck_calls; [exact Hs|done|done|]); intros i Hi;
      [apply end_call_in_flight in Hi|apply set_call_in_flight in Hi]; exact Hi.
  - destruct (calls s !! id) as [[x sequence k [|]|]|]; try done. unfold cryptoKey_wake.
    rewrite stuck_loop by apply Hs. intros [= <- _]. eapply stuck_calls; [exact Hs|done|done|].
    intros i Hi. by apply set_call_in_flight in Hi.
  - destruct (calls s !! id) as [[|x sequence]|] eqn:Hid; try done.
    destruct (st_calls _ _ _ Hs id). by exists x, sequence.
  - destruct (refresher (ca s)); [|done]. intros [= <- _]. split; apply Hs.
  - destruct (started s); [done|]. unfold refresh_enter. rewrite (st_open _ _ _ Hs), (st_fetching _ _ _ Hs).
    intros [= <- _]. split; apply Hs.
  - by rewrite (st_refresh _ _ _ Hs).
Qed.

Lemma runs_stuck feature m s s' : stuck feature m s -> runs_open s s' -> stuck feature m s'.
Proof. intros Hs. induction 1 as [|s1 e clk s2 r _ IH He Hst]; [done|]. by eapply stuck_step. Qed.

(** A refresh whose fetch fails disables the cache.  It leaves [fetching]
    set with no fetch in flight, so from then on, whatever happens short of
    [Close], the keys stay as they were, the timer's later refreshes fetch
    nothing, a call that finds no usable key waits, and a waiting call that is
    woken waits again; the timer that was set last stays as it was. *)
Lemma failed_refresh_stuck feature s clk msg s1 r s' :
  reachable feature s -> closed (ca s) = false -> step s (EvRefreshed (Err msg)) clk = Some (s1, r) -> runs_open s1 s' ->
  keys (ca s') = keys (ca s) /\
  (forall clk' s2 r', step s' EvRefresh clk' = Some (s2, r') -> ca s2 = ca s' /\ refreshing s2 = 0%nat) /\
  (forall clk' id m sequence, crashed s' = false -> calls s' !! id = None ->
     method_sequence feature m = Ok sequence -> (key (ca s) sequence (clk' 0%nat)).2 = false ->
     exists s2 k, step s' (EvCall id m) clk' = Some (s2, None) /\ calls s2 !! id = Some (InWait m sequence k false)) /\
  (forall clk' id s2 r', step s' (EvWake id) clk' = Some (s2, r') ->
     r' = None /\ exists m sequence k, calls s2 !! id = Some (InWait m sequence k false)).
Proof.
  intros Hreach Hopen Hst Hruns. pose proof (cache_reachable_ok _ _ Hreach) as Hs.
  assert (Hstuck : stuck feature (keys (ca s)) s1).
  { revert Hst. unfold step. destruct (crashed s); [done|]. destruct (refreshing s) as [|n] eqn:Hr; [done|].
    simpl. intros [= <- _]. pose proof (so_refresh _ _ Hs).
    assert (Hf : fetching (ca s) = true).
    { destruct (fetching (ca s)) eqn:E; [done|]. destruct (so_idle _ _ Hs E). lia. }
    split; [apply Hs|done..| |simpl; lia]. apply (so_either _ _ Hs). lia. }
  pose proof (runs_stuck _ _ _ _ Hstuck Hruns) as Hs'.
  split; [apply Hs'|]. split; [|split].
  - intros clk' s2 r'. unfold step. destruct (crashed s'); [done|]. destruct (started s'); [done|].
    unfold refresh_enter. rewrite (st_open _ _ _ Hs'), (st_fetching _ _ _ Hs'). intros [= <- _]. split; [done|apply Hs'].
  - intros clk' id m sequence Hc Hid Hm Hk. unfold step. rewrite Hc, Hid.
    rewrite (st_feature _ _ _ Hs'), Hm, (stuck_enter _ _ _ sequence clk' Hs').
    assert (Ek : key (ca s') sequence (clk' 0%nat) = key (ca s) sequence (clk' 0%nat)).
    { unfold key. by rewrite (st_keys _ _ _ Hs'). }
    rewrite Ek, Hk. simpl. eexists _, _. split; [done|]. simpl. apply lookup_insert_eq.
  - intros clk' id s2 r'. unfold step. destruct (crashed s'); [done|].
    destruct (calls s' !! id) as [[m sequence k [|]|]|]; try done. unfold cryptoKey_wake.
    rewrite stuck_loop by apply Hs'. intros [= <- <-]. split; [done|]. eexists _, _, _. simpl. apply lookup_insert_eq.
Qed.
End Runs.

(** ** The latest key *)

Lemma seq_order_total i j : seq_order i j \/ seq_order j i.
Proof. unfold seq_order, wraps. Z.to_euclidean_division_equations. lia. Qed.

Lemma seq_order_bounded i j :
  1 <= ck_Sequence i < 2 ^ 31 -> 1 <= ck_Sequence j < 2 ^ 31 -> seq_order i j -> ck_Sequence j <= ck_Sequence i.
Proof. intros Hi Hj. unfold seq_order. rewrite wraps_id by lia. lia. Qed.

Definition descending (l : list sdk_CryptoKey) : Prop :=
  StronglySorted (fun x y => sk_Sequence y <= sk_Sequence x) l.

(** The database's order: the highest sequence first. *)
Lemma Fetch_descending feature d l :
  keys_ok 0 (CryptoKeys.cryptoKeys d) -> Fetch feature d = Ok l ->
  descending l /\ forall k, k ∈ l -> 1 <= sk_Sequence k < 2 ^ 31.
Proof.
  intros [_ Hseq _] [= <-]. unfold toSDKKeys, GetCryptoKeysByFeature.
  set (fl := List.filter _ _). rewrite Forall_forall in Hseq.
  assert (Hb : forall k, k ∈ merge_sort seq_order fl -> 1 <= ck_Sequence k < 2 ^ 31).
  { intros k Hk. rewrite merge_sort_Permutation in Hk. unfold fl in Hk. rewrite list_elem_of_In, filter_In in Hk.
    destruct Hk as [Hk _]. apply list_elem_of_In, Hseq in Hk. lia. }
  assert (Hs : Sorted seq_order (merge_sort seq_order fl)).
  { apply Sorted_merge_sort. intros i j. apply seq_order_total. }
  split.
  - apply Sorted_StronglySorted; [intros x y z ? ?; lia|]. revert Hb Hs. generalize (merge_sort seq_order fl).
    intros l0 Hb. induction 1 as [|x l0 _ IH Hhd]; [constructor|]. rewrite fmap_cons. constructor.
    + apply IH. intros k Hk. apply Hb. by right.
    + destruct Hhd as [|y l0 Hxy]; [constructor|]. rewrite fmap_cons. constructor. simpl.
      apply seq_order_bounded; [apply Hb; left|apply Hb; right; left|done].
  - intros k (x & -> & Hx)%list_elem_of_fmap. by apply Hb.
Qed.

(** The entry for the latest key: the last key of the list that can sign. *)
Lemma key_map_loop_latest l now m :
  descending l -> (forall k, k ∈ l -> 1 <= sk_Sequence k) ->
  (key_map_loop sdk_zeroKey l now m !! latestSequence = m !! latestSequence /\
     forall k, k ∈ l -> sdk_CanSign k now = false) \/
  exists k0, key_map_loop sdk_zeroKey l now m !! latestSequence = Some k0 /\ k0 ∈ l /\ sdk_CanSign k0 now = true /\
    forall k, k ∈ l -> sdk_CanSign k now = true -> sk_Sequence k0 <= sk_Sequence k.
Proof.
  intros Hd. revert m. induction Hd as [|x l Hd IH Hx]; intros m Hl; simpl; [left; set_solver|].
  rewrite Forall_forall in Hx. pose proof (Hl x ltac:(left)) as H1. replace (0 <? sk_Sequence x) with true by lia. simpl.
  set (m' := if sdk_CanSign x now then _ else _).
  destruct (IH m') as [[E Hno]|(k0 & E & Hin & Hs & Hmin)]; [intros k Hk; apply Hl; by right| |].
  - rewrite E. unfold m'. destruct (sdk_CanSign x now) eqn:Hc.
    + right. exists x. rewrite lookup_insert_eq. split; [done|]. split; [left|]. split; [done|].
      intros k [->|Hk]%elem_of_cons Hkc; [lia|]. by rewrite Hno in Hkc.
    + left. rewrite lookup_insert_ne by (unfold latestSequence; lia). split; [done|].
      intros k [->|Hk]%elem_of_cons; [done|auto].
  - right. exists k0. split; [done|]. split; [by right|]. split; [done|].
    intros k [->|Hk]%elem_of_cons Hkc; [by apply Hx|auto].
Qed.

(** The key kept as the latest is the oldest one that can sign.  With the
    keys of a feature as the database returns them, highest sequence first, the
    entry under which signing and encrypting look is, as soon as any key can
    sign, one that can sign with the lowest sequence number. *)
Lemma latest_key_is_oldest feature d l now k :
  keys_ok 0 (CryptoKeys.cryptoKeys d) -> Fetch feature d = Ok l -> k ∈ l -> sdk_CanSign k now = true ->
  exists k0, toKeyMap l now !! latestSequence = Some k0 /\ k0 ∈ l /\ sdk_CanSign k0 now = true /\
    sk_Sequence k0 <= sk_Sequence k.
Proof.
  intros Hok Hf Hk Hs. destruct (Fetch_descending _ _ _ Hok Hf) as [Hd Hl].
  destruct (key_map_loop_latest l now ∅ Hd) as [[_ Hno]|(k0 & ? & ? & ? & Hmin)].
  - intros x Hx. by apply Hl.
  - by rewrite Hno in Hs.
  - exists k0. auto.
Qed.

(** ** Runs *)

Module Examples.

Definition hour (n : Z) : Time := mkTime (n * Hour) UTC.

(** Two keys of the OIDC feature that can both sign; the first is to be deleted. *)
Definition old_key : CryptoKey :=
  mkKey CryptoKeyFeatureOIDCConvert 1 (mkNullString "0a" true) noString (hour 1) (mkNullTime (hour 50) true).
Definition new_key : CryptoKey :=
  mkKey CryptoKeyFeatureOIDCConvert 2 (mkNullString "0b" true) noString (hour 40) noTime.
Definition two_keys : KeyStore := mkKeyStore [old_key; new_key] ∅ 0.
Definition fetched : list sdk_CryptoKey := [toSDK new_key; toSDK old_key].

Definition at_ (n : Z) : nat -> Time := fun _ => hour n.
Definition two_key_cache : cache := newCache CryptoKeyFeatureOIDCConvert (at_ 45) (Ok fetched).
Definition from_two_keys (l : list sdk_CryptoKey) : Prop := l = fetched.

Lemma from_two_keys_seq l k : from_two_keys l -> k ∈ l -> 1 <= sk_Sequence k < 2 ^ 31.
Proof. intros ->. unfold fetched. rewrite !elem_of_cons, elem_of_nil. intros [->|[->|[]]]; by vm_compute. Qed.

Definition verify : Request := VerifyingKey "2".

(** The system, and then one in which a refresh is fetching. *)
Definition start : System := newSystem two_key_cache.
Definition after (s : System) (e : event) (n : Z) : System :=
  match step s e (at_ n) with Some (s', _) => s' | None => s end.
Definition one_refresh : System := after (after start EvTimer 46) EvRefresh 46.

Lemma start_reachable : reachable from_two_keys CryptoKeyFeatureOIDCConvert start.
Proof. apply reach_new. intros l [= <-]. done. Qed.

Lemma after_reachable s e n :
  reachable from_two_keys CryptoKeyFeatureOIDCConvert s -> ok_event from_two_keys e ->
  is_Some (step s e (at_ n)) -> reachable from_two_keys CryptoKeyFeatureOIDCConvert (after s e n).
Proof.
  intros Hs He. unfold after. destruct (step s e (at_ n)) as [[s' r]|] eqn:E; [|by intros []]. intros _.
  by eapply reach_step.
Qed.

Lemma one_refresh_reachable : reachable from_two_keys CryptoKeyFeatureOIDCConvert one_refresh.
Proof. apply after_reachable; [apply after_reachable; [apply start_reachable|done|]|done|]; by eexists. Qed.
End Examples.

Lemma handed_out_keys_valid_witness :
  exists m, event_method Examples.start (EvCall 1 Examples.verify) = Some m /\
    good_key Examples.from_two_keys CryptoKeyFeatureOIDCConvert m (Examples.at_ 45) None [x0b].
Proof.
  destruct (step Examples.start (EvCall 1 Examples.verify) (Examples.at_ 45)) as [[s' r]|] eqn:E;
    [|vm_compute in E; discriminate E].
  assert (Er : r = Some (Ok (None, [x0b]))).
  { assert (H : snd <$> step Examples.start (EvCall 1 Examples.verify) (Examples.at_ 45) = Some (Some (Ok (None, [x0b]))))
      by (by vm_compute). rewrite E in H. by injection H. }
  rewrite Er in E.
  exact (handed_out_keys_valid Examples.from_two_keys Examples.from_two_keys_seq CryptoKeyFeatureOIDCConvert
    Examples.start (EvCall 1 Examples.verify) (Examples.at_ 45) s' None [x0b] Examples.start_reachable I E).
Defined.

Lemma failed_refresh_stuck_witness :
  exists s1 r, step Examples.one_refresh (EvRefreshed (Err "no connection")) (Examples.at_ 46) = Some (s1, r) /\
    keys (ca s1) = keys (ca Examples.one_refresh).
Proof.
  destruct (step Examples.one_refresh (EvRefreshed (Err "no connection")) (Examples.at_ 46)) as [[s1 r]|] eqn:E;
    [|vm_compute in E; discriminate E].
  exists s1, r. split; [reflexivity|].
  exact (proj1 (failed_refresh_stuck Examples.from_two_keys CryptoKeyFeatureOIDCConvert
    Examples.one_refresh (Examples.at_ 46) "no connection" s1 r s1 Examples.one_refresh_reachable eq_refl E (runs_refl s1))).
Defined.

Lemma latest_key_is_oldest_witness :
  exists k0, toKeyMap Examples.fetched (Examples.hour 45) !! latestSequence = Some k0 /\ sk_Sequence k0 < 2 /\
    sdk_CanSign (toSDK Examples.new_key) (Examples.hour 45) = true.
Proof.
  destruct (latest_key_is_oldest CryptoKeyFeatureOIDCConvert Examples.two_keys Examples.fetched (Examples.hour 45)
    (toSDK Examples.old_key)) as (k0 & E & _ & _ & Hle).
  - split; [|by repeat constructor; vm_compute|by repeat constructor].
    apply NoDup_cons. split; [|apply NoDup_singleton]. intros H%list_elem_of_singleton. discriminate H.
  - by vm_compute.
  - right. left.
  - by vm_compute.
  - exists k0. split; [exact E|]. simpl in Hle. split; [lia|by vm_compute].
Defined.
