(* ===== verification/MsgQueue.v ===== *)
(** * The queue of a subscriber: [msgQueue] of [wirtuald/database/pubsub/pubsub.go]

    A ring of [BufferSize] entries between the listener of the database and a
    subscriber.  When it is full its last entry becomes an error, which tells the
    subscriber that messages were dropped. *)

From Stdlib Require Import Strings.Byte.
From S2P Require Import Prelude.
Local Open Scope nat_scope.

Definition BufferSize : nat := 2048.
Definition ErrDroppedMessages : string := "dropped messages".

Record msgOrErr := mkMsgOrErr { me_msg : list byte; me_err : option string }.
Definition zero_entry : msgOrErr := mkMsgOrErr [] None.

(** A subscriber's function takes messages only, or errors also. *)
Inductive Subscriber := Listener | ListenerWithErr.

Record msgQueue := mkMsgQueue {
  mq_q : list msgOrErr;                    (* of length BufferSize *)
  mq_front : nat;
  mq_size : nat;
  mq_closed : bool;
  mq_subscriber : Subscriber;
}.

Definition newMsgQueue (subscriber : Subscriber) : msgQueue :=
  mkMsgQueue (replicate BufferSize zero_entry) 0 0 false subscriber.

(** Putting an entry at the back, or the error over the last entry. *)
Definition put_entry (x : msgOrErr) (q : msgQueue) : msgQueue :=
  if Nat.eqb (mq_size q) BufferSize then
    let back := (mq_front q + BufferSize - 1) mod BufferSize in
    q{{ mq_q := <[back := mkMsgOrErr [] (Some ErrDroppedMessages)]> (mq_q q) }}
  else
    let next := (mq_front q + mq_size q) mod BufferSize in
    q{{ mq_q := <[next := x]> (mq_q q); mq_size := S (mq_size q) }}.

Definition enqueue (msg : list byte) : msgQueue -> msgQueue := put_entry (mkMsgOrErr msg None).
Definition dropped : msgQueue -> msgQueue := put_entry (mkMsgOrErr [] (Some ErrDroppedMessages)).
Definition close (q : msgQueue) : msgQueue := q{{ mq_closed := true }}.

(** What an iteration of [run] does under the lock: it waits, returns, or takes an entry. *)
Inductive Turn := Wait | Return | Take (item : msgOrErr) (q : msgQueue).

Definition run (q : msgQueue) : Turn :=
  if mq_closed q then Return
  else if Nat.eqb (mq_size q) 0 then Wait
  else Take (default zero_entry (mq_q q !! mq_front q))
         (q{{ mq_front := (mq_front q + 1) mod BufferSize; mq_size := mq_size q - 1 }}).

(** The calls of the subscriber's function, without the lock. *)
Definition process (s : Subscriber) (item : msgOrErr) : list msgOrErr :=
  match me_err item, s with
  | Some _, Listener => []
  | _, _ => [item]
  end.

(** * Theorems *)

(** ** The queue as a list of at most [BufferSize] entries *)

Definition dropped_entry : msgOrErr := mkMsgOrErr [] (Some ErrDroppedMessages).
Definition message (msg : list byte) : msgOrErr := mkMsgOrErr msg None.

(** The entries from the front. *)
Definition contents (q : msgQueue) : list msgOrErr :=
  (fun i => default zero_entry (mq_q q !! ((mq_front q + i) mod BufferSize))) <$> seq 0 (mq_size q).

Record queue_ok (q : msgQueue) : Prop := {
  qo_length : length (mq_q q) = BufferSize;
  qo_front : mq_front q < BufferSize;
  qo_size : mq_size q <= BufferSize;
}.

(** What putting an entry means on the list. *)
Definition put_spec (x : msgOrErr) (l : list msgOrErr) : list msgOrErr :=
  if Nat.eqb (length l) BufferSize then firstn (BufferSize - 1) l ++ [dropped_entry] else l ++ [x].

Lemma BufferSize_pos : 0 < BufferSize.
Proof. unfold BufferSize. lia. Qed.
Local Opaque BufferSize.

Lemma contents_length q : length (contents q) = mq_size q.
Proof. unfold contents. by rewrite length_fmap, length_seq. Qed.

Lemma contents_lookup q i : i < mq_size q ->
  contents q !! i = Some (default zero_entry (mq_q q !! ((mq_front q + i) mod BufferSize))).
Proof. intros Hi. unfold contents. rewrite list_lookup_fmap, lookup_seq_lt by done. done. Qed.

Lemma ring_inj f i j : f < BufferSize -> i < BufferSize -> j < BufferSize ->
  (f + i) mod BufferSize = (f + j) mod BufferSize -> i = j.
Proof.
  intros Hf Hi Hj. pose proof BufferSize_pos.
  assert (Hm : forall k, k < BufferSize -> (f + k) mod BufferSize = if f + k <? BufferSize then f + k else f + k - BufferSize).
  { intros k Hk. destruct (Nat.ltb_spec (f + k) BufferSize); [by apply Nat.mod_small|].
    replace (f + k) with (f + k - BufferSize + 1 * BufferSize) at 1 by lia. rewrite Nat.Div0.mod_add. apply Nat.mod_small. lia. }
  rewrite !Hm by done. repeat case_match; lia.
Qed.

(** Writing the entry at a place from the front. *)
Lemma write_entry q k x i : queue_ok q -> k < BufferSize -> i < BufferSize ->
  default zero_entry (<[(mq_front q + k) mod BufferSize := x]> (mq_q q) !! ((mq_front q + i) mod BufferSize)) =
  if Nat.eqb i k then x else default zero_entry (mq_q q !! ((mq_front q + i) mod BufferSize)).
Proof.
  intros [Hl Hf Hs] Hk Hi. pose proof BufferSize_pos. destruct (Nat.eqb_spec i k) as [->|Hne].
  - rewrite list_lookup_insert_eq; [done|]. rewrite Hl. by apply Nat.mod_upper_bound; lia.
  - rewrite list_lookup_insert_ne; [done|]. intros E. apply Hne. symmetry. by apply (ring_inj (mq_front q)).
Qed.

Lemma put_refines x q : queue_ok q -> queue_ok (put_entry x q) /\ contents (put_entry x q) = put_spec x (contents q).
Proof.
  intros Hq. pose proof Hq as [Hl Hf Hs]. pose proof BufferSize_pos as Hpos. unfold put_entry, put_spec. rewrite contents_length.
  destruct (Nat.eqb_spec (mq_size q) BufferSize) as [E|E].
  - replace (mq_front q + BufferSize - 1) with (mq_front q + (BufferSize - 1)) by lia. set (q' := _{{mq_q := _}}).
    split; [split; simpl; [by rewrite length_insert|done|done]|]. apply list_eq. intros i.
    destruct (Nat.lt_ge_cases i BufferSize) as [Hi|Hi].
    + rewrite contents_lookup by (change (mq_size q') with (mq_size q); lia). change (mq_q q') with (<[(mq_front q + (BufferSize - 1)) mod BufferSize := dropped_entry]> (mq_q q)).
      change (mq_front q') with (mq_front q). rewrite write_entry by (done || lia).
      destruct (Nat.eqb_spec i (BufferSize - 1)) as [->|Hne].
      * rewrite lookup_app_r; rewrite length_firstn, contents_length; [|lia]. by replace (_ - _) with 0 by lia.
      * rewrite lookup_app_l by (rewrite length_firstn, contents_length; lia). rewrite lookup_take_lt by lia. by rewrite contents_lookup by lia.
    + rewrite !lookup_ge_None_2; [done| |]; rewrite ?length_app, ?length_firstn, contents_length; try change (mq_size q') with (mq_size q); simpl; lia.
  - set (q' := _{{mq_q := _; mq_size := _}}).
    split; [split; simpl; [by rewrite length_insert|done|lia]|]. apply list_eq. intros i.
    destruct (Nat.lt_ge_cases i (S (mq_size q))) as [Hi|Hi].
    + rewrite contents_lookup by (change (mq_size q') with (S (mq_size q)); lia). change (mq_q q') with (<[(mq_front q + mq_size q) mod BufferSize := x]> (mq_q q)).
      change (mq_front q') with (mq_front q). rewrite write_entry by (done || lia).
      destruct (Nat.eqb_spec i (mq_size q)) as [->|Hne].
      * rewrite lookup_app_r; rewrite contents_length; [|lia]. by rewrite Nat.sub_diag.
      * rewrite lookup_app_l by (rewrite contents_length; lia). by rewrite contents_lookup by lia.
    + rewrite !lookup_ge_None_2; [done| |]; rewrite ?length_app, ?contents_length; try change (mq_size q') with (S (mq_size q)); simpl; lia.
Qed.

Lemma take_refines q : queue_ok q -> mq_closed q = false ->
  match contents q with
  | [] => run q = Wait
  | x :: l => exists q', run q = Take x q' /\ queue_ok q' /\ contents q' = l
  end.
Proof.
  intros [Hl Hf Hs] Hc. pose proof BufferSize_pos as Hpos. unfold run. rewrite Hc.
  destruct (contents q) as [|x l] eqn:E.
  - apply (f_equal length) in E. rewrite contents_length in E. simpl in E. by rewrite E.
  - assert (Hsz : mq_size q = S (length l)) by (rewrite <- contents_length, E; done).
    replace (mq_size q =? 0) with false by lia. eexists. split; [f_equal|].
    + apply (f_equal (fun l => l !! 0)) in E. rewrite contents_lookup in E by lia. rewrite Nat.add_0_r, Nat.mod_small in E by done. by injection E.
    + set (q' := _{{mq_front := _; mq_size := _}}). split.
      * split; [done|change ((mq_front q + 1) mod BufferSize < BufferSize); apply Nat.mod_upper_bound; lia|change (mq_size q - 1 <= BufferSize); lia].
      * apply list_eq. intros i. apply (f_equal (fun l => l !! S i)) in E. simpl in E. rewrite <- E.
        destruct (Nat.lt_ge_cases i (length l)) as [Hi|Hi].
        -- rewrite !contents_lookup by (try change (mq_size q') with (mq_size q - 1); lia).
           change (mq_q q') with (mq_q q). change (mq_front q') with ((mq_front q + 1) mod BufferSize). do 3 f_equal. rewrite Nat.Div0.add_mod_idemp_l. f_equal. lia.
        -- rewrite !lookup_ge_None_2; [done| |]; rewrite contents_length; try change (mq_size q') with (mq_size q - 1); lia.
Qed.

(** The ring is a queue.  It starts empty; enqueuing and recording a drop put an
    entry at the end of the list of entries, or, when it has [BufferSize] of them,
    the error in place of the last; a turn of [run] takes the first entry, waits
    exactly when there is none, and returns when the queue was closed. *)
Lemma msgQueue_refines s q msg :
  queue_ok (newMsgQueue s) /\ contents (newMsgQueue s) = [] /\
  (queue_ok q ->
   (queue_ok (enqueue msg q) /\ contents (enqueue msg q) = put_spec (message msg) (contents q)) /\
   (queue_ok (dropped q) /\ contents (dropped q) = put_spec dropped_entry (contents q)) /\
   (queue_ok (close q) /\ contents (close q) = contents q /\ run (close q) = Return) /\
   (mq_closed q = false ->
    match contents q with
    | [] => run q = Wait
    | x :: l => exists q', run q = Take x q' /\ queue_ok q' /\ contents q' = l
    end)).
Proof.
  split; [split; simpl; [by rewrite length_replicate|apply BufferSize_pos|lia]|]. split; [done|]. intros Hq.
  split; [by apply put_refines|]. split; [by apply put_refines|]. split; [|by apply take_refines].
  split; [destruct Hq; by split|done].
Qed.

(** ** No message is lost silently *)

(** The entries that account for the messages sent: each message is there, in
    order, or it belongs to a run of messages with an error in their place. *)
Inductive accounted : list (list byte) -> list msgOrErr -> Prop :=
| acc_none : accounted [] []
| acc_message sent out msg : accounted sent out -> accounted (sent ++ [msg]) (out ++ [message msg])
| acc_lost sent out lost : accounted sent out -> accounted (sent ++ lost) (out ++ [dropped_entry]).

(** The last entry can be replaced by the error when one more message is lost. *)
Lemma accounted_replace sent out x lost : accounted sent (out ++ [x]) -> accounted (sent ++ lost) (out ++ [dropped_entry]).
Proof.
  intros Ha. inversion Ha as [E|sent' out' msg Ha' E1 E2|sent' out' lost' Ha' E1 E2].
  - by destruct out.
  - apply app_inj_tail in E2 as [-> _]. rewrite <- app_assoc. by apply acc_lost.
  - apply app_inj_tail in E2 as [-> _]. rewrite <- app_assoc. by apply acc_lost.
Qed.

(** The life of a queue: what was sent to the subscriber, what [run] took to call
    the subscriber's function with, and the queue. *)
Record Life := mkLife { sent : list (list byte); taken : list msgOrErr; queue : msgQueue }.

(** The queue's methods, each under its lock, in any order.  [dropped] is called
    when the database connection was lost, with any messages. *)
Inductive life_step : Life -> Life -> Prop :=
| life_enqueue msg l : life_step l (mkLife (sent l ++ [msg]) (taken l) (enqueue msg (queue l)))
| life_dropped lost l : life_step l (mkLife (sent l ++ lost) (taken l) (dropped (queue l)))
| life_close l : life_step l (mkLife (sent l) (taken l) (close (queue l)))
| life_run item q' l : run (queue l) = Take item q' -> life_step l (mkLife (sent l) (taken l ++ [item]) q').

Definition life_ok (l : Life) : Prop := queue_ok (queue l) /\ accounted (sent l) (taken l ++ contents (queue l)).

Lemma put_accounted x lost sent out q :
  queue_ok q -> accounted sent (out ++ contents q) -> accounted (sent ++ lost) (out ++ contents q ++ [x]) ->
  accounted (sent ++ lost) (out ++ put_spec x (contents q)).
Proof.
  intros Hq Ha Hx. unfold put_spec. destruct (Nat.eqb_spec (length (contents q)) BufferSize) as [E|E]; [|done].
  pose proof BufferSize_pos. destruct (contents q) as [|y l _] using rev_ind; [simpl in E; lia|].
  rewrite length_app in E. simpl in E. rewrite take_app_le, firstn_all2 by lia. rewrite app_assoc in Ha |- *. by eapply accounted_replace.
Qed.

Lemma life_step_ok l l' : life_step l l' -> life_ok l -> life_ok l'.
Proof.
  intros Hstep [Hq Ha]. destruct Hstep as [msg l|lost l|l|item q' l Hr]; unfold life_ok; cbn [queue sent taken] in *.
  - destruct (put_refines (message msg) (queue l) Hq) as [Hq' E]. split; [exact Hq'|]. unfold enqueue. fold (message msg). rewrite E.
    apply put_accounted; [done|done|]. rewrite app_assoc. by apply acc_message.
  - destruct (put_refines dropped_entry (queue l) Hq) as [Hq' E]. split; [exact Hq'|]. unfold dropped. fold dropped_entry. rewrite E.
    apply put_accounted; [done|done|]. rewrite app_assoc. by apply acc_lost.
  - split; [destruct Hq; by split|exact Ha].
  - assert (Hc : mq_closed (queue l) = false) by (unfold run in Hr; by destruct (mq_closed (queue l))).
    pose proof (take_refines (queue l) Hq Hc) as Ht. destruct (contents (queue l)) as [|x rest]; [congruence|].
    destruct Ht as (q1 & E & Hq1 & Hc1). rewrite E in Hr. injection Hr as -> ->. split; [done|]. by rewrite Hc1, <- app_assoc.
Qed.

(** No message is lost silently.  However the queue's methods interleave, what a
    subscriber that takes errors was called with, and then the entries that wait,
    account for every message that was sent: each is delivered once and in order,
    or it is one of a run of messages that an error stands for. *)
Lemma no_silent_loss s l :
  rtc life_step (mkLife [] [] (newMsgQueue s)) l ->
  accounted (sent l) (flat_map (process ListenerWithErr) (taken l) ++ contents (queue l)).
Proof.
  intros Hr. replace (flat_map _ (taken l)) with (taken l).
  2: { induction (taken l) as [|x t IH]; simpl; [done|]. rewrite <- IH. unfold process. by destruct (me_err x). }
  assert (Hok : life_ok (mkLife [] [] (newMsgQueue s))).
  { split; [split; simpl; [by rewrite length_replicate|apply BufferSize_pos|lia]|constructor]. }
  enough (life_ok l) as [_ ?] by done. induction Hr as [|l1 l2 l3 Hs _ IH]; [done|]. by apply IH, (life_step_ok l1).
Qed.

Module Examples.
Definition one_sent : Life := mkLife [[x61]] [] (enqueue [x61] (newMsgQueue ListenerWithErr)).
Lemma one_sent_reachable : rtc life_step (mkLife [] [] (newMsgQueue ListenerWithErr)) one_sent.
Proof. eapply rtc_l; [apply (life_enqueue [x61])|]. apply rtc_refl. Qed.
End Examples.

Lemma msgQueue_refines_witness : contents (enqueue [x61] (newMsgQueue Listener)) = put_spec (message [x61]) [].
Proof.
  destruct (msgQueue_refines Listener (newMsgQueue Listener) [x61]) as (Hq & Hc & Hops).
  destruct (Hops Hq) as [[_ E] _]. rewrite E, Hc. reflexivity.
Defined.

Lemma no_silent_loss_witness : accounted [[x61]] [message [x61]].
Proof. exact (no_silent_loss ListenerWithErr Examples.one_sent Examples.one_sent_reachable). Defined.
