(* ===== verification/Pubsub.v ===== *)
(** * The publish-subscribe system: [PGPubsub] of [wirtuald/database/pubsub/pubsub.go]

    Subscriptions to events share the database's listener, which listens to an
    event while some subscription needs it.  [subscribeQueue] and the functions
    it returns for cancelling run concurrently: each step below is what one of
    them does while it holds the mutex, or one call of the database's listener,
    and steps of different subscriptions interleave.  The listener is
    third-party code: [Listen] opens a channel, reports one that is already open,
    or fails; [Unlisten] closes it, or fails. *)

From Stdlib Require Import Strings.Byte.
From S2P Require Import Prelude MsgQueue.
Local Open Scope nat_scope.

(** The set of the queues of an event, on the heap; the channel that is closed when
    the cancellation that stops listening has done so. *)
Record queueSet := mkQueueSet { qs_m : gset nat; qs_unlistenInProgress : option nat }.

(** Where a subscription is in [subscribeQueue] or in its cancellation. *)
Inductive Phase :=
| Registered (qs : nat) (unlistenInProgress : option nat)    (* it has to wait for the channel *)
| Waited (qs : nat)                                          (* it calls [Listen] next *)
| ListenFailed (qs : nat)                                    (* the deferred functions run next *)
| Failed
| Active                                                     (* [subscribeQueue] has returned *)
| Unlistening (ch : nat)                                     (* the cancellation calls [Unlisten] next *)
| Unlistened (ch : nat)                                      (* it closes the channel next *)
| Cleaning                                                   (* it removes the set next *)
| Canceled.

Record Subscription := mkSubscription { sub_event : string; sub_phase : Phase; sub_queue : msgQueue }.

Record PGPubsub := mkPubsub {
  queues : gmap string nat;                (* by event, the set's address *)
  sets : gmap nat queueSet;                (* the heap *)
  closed_channels : gset nat;
  next : nat;                              (* the next address or channel *)
  subs : gmap nat Subscription;            (* by the address of their queue *)
  listening : gset string;                 (* the channels open at the database *)
}.

Definition newPubsub : PGPubsub := mkPubsub ∅ ∅ ∅ 0 ∅ ∅.

Definition enter_phase (id : nat) (sub : Subscription) (ph : Phase) (p : PGPubsub) : PGPubsub :=
  p{{ subs := <[id := sub{{ sub_phase := ph }}]> (subs p) }}.

Inductive PubsubStep :=
| Subscribe (id : nat) (event : string) (s : Subscriber)
| Wait (id : nat)
| Listen (id : nat) (ok : bool)
| Undo (id : nat)
| Cancel (id : nat)
| Unlisten (id : nat) (ok : bool)
| CloseChannel (id : nat)
| Cleanup (id : nat)
| Notify (event : string) (msg : list byte)
| Reconnect.

(** The start of [subscribeQueue], up to the mutex's release. *)
Definition subscribe (id : nat) (event : string) (s : Subscriber) (p : PGPubsub) : PGPubsub :=
  let '(qs, p) := match queues p !! event with
                  | Some qs => (qs, p)
                  | None => (next p, p{{ queues := <[event := next p]> (queues p);
                                         sets := <[next p := mkQueueSet ∅ None]> (sets p); next := S (next p) }})
                  end in
  let set := default (mkQueueSet ∅ None) (sets p !! qs) in
  p{{ sets := <[qs := set{{ qs_m := {[id]} ∪ qs_m set }}]> (sets p);
      subs := <[id := mkSubscription event (Registered qs (qs_unlistenInProgress set)) (newMsgQueue s)]> (subs p) }}.

(** Removing a queue from its set. *)
Definition leave (id qs : nat) (p : PGPubsub) : PGPubsub :=
  match sets p !! qs with
  | Some set => p{{ sets := <[qs := set{{ qs_m := qs_m set ∖ {[id]} }}]> (sets p) }}
  | None => p
  end.
Definition empty_set (qs : nat) (p : PGPubsub) : bool :=
  match sets p !! qs with Some set => bool_decide (qs_m set = ∅) | None => true end.

(** The deferred functions after an error of [Listen]. *)
Definition undo (id qs : nat) (sub : Subscription) (p : PGPubsub) : PGPubsub :=
  let p := leave id qs p in
  let p := if empty_set qs p then p{{ queues := delete (sub_event sub) (queues p) }} else p in
  p{{ subs := <[id := sub{{ sub_phase := Failed; sub_queue := close (sub_queue sub) }}]> (subs p) }}.

(** The start of a cancellation, up to the mutex's release. *)
Definition cancel_start (id : nat) (sub : Subscription) (p : PGPubsub) : PGPubsub :=
  let sub := sub{{ sub_queue := close (sub_queue sub) }} in
  match queues p !! sub_event sub with
  | None => enter_phase id sub Canceled p
  | Some qs =>
      let p := leave id qs p in
      if empty_set qs p then
        let ch := next p in
        let set := default (mkQueueSet ∅ None) (sets p !! qs) in
        enter_phase id sub (Unlistening ch)
          (p{{ sets := <[qs := set{{ qs_unlistenInProgress := Some ch }}]> (sets p); next := S ch }})
      else enter_phase id sub Canceled p
  end.

(** The end of a cancellation. *)
Definition cleanup (id : nat) (sub : Subscription) (p : PGPubsub) : PGPubsub :=
  let p := match queues p !! sub_event sub with
           | Some qs => if empty_set qs p then p{{ queues := delete (sub_event sub) (queues p) }} else p
           | None => p
           end in
  enter_phase id sub Canceled p.

(** Every queue of a set. *)
Definition on_queues (m : gset nat) (f : msgQueue -> msgQueue) (p : PGPubsub) : PGPubsub :=
  p{{ subs := map_imap (fun id sub => Some (if bool_decide (id ∈ m) then sub{{ sub_queue := f (sub_queue sub) }} else sub)) (subs p) }}.

Definition listenReceive (event : string) (msg : list byte) (p : PGPubsub) : PGPubsub :=
  match queues p !! event with
  | None => p
  | Some qs => match sets p !! qs with Some set => on_queues (qs_m set) (enqueue msg) p | None => p end
  end.

(** The queues of every event. *)
Definition all_queues (p : PGPubsub) : gset nat :=
  map_fold (fun _ qs all => match sets p !! qs with Some set => qs_m set ∪ all | None => all end) ∅ (queues p).
Definition recordReconnect (p : PGPubsub) : PGPubsub := on_queues (all_queues p) dropped p.

(** One step, if it can be taken. *)
Definition step (a : PubsubStep) (p : PGPubsub) : option PGPubsub :=
  match a with
  | Subscribe id event s => if bool_decide (subs p !! id = None) then Some (subscribe id event s p) else None
  | Wait id =>
      sub ← subs p !! id;
      match sub_phase sub with
      | Registered qs None => Some (enter_phase id sub (Waited qs) p)
      | Registered qs (Some ch) =>
          if bool_decide (ch ∈ closed_channels p) then Some (enter_phase id sub (Waited qs) p) else None
      | _ => None
      end
  | Listen id ok =>
      sub ← subs p !! id;
      match sub_phase sub with
      | Waited qs =>
          if bool_decide (sub_event sub ∈ listening p) then Some (enter_phase id sub Active p)
          else if ok : bool then Some (enter_phase id sub Active (p{{ listening := {[sub_event sub]} ∪ listening p }}))
          else Some (enter_phase id sub (ListenFailed qs) p)
      | _ => None
      end
  | Undo id =>
      sub ← subs p !! id;
      match sub_phase sub with ListenFailed qs => Some (undo id qs sub p) | _ => None end
  | Cancel id =>
      sub ← subs p !! id;
      match sub_phase sub with Active => Some (cancel_start id sub p) | _ => None end
  | Unlisten id ok =>
      sub ← subs p !! id;
      match sub_phase sub with
      | Unlistening ch =>
          Some (enter_phase id sub (Unlistened ch)
                  (if ok : bool then p{{ listening := listening p ∖ {[sub_event sub]} }} else p))
      | _ => None
      end
  | CloseChannel id =>
      sub ← subs p !! id;
      match sub_phase sub with
      | Unlistened ch => Some (enter_phase id sub Cleaning (p{{ closed_channels := {[ch]} ∪ closed_channels p }}))
      | _ => None
      end
  | Cleanup id =>
      sub ← subs p !! id;
      match sub_phase sub with Cleaning => Some (cleanup id sub p) | _ => None end
  | Notify event msg => Some (if bool_decide (event ∈ listening p) then listenReceive event msg p else p)
  | Reconnect => Some (recordReconnect p)
  end.

Fixpoint steps (l : list PubsubStep) (p : PGPubsub) : option PGPubsub :=
  match l with [] => Some p | a :: l => p ← step a p; steps l p end.

(** * Theorems *)

(** ** A subscription that hears nothing *)

(** Three subscriptions to an event.  The first is canceled, and stops after it has
    closed its channel; the second subscribes and is canceled, and stops before
    [Unlisten]; now the first removes the set, which is empty, though the second
    still works on it; the third finds no set, so it does not wait, and the
    database is still listening; then the second calls [Unlisten]. *)
Definition race : list PubsubStep :=
  [Subscribe 1 "e" Listener; Wait 1; Listen 1 true;
   Cancel 1; Unlisten 1 true; CloseChannel 1;
   Subscribe 2 "e" Listener; Wait 2; Listen 2 true;
   Cancel 2;
   Cleanup 1;
   Subscribe 3 "e" Listener; Wait 3; Listen 3 true;
   Unlisten 2 true; CloseChannel 2; Cleanup 2].

Definition phase_of (id : nat) (p : PGPubsub) : option Phase := sub_phase <$> subs p !! id.

(** A subscription can be deaf.  When two cancellations of an event overlap, a
    subscription that was made without an error can be left active with its queue
    in the set of the event, while the database does not listen to the event:
    every notification is lost, without an error. *)
Lemma overlapping_cancellations_deafen :
  exists p, steps race newPubsub = Some p /\ phase_of 3 p = Some Active /\ ("e"%string ∉ listening p) /\
    (exists qs set, queues p !! "e"%string = Some qs /\ sets p !! qs = Some set /\ 3 ∈ qs_m set) /\
    forall msg, step (Notify "e" msg) p = Some p.
Proof.
  eexists. split; [vm_compute; reflexivity|]. split; [reflexivity|].
  assert (Hn : forall p : PGPubsub, listening p = ∅ -> "e"%string ∉ listening p) by (intros p ->; set_solver).
  split; [apply Hn; reflexivity|]. split; [|intros msg; reflexivity].
  eexists _, _. split; [reflexivity|]. split; [reflexivity|]. apply (bool_decide_unpack _). reflexivity.
Qed.

(** ** Every queue of a subscription is in the set of its event *)

Definition in_set (ph : Phase) : bool :=
  match ph with Registered _ _ | Waited _ | ListenFailed _ | Active => true | _ => false end.
Definition captured (ph : Phase) : option nat :=
  match ph with Registered qs _ | Waited qs | ListenFailed qs => Some qs | _ => None end.

(** The queue [id] is in the set of the event, which a running [subscribeQueue] holds. *)
Definition member (p : PGPubsub) (id : nat) (sub : Subscription) : Prop :=
  exists qs set, queues p !! sub_event sub = Some qs /\ sets p !! qs = Some set /\ id ∈ qs_m set /\
    forall a, captured (sub_phase sub) = Some a -> a = qs.

Record sound (p : PGPubsub) : Prop := {
  so_member id sub : subs p !! id = Some sub -> in_set (sub_phase sub) = true -> member p id sub;
  so_inj e1 e2 qs : queues p !! e1 = Some qs -> queues p !! e2 = Some qs -> e1 = e2;
  so_queues e qs : queues p !! e = Some qs -> is_Some (sets p !! qs);
  so_sets qs set : sets p !! qs = Some set -> qs < next p /\ forall ch, qs_unlistenInProgress set = Some ch -> ch < next p;
  so_channels a b sa sb ch : sets p !! a = Some sa -> sets p !! b = Some sb ->
    qs_unlistenInProgress sa = Some ch -> qs_unlistenInProgress sb = Some ch -> a = b;
}.

(** The subscriptions change, and those in a set are in the set of their event. *)
Lemma sound_subs p m :
  sound p -> (forall id sub, m !! id = Some sub -> in_set (sub_phase sub) = true -> member p id sub) -> sound (p{{ subs := m }}).
Proof. intros Hp Hm. split; [exact Hm|apply Hp..]. Qed.

(** Moving a subscription on keeps the rest. *)
Lemma sound_phase id sub ph p :
  sound p -> subs p !! id = Some sub ->
  (in_set ph = true -> in_set (sub_phase sub) = true /\ forall a, captured ph = Some a -> captured (sub_phase sub) = Some a) ->
  forall q, sound (enter_phase id (sub{{ sub_queue := q }}) ph p).
Proof.
  intros Hp Hs Hph q. apply sound_subs; [done|]. intros id' sub' [[<- <-]|[Hne Hs']]%lookup_insert_Some Hin.
  - destruct (Hph Hin) as [Hin' Hcap]. destruct (so_member p Hp id sub Hs Hin') as (qs & set & Hq & Hset & Hm & Ha).
    exists qs, set. split_and!; [done..|]. intros a Hca. by apply Ha, Hcap.
  - exact (so_member p Hp id' sub' Hs' Hin).
Qed.

(** Only the tables that soundness does not read, or its channels, change. *)
Lemma sound_other p ls cl : sound p -> sound (p{{ listening := ls; closed_channels := cl }}).
Proof. intros Hp. split; apply Hp. Qed.

Lemma sound_set p qs set set' :
  sound p -> sets p !! qs = Some set -> qs_m set ⊆ qs_m set' -> qs_unlistenInProgress set' = qs_unlistenInProgress set ->
  sound (p{{ sets := <[qs := set']> (sets p) }}).
Proof.
  intros Hp Hset Hm Hu. split; simpl.
  - intros id sub Hs Hin. destruct (so_member p Hp id sub Hs Hin) as (qs' & s' & Hq & Hs' & Hi & Ha).
    destruct (decide (qs' = qs)) as [->|Hne].
    + exists qs, set'. simpl. rewrite lookup_insert_eq. split_and!; [done|done|set_solver|done].
    + exists qs', s'. simpl. by rewrite lookup_insert_ne.
  - apply Hp.
  - intros e q Hq. destruct (decide (q = qs)) as [->|Hne]; [rewrite lookup_insert_eq; by eexists|].
    rewrite lookup_insert_ne by done. by apply (so_queues p Hp e).
  - intros q s [[<- <-]|[Hne Hs]]%lookup_insert_Some; [|by apply (so_sets p Hp)].
    rewrite Hu. by apply (so_sets p Hp).
  - intros a b sa sb ch Ha Hb Hua Hub. 
    assert (Hold : forall c sc, <[qs := set']> (sets p) !! c = Some sc -> qs_unlistenInProgress sc = Some ch ->
      exists sc', sets p !! c = Some sc' /\ qs_unlistenInProgress sc' = Some ch).
    { intros c sc [[<- <-]|[Hne Hs]]%lookup_insert_Some Huc; [exists set; by rewrite <- Hu|by exists sc]. }
    destruct (Hold _ _ Ha Hua) as (sa' & Ha' & Hua'), (Hold _ _ Hb Hub) as (sb' & Hb' & Hub').
    exact (so_channels p Hp a b sa' sb' ch Ha' Hb' Hua' Hub').
Qed.

Lemma sound_new_set e p : sound p -> queues p !! e = None ->
  sound (p{{ queues := <[e := next p]> (queues p); sets := <[next p := mkQueueSet ∅ None]> (sets p); next := S (next p) }}).
Proof.
  intros Hp He.
  assert (Hfresh : forall qs set, sets p !! qs = Some set -> qs <> next p) by (intros qs set Hs ->; apply (so_sets p Hp) in Hs as [? _]; lia).
  split; simpl.
  - intros id sub Hs Hin. destruct (so_member p Hp id sub Hs Hin) as (qs & set & Hq & Hset & Hm & Ha).
    exists qs, set. simpl. rewrite !lookup_insert_ne; [done|by eapply not_eq_sym, Hfresh|congruence].
  - assert (Hlt : forall e qs, queues p !! e = Some qs -> qs <> next p).
    { intros e' qs Hq ->. destruct (so_queues p Hp _ _ Hq) as [set Hs]. by apply (Hfresh _ _ Hs). }
    intros e1 e2 qs [[<- <-]|[Hne1 H1]]%lookup_insert_Some [[<- E]|[Hne2 H2]]%lookup_insert_Some; [done| | |].
    + by apply Hlt in H2.
    + subst qs. by apply Hlt in H1.
    + by apply (so_inj p Hp e1 e2 qs).
  - intros e' qs [[<- <-]|[Hne Hq]]%lookup_insert_Some; [rewrite lookup_insert_eq; by eexists|].
    apply (so_queues p Hp) in Hq as [set Hs]. exists set. rewrite lookup_insert_ne; [done|]. by eapply not_eq_sym, Hfresh.
  - intros qs set [[<- <-]|[Hne Hs]]%lookup_insert_Some; [split; [lia|done]|].
    apply (so_sets p Hp) in Hs as [? Hch]. split; [lia|]. intros ch Hc. apply Hch in Hc. lia.
  - intros a b sa sb ch [[<- <-]|[Hne Ha]]%lookup_insert_Some [[<- <-]|[Hne' Hb]]%lookup_insert_Some Hua Hub; try done.
    exact (so_channels p Hp a b sa sb ch Ha Hb Hua Hub).
Qed.

Lemma sound_leave id qs p :
  sound p -> (forall sub, subs p !! id = Some sub -> in_set (sub_phase sub) = false) -> sound (leave id qs p).
Proof.
  intros Hp Hid. unfold leave. destruct (sets p !! qs) as [set|] eqn:Hset; [|done].
  assert (Hu : forall c sc ch, <[qs := set{{ qs_m := qs_m set ∖ {[id]} }}]> (sets p) !! c = Some sc -> qs_unlistenInProgress sc = Some ch ->
      exists sc', sets p !! c = Some sc' /\ qs_unlistenInProgress sc' = Some ch).
  { intros c sc ch [[<- <-]|[Hne Hs]]%lookup_insert_Some Huc; [by exists set|by exists sc]. }
  split; simpl.
  - intros id' sub Hs Hin. destruct (so_member p Hp id' sub Hs Hin) as (qs' & s' & Hq & Hs' & Hi & Ha).
    assert (id' <> id) by (intros ->; by rewrite (Hid sub Hs) in Hin).
    destruct (decide (qs' = qs)) as [->|Hne].
    + eexists qs, _. simpl. rewrite lookup_insert_eq. split_and!; [done|done|simpl; set_solver|done].
    + exists qs', s'. simpl. by rewrite lookup_insert_ne.
  - apply Hp.
  - intros e q Hq. destruct (decide (q = qs)) as [->|Hne]; [rewrite lookup_insert_eq; by eexists|].
    rewrite lookup_insert_ne by done. by apply (so_queues p Hp e).
  - intros q s [[<- <-]|[Hne Hs]]%lookup_insert_Some; [exact (so_sets p Hp qs set Hset)|by apply (so_sets p Hp)].
  - intros a b sa sb ch Ha Hb Hua Hub. destruct (Hu _ _ _ Ha Hua) as (sa' & Ha' & Hua'), (Hu _ _ _ Hb Hub) as (sb' & Hb' & Hub').
    exact (so_channels p Hp a b sa' sb' ch Ha' Hb' Hua' Hub').
Qed.

Lemma leave_eq id qs p set : sets p !! qs = Some set ->
  leave id qs p = p{{ sets := <[qs := set{{ qs_m := qs_m set ∖ {[id]} }}]> (sets p) }}.
Proof. intros Hs. unfold leave. by rewrite Hs. Qed.

(** No subscription is in an empty set. *)
Lemma empty_no_member e qs p id sub :
  queues p !! e = Some qs -> empty_set qs p = true -> member p id sub -> sub_event sub <> e.
Proof.
  intros Hq He (qs' & set & Hq' & Hset & Hm & _) <-. rewrite Hq in Hq'. injection Hq' as <-.
  unfold empty_set in He. rewrite Hset in He. apply bool_decide_eq_true in He. set_solver.
Qed.

Lemma sound_delete e qs p : sound p -> queues p !! e = Some qs -> empty_set qs p = true -> sound (p{{ queues := delete e (queues p) }}).
Proof.
  intros Hp Hq He. split; simpl; [|..|apply Hp|apply Hp].
  - intros id sub Hs Hin. pose proof (so_member p Hp id sub Hs Hin) as Hm.
    pose proof (empty_no_member e qs p id sub Hq He Hm) as Hne. destruct Hm as (qs' & set & Hq' & Hm).
    exists qs', set. simpl. rewrite lookup_delete_ne by done. done.
  - intros e1 e2 q [_ H1]%lookup_delete_Some [_ H2]%lookup_delete_Some. by apply (so_inj p Hp e1 e2 q).
  - intros e' q [_ Hq']%lookup_delete_Some. by apply (so_queues p Hp e').
Qed.

Lemma sound_channel qs set p : sound p -> sets p !! qs = Some set ->
  sound (p{{ sets := <[qs := set{{ qs_unlistenInProgress := Some (next p) }}]> (sets p); next := S (next p) }}).
Proof.
  intros Hp Hset. split; simpl.
  - intros id sub Hs Hin. destruct (so_member p Hp id sub Hs Hin) as (qs' & s' & Hq & Hs' & Hi & Ha).
    destruct (decide (qs' = qs)) as [->|Hne].
    + rewrite Hset in Hs'. injection Hs' as <-. eexists qs, _. simpl. rewrite lookup_insert_eq. by split_and!.
    + exists qs', s'. simpl. by rewrite lookup_insert_ne.
  - apply Hp.
  - intros e q Hq. destruct (decide (q = qs)) as [->|Hne]; [rewrite lookup_insert_eq; by eexists|].
    rewrite lookup_insert_ne by done. by apply (so_queues p Hp e).
  - intros q s [[<- <-]|[Hne Hs]]%lookup_insert_Some.
    + split; [apply (so_sets p Hp) in Hset; lia|]. intros ch [= <-]. lia.
    + apply (so_sets p Hp) in Hs as [? Hch]. split; [lia|]. intros ch Hc. apply Hch in Hc. lia.
  - assert (Hlt : forall c sc, sets p !! c = Some sc -> qs_unlistenInProgress sc <> Some (next p)).
    { intros c sc Hs Hc. apply (so_sets p Hp) in Hs as [_ Hch]. apply Hch in Hc. lia. }
    intros a b sa sb ch [[<- <-]|[Hne Ha]]%lookup_insert_Some [[<- <-]|[Hne' Hb]]%lookup_insert_Some Hua Hub; simpl in *; try done.
    + injection Hua as <-. by apply Hlt in Hb.
    + injection Hub as <-. by apply Hlt in Ha.
    + exact (so_channels p Hp a b sa sb ch Ha Hb Hua Hub).
Qed.

Lemma sound_on_queues m f p : sound p -> sound (on_queues m f p).
Proof.
  intros Hp. apply sound_subs; [done|]. intros id sub Hs Hin. rewrite map_lookup_imap in Hs.
  destruct (subs p !! id) as [sub0|] eqn:E; [|done]. injection Hs as <-.
  destruct (so_member p Hp id sub0 E) as (qs & set & Hm); [by case_bool_decide|]. exists qs, set. by case_bool_decide.
Qed.

Lemma sound_subscribe id event s p : sound p -> subs p !! id = None -> sound (subscribe id event s p).
Proof.
  intros Hp Hid. unfold subscribe.
  assert (H1 : exists qs p1 set, match queues p !! event with
      | Some qs => (qs, p)
      | None => (next p, p{{ queues := <[event := next p]> (queues p);
                             sets := <[next p := mkQueueSet ∅ None]> (sets p); next := S (next p) }})
      end = (qs, p1) /\ sound p1 /\ queues p1 !! event = Some qs /\ sets p1 !! qs = Some set /\ subs p1 = subs p).
  { destruct (queues p !! event) as [qs|] eqn:Hq.
    - destruct (so_queues p Hp _ _ Hq) as [set Hset]. by exists qs, p, set.
    - eexists (next p), _, _. split; [done|]. split; [by apply sound_new_set|]. simpl. by rewrite !lookup_insert_eq. }
  destruct H1 as (qs & p1 & set & -> & Hp1 & Hq & Hset & Hsubs). rewrite Hset. cbn [default from_option].
  set (set' := set{{ qs_m := {[id]} ∪ qs_m set }}).
  assert (Hp2 : sound (p1{{ sets := <[qs := set']> (sets p1) }})) by (apply (sound_set p1 qs set); [done|done|simpl; set_solver|done]).
  apply (sound_subs _ _ Hp2). intros id' sub [[<- <-]|[Hne Hs]]%lookup_insert_Some Hin.
  - exists qs, set'. simpl. rewrite lookup_insert_eq. split_and!; [done|done|set_solver|]. by intros a [= <-].
  - by apply (so_member _ Hp2).
Qed.

Lemma sound_undo id qs sub p : sound p -> subs p !! id = Some sub -> sub_phase sub = ListenFailed qs -> sound (undo id qs sub p).
Proof.
  intros Hp Hs Hph. set (sub' := sub{{ sub_phase := Failed; sub_queue := close (sub_queue sub) }}).
  set (p0 := p{{ subs := <[id := sub']> (subs p) }}).
  assert (Hp0 : sound p0) by (by apply (sound_phase id sub Failed p Hp Hs)).
  assert (exists set, queues p !! sub_event sub = Some qs /\ sets p !! qs = Some set) as (set & Hq & Hset).
  { destruct (so_member p Hp id sub Hs) as (q & set & Hq & Hset & _ & Ha); [by rewrite Hph|]. rewrite (Ha qs) by (by rewrite Hph). by exists set. }
  assert (Hp1 : sound (leave id qs p0)).
  { apply sound_leave; [done|]. intros x. simpl. rewrite lookup_insert_eq. by intros [= <-]. }
  assert (Hq1 : queues (leave id qs p0) !! sub_event sub = Some qs) by (unfold leave; destruct (sets p0 !! qs); exact Hq).
  assert (E : undo id qs sub p = if empty_set qs (leave id qs p0)
    then (leave id qs p0){{ queues := delete (sub_event sub) (queues (leave id qs p0)) }} else leave id qs p0).
  { unfold undo, empty_set, leave. change (sets p0) with (sets p). rewrite Hset. simpl. rewrite lookup_insert_eq. by case_bool_decide. }
  rewrite E. destruct (empty_set qs (leave id qs p0)) eqn:Ee; [by apply (sound_delete _ qs)|done].
Qed.

Lemma sound_cancel id sub p : sound p -> subs p !! id = Some sub -> sub_phase sub = Active -> sound (cancel_start id sub p).
Proof.
  intros Hp Hs Hph. destruct (so_member p Hp id sub Hs ltac:(by rewrite Hph)) as (qs & set & Hq & Hset & Hm & _).
  set (set' := set{{ qs_m := qs_m set ∖ {[id]} }}).
  set (out ph := p{{ subs := <[id := sub{{ sub_queue := close (sub_queue sub); sub_phase := ph }}]> (subs p); sets := <[qs := set']> (sets p) }}).
  assert (Hout : forall ph, in_set ph = false -> sound (out ph)).
  { intros ph Hph'.
    set (p0 := p{{ subs := <[id := sub{{ sub_queue := close (sub_queue sub); sub_phase := ph }}]> (subs p) }}).
    assert (Hl : sound (leave id qs p0)).
    { apply sound_leave.
      - apply (sound_phase id sub ph p Hp Hs). by rewrite Hph'.
      - intros x. change (subs p0) with (<[id := sub{{ sub_queue := close (sub_queue sub); sub_phase := ph }}]> (subs p)). rewrite lookup_insert_eq. by intros [= <-]. }
    by rewrite (leave_eq id qs p0 set Hset) in Hl. }
  unfold cancel_start. cbv zeta. change (sub_event (_{{sub_queue := _}})) with (sub_event sub).
  rewrite Hq, (leave_eq id qs p set Hset). unfold empty_set. change (sets (p{{ sets := _ }})) with (<[qs := set']> (sets p)).
  rewrite lookup_insert_eq. case_bool_decide.
  - exact (sound_channel qs set' _ (Hout (Unlistening (next p)) eq_refl) (lookup_insert_eq (sets p) qs set')).
  - exact (Hout Canceled eq_refl).
Qed.

Lemma sound_cleanup id sub p : sound p -> subs p !! id = Some sub -> sound (cleanup id sub p).
Proof.
  intros Hp Hs. unfold cleanup.
  assert (Hq : sound (match queues p !! sub_event sub with
    | Some qs => if empty_set qs p then p{{ queues := delete (sub_event sub) (queues p) }} else p | None => p end)).
  { destruct (queues p !! sub_event sub) as [qs|] eqn:Eq; [|done]. destruct (empty_set qs p) eqn:Ee; [by apply (sound_delete _ qs)|done]. }
  assert (Hs' : subs (match queues p !! sub_event sub with
    | Some qs => if empty_set qs p then p{{ queues := delete (sub_event sub) (queues p) }} else p | None => p end) !! id = Some sub).
  { destruct (queues p !! sub_event sub) as [qs|]; [destruct (empty_set qs p); exact Hs|exact Hs]. }
  revert Hq Hs'. generalize (match queues p !! sub_event sub with
    | Some qs => if empty_set qs p then p{{ queues := delete (sub_event sub) (queues p) }} else p | None => p end). intros p' Hp' Hs'.
  pose proof (sound_phase id sub Canceled p' Hp' Hs' ltac:(done) (sub_queue sub)) as Hc. by destruct sub.
Qed.

Lemma step_sound a p p' : step a p = Some p' -> sound p -> sound p'.
Proof.
  intros Hstep Hp.
  assert (Hmove : forall id sub ph p0, sound p0 -> subs p0 !! id = Some sub ->
    (in_set ph = true -> in_set (sub_phase sub) = true /\ forall a, captured ph = Some a -> captured (sub_phase sub) = Some a) ->
    sound (enter_phase id sub ph p0)).
  { intros id sub ph p0 Hp0 Hs Hph. pose proof (sound_phase id sub ph p0 Hp0 Hs Hph (sub_queue sub)) as Hs'. by destruct sub. }
  destruct a as [id e s|id|id ok|id|id|id ok|id|id|e msg|]; cbn [step] in Hstep;
    try (destruct (subs p !! id) as [sub|] eqn:Hs; cbn [mbind option_bind] in Hstep; [|done]; destruct (sub_phase sub) eqn:Hph; try done).
  - case_bool_decide as Hid; [|done]. injection Hstep as <-. by apply sound_subscribe.
  - destruct unlistenInProgress as [ch|]; [case_bool_decide; [|done]|]; injection Hstep as <-; apply Hmove; try done; rewrite Hph; auto.
  - case_bool_decide; [|destruct ok]; injection Hstep as <-.
    + apply Hmove; try done. by rewrite Hph.
    + apply (Hmove id sub); [exact (sound_other p _ (closed_channels p) Hp)|done|by rewrite Hph].
    + apply Hmove; try done. rewrite Hph. auto.
  - injection Hstep as <-. by apply sound_undo.
  - injection Hstep as <-. by apply sound_cancel.
  - injection Hstep as <-. destruct ok; [|by apply Hmove].
    apply (Hmove id sub); [exact (sound_other p _ (closed_channels p) Hp)|done|done].
  - injection Hstep as <-. apply (Hmove id sub); [exact (sound_other p (listening p) _ Hp)|done|done].
  - injection Hstep as <-. by apply sound_cleanup.
  - injection Hstep as <-. case_bool_decide; [|done]. unfold listenReceive. destruct (queues p !! e) as [qs|]; [|done].
    destruct (sets p !! qs); [by apply sound_on_queues|done].
  - injection Hstep as <-. by apply sound_on_queues.
Qed.

(** ** An active subscription hears its event *)

Definition pending (ph : Phase) : option nat :=
  match ph with Unlistening ch | Unlistened ch => Some ch | _ => None end.
Definition busy (ph : Phase) : bool :=
  match ph with Unlistening _ | Unlistened _ | Cleaning => true | _ => false end.
Definition waits_for (ch : nat) (ph : Phase) : bool :=
  match ph with Registered _ (Some c) => Nat.eqb c ch | Failed | Canceled => true | _ => false end.

(** The channel a new subscription to the event waits for. *)
Definition channel (p : PGPubsub) (e : string) : option nat :=
  qs ← queues p !! e; set ← sets p !! qs; qs_unlistenInProgress set.

(** A step of a run in which a cancellation of an event only starts when no other
    one of the event is at work. *)
Inductive turn (p p' : PGPubsub) : Prop :=
| turn_step a : step a p = Some p' ->
    (forall id sub, a = Cancel id -> subs p !! id = Some sub -> forall id' sub', id' <> id -> subs p !! id' = Some sub' ->
      sub_event sub' = sub_event sub -> busy (sub_phase sub') = false) ->
    turn p p'.

(** While a cancellation of the event has to stop listening, the others wait for it. *)
Record local (p : PGPubsub) (e : string) : Prop := {
  lo_pending id sub ch : subs p !! id = Some sub -> sub_event sub = e -> pending (sub_phase sub) = Some ch ->
    channel p e = Some ch /\ ch ∉ closed_channels p /\
    forall id' sub', id' <> id -> subs p !! id' = Some sub' -> sub_event sub' = e -> waits_for ch (sub_phase sub') = true;
  lo_listen id sub : subs p !! id = Some sub -> sub_event sub = e -> sub_phase sub = Active -> e ∈ listening p;
}.

Record exclusive (p : PGPubsub) : Prop := {
  ex_sound : sound p;
  ex_closed ch : ch ∈ closed_channels p -> ch < next p;
  ex_local e : local p e;
}.

Lemma channel_inj p e1 e2 ch : sound p -> channel p e1 = Some ch -> channel p e2 = Some ch -> e1 = e2.
Proof.
  intros Hp H1 H2. unfold channel in *.
  destruct (queues p !! e1) as [q1|] eqn:Q1, (queues p !! e2) as [q2|] eqn:Q2; try done. simpl in *.
  destruct (sets p !! q1) as [s1|] eqn:S1, (sets p !! q2) as [s2|] eqn:S2; try done. simpl in *.
  pose proof (so_channels p Hp q1 q2 s1 s2 ch S1 S2 H1 H2) as <-. exact (so_inj p Hp e1 e2 q1 Q1 Q2).
Qed.

Lemma channel_lt p e ch : sound p -> channel p e = Some ch -> ch < next p.
Proof.
  intros Hp H1. unfold channel in H1. destruct (queues p !! e) as [q|]; [|done]. simpl in H1.
  destruct (sets p !! q) as [s|] eqn:Hs; [|done]. by apply (so_sets p Hp q s Hs).
Qed.

(** What a step of a subscription to [e] does to the other events. *)
Lemma exclusive_frame p p' id sub' e :
  exclusive p -> sound p' -> subs p' = <[id := sub']> (subs p) -> sub_event sub' = e ->
  (forall sub, subs p !! id = Some sub -> sub_event sub = e) ->
  (forall e', e' <> e -> channel p' e' = channel p e' /\ (e' ∈ listening p -> e' ∈ listening p')) ->
  (forall ch, ch ∈ closed_channels p' -> ch < next p' /\ (ch ∈ closed_channels p \/ channel p e = Some ch)) ->
  local p' e -> exclusive p'.
Proof.
  intros Hp Hs' Hsubs He Hid Hother Hcl Hloc. split; [done|intros ch Hch; by apply Hcl|]. intros e'.
  destruct (decide (e' = e)) as [->|Hne]; [done|]. destruct (Hother e' Hne) as [Hc Hl].
  assert (Hold : forall i s, subs p' !! i = Some s -> sub_event s = e' -> subs p !! i = Some s).
  { rewrite Hsubs. intros i s [[<- <-]|[_ Hs]]%lookup_insert_Some Hev; [congruence|done]. }
  pose proof (ex_local p Hp e') as [Hpend Hlis]. split.
  - intros i s ch Hs Hev Hph. destruct (Hpend i s ch (Hold i s Hs Hev) Hev Hph) as (Hch & Hcn & Hw). rewrite Hc. split_and!; [done| |].
    + intros Hin. apply Hcl in Hin as [_ [Hin|Hin]]; [done|]. apply Hne. by apply (channel_inj p e' e ch (ex_sound p Hp)).
    + intros i' s' Hne' Hs0 Hev'. by apply (Hw i' s'); [done|apply Hold|].
  - intros i s Hs Hev Hph. apply Hl. by apply (Hlis i s); [apply Hold|..].
Qed.

(** A subscription that does not wait is not beside one that has to stop listening. *)
Lemma not_beside p e id sub : local p e -> subs p !! id = Some sub -> sub_event sub = e ->
  (forall ch, ch ∉ closed_channels p -> waits_for ch (sub_phase sub) = false) ->
  forall id' sub', id' <> id -> subs p !! id' = Some sub' -> sub_event sub' = e -> pending (sub_phase sub') = None.
Proof.
  intros Hl Hs He Hw id' sub' Hne Hs' He'. destruct (pending (sub_phase sub')) as [ch|] eqn:E; [|done].
  destruct (lo_pending p e Hl id' sub' ch Hs' He' E) as (_ & Hc & Ho). specialize (Ho id sub ltac:(done) Hs He). by rewrite (Hw ch Hc) in Ho.
Qed.

(** After such a subscription moved on, none of the event has to stop listening. *)
Lemma local_quiet p p' e id sub sub' :
  local p e -> subs p !! id = Some sub -> sub_event sub = e ->
  (forall ch, ch ∉ closed_channels p -> waits_for ch (sub_phase sub) = false) ->
  subs p' = <[id := sub']> (subs p) -> pending (sub_phase sub') = None ->
  (sub_phase sub' = Active -> e ∈ listening p') -> (e ∈ listening p -> e ∈ listening p') -> local p' e.
Proof.
  intros Hl Hs He Hw Hsubs Hph Hact Hlis. pose proof (not_beside p e id sub Hl Hs He Hw) as Hnone. split; rewrite Hsubs.
  - intros i s ch [[<- <-]|[Hne Hi]]%lookup_insert_Some Hev Hpe; [congruence|]. rewrite (Hnone i s) in Hpe by done. done.
  - intros i s [[<- <-]|[Hne Hi]]%lookup_insert_Some Hev Hpe; [by apply Hact|]. by apply Hlis, (lo_listen p e Hl i s).
Qed.

(** A subscription that has to stop listening, beside ones that wait for it. *)
Lemma local_alone p p' e id sub' ch :
  subs p' = <[id := sub']> (subs p) -> sub_event sub' = e -> pending (sub_phase sub') = Some ch -> channel p' e = Some ch ->
  ch ∉ closed_channels p' ->
  (forall i s, i <> id -> subs p !! i = Some s -> sub_event s = e -> waits_for ch (sub_phase s) = true) -> local p' e.
Proof.
  intros Hsubs He Hph Hch Hcl Hw.
  assert (Hwait : forall i s, subs p' !! i = Some s -> sub_event s = e -> i = id /\ s = sub' \/ i <> id /\ waits_for ch (sub_phase s) = true).
  { rewrite Hsubs. intros i s [[<- <-]|[Hne Hi]]%lookup_insert_Some Hev; [by left|right; split; [done|by apply (Hw i s)]]. }
  split.
  - intros i s c Hi Hev Hpe. destruct (Hwait i s Hi Hev) as [[-> ->]|[_ Hw']].
    + rewrite Hph in Hpe. injection Hpe as <-. split_and!; [done..|]. intros i' s' Hne Hi' Hev'. by destruct (Hwait i' s' Hi' Hev') as [[-> _]|[_ ?]].
    + by destruct (sub_phase s).
  - intros i s Hi Hev Hpe. destruct (Hwait i s Hi Hev) as [[-> ->]|[_ Hw']]; rewrite Hpe in *; done.
Qed.

(** Writing the set of another event, and removing another event. *)
Lemma channel_write p p' e e' qs : sound p -> queues p !! e = Some qs -> e' <> e ->
  queues p' = queues p -> (forall q, q <> qs -> sets p' !! q = sets p !! q) -> channel p' e' = channel p e'.
Proof.
  intros Hp Hq Hne Hqs Hsets. unfold channel. rewrite Hqs. destruct (queues p !! e') as [qs'|] eqn:Hq'; [|done]. simpl.
  rewrite Hsets; [done|]. intros ->. by apply Hne, (so_inj p Hp e' e qs).
Qed.

Lemma channel_delete p p' e e' : e' <> e -> queues p' = delete e (queues p) -> sets p' = sets p -> channel p' e' = channel p e'.
Proof. intros Hne Hqs Hsets. unfold channel. by rewrite Hqs, Hsets, lookup_delete_ne. Qed.

(** A subscription moves on, and perhaps the database listens to its event. *)
Lemma exclusive_move id sub ph ls cl p :
  exclusive p -> subs p !! id = Some sub -> (forall ch, ch ∉ closed_channels p -> waits_for ch (sub_phase sub) = false) ->
  pending ph = None -> (ph = Active -> sub_event sub ∈ ls) -> listening p ⊆ ls ->
  (forall ch, ch ∈ cl -> ch ∈ closed_channels p \/ channel p (sub_event sub) = Some ch) ->
  let p' := enter_phase id sub ph (p{{ listening := ls; closed_channels := cl }}) in sound p' -> exclusive p'.
Proof.
  intros Hp Hs Hw Hph Hact Hls Hcl p' Hp'.
  apply (exclusive_frame p p' id (sub{{ sub_phase := ph }}) (sub_event sub) Hp Hp' eq_refl eq_refl).
  - intros s Hs'. congruence.
  - intros e' Hne. split; [done|]. apply Hls.
  - intros ch Hch. split; [|by apply Hcl]. apply Hcl in Hch as [Hch|Hch]; [by apply (ex_closed p Hp)|by apply (channel_lt p (sub_event sub)), Hch; apply Hp].
  - apply (local_quiet p p' (sub_event sub) id sub (sub{{ sub_phase := ph }})); try done; [apply Hp|apply Hls].
Qed.

Lemma exclusive_on_queues m f p : exclusive p -> exclusive (on_queues m f p).
Proof.
  intros Hp. split; [apply sound_on_queues, Hp|apply (ex_closed p Hp)|]. intros e.
  assert (Hold : forall i s, subs (on_queues m f p) !! i = Some s -> exists s0, subs p !! i = Some s0 /\ sub_event s0 = sub_event s /\ sub_phase s0 = sub_phase s).
  { intros i s Hi. unfold on_queues in Hi. change (map_imap (fun id sub => Some (if bool_decide (id ∈ m) then sub{{ sub_queue := f (sub_queue sub) }} else sub)) (subs p) !! i = Some s) in Hi.
    rewrite map_lookup_imap in Hi. destruct (subs p !! i) as [s0|]; [|done]. injection Hi as <-. exists s0. by case_bool_decide. }
  pose proof (ex_local p Hp e) as [Hpend Hlis]. split.
  - intros i s ch Hi Hev Hph. destruct (Hold i s Hi) as (s0 & Hi0 & He0 & Hp0).
    rewrite <- Hp0 in Hph. rewrite <- He0 in Hev. destruct (Hpend i s0 ch Hi0 Hev Hph) as (Hch & Hcl & Hw). split_and!; [done..|].
    intros i' s' Hne Hi' Hev'. destruct (Hold i' s' Hi') as (s0' & Hi0' & He0' & Hp0'). rewrite <- Hp0'. apply (Hw i' s0'); congruence.
  - intros i s Hi Hev Hph. destruct (Hold i s Hi) as (s0 & Hi0 & He0 & Hp0). apply (Hlis i s0); congruence.
Qed.

Lemma exclusive_subscribe id event s p : exclusive p -> subs p !! id = None -> exclusive (subscribe id event s p).
Proof.
  intros Hp Hid. pose proof (ex_sound p Hp) as Hsp.
  assert (Hnew : forall p' qs, sound p' -> closed_channels p' = closed_channels p -> next p <= next p' -> listening p' = listening p ->
    subs p' = <[id := mkSubscription event (Registered qs (channel p event)) (newMsgQueue s)]> (subs p) ->
    (forall e', e' <> event -> channel p' e' = channel p e') ->
    (forall ch, channel p event = Some ch -> channel p' event = Some ch) -> exclusive p').
  { intros p' qs Hp' Hcl Hnext Hlis Hsubs Hch Hche.
    apply (exclusive_frame p p' id (mkSubscription event (Registered qs (channel p event)) (newMsgQueue s)) event Hp Hp' Hsubs eq_refl).
    - intros x Hx. congruence.
    - intros e' Hne. rewrite Hlis. auto.
    - intros ch Hin. rewrite Hcl in Hin. split; [|by left]. apply (ex_closed p Hp) in Hin. lia.
    - pose proof (ex_local p Hp event) as [Hpend Hls]. split; rewrite Hsubs.
      + intros i x ch [[<- <-]|[Hne Hi]]%lookup_insert_Some Hev Hph; [done|].
        destruct (Hpend i x ch Hi Hev Hph) as (Hc & Hn & Hw). rewrite Hcl. split_and!; [by apply Hche|done|].
        intros i' x' Hne' [[<- <-]|[_ Hi']]%lookup_insert_Some Hev'; [|by apply (Hw i' x')].
        simpl. rewrite Hc. apply Nat.eqb_refl.
      + rewrite Hlis. intros i x [[<- <-]|[Hne Hi]]%lookup_insert_Some Hev Hph; [done|by apply (Hls i x)]. }
  pose proof (sound_subscribe id event s p Hsp Hid) as Hsound. unfold subscribe in *.
  destruct (queues p !! event) as [qs|] eqn:Hq.
  - destruct (so_queues p Hsp _ _ Hq) as [set Hset].
    assert (Hc : channel p event = qs_unlistenInProgress set) by (unfold channel; rewrite Hq; simpl; by rewrite Hset).
    rewrite Hset in *. cbn [default from_option] in *. set (p' := p{{ sets := _; subs := _ }}) in *.
    apply (Hnew p' qs); try done.
    + by rewrite Hc.
    + intros e' Hne. apply (channel_write p p' event e' qs); try done. intros q Hqne. by apply lookup_insert_ne.
    + intros ch Hch. unfold channel. change (queues p') with (queues p). rewrite Hq. simpl. rewrite lookup_insert_eq. change (qs_unlistenInProgress set = Some ch). by rewrite <- Hc.
  - assert (Hc : channel p event = None) by (unfold channel; by rewrite Hq).
    match type of Hsound with sound ?x => set (p' := x) in * end.
    assert (Hsets : sets p' = <[next p := mkQueueSet {[id]} None]> (sets p)).
    { unfold p'. simpl. rewrite lookup_insert_eq. simpl. by rewrite insert_insert_eq, (right_id_L ∅ (∪)). }
    apply (Hnew p' (next p)); try done.
    + change (next p') with (S (next p)). lia.
    + unfold p'. simpl. rewrite lookup_insert_eq. simpl. by rewrite Hc.
    + intros e' Hne. unfold channel. rewrite Hsets. change (queues p') with (<[event := next p]> (queues p)).
      rewrite lookup_insert_ne by done. destruct (queues p !! e') as [qs|] eqn:Hq'; [|done]. simpl.
      rewrite lookup_insert_ne; [done|]. intros <-. destruct (so_queues p Hsp _ _ Hq') as [x Hx]. apply (so_sets p Hsp) in Hx as [? _]. lia.
    + congruence.
Qed.

(** A subscription leaves the set of its event, which is perhaps removed. *)
Lemma exclusive_quiet id sub sub' p p' :
  exclusive p -> sound p' -> subs p !! id = Some sub -> (forall ch, waits_for ch (sub_phase sub) = false) ->
  subs p' = <[id := sub']> (subs p) -> sub_event sub' = sub_event sub -> pending (sub_phase sub') = None -> sub_phase sub' <> Active ->
  (forall e', e' <> sub_event sub -> channel p' e' = channel p e') ->
  listening p' = listening p -> closed_channels p' = closed_channels p -> next p <= next p' -> exclusive p'.
Proof.
  intros Hp Hp' Hs Hw Hsubs He Hpe Hna Hch Hls Hcl Hn.
  apply (exclusive_frame p p' id sub' (sub_event sub) Hp Hp' Hsubs He).
  - intros x Hx. congruence.
  - intros e' Hne. rewrite Hls. auto.
  - intros ch Hin. rewrite Hcl in Hin. split; [|by left]. apply (ex_closed p Hp) in Hin. lia.
  - apply (local_quiet p p' (sub_event sub) id sub sub'); try done; [apply Hp|by rewrite Hls].
Qed.

Lemma exclusive_undo id qs sub p : exclusive p -> subs p !! id = Some sub -> sub_phase sub = ListenFailed qs -> exclusive (undo id qs sub p).
Proof.
  intros Hp Hs Hph. pose proof (ex_sound p Hp) as Hsp.
  destruct (so_member p Hsp id sub Hs) as (q & set & Hq & Hset & _ & Ha); [by rewrite Hph|]. assert (qs = q) as -> by (apply Ha; by rewrite Hph).
  pose proof (sound_undo id q sub p Hsp Hs Hph) as Hs'.
  unfold undo in *. rewrite (leave_eq id q p set Hset) in *. cbv zeta in *.
  set (p1 := p{{ sets := _ }}) in *.
  assert (Hch : forall e', e' <> sub_event sub -> channel p1 e' = channel p e').
  { intros e' Hne. apply (channel_write p p1 (sub_event sub) e' q); try done. intros q' Hqne. by apply lookup_insert_ne. }
  destruct (empty_set q p1); (eapply (exclusive_quiet id sub _ p); [done|exact Hs'|done|by rewrite Hph|done|done|done|done| |done|done|done]); intros e' Hne.
  - rewrite <- Hch by done. by eapply (channel_delete p1).
  - by rewrite <- Hch.
Qed.

Lemma exclusive_cleanup id sub p : exclusive p -> subs p !! id = Some sub -> sub_phase sub = Cleaning -> exclusive (cleanup id sub p).
Proof.
  intros Hp Hs Hph. pose proof (sound_cleanup id sub p (ex_sound p Hp) Hs) as Hs'. unfold cleanup in *.
  destruct (queues p !! sub_event sub) as [qs|]; [destruct (empty_set qs p)|];
    (eapply (exclusive_quiet id sub _ p); [done|exact Hs'|done|by rewrite Hph|done|done|done|done| |done|done|done]); intros e' Hne; try done.
  by eapply (channel_delete p).
Qed.

Lemma exclusive_cancel id sub p : exclusive p -> subs p !! id = Some sub -> sub_phase sub = Active ->
  (forall i s, i <> id -> subs p !! i = Some s -> sub_event s = sub_event sub -> busy (sub_phase s) = false) -> exclusive (cancel_start id sub p).
Proof.
  intros Hp Hs Hph Hbusy. pose proof (ex_sound p Hp) as Hsp. pose proof (sound_cancel id sub p Hsp Hs Hph) as Hs'.
  destruct (so_member p Hsp id sub Hs ltac:(by rewrite Hph)) as (qs & set & Hq & Hset & Hm & _).
  unfold cancel_start in *. cbv zeta in *. change (sub_event (_{{sub_queue := _}})) with (sub_event sub) in *.
  rewrite Hq, (leave_eq id qs p set Hset) in *. set (p1 := p{{ sets := _ }}) in *.
  assert (Hset1 : sets p1 !! qs = Some (set{{ qs_m := qs_m set ∖ {[id]} }})) by apply lookup_insert_eq.
  destruct (empty_set qs p1) eqn:Hempty.
  - match type of Hs' with sound ?x => set (p' := x) in * end.
    assert (Hw : forall i s, i <> id -> subs p !! i = Some s -> sub_event s = sub_event sub -> waits_for (next p) (sub_phase s) = true).
    { intros i s Hne Hi Hev. pose proof (Hbusy i s Hne Hi Hev) as Hb. unfold empty_set in Hempty. rewrite Hset1 in Hempty. apply bool_decide_eq_true in Hempty.
      assert (Hout : in_set (sub_phase s) = false).
      { apply not_true_is_false. intros Hin. destruct (so_member p Hsp i s Hi Hin) as (q & x & Hq' & Hx & Hmem & _).
        rewrite Hev, Hq in Hq'. injection Hq' as <-. rewrite Hset in Hx. injection Hx as <-. simpl in Hempty. set_solver. }
      by destruct (sub_phase s). }
    eapply (exclusive_frame p p' id _ (sub_event sub) Hp Hs' eq_refl eq_refl).
    + intros x Hx. congruence.
    + intros e' Hne. split; [|done]. apply (channel_write p p' (sub_event sub) e' qs); try done. intros q Hqne.
      change (<[qs := (default (mkQueueSet ∅ None) (sets p1 !! qs)){{ qs_unlistenInProgress := Some (next p1) }}]> (sets p1) !! q = sets p !! q).
      rewrite lookup_insert_ne by done. by apply lookup_insert_ne.
    + intros ch Hin. apply (ex_closed p Hp) in Hin as Hlt. change (next p') with (S (next p)). split; [lia|by left].
    + eapply (local_alone p p' (sub_event sub) id _ (next p)); try done.
      * unfold channel. change (queues p') with (queues p). rewrite Hq. simpl. by rewrite lookup_insert_eq.
      * intros Hin. apply (ex_closed p Hp) in Hin. lia.
  - eapply (exclusive_quiet id sub _ p); [done|exact Hs'|done|by rewrite Hph|done|done|done|done| |done|done|done].
    intros e' Hne. apply (channel_write p p1 (sub_event sub) e' qs); try done. intros q Hqne. by apply lookup_insert_ne.
Qed.

Lemma exclusive_unlisten id sub ch ls p : exclusive p -> subs p !! id = Some sub -> sub_phase sub = Unlistening ch ->
  (forall e', e' <> sub_event sub -> e' ∈ listening p -> e' ∈ ls) ->
  exclusive (enter_phase id sub (Unlistened ch) (p{{ listening := ls }})).
Proof.
  intros Hp Hs Hph Hls. set (p' := enter_phase _ _ _ _).
  assert (Hp' : sound p').
  { pose proof (sound_phase id sub (Unlistened ch) _ (sound_other p ls (closed_channels p) (ex_sound p Hp)) Hs ltac:(done) (sub_queue sub)) as Hx. by destruct sub. }
  destruct (lo_pending p (sub_event sub) (ex_local p Hp (sub_event sub)) id sub ch Hs eq_refl ltac:(by rewrite Hph)) as (Hch & Hcl & Hw).
  apply (exclusive_frame p p' id (sub{{ sub_phase := Unlistened ch }}) (sub_event sub) Hp Hp' eq_refl eq_refl).
  - intros x Hx. congruence.
  - intros e' Hne. split; [done|by apply Hls].
  - intros c Hc. split; [by apply (ex_closed p Hp)|by left].
  - by apply (local_alone p p' (sub_event sub) id (sub{{ sub_phase := Unlistened ch }}) ch).
Qed.

Lemma turn_exclusive p p' : turn p p' -> exclusive p -> exclusive p'.
Proof.
  intros [a Hstep Hguard] Hp. pose proof (step_sound a p p' Hstep (ex_sound p Hp)) as Hs'. revert Hs'.
  destruct a as [id e s|id|id ok|id|id|id ok|id|id|e msg|]; cbn [step] in Hstep;
    try (destruct (subs p !! id) as [sub|] eqn:Hs; cbn [mbind option_bind] in Hstep; [|done]; destruct (sub_phase sub) eqn:Hph; try done).
  - case_bool_decide as Hid; [|done]. injection Hstep as <-. intros _. by apply exclusive_subscribe.
  - assert (Hw : Some p' = Some (enter_phase id sub (Waited qs) p) -> (forall ch, ch ∉ closed_channels p -> waits_for ch (sub_phase sub) = false) -> sound p' -> exclusive p').
    { intros [= ->] Hw Hs'. apply (exclusive_move id sub (Waited qs) (listening p) (closed_channels p) p); try done. by left. }
    destruct unlistenInProgress as [ch|]; [case_bool_decide as Hin; [|done]|]; apply Hw; try done; rewrite Hph; intros c Hc; [|done].
    simpl. apply Nat.eqb_neq. congruence.
  - case_bool_decide as Hin; [|destruct ok]; injection Hstep as <-; intros Hs'.
    + apply (exclusive_move id sub Active (listening p) (closed_channels p) p); try done; solve [by rewrite Hph|by left].
    + apply (exclusive_move id sub Active ({[sub_event sub]} ∪ listening p) (closed_channels p) p); try done; solve [by rewrite Hph|by left|set_solver].
    + apply (exclusive_move id sub (ListenFailed qs) (listening p) (closed_channels p) p); try done; solve [by rewrite Hph|by left].
  - injection Hstep as <-. intros _. by apply exclusive_undo.
  - injection Hstep as <-. intros _. apply exclusive_cancel; [done..|]. intros i s. by apply (Hguard id).
  - injection Hstep as <-. intros _. destruct ok; [|by apply (exclusive_unlisten id sub ch (listening p) p)].
    apply (exclusive_unlisten id sub ch (listening p ∖ {[sub_event sub]}) p); [done..|]. set_solver.
  - injection Hstep as <-. intros Hs'.
    pose proof (lo_pending p (sub_event sub) (ex_local p Hp (sub_event sub)) id sub ch Hs eq_refl ltac:(by rewrite Hph)) as (Hch & _ & _).
    apply (exclusive_move id sub Cleaning (listening p) ({[ch]} ∪ closed_channels p) p); try done; [by rewrite Hph|].
    intros c [->%elem_of_singleton|Hc]%elem_of_union; [by right|by left].
  - injection Hstep as <-. intros _. by apply exclusive_cleanup.
  - injection Hstep as <-. intros _. case_bool_decide; [|done]. unfold listenReceive. destruct (queues p !! e) as [qs|]; [|done].
    destruct (sets p !! qs); [by apply exclusive_on_queues|done].
  - injection Hstep as <-. intros _. by apply exclusive_on_queues.
Qed.

Lemma rtc_turn_exclusive p p' : rtc turn p p' -> exclusive p -> exclusive p'.
Proof. induction 1 as [|p1 p2 p3 Ht _ IH]; [done|]. intros H1. by apply IH, (turn_exclusive p1). Qed.

Lemma exclusive_new : exclusive newPubsub.
Proof.
  split.
  - by split.
  - intros ch Hch. by apply not_elem_of_empty in Hch.
  - intros e. by split.
Qed.

Lemma notified id sub p msg : sound p -> subs p !! id = Some sub -> sub_phase sub = Active -> sub_event sub ∈ listening p ->
  exists p', step (Notify (sub_event sub) msg) p = Some p' /\ subs p' !! id = Some (sub{{ sub_queue := enqueue msg (sub_queue sub) }}).
Proof.
  intros Hp Hs Hph Hl. destruct (so_member p Hp id sub Hs ltac:(by rewrite Hph)) as (qs & set & Hq & Hset & Hm & _).
  cbn [step]. rewrite bool_decide_true by done. eexists. split; [done|]. unfold listenReceive. rewrite Hq, Hset. unfold on_queues.
  change (map_imap (fun id sub => Some (if bool_decide (id ∈ qs_m set) then sub{{ sub_queue := enqueue msg (sub_queue sub) }} else sub)) (subs p) !! id
    = Some (sub{{ sub_queue := enqueue msg (sub_queue sub) }})).
  rewrite map_lookup_imap, Hs. simpl. by rewrite bool_decide_true.
Qed.

(** C36: an active subscription hears its event.  However subscriptions, failures of
    the database, cancellations and notifications interleave, as long as a
    cancellation of an event only starts when no other one of the event is at
    work: while a subscription is active the database listens to its event, and a
    notification of the event puts the message on its queue. *)
Theorem active_hears p id sub msg :
  rtc turn newPubsub p -> subs p !! id = Some sub -> sub_phase sub = Active ->
  sub_event sub ∈ listening p /\
  exists p', step (Notify (sub_event sub) msg) p = Some p' /\ subs p' !! id = Some (sub{{ sub_queue := enqueue msg (sub_queue sub) }}).
Proof.
  intros Hr Hs Hph.
  assert (Hp : exclusive p) by exact (rtc_turn_exclusive _ _ Hr exclusive_new).
  pose proof (lo_listen p _ (ex_local p Hp (sub_event sub)) id sub Hs eq_refl Hph) as Hl.
  split; [done|]. by apply notified; [apply Hp|..].
Qed.

(** ** The reconnection *)

Lemma steps_sound l p p' : steps l p = Some p' -> sound p -> sound p'.
Proof.
  revert p. induction l as [|a l IH]; simpl; intros p Hs Hp; [by injection Hs as <-|].
  destruct (step a p) as [p1|] eqn:E; [|done]. by apply (IH p1 Hs), (step_sound a p).
Qed.

Lemma all_queues_spec p e qs set id : queues p !! e = Some qs -> sets p !! qs = Some set -> id ∈ qs_m set -> id ∈ all_queues p.
Proof.
  intros Hq Hset Hm. unfold all_queues. revert Hq.
  apply (map_fold_weak_ind (fun all m => m !! e = Some qs -> id ∈ all)); [done|].
  intros e' qs' m all _ IH [[-> ->]|[Hne Hq]]%lookup_insert_Some.
  - rewrite Hset. set_solver.
  - destruct (sets p !! qs'); [|by apply IH]. apply IH in Hq. set_solver.
Qed.

(** However the steps interleave, a reconnection puts the error for dropped
    messages on the queue of every active subscription. *)
Lemma reconnect_warns l p id sub :
  steps l newPubsub = Some p -> subs p !! id = Some sub -> sub_phase sub = Active ->
  exists p', step Reconnect p = Some p' /\ subs p' !! id = Some (sub{{ sub_queue := dropped (sub_queue sub) }}).
Proof.
  intros Hr Hs Hph. assert (Hp : sound p) by exact (steps_sound l _ _ Hr (ex_sound _ exclusive_new)).
  destruct (so_member p Hp id sub Hs ltac:(by rewrite Hph)) as (qs & set & Hq & Hset & Hm & _).
  eexists. split; [done|]. unfold recordReconnect, on_queues.
  change (map_imap (fun id sub => Some (if bool_decide (id ∈ all_queues p) then sub{{ sub_queue := dropped (sub_queue sub) }} else sub)) (subs p) !! id
    = Some (sub{{ sub_queue := dropped (sub_queue sub) }})).
  rewrite map_lookup_imap, Hs. simpl. rewrite bool_decide_true; [done|]. by eapply all_queues_spec.
Qed.

Module Examples.
(** The condition on cancellations, decided. *)
Definition allowed (a : PubsubStep) (p : PGPubsub) : bool :=
  match a with
  | Cancel id => forallb (fun '(id', sub') => Nat.eqb id' id || negb (busy (sub_phase sub'))) (map_to_list (subs p))
  | _ => true
  end.
Fixpoint turns (l : list PubsubStep) (p : PGPubsub) : option PGPubsub :=
  match l with [] => Some p | a :: l => if allowed a p then p ← step a p; turns l p else None end.

Lemma turns_rtc l p p' : turns l p = Some p' -> rtc turn p p'.
Proof.
  revert p. induction l as [|a l IH]; simpl; intros p Hs; [injection Hs as <-; constructor|].
  destruct (allowed a p) eqn:Ha; [|done]. destruct (step a p) as [p1|] eqn:E; [|done]. eapply rtc_l; [|by apply IH].
  apply (turn_step p p1 a E). intros id sub -> Hs' id' sub' Hne Hi _. unfold allowed in Ha. rewrite forallb_forall in Ha.
  specialize (Ha (id', sub')). rewrite <- list_elem_of_In, elem_of_map_to_list in Ha. specialize (Ha Hi). simpl in Ha.
  apply orb_true_iff in Ha as [Ha|Ha]; [by apply Nat.eqb_eq in Ha|by apply negb_true_iff].
Qed.

(** A subscription waits until the cancellation of the first has stopped listening. *)
Definition busy_run : list PubsubStep :=
  [Subscribe 1 "e" Listener; Wait 1; Listen 1 true; Cancel 1; Subscribe 2 "e" Listener; Unlisten 1 true; CloseChannel 1; Wait 2;
   Listen 2 true; Cleanup 1].
Definition after_run : PGPubsub := default newPubsub (turns busy_run newPubsub).
Definition second : Subscription := mkSubscription "e" Active (newMsgQueue Listener).

Lemma after_run_turns : rtc turn newPubsub after_run.
Proof. apply (turns_rtc busy_run). unfold after_run. destruct (turns busy_run newPubsub) eqn:E; [done|]. by vm_compute in E. Qed.
Lemma second_active : subs after_run !! 2 = Some second.
Proof. vm_compute. reflexivity. Qed.
Lemma busy_run_steps : steps busy_run newPubsub = Some after_run.
Proof. vm_compute. reflexivity. Qed.
Example blocked : steps [Subscribe 1 "e" Listener; Wait 1; Listen 1 true; Cancel 1; Subscribe 2 "e" Listener; Wait 2] newPubsub = None.
Proof. vm_compute. reflexivity. Qed.
End Examples.

Lemma active_hears_witness : "e"%string ∈ listening Examples.after_run.
Proof.
  destruct (active_hears Examples.after_run 2 Examples.second [x61] Examples.after_run_turns Examples.second_active eq_refl) as [Hl _]. exact Hl.
Defined.

Lemma reconnect_warns_witness :
  exists p', step Reconnect Examples.after_run = Some p' /\ subs p' !! 2 = Some (Examples.second{{ sub_queue := dropped (newMsgQueue Listener) }}).
Proof. exact (reconnect_warns Examples.busy_run Examples.after_run 2 Examples.second Examples.busy_run_steps Examples.second_active eq_refl). Defined.
