(* ===== verification/Entitlements.v ===== *)
(** * Features and entitlements: [wirtualsdk/deployment.go]

    What a license can grant, when one grant of a feature is better than another,
    and adding a grant to the ones a deployment has. *)

From Stdlib Require Import Ascii.
From S2P Require Import Prelude GoStrings GoTime.

(** A Go string; values other than the three constants weigh least. *)
Abbreviation Entitlement := string.
Definition EntitlementEntitled : Entitlement := "entitled".
Definition EntitlementGracePeriod : Entitlement := "grace_period".
Definition EntitlementNotEntitled : Entitlement := "not_entitled".

Definition Entitled (e : Entitlement) : bool := String.eqb e EntitlementEntitled || String.eqb e EntitlementGracePeriod.

Definition Weight (e : Entitlement) : Z :=
  if String.eqb e EntitlementEntitled then 2
  else if String.eqb e EntitlementGracePeriod then 1
  else if String.eqb e EntitlementNotEntitled then -1
  else -2.

Abbreviation FeatureName := string.
Definition FeatureUserLimit : FeatureName := "user_limit".
Definition FeatureSCIM : FeatureName := "scim".
Definition FeatureTemplateRBAC : FeatureName := "template_rbac".
Definition FeatureHighAvailability : FeatureName := "high_availability".
Definition FeatureMultipleExternalAuth : FeatureName := "multiple_external_auth".
Definition FeatureExternalProvisionerDaemons : FeatureName := "external_provisioner_daemons".
Definition FeatureAppearance : FeatureName := "appearance".
Definition FeatureWorkspaceBatchActions : FeatureName := "workspace_batch_actions".
Definition FeatureCustomRoles : FeatureName := "custom_roles".
Definition FeatureMultipleOrganizations : FeatureName := "multiple_organizations".

Definition FeatureNames : list FeatureName :=
  [FeatureUserLimit; "audit_log"; "browser_only"; FeatureSCIM; FeatureTemplateRBAC; FeatureHighAvailability;
   FeatureMultipleExternalAuth; FeatureExternalProvisionerDaemons; FeatureAppearance; "advanced_template_scheduling";
   "workspace_proxy"; "user_role_management"; "external_token_encryption"; FeatureWorkspaceBatchActions; "access_control";
   "control_shared_ports"; FeatureCustomRoles; FeatureMultipleOrganizations].

(** [strings.ReplaceAll(s, "_", " ")] and [strings.Title], on ASCII text without
    other separators than spaces. *)
Fixpoint spaced (s : string) : string :=
  match s with
  | EmptyString => EmptyString
  | String a s => String (if Ascii.eqb a "_" then " "%char else a) (spaced s)
  end.
Fixpoint Title (first : bool) (s : string) : string :=
  match s with
  | EmptyString => EmptyString
  | String a s => String (if first then upper a else a) (Title (Ascii.eqb a " ") s)
  end.

Definition Humanize (n : FeatureName) : string :=
  if String.eqb n FeatureTemplateRBAC then "Template RBAC"
  else if String.eqb n FeatureSCIM then "SCIM"
  else Title true (spaced n).

Definition AlwaysEnable (n : FeatureName) : bool :=
  existsb (String.eqb n)
    [FeatureMultipleExternalAuth; FeatureExternalProvisionerDaemons; FeatureAppearance; FeatureWorkspaceBatchActions;
     FeatureHighAvailability; FeatureCustomRoles; FeatureMultipleOrganizations].

Definition Enterprise (n : FeatureName) : bool :=
  negb (String.eqb n FeatureMultipleOrganizations || String.eqb n FeatureCustomRoles).

Abbreviation FeatureSet := string.
Definition FeatureSetEnterprise : FeatureSet := "enterprise".
Definition FeatureSetPremium : FeatureSet := "premium".

Definition set_Features (set : FeatureSet) : list FeatureName :=
  if String.eqb (ToLower set) FeatureSetEnterprise then List.filter Enterprise FeatureNames
  else if String.eqb (ToLower set) FeatureSetPremium then FeatureNames
  else [].

(** Limits and actual uses are 64-bit. *)
Record Feature := mkFeature { ft_Entitlement : Entitlement; ft_Enabled : bool; ft_Limit : option Z; ft_Actual : option Z }.

Definition Capable (f : Feature) : bool :=
  match ft_Limit f, ft_Actual f with Some l, Some a => a <=? l | _, _ => true end.

(** The part of [Compare] after the entitlements were found equal. *)
Definition compare_actual (f b : Feature) : Z :=
  match ft_Actual f, ft_Actual b with
  | None, Some _ => -1
  | Some _, None => 1
  | Some x, Some y => wraps 64 (x - y)
  | None, None => 0
  end.
Definition compare_enabled (f b : Feature) : Z :=
  if ft_Enabled f && negb (ft_Enabled b) then 1
  else if negb (ft_Enabled f) && ft_Enabled b then -1
  else compare_actual f b.
Definition compare_limit (f b : Feature) : Z :=
  match ft_Limit f, ft_Limit b with
  | None, Some _ => -1
  | Some _, None => 1
  | Some x, Some y => if wraps 64 (x - y) =? 0 then compare_enabled f b else wraps 64 (x - y)
  | None, None => compare_enabled f b
  end.
Definition compare_entitlement (f b : Feature) : Z :=
  let entitlementDifference := Weight (ft_Entitlement f) - Weight (ft_Entitlement b) in
  if entitlementDifference =? 0 then compare_limit f b else entitlementDifference.

Definition Compare (f b : Feature) : Z :=
  if (negb (Capable f) || negb (Capable b)) && ((0 <=? Weight (ft_Entitlement f)) && (0 <=? Weight (ft_Entitlement b))) then
    if Capable f && negb (Capable b) then 1
    else if Capable b && negb (Capable f) then -1
    else compare_entitlement f b
  else compare_entitlement f b.

Record Entitlements := mkEntitlements {
  en_Features : gmap FeatureName Feature;
  en_Warnings : list string;
  en_Errors : list string;
  en_HasLicense : bool;
  en_Trial : bool;
  en_RequireTelemetry : bool;
  en_RefreshedAt : Time;
}.

Definition set_feature (name : FeatureName) (f : Feature) (e : Entitlements) : Entitlements :=
  e{{ en_Features := <[name := f]> (en_Features e) }}.

Definition AddFeature (name : FeatureName) (add : Feature) (e : Entitlements) : Entitlements :=
  match en_Features e !! name with
  | None => set_feature name add e
  | Some existing => if 0 <? Compare add existing then set_feature name add e else e
  end.

(** * Theorems *)

(** ** Comparing in the lexicographic order *)

Fixpoint lexical (a b : list Z) : Z :=
  match a, b with
  | x :: a, y :: b => if x =? y then lexical a b else Z.sgn (x - y)
  | _, _ => 0
  end.

Lemma lexical_refl a : lexical a a = 0.
Proof. induction a as [|x a IH]; simpl; [done|]. by rewrite Z.eqb_refl. Qed.

Lemma lexical_opp a b : lexical b a = - lexical a b.
Proof.
  revert b. induction a as [|x a IH]; intros [|y b]; simpl; try done. rewrite (Z.eqb_sym y x).
  destruct (x =? y); [apply IH|]. rewrite <- Z.sgn_opp. f_equal. lia.
Qed.

Lemma lexical_trans a b c : length a = length b -> length b = length c ->
  lexical a b <= 0 -> lexical b c <= 0 -> lexical a c <= 0.
Proof.
  revert b c. induction a as [|x a IH]; intros [|y b] [|z c] Hl1 Hl2 H1 H2; simpl in *; try done; try lia.
  destruct (Z.eqb_spec x y) as [->|], (Z.eqb_spec y z) as [->|]; simpl.
  - by apply (IH b c); [lia|lia|..].
  - replace (y =? z) with false by lia. lia.
  - replace (x =? z) with false by lia. lia.
  - destruct (Z.eqb_spec x z) as [->|]; lia.
Qed.

Lemma lexical_eq a b : length a = length b -> lexical a b = 0 -> a = b.
Proof.
  revert b. induction a as [|x a IH]; intros [|y b] Hl H; simpl in *; try done. destruct (Z.eqb_spec x y) as [->|]; [|lia].
  f_equal. apply IH; [lia|done].
Qed.

(** What [Compare] compares, the most important part first: an entitlement at all,
    then the limit being high enough, then the entitlement, the limit, being
    enabled and the actual use. *)
Definition limit_rank (f : Feature) : list Z := [default (-1) (ft_Limit f); Z.b2z (ft_Enabled f); default (-1) (ft_Actual f)].
Definition rank (f : Feature) : list Z :=
  let w := Weight (ft_Entitlement f) in
  Z.min w 0 :: (if 0 <=? w then Z.b2z (Capable f) else 0) :: w :: limit_rank f.

(** Numbers that are counts. *)
Definition count (o : option Z) : Prop := match o with Some x => 0 <= x < 2 ^ 63 | None => True end.
Record counts (f : Feature) : Prop := { ct_limit : count (ft_Limit f); ct_actual : count (ft_Actual f) }.

Lemma count_diff x y : 0 <= x < 2 ^ 63 -> 0 <= y < 2 ^ 63 -> wraps 64 (x - y) = x - y.
Proof. intros Hx Hy. apply wraps_id; lia. Qed.

Lemma compare_limit_lex f b : counts f -> counts b -> Z.sgn (compare_limit f b) = lexical (limit_rank f) (limit_rank b).
Proof.
  intros [Hfl Hfa] [Hbl Hba]. unfold limit_rank, compare_limit, compare_enabled, compare_actual.
  destruct f as [ef nf [lf|] [af|]], b as [eb nb [lb|] [ab|]]; cbn -[wraps Z.pow] in *; rewrite ?count_diff by done;
    destruct nf, nb; simpl; repeat case_match; lia.
Qed.

(** [Compare] is the lexicographic order of what it compares, as long as the
    numbers are counts: so it is a total order in which a limit that is high enough
    beats one that is not, whichever of them is in its grace period, and a better
    entitlement comes next. *)
Lemma Compare_lex f b : counts f -> counts b -> Z.sgn (Compare f b) = lexical (rank f) (rank b).
Proof.
  intros Hf Hb. unfold Compare, compare_entitlement, rank. pose proof (compare_limit_lex f b Hf Hb) as Hl.
  generalize dependent (compare_limit f b). generalize (limit_rank f) (limit_rank b). intros kf kb c Hl.
  generalize (Weight (ft_Entitlement f)) (Weight (ft_Entitlement b)). intros wf wb.
  assert (He : Z.sgn (if wf - wb =? 0 then c else wf - wb) = lexical (wf :: kf) (wb :: kb)).
  { simpl. rewrite <- Hl. destruct (Z.eqb_spec wf wb) as [->|]; [by rewrite Z.sub_diag|]. by replace (wf - wb =? 0) with false by lia. }
  generalize dependent (if wf - wb =? 0 then c else wf - wb). intros d Hd.
  destruct (Z.leb_spec 0 wf), (Z.leb_spec 0 wb); rewrite ?(Z.min_r wf), ?(Z.min_r wb), ?(Z.min_l wf), ?(Z.min_l wb) by lia.
  all: destruct (Capable f), (Capable b); cbn -[lexical]; rewrite ?Hd. all: simpl; repeat case_match; simpl in *; try lia.
Qed.

Lemma Compare_sign f b : counts f -> counts b -> (Compare f b <= 0 <-> lexical (rank f) (rank b) <= 0).
Proof. intros Hf Hb. rewrite <- Compare_lex by done. lia. Qed.

(** ** Adding grants keeps the best *)

Definition keep_best (cur add : Feature) : Feature := if 0 <? Compare add cur then add else cur.

Lemma AddFeature_keep_best name add e f0 : en_Features e !! name = Some f0 ->
  en_Features (AddFeature name add e) = <[name := keep_best f0 add]> (en_Features e).
Proof.
  intros H0. unfold AddFeature, keep_best. rewrite H0. destruct (0 <? Compare add f0); [done|]. symmetry. by apply insert_id.
Qed.

Lemma AddFeature_other name name' add e : name <> name' -> en_Features (AddFeature name add e) !! name' = en_Features e !! name'.
Proof.
  intros Hne. unfold AddFeature. destruct (en_Features e !! name) as [f0|]; [destruct (0 <? _); [|done]|]; simpl; by rewrite lookup_insert_ne.
Qed.

Lemma AddFeature_fold name l e f0 : en_Features e !! name = Some f0 ->
  en_Features (foldl (fun e f => AddFeature name f e) e l) !! name = Some (foldl keep_best f0 l).
Proof.
  revert e f0. induction l as [|f l IH]; intros e f0 H0; simpl; [done|]. apply IH.
  rewrite (AddFeature_keep_best name f e f0 H0). by rewrite lookup_insert_eq.
Qed.

Lemma le_trans_rank f g h : lexical (rank f) (rank g) <= 0 -> lexical (rank g) (rank h) <= 0 -> lexical (rank f) (rank h) <= 0.
Proof. by apply lexical_trans. Qed.

(** The best is one of them, and none is better. *)
Lemma keep_best_max l f0 : Forall counts (f0 :: l) ->
  foldl keep_best f0 l ∈ f0 :: l /\ forall g, g ∈ f0 :: l -> lexical (rank g) (rank (foldl keep_best f0 l)) <= 0.
Proof.
  revert f0. induction l as [|f l IH]; intros f0 Hc; simpl.
  - split; [set_solver|]. intros g ->%list_elem_of_singleton. exact (Z.eq_le_incl _ _ (lexical_refl (rank f0))).
  - rewrite !Forall_cons in Hc. destruct Hc as (H0 & Hf & Hl).
    assert (Hk : (keep_best f0 f = f0 \/ keep_best f0 f = f) /\ lexical (rank f0) (rank (keep_best f0 f)) <= 0 /\
                 lexical (rank f) (rank (keep_best f0 f)) <= 0).
    { unfold keep_best. pose proof (Compare_lex f f0 Hf H0) as Hs. pose proof (lexical_opp (rank f) (rank f0)) as Ho.
      pose proof (lexical_refl (rank f)). pose proof (lexical_refl (rank f0)). destruct (Z.ltb_spec 0 (Compare f f0)); split_and!; auto; lia. }
    destruct Hk as (Hor & Hk0 & Hkf).
    destruct (IH (keep_best f0 f)) as [Hin Hmax]; [constructor; [by destruct Hor as [-> | ->]|done]|].
    assert (Hb := Hmax (keep_best f0 f) ltac:(left)). split.
    + apply elem_of_cons in Hin as [-> |Hin]; [destruct Hor as [-> | ->]; set_solver|set_solver].
    + intros g [-> |[-> |Hg]%elem_of_cons]%elem_of_cons; [by eapply le_trans_rank..|]. apply Hmax. set_solver.
Qed.

Definition known (f : Feature) : Prop := ft_Entitlement f ∈ [EntitlementEntitled; EntitlementGracePeriod; EntitlementNotEntitled].

Lemma default_count x y : count x -> count y -> default (-1) x = default (-1) y -> x = y.
Proof. destruct x, y; simpl; intros; try done; try lia. by f_equal. Qed.

Lemma rank_inj f g : known f -> known g -> counts f -> counts g -> rank f = rank g -> f = g.
Proof.
  intros Hf Hg [Hfl Hfa] [Hgl Hga] Hk. unfold rank, limit_rank in Hk. injection Hk as _ _ Hw Hl Hn Ha.
  destruct f as [ef nf lf af], g as [eg ng lg ag]; simpl in *.
  assert (ef = eg) as ->.
  { unfold known in *. simpl in *. rewrite !elem_of_cons in Hf, Hg.
    destruct Hf as [->|[->|[->|Hf]]], Hg as [->|[->|[->|Hg]]]; try done; by apply not_elem_of_nil in Hf || by apply not_elem_of_nil in Hg. }
  rewrite (default_count lf lg), (default_count af ag) by done. f_equal. by destruct nf, ng.
Qed.

(** Adding grants of a feature keeps the best of them and of the one the
    deployment had: it is one of these, unmerged, none of the others compares
    better, and the order of adding does not matter. *)
Lemma AddFeature_best name l l' e f0 :
  en_Features e !! name = Some f0 -> Forall counts (f0 :: l) -> Forall known (f0 :: l) -> l ≡ₚ l' ->
  exists r, en_Features (foldl (fun e f => AddFeature name f e) e l) !! name = Some r /\
    r ∈ f0 :: l /\ (forall g, g ∈ f0 :: l -> Compare g r <= 0) /\
    en_Features (foldl (fun e f => AddFeature name f e) e l') !! name = Some r.
Proof.
  intros H0 Hc Hk Hp. pose proof (keep_best_max l f0 Hc) as [Hin Hmax].
  assert (Hc' : Forall counts (f0 :: l')) by (by rewrite <- Hp). pose proof (keep_best_max l' f0 Hc') as [Hin' Hmax'].
  rewrite Forall_forall in Hc, Hc', Hk.
  assert (Hel : forall g, g ∈ f0 :: l <-> g ∈ f0 :: l') by (intros g; by rewrite Hp).
  exists (foldl keep_best f0 l). rewrite !(AddFeature_fold name _ e f0 H0). split_and!; [done|done| |].
  - intros g Hg. apply Compare_sign; auto.
  - f_equal. symmetry. apply rank_inj; [by apply Hk|by apply Hk, Hel|by apply Hc|by apply Hc'|]. apply lexical_eq; [done|].
    pose proof (Hmax _ (proj2 (Hel _) Hin')). pose proof (Hmax' _ (proj1 (Hel _) Hin)). pose proof (lexical_opp (rank (foldl keep_best f0 l)) (rank (foldl keep_best f0 l'))). lia.
Qed.

Module Examples.
Definition old : Feature := mkFeature EntitlementGracePeriod true (Some 100) (Some 20).
Definition small : Feature := mkFeature EntitlementEntitled true (Some 10) (Some 20).
Definition none : Feature := mkFeature EntitlementNotEntitled false None (Some 20).
Definition unlicensed : Entitlements := mkEntitlements {["user_limit" := none]} [] [] false false false zeroTime.
End Examples.

Lemma AddFeature_best_witness :
  en_Features (foldl (fun e f => AddFeature "user_limit" f e) Examples.unlicensed [Examples.small; Examples.old]) !! "user_limit"%string =
  en_Features (foldl (fun e f => AddFeature "user_limit" f e) Examples.unlicensed [Examples.old; Examples.small]) !! "user_limit"%string.
Proof.
  destruct (AddFeature_best "user_limit" [Examples.small; Examples.old] [Examples.old; Examples.small] Examples.unlicensed Examples.none)
    as (r & -> & _ & _ & ->); [reflexivity|..].
  - repeat constructor; simpl; lia.
  - repeat constructor; apply (bool_decide_unpack _); reflexivity.
  - apply perm_swap.
  - reflexivity.
Defined.
