(* ===== verification/License.v ===== *)
(** * Licenses: [enterprise/wirtuald/license/license.go]

    What the licenses of a deployment entitle it to: the claims of a license, the
    grants of each license, and the warnings and errors for what is used without
    one.  Parsing and verifying a token is the JWT library's. *)

From S2P Require Import Prelude GoStrings GoEncoding GoTime Entitlements.

Record Claims := mkClaims {
  cl_ExpiresAt : option Time;              (* the end of the grace period *)
  cl_LicenseExpires : option Time;         (* its start *)
  cl_Trial : bool;
  cl_FeatureSet : FeatureSet;
  cl_AllFeatures : bool;
  cl_Version : Z;
  cl_Features : gmap FeatureName Z;        (* [Features] *)
  cl_RequireTelemetry : bool;
}.

(** The library's errors: the ones of [jwt.ValidationError] have a set of bits. *)
Record JwtError := mkJwtError { je_Errors : option Z; je_text : string }.

(** [jwt.ParseWithClaims]: the claims it decoded, also beside an error, and the zero
    ones when it decoded none.  It calls the function for the key with the header's
    key identifier, if that is a string. *)
Class JwtLib := {
  PublicKey : Type;
  ValidationErrorNotValidYet : Z;
  ParseWithClaims : string -> (option string -> result PublicKey) -> Claims * option JwtError;
}.

Definition CurrentVersion : Z := 3.
Definition ErrInvalidVersion : string := "license must be version 3".
Definition ErrMissingKeyID : string := "JOSE header must contain kid".
Definition ErrMissingLicenseExpires : string := "license missing license_expires".
Definition ErrMissingExp : string := "exp claim missing or not parsable".
Definition ErrMultipleIssues : string := "license has multiple issues; contact support".

Record License := mkLicense { li_ID : Z; li_JWT : string; li_Exp : Time; li_UUID : uuid }.

Record FeatureArguments := mkArguments { fa_ActiveUserCount : Z; fa_ReplicaCount : Z; fa_ExternalAuthCount : Z }.

(** A claims' error: the library's, or the text of one of this package. *)
Definition plain (msg : string) : JwtError := mkJwtError None msg.

Definition validateClaims (claims : Claims) : Claims + JwtError :=
  if negb (cl_Version claims =? CurrentVersion) then inr (plain ErrInvalidVersion)
  else match cl_LicenseExpires claims, cl_ExpiresAt claims with
       | None, _ => inr (plain ErrMissingLicenseExpires)
       | _, None => inr (plain ErrMissingExp)
       | Some _, Some _ => inl claims
       end.

Section Licenses.
Context `{JwtLib} `{MapRange} `{UuidText}.
Context (keys : gmap string PublicKey).

Definition keyFunc (kid : option string) : result PublicKey :=
  match kid with
  | None => Err ErrMissingKeyID
  | Some keyID => match keys !! keyID with
                  | Some k => Ok k
                  | None => Err ("no key with ID " +:+ keyID)
                  end
  end.

Definition ParseClaims (rawJWT : string) : Claims + JwtError :=
  match ParseWithClaims rawJWT keyFunc with
  | (_, Some err) => inr err
  | (claims, None) => validateClaims claims
  end.

(** [vErr.Is(jwt.ErrTokenNotValidYet)] *)
Definition not_valid_yet (err : JwtError) : bool :=
  match je_Errors err with
  | Some bits => negb (Z.land bits ValidationErrorNotValidYet =? 0)
  | None => false
  end.

Definition ParseClaimsIgnoreNbf (rawJWT : string) : Claims + JwtError :=
  match ParseWithClaims rawJWT keyFunc with
  | (claims, Some err) =>
      match je_Errors err with
      | Some bits =>
          if negb (Z.ldiff bits ValidationErrorNotValidYet =? 0) then inr (plain ErrMultipleIssues) else validateClaims claims
      | None => inr err
      end
  | (claims, None) => validateClaims claims
  end.

(** The number of days, rounded up: the code divides 64-bit floats, where a
    nanosecond still shows in a number of hours below thirty days. *)
Definition days_to_expire (d : Z) : Z := - (- d / (24 * Hour)).

Definition warn (w : string) (e : Entitlements) : Entitlements := e{{ en_Warnings := en_Warnings e ++ [w] }}.
Definition error (msg : string) (e : Entitlements) : Entitlements := e{{ en_Errors := en_Errors e ++ [msg] }}.

Definition licenseExpirationWarning (now expires : Time) (e : Entitlements) : Entitlements :=
  let daysToExpire := days_to_expire (Sub expires now) in
  let showWarningDays := if en_Trial e then 7 else 30 in
  if (0 <? daysToExpire) && (daysToExpire <? showWarningDays) then
    warn ("Your license expires in " +:+ FormatInt daysToExpire +:+ " " +:+ (if 1 <? daysToExpire then "days" else "day") +:+ ".") e
  else e.

Context (now : Time) (enablements : gmap FeatureName bool) (args : FeatureArguments).

(** [enablements[name]] *)
Definition enabled (name : FeatureName) : bool := default false (enablements !! name).

Definition initial : Entitlements :=
  mkEntitlements
    {[FeatureUserLimit := mkFeature EntitlementNotEntitled (enabled FeatureUserLimit) None (Some (fa_ActiveUserCount args))]}
    [] [] false false false zeroTime.

Definition defaults (e : Entitlements) : Entitlements :=
  foldl (fun e name => AddFeature name (mkFeature EntitlementNotEntitled (enabled name) None None) e) e FeatureNames.

Definition license_entitlement (claims : Claims) : Entitlement :=
  match cl_LicenseExpires claims with
  | Some t => if After now t then EntitlementGracePeriod else EntitlementEntitled
  | None => EntitlementEntitled
  end.

Definition license_set (claims : Claims) : FeatureSet :=
  if cl_AllFeatures claims && String.eqb (cl_FeatureSet claims) "" then FeatureSetEnterprise else cl_FeatureSet claims.

Definition set_grant (entitlement : Entitlement) (e : Entitlements) (name : FeatureName) : Entitlements :=
  if String.eqb name FeatureUserLimit then e
  else AddFeature name (mkFeature entitlement (enabled name || AlwaysEnable name) None None) e.

Definition user_limit (entitlement : Entitlement) (limit : Z) : Feature :=
  mkFeature entitlement true (Some limit) (Some (fa_ActiveUserCount args)).

Definition carte_grant (entitlement : Entitlement) (features : gmap FeatureName Z) (e : Entitlements) (name : FeatureName) : Entitlements :=
  let featureValue := default 0 (features !! name) in
  if featureValue <=? 0 then e
  else if String.eqb name FeatureUserLimit then AddFeature FeatureUserLimit (user_limit entitlement featureValue) e
  else set_feature name (mkFeature entitlement (enabled name || AlwaysEnable name) None None) e.

Definition add_claims (e : Entitlements) (claims : Claims) : Entitlements :=
  let entitlement := license_entitlement claims in
  let e := e{{ en_HasLicense := true; en_RequireTelemetry := en_RequireTelemetry e || cl_RequireTelemetry claims; en_Trial := cl_Trial claims }} in
  let e := licenseExpirationWarning now (default zeroTime (cl_LicenseExpires claims)) e in
  let e := foldl (set_grant entitlement) e (set_Features (license_set claims)) in
  foldl (carte_grant entitlement (cl_Features claims)) e (range (dom (cl_Features claims))).

Definition add_license (e : Entitlements) (license : License) : Entitlements :=
  match ParseClaims (li_JWT license) with
  | inr err =>
      if not_valid_yet err then e
      else error ("Invalid license (" +:+ uuid_String (li_UUID license) +:+ ") parsing claims: " +:+ je_text err) e
  | inl claims => add_claims e claims
  end.

(** [entitlements.Features[name]]: the zero value for a missing name. *)
Definition feature (e : Entitlements) (name : FeatureName) : Feature :=
  default (mkFeature "" false None None) (en_Features e !! name).

Definition check_replicas (e : Entitlements) : Entitlements :=
  if 1 <? fa_ReplicaCount args then
    let ent := ft_Entitlement (feature e FeatureHighAvailability) in
    if String.eqb ent EntitlementNotEntitled then
      if en_HasLicense e then
        error "You have multiple replicas but your license is not entitled to high availability. You will be unable to connect to workspaces." e
      else error "You have multiple replicas but high availability is an Enterprise feature. You will be unable to connect to workspaces." e
    else if String.eqb ent EntitlementGracePeriod then
      warn "You have multiple replicas but your license for high availability is expired. Reduce to one replica or workspace connections will stop working." e
    else e
  else e.

Definition check_external_auth (e : Entitlements) : Entitlements :=
  if 1 <? fa_ExternalAuthCount args then
    let ent := ft_Entitlement (feature e FeatureMultipleExternalAuth) in
    if String.eqb ent EntitlementNotEntitled then
      if en_HasLicense e then error "You have multiple External Auth Providers configured but your license is limited at one." e
      else error "You have multiple External Auth Providers configured but this is an Enterprise feature. Reduce to one." e
    else if String.eqb ent EntitlementGracePeriod then
      warn "You have multiple External Auth Providers configured but your license is expired. Reduce to one." e
    else e
  else e.

Definition check_users (e : Entitlements) : Entitlements :=
  let userLimit := feature e FeatureUserLimit in
  match ft_Limit userLimit with
  | Some limit =>
      if limit <? fa_ActiveUserCount args then
        warn ("Your deployment has " +:+ FormatInt (fa_ActiveUserCount args) +:+ " active users but is only licensed for " +:+ FormatInt limit +:+ ".") e
      else if String.eqb (ft_Entitlement userLimit) EntitlementGracePeriod then
        warn ("Your deployment has " +:+ FormatInt (fa_ActiveUserCount args) +:+ " active users but the license with the limit " +:+ FormatInt limit +:+ " is expired.") e
      else e
  | None => e
  end.

(** The features that have warnings of their own. *)
Definition own_warnings (name : FeatureName) : bool :=
  String.eqb name FeatureUserLimit || String.eqb name FeatureHighAvailability || String.eqb name FeatureMultipleExternalAuth.

Definition check_feature (e : Entitlements) (name : FeatureName) : Entitlements :=
  if own_warnings name then e
  else
    let f := feature e name in
    if negb (ft_Enabled f) then e
    else if String.eqb (ft_Entitlement f) EntitlementNotEntitled then
      warn (Humanize name +:+ " is enabled but your license is not entitled to this feature.") e
    else if String.eqb (ft_Entitlement f) EntitlementGracePeriod then
      warn (Humanize name +:+ " is enabled but your license for this feature is expired.") e
    else e.

Definition check_licensed (e : Entitlements) : Entitlements :=
  if en_HasLicense e then foldl check_feature (check_users e) FeatureNames else e.

Definition disable (e : Entitlements) (name : FeatureName) : Entitlements :=
  let f := feature e name in
  if String.eqb (ft_Entitlement f) EntitlementNotEntitled then set_feature name (f{{ ft_Enabled := false }}) e else e.

Definition LicensesEntitlements (licenses : list License) : Entitlements :=
  let e := foldl add_license (defaults initial) licenses in
  let e := check_licensed (check_external_auth (check_replicas e)) in
  let e := foldl disable e FeatureNames in
  e{{ en_RefreshedAt := now }}.

(** * Theorems *)

(** ** The steps on one feature *)

(** The licenses that count. *)
Definition valid (licenses : list License) : list Claims :=
  omap (fun l => match ParseClaims (li_JWT l) with inl c => Some c | inr _ => None end) licenses.

Definition in_set (c : Claims) (name : FeatureName) : bool := bool_decide (name ∈ set_Features (license_set c)).
Definition carte (c : Claims) (name : FeatureName) : bool := 0 <? default 0 (cl_Features c !! name).
Definition granted (c : Claims) (name : FeatureName) : Feature :=
  mkFeature (license_entitlement c) (enabled name || AlwaysEnable name) None None.

Lemma foldl_keeps {A B C} (g : A -> C) (step : A -> B -> A) l e :
  (forall e b, g (step e b) = g e) -> g (foldl step e l) = g e.
Proof. intros Hs. revert e. induction l as [|b l IH]; intros e; [done|]. cbn [foldl]. by rewrite IH. Qed.

Lemma AddFeature_HasLicense name f e : en_HasLicense (AddFeature name f e) = en_HasLicense e.
Proof. unfold AddFeature. destruct (en_Features e !! name); [by destruct (0 <? _)|done]. Qed.

Lemma licenseExpirationWarning_features t e : en_Features (licenseExpirationWarning now t e) = en_Features e.
Proof. unfold licenseExpirationWarning. by destruct (_ && _). Qed.

Lemma set_grants_feature entitlement l e name x :
  NoDup l -> name <> FeatureUserLimit -> en_Features e !! name = Some x ->
  en_Features (foldl (set_grant entitlement) e l) !! name =
    Some (if bool_decide (name ∈ l) then keep_best x (mkFeature entitlement (enabled name || AlwaysEnable name) None None) else x).
Proof.
  intros Hnd Hne. revert e x. induction Hnd as [|a l Ha Hnd IH]; intros e x Hx; [done|]. cbn [foldl].
  destruct (decide (a = name)) as [->|Hane].
  - assert (Hs : en_Features (set_grant entitlement e name) !! name =
      Some (keep_best x (mkFeature entitlement (enabled name || AlwaysEnable name) None None))).
    { unfold set_grant. apply String.eqb_neq in Hne as ->. rewrite (AddFeature_keep_best name _ e x Hx). by rewrite lookup_insert_eq. }
    rewrite (IH _ _ Hs). by rewrite (bool_decide_false (name ∈ l)), bool_decide_true by set_solver.
  - assert (Hs : en_Features (set_grant entitlement e a) !! name = Some x).
    { unfold set_grant. destruct (String.eqb a FeatureUserLimit); [done|]. by rewrite AddFeature_other. }
    rewrite (IH _ _ Hs). by rewrite (bool_decide_ext (name ∈ a :: l) (name ∈ l)) by set_solver.
Qed.

Lemma set_grants_user_limit entitlement l e :
  en_Features (foldl (set_grant entitlement) e l) !! FeatureUserLimit = en_Features e !! FeatureUserLimit.
Proof.
  revert e. induction l as [|a l IH]; intros e; [done|]. simpl. rewrite IH. unfold set_grant.
  destruct (String.eqb_spec a FeatureUserLimit); [done|]. by rewrite AddFeature_other.
Qed.

Lemma carte_grants_feature entitlement features l e name :
  name <> FeatureUserLimit ->
  en_Features (foldl (carte_grant entitlement features) e l) !! name =
    if bool_decide (name ∈ l) && (0 <? default 0 (features !! name))
    then Some (mkFeature entitlement (enabled name || AlwaysEnable name) None None) else en_Features e !! name.
Proof.
  intros Hne. revert e. induction l as [|a l IH]; intros e; [done|]. cbn [foldl]. rewrite IH. clear IH.
  assert (Hs : en_Features (carte_grant entitlement features e a) !! name =
    if bool_decide (name = a) && (0 <? default 0 (features !! name))
    then Some (mkFeature entitlement (enabled name || AlwaysEnable name) None None) else en_Features e !! name).
  { unfold carte_grant. rewrite Z.ltb_antisym. case_bool_decide as Ha; [subst a|]; simpl.
    - destruct (default 0 (features !! name) <=? 0); simpl; [done|]. apply String.eqb_neq in Hne as ->. simpl. by rewrite lookup_insert_eq.
    - destruct (_ <=? 0); [done|]. destruct (String.eqb_spec a FeatureUserLimit) as [->|]; [by rewrite AddFeature_other|].
      simpl. by rewrite lookup_insert_ne. }
  rewrite Hs. rewrite (bool_decide_ext (name ∈ a :: l) (name = a \/ name ∈ l)) by set_solver.
  repeat case_bool_decide; simpl; try tauto; by destruct (0 <? _).
Qed.

Lemma carte_grants_user_limit entitlement features l e x :
  NoDup l -> en_Features e !! FeatureUserLimit = Some x ->
  en_Features (foldl (carte_grant entitlement features) e l) !! FeatureUserLimit =
    Some (if bool_decide (FeatureUserLimit ∈ l) && (0 <? default 0 (features !! FeatureUserLimit))
          then keep_best x (user_limit entitlement (default 0 (features !! FeatureUserLimit))) else x).
Proof.
  intros Hnd. revert e x. induction Hnd as [|a l Ha Hnd IH]; intros e x Hx; [done|]. cbn [foldl].
  destruct (decide (a = FeatureUserLimit)) as [->|Hane].
  - rewrite (bool_decide_true (FeatureUserLimit ∈ FeatureUserLimit :: l)) by set_solver.
    assert (Hs : en_Features (carte_grant entitlement features e FeatureUserLimit) !! FeatureUserLimit =
      Some (if 0 <? default 0 (features !! FeatureUserLimit)
            then keep_best x (user_limit entitlement (default 0 (features !! FeatureUserLimit))) else x)).
    { unfold carte_grant. rewrite Z.ltb_antisym. destruct (_ <=? 0); simpl; [done|].
      rewrite (AddFeature_keep_best FeatureUserLimit _ e x Hx). by rewrite lookup_insert_eq. }
    rewrite (IH _ _ Hs). by rewrite (bool_decide_false (FeatureUserLimit ∈ l)).
  - assert (Hs : en_Features (carte_grant entitlement features e a) !! FeatureUserLimit = Some x).
    { unfold carte_grant. destruct (_ <=? 0); [done|]. apply String.eqb_neq in Hane as Hane'. rewrite Hane'. simpl. by rewrite lookup_insert_ne. }
    rewrite (IH _ _ Hs). by rewrite (bool_decide_ext (FeatureUserLimit ∈ a :: l) (FeatureUserLimit ∈ l)) by set_solver.
Qed.

(** A positive value is one of the map. *)
Lemma in_range (features : gmap FeatureName Z) name :
  bool_decide (name ∈ range (dom features)) && (0 <? default 0 (features !! name)) = (0 <? default 0 (features !! name)).
Proof.
  case_bool_decide as Hin; [done|]. rewrite range_elem in Hin. apply not_elem_of_dom in Hin. by rewrite Hin.
Qed.

Lemma set_Features_NoDup set : NoDup (set_Features set).
Proof.
  assert (NoDup FeatureNames) by (apply (bool_decide_unpack _); reflexivity). unfold set_Features.
  repeat case_match; [by apply NoDup_ListNoDup, List.NoDup_filter, NoDup_ListNoDup|done|constructor].
Qed.

(** What a valid license makes of a feature. *)
Definition next_feature (name : FeatureName) (x : Feature) (c : Claims) : Feature :=
  if carte c name then granted c name else if in_set c name then keep_best x (granted c name) else x.
Definition next_limit (x : Feature) (c : Claims) : Feature :=
  if carte c FeatureUserLimit then keep_best x (user_limit (license_entitlement c) (default 0 (cl_Features c !! FeatureUserLimit))) else x.
Definition next (name : FeatureName) : Feature -> Claims -> Feature :=
  if String.eqb name FeatureUserLimit then next_limit else next_feature name.

Lemma add_claims_feature e c name x :
  en_Features e !! name = Some x -> en_Features (add_claims e c) !! name = Some (next name x c).
Proof.
  intros Hx. unfold add_claims, next. cbv zeta.
  set (e1 := licenseExpirationWarning now _ _).
  assert (Hx1 : en_Features e1 !! name = Some x) by (unfold e1; by rewrite licenseExpirationWarning_features).
  destruct (String.eqb_spec name FeatureUserLimit) as [->|Hne].
  - rewrite (carte_grants_user_limit _ _ _ _ x); [|apply range_NoDup|by rewrite set_grants_user_limit]. by rewrite in_range.
  - rewrite carte_grants_feature by done. rewrite in_range. unfold next_feature. change (0 <? _) with (carte c name).
    destruct (carte c name); [done|]. rewrite (set_grants_feature _ _ _ _ x (set_Features_NoDup _) Hne Hx1).
    change (bool_decide _) with (in_set c name). by destruct (in_set c name).
Qed.

Lemma valid_cons l licenses :
  valid (l :: licenses) = match ParseClaims (li_JWT l) with inl c => c :: valid licenses | inr _ => valid licenses end.
Proof. unfold valid. simpl. by destruct (ParseClaims (li_JWT l)). Qed.

Lemma add_licenses_feature licenses e name x :
  en_Features e !! name = Some x ->
  en_Features (foldl add_license e licenses) !! name = Some (foldl (next name) x (valid licenses)).
Proof.
  revert e x. induction licenses as [|l licenses IH]; intros e x Hx; [done|]. cbn [foldl]. rewrite valid_cons.
  unfold add_license at 2. destruct (ParseClaims (li_JWT l)) as [c|err]; cbn [foldl].
  - apply IH. by apply add_claims_feature.
  - apply IH. by destruct (not_valid_yet err).
Qed.

Lemma add_licenses_HasLicense licenses e :
  en_HasLicense (foldl add_license e licenses) = en_HasLicense e || negb (bool_decide (valid licenses = [])).
Proof.
  revert e. induction licenses as [|l licenses IH]; intros e; [by rewrite orb_false_r|]. cbn [foldl]. rewrite IH, valid_cons.
  unfold add_license. destruct (ParseClaims (li_JWT l)) as [c|err].
  - assert (Hl : en_HasLicense (add_claims e c) = true).
    { unfold add_claims. cbv zeta. rewrite foldl_keeps, foldl_keeps.
      - unfold licenseExpirationWarning. by destruct (_ && _).
      - intros e' a. unfold set_grant. destruct (String.eqb a FeatureUserLimit); [done|]. apply AddFeature_HasLicense.
      - intros e' a. unfold carte_grant. destruct (_ <=? 0); [done|]. destruct (String.eqb a FeatureUserLimit); [apply AddFeature_HasLicense|done]. }
    by rewrite Hl, (bool_decide_false (_ :: _ = [])), orb_true_r by done.
  - by destruct (not_valid_yet err).
Qed.

(** ** The steps after the licenses *)

Lemma defaults_feature name :
  name ∈ FeatureNames ->
  en_Features (defaults initial) !! name =
    Some (mkFeature EntitlementNotEntitled (enabled name) None
            (if String.eqb name FeatureUserLimit then Some (fa_ActiveUserCount args) else None)).
Proof.
  intros Hin. unfold defaults.
  assert (Hul : forall l e x, x = mkFeature EntitlementNotEntitled (enabled FeatureUserLimit) None (Some (fa_ActiveUserCount args)) ->
    en_Features e !! FeatureUserLimit = Some x ->
    en_Features (foldl (fun e name => AddFeature name (mkFeature EntitlementNotEntitled (enabled name) None None) e) e l) !! FeatureUserLimit = Some x).
  { induction l as [|a l IH]; intros e x Ex Hx; [done|]. cbn [foldl]. apply IH; [done|]. destruct (decide (a = FeatureUserLimit)) as [->|Hne].
    - rewrite (AddFeature_keep_best FeatureUserLimit _ e x Hx), lookup_insert_eq. rewrite Ex. unfold keep_best. by destruct (enabled FeatureUserLimit).
    - by rewrite AddFeature_other. }
  destruct (String.eqb_spec name FeatureUserLimit) as [->|Hne]; [apply Hul; [done|apply lookup_insert_eq]|].
  set (x := mkFeature EntitlementNotEntitled (enabled name) None None).
  assert (Hkeep : forall l e, en_Features e !! name = Some x -> 
    en_Features (foldl (fun e name => AddFeature name (mkFeature EntitlementNotEntitled (enabled name) None None) e) e l) !! name = Some x).
  { induction l as [|a l IH]; intros e Hx; [done|]. cbn [foldl]. apply IH. destruct (decide (a = name)) as [->|Hane].
    - rewrite (AddFeature_keep_best name _ e x Hx), lookup_insert_eq. unfold keep_best, x. by destruct (enabled name).
    - by rewrite AddFeature_other. }
  assert (Hset : forall l e, name ∈ l -> en_Features e !! name = None ->
    en_Features (foldl (fun e name => AddFeature name (mkFeature EntitlementNotEntitled (enabled name) None None) e) e l) !! name = Some x).
  { induction l as [|a l IH]; intros e Hl He; [by apply elem_of_nil in Hl|]. cbn [foldl]. destruct (decide (a = name)) as [->|Hane].
    - apply Hkeep. unfold AddFeature. rewrite He. apply lookup_insert_eq.
    - apply IH; [set_solver|]. by rewrite AddFeature_other. }
  apply Hset; [done|]. by apply lookup_singleton_ne.
Qed.

(** Taking the feature away where it is not entitled. *)
Definition disabled (x : Feature) : Feature :=
  if String.eqb (ft_Entitlement x) EntitlementNotEntitled then x{{ ft_Enabled := false }} else x.

Lemma disabled_entitlement x : ft_Entitlement (disabled x) = ft_Entitlement x.
Proof. unfold disabled. by destruct (String.eqb (ft_Entitlement x) EntitlementNotEntitled). Qed.

Lemma disabled_idem x : disabled (disabled x) = disabled x.
Proof. unfold disabled. destruct x as [e n l a]. simpl. destruct (String.eqb e EntitlementNotEntitled) eqn:E; simpl; by rewrite E. Qed.

Lemma disable_feature l e name x : en_Features e !! name = Some x ->
  en_Features (foldl disable e l) !! name = Some (if bool_decide (name ∈ l) then disabled x else x).
Proof.
  revert e x. induction l as [|a l IH]; intros e x Hx; [done|]. cbn [foldl]. destruct (decide (a = name)) as [->|Hne].
  - assert (Hs : en_Features (disable e name) !! name = Some (disabled x)).
    { unfold disable, disabled, feature. rewrite Hx. change (default _ (Some x)) with x.
      destruct (String.eqb (ft_Entitlement x) EntitlementNotEntitled); [apply lookup_insert_eq|done]. }
    rewrite (IH _ _ Hs). rewrite (bool_decide_true (name ∈ name :: l)) by set_solver. case_bool_decide; [|done].
    by rewrite disabled_idem.
  - assert (Hs : en_Features (disable e a) !! name = Some x).
    { unfold disable. destruct (String.eqb (ft_Entitlement (feature e a)) EntitlementNotEntitled); [|done]. simpl. by rewrite lookup_insert_ne. }
    rewrite (IH _ _ Hs). by rewrite (bool_decide_ext (name ∈ a :: l) (name ∈ l)) by set_solver.
Qed.

Lemma early_checks_features e : en_Features (check_external_auth (check_replicas e)) = en_Features e.
Proof. unfold check_external_auth, check_replicas. by repeat case_match. Qed.

Lemma check_users_features e : en_Features (check_users e) = en_Features e.
Proof. unfold check_users. by repeat case_match. Qed.

Lemma check_feature_features e a : en_Features (check_feature e a) = en_Features e.
Proof. unfold check_feature. by repeat case_match. Qed.

Lemma checks_features e : en_Features (check_licensed (check_external_auth (check_replicas e))) = en_Features e.
Proof.
  unfold check_licensed. destruct (en_HasLicense _); [|apply early_checks_features].
  rewrite (foldl_keeps en_Features) by apply check_feature_features. by rewrite check_users_features, early_checks_features.
Qed.

Lemma refreshed_features e t : en_Features (e{{ en_RefreshedAt := t }}) = en_Features e.
Proof. done. Qed.

(** The feature in the result, step by step. *)
Lemma result_feature licenses name :
  name ∈ FeatureNames ->
  en_Features (LicensesEntitlements licenses) !! name =
    Some (disabled (foldl (next name)
      (mkFeature EntitlementNotEntitled (enabled name) None (if String.eqb name FeatureUserLimit then Some (fa_ActiveUserCount args) else None))
      (valid licenses))).
Proof.
  intros Hin. unfold LicensesEntitlements. cbv zeta. rewrite refreshed_features.
  erewrite (disable_feature _ _ name); [by rewrite bool_decide_true|]. rewrite checks_features. by apply add_licenses_feature, defaults_feature.
Qed.

(** ** What the deployment is entitled to *)

Definition grants (c : Claims) (name : FeatureName) : bool := carte c name || in_set c name.

Definition unlimited (f : Feature) : Prop := ft_Limit f = None /\ ft_Actual f = None.

Lemma keep_best_unlimited x y : unlimited x -> unlimited y ->
  (keep_best x y = x \/ keep_best x y = y) /\
  Weight (ft_Entitlement x) <= Weight (ft_Entitlement (keep_best x y)) /\ Weight (ft_Entitlement y) <= Weight (ft_Entitlement (keep_best x y)).
Proof.
  intros [Hxl Hxa] [Hyl Hya]. unfold keep_best, Compare, compare_entitlement, compare_limit, compare_enabled, compare_actual, Capable.
  rewrite Hxl, Hxa, Hyl, Hya. cbn [negb orb andb].
  destruct (Z.eqb_spec (Weight (ft_Entitlement y) - Weight (ft_Entitlement x)) 0) as [E|E].
  - destruct (ft_Enabled x), (ft_Enabled y); cbn; (split; [auto|split; lia]).
  - destruct (Z.ltb_spec 0 (Weight (ft_Entitlement y) - Weight (ft_Entitlement x))); (split; [auto|split; lia]).
Qed.

Lemma next_feature_sound name l x : unlimited x ->
  unlimited (foldl (next_feature name) x l) /\
  (foldl (next_feature name) x l = x \/
   exists c, c ∈ l /\ grants c name = true /\ foldl (next_feature name) x l = granted c name).
Proof.
  revert x. induction l as [|c l IH]; intros x Hx; cbn [foldl]; [auto|].
  assert (Hg : unlimited (granted c name)) by done.
  assert (Hn : next_feature name x c = x \/ grants c name = true /\ next_feature name x c = granted c name).
  { unfold next_feature, grants. destruct (carte c name); [by right|]. destruct (in_set c name); [|by left].
    destruct (keep_best_unlimited x (granted c name) Hx Hg) as [[-> | ->] _]; auto. }
  destruct (IH (next_feature name x c)) as [Hu Hor]; [by destruct Hn as [-> |[_ ->]]|]. split; [done|].
  destruct Hor as [-> |(c' & Hc' & Hgr & ->)]; [destruct Hn as [-> |[Hgr ->]]|].
  - by left.
  - right. exists c. split; [left|done].
  - right. exists c'. split; [by right|done].
Qed.

Lemma next_feature_weight name l x : unlimited x -> Forall (fun c => carte c name = false) l ->
  Weight (ft_Entitlement x) <= Weight (ft_Entitlement (foldl (next_feature name) x l)).
Proof.
  intros Hx Hl. revert x Hx. induction Hl as [|c l Hc _ IH]; intros x Hx; cbn [foldl]; [done|].
  assert (Hg : unlimited (granted c name)) by done.
  destruct (keep_best_unlimited x (granted c name) Hx Hg) as (Hor & Hw & _).
  assert (Hn : unlimited (next_feature name x c) /\ Weight (ft_Entitlement x) <= Weight (ft_Entitlement (next_feature name x c))).
  { unfold next_feature. rewrite Hc. destruct (in_set c name); [|done]. split; [by destruct Hor as [-> | ->]|done]. }
  destruct Hn as [Hn Hw']. pose proof (IH _ Hn). lia.
Qed.

Lemma granted_weight name x c : unlimited x -> grants c name = true ->
  Weight (license_entitlement c) <= Weight (ft_Entitlement (next_feature name x c)) /\ unlimited (next_feature name x c).
Proof.
  intros Hx Hg. assert (Hu : unlimited (granted c name)) by done. unfold next_feature. unfold grants in Hg.
  destruct (keep_best_unlimited x (granted c name) Hx Hu) as (Hor & _ & Hw).
  destruct (carte c name); [done|]. simpl in Hg. rewrite Hg. split; [exact Hw|by destruct Hor as [-> | ->]].
Qed.

Lemma license_entitlement_cases c : license_entitlement c = EntitlementEntitled \/ license_entitlement c = EntitlementGracePeriod.
Proof. unfold license_entitlement. destruct (cl_LicenseExpires c) as [t|]; [destruct (After now t)|]; auto. Qed.

Lemma license_not_disabled c name : disabled (granted c name) = granted c name.
Proof. unfold disabled, granted. simpl. by destruct (license_entitlement_cases c) as [-> | ->]. Qed.

(** C35: the entitlement of a feature is one a license gives.  In the result every
    feature but the user limit either is not entitled, and disabled, or it has the
    entitlement of a valid license that grants it, and is enabled exactly if the
    deployment asks for it or it always is; and that entitlement is at least the
    one of any valid license that grants the feature, unless a later license lists
    the feature by name. *)
Theorem entitled_by_license licenses name :
  name ∈ FeatureNames -> name <> FeatureUserLimit ->
  exists f, en_Features (LicensesEntitlements licenses) !! name = Some f /\
    (ft_Entitlement f = EntitlementNotEntitled /\ ft_Enabled f = false \/
     exists c, c ∈ valid licenses /\ grants c name = true /\
       ft_Entitlement f = license_entitlement c /\ ft_Enabled f = enabled name || AlwaysEnable name) /\
    (forall l1 c l2, valid licenses = l1 ++ c :: l2 -> grants c name = true -> Forall (fun c' => carte c' name = false) l2 ->
      Weight (license_entitlement c) <= Weight (ft_Entitlement f)).
Proof.
  intros Hin Hne. rewrite (result_feature licenses name Hin). unfold next. apply String.eqb_neq in Hne as ->.
  set (x := mkFeature EntitlementNotEntitled (enabled name) None None).
  eexists. split; [done|]. rewrite disabled_entitlement. split.
  - destruct (next_feature_sound name (valid licenses) x ltac:(done)) as [_ [-> |(c & Hc & Hg & ->)]]; [by left|].
    right. exists c. by rewrite license_not_disabled.
  - intros l1 c l2 E Hg Hl2. rewrite E, foldl_app. cbn [foldl].
    pose proof (next_feature_sound name l1 x ltac:(done)) as [Hu _].
    destruct (granted_weight name _ c Hu Hg) as [Hw Hu']. pose proof (next_feature_weight name l2 _ Hu' Hl2). lia.
Qed.

(** ** The user limit *)

(** The user limits of the valid licenses. *)
Definition limits (licenses : list License) : list Feature :=
  omap (fun c => let n := default 0 (cl_Features c !! FeatureUserLimit) in
                 if 0 <? n then Some (user_limit (license_entitlement c) n) else None) (valid licenses).

Lemma next_limit_fold licenses x : foldl next_limit x (valid licenses) = foldl keep_best x (limits licenses).
Proof.
  unfold limits. generalize (valid licenses). intros l. revert x. induction l as [|c l IH]; intros x; [done|]. cbn [foldl]. rewrite IH. simpl.
  unfold next_limit, carte. by destruct (0 <? default 0 (cl_Features c !! FeatureUserLimit)).
Qed.

(** The user limit is the best of the valid licenses'.  With counts that 64 bits
    hold, the result's limit is that of one valid license, with that license's
    entitlement, and no other compares better: so if the limit of some license is
    high enough for the active users, the result's is.  Without such a license the
    limit is not entitled and disabled. *)
Lemma user_limit_best licenses :
  0 <= fa_ActiveUserCount args < 2 ^ 63 -> (forall f, f ∈ limits licenses -> counts f) ->
  exists f, en_Features (LicensesEntitlements licenses) !! FeatureUserLimit = Some f /\
    match limits licenses with
    | [] => ft_Entitlement f = EntitlementNotEntitled /\ ft_Enabled f = false /\ ft_Limit f = None
    | l => f ∈ l /\ (forall g, g ∈ l -> Compare g f <= 0) /\ ((exists g, g ∈ l /\ Capable g = true) -> Capable f = true)
    end.
Proof.
  intros Ha Hcounts. rewrite (result_feature licenses FeatureUserLimit) by (apply (bool_decide_unpack _); reflexivity).
  unfold next. cbn [String.eqb]. rewrite String.eqb_refl, next_limit_fold.
  set (x := mkFeature _ _ _ _). eexists. split; [done|].
  assert (Hlim : forall f, f ∈ limits licenses -> 0 <= Weight (ft_Entitlement f) /\ disabled f = f).
  { intros f (c & _ & Hf)%list_elem_of_omap. simpl in Hf. destruct (0 <? _); [|done]. injection Hf as <-.
    unfold disabled, user_limit. simpl. destruct (license_entitlement_cases c) as [-> | ->]; done. }
  assert (Hall : Forall counts (x :: limits licenses)) by (constructor; [by split|by apply Forall_forall]).
  pose proof (keep_best_max (limits licenses) x Hall) as [Hin Hmax].
  destruct (limits licenses) as [|f0 l] eqn:E; [by repeat split|].
  assert (Hf : foldl keep_best x (f0 :: l) ∈ f0 :: l).
  { apply elem_of_cons in Hin as [Hin|Hin]; [|done]. rewrite Hin in Hmax. specialize (Hmax f0 ltac:(set_solver)).
    destruct (Hlim f0 ltac:(set_solver)) as [Hw _]. unfold rank in Hmax. cbn [lexical] in Hmax.
    rewrite (Z.min_r _ 0) in Hmax by done. change (Weight (ft_Entitlement x)) with (-1) in Hmax. done. }
  set (r := foldl keep_best x (f0 :: l)) in *. destruct (Hlim r Hf) as [Hw ->]. rewrite Forall_forall in Hall.
  split; [done|]. split.
  - intros g Hg. apply Compare_sign; [apply Hall; set_solver..|]. apply Hmax. set_solver.
  - intros (g & Hg & Hcap). specialize (Hmax g ltac:(set_solver)). destruct (Hlim g Hg) as [Hwg _].
    unfold rank in Hmax. cbn [lexical] in Hmax. rewrite !(Z.min_r _ 0), Z.eqb_refl in Hmax by done.
    replace (0 <=? Weight (ft_Entitlement g)) with true in Hmax by lia. replace (0 <=? Weight (ft_Entitlement r)) with true in Hmax by lia.
    rewrite Hcap in Hmax. by destruct (Capable r).
Qed.

(** ** Warnings *)

Definition expired_warning (name : FeatureName) : string := Humanize name +:+ " is enabled but your license for this feature is expired.".
Definition unlicensed_warning (name : FeatureName) : string := Humanize name +:+ " is enabled but your license is not entitled to this feature.".

Lemma refreshed_warnings e t : en_Warnings (e{{ en_RefreshedAt := t }}) = en_Warnings e.
Proof. done. Qed.

Lemma warn_in w e : w ∈ en_Warnings (warn w e).
Proof. apply elem_of_app. right. by apply list_elem_of_singleton. Qed.

Lemma check_feature_grows e a w : w ∈ en_Warnings e -> w ∈ en_Warnings (check_feature e a).
Proof. intros Hw. unfold check_feature. repeat case_match; try done; simpl; set_solver. Qed.

Lemma check_features_warn w name l e :
  name ∈ l -> (forall e', en_Features e' = en_Features e -> w ∈ en_Warnings (check_feature e' name)) ->
  w ∈ en_Warnings (foldl check_feature e l).
Proof.
  assert (Hkeep : forall l e, w ∈ en_Warnings e -> w ∈ en_Warnings (foldl check_feature e l)).
  { clear. induction l as [|a l IH]; intros e Hw; [done|]. cbn [foldl]. by apply IH, check_feature_grows. }
  revert e. induction l as [|a l IH]; intros e Hin Hw; [by apply elem_of_nil in Hin|]. cbn [foldl].
  destruct (decide (a = name)) as [->|Hne]; [by apply Hkeep, Hw|]. apply IH; [set_solver|].
  intros e' He'. apply Hw. by rewrite He', check_feature_features.
Qed.

Lemma checks_HasLicense e : en_HasLicense (check_external_auth (check_replicas e)) = en_HasLicense e.
Proof. unfold check_external_auth, check_replicas. by repeat case_match. Qed.

Lemma defaults_HasLicense : en_HasLicense (defaults initial) = false.
Proof. unfold defaults. rewrite foldl_keeps; [done|]. intros e a. apply AddFeature_HasLicense. Qed.

(** What a deployment uses without a license is announced.  For every feature
    that has no warnings of its own: if it is in use in the grace period of its
    license there is a warning that the license is expired; if the deployment asks
    for it, has a license, and the feature is not entitled, there is a warning that
    the license is not entitled to it. *)
Lemma unlicensed_use_announced licenses name f :
  name ∈ FeatureNames -> own_warnings name = false -> en_Features (LicensesEntitlements licenses) !! name = Some f ->
  (ft_Entitlement f = EntitlementGracePeriod -> ft_Enabled f = true ->
   expired_warning name ∈ en_Warnings (LicensesEntitlements licenses)) /\
  (ft_Entitlement f = EntitlementNotEntitled -> enabled name = true -> valid licenses <> [] ->
   unlicensed_warning name ∈ en_Warnings (LicensesEntitlements licenses)).
Proof.
  intros Hin Hown Hf.
  assert (Hne : String.eqb name FeatureUserLimit = false) by (unfold own_warnings in Hown; by bool_to_prop).
  rewrite (result_feature licenses name Hin) in Hf. unfold next in Hf. rewrite Hne in Hf.
  set (x := mkFeature EntitlementNotEntitled (enabled name) None None) in *.
  set (y := foldl (next_feature name) x (valid licenses)) in *. injection Hf as <-.
  set (e0 := foldl add_license (defaults initial) licenses).
  assert (Hy : en_Features e0 !! name = Some y).
  { unfold e0. rewrite (add_licenses_feature licenses _ name x); [unfold next; by rewrite Hne|]. rewrite (defaults_feature name Hin). by rewrite Hne. }
  assert (Hwarn : forall w, valid licenses <> [] -> (forall e, feature e name = y -> w ∈ en_Warnings (check_feature e name)) ->
    w ∈ en_Warnings (LicensesEntitlements licenses)).
  { intros w Hv Hw. unfold LicensesEntitlements. cbv zeta. fold e0. rewrite refreshed_warnings.
    rewrite (foldl_keeps en_Warnings) by (intros e a; unfold disable; by destruct (String.eqb (ft_Entitlement (feature e a)) EntitlementNotEntitled)).
    unfold check_licensed. rewrite checks_HasLicense. unfold e0 at 1. rewrite add_licenses_HasLicense, defaults_HasLicense, bool_decide_false by done.
    apply (check_features_warn w name); [done|]. intros e He. apply Hw. unfold feature.
    by rewrite He, check_users_features, early_checks_features, Hy. }
  rewrite disabled_entitlement. split.
  - intros Hent Hen.
    assert (Hen' : ft_Enabled y = true) by (unfold disabled in Hen; by rewrite Hent in Hen). apply Hwarn.
    + intros E. unfold y in Hent. by rewrite E in Hent.
    + intros e He. unfold check_feature. rewrite Hown, He, Hen', Hent. apply warn_in.
  - intros Hent Hen Hv. apply Hwarn; [done|]. intros e He. unfold check_feature. rewrite Hown, He, Hent.
    destruct (next_feature_sound name (valid licenses) x ltac:(done)) as [_ [Ey|(c & _ & _ & Ey)]]; fold y in Ey.
    + rewrite Ey. change (ft_Enabled x) with (enabled name). rewrite Hen. apply warn_in.
    + rewrite Ey in Hent. change (license_entitlement c = EntitlementNotEntitled) in Hent. by destruct (license_entitlement_cases c) as [E|E]; rewrite E in Hent.
Qed.

End Licenses.

(** ** A deployment with two licenses *)

Module Examples.
Definition at_hour (h : Z) : Time := mkTime (h * Hour) UTC.

(** A library whose tokens are names: a premium license for ten users that is in
    its term, a trial one, and one in its grace period that lists two features. *)
Definition premium : Claims := mkClaims (Some (at_hour 300)) (Some (at_hour 200)) false "Premium" false 3 {["user_limit" := 10]} false.
Definition trial : Claims := mkClaims (Some (at_hour 300)) (Some (at_hour 200)) true "enterprise" false 3 ∅ false.
Definition old : Claims :=
  mkClaims (Some (at_hour 300)) (Some (at_hour 50)) false "" false 3 (<["audit_log" := 1]> {["user_limit" := 100]}) true.
#[local] Instance names_lib : JwtLib := {|
  PublicKey := unit;
  ValidationErrorNotValidYet := 128;
  ParseWithClaims raw _ :=
    (if String.eqb raw "premium" then premium else if String.eqb raw "trial" then trial else old,
     if String.eqb raw "later" then Some (mkJwtError (Some 128) "Token is not valid yet") else None);
|}.
#[local] Instance no_text : UuidText := {| uuid_String _ := ""%string |}.

Definition license (raw : string) : License := mkLicense 1 raw (at_hour 300) 1.
Definition result (licenses : list License) : Entitlements :=
  LicensesEntitlements ∅ (at_hour 100) {["audit_log" := true]} (mkArguments 20 1 1) licenses.

Example premium_valid : valid ∅ [license "premium"; license "later"; license "old"] = [premium; old].
Proof. vm_compute. reflexivity. Qed.
Example premium_audit_log :
  en_Features (result [license "premium"]) !! "audit_log"%string = Some (mkFeature EntitlementEntitled true None None).
Proof. vm_compute. reflexivity. Qed.

(** A license in its grace period that lists a feature takes the place of one in its
    term, if it comes later, and not if it comes first. *)
Lemma later_license_downgrades :
  en_Features (result [license "premium"; license "old"]) !! "audit_log"%string = Some (mkFeature EntitlementGracePeriod true None None) /\
  en_Features (result [license "old"; license "premium"]) !! "audit_log"%string = Some (mkFeature EntitlementEntitled true None None).
Proof. vm_compute. split; reflexivity. Qed.

(** A trial license is forgotten when another license follows. *)
Lemma trial_forgotten :
  en_Trial (result [license "premium"; license "trial"]) = true /\ en_Trial (result [license "trial"; license "premium"]) = false.
Proof. vm_compute. split; reflexivity. Qed.

(** The license in its grace period is chosen for its limit of a hundred users. *)
Example capable_limit :
  en_Features (result [license "premium"; license "old"]) !! "user_limit"%string =
  Some (mkFeature EntitlementGracePeriod true (Some 100) (Some 20)).
Proof. vm_compute. reflexivity. Qed.

Lemma entitled_by_license_witness :
  exists f, en_Features (result [license "premium"]) !! "audit_log"%string = Some f /\ 2 <= Weight (ft_Entitlement f).
Proof.
  destruct (entitled_by_license ∅ (at_hour 100) {["audit_log" := true]} (mkArguments 20 1 1) [license "premium"] "audit_log")
    as (f & Hf & _ & Hw).
  - apply (bool_decide_unpack _). reflexivity.
  - discriminate.
  - exists f. split; [exact Hf|]. apply (Hw [] premium []); [reflexivity..|constructor].
Defined.

Lemma user_limit_best_witness :
  exists f, en_Features (result [license "premium"; license "old"]) !! "user_limit"%string = Some f /\ Capable f = true.
Proof.
  destruct (user_limit_best ∅ (at_hour 100) {["audit_log" := true]} (mkArguments 20 1 1) [license "premium"; license "old"])
    as (f & Hf & Hl).
  - vm_compute. split; [discriminate|reflexivity].
  - intros f Hf.
    assert (E : limits ∅ (at_hour 100) (mkArguments 20 1 1) [license "premium"; license "old"] =
      [mkFeature EntitlementEntitled true (Some 10) (Some 20); mkFeature EntitlementGracePeriod true (Some 100) (Some 20)]) by (vm_compute; reflexivity).
    rewrite E in Hf. rewrite !elem_of_cons in Hf. destruct Hf as [-> |[-> |Hf]]; [split; simpl; lia..|by apply elem_of_nil in Hf].
  - exists f. split; [exact Hf|]. destruct Hl as (_ & _ & Hcap). apply Hcap.
    exists (mkFeature EntitlementGracePeriod true (Some 100) (Some 20)). split; [right; left|reflexivity].
Defined.

Lemma unlicensed_use_announced_witness :
  "Audit Log is enabled but your license for this feature is expired."%string ∈ en_Warnings (result [license "old"]).
Proof.
  destruct (unlicensed_use_announced ∅ (at_hour 100) {["audit_log" := true]} (mkArguments 20 1 1) [license "old"] "audit_log"
    (mkFeature EntitlementGracePeriod true None None)) as [Hw _].
  - apply (bool_decide_unpack _). reflexivity.
  - reflexivity.
  - vm_compute. reflexivity.
  - exact (Hw eq_refl eq_refl).
Defined.
End Examples.
