(* ===== verification/AgentLogs.v ===== *)
(** * The agent's logs: [wirtualsdk/agentsdk/logs.go]

    A [startupLogsWriter] cuts the output of a script into lines; a [LogSender]
    queues the logs of each source and sends them in batches. *)

From Stdlib Require Import Ascii String.
From S2P Require Import Prelude GoStrings GoUtf8 GoTime.

Record Log := mkLog { log_CreatedAt : Time; log_Output : string; log_Level : string }.

(** * [startupLogsWriter] *)

Definition LF : ascii := ascii_of_nat 10.
Definition CR : ascii := ascii_of_nat 13.

(** The bytes before and after the first line feed. *)
Fixpoint cut_line (p : string) : option (string * string) :=
  match p with
  | EmptyString => None
  | String a p => if Ascii.eqb a LF then Some (EmptyString, p)
                  else '(line, rest) ← cut_line p; Some (String a line, rest)
  end.

(** Without a carriage return at the end. *)
Fixpoint trim_cr (s : string) : string :=
  match s with
  | EmptyString => EmptyString
  | String a EmptyString => if Ascii.eqb a CR then EmptyString else s
  | String a s => String a (trim_cr s)
  end.

Record startupLogsWriter := mkWriter { w_buf : string; w_level : string }.

Section Writer.
(** What the writer sends to, and [time.Now()]. *)
Context {S : Type} (send : Log -> S -> S * option string) (now : S -> Time).

Fixpoint write_loop (fuel : nat) (level p buf : string) (s : S) : string * string * S * option string :=
  match fuel with
  | O => (p, buf, s, None)
  | Datatypes.S fuel =>
      match cut_line p with
      | None => (p, buf, s, None)
      | Some (line, rest) =>
          match send (mkLog (now s) (buf +:+ trim_cr line) level) s with
          | (s, Some err) => (p, EmptyString, s, Some err)
          | (s, None) => write_loop fuel level rest EmptyString s
          end
      end
  end.

Definition Write (p : string) (w : startupLogsWriter) (s : S) : startupLogsWriter * S * (nat * option string) :=
  let n := String.length p in
  match write_loop n (w_level w) p (w_buf w) s with
  | (rest, buf, s, Some err) => (w{{ w_buf := buf }}, s, ((n - String.length rest)%nat, Some err))
  | (rest, buf, s, None) => (w{{ w_buf := buf +:+ rest }}, s, (n, None))
  end.

Definition Close (w : startupLogsWriter) (s : S) : startupLogsWriter * S * option string :=
  if String.eqb (w_buf w) "" then (w, s, None)
  else let '(s', err) := send (mkLog (now s) (w_buf w) (w_level w)) s in (w{{ w_buf := EmptyString }}, s', err).
End Writer.

(** * [LogSender] *)

Definition flushInterval : Z := Second.
Definition maxBytesPerBatch : Z := 1048576.
Definition overheadPerLog : Z := 21.
Definition maxBytesQueued : Z := 1048576.

(** [proto.Log] *)
Record AgentProtoLog := mkAgentProtoLog { pl_CreatedAt : Time; pl_Output : string; pl_Level : Z }.
Definition Log_ERROR : Z := 5.
Definition Log_Level_value : gmap string Z :=
  list_to_map [("LEVEL_UNSPECIFIED"%string, 0); ("TRACE"%string, 1); ("DEBUG"%string, 2); ("INFO"%string, 3);
               ("WARN"%string, 4); ("ERROR"%string, 5)].

Definition ProtoFromLog (log : Log) : result AgentProtoLog :=
  match Log_Level_value !! ToUpper (log_Level log) with
  | None => Err ("unknown log level: " +:+ log_Level log)
  | Some lvl => Ok (mkAgentProtoLog (log_CreatedAt log) (ToValidUTF8 (log_Output log) "❌") lvl)
  end.

Definition output_len (pl : AgentProtoLog) : Z := Z.of_nat (String.length (pl_Output pl)).

Record logQueue := mkLogQueue { q_logs : list AgentProtoLog; q_flushRequested : bool; q_lastFlush : Time }.
Record LogSender := mkLogSender { ls_queues : gmap uuid logQueue; ls_exceededLogLimit : bool; ls_outputLen : Z }.

Definition new_queue : logQueue := mkLogQueue [] false zeroTime.
Definition NewLogSender : LogSender := mkLogSender ∅ false 0.

(** The log that stands for one that cannot be converted. *)
Definition failed_log (now : Time) : AgentProtoLog := mkAgentProtoLog now "**Coder Internal Error**: Failed to convert log" Log_ERROR.

Fixpoint enqueue_logs (now : Time) (logs : list Log) (q : list AgentProtoLog) (outputLen : Z) : list AgentProtoLog * Z :=
  match logs with
  | [] => (q, outputLen)
  | log :: logs =>
      if maxBytesQueued <? outputLen then (q, outputLen)
      else
        let pl := match ProtoFromLog log with Ok pl => pl | Err _ => failed_log now end in
        if maxBytesPerBatch <? output_len pl + overheadPerLog then enqueue_logs now logs q outputLen
        else enqueue_logs now logs (q ++ [pl]) (outputLen + output_len pl)
  end.

Definition Enqueue (now : Time) (src : uuid) (logs : list Log) (l : LogSender) : LogSender :=
  if bool_decide (logs = []) then l
  else if ls_exceededLogLimit l then l
  else
    let q := default new_queue (ls_queues l !! src) in
    let '(ql, outputLen) := enqueue_logs now logs (q_logs q) (ls_outputLen l) in
    l{{ ls_queues := <[src := q{{ q_logs := ql }}]> (ls_queues l); ls_outputLen := outputLen }}.

Definition Flush (src : uuid) (l : LogSender) : LogSender :=
  match ls_queues l !! src with
  | Some q => l{{ ls_queues := <[src := q{{ q_flushRequested := true }}]> (ls_queues l) }}
  | None => l
  end.

(** The requests are the logs of a source. *)
Record BatchCreateLogsRequest := mkRequest { rq_LogSourceId : uuid; rq_Logs : list AgentProtoLog }.
(** How a call ends.  The server stores the logs before it tells the workspace's
    watchers of them, so that a call that fails may have stored its logs
    ([BatchCreateLogs] of [wirtuald/agentapi/logs.go]), as may one whose answer is lost. *)
Inductive Response := Failure (stored : bool) | LogLimitExceeded | Success.

Section Sending.
Context `{MapRange}.

Definition hasPendingWorkLocked (now : Time) (l : LogSender) : bool :=
  existsb (fun '(_, q) => (flushInterval <? Sub now (q_lastFlush q)) || q_flushRequested q) (map_to_list (ls_queues l)).

Definition getPendingWorkLocked (l : LogSender) : option (uuid * logQueue) :=
  foldl (fun best src =>
    match ls_queues l !! src, best with
    | Some iq, None => Some (src, iq)
    | Some iq, Some (_, q) => if Before (q_lastFlush iq) (q_lastFlush q) then Some (src, iq) else best
    | None, _ => best
    end) None (range (dom (ls_queues l))).

(** The logs from the start of a queue that fit in a request. *)
Fixpoint batch (outputToSend : Z) (logs : list AgentProtoLog) : list AgentProtoLog :=
  match logs with
  | [] => []
  | log :: logs =>
      let outputToSend := outputToSend + output_len log + overheadPerLog in
      if maxBytesPerBatch <? outputToSend then [] else log :: batch outputToSend logs
  end.

(** An iteration of [SendLoop] up to the call of the server. *)
Definition pick (now : Time) (l : LogSender) : option (LogSender * BatchCreateLogsRequest) :=
  if hasPendingWorkLocked now l then
    '(src, q) ← getPendingWorkLocked l;
    Some (l{{ ls_queues := <[src := q{{ q_flushRequested := false }}]> (ls_queues l) }}, mkRequest src (batch 0 (q_logs q)))
  else None.

(** The iteration after the call, when it succeeded.  [q] is the queue in the map, as
    only the loop removes queues. *)
Definition sent (now : Time) (req : BatchCreateLogsRequest) (l : LogSender) : LogSender :=
  let src := rq_LogSourceId req in
  let q := default new_queue (ls_queues l !! src) in
  let logs := skipn (length (rq_Logs req)) (q_logs q) in
  let l := l{{ ls_outputLen := ls_outputLen l - foldr (fun pl n => output_len pl + n) 0 (rq_Logs req) }} in
  if bool_decide (logs = []) then l{{ ls_queues := delete src (ls_queues l) }}
  else l{{ ls_queues := <[src := q{{ q_logs := logs; q_lastFlush := now }}]> (ls_queues l) }}.

(** The server's limit was reached. *)
Definition exceeded (l : LogSender) : LogSender := l{{ ls_exceededLogLimit := true; ls_queues := ∅ }}.

(** Where [SendLoop] is. *)
Inductive Loop := NotRunning | Running | Calling (req : BatchCreateLogsRequest).

(** A sender with what has happened: the logs that [Enqueue] queued, with their
    source, the requests that succeeded, and all the requests whose logs the server
    stored, with whether the call succeeded. *)
Record System := mkSystem {
  sy_sender : LogSender;
  sy_loop : Loop;
  sy_queued : list (uuid * AgentProtoLog);
  sy_received : list BatchCreateLogsRequest;
  sy_stored : list (BatchCreateLogsRequest * bool);
}.
Definition NewSystem : System := mkSystem NewLogSender NotRunning [] [] [].

Inductive Event :=
| EEnqueue (now : Time) (src : uuid) (logs : list Log)
| EFlush (src : uuid)
| EStart
| EPick (now : Time)
| EResponse (r : Response) (now : Time)
| ECancel.

(** The logs that an [Enqueue] added. *)
Definition added (src : uuid) (l l' : LogSender) : list (uuid * AgentProtoLog) :=
  pair src <$> skipn (length (q_logs (default new_queue (ls_queues l !! src)))) (q_logs (default new_queue (ls_queues l' !! src))).

(** What holds the lock for one step: [Enqueue], [Flush], or [SendLoop], which returns
    at once when the limit was exceeded, and gives up the lock for the call. *)
Definition step (e : Event) (s : System) : option System :=
  let l := sy_sender s in
  match e, sy_loop s with
  | EEnqueue now src logs, _ =>
      let l' := Enqueue now src logs l in Some (s{{ sy_sender := l'; sy_queued := sy_queued s ++ added src l l' }})
  | EFlush src, _ => Some (s{{ sy_sender := Flush src l }})
  | EStart, NotRunning => Some (if ls_exceededLogLimit l then s else s{{ sy_loop := Running }})
  | EPick now, Running => '(l, req) ← pick now l; Some (s{{ sy_sender := l; sy_loop := Calling req }})
  | EResponse (Failure stored) _, Calling req =>
      Some (s{{ sy_loop := NotRunning; sy_stored := sy_stored s ++ (if stored then [(req, false)] else []) }})
  | EResponse LogLimitExceeded _, Calling _ => Some (s{{ sy_sender := exceeded l; sy_loop := NotRunning }})
  | EResponse Success now, Calling req =>
      Some (s{{ sy_sender := sent now req l; sy_loop := Running;
        sy_received := sy_received s ++ [req]; sy_stored := sy_stored s ++ [(req, true)] }})
  | ECancel, Running => Some (s{{ sy_loop := NotRunning }})
  | _, _ => None
  end.

Fixpoint steps (es : list Event) (s : System) : option System :=
  match es with [] => Some s | e :: es => s ← step e s; steps es s end.

End Sending.

(** * Theorems *)

(** ** The writer's lines *)

(** The lines of a text that end in a line feed, and what follows the last one. *)
Fixpoint raw_lines (s : string) : list string * string :=
  match s with
  | EmptyString => ([], EmptyString)
  | String a s =>
      let '(ls, r) := raw_lines s in
      if Ascii.eqb a LF then (EmptyString :: ls, r)
      else match ls with [] => ([], String a r) | l :: ls => (String a l :: ls, r) end
  end.
Definition text_lines (s : string) : list string :=
  let '(ls, r) := raw_lines s in (trim_cr <$> ls) ++ (if String.eqb r "" then [] else [r]).

Fixpoint ends_cr (s : string) : bool :=
  match s with
  | EmptyString => false
  | String a EmptyString => Ascii.eqb a CR
  | String a s => ends_cr s
  end.

(** Writing a text in pieces, to a sender that collects. *)
Definition collect (log : Log) (s : list Log) : list Log * option string := (s ++ [log], None).
Fixpoint write_all (now : list Log -> Time) (chunks : list string) (w : startupLogsWriter) (s : list Log) : list Log :=
  match chunks with
  | [] => (Close collect now w s).1.2
  | p :: chunks => let '(w, s, _) := Write collect now p w s in write_all now chunks w s
  end.

Lemma app_empty (s : string) : (s +:+ "")%string = s.
Proof. induction s as [|a s IH]; [done|]. exact (f_equal (String a) IH). Qed.

Lemma cut_line_spec p :
  match cut_line p with
  | None => raw_lines p = ([], p)
  | Some (line, rest) => (String.length rest < String.length p)%nat /\ cut_line line = None /\
      raw_lines p = (line :: (raw_lines rest).1, (raw_lines rest).2)
  end.
Proof.
  induction p as [|a p IH]; simpl; [done|]. destruct (Ascii.eqb a LF) eqn:Ha.
  - split; [lia|]. split; [done|]. by destruct (raw_lines p).
  - destruct (cut_line p) as [[line rest]|]; simpl.
    + destruct IH as (Hl & Hc & ->). rewrite Ha, Hc. split; [lia|done].
    + by rewrite IH.
Qed.

Lemma raw_lines_app a b :
  raw_lines (a +:+ b) = ((raw_lines a).1 ++ (raw_lines ((raw_lines a).2 +:+ b)).1, (raw_lines ((raw_lines a).2 +:+ b)).2).
Proof.
  induction a as [|x a IH]; [exact (surjective_pairing (raw_lines b))|]. change (String x a +:+ b) with (String x (a +:+ b)).
  cbn [raw_lines]. rewrite IH. destruct (raw_lines a) as [ls r]. cbn [fst snd].
  destruct (Ascii.eqb x LF) eqn:Hx; [done|]. destruct ls as [|l ls]; [|done]. cbn [fst snd app].
  change (String x r +:+ b) with (String x (r +:+ b)). cbn [raw_lines]. rewrite Hx. by destruct (raw_lines (r +:+ b)) as [[|??] ?].
Qed.

Lemma raw_lines_prefix buf line ls r p : cut_line buf = None -> raw_lines p = (line :: ls, r) -> raw_lines (buf +:+ p) = ((buf +:+ line) :: ls, r).
Proof.
  intros Hb Hp. induction buf as [|x buf IH]; [done|]. change (String x buf +:+ p) with (String x (buf +:+ p)).
  cbn [cut_line raw_lines] in *. destruct (Ascii.eqb x LF) eqn:Hx; [done|]. destruct (cut_line buf) as [[??]|]; [done|]. by rewrite IH.
Qed.

Lemma raw_lines_no_line s : cut_line (raw_lines s).2 = None.
Proof.
  induction s as [|a s IH]; simpl; [done|]. destruct (raw_lines s) as [ls r]. simpl in IH. destruct (Ascii.eqb a LF) eqn:Ha; [done|].
  destruct ls; simpl; [by rewrite Ha, IH|done].
Qed.

Lemma ends_cr_app a b : ends_cr (a +:+ b) = if String.eqb b "" then ends_cr a else ends_cr b.
Proof.
  destruct b as [|y b]; [by rewrite app_empty|]. simpl (String.eqb _ _). cbv iota.
  induction a as [|x a IH]; [done|]. change (String x a +:+ String y b) with (String x (a +:+ String y b)).
  rewrite <- IH. destruct a; done.
Qed.

Lemma ends_cr_rest s : ends_cr s = false -> ends_cr (raw_lines s).2 = false.
Proof.
  induction s as [|a s IH]; intros Hs; [done|]. assert (Hs' : ends_cr s = false) by (by destruct s). apply IH in Hs'. simpl.
  destruct (raw_lines s) as [ls r] eqn:E. destruct (Ascii.eqb a LF); [done|]. destruct ls as [|l ls]; [|done]. simpl in *.
  destruct r as [|y r]; [|done]. destruct s as [|z s]; [done|]. exfalso. clear -E. simpl in E.
  destruct (raw_lines s) as [ls r]. destruct (Ascii.eqb z LF); [done|]. by destruct ls.
Qed.

Lemma trim_cr_app buf line : ends_cr buf = false -> trim_cr (buf +:+ line) = buf +:+ trim_cr line.
Proof.
  intros Hb. induction buf as [|x buf IH]; [done|]. change (String x buf +:+ line) with (String x (buf +:+ line)).
  change (String x buf +:+ trim_cr line) with (String x (buf +:+ trim_cr line)).
  destruct buf as [|y buf].
  - simpl in *. destruct line as [|z line]; [by rewrite Hb|done].
  - rewrite <- IH by exact Hb. done.
Qed.

Definition shown (log : Log) : string * string := (log_Level log, log_Output log).

Lemma write_loop_lines now fuel level p buf s :
  (String.length p <= fuel)%nat -> cut_line buf = None -> ends_cr buf = false ->
  exists rest buf' logs, write_loop collect now fuel level p buf s = (rest, buf', s ++ logs, None) /\
    shown <$> logs = pair level <$> (trim_cr <$> (raw_lines (buf +:+ p)).1) /\ buf' +:+ rest = (raw_lines (buf +:+ p)).2.
Proof.
  revert p buf s. induction fuel as [|fuel IH]; intros p buf s Hl Hc He.
  - destruct p; [|simpl in Hl; lia]. exists EmptyString, buf, []. rewrite app_nil_r, app_empty. pose proof (cut_line_spec buf) as Hb.
    rewrite Hc in Hb. by rewrite Hb.
  - cbn [write_loop]. pose proof (cut_line_spec p) as Hp. destruct (cut_line p) as [[line rest]|].
    + destruct Hp as (Hlt & _ & Hp). unfold collect at 1. set (log := mkLog _ _ _).
      destruct (IH rest EmptyString (s ++ [log]) ltac:(lia) eq_refl eq_refl) as (r & buf' & logs & -> & Hs & Hr).
      exists r, buf', (log :: logs). rewrite (raw_lines_prefix _ _ _ _ _ Hc Hp), <- app_assoc. split; [done|]. rewrite fmap_cons, Hs.
      cbn [fst snd]. rewrite !fmap_cons, trim_cr_app by done. done.
    + exists p, buf, []. rewrite app_nil_r. split; [done|]. pose proof (cut_line_spec buf) as Hb. rewrite Hc in Hb.
      rewrite raw_lines_app, Hb. simpl.
      assert (E : raw_lines (buf +:+ p) = ([], buf +:+ p)).
      { clear -Hc Hp. induction buf as [|x buf IH]; simpl in *; [done|]. destruct (Ascii.eqb x LF) eqn:Hx; [done|].
        destruct (cut_line buf) as [[??]|]; [done|]. rewrite IH by done. done. }
      by rewrite E.
Qed.

(** However a text is cut into writes, the writer sends its lines.  If no piece
    ends in a carriage return, the logs after all writes and [Close] have the lines
    of the whole text as their output, without the end of the line, and the rest
    after the last line feed if there is one; each write takes all it is given. *)
Lemma Write_lines now level chunks :
  Forall (fun p => ends_cr p = false) chunks ->
  shown <$> write_all now chunks (mkWriter "" level) [] = pair level <$> text_lines (String.concat "" chunks) /\
  forall p w s, (Write collect now p w s).2 = (String.length p, None).
Proof.
  intros Hchunks. split.
  - assert (Hgen : forall buf s, cut_line buf = None -> ends_cr buf = false ->
      shown <$> write_all now chunks (mkWriter buf level) s = (shown <$> s) ++ (pair level <$> text_lines (buf +:+ String.concat "" chunks))).
    2: { by rewrite (Hgen ""%string []). }
    induction Hchunks as [|p chunks Hp _ IH]; intros buf s Hc He.
    + cbn [write_all String.concat]. rewrite app_empty. unfold text_lines. pose proof (cut_line_spec buf) as Hb. rewrite Hc in Hb. rewrite Hb.
      unfold Close. simpl. destruct (String.eqb buf ""); simpl; [by rewrite app_nil_r|]. by rewrite fmap_app.
    + cbn [write_all]. unfold Write. cbn [w_buf w_level].
      destruct (write_loop_lines now _ level p buf s (le_n _) Hc He) as (rest & buf' & logs & -> & Hs & Hr).
      cbn [w_buf w_level]. change ((mkWriter buf level){{ w_buf := buf' +:+ rest }}) with (mkWriter (buf' +:+ rest) level).
      rewrite Hr, IH; [|apply raw_lines_no_line|apply ends_cr_rest; rewrite ends_cr_app; by destruct (String.eqb p "")].
      rewrite concat_empty_cons, <- string_app_assoc. unfold text_lines. rewrite (raw_lines_app (buf +:+ p)).
      destruct (raw_lines ((raw_lines (buf +:+ p)).2 +:+ String.concat "" chunks)) as [ls r]. cbn [fst snd].
      by rewrite !fmap_app, Hs, <- !app_assoc.
  - intros p w s. unfold Write. enough (He : forall fuel buf s, (write_loop collect now fuel (w_level w) p buf s).2 = None).
    { specialize (He (String.length p) (w_buf w) s). destruct (write_loop _ _ _ _ _ _ _) as [[[r b] s'] err]. simpl in He. by subst err. }
    clear. intros fuel. revert p. induction fuel as [|fuel IH]; intros p buf s; [done|]. cbn [write_loop].
    destruct (cut_line p) as [[line rest]|]; [apply IH|done].
Qed.

(** ** The sender's queues *)

Definition outputs (logs : list AgentProtoLog) : Z := foldr (fun pl n => output_len pl + n) 0 logs.
Definition total (queues : gmap uuid logQueue) : Z := map_fold (fun _ q n => outputs (q_logs q) + n) 0 queues.

(** What every queued log is: it fits in a request, and it is valid UTF-8. *)
Definition fits (pl : AgentProtoLog) : Prop := output_len pl + overheadPerLog <= maxBytesPerBatch /\ ValidString (pl_Output pl) = true.

Definition queue_of (src : uuid) (l : LogSender) : list AgentProtoLog := q_logs (default new_queue (ls_queues l !! src)).
(** The logs that were queued, and received, for a source. *)
Definition queued_of (src : uuid) (s : System) : list AgentProtoLog :=
  omap (fun '(i, pl) => if (i =? src)%N then Some pl else None) (sy_queued s).
Definition logs_of (src : uuid) (reqs : list BatchCreateLogsRequest) : list AgentProtoLog :=
  flat_map (fun req => if (rq_LogSourceId req =? src)%N then rq_Logs req else []) reqs.
Definition received_of (src : uuid) (s : System) : list AgentProtoLog := logs_of src (sy_received s).

(** The requests, of those the server stored, whose calls succeeded. *)
Definition acknowledged (stored : list (BatchCreateLogsRequest * bool)) : list BatchCreateLogsRequest :=
  omap (fun '(req, ok) => if ok : bool then Some req else None) stored.

(** Every request that was stored goes on, in what was queued for its source, where
    the requests acknowledged before it end. *)
Definition goes_on (s : System) : Prop := forall before req ok after,
  sy_stored s = before ++ (req, ok) :: after ->
  logs_of (rq_LogSourceId req) (acknowledged before) ++ rq_Logs req `prefix_of` queued_of (rq_LogSourceId req) s.

(** The size of a request's logs. *)
Definition request_size (req : BatchCreateLogsRequest) : Z := foldr (fun pl n => output_len pl + overheadPerLog + n) 0 (rq_Logs req).

Lemma outputs_app a b : outputs (a ++ b) = outputs a + outputs b.
Proof. unfold outputs. induction a as [|x a IH]; simpl; lia. Qed.

Lemma outputs_nonneg l : 0 <= outputs l.
Proof. unfold outputs, output_len. induction l; simpl; lia. Qed.

Lemma total_insert src q queues :
  total (<[src := q]> queues) = total queues - outputs (q_logs (default new_queue (queues !! src))) + outputs (q_logs q).
Proof.
  unfold total. destruct (queues !! src) as [q0|] eqn:E; cbn [from_option id].
  - rewrite (map_fold_delete_L _ _ src q0 queues) by (done || (intros; lia)). rewrite <- insert_delete_eq.
    rewrite map_fold_insert_L by ((intros; lia) || apply lookup_delete_eq). lia.
  - rewrite map_fold_insert_L by (done || (intros; lia)). simpl. lia.
Qed.

Lemma total_delete src queues : total (delete src queues) = total queues - outputs (q_logs (default new_queue (queues !! src))).
Proof.
  unfold total. destruct (queues !! src) as [q0|] eqn:E; cbn [from_option id].
  - rewrite (map_fold_delete_L _ _ src q0 queues) by (done || (intros; lia)). lia.
  - rewrite delete_id by done. simpl. lia.
Qed.

Lemma ProtoFromLog_valid log pl : ProtoFromLog log = Ok pl -> ValidString (pl_Output pl) = true.
Proof. unfold ProtoFromLog. destruct (Log_Level_value !! _); [|done]. intros [= <-]. by apply ToValidUTF8_valid. Qed.

(** The most bytes that are queued. *)
Definition most_queued : Z := maxBytesQueued + maxBytesPerBatch - overheadPerLog.

Lemma enqueue_logs_spec now logs q out :
  0 <= out <= most_queued ->
  exists new, enqueue_logs now logs q out = (q ++ new, out + outputs new) /\ Forall fits new /\ 0 <= out + outputs new <= most_queued.
Proof.
  revert q out. induction logs as [|log logs IH]; intros q out Hout; cbn [enqueue_logs].
  { exists []. change (outputs []) with 0. rewrite app_nil_r, Z.add_0_r. split; [done|]. split; [constructor|done]. }
  destruct (Z.ltb_spec maxBytesQueued out).
  { exists []. change (outputs []) with 0. rewrite app_nil_r, Z.add_0_r. split; [done|]. split; [constructor|done]. }
  set (pl := match ProtoFromLog log with Ok pl => pl | Err _ => failed_log now end).
  destruct (Z.ltb_spec maxBytesPerBatch (output_len pl + overheadPerLog)); [by apply IH|].
  assert (0 <= output_len pl) by (unfold output_len; lia).
  destruct (IH (q ++ [pl]) (out + output_len pl)) as (new & -> & Hf & Hb); [unfold most_queued in *; lia|].
  exists (pl :: new). rewrite <- app_assoc. change (outputs (pl :: new)) with (output_len pl + outputs new). rewrite Z.add_assoc.
  split; [done|]. split; [constructor; [split; [lia|]|done]|done].
  unfold pl. destruct (ProtoFromLog log) as [p|] eqn:E; [by apply (ProtoFromLog_valid log)|done].
Qed.

Lemma batch_spec size logs : 0 <= size ->
  batch size logs `prefix_of` logs /\
  (size <= maxBytesPerBatch -> size + foldr (fun pl n => output_len pl + overheadPerLog + n) 0 (batch size logs) <= maxBytesPerBatch).
Proof.
  revert size. induction logs as [|pl logs IH]; intros size Hs; cbn [batch]; [split; [done|simpl; lia]|].
  assert (0 <= output_len pl) by (unfold output_len; lia). unfold overheadPerLog in *.
  destruct (Z.ltb_spec maxBytesPerBatch (size + output_len pl + 21)); [split; [apply prefix_nil|simpl; lia]|].
  destruct (IH (size + output_len pl + 21) ltac:(lia)) as [Hp Hb]. split; [by apply prefix_cons|]. intros _. simpl. lia.
Qed.

Lemma batch_nonempty pl logs : fits pl -> batch 0 (pl :: logs) <> [].
Proof. intros [Hf _]. cbn [batch]. destruct (Z.ltb_spec maxBytesPerBatch (0 + output_len pl + overheadPerLog)); [lia|done]. Qed.

Section Invariant.
Context `{MapRange}.

Lemma getPendingWorkLocked_Some l src q : getPendingWorkLocked l = Some (src, q) -> ls_queues l !! src = Some q.
Proof.
  unfold getPendingWorkLocked.
  assert (Hgen : forall ks best, (forall i q', best = Some (i, q') -> ls_queues l !! i = Some q') ->
    forall i q', foldl (fun best src => match ls_queues l !! src, best with
      | Some iq, None => Some (src, iq)
      | Some iq, Some (_, q) => if Before (q_lastFlush iq) (q_lastFlush q) then Some (src, iq) else best
      | None, _ => best
      end) best ks = Some (i, q') -> ls_queues l !! i = Some q').
  { induction ks as [|k ks IH]; intros best Hb; [exact Hb|]. cbn [foldl]. apply IH. intros i q'.
    destruct (ls_queues l !! k) as [iq|] eqn:E; [|apply Hb]. destruct best as [[j q0]|]; [|intros [= <- <-]; done].
    destruct (Before (q_lastFlush iq) (q_lastFlush q0)); [intros [= <- <-]; done|apply Hb]. }
  by apply Hgen.
Qed.

Lemma getPendingWorkLocked_None l : ls_queues l <> ∅ -> exists src q, getPendingWorkLocked l = Some (src, q).
Proof.
  intros Hne. unfold getPendingWorkLocked.
  assert (Hgen : forall ks best, (exists k, k ∈ ks /\ is_Some (ls_queues l !! k)) \/ is_Some best ->
    is_Some (foldl (fun best src => match ls_queues l !! src, best with
      | Some iq, None => Some (src, iq)
      | Some iq, Some (_, q) => if Before (q_lastFlush iq) (q_lastFlush q) then Some (src, iq) else best
      | None, _ => best
      end) best ks)).
  { induction ks as [|k ks IH]; intros best Hb; cbn [foldl].
    - destruct Hb as [(k & Hk & _)|Hb]; [by apply elem_of_nil in Hk|done].
    - apply IH. destruct (ls_queues l !! k) as [iq|] eqn:E.
      + right. destruct best as [[j q0]|]; [destruct (Before _ _)|]; by eexists.
      + destruct Hb as [(k' & [-> |Hk']%elem_of_cons & Hs)|Hb]; [by rewrite E in Hs; destruct Hs|left; by exists k'|by right]. }
  destruct (map_choose _ Hne) as (k & q & Hk). destruct (Hgen (range (dom (ls_queues l))) None) as [[src q'] Hs].
  - left. exists k. split; [apply range_elem; by eapply elem_of_dom_2|by exists q].
  - by exists src, q'.
Qed.

Record system_ok (s : System) : Prop := {
  ok_total : ls_exceededLogLimit (sy_sender s) = false -> ls_outputLen (sy_sender s) = total (ls_queues (sy_sender s));
  ok_bound : 0 <= ls_outputLen (sy_sender s) <= most_queued;
  ok_fits src q : ls_queues (sy_sender s) !! src = Some q -> Forall fits (q_logs q);
  ok_running : sy_loop s <> NotRunning -> ls_exceededLogLimit (sy_sender s) = false;
  ok_calling req : sy_loop s = Calling req ->
    is_Some (ls_queues (sy_sender s) !! rq_LogSourceId req) /\ rq_Logs req `prefix_of` queue_of (rq_LogSourceId req) (sy_sender s) /\
    request_size req <= maxBytesPerBatch;
  ok_stored : Forall (fun '(req, _) => request_size req <= maxBytesPerBatch) (sy_stored s);
  ok_order src : exists waiting, queued_of src s = received_of src s ++ waiting /\
    (ls_exceededLogLimit (sy_sender s) = false -> waiting = queue_of src (sy_sender s));
  ok_acknowledged : sy_received s = acknowledged (sy_stored s);
  ok_goes_on : goes_on s;
}.

(** One more request is stored. *)
Lemma goes_on_stored s (s' : System) req ok :
  system_ok s -> sy_loop s = Calling req -> sy_queued s' = sy_queued s -> sy_stored s' = sy_stored s ++ [(req, ok)] -> goes_on s'.
Proof.
  intros Hs Hr Hq Hst before rq ok' after. rewrite Hst.
  assert (Hqo : forall src, queued_of src s' = queued_of src s) by (intros; unfold queued_of; by rewrite Hq). rewrite Hqo.
  destruct after as [|x after' _] using rev_ind.
  - intros [Hb [= <- <-]]%app_inj_tail. rewrite <- Hb, <- (ok_acknowledged s Hs). fold (received_of (rq_LogSourceId req) s).
    destruct (ok_order s Hs (rq_LogSourceId req)) as (w & -> & Hw). destruct (ok_calling s Hs req Hr) as (_ & Hp & _).
    rewrite Hw by (apply (ok_running s Hs); by rewrite Hr). by apply prefix_app.
  - rewrite app_comm_cons, app_assoc. intros [Hb _]%app_inj_tail. by eapply (ok_goes_on s Hs).
Qed.

Lemma goes_on_queued s s' new : goes_on s -> sy_stored s' = sy_stored s -> sy_queued s' = sy_queued s ++ new -> goes_on s'.
Proof.
  intros Hs Hst Hq before req ok after E. rewrite Hst in E. etrans; [by eapply Hs|]. unfold queued_of. rewrite Hq, omap_app. by apply prefix_app_r.
Qed.

Lemma queued_of_added src src' (l : list (uuid * AgentProtoLog)) (new : list AgentProtoLog) :
  omap (fun '(i, pl) => if (i =? src)%N then Some pl else None) (l ++ (pair src' <$> new)) =
  omap (fun '(i, pl) => if (i =? src)%N then Some pl else None) l ++ (if (src' =? src)%N then new else []).
Proof.
  rewrite omap_app. f_equal. induction new as [|pl new IH]; [by destruct (src' =? src)%N|]. cbn. destruct (src' =? src)%N eqn:E; simpl in *; by rewrite IH.
Qed.

Lemma queue_of_insert src src' q l l' :
  ls_queues l' = <[src := q]> (ls_queues l) -> queue_of src' l' = if (src =? src')%N then q_logs q else queue_of src' l.
Proof.
  intros E. unfold queue_of. rewrite E. destruct (N.eqb_spec src src') as [<-|Hne]; [by rewrite lookup_insert_eq|by rewrite lookup_insert_ne].
Qed.

Lemma Enqueue_spec now src logs l :
  0 <= ls_outputLen l <= most_queued ->
  exists new, Forall fits new /\ 
    (forall src', queue_of src' (Enqueue now src logs l) = queue_of src' l ++ if (src =? src')%N then new else []) /\
    ls_exceededLogLimit (Enqueue now src logs l) = ls_exceededLogLimit l /\ 
    0 <= ls_outputLen (Enqueue now src logs l) <= most_queued /\
    (ls_outputLen l = total (ls_queues l) -> ls_outputLen (Enqueue now src logs l) = total (ls_queues (Enqueue now src logs l))) /\
    (forall src', is_Some (ls_queues l !! src') -> is_Some (ls_queues (Enqueue now src logs l) !! src')) /\
    (forall src' q, ls_queues (Enqueue now src logs l) !! src' = Some q -> q_logs q = queue_of src' (Enqueue now src logs l)) /\
    added src l (Enqueue now src logs l) = pair src <$> new.
Proof.
  intros Hb. unfold Enqueue.
  assert (Hsame : exists new, Forall fits new /\ (forall src', queue_of src' l = queue_of src' l ++ if (src =? src')%N then new else []) /\
    (forall src' q, ls_queues l !! src' = Some q -> q_logs q = queue_of src' l) /\ added src l l = pair src <$> new).
  { exists []. split; [constructor|]. split; [intros src'; by destruct (src =? src')%N; rewrite app_nil_r|].
    split; [intros src' q Hq; unfold queue_of; by rewrite Hq|]. unfold added. by rewrite drop_ge. }
  destruct Hsame as (n0 & Hf0 & Hq0 & Hl0 & Ha0).
  case_bool_decide; [by exists n0|]. destruct (ls_exceededLogLimit l) eqn:He; [by exists n0|]. clear n0 Hf0 Hq0 Hl0 Ha0.
  destruct (enqueue_logs_spec now logs (q_logs (default new_queue (ls_queues l !! src))) (ls_outputLen l) Hb) as (new & -> & Hf & Hb').
  set (q' := _{{q_logs := _}}). set (l' := _{{ls_queues := _; ls_outputLen := _}}).
  assert (Hq : forall src', queue_of src' l' = queue_of src' l ++ if (src =? src')%N then new else []).
  { intros src'. rewrite (queue_of_insert src src' q' l l' eq_refl). destruct (N.eqb_spec src src') as [<-|]; [done|by rewrite app_nil_r]. }
  exists new. split; [done|]. split; [done|]. split; [done|]. split; [done|]. split; [|split; [|split]].
  - intros Ht. change (ls_outputLen l + outputs new = total (<[src := q']> (ls_queues l))). rewrite total_insert.
    change (q_logs q') with (q_logs (default new_queue (ls_queues l !! src)) ++ new). rewrite outputs_app. lia.
  - intros src' Hs. change (is_Some (<[src := q']> (ls_queues l) !! src')). apply lookup_insert_is_Some'. by right.
  - intros src' q Hs. unfold queue_of. by rewrite Hs.
  - unfold added. fold (queue_of src l) (queue_of src l'). rewrite Hq, N.eqb_refl. by rewrite drop_app_length.
Qed.

Lemma prefix_app_l' {A} (a b c : list A) : a `prefix_of` b -> a `prefix_of` b ++ c.
Proof. intros [k ->]. exists (k ++ c). by rewrite app_assoc. Qed.

Lemma Flush_queue src src' l : queue_of src' (Flush src l) = queue_of src' l.
Proof.
  unfold Flush. destruct (ls_queues l !! src) as [q|] eqn:E; [|done].
  rewrite (queue_of_insert src src' (q{{ q_flushRequested := true }}) l) by done.
  destruct (N.eqb_spec src src') as [<-|]; [|done]. unfold queue_of. by rewrite E.
Qed.

(** Changing the flags of a queue. *)
Lemma flags_ok l src q q' : ls_queues l !! src = Some q -> q_logs q' = q_logs q ->
  (forall src', queue_of src' (l{{ ls_queues := <[src := q']> (ls_queues l) }}) = queue_of src' l) /\
  total (<[src := q']> (ls_queues l)) = total (ls_queues l) /\
  (forall src', is_Some (<[src := q']> (ls_queues l) !! src') <-> is_Some (ls_queues l !! src')).
Proof.
  intros Hq Hl. split; [|split].
  - intros src'. rewrite (queue_of_insert src src' q' l) by done. destruct (N.eqb_spec src src') as [<-|]; [|done].
    unfold queue_of. by rewrite Hq.
  - rewrite total_insert, Hq. cbn [from_option id]. rewrite Hl. lia.
  - intros src'. rewrite lookup_insert_is_Some'. split; [intros [<- |?]; [by rewrite Hq; eexists|done]|by right].
Qed.

(** A system whose queues hold the same logs is as good. *)
Lemma system_ok_same s l' :
  system_ok s -> (forall src, queue_of src l' = queue_of src (sy_sender s)) -> total (ls_queues l') = total (ls_queues (sy_sender s)) ->
  (forall src, is_Some (ls_queues l' !! src) <-> is_Some (ls_queues (sy_sender s) !! src)) ->
  ls_exceededLogLimit l' = ls_exceededLogLimit (sy_sender s) -> ls_outputLen l' = ls_outputLen (sy_sender s) ->
  forall loop, (loop <> NotRunning -> ls_exceededLogLimit (sy_sender s) = false) ->
  (forall req, loop = Calling req -> is_Some (ls_queues (sy_sender s) !! rq_LogSourceId req) /\
    rq_Logs req `prefix_of` queue_of (rq_LogSourceId req) (sy_sender s) /\ request_size req <= maxBytesPerBatch) ->
  system_ok (mkSystem l' loop (sy_queued s) (sy_received s) (sy_stored s)).
Proof.
  intros Hs Hq Ht Hsome He Ho loop Hrun Hcall. split; cbn [sy_sender sy_loop sy_queued sy_received].
  - intros Hx. rewrite Ho, Ht. apply Hs. by rewrite <- He.
  - rewrite Ho. apply Hs.
  - intros src q E. assert (E' : q_logs q = queue_of src l') by (unfold queue_of; by rewrite E). rewrite E', Hq.
    destruct (proj1 (Hsome src)) as [q0 E0]; [by eexists|]. unfold queue_of. rewrite E0. by apply (ok_fits s Hs src).
  - rewrite He. apply Hrun.
  - intros req Hr. rewrite Hsome, Hq. by apply Hcall.
  - apply Hs.
  - intros src. destruct (ok_order s Hs src) as (w & Hw & Hx). exists w. rewrite He, Hq. done.
  - apply Hs.
  - by apply (goes_on_queued s _ []); [apply Hs| |rewrite app_nil_r].
Qed.

Lemma NewSystem_ok : system_ok NewSystem.
Proof.
  split.
  - done.
  - unfold most_queued, maxBytesQueued, maxBytesPerBatch, overheadPerLog. simpl. lia.
  - intros src q Hq. change ((∅ : gmap uuid logQueue) !! src = Some q) in Hq. by rewrite lookup_empty in Hq.
  - done.
  - done.
  - constructor.
  - intros src. by exists [].
  - done.
  - intros before req ok after E. by destruct before.
Qed.

Lemma Enqueue_ok now src logs s : system_ok s ->
  system_ok (mkSystem (Enqueue now src logs (sy_sender s)) (sy_loop s)
    (sy_queued s ++ added src (sy_sender s) (Enqueue now src logs (sy_sender s))) (sy_received s) (sy_stored s)).
Proof.
  intros Hs. destruct (Enqueue_spec now src logs (sy_sender s) (ok_bound s Hs)) as (new & Hf & Hq & He & Hb & Ht & Hsome & Hlogs & ->).
  split; cbn [sy_sender sy_loop sy_queued sy_received].
  - rewrite He. intros Hx. by apply Ht, Hs.
  - done.
  - intros src' q E. rewrite (Hlogs src' q E), Hq. apply Forall_app. split; [|by destruct (src =? src')%N].
    unfold queue_of. destruct (ls_queues (sy_sender s) !! src') as [q0|] eqn:E0; [by apply (ok_fits s Hs src')|constructor].
  - rewrite He. apply Hs.
  - intros req Hr. destruct (ok_calling s Hs req Hr) as (Hsm & Hp & Hsz). split; [by apply Hsome|]. split; [|done].
    rewrite Hq. by apply prefix_app_l'.
  - apply Hs.
  - intros src'. destruct (ok_order s Hs src') as (w & Hw & Hx). unfold queued_of in *. cbn [sy_queued]. rewrite queued_of_added, Hw.
    exists (w ++ if (src =? src')%N then new else []). split; [by rewrite app_assoc|]. rewrite He. intros Hex. by rewrite Hq, (Hx Hex).
  - apply Hs.
  - by eapply (goes_on_queued s); [apply Hs| |].
Qed.

Lemma sent_ok now req s : system_ok s -> sy_loop s = Calling req ->
  system_ok (mkSystem (sent now req (sy_sender s)) Running (sy_queued s) (sy_received s ++ [req]) (sy_stored s ++ [(req, true)])).
Proof.
  intros Hs Hr. destruct (ok_calling s Hs req Hr) as (Hsm & [rest Hp] & Hsz).
  pose proof (ok_running s Hs ltac:(by rewrite Hr)) as Hex. set (l := sy_sender s) in *. set (src := rq_LogSourceId req) in *.
  assert (Hl : exists queues', sent now req l = mkLogSender queues' false (ls_outputLen l - outputs (rq_Logs req)) /\
    total queues' = total (ls_queues l) - outputs (rq_Logs req) /\
    forall src', (default new_queue (queues' !! src')).(q_logs) = if (src =? src')%N then rest else queue_of src' l).
  { unfold sent. fold src. fold (queue_of src l). rewrite Hp, drop_app_length. rewrite <- Hex.
    case_bool_decide as Hrest.
    - exists (delete src (ls_queues l)). split; [done|]. split.
      + rewrite total_delete. fold (queue_of src l). rewrite Hp, outputs_app, Hrest. change (outputs []) with 0. lia.
      + intros src'. destruct (N.eqb_spec src src') as [<-|]; [by rewrite lookup_delete_eq, Hrest|by rewrite lookup_delete_ne].
    - exists (<[src := (default new_queue (ls_queues l !! src)){{ q_logs := rest; q_lastFlush := now }}]> (ls_queues l)). split; [done|]. split.
      + rewrite total_insert. fold (queue_of src l). rewrite Hp, outputs_app. change (q_logs (_{{q_logs := _; q_lastFlush := _}})) with rest. lia.
      + intros src'. destruct (N.eqb_spec src src') as [<-|]; [by rewrite lookup_insert_eq|by rewrite lookup_insert_ne]. }
  destruct Hl as (queues' & -> & Ht & Hq).
  assert (Hbound : outputs (rq_Logs req) <= total (ls_queues l)).
  { destruct Hsm as [q Hsm]. unfold total. rewrite (map_fold_delete_L _ _ src q) by (done || (intros; lia)).
    assert (0 <= map_fold (fun _ q n => outputs (q_logs q) + n) 0 (delete src (ls_queues l))).
    { apply (map_fold_weak_ind (fun n _ => 0 <= n)); [done|]. intros i x m n _ Hn. pose proof (outputs_nonneg (q_logs x)). lia. }
    unfold queue_of in Hp. rewrite Hsm in Hp. cbn [from_option id] in Hp. rewrite Hp, outputs_app. pose proof (outputs_nonneg rest). lia. }
  pose proof (ok_total s Hs Hex) as Htot. fold l in Htot. pose proof (outputs_nonneg (rq_Logs req)).
  split; cbn [sy_sender sy_loop sy_queued sy_received ls_queues ls_exceededLogLimit ls_outputLen].
  - intros _. lia.
  - pose proof (ok_bound s Hs) as Hb. fold l in Hb. lia.
  - intros src' q E. specialize (Hq src'). rewrite E in Hq. cbn [from_option id] in Hq. rewrite Hq.
    assert (Hall : Forall fits (queue_of src' l)).
    { unfold queue_of. destruct (ls_queues l !! src') as [q0|] eqn:E0; [by apply (ok_fits s Hs src')|constructor]. }
    destruct (N.eqb_spec src src') as [<-|]; [|done]. rewrite Hp in Hall. by apply Forall_app in Hall as [_ ?].
  - done.
  - done.
  - apply Forall_app. split; [apply Hs|by constructor].
  - intros src'. destruct (ok_order s Hs src') as (w & Hw & Hx). unfold received_of, logs_of. cbn [sy_received]. rewrite flat_map_app. simpl.
    fold src. rewrite app_nil_r. rewrite (Hx Hex) in Hw. fold l in Hw. unfold queued_of in *. cbn [sy_queued]. rewrite Hw. unfold received_of, logs_of.
    destruct (N.eqb_spec src src') as [<-|Hne].
    + exists rest. rewrite <- app_assoc, <- Hp. split; [done|]. intros _. unfold queue_of. cbn [ls_queues]. by rewrite Hq, N.eqb_refl.
    + exists (queue_of src' l). rewrite app_nil_r. split; [done|]. intros _. unfold queue_of at 2. cbn [ls_queues]. rewrite Hq. by apply N.eqb_neq in Hne as ->.
  - unfold acknowledged. cbn [sy_stored]. rewrite omap_app. f_equal. apply Hs.
  - by eapply (goes_on_stored s _ req true Hs Hr).
Qed.

Lemma pick_spec now l l' req : pick now l = Some (l', req) ->
  (forall src, queue_of src l' = queue_of src l) /\ total (ls_queues l') = total (ls_queues l) /\
  (forall src, is_Some (ls_queues l' !! src) <-> is_Some (ls_queues l !! src)) /\
  ls_exceededLogLimit l' = ls_exceededLogLimit l /\ ls_outputLen l' = ls_outputLen l /\
  is_Some (ls_queues l !! rq_LogSourceId req) /\
  exists logs, queue_of (rq_LogSourceId req) l = logs /\ rq_Logs req = batch 0 logs.
Proof.
  unfold pick. destruct (hasPendingWorkLocked now l); [|done]. destruct (getPendingWorkLocked l) as [[src q]|] eqn:Hg; [|done].
  apply getPendingWorkLocked_Some in Hg. cbn [mbind option_bind]. set (q' := q{{ q_flushRequested := false }}).
  destruct (flags_ok l src q q' Hg eq_refl) as (Hq & Ht & Hsome). intros [= <- <-]. cbn [rq_LogSourceId rq_Logs].
  split_and!; try done. exists (q_logs q). split; [|done]. unfold queue_of. by rewrite Hg.
Qed.

Lemma failed_stored_ok req s : system_ok s -> sy_loop s = Calling req ->
  system_ok (s{{ sy_loop := NotRunning; sy_stored := sy_stored s ++ [(req, false)] }}).
Proof.
  intros Hs Hr. destruct (ok_calling s Hs req Hr) as (_ & _ & Hsz). split; try done; try apply Hs.
  - apply Forall_app. split; [apply Hs|by constructor].
  - unfold acknowledged. change (sy_stored (s{{ sy_loop := _; sy_stored := _ }})) with (sy_stored s ++ [(req, false)]). rewrite omap_app. cbn. rewrite app_nil_r. apply Hs.
  - by eapply (goes_on_stored s _ req false Hs Hr).
Qed.

Lemma step_system_ok e s s' : step e s = Some s' -> system_ok s -> system_ok s'.
Proof.
  intros He Hs. destruct e as [now src logs|src| |now|r now|]; cbn [step] in He.
  - injection He as <-. by apply Enqueue_ok.
  - injection He as <-.
    apply (system_ok_same s (Flush src (sy_sender s)) Hs (fun src' => Flush_queue src src' (sy_sender s))); try apply Hs;
      unfold Flush; destruct (ls_queues (sy_sender s) !! src) as [q|] eqn:E; try done;
      by apply (flags_ok (sy_sender s) src q).
  - destruct (sy_loop s) eqn:Hl; [|done..]. injection He as <-. destruct (ls_exceededLogLimit (sy_sender s)) eqn:Hx; [done|].
    apply (system_ok_same s (sy_sender s)); by try apply Hs.
  - destruct (sy_loop s) eqn:Hl; [done| |done]. destruct (pick now (sy_sender s)) as [[l req]|] eqn:Hp; [|done]. injection He as <-.
    destruct (pick_spec now (sy_sender s) l req Hp) as (Hq & Ht & Hsome & He & Ho & Hreq).
    assert (Hx : ls_exceededLogLimit (sy_sender s) = false) by (apply Hs; by rewrite Hl).
    apply (system_ok_same s l Hs Hq Ht Hsome He Ho (Calling req) (fun _ => Hx)). intros req' [= <-].
    destruct Hreq as (Hsm & logs & Hlogs & Hb). destruct (batch_spec 0 logs ltac:(done)) as [Hpre Hsz]. rewrite Hlogs. split; [done|].
    rewrite <- Hb in Hpre, Hsz. split; [done|]. by apply Hsz.
  - destruct r, (sy_loop s) eqn:Hl; try done; injection He as <-.
    + destruct stored; [by apply failed_stored_ok|]. rewrite app_nil_r. by apply (system_ok_same s (sy_sender s)); try apply Hs.
    + split; try done; try apply Hs. intros src. destruct (ok_order s Hs src) as (w & Hw & _). exists w. split; [exact Hw|done].
    + by apply sent_ok.
  - destruct (sy_loop s) eqn:Hl; [done| |done]. injection He as <-. apply (system_ok_same s (sy_sender s)); by try apply Hs.
Qed.

Lemma steps_system_ok es s s' : steps es s = Some s' -> system_ok s -> system_ok s'.
Proof.
  revert s. induction es as [|e es IH]; simpl; intros s He Hs; [by injection He as <-|].
  destruct (step e s) as [s1|] eqn:E; [|done]. by apply (IH s1 He), (step_system_ok e s).
Qed.

(** C32: logs are acknowledged once and in order, and stored without gaps.  However [Enqueue],
    [Flush] and the steps of [SendLoop] interleave, with failing calls, whether or not
    the server stored their logs before they failed, and restarts of the loop: for each
    source, the logs of the calls that succeeded are the beginning of what was queued,
    and until the server reports that its limit is exceeded the rest still waits;
    these calls are among the requests that the server stored; and every request it
    stored goes on where the calls that had succeeded before it end, so that no log is skipped,
    and one is stored again only after a call with it failed. *)
Theorem logs_in_order es s :
  steps es NewSystem = Some s ->
  (forall src, exists waiting, queued_of src s = received_of src s ++ waiting /\
    (ls_exceededLogLimit (sy_sender s) = false -> waiting = queue_of src (sy_sender s))) /\
  sy_received s = acknowledged (sy_stored s) /\
  forall before req ok after, sy_stored s = before ++ (req, ok) :: after ->
    logs_of (rq_LogSourceId req) (acknowledged before) ++ rq_Logs req `prefix_of` queued_of (rq_LogSourceId req) s.
Proof.
  intros Hs. pose proof (steps_system_ok es _ s Hs NewSystem_ok) as Hok.
  split; [apply (ok_order s Hok)|]. split; [apply (ok_acknowledged s Hok)|apply (ok_goes_on s Hok)].
Qed.

(** C34: the sender's memory and its requests are bounded.  At any time the bytes it
    counts are at most one request more than the limit, so
    that no count overflows, and until the server reports that its limit is exceeded,
    when the queues are dropped and the count stays, they are the bytes that are
    queued; every log it holds fits in a request and is valid
    UTF-8; every request whose logs the server stored is within the size limit. *)
Theorem sender_bounds es s :
  steps es NewSystem = Some s ->
  0 <= ls_outputLen (sy_sender s) <= maxBytesQueued + maxBytesPerBatch - overheadPerLog /\
  (ls_exceededLogLimit (sy_sender s) = false -> ls_outputLen (sy_sender s) = total (ls_queues (sy_sender s))) /\
  (forall src, Forall fits (queue_of src (sy_sender s))) /\
  Forall (fun '(req, _) => request_size req <= maxBytesPerBatch) (sy_stored s).
Proof.
  intros Hs. pose proof (steps_system_ok es _ s Hs NewSystem_ok) as Hok. split_and!; try apply Hok.
  intros src. unfold queue_of. destruct (ls_queues (sy_sender s) !! src) as [q|] eqn:E; [by apply (ok_fits s Hok src)|constructor].
Qed.

(** ** The loop empties the queues *)

(** Rounds of the loop whose calls succeed, two seconds apart. *)
Fixpoint rounds (k : nat) (now : Time) : list Event :=
  match k with O => [] | Datatypes.S k => EPick now :: EResponse Success now :: rounds k (Add now (2 * Second)) end.

Definition measure (queues : gmap uuid logQueue) : nat := map_fold (fun _ q n => (length (q_logs q) + 1 + n)%nat) 0%nat queues.

Lemma measure_delete src q queues : queues !! src = Some q -> measure queues = (length (q_logs q) + 1 + measure (delete src queues))%nat.
Proof. intros Hq. unfold measure. by rewrite (map_fold_delete_L _ _ src q queues) by (done || (intros; lia)). Qed.

Lemma measure_insert src q q' queues : queues !! src = Some q ->
  (measure (<[src := q']> queues) + length (q_logs q) = measure queues + length (q_logs q'))%nat.
Proof.
  intros Hq. rewrite (measure_delete src q queues Hq), (measure_delete src q' (<[src := q']> queues)) by apply lookup_insert_eq.
  rewrite delete_insert_eq. lia.
Qed.

(** Every queue is due. *)
Definition due (now : Time) (l : LogSender) : Prop := forall src q, ls_queues l !! src = Some q -> flushInterval < Sub now (q_lastFlush q).

Lemma due_pending now l : due now l -> ls_queues l <> ∅ -> hasPendingWorkLocked now l = true.
Proof.
  intros Hdue Hne. unfold hasPendingWorkLocked. apply existsb_exists. destruct (map_choose _ Hne) as (src & q & Hq).
  exists (src, q). split; [by apply list_elem_of_In, elem_of_map_to_list|]. pose proof (Hdue src q Hq). by replace (flushInterval <? _) with true by lia.
Qed.

Lemma round_progress now l :
  due now l -> ls_queues l <> ∅ -> (forall src q, ls_queues l !! src = Some q -> Forall fits (q_logs q)) ->
  exists l1 req, pick now l = Some (l1, req) /\ due (Add now (2 * Second)) (sent now req l1) /\
    (measure (ls_queues (sent now req l1)) < measure (ls_queues l))%nat.
Proof.
  intros Hdue Hne Hfits. destruct (getPendingWorkLocked_None l Hne) as (src & q & Hg).
  pose proof (getPendingWorkLocked_Some l src q Hg) as Hq. unfold pick. rewrite (due_pending now l Hdue Hne), Hg. cbn [mbind option_bind].
  set (q1 := q{{ q_flushRequested := false }}). set (l1 := l{{ ls_queues := <[src := q1]> (ls_queues l) }}).
  exists l1, (mkRequest src (batch 0 (q_logs q))). split; [done|].
  assert (Hsent : exists queues', ls_queues (sent now (mkRequest src (batch 0 (q_logs q))) l1) = queues' /\
    (queues' = delete src (ls_queues l) \/
     exists q2, queues' = <[src := q2]> (ls_queues l) /\ q_lastFlush q2 = now /\ (length (q_logs q2) < length (q_logs q))%nat)).
  { eexists. split; [done|]. unfold sent. cbn [rq_LogSourceId rq_Logs].
    assert (E1 : default new_queue (ls_queues l1 !! src) = q1).
    { change (ls_queues l1) with (<[src := q1]> (ls_queues l)). by rewrite lookup_insert_eq. }
    rewrite E1. change (q_logs q1) with (q_logs q). case_bool_decide as Hd.
    - left. change (delete src (<[src := q1]> (ls_queues l)) = delete src (ls_queues l)). apply delete_insert_eq.
    - right. exists (q1{{ q_logs := drop (length (batch 0 (q_logs q))) (q_logs q); q_lastFlush := now }}). split; [|split; [done|]].
      + change (<[src := q1{{ q_logs := drop (length (batch 0 (q_logs q))) (q_logs q); q_lastFlush := now }}]> (<[src := q1]> (ls_queues l)) =
          <[src := q1{{ q_logs := drop (length (batch 0 (q_logs q))) (q_logs q); q_lastFlush := now }}]> (ls_queues l)). apply insert_insert_eq.
      + change ((length (drop (length (batch 0 (q_logs q))) (q_logs q)) < length (q_logs q))%nat). rewrite length_drop.
        pose proof (Hfits src q Hq) as Hf. destruct (q_logs q) as [|pl logs]; [by rewrite drop_nil in Hd|].
        apply Forall_cons in Hf as [Hf _]. pose proof (batch_nonempty pl logs Hf). destruct (batch 0 (pl :: logs)); [done|]. simpl. lia. }
  destruct Hsent as (queues' & E & Hor). rewrite E. split.
  - intros i x Hx. rewrite E in Hx.
    assert (Hold : ls_queues l !! i = Some x -> flushInterval < Sub (Add now (2 * Second)) (q_lastFlush x)).
    { intros Hi. pose proof (Hdue i x Hi). unfold Sub, Add, Second in *. simpl. lia. }
    destruct Hor as [-> |(q2 & -> & Ht & _)].
    + apply lookup_delete_Some in Hx as [_ Hx]. by apply Hold.
    + apply lookup_insert_Some in Hx as [[<- <-]|[_ Hx]]; [|by apply Hold]. rewrite Ht. unfold Sub, Add, flushInterval, Second. simpl. lia.
  - destruct Hor as [-> |(q2 & -> & _ & Hlt)].
    + rewrite (measure_delete src q (ls_queues l) Hq). lia.
    + pose proof (measure_insert src q q2 (ls_queues l) Hq). lia.
Qed.

(** C33: the loop empties the queues.  From any state that can be reached, when the
    loop runs, every queue is due and nothing more is queued, rounds whose calls
    succeed send everything: after at most one round per log and per source no
    queue is left, and the server has received all that was queued, in order. *)
Theorem logs_drain es s now :
  steps es NewSystem = Some s -> sy_loop s = Running -> due now (sy_sender s) ->
  exists k s', (k <= measure (ls_queues (sy_sender s)))%nat /\ steps (rounds k now) s = Some s' /\
    ls_queues (sy_sender s') = ∅ /\ forall src, received_of src s' = queued_of src s.
Proof.
  intros Hes. pose proof (steps_system_ok es _ s Hes NewSystem_ok) as Hok. clear es Hes.
  remember (measure (ls_queues (sy_sender s))) as n eqn:Hn. revert s now Hok Hn. induction (lt_wf n) as [n _ IH]. intros s now Hok -> Hl Hdue.
  destruct (decide (ls_queues (sy_sender s) = ∅)) as [He|Hne].
  - exists 0%nat, s. split; [lia|]. split; [done|]. split; [done|]. intros src. destruct (ok_order s Hok src) as (w & Hw & Hx).
    rewrite Hw, Hx; [|by apply (ok_running s Hok); rewrite Hl]. unfold queue_of. by rewrite He, lookup_empty, app_nil_r.
  - destruct (round_progress now (sy_sender s) Hdue Hne) as (l1 & req & Hp & Hdue' & Hm); [intros src q; by apply (ok_fits s Hok)|].
    set (s1 := s{{ sy_sender := l1; sy_loop := Calling req }}).
    assert (E1 : step (EPick now) s = Some s1) by (cbn [step]; by rewrite Hl, Hp).
    set (s2 := s1{{ sy_sender := sent now req l1; sy_loop := Running;
      sy_received := sy_received s1 ++ [req]; sy_stored := sy_stored s1 ++ [(req, true)] }}).
    assert (E2 : step (EResponse Success now) s1 = Some s2) by done.
    assert (Hok2 : system_ok s2) by (apply (step_system_ok _ s1 s2 E2), (step_system_ok _ s s1 E1), Hok).
    destruct (IH _ Hm s2 (Add now (2 * Second)) Hok2 eq_refl eq_refl Hdue') as (k & s' & Hk & Hs' & He & Hr).
    exists (Datatypes.S k), s'. split; [lia|]. split; [|by split].
    cbn [rounds steps]. rewrite E1. cbn [mbind option_bind]. rewrite E2. exact Hs'.
Qed.

End Invariant.

Module Examples.
Definition at_second (n : Z) : Time := mkTime (n * Second) UTC.
Definition crlf (s : string) : string := s +:+ String CR (String LF "").
Definition no_clock : list Log -> Time := fun _ => zeroTime.

(** A carriage return is kept in the line when the line feed comes in a later write. *)
Lemma carriage_return_kept :
  shown <$> write_all no_clock [crlf "a"] (mkWriter "" "info") [] = [("info", "a")]%string /\
  shown <$> write_all no_clock ["a" +:+ String CR ""; String LF ""] (mkWriter "" "info") [] = [("info", "a" +:+ String CR "")]%string.
Proof. split; vm_compute; reflexivity. Qed.

Definition log (output : string) : Log := mkLog (at_second 0) output "info".
(** Two sources; the first call fails, and the loop is started again. *)
Definition run : list Event :=
  [EEnqueue (at_second 1) 1%N [log "a"; log "b"]; EStart; EPick (at_second 2); EEnqueue (at_second 2) 2%N [log "c"];
   EResponse (Failure true) (at_second 3); EFlush 1%N; EStart].
Definition after_run : System := default NewSystem (steps run NewSystem).
Lemma run_reaches : steps run NewSystem = Some after_run.
Proof. vm_compute. reflexivity. Qed.

(** Then one more log, and calls that succeed. *)
Definition sent_again : list Event :=
  run ++ [EEnqueue (at_second 4) 1%N [log "d"]; EPick (at_second 5); EResponse Success (at_second 6);
          EPick (at_second 7); EResponse Success (at_second 8)].
Definition after_again : System := default NewSystem (steps sent_again NewSystem).
Lemma again_reaches : steps sent_again NewSystem = Some after_again.
Proof. vm_compute. reflexivity. Qed.
End Examples.

Lemma Write_lines_witness :
  shown <$> write_all Examples.no_clock ["one" +:+ String LF "tw"; Examples.crlf "o"; "three"] (mkWriter "" "info") [] =
  [("info", "one"); ("info", "two"); ("info", "three")]%string.
Proof.
  destruct (Write_lines Examples.no_clock "info" ["one" +:+ String LF "tw"; Examples.crlf "o"; "three"]) as [E _].
  - repeat constructor.
  - rewrite E. vm_compute. reflexivity.
Defined.

(** The theorem's premises hold of a run whose failing call had stored its logs: a later
    call stores them again, with the one queued since. *)
Lemma logs_in_order_witness :
  let s := Examples.after_again in
  (length (received_of 1 s), length (sy_stored s)) = (3%nat, 3%nat) /\
  (exists waiting, queued_of 1 s = received_of 1 s ++ waiting /\ waiting = queue_of 1 (sy_sender s)) /\
  sy_received s = acknowledged (sy_stored s).
Proof.
  destruct (logs_in_order Examples.sent_again Examples.after_again Examples.again_reaches) as (Ho & Ha & _).
  split; [vm_compute; reflexivity|]. split; [|exact Ha]. destruct (Ho 1%N) as (w & E & Hw). exists w. split; [exact E|exact (Hw eq_refl)].
Defined.

Lemma sender_bounds_witness : ls_outputLen (sy_sender Examples.after_run) = total (ls_queues (sy_sender Examples.after_run)).
Proof.
  destruct (sender_bounds Examples.run Examples.after_run Examples.run_reaches) as (_ & Ht & _). exact (Ht eq_refl).
Defined.

Lemma logs_drain_witness :
  exists k s', (k <= 5)%nat /\ steps (rounds k (Examples.at_second 10)) Examples.after_run = Some s' /\ ls_queues (sy_sender s') = ∅.
Proof.
  destruct (logs_drain Examples.run Examples.after_run (Examples.at_second 10) Examples.run_reaches eq_refl) as (k & s' & Hk & Hs & He & _).
  - intros src q Hq. apply (elem_of_map_to_list (K := N)) in Hq. vm_compute in Hq.
    apply elem_of_cons in Hq as [[= -> ->]|Hq]; [reflexivity|]. apply elem_of_cons in Hq as [[= -> ->]|Hq]; [reflexivity|]. by apply elem_of_nil in Hq.
  - exists k, s'. split; [|split; [exact Hs|exact He]]. exact Hk.
Defined.
