(* ===== verification/Slices.v ===== *)
(** * Slices used as sets: [wirtuald/util/slice/slice.go]

    Membership, duplicates, overlap and differences of slices, under a
    comparison the caller gives, and the set operations they implement. *)

From S2P Require Import Prelude.

Section Compare.
Context {T : Type}.
Implicit Types (a b l : list T) (equal : T -> T -> bool) (cond : T -> bool).

Fixpoint ContainsCompare (haystack : list T) (needle : T) equal : bool :=
  match haystack with
  | [] => false
  | hay :: haystack => if equal needle hay then true else ContainsCompare haystack needle equal
  end.

(** Go's second result is whether there is one. *)
Fixpoint Find (haystack : list T) cond : option T :=
  match haystack with
  | [] => None
  | hay :: haystack => if cond hay then Some hay else Find haystack cond
  end.

Fixpoint unique_loop (cpy l : list T) equal : list T :=
  match l with
  | [] => cpy
  | v :: l => if ContainsCompare cpy v equal then unique_loop cpy l equal else unique_loop (cpy ++ [v]) l equal
  end.
Definition UniqueFunc l equal : list T := unique_loop [] l equal.

Fixpoint OverlapCompare a b equal : bool :=
  match b with
  | [] => false
  | element :: b => if ContainsCompare a element equal then true else OverlapCompare a b equal
  end.

Fixpoint DifferenceFunc a b equal : list T :=
  match a with
  | [] => []
  | v :: a => if ContainsCompare b v equal then DifferenceFunc a b equal else v :: DifferenceFunc a b equal
  end.

(** The elements to add to and to remove from [a] to get [b]. *)
Definition SymmetricDifferenceFunc a b equal : list T * list T :=
  let a := UniqueFunc a equal in
  let b := UniqueFunc b equal in
  (DifferenceFunc b a equal, DifferenceFunc a b equal).
End Compare.

Section Comparable.
Context {T : Type} `{EqDecision T}.
Implicit Types (a b l : list T).

Definition eqb (x y : T) : bool := bool_decide (x = y).

Definition Contains (haystack : list T) (needle : T) : bool := ContainsCompare haystack needle eqb.

Fixpoint Omit a (omits : list T) : list T :=
  match a with
  | [] => []
  | v :: a => if Contains omits v then Omit a omits else v :: Omit a omits
  end.

Definition SameElements a b : bool :=
  if negb (Nat.eqb (length a) (length b)) then false else forallb (Contains b) a.

Definition Overlap a b : bool := OverlapCompare a b eqb.

(** [seen] is the set of elements copied so far. *)
Definition Unique l : list T := unique_loop [] l eqb.

Definition SymmetricDifference a b : list T * list T := SymmetricDifferenceFunc a b eqb.
End Comparable.

Definition Ascending (a b : Z) : Z := if a <? b then -1 else if a =? b then 0 else 1.
Definition Descending (a b : Z) : Z := - Ascending a b.

(** ** Facts *)

(** A comparison that decides equality. *)
Class Equality {T : Type} (equal : T -> T -> bool) := equality : forall x y, equal x y = true <-> x = y.

#[export] Instance eqb_equality {T : Type} `{EqDecision T} : Equality (T := T) eqb.
Proof. intros x y. apply bool_decide_eq_true. Qed.

Section Facts.
Context {T : Type} (equal : T -> T -> bool) `{!Equality equal}.
Implicit Types (a b l cpy : list T).

Lemma ContainsCompare_true l x : ContainsCompare l x equal = true <-> x ∈ l.
Proof.
  induction l as [|y l IH]; simpl; [set_solver|].
  rewrite elem_of_cons, <- IH, <- (equality x y). destruct (equal x y); intuition congruence.
Qed.

Lemma ContainsCompare_false l x : ContainsCompare l x equal = false <-> x ∉ l.
Proof. rewrite <- ContainsCompare_true. destruct (ContainsCompare l x equal); naive_solver. Qed.

Lemma unique_loop_elem l : forall cpy x, x ∈ unique_loop cpy l equal <-> x ∈ cpy \/ x ∈ l.
Proof.
  induction l as [|y l IH]; intros cpy x; simpl; [set_solver|].
  case_match eqn:Hc; rewrite IH; [apply ContainsCompare_true in Hc|]; set_solver.
Qed.

Lemma unique_loop_NoDup l : forall cpy, NoDup cpy -> NoDup (unique_loop cpy l equal).
Proof.
  induction l as [|y l IH]; intros cpy Hcpy; simpl; [done|].
  case_match eqn:Hc; apply IH; [done|]. apply ContainsCompare_false in Hc.
  apply NoDup_app. split; [done|]. split; [set_solver|]. apply NoDup_singleton.
Qed.

Lemma UniqueFunc_elem l x : x ∈ UniqueFunc l equal <-> x ∈ l.
Proof. unfold UniqueFunc. rewrite unique_loop_elem. set_solver. Qed.

Lemma UniqueFunc_NoDup l : NoDup (UniqueFunc l equal).
Proof. apply unique_loop_NoDup, NoDup_nil_2. Qed.

Lemma DifferenceFunc_elem a b x : x ∈ DifferenceFunc a b equal <-> x ∈ a /\ x ∉ b.
Proof.
  induction a as [|y a IH]; simpl; [set_solver|].
  case_match eqn:Hc; rewrite ?elem_of_cons, IH; [apply ContainsCompare_true in Hc|apply ContainsCompare_false in Hc];
    set_solver.
Qed.

Lemma DifferenceFunc_NoDup a b : NoDup a -> NoDup (DifferenceFunc a b equal).
Proof.
  induction 1 as [|y a Hy Ha IH]; simpl; [apply NoDup_nil_2|].
  case_match; [done|]. apply NoDup_cons. split; [|done]. rewrite DifferenceFunc_elem. tauto.
Qed.

Lemma OverlapCompare_true a b : OverlapCompare a b equal = true <-> exists x, x ∈ a /\ x ∈ b.
Proof.
  induction b as [|y b IH]; simpl; [set_solver|].
  case_match eqn:Hc; [apply ContainsCompare_true in Hc|apply ContainsCompare_false in Hc; rewrite IH]; set_solver.
Qed.

(** What is added and removed is exact, and in duplicate-free slices. *)
Lemma SymmetricDifferenceFunc_spec a b add remove :
  SymmetricDifferenceFunc a b equal = (add, remove) ->
  (forall x, x ∈ add <-> x ∈ b /\ x ∉ a) /\ (forall x, x ∈ remove <-> x ∈ a /\ x ∉ b) /\ NoDup add /\ NoDup remove.
Proof.
  intros [= <- <-].
  split; [|split; [|split]]; try (apply DifferenceFunc_NoDup, UniqueFunc_NoDup).
  all: intros x; rewrite DifferenceFunc_elem, !UniqueFunc_elem; done.
Qed.
End Facts.

Section ComparableFacts.
Context {T : Type} `{EqDecision T}.
Implicit Types (a b l : list T).

Lemma Contains_true l x : Contains l x = true <-> x ∈ l.
Proof. apply ContainsCompare_true, _. Qed.

Lemma Contains_false l x : Contains l x = false <-> x ∉ l.
Proof. apply ContainsCompare_false, _. Qed.

Lemma Omit_elem a omits x : x ∈ Omit a omits <-> x ∈ a /\ x ∉ omits.
Proof.
  induction a as [|y a IH]; simpl; [set_solver|].
  case_match eqn:Hc; rewrite ?elem_of_cons, IH; [apply Contains_true in Hc|apply Contains_false in Hc]; set_solver.
Qed.

Lemma Omit_perm a a' omits : a ≡ₚ a' -> Omit a omits ≡ₚ Omit a' omits.
Proof. induction 1; simpl; repeat case_match; try done; [by constructor|by constructor|by etrans]. Qed.

(** On slices without duplicates, [SameElements] decides being permutations. *)
Lemma SameElements_NoDup a b : NoDup a -> SameElements a b = true <-> NoDup b /\ a ≡ₚ b.
Proof.
  intros Ha. unfold SameElements. destruct (Nat.eqb_spec (length a) (length b)) as [Hl|Hl]; simpl.
  - rewrite forallb_forall. split.
    + intros Hb. assert (Hsub : a ⊆ b) by (intros x Hx; apply Contains_true, Hb; by apply list_elem_of_In).
      assert (Hp : a ≡ₚ b).
      { apply submseteq_length_Permutation; [|lia]. by apply NoDup_submseteq. }
      split; [by rewrite <- Hp|done].
    + intros [_ Hp] x Hx%list_elem_of_In. apply Contains_true. by rewrite <- Hp.
  - split; [done|]. intros [_ Hp]. apply Permutation_length in Hp. lia.
Qed.
End ComparableFacts.

(** With duplicates it does not, whatever its comment says: the slices have
    different elements, and swapping them changes the answer. *)
Lemma SameElements_duplicates : SameElements [1; 1; 2] [1; 2; 3] = true /\ SameElements [1; 2; 3] [1; 1; 2] = false.
Proof. done. Qed.
