(* ===== verification/Rbac.v ===== *)
(** * Role-based access control: [wirtuald/rbac]

    The actions each resource type has ([policy/policy.go]), the objects an
    authorisation asks about ([object.go], [object_gen.go]), permissions and
    roles, the built-in roles, role identifiers, who may assign which role
    ([roles.go]) and the scopes of API keys ([scopes.go]).  RbacPolicy.v has
    the decision itself. *)

From Stdlib Require Import Ascii Sorted.
From S2P Require Import Prelude GoStrings GoEncoding GoJson Slices.
Local Open Scope string_scope.
Local Open Scope list_scope.

(** ** Actions *)

Definition WildcardSymbol : string := "*".

Abbreviation Action := string.
Definition ActionCreate : Action := "create".
Definition ActionRead : Action := "read".
Definition ActionUpdate : Action := "update".
Definition ActionDelete : Action := "delete".
Definition ActionUse : Action := "use".
Definition ActionSSH : Action := "ssh".
Definition ActionApplicationConnect : Action := "application_connect".
Definition ActionViewInsights : Action := "view_insights".
Definition ActionWorkspaceStart : Action := "start".
Definition ActionWorkspaceStop : Action := "stop".
Definition ActionAssign : Action := "assign".
Definition ActionReadPersonal : Action := "read_personal".
Definition ActionUpdatePersonal : Action := "update_personal".

Definition workspaceActions : list Action :=
  [ActionCreate; ActionRead; ActionUpdate; ActionDelete; ActionWorkspaceStart; ActionWorkspaceStop; ActionSSH; ActionApplicationConnect].

(** The actions of a type; a definition's name and descriptions are left out. *)
Definition permission_definitions : list (string * list Action) :=
  [(WildcardSymbol, []);
   ("user", [ActionRead; ActionCreate; ActionUpdate; ActionDelete; ActionReadPersonal; ActionUpdatePersonal]);
   ("workspace", workspaceActions);
   ("workspace_dormant", workspaceActions);
   ("workspace_proxy", [ActionCreate; ActionDelete; ActionUpdate; ActionRead]);
   ("license", [ActionCreate; ActionRead; ActionDelete]);
   ("audit_log", [ActionRead; ActionCreate]);
   ("deployment_config", [ActionRead; ActionUpdate]);
   ("deployment_stats", [ActionRead]);
   ("replicas", [ActionRead]);
   ("template", [ActionCreate; ActionRead; ActionUpdate; ActionDelete; ActionViewInsights]);
   ("group", [ActionCreate; ActionRead; ActionDelete; ActionUpdate]);
   ("group_member", [ActionRead]);
   ("file", [ActionCreate; ActionRead]);
   ("provisioner_daemon", [ActionCreate; ActionRead; ActionUpdate; ActionDelete]);
   ("provisioner_keys", [ActionCreate; ActionRead; ActionDelete]);
   ("organization", [ActionCreate; ActionRead; ActionUpdate; ActionDelete]);
   ("organization_member", [ActionCreate; ActionRead; ActionUpdate; ActionDelete]);
   ("debug_info", [ActionRead]);
   ("system", [ActionCreate; ActionRead; ActionUpdate; ActionDelete]);
   ("api_key", [ActionCreate; ActionRead; ActionDelete; ActionUpdate]);
   ("tailnet_coordinator", [ActionCreate; ActionRead; ActionUpdate; ActionDelete]);
   ("assign_role", [ActionAssign; ActionRead; ActionDelete; ActionCreate; ActionUpdate]);
   ("assign_org_role", [ActionAssign; ActionRead; ActionDelete; ActionCreate; ActionUpdate]);
   ("oauth2_app", [ActionCreate; ActionRead; ActionUpdate; ActionDelete]);
   ("oauth2_app_secret", [ActionCreate; ActionRead; ActionUpdate; ActionDelete]);
   ("oauth2_app_code_token", [ActionCreate; ActionRead; ActionDelete]);
   ("notification_message", [ActionCreate; ActionRead; ActionUpdate; ActionDelete]);
   ("notification_template", [ActionRead; ActionUpdate]);
   ("notification_preference", [ActionRead; ActionUpdate]);
   ("crypto_key", [ActionRead; ActionUpdate; ActionDelete; ActionCreate]);
   ("idpsync_settings", [ActionRead; ActionUpdate])].

Definition RBACPermissions : gmap string (gset Action) :=
  list_to_map (prod_map id list_to_set <$> permission_definitions).

(** ** Objects *)

Abbreviation acl := (gmap string (list Action)).

Record Object := mkObject {
  o_ID : string;
  o_Owner : string;
  o_OrgID : string;
  o_AnyOrgOwner : bool;
  o_Type : string;
  o_ACLUserList : acl;
  o_ACLGroupList : acl;
}.

Definition object_of_type (t : string) : Object := mkObject "" "" "" false t ∅ ∅.

Definition ResourceWildcard : Object := object_of_type "*".
Definition ResourceApiKey : Object := object_of_type "api_key".
Definition ResourceAssignOrgRole : Object := object_of_type "assign_org_role".
Definition ResourceAssignRole : Object := object_of_type "assign_role".
Definition ResourceAuditLog : Object := object_of_type "audit_log".
Definition ResourceCryptoKey : Object := object_of_type "crypto_key".
Definition ResourceDebugInfo : Object := object_of_type "debug_info".
Definition ResourceDeploymentConfig : Object := object_of_type "deployment_config".
Definition ResourceDeploymentStats : Object := object_of_type "deployment_stats".
Definition ResourceFile : Object := object_of_type "file".
Definition ResourceGroup : Object := object_of_type "group".
Definition ResourceGroupMember : Object := object_of_type "group_member".
Definition ResourceIdpsyncSettings : Object := object_of_type "idpsync_settings".
Definition ResourceLicense : Object := object_of_type "license".
Definition ResourceNotificationMessage : Object := object_of_type "notification_message".
Definition ResourceNotificationPreference : Object := object_of_type "notification_preference".
Definition ResourceNotificationTemplate : Object := object_of_type "notification_template".
Definition ResourceOauth2App : Object := object_of_type "oauth2_app".
Definition ResourceOauth2AppCodeToken : Object := object_of_type "oauth2_app_code_token".
Definition ResourceOauth2AppSecret : Object := object_of_type "oauth2_app_secret".
Definition ResourceOrganization : Object := object_of_type "organization".
Definition ResourceOrganizationMember : Object := object_of_type "organization_member".
Definition ResourceProvisionerDaemon : Object := object_of_type "provisioner_daemon".
Definition ResourceProvisionerKeys : Object := object_of_type "provisioner_keys".
Definition ResourceReplicas : Object := object_of_type "replicas".
Definition ResourceSystem : Object := object_of_type "system".
Definition ResourceTailnetCoordinator : Object := object_of_type "tailnet_coordinator".
Definition ResourceTemplate : Object := object_of_type "template".
Definition ResourceUser : Object := object_of_type "user".
Definition ResourceWorkspace : Object := object_of_type "workspace".
Definition ResourceWorkspaceDormant : Object := object_of_type "workspace_dormant".
Definition ResourceWorkspaceProxy : Object := object_of_type "workspace_proxy".

Definition AllResources : list Object :=
  [ResourceWildcard; ResourceApiKey; ResourceAssignOrgRole; ResourceAssignRole; ResourceAuditLog; ResourceCryptoKey; ResourceDebugInfo; ResourceDeploymentConfig; ResourceDeploymentStats; ResourceFile; ResourceGroup; ResourceGroupMember; ResourceIdpsyncSettings; ResourceLicense; ResourceNotificationMessage; ResourceNotificationPreference; ResourceNotificationTemplate; ResourceOauth2App; ResourceOauth2AppCodeToken; ResourceOauth2AppSecret; ResourceOrganization; ResourceOrganizationMember; ResourceProvisionerDaemon; ResourceProvisionerKeys; ResourceReplicas; ResourceSystem; ResourceTailnetCoordinator; ResourceTemplate; ResourceUser; ResourceWorkspace; ResourceWorkspaceDormant; ResourceWorkspaceProxy].

Definition AllActions : list Action :=
  [ActionApplicationConnect; ActionAssign; ActionCreate; ActionDelete; ActionRead; ActionReadPersonal; ActionSSH;
   ActionUpdate; ActionUpdatePersonal; ActionUse; ActionViewInsights; ActionWorkspaceStart; ActionWorkspaceStop].

Definition ValidAction (z : Object) (action : Action) : result unit :=
  match RBACPermissions !! o_Type z with
  | None => Err ("invalid type " +:+ Quote (o_Type z))
  | Some actions =>
      if decide (action ∈ actions) then Ok tt
      else Err ("invalid action " +:+ Quote action +:+ " for type " +:+ Quote (o_Type z))
  end.

Definition AvailableActions `{MapRange} (z : Object) : list Action :=
  match RBACPermissions !! o_Type z with None => [] | Some actions => range actions end.

Definition All (z : Object) : Object := mkObject "" "" "" (o_AnyOrgOwner z) (o_Type z) ∅ ∅.

Definition WithIDString (id : string) (z : Object) : Object :=
  mkObject id (o_Owner z) (o_OrgID z) (o_AnyOrgOwner z) (o_Type z) (o_ACLUserList z) (o_ACLGroupList z).
Definition WithID `{UuidText} (id : uuid) (z : Object) : Object :=
  mkObject (uuid_String id) (o_Owner z) (o_OrgID z) (o_AnyOrgOwner z) (o_Type z) (o_ACLUserList z) (o_ACLGroupList z).
Definition InOrg `{UuidText} (orgID : uuid) (z : Object) : Object :=
  mkObject (o_ID z) (o_Owner z) (uuid_String orgID) false (o_Type z) (o_ACLUserList z) (o_ACLGroupList z).
Definition AnyOrganization (z : Object) : Object :=
  mkObject (o_ID z) (o_Owner z) "" true (o_Type z) (o_ACLUserList z) (o_ACLGroupList z).
Definition WithOwner (ownerID : string) (z : Object) : Object :=
  mkObject (o_ID z) ownerID (o_OrgID z) (o_AnyOrgOwner z) (o_Type z) (o_ACLUserList z) (o_ACLGroupList z).
Definition WithACLUserList (l : acl) (z : Object) : Object :=
  mkObject (o_ID z) (o_Owner z) (o_OrgID z) (o_AnyOrgOwner z) (o_Type z) l (o_ACLGroupList z).
Definition WithGroupACL (l : acl) (z : Object) : Object :=
  mkObject (o_ID z) (o_Owner z) (o_OrgID z) (o_AnyOrgOwner z) (o_Type z) (o_ACLUserList z) l.

Definition ResourceUserObject `{UuidText} (userID : uuid) : Object :=
  WithOwner (uuid_String userID) (WithID userID ResourceUser).

(** A missing key reads as the empty list. *)
Definition equalACLLists `{MapRange} (a b : acl) : bool :=
  Nat.eqb (size a) (size b) &&
  forallb (fun k => bool_decide (a !!! k = b !!! k)) (range (dom a)).

Definition Object_Equal `{MapRange} (z b : Object) : bool :=
  String.eqb (o_ID z) (o_ID b) && String.eqb (o_Owner z) (o_Owner b) && String.eqb (o_OrgID z) (o_OrgID b)
  && String.eqb (o_Type z) (o_Type b)
  && equalACLLists (o_ACLUserList z) (o_ACLUserList b) && equalACLLists (o_ACLGroupList z) (o_ACLGroupList b).

(** ** Permissions *)

Record Permission := mkPermission { p_Negate : bool; p_ResourceType : string; p_Action : Action }.

#[export] Instance Permission_eq_dec : EqDecision Permission.
Proof. solve_decision. Defined.

Definition Permission_Valid (perm : Permission) : result unit :=
  if String.eqb (p_ResourceType perm) WildcardSymbol then Ok tt
  else match RBACPermissions !! p_ResourceType perm with
  | None => Err ("invalid resource type " +:+ Quote (p_ResourceType perm))
  | Some actions =>
      if String.eqb (p_Action perm) WildcardSymbol then Ok tt
      else if decide (p_Action perm ∈ actions) then Ok tt
      else Err ("invalid action " +:+ Quote (p_Action perm) +:+ " for resource " +:+ Quote (p_ResourceType perm))
  end.

(** ** Role identifiers *)

Record RoleIdentifier := mkIdentifier { ri_Name : string; ri_OrganizationID : uuid }.

#[export] Instance RoleIdentifier_eq_dec : EqDecision RoleIdentifier.
Proof. solve_decision. Defined.

Definition uuid_Nil : uuid := 0%N.

Definition IsOrgRole (r : RoleIdentifier) : bool := negb (ri_OrganizationID r =? uuid_Nil)%N.

Definition RoleNameFromString `{UuidParse} (input : string) : result RoleIdentifier :=
  let arr := Split ":" input in
  if Nat.ltb 2 (length arr) then Err "too many colons in role name"
  else match arr with
  | [] => Err "empty string not a valid role"
  | name :: rest =>
      if String.eqb name "" then Err "role cannot be the empty string"
      else match rest with
      | [] => Ok (mkIdentifier name uuid_Nil)
      | org :: _ => orgID ← wrap (Quote org +:+ " not a valid uuid") (uuid_Parse org); Ok (mkIdentifier name orgID)
      end
  end.

Definition RoleIdentifier_String `{UuidText} (r : RoleIdentifier) : string :=
  if negb (ri_OrganizationID r =? uuid_Nil)%N then ri_Name r +:+ ":" +:+ uuid_String (ri_OrganizationID r) else ri_Name r.

(** ** Roles *)

(** The cached rego value, a function of the other fields, is left out. *)
Record Role := mkRole {
  r_Identifier : RoleIdentifier;
  r_DisplayName : string;
  r_Site : list Permission;
  r_Org : gmap string (list Permission);
  r_User : list Permission;
}.

Definition owner : string := "owner".
Definition member : string := "member".
Definition templateAdmin : string := "template-admin".
Definition userAdmin : string := "user-admin".
Definition auditor : string := "auditor".
Definition customSiteRole : string := "custom-site-role".
Definition customOrganizationRole : string := "custom-organization-role".
Definition orgAdmin : string := "organization-admin".
Definition orgMember : string := "organization-member".
Definition orgAuditor : string := "organization-auditor".
Definition orgUserAdmin : string := "organization-user-admin".
Definition orgTemplateAdmin : string := "organization-template-admin".

Definition site_role (name : string) : RoleIdentifier := mkIdentifier name uuid_Nil.
Definition RoleOwner : RoleIdentifier := site_role owner.
Definition CustomSiteRole : RoleIdentifier := site_role customSiteRole.
Definition CustomOrganizationRole (orgID : uuid) : RoleIdentifier := mkIdentifier customOrganizationRole orgID.
Definition RoleTemplateAdmin : RoleIdentifier := site_role templateAdmin.
Definition RoleUserAdmin : RoleIdentifier := site_role userAdmin.
Definition RoleMember : RoleIdentifier := site_role member.
Definition RoleAuditor : RoleIdentifier := site_role auditor.
Definition ScopedRoleOrgAdmin (organizationID : uuid) : RoleIdentifier := mkIdentifier orgAdmin organizationID.
Definition ScopedRoleOrgMember (organizationID : uuid) : RoleIdentifier := mkIdentifier orgMember organizationID.
Definition ScopedRoleOrgAuditor (organizationID : uuid) : RoleIdentifier := mkIdentifier orgAuditor organizationID.
Definition ScopedRoleOrgUserAdmin (organizationID : uuid) : RoleIdentifier := mkIdentifier orgUserAdmin organizationID.
Definition ScopedRoleOrgTemplateAdmin (organizationID : uuid) : RoleIdentifier := mkIdentifier orgTemplateAdmin organizationID.

Definition allPermsExcept (excepts : list Object) : list Permission :=
  let skip : gset string := list_to_set (o_Type <$> excepts) in
  omap (fun r =>
    if decide (o_Type r ∈ skip) then None
    else if String.eqb (o_Type r) (o_Type ResourceWildcard) then None
    else Some (mkPermission false (o_Type r) WildcardSymbol)) AllResources.

(** [sort.Slice] by resource type.  Go does not say in which order elements
    of one type end up, so the order within a type is one of those it may be. *)
Fixpoint insert_by_type (p : Permission) (l : list Permission) : list Permission :=
  match l with
  | [] => [p]
  | q :: l => if String.ltb (p_ResourceType q) (p_ResourceType p) then q :: insert_by_type p l else p :: q :: l
  end.
Fixpoint sort_by_type (l : list Permission) : list Permission :=
  match l with [] => [] | p :: l => insert_by_type p (sort_by_type l) end.

Section BuiltinRoles.
Context `{MapRange} `{UuidText}.

Definition Permissions (perms : gmap string (list Action)) : list Permission :=
  sort_by_type (k ← range (dom perms); mkPermission false k <$> (perms !!! k)).

(** A map literal from resources to actions. *)
Definition permissions_of (l : list (Object * list Action)) : list Permission :=
  Permissions (list_to_map (prod_map o_Type id <$> l)).

Definition dormant_actions : list Action := [ActionRead; ActionDelete; ActionCreate; ActionUpdate; ActionWorkspaceStop].
Definition crud : list Action := [ActionCreate; ActionRead; ActionUpdate; ActionDelete].
(** The actions on a workspace but those that execute in it. *)
Definition no_exec : list Action := Omit (AvailableActions ResourceWorkspace) [ActionApplicationConnect; ActionSSH].

Definition ownerRole (NoOwnerWorkspaceExec : bool) : Role :=
  mkRole RoleOwner "Owner"
    (allPermsExcept [ResourceWorkspaceDormant; ResourceWorkspace] ++
     permissions_of
       [(ResourceWorkspace, if NoOwnerWorkspaceExec then no_exec else AvailableActions ResourceWorkspace);
        (ResourceWorkspaceDormant, dormant_actions)])
    ∅ [].

Definition memberRole : Role :=
  mkRole RoleMember "Member"
    (permissions_of
       [(ResourceAssignRole, [ActionRead]); (ResourceOauth2App, [ActionRead]); (ResourceWorkspaceProxy, [ActionRead])])
    ∅
    (allPermsExcept [ResourceWorkspaceDormant; ResourceUser; ResourceOrganizationMember] ++
     permissions_of
       [(ResourceWorkspaceDormant, dormant_actions);
        (ResourceUser, [ActionRead; ActionReadPersonal; ActionUpdatePersonal]);
        (ResourceProvisionerDaemon, [ActionRead; ActionCreate; ActionRead; ActionUpdate])]).

Definition auditorRole : Role :=
  mkRole RoleAuditor "Auditor"
    (permissions_of
       [(ResourceTemplate, [ActionRead; ActionViewInsights]); (ResourceAuditLog, [ActionRead]);
        (ResourceUser, [ActionRead]); (ResourceGroup, [ActionRead]); (ResourceGroupMember, [ActionRead]);
        (ResourceDeploymentStats, [ActionRead]); (ResourceDeploymentConfig, [ActionRead]);
        (ResourceOrganizationMember, [ActionRead])])
    ∅ [].

Definition templateAdminRole : Role :=
  mkRole RoleTemplateAdmin "Template Admin"
    (permissions_of
       [(ResourceTemplate, crud ++ [ActionViewInsights]); (ResourceFile, [ActionCreate; ActionRead]);
        (ResourceWorkspace, [ActionRead]); (ResourceProvisionerDaemon, crud); (ResourceOrganization, [ActionRead]);
        (ResourceUser, [ActionRead]); (ResourceGroup, [ActionRead]); (ResourceGroupMember, [ActionRead]);
        (ResourceOrganizationMember, [ActionRead])])
    ∅ [].

Definition userAdminRole : Role :=
  mkRole RoleUserAdmin "User Admin"
    (permissions_of
       [(ResourceAssignRole, [ActionAssign; ActionDelete; ActionRead]);
        (ResourceAssignOrgRole, [ActionAssign; ActionDelete; ActionRead]);
        (ResourceUser, crud ++ [ActionUpdatePersonal; ActionReadPersonal]);
        (ResourceOrganizationMember, crud); (ResourceGroup, crud); (ResourceGroupMember, [ActionRead]);
        (ResourceIdpsyncSettings, [ActionRead; ActionUpdate])])
    ∅ [].

(** A role of one organization: its permissions there. *)
Definition org_role (name display : string) (site : list Permission) (org : list Permission) (user : list Permission)
    (organizationID : uuid) : Role :=
  mkRole (mkIdentifier name organizationID) display site {[ uuid_String organizationID := org ]} user.

Definition orgAdminRole : uuid -> Role :=
  org_role orgAdmin "Organization Admin" (permissions_of [(ResourceUser, [ActionRead])])
    (allPermsExcept [ResourceWorkspace; ResourceWorkspaceDormant; ResourceAssignRole] ++
     permissions_of [(ResourceWorkspaceDormant, dormant_actions); (ResourceWorkspace, no_exec)]) [].

Definition orgMemberRole : uuid -> Role :=
  org_role orgMember "" []
    (permissions_of
       [(ResourceProvisionerDaemon, [ActionRead]); (ResourceOrganization, [ActionRead]); (ResourceAssignOrgRole, [ActionRead])])
    [mkPermission false (o_Type ResourceOrganizationMember) ActionRead].

Definition orgAuditorRole : uuid -> Role :=
  org_role orgAuditor "Organization Auditor" [] (permissions_of [(ResourceAuditLog, [ActionRead])]) [].

Definition orgUserAdminRole : uuid -> Role :=
  org_role orgUserAdmin "Organization User Admin" (permissions_of [(ResourceUser, [ActionRead])])
    (permissions_of
       [(ResourceAssignOrgRole, [ActionAssign; ActionDelete; ActionRead]); (ResourceOrganizationMember, crud);
        (ResourceGroup, AvailableActions ResourceGroup); (ResourceGroupMember, AvailableActions ResourceGroupMember);
        (ResourceIdpsyncSettings, [ActionRead; ActionUpdate])]) [].

Definition orgTemplateAdminRole : uuid -> Role :=
  org_role orgTemplateAdmin "Organization Template Admin" []
    (permissions_of
       [(ResourceTemplate, crud ++ [ActionViewInsights]); (ResourceFile, [ActionCreate; ActionRead]);
        (ResourceWorkspace, [ActionRead]); (ResourceOrganizationMember, [ActionRead]); (ResourceGroup, [ActionRead]);
        (ResourceGroupMember, [ActionRead])]) [].

(** [ReloadBuiltinRoles(&RoleOptions{NoOwnerWorkspaceExec: ...})]: the map it
    leaves in [builtInRoles].  [nil] options are [false]. *)
Definition ReloadBuiltinRoles (NoOwnerWorkspaceExec : bool) : gmap string (uuid -> Role) :=
  list_to_map
    [(owner, fun _ => ownerRole NoOwnerWorkspaceExec); (member, fun _ => memberRole); (auditor, fun _ => auditorRole);
     (templateAdmin, fun _ => templateAdminRole); (userAdmin, fun _ => userAdminRole);
     (orgAdmin, orgAdminRole); (orgMember, orgMemberRole); (orgAuditor, orgAuditorRole);
     (orgUserAdmin, orgUserAdminRole); (orgTemplateAdmin, orgTemplateAdminRole)].
End BuiltinRoles.

(** ** Validity of roles *)

Definition error_of {A} (r : result A) : list string := match r with Ok _ => [] | Err e => [e] end.

(** The errors the code joins; no error is a valid role. *)
Definition Role_Valid `{MapRange} (role : Role) : list string :=
  (perm ← r_Site role; error_of (wrap "site" (Permission_Valid perm))) ++
  (orgID ← range (dom (r_Org role)); perm ← r_Org role !!! orgID;
     error_of (wrap ("org=" +:+ Quote orgID) (Permission_Valid perm))) ++
  (perm ← r_User role; error_of (wrap "user" (Permission_Valid perm))).

(** ** Expanding and assigning roles *)

(** [ExpandableRoles]: identifiers that are looked up, or roles as they are. *)
Inductive ExpandableRoles :=
| RoleIdentifiers (names : list RoleIdentifier)
| Roles (roles : list Role).

Definition Names (r : ExpandableRoles) : list RoleIdentifier :=
  match r with RoleIdentifiers names => names | Roles roles => r_Identifier <$> roles end.

Definition site_assignable : gset string :=
  list_to_set [owner; auditor; member; orgAdmin; orgMember; orgAuditor; orgUserAdmin; orgTemplateAdmin;
               templateAdmin; userAdmin; customSiteRole; customOrganizationRole].

(** The roles each role may assign: those mapped to [true]. *)
Definition assignRoles : gmap string (gset string) :=
  list_to_map
    [("system", site_assignable); (owner, site_assignable);
     (userAdmin, list_to_set [member; orgMember]);
     (orgAdmin, list_to_set [orgAdmin; orgMember; orgAuditor; orgUserAdmin; orgTemplateAdmin; customOrganizationRole]);
     (orgUserAdmin, list_to_set [orgMember])].

Fixpoint can_assign (roles : list RoleIdentifier) (assignedRole : RoleIdentifier) : bool :=
  match roles with
  | [] => false
  | myRole :: roles =>
      if negb (ri_OrganizationID myRole =? uuid_Nil)%N
         && negb (ri_OrganizationID myRole =? ri_OrganizationID assignedRole)%N
      then can_assign roles assignedRole
      else match assignRoles !! ri_Name myRole with
      | None => can_assign roles assignedRole
      | Some allowedAssignList =>
          if decide (ri_Name assignedRole ∈ allowedAssignList) then true else can_assign roles assignedRole
      end
  end.

Definition CanAssignRole (subjectHasRoles : ExpandableRoles) (assignedRole : RoleIdentifier) : bool :=
  can_assign (Names subjectHasRoles) assignedRole.

Definition same_identifier (a b : RoleIdentifier) : bool :=
  String.eqb (ri_Name a) (ri_Name b) && (ri_OrganizationID a =? ri_OrganizationID b)%N.

Definition ChangeRoleSet (from to : list RoleIdentifier) : list RoleIdentifier * list RoleIdentifier :=
  SymmetricDifferenceFunc from to same_identifier.

Section Lookup.
Context `{UuidText} (builtInRoles : gmap string (uuid -> Role)).

Definition ReservedRoleName (name : string) : bool := bool_decide (is_Some (builtInRoles !! name)).

Definition RoleByName (name : RoleIdentifier) : result Role :=
  match builtInRoles !! ri_Name name with
  | None => Err ("role " +:+ Quote (RoleIdentifier_String name) +:+ " not found")
  | Some roleFunc =>
      let role := roleFunc (ri_OrganizationID name) in
      if Nat.ltb 0 (size (r_Org role)) && (ri_OrganizationID name =? uuid_Nil)%N then
        Err ("expect a org id for role " +:+ Quote (RoleIdentifier_String name))
      else if negb (ri_OrganizationID name =? ri_OrganizationID (r_Identifier role))%N then
        Err ("role " +:+ Quote (RoleIdentifier_String name) +:+ " not found")
      else Ok role
  end.

Fixpoint rolesByNames (roleNames : list RoleIdentifier) : result (list Role) :=
  match roleNames with
  | [] => Ok []
  | n :: ns => r ← wrap "get role permissions" (RoleByName n); rs ← rolesByNames ns; Ok (r :: rs)
  end.

Definition Roles_Expand (r : ExpandableRoles) : result (list Role) :=
  match r with RoleIdentifiers names => rolesByNames names | Roles roles => Ok roles end.

Definition OrganizationRoles `{MapRange} (organizationID : uuid) : list Role :=
  name ← range (dom builtInRoles);
  match builtInRoles !! name with
  | None => []
  | Some roleF =>
      let role := roleF organizationID in
      if (ri_OrganizationID (r_Identifier role) =? organizationID)%N then [role] else []
  end.

(** [fresh name] is the UUID drawn for a role of the map. *)
Definition SiteRoles `{MapRange} (fresh : string -> uuid) : list Role :=
  name ← range (dom builtInRoles);
  match builtInRoles !! name with
  | None => []
  | Some roleF =>
      let role := roleF (fresh name) in
      if negb (IsOrgRole (r_Identifier role)) then [role] else []
  end.
End Lookup.

(** ** Scopes *)

Record Scope := mkScope { sc_Role : Role; sc_AllowIDList : list string }.

Definition ScopeAll : string := "all".
Definition ScopeApplicationConnect : string := "application_connect".

Section Scopes.
Context `{MapRange} `{UuidText}.

Definition builtin_scope (name display : string) (site : list Permission) : Scope :=
  mkScope (mkRole (site_role ("Scope_" +:+ name)) display site ∅ []) [WildcardSymbol].

Definition builtinScopes : gmap string Scope :=
  list_to_map
    [(ScopeAll, builtin_scope ScopeAll "All operations" (permissions_of [(ResourceWildcard, [WildcardSymbol])]));
     (ScopeApplicationConnect,
        builtin_scope ScopeApplicationConnect "Ability to connect to applications"
          (permissions_of [(ResourceWorkspace, [ActionApplicationConnect])]))].

Definition ExpandScope (scope : string) : result Scope :=
  match builtinScopes !! scope with
  | None => Err ("no scope named " +:+ Quote scope)
  | Some role => Ok role
  end.

(** [ExpandableScope]: a name, or a scope as it is. *)
Inductive ExpandableScope :=
| ScopeName (name : string)
| ScopeValue (scope : Scope).

Definition Scope_Expand (s : ExpandableScope) : result Scope :=
  match s with ScopeName name => ExpandScope name | ScopeValue scope => Ok scope end.

Definition Scope_Name (s : ExpandableScope) : RoleIdentifier :=
  match s with ScopeName name => site_role name | ScopeValue scope => r_Identifier (sc_Role scope) end.

(** A panic is an error. *)
Definition WorkspaceAgentScope (WorkspaceID OwnerID TemplateID VersionID : uuid) : result Scope :=
  if (WorkspaceID =? uuid_Nil)%N || (OwnerID =? uuid_Nil)%N || (TemplateID =? uuid_Nil)%N || (VersionID =? uuid_Nil)%N
  then Err "all uuids must be non-nil, this is a developer error"
  else match Scope_Expand (ScopeName ScopeAll) with
  | Err _ => Err "failed to expand scope all, this should never happen"
  | Ok allScope =>
      Ok (mkScope (sc_Role allScope)
            [uuid_String WorkspaceID; uuid_String TemplateID; uuid_String VersionID; uuid_String OwnerID])
  end.
End Scopes.

(** ** Names of roles *)

Fixpoint no_char (c : ascii) (s : string) : bool :=
  match s with EmptyString => true | String a s => negb (Ascii.eqb a c) && no_char c s end.

Lemma Split_no_char c s : no_char c s = true -> Split c s = [s].
Proof.
  induction s as [|a s IH]; simpl; [done|]. intros [Ha Hs]%andb_true_iff.
  rewrite IH by done. by destruct (Ascii.eqb a c).
Qed.

Lemma Split_not_nil c s : Split c s <> [].
Proof. induction s as [|a s IH]; simpl; [done|]. destruct (Split c s); [done|]. by case_match. Qed.

Lemma Split_at c s t : no_char c s = true -> Split c (s +:+ String c t) = s :: Split c t.
Proof.
  induction s as [|a s IH]; simpl.
  - intros _. rewrite Ascii.eqb_refl. pose proof (Split_not_nil c t). by destruct (Split c t).
  - intros [Ha Hs]%andb_true_iff. rewrite IH by done. by destruct (Ascii.eqb a c).
Qed.

(** What the code relies on of the UUID package: a UUID's text has no colon
    and parses back. *)
Class UuidRoundTrip `{UuidText} `{UuidParse} := {
  uuid_Parse_String u : uuid_Parse (uuid_String u) = Ok u;
  uuid_no_colon u : no_char ":" (uuid_String u) = true;
}.

Lemma RoleNameFromString_site `{UuidParse} name :
  name <> "" -> no_char ":" name = true -> RoleNameFromString name = Ok (site_role name).
Proof.
  intros Hn Hc. unfold RoleNameFromString. rewrite Split_no_char by done. simpl.
  by destruct (String.eqb_spec name "").
Qed.

(** A role identifier reads back as itself from its text, with its
    organization or without one. *)
Lemma RoleNameFromString_String `{UuidRoundTrip} (r : RoleIdentifier) :
  ri_Name r <> "" -> no_char ":" (ri_Name r) = true ->
  RoleNameFromString (RoleIdentifier_String r) = Ok r.
Proof.
  destruct r as [name org]; simpl. intros Hn Hc. unfold RoleIdentifier_String; simpl.
  destruct (N.eqb_spec org uuid_Nil) as [->|Ho]; simpl; [by apply RoleNameFromString_site|].
  unfold RoleNameFromString. change (":" +:+ uuid_String org) with (String ":" (uuid_String org)).
  rewrite Split_at, (Split_no_char _ (uuid_String org)) by first [done|apply uuid_no_colon]. simpl.
  destruct (String.eqb_spec name ""); [done|]. by rewrite uuid_Parse_String.
Qed.

(** ** Permissions up to their order *)

Lemma range_perm (M M' : MapRange) {K : Type} `{Countable K} (s : gset K) : range (MapRange:=M) s ≡ₚ range (MapRange:=M') s.
Proof. apply NoDup_Permutation; [apply range_NoDup..|]. intros x. by rewrite !range_elem. Qed.

Lemma insert_by_type_perm p l : insert_by_type p l ≡ₚ p :: l.
Proof. induction l as [|q l IH]; simpl; [done|]. case_match; [|done]. rewrite IH. by constructor. Qed.

Lemma sort_by_type_perm l : sort_by_type l ≡ₚ l.
Proof. induction l as [|p l IH]; simpl; [done|]. by rewrite insert_by_type_perm, IH. Qed.

(** The sorting does its work: types come in ascending order. *)
Definition type_le (p q : Permission) : Prop := String.ltb (p_ResourceType q) (p_ResourceType p) = false.

Lemma ltb_antisym s t : String.ltb s t = true -> String.ltb t s = false.
Proof. unfold String.ltb. rewrite (String.compare_antisym s t). by destruct (String.compare t s). Qed.

Lemma insert_by_type_Sorted p l : Sorted type_le l -> Sorted type_le (insert_by_type p l).
Proof.
  induction 1 as [|q l Hs IH Hd]; simpl; [by repeat constructor|].
  destruct (String.ltb (p_ResourceType q) (p_ResourceType p)) eqn:Hlt.
  - constructor; [done|]. destruct l as [|q' l]; simpl; [constructor; by apply ltb_antisym|].
    case_match; constructor; [by inversion Hd|by apply ltb_antisym].
  - constructor; [by constructor|]. by constructor.
Qed.

Lemma sort_by_type_Sorted l : Sorted type_le (sort_by_type l).
Proof. induction l; simpl; [constructor|by apply insert_by_type_Sorted]. Qed.

Lemma bind_perm {A B} (f g : A -> list B) (l l' : list A) :
  l ≡ₚ l' -> (forall x, f x ≡ₚ g x) -> (l ≫= f) ≡ₚ (l' ≫= g).
Proof.
  intros Hl Hf. trans (l' ≫= f); [by rewrite Hl|].
  induction l' as [|x l' IH] in l, Hl |- *; simpl; [done|].
  rewrite Hf. f_equiv. by eapply IH.
Qed.

Lemma Permissions_elem `{MapRange} (perms : gmap string (list Action)) p :
  p ∈ Permissions perms <->
  p_Negate p = false /\ exists acts, perms !! p_ResourceType p = Some acts /\ p_Action p ∈ acts.
Proof.
  unfold Permissions. rewrite sort_by_type_perm, list_elem_of_bind. setoid_rewrite list_elem_of_fmap. split.
  - intros (k & (a & -> & Ha) & Hk). split; [done|]. simpl.
    rewrite range_elem, elem_of_dom in Hk. destruct Hk as [acts Hk]. exists acts.
    split; [done|]. by rewrite lookup_total_alt, Hk in Ha.
  - destruct p as [n t a]; simpl. intros (-> & acts & Ht & Ha). exists t. split; [|].
    + exists a. split; [done|]. by rewrite lookup_total_alt, Ht.
    + rewrite range_elem, elem_of_dom. by exists acts.
Qed.

(** Roles that differ in the order of their permissions only. *)
Record role_perm (a b : Role) : Prop := mkRolePerm {
  rp_Identifier : r_Identifier a = r_Identifier b;
  rp_Site : r_Site a ≡ₚ r_Site b;
  rp_Org : forall org, option_Forall2 Permutation (r_Org a !! org) (r_Org b !! org);
  rp_User : r_User a ≡ₚ r_User b;
}.

#[export] Instance role_perm_equivalence : Equivalence role_perm.
Proof.
  split.
  - intros a. split; [done..| |done]. intros org. reflexivity.
  - intros a b [? ? Ho ?]. split; [done..| |done]. intros org. destruct (Ho org); by constructor.
  - intros a b c [H1 H2 Ho H4] [? ? Ho' ?]. split; [by rewrite H1|by rewrite H2| |by rewrite H4].
    intros org. specialize (Ho' org). destruct (Ho org); inversion Ho'; subst; constructor. by etrans.
Qed.

Lemma rp_members a b : role_perm a b -> dom (r_Org a) = dom (r_Org b).
Proof.
  intros [_ _ Ho _]. apply set_eq. intros org. rewrite !elem_of_dom. destruct (Ho org); [|done].
  split; intros _; by eexists.
Qed.

Lemma list_to_map_Forall2 {A B} (R : A -> B -> Prop) (l : list (string * A)) (l' : list (string * B)) (k : string) :
  Forall2 (fun x y => x.1 = y.1 /\ R x.2 y.2) l l' ->
  option_Forall2 R ((list_to_map l : gmap string A) !! k) ((list_to_map l' : gmap string B) !! k).
Proof.
  induction 1 as [|[k1 a] [k2 b] l l' [Hk HR] _ IH]; simpl in *; [rewrite !lookup_empty; constructor|].
  subst k2. destruct (decide (k1 = k)) as [->|]; [rewrite !lookup_insert_eq; by constructor|].
  by rewrite !lookup_insert_ne by done.
Qed.

(** Whatever the order in which Go ranges over maps, a built-in role is the
    same up to the order of its permissions. *)
Section AnyOrder.
Context `{UuidText} (M M' : MapRange).

Lemma Permissions_perm (perms perms' : gmap string (list Action)) :
  (forall k, option_Forall2 Permutation (perms !! k) (perms' !! k)) ->
  Permissions (H:=M) perms ≡ₚ Permissions (H:=M') perms'.
Proof.
  intros Hp. unfold Permissions. rewrite !sort_by_type_perm. apply bind_perm.
  - replace (dom perms') with (dom perms); [apply range_perm|].
    apply set_eq. intros k. rewrite !elem_of_dom. destruct (Hp k); [|done]. split; intros _; by eexists.
  - intros k. rewrite !lookup_total_alt. destruct (Hp k) as [? ? Hk|]; simpl; [by rewrite Hk|done].
Qed.

Lemma permissions_of_perm (l l' : list (Object * list Action)) :
  Forall2 (fun x y => x.1 = y.1 /\ x.2 ≡ₚ y.2) l l' ->
  permissions_of (H:=M) l ≡ₚ permissions_of (H:=M') l'.
Proof.
  intros Hl. apply Permissions_perm. intros k. apply list_to_map_Forall2, Forall2_fmap.
  eapply Forall2_impl; [apply Hl|]. intros [o a] [o' a'] [Ho Ha]. simpl in *. by subst.
Qed.

Lemma AvailableActions_perm z : AvailableActions (H:=M) z ≡ₚ AvailableActions (H:=M') z.
Proof. unfold AvailableActions. case_match; [apply range_perm|done]. Qed.

Lemma no_exec_perm : no_exec (H:=M) ≡ₚ no_exec (H:=M').
Proof. apply Omit_perm, AvailableActions_perm. Qed.

Lemma org_role_perm name display site site' org org' user organizationID :
  site ≡ₚ site' -> org ≡ₚ org' ->
  role_perm (org_role name display site org user organizationID) (org_role name display site' org' user organizationID).
Proof.
  intros Hs Ho. split; [done..| |done]. intros k. unfold org_role, r_Org.
  destruct (decide (k = uuid_String organizationID)) as [->|]; [rewrite !lookup_singleton_eq; by constructor|].
  rewrite !lookup_singleton_ne by done. constructor.
Qed.

Lemma builtin_perm NoOwnerWorkspaceExec name :
  option_Forall2 (fun f g => forall org, role_perm (f org) (g org))
    (ReloadBuiltinRoles (H:=M) NoOwnerWorkspaceExec !! name) (ReloadBuiltinRoles (H:=M') NoOwnerWorkspaceExec !! name).
Proof.
  assert (Ha := AvailableActions_perm). assert (He := no_exec_perm).
  apply (list_to_map_Forall2 (fun f g => forall org, role_perm (f org) (g org))).
  repeat (apply Forall2_cons; split); [..|done]; simpl; (split; [done|]); intros org.
  6-10: apply org_role_perm.
  1-5: split; simpl; [done| |intros k; reflexivity|].
  all: try done; repeat (apply Permutation_app; [done|]); apply permissions_of_perm.
  all: repeat (apply Forall2_cons; split); [..|done]; (split; [done|]); simpl; try done.
  by case_match.
Qed.
End AnyOrder.

(** ** The built-in roles are valid *)

Definition perm_ok (p : Permission) : bool := is_ok (Permission_Valid p).

(** Every permission names a known type and one of its actions. *)
Definition role_ok (role : Role) : Prop :=
  Forall perm_ok (r_Site role) /\ (forall org l, r_Org role !! org = Some l -> Forall perm_ok l) /\ Forall perm_ok (r_User role).

Lemma errors_nil (c : string) (l : list Permission) :
  (perm ← l; error_of (wrap c (Permission_Valid perm))) = [] <-> Forall perm_ok l.
Proof.
  induction l as [|p l IH]; simpl; [done|]. rewrite Forall_cons, <- IH, app_nil. unfold perm_ok.
  destruct (Permission_Valid p) as [[]|]; simpl; naive_solver.
Qed.

Lemma bind_nil {A B} (f : A -> list B) (l : list A) : (l ≫= f) = [] <-> forall x, x ∈ l -> f x = [].
Proof.
  induction l as [|x l IH]; simpl; [set_solver|]. rewrite app_nil, IH. setoid_rewrite elem_of_cons. naive_solver.
Qed.

Lemma Role_Valid_ok `{MapRange} role : Role_Valid role = [] <-> role_ok role.
Proof.
  unfold Role_Valid, role_ok. rewrite !app_nil, !errors_nil, bind_nil. f_equiv. f_equiv.
  setoid_rewrite errors_nil. setoid_rewrite range_elem. setoid_rewrite elem_of_dom. split.
  - intros Hv org l Hl. specialize (Hv org). rewrite lookup_total_alt, Hl in Hv. by apply Hv.
  - intros Hv org [l Hl]. rewrite lookup_total_alt, Hl. by eapply Hv.
Qed.

Lemma role_ok_perm a b : role_perm a b -> role_ok a -> role_ok b.
Proof.
  intros [_ Hs Ho Hu] (Hs' & Ho' & Hu'). split; [by rewrite <- Hs|]. split; [|by rewrite <- Hu].
  intros org l Hl. specialize (Ho org). specialize (Ho' org).
  rewrite Hl in Ho. inversion Ho as [l' ? Hp Hl'|]; subst. rewrite <- Hp. by apply Ho'.
Qed.

Lemma org_role_org `{UuidText} name display site org user organizationID o l :
  r_Org (org_role name display site org user organizationID) !! o = Some l -> org = l.
Proof. unfold org_role, r_Org. by intros [_ ->]%lookup_singleton_Some. Qed.

Lemma no_org_ok role : r_Org role = ∅ -> forall org l, r_Org role !! org = Some l -> Forall perm_ok l.
Proof. intros -> org l Hl. by rewrite lookup_empty in Hl. Qed.

Lemma Forall_computed (l : list Permission) : forallb perm_ok l = true -> Forall perm_ok l.
Proof. intros Hl. apply Forall_forall. intros x Hx. apply Is_true_true. rewrite forallb_forall in Hl. by apply Hl, list_elem_of_In. Qed.

Lemma lookup_list_to_map_elem {A} (l : list (string * A)) (k : string) (a : A) :
  (list_to_map l : gmap string A) !! k = Some a -> (k, a) ∈ l.
Proof. apply elem_of_list_to_map_2. Qed.

(** Every built-in role, in every organization, passes the check that
    custom roles have to pass: each of its permissions names a known resource
    type and an action of that type. *)
Lemma builtin_roles_valid `{MapRange} `{UuidText} (opts : bool) (name : string) (roleF : uuid -> Role) (org : uuid) :
  ReloadBuiltinRoles opts !! name = Some roleF -> Role_Valid (roleF org) = [].
Proof.
  intros Hname. apply Role_Valid_ok.
  pose proof (builtin_perm elements_range H opts name) as Hp. rewrite Hname in Hp.
  inversion Hp as [f ? Hf Hf0|]; subst. eapply role_ok_perm; [apply Hf|]. symmetry in Hf0.
  apply lookup_list_to_map_elem in Hf0. clear -Hf0.
  repeat (apply elem_of_cons in Hf0 as [[= -> ->]|Hf0]); [..|set_solver].
  6-10: split; [|split; [intros o l <-%org_role_org|]]; by apply Forall_computed; vm_compute.
  all: split; [|split]; [|by apply no_org_ok|]; apply Forall_computed; destruct opts; by vm_compute.
Qed.

(** ** Assigning roles *)

(** [my] is a role that lets its holder assign [assigned]. *)
Definition lets_assign (my assigned : RoleIdentifier) : Prop :=
  (ri_OrganizationID my = uuid_Nil \/ ri_OrganizationID my = ri_OrganizationID assigned) /\
  exists names, assignRoles !! ri_Name my = Some names /\ ri_Name assigned ∈ names.

Lemma can_assign_true roles assigned : can_assign roles assigned = true <-> exists my, my ∈ roles /\ lets_assign my assigned.
Proof.
  induction roles as [|my roles IH]; simpl; [set_solver|]. setoid_rewrite elem_of_cons.
  assert (Hskip : ~ lets_assign my assigned ->
    (can_assign roles assigned = true <-> exists m, (m = my \/ m ∈ roles) /\ lets_assign m assigned))
    by (intros Hmy; rewrite IH; split; [intros (m & ? & ?); eauto|intros (m & [->|?] & ?); eauto; done]).
  case_match eqn:Horg.
  - apply Hskip. intros [[Ho|Ho] _]; rewrite Ho, N.eqb_refl in Horg; simpl in Horg; [done|].
    by rewrite andb_false_r in Horg.
  - destruct (assignRoles !! ri_Name my) as [names|] eqn:Hn; [|apply Hskip; intros (_ & ? & ? & _); congruence].
    case_decide; [|apply Hskip; intros (_ & ? & ? & ?); congruence]. split; [|done]. intros _. exists my.
    split; [by left|]. split; [|by exists names].
    destruct (N.eqb_spec (ri_OrganizationID my) uuid_Nil); [by left|].
    destruct (N.eqb_spec (ri_OrganizationID my) (ri_OrganizationID assigned)); [by right|]. done.
Qed.

Definition site_names : list string := [owner; member; auditor; templateAdmin; userAdmin].
Definition org_names : list string := [orgAdmin; orgMember; orgAuditor; orgUserAdmin; orgTemplateAdmin].

(** A role identifier that a user can hold: that of a role of the site, or a
    role of an organization with a built-in organization role's name. *)
Definition well_scoped (n : RoleIdentifier) : Prop :=
  (ri_Name n ∈ site_names /\ ri_OrganizationID n = uuid_Nil) \/ (ri_Name n ∈ org_names /\ ri_OrganizationID n <> uuid_Nil).

Lemma assignRoles_elem n names : assignRoles !! n = Some names ->
  (n = "system" \/ n = owner) \/
  (n = userAdmin /\ names = list_to_set [member; orgMember]) \/
  (n = orgAdmin /\ names = list_to_set [orgAdmin; orgMember; orgAuditor; orgUserAdmin; orgTemplateAdmin; customOrganizationRole]) \/
  (n = orgUserAdmin /\ names = list_to_set [orgMember]).
Proof.
  intros Hn%lookup_list_to_map_elem.
  repeat (apply elem_of_cons in Hn as [[= -> ->]|Hn]); [tauto..|]. set_solver.
Qed.

(** Who may assign what.  A user whose roles are well scoped and who is no
    owner may assign, as a user administrator of the site, the [member] and
    [organization-member] roles; as an administrator of an organization, roles of
    that organization; and no other role: above all, not that of an owner. *)
Lemma CanAssignRole_bounded (roles : ExpandableRoles) (assigned : RoleIdentifier) :
  Forall well_scoped (Names roles) -> RoleOwner ∉ Names roles -> CanAssignRole roles assigned = true ->
  (RoleUserAdmin ∈ Names roles /\ ri_Name assigned ∈ [member; orgMember]) \/
  (ri_OrganizationID assigned <> uuid_Nil /\ ri_Name assigned ∈ customOrganizationRole :: org_names /\
   (ScopedRoleOrgAdmin (ri_OrganizationID assigned) ∈ Names roles \/
    ScopedRoleOrgUserAdmin (ri_OrganizationID assigned) ∈ Names roles /\ ri_Name assigned = orgMember)).
Proof.
  intros Hw Hown (my & Hmy & Horg & names & Hn & Ha)%can_assign_true.
  rewrite Forall_forall in Hw. specialize (Hw my Hmy). destruct my as [n o]; simpl in *.
  assert (Hsys : n <> "system" /\ (n = owner -> o = uuid_Nil) /\ (n = userAdmin -> o = uuid_Nil) /\
                 (n = orgAdmin \/ n = orgUserAdmin -> o <> uuid_Nil)).
  { unfold well_scoped in Hw; simpl in Hw. clear -Hw.
    destruct Hw as [[Hn Ho]|[Hn Ho]]; repeat (apply elem_of_cons in Hn as [->|Hn]); try set_solver;
      (split; [done|split; [done|split; [done|]]]); by intros [?|?]. }
  destruct Hsys as (Hsys & Ho1 & Ho2 & Ho3).
  apply assignRoles_elem in Hn as [[?| ->]|[[-> ->]|[[-> ->]|[-> ->]]]]; [done|..].
  - rewrite Ho1 in Hmy by done. done.
  - left. rewrite Ho2 in Hmy by done. split; [done|]. set_solver.
  - right. destruct Horg as [->| ->]; [by destruct Ho3; [left|]|]. split; [by apply Ho3; left|]. split; [|by left].
    apply elem_of_list_to_set in Ha. repeat (apply elem_of_cons in Ha as [->|Ha]); [..|by apply not_elem_of_nil in Ha].
    all: by apply (bool_decide_unpack _); vm_compute.
  - right. destruct Horg as [->| ->]; [by destruct Ho3; [right|]|]. split; [by apply Ho3; right|].
    apply elem_of_list_to_set, list_elem_of_singleton in Ha as ->. split; [set_solver|by right].
Qed.

Lemma CanAssignRole_bounded_witness :
  let roles := RoleIdentifiers [RoleMember; ScopedRoleOrgAdmin 7] in
  CanAssignRole roles (ScopedRoleOrgAuditor 7) = true /\ ScopedRoleOrgAdmin 7 ∈ Names roles.
Proof.
  split; [by vm_compute|].
  destruct (CanAssignRole_bounded (RoleIdentifiers [RoleMember; ScopedRoleOrgAdmin 7]) (ScopedRoleOrgAuditor 7))
    as [[Hu _]|(_ & _ & [Ha|[Hu _]])].
  - repeat (apply Forall_cons; split); [left|right|done]; split; by (apply (bool_decide_unpack _); vm_compute) || done.
  - by apply (bool_decide_unpack _); vm_compute.
  - by vm_compute.
  - by apply (bool_decide_unpack _); vm_compute.
  - done.
  - by apply (bool_decide_unpack _); vm_compute.
Defined.

#[export] Instance same_identifier_equality : Equality same_identifier.
Proof.
  intros [n o] [n' o']. unfold same_identifier; simpl. rewrite andb_true_iff, String.eqb_eq, N.eqb_eq.
  split; [by intros [-> ->]|by intros [= -> ->]].
Qed.

(** Replacing a user's roles is adding what [ChangeRoleSet] calls added
    and removing what it calls removed, no more and nothing twice. *)
Lemma ChangeRoleSet_correct from to added removed :
  ChangeRoleSet from to = (added, removed) ->
  (forall r, r ∈ to <-> (r ∈ from /\ r ∉ removed) \/ r ∈ added) /\
  (forall r, r ∈ added -> r ∉ from) /\ (forall r, r ∈ removed -> r ∈ from) /\ NoDup added /\ NoDup removed.
Proof.
  intros (Ha & Hr & Hna & Hnr)%(SymmetricDifferenceFunc_spec same_identifier).
  setoid_rewrite Ha. setoid_rewrite Hr. split; [|naive_solver].
  intros r. destruct (decide (r ∈ from)), (decide (r ∈ to)); naive_solver.
Qed.

Lemma ChangeRoleSet_correct_witness :
  let '(added, removed) := ChangeRoleSet [RoleAuditor; RoleMember] [RoleMember; RoleOwner; RoleOwner] in
  added = [RoleOwner] /\ removed = [RoleAuditor] /\ NoDup added.
Proof.
  split; [done|]. split; [done|].
  apply (ChangeRoleSet_correct [RoleAuditor; RoleMember] [RoleMember; RoleOwner; RoleOwner] [RoleOwner] [RoleAuditor]).
  reflexivity.
Defined.

(** ** Looking up and listing the built-in roles *)

Definition role_shape (builtInRoles : gmap string (uuid -> Role)) : Prop :=
  dom builtInRoles = list_to_set (site_names ++ org_names) /\
  (forall n f, builtInRoles !! n = Some f -> n ∈ site_names ->
     forall org, r_Identifier (f org) = site_role n /\ r_Org (f org) = ∅) /\
  (forall n f, builtInRoles !! n = Some f -> n ∈ org_names ->
     forall org, r_Identifier (f org) = mkIdentifier n org /\ size (r_Org (f org)) = 1%nat).

Lemma names_disjoint n : n ∈ site_names -> n ∉ org_names.
Proof. intros Hn. repeat (apply elem_of_cons in Hn as [->|Hn]); [by apply (bool_decide_unpack _); vm_compute..|set_solver]. Qed.

Lemma org_role_size `{UuidText} name display site org user o : size (r_Org (org_role name display site org user o)) = 1%nat.
Proof. apply map_size_singleton. Qed.

Lemma builtin_shape `{MapRange} `{UuidText} opts : role_shape (ReloadBuiltinRoles opts).
Proof.
  split; [|split].
  - unfold ReloadBuiltinRoles. rewrite dom_list_to_map_L. reflexivity.
  - intros n f Hf%lookup_list_to_map_elem Hn org.
    repeat (apply elem_of_cons in Hf as [[= -> ->]|Hf]); [done..| | | | | |by apply not_elem_of_nil in Hf].
    all: by apply (bool_decide_pack _) in Hn; vm_compute in Hn.
  - intros n f Hf%lookup_list_to_map_elem Hn org.
    repeat (apply elem_of_cons in Hf as [[= -> ->]|Hf]); [..|by apply not_elem_of_nil in Hf].
    1-5: by apply (bool_decide_pack _) in Hn; vm_compute in Hn.
    all: split; [done|apply org_role_size].
Qed.

Section Listing.
Context `{MapRange} `{UuidText} (builtIn : gmap string (uuid -> Role)) (Hshape : role_shape builtIn).

Lemma RoleByName_shape (n : RoleIdentifier) :
  (well_scoped n -> exists role roleF, RoleByName builtIn n = Ok role /\ r_Identifier role = n /\
     builtIn !! ri_Name n = Some roleF /\ role = roleF (ri_OrganizationID n)) /\
  (~ well_scoped n -> is_ok (RoleByName builtIn n) = false).
Proof.
  destruct Hshape as (Hdom & Hsite & Horg).
  unfold RoleByName. destruct n as [n o]; unfold well_scoped; simpl.
  assert (Hin : n ∈ site_names ++ org_names <-> is_Some (builtIn !! n))
    by (by rewrite <- elem_of_dom, Hdom, elem_of_list_to_set).
  rewrite elem_of_app in Hin. destruct (builtIn !! n) as [f|] eqn:Hf.
  - destruct (proj2 Hin (mk_is_Some _ _ eq_refl)) as [Hn|Hn].
    + destruct (Hsite n f Hf Hn o) as [Hi Ho]. rewrite Hi, Ho, map_size_empty. simpl. split.
      * intros [[_ ->]|[Hn' _]]; [|by destruct (names_disjoint n)]. by exists (f uuid_Nil), f.
      * intros Hno. destruct (N.eqb_spec o uuid_Nil) as [->|]; [by destruct Hno; left|done].
    + destruct (Horg n f Hf Hn o) as [Hi Ho]. rewrite Hi, Ho, N.eqb_refl. simpl. split.
      * intros [[Hn' _]|[_ Hne]]; [by destruct (names_disjoint n)|].
        apply N.eqb_neq in Hne as ->. by exists (f o), f.
      * intros Hno. destruct (N.eqb_spec o uuid_Nil) as [->|]; [done|by destruct Hno; right].
  - split; [|done]. intros [[Hn _]|[Hn _]]; destruct (proj1 Hin) as [? ?]; eauto; done.
Qed.

Lemma listed_roles (pick : (uuid -> Role) -> Role) (keep : Role -> bool) role :
  role ∈ (name ← range (dom builtIn); match builtIn !! name with None => [] | Some f => if keep (pick f) then [pick f] else [] end) <->
  exists name f, builtIn !! name = Some f /\ role = pick f /\ keep role = true.
Proof.
  rewrite list_elem_of_bind. split.
  - intros (name & Hr & _). destruct (builtIn !! name) as [f|] eqn:Hf; [|by apply not_elem_of_nil in Hr].
    destruct (keep (pick f)) eqn:Hk; [|by apply not_elem_of_nil in Hr]. apply list_elem_of_singleton in Hr as ->.
    by exists name, f.
  - intros (name & f & Hf & -> & Hk). exists name. rewrite Hf, Hk, range_elem, elem_of_dom. split; [by left|by exists f].
Qed.

Lemma OrganizationRoles_shape org n : org <> uuid_Nil ->
  (exists role, role ∈ OrganizationRoles builtIn org /\ r_Identifier role = n) <->
  ri_Name n ∈ org_names /\ ri_OrganizationID n = org.
Proof.
  intros Hne. destruct Hshape as (Hdom & Hsite & Horg).
  assert (Hin : forall n, n ∈ site_names ++ org_names <-> is_Some (builtIn !! n))
    by (intros x; by rewrite <- elem_of_dom, Hdom, elem_of_list_to_set).
  split.
  - intros (role & Hr & <-). apply (listed_roles (fun f => f org) (fun role => (ri_OrganizationID (r_Identifier role) =? org)%N)) in Hr as (name & f & Hf & -> & Hk).
    apply N.eqb_eq in Hk. destruct (proj1 (elem_of_app _ _ _) (proj2 (Hin name) (mk_is_Some _ _ Hf))) as [Hn|Hn].
    + destruct (Hsite _ _ Hf Hn org) as [Hi _]. by rewrite Hi in Hk.
    + destruct (Horg _ _ Hf Hn org) as [-> _]. done.
  - intros [Hn Ho]. destruct (proj1 (Hin (ri_Name n))) as [f Hf]; [apply elem_of_app; by right|].
    destruct (Horg _ _ Hf Hn org) as [Hi _]. exists (f org). split.
    + apply (listed_roles (fun f => f org) (fun role => (ri_OrganizationID (r_Identifier role) =? org)%N)). exists (ri_Name n), f. rewrite Hi. simpl. by rewrite N.eqb_refl.
    + rewrite Hi. destruct n; simpl in *; by subst.
Qed.
End Listing.

(** A role identifier expands exactly when it is a site role's without an
    organization or an organization role's with one, and then to the built-in
    role that bears it; so a custom role never gets a built-in role's permissions
    by taking its name. *)
Lemma RoleByName_correct `{MapRange} `{UuidText} opts (n : RoleIdentifier) :
  let builtIn := ReloadBuiltinRoles opts in
  (well_scoped n -> exists role roleF, RoleByName builtIn n = Ok role /\ r_Identifier role = n /\
     builtIn !! ri_Name n = Some roleF /\ role = roleF (ri_OrganizationID n)) /\
  (~ well_scoped n -> is_ok (RoleByName builtIn n) = false).
Proof. exact (RoleByName_shape (ReloadBuiltinRoles opts) (builtin_shape opts) n). Qed.

(** The roles listed for an organization are the organization roles. *)
Lemma OrganizationRoles_correct `{MapRange} `{UuidText} opts org n : org <> uuid_Nil ->
  (exists role, role ∈ OrganizationRoles (ReloadBuiltinRoles opts) org /\ r_Identifier role = n) <->
  ri_Name n ∈ org_names /\ ri_OrganizationID n = org.
Proof. exact (OrganizationRoles_shape (ReloadBuiltinRoles opts) (builtin_shape opts) org n). Qed.

(** ** Examples *)

Module Examples.
(** UUIDs as tallies: a text that has no colon and parses back. *)
Fixpoint tally (n : nat) : string := match n with O => EmptyString | S n => String "1" (tally n) end.

#[local] Instance text : UuidText := {| uuid_String u := tally (N.to_nat u) |}.
#[local] Instance parse : UuidParse := {| uuid_Parse s := Ok (N.of_nat (String.length s)) |}.

#[local] Instance round_trip : UuidRoundTrip.
Proof.
  split; intros u; simpl.
  - replace (String.length (tally (N.to_nat u))) with (N.to_nat u); [by rewrite N2Nat.id|].
    induction (N.to_nat u) as [|n IH]; simpl; [done|by rewrite <- IH].
  - by induction (N.to_nat u).
Qed.

Lemma RoleNameFromString_String_witness :
  RoleIdentifier_String (ScopedRoleOrgAuditor 3) = "organization-auditor:111" /\
  RoleNameFromString (RoleIdentifier_String (ScopedRoleOrgAuditor 3)) = Ok (ScopedRoleOrgAuditor 3).
Proof. split; [reflexivity|]. apply (RoleNameFromString_String (ScopedRoleOrgAuditor 3)); [discriminate|reflexivity]. Defined.

Lemma builtin_roles_valid_witness : exists roleF, ReloadBuiltinRoles true !! orgAdmin = Some roleF /\ Role_Valid (roleF 7%N) = [].
Proof.
  destruct (ReloadBuiltinRoles true !! orgAdmin) as [roleF|] eqn:Hf; [|by vm_compute in Hf].
  exists roleF. split; [done|]. apply (builtin_roles_valid true orgAdmin roleF 7 Hf).
Defined.

Lemma RoleByName_correct_witness : exists role, RoleByName (ReloadBuiltinRoles false) (ScopedRoleOrgAdmin 7) = Ok role.
Proof.
  destruct (proj1 (RoleByName_correct false (ScopedRoleOrgAdmin 7))) as (role & f & Hr & _).
  - right. split; [by apply (bool_decide_unpack _); vm_compute|done].
  - by exists role.
Defined.

End Examples.
