(* ===== verification/RbacPolicy.v ===== *)
(** * Authorisation: [wirtuald/rbac/policy.rego] and [authz.go]

    The policy, rule by rule, on the input the authorizer builds for it; the
    authorizer, which expands a subject's roles and scope; and filtering a list
    of objects, one decision at a time or after a partial evaluation.  The rego
    rules are shown to implement a reading of them in terms of permissions
    ([policy_correct]), from which what the built-in roles and scopes permit
    follows. *)

From Stdlib Require Import Ascii.
From S2P Require Import Prelude GoStrings GoEncoding GoJson Slices Rbac.
Local Open Scope string_scope.
Local Open Scope list_scope.
Local Open Scope Z_scope.

(** ** The policy *)

(** The input's subject, with roles and scope expanded. *)
Record authSubject := mkAuthSubject {
  as_ID : string;
  as_Roles : list Role;
  as_Groups : list string;
  as_Scope : Scope;
}.

Definition bool_flip (b : bool) : bool := if b then false else true.

(** Of a set of booleans, given by its elements: 0 if it has none, -1 if it
    has [false], 1 otherwise. *)
Definition number (set : list bool) : Z :=
  if Nat.eqb (length set) 0 then 0 else if existsb negb set then -1 else 1.

(** [x in [y, "*"]]. *)
Definition or_wildcard (x y : string) : bool := String.eqb x y || String.eqb x "*".

Section Rules.
Context (subject : authSubject) (action : Action) (object : Object).

Definition matches (perm : Permission) : bool :=
  or_wildcard (p_Action perm) action && or_wildcard (p_ResourceType perm) (o_Type object).

(** The booleans that the permissions which match contribute. *)
Definition contributions (perms : list Permission) : list bool :=
  perm ← perms; if matches perm then [bool_flip (p_Negate perm)] else [].

Definition site_allow (roles : list Role) : Z := number (contributions (roles ≫= r_Site)).

Definition org_members : gset string := ⋃ ((fun role => dom (r_Org role)) <$> as_Roles subject).

(** [roles[_].org[id][_]]. *)
Definition org_permissions (roles : list Role) (id : string) : list Permission :=
  role ← roles; default [] (r_Org role !! id).

Definition org_allow_set (roles : list Role) : gmap string Z :=
  set_to_map (fun id => (id, number (contributions (org_permissions roles id)))) org_members.

(** A rule that has no value is [None]. *)
Definition org_allow (roles : list Role) : option Z :=
  if o_AnyOrgOwner object then
    Some (number ('(_, value) ← map_to_list (org_allow_set roles); if 0 <? value then [true] else []))
  else org_allow_set roles !! o_OrgID object.

Definition user_allow (roles : list Role) : option Z :=
  if negb (String.eqb (o_Owner object) "") && String.eqb (as_ID subject) (o_Owner object)
  then Some (number (contributions (roles ≫= r_User))) else None.

Definition site : Z := site_allow (as_Roles subject).
Definition org : Z := default 0 (org_allow (as_Roles subject)).
Definition user : Z := default 0 (user_allow (as_Roles subject)).

(** The rules of the scope's other levels read [input.scope], which the input
    does not have: they have their default, or no value, whatever the scope.
    (The default is given to [user_scope], the rule is [scope_user].) *)
Definition input_scope : option Scope := None.
Definition scope_site : Z := site_allow [sc_Role (as_Scope subject)].
Definition scope_org : Z := default 0 (s ← input_scope; org_allow [sc_Role s]).
Definition scope_user : option Z := s ← input_scope; user_allow [sc_Role s].

Definition org_mem : bool :=
  (negb (o_AnyOrgOwner object) && negb (String.eqb (o_OrgID object) "") && bool_decide (o_OrgID object ∈ org_members))
  || (o_AnyOrgOwner object && negb (Nat.eqb (size org_members) 0)).

Definition org_ok : bool := org_mem || (String.eqb (o_OrgID object) "" && negb (o_AnyOrgOwner object)).

Definition scope_allow_list : bool :=
  let allow_list := sc_AllowIDList (as_Scope subject) in
  bool_decide ("*" ∈ allow_list) || (bool_decide ("*" ∉ allow_list) && bool_decide (o_ID object ∈ allow_list)).

Definition role_allow : bool :=
  (site =? 1)
  || (negb (site =? -1) && (org =? 1))
  || (negb (site =? -1) && negb (org =? -1) && org_ok && (user =? 1)).

Definition scope_allow : bool :=
  (scope_allow_list && (scope_site =? 1))
  || (scope_allow_list && negb (scope_site =? -1) && (scope_org =? 1))
  || (scope_allow_list && negb (scope_site =? -1) && negb (scope_org =? -1) && org_ok
      && bool_decide (scope_user = Some 1)).

Definition acl_perms_allow (perms : option (list Action)) : bool :=
  match perms with None => false | Some perms => bool_decide (action ∈ perms) || bool_decide ("*" ∈ perms) end.

Definition acl_allow : bool :=
  acl_perms_allow (o_ACLUserList object !! as_ID subject)
  || (org_mem && existsb (fun group => acl_perms_allow (o_ACLGroupList object !! group)) (as_Groups subject))
  || (org_mem && acl_perms_allow (o_ACLGroupList object !! o_OrgID object)).

Definition allow : bool := (role_allow && scope_allow) || (acl_allow && scope_allow).
End Rules.

(** ** The authorizer *)

Record Subject := mkSubject {
  s_FriendlyName : string;
  s_ID : string;
  s_Roles : option ExpandableRoles;
  s_Groups : list string;
  s_Scope : option ExpandableScope;
}.

(** [UnauthorizedError], which callers tell from other errors. *)
Inductive authz_error := Unauthorized | AuthzError (msg : string).

Definition IsUnauthorizedError (e : authz_error) : bool := match e with Unauthorized => true | AuthzError _ => false end.

Definition nil_uuid_text : string := "00000000-0000-0000-0000-000000000000".

Section Authorizer.
Context `{MapRange} `{UuidText} (builtInRoles : gmap string (uuid -> Role)).

Definition SafeScopeName (s : Subject) : string :=
  match s_Scope s with None => "no-scope" | Some scope => RoleIdentifier_String (Scope_Name scope) end.

Definition SafeRoleNames (s : Subject) : list RoleIdentifier :=
  match s_Roles s with None => [] | Some roles => Names roles end.

Definition Subject_Equal (s b : Subject) : bool :=
  String.eqb (s_ID s) (s_ID b) && SameElements (s_Groups s) (s_Groups b)
  && SameElements (SafeRoleNames s) (SafeRoleNames b) && String.eqb (SafeScopeName s) (SafeScopeName b).

(** The subject's part of the input; its roles and scope are not nil. *)
Definition Subject_regoValue (s : Subject) (roles : ExpandableRoles) (scope : ExpandableScope) : result authSubject :=
  subjRoles ← wrap "expand roles" (Roles_Expand builtInRoles roles);
  subjScope ← wrap "expand scope" (Scope_Expand scope);
  Ok (mkAuthSubject (s_ID s) subjRoles (s_Groups s) subjScope).

Definition regoInputValue (s : Subject) (roles : ExpandableRoles) (scope : ExpandableScope) : result authSubject :=
  wrap "subject" (Subject_regoValue s roles scope).

(** No error is [None]. *)
Definition authorize (s : Subject) (action : Action) (object : Object) : option authz_error :=
  match s_Roles s, s_Scope s with
  | None, _ => Some (AuthzError "subject must have roles")
  | _, None => Some (AuthzError "subject must have a scope")
  | Some roles, Some scope =>
      if o_AnyOrgOwner object && negb (String.eqb (o_OrgID object) "" || String.eqb (o_OrgID object) nil_uuid_text) then
        Some (AuthzError "object cannot have 'any_org' and an 'org_id' specified, values are mutually exclusive")
      else match wrap "convert input to value" (regoInputValue s roles scope) with
      | Err e => Some (AuthzError e)
      | Ok input => if allow input action object then None else Some Unauthorized
      end
  end.

Definition Authorize (strict : bool) (s : Subject) (action : Action) (object : Object) : option authz_error :=
  match (if strict then ValidAction object action else Ok tt) with
  | Err e => Some (AuthzError ("strict authz check: " +:+ e))
  | Ok _ => authorize s action object
  end.

(** ** Partial evaluation and filtering *)

(** What is known of the object when the policy is evaluated partially: its
    type.  The fields declared unknown come with the object; [any_org] is not
    among them, and so has no value. *)
Definition with_unknowns (objectType : string) (object : Object) : Object :=
  mkObject (o_ID object) (o_Owner object) (o_OrgID object) false objectType (o_ACLUserList object) (o_ACLGroupList object).

Record PartialAuthorizer := mkPartial { pa_input : authSubject; pa_action : Action; pa_type : string }.

Definition Prepare (s : Subject) (action : Action) (objectType : string) : result PartialAuthorizer :=
  wrap "new partial authorizer"
    match s_Roles s, s_Scope s with
    | None, _ => Err "subject must have roles"
    | _, None => Err "subject must have a scope"
    | Some roles, Some scope =>
        input ← wrap "prepare input" (regoInputValue s roles scope);
        Ok (mkPartial input action objectType)
    end.

Definition Partial_Authorize (pa : PartialAuthorizer) (object : Object) : option authz_error :=
  if allow (pa_input pa) (pa_action pa) (with_unknowns (pa_type pa) object) then None else Some Unauthorized.

Section Objects.
Context {O : Type} (RBACObject : O -> Object).

Fixpoint filter_loop (authorizes : Object -> option authz_error) (objectType : string) (objects : list O) : result (list O) :=
  match objects with
  | [] => Ok []
  | o :: objects =>
      let rbacObj := RBACObject o in
      if negb (String.eqb (o_Type rbacObj) objectType) then
        Err ("object types must be uniform across the set (" +:+ objectType +:+ "), found " +:+ o_Type rbacObj)
      else match authorizes rbacObj with
      | None => cons o <$> filter_loop authorizes objectType objects
      | Some Unauthorized => filter_loop authorizes objectType objects
      | Some (AuthzError e) => Err e
      end
  end.

Definition Filter (strict : bool) (s : Subject) (action : Action) (objects : list O) : result (list O) :=
  match objects with
  | [] => Ok objects
  | first :: _ =>
      let objectType := o_Type (RBACObject first) in
      if Nat.ltb (length objects) 10 then filter_loop (Authorize strict s action) objectType objects
      else
        prepared ← wrap "prepare" (Prepare s action objectType);
        filter_loop (Partial_Authorize prepared) objectType objects
  end.
End Objects.
End Authorizer.

(** ** The policy, read in terms of permissions *)

Section Reading.
Context (subject : authSubject) (action : Action) (object : Object).

(** What a level's permissions say of the action: yes, when some permission is
    about it and none that is denies it; no, when one denies it. *)
Definition permits (perms : list Permission) : Prop :=
  (exists p, p ∈ perms /\ matches action object p = true) /\
  forall p, p ∈ perms -> matches action object p = true -> p_Negate p = false.
Definition denies (perms : list Permission) : Prop :=
  exists p, p ∈ perms /\ matches action object p = true /\ p_Negate p = true.

Definition is_member (id : string) : Prop := exists role, role ∈ as_Roles subject /\ is_Some (r_Org role !! id).

(** The organization level: the object's organization, or any of the
    subject's, which then cannot deny. *)
Definition org_permits : Prop :=
  if o_AnyOrgOwner object then exists id, is_member id /\ permits (org_permissions (as_Roles subject) id)
  else permits (org_permissions (as_Roles subject) (o_OrgID object)).
Definition org_denies : Prop :=
  if o_AnyOrgOwner object then False else denies (org_permissions (as_Roles subject) (o_OrgID object)).

Definition in_org : Prop :=
  if o_AnyOrgOwner object then exists id, is_member id else o_OrgID object <> "" /\ is_member (o_OrgID object).
Definition in_org_or_none : Prop := in_org \/ (o_OrgID object = "" /\ o_AnyOrgOwner object = false).

Definition owns : Prop := o_Owner object <> "" /\ as_ID subject = o_Owner object.

(** A level decides unless a level above it denies: the site, then the
    organization, then the owner's own permissions. *)
Definition role_spec : Prop :=
  permits (as_Roles subject ≫= r_Site) \/
  (~ denies (as_Roles subject ≫= r_Site) /\
   (org_permits \/
    (~ org_denies /\ in_org_or_none /\ owns /\ permits (as_Roles subject ≫= r_User)))).

Definition acl_grants (perms : option (list Action)) : Prop := exists l, perms = Some l /\ (action ∈ l \/ "*" ∈ l).

Definition acl_spec : Prop :=
  acl_grants (o_ACLUserList object !! as_ID subject) \/
  (in_org /\ exists group, (group ∈ as_Groups subject \/ group = o_OrgID object) /\ acl_grants (o_ACLGroupList object !! group)).

Definition scope_spec : Prop :=
  ("*" ∈ sc_AllowIDList (as_Scope subject) \/ o_ID object ∈ sc_AllowIDList (as_Scope subject)) /\
  permits (r_Site (sc_Role (as_Scope subject))).

Lemma contributions_elem perms b :
  b ∈ contributions action object perms <-> exists p, p ∈ perms /\ matches action object p = true /\ b = negb (p_Negate p).
Proof.
  unfold contributions, bool_flip. rewrite list_elem_of_bind. split.
  - intros (p & Hb & Hp). exists p. case_match; [|by apply not_elem_of_nil in Hb].
    apply list_elem_of_singleton in Hb as ->. by destruct (p_Negate p).
  - intros (p & Hp & Hm & ->). exists p. rewrite Hm. split; [|done]. destruct (p_Negate p); by left.
Qed.

Lemma number_cases set :
  (number set = 1 /\ true ∈ set /\ false ∉ set) \/ (number set = -1 /\ false ∈ set) \/ (number set = 0 /\ set = []).
Proof.
  unfold number. destruct set as [|b set]; simpl Nat.eqb; cbn iota; [by right; right|].
  destruct (existsb negb (b :: set)) eqn:He.
  - right; left. split; [done|]. apply existsb_exists in He as ([] & Hb & ?); [done|]. by apply list_elem_of_In.
  - left. split; [done|]. assert (Hf : false ∉ b :: set).
    { intros Hf%list_elem_of_In. assert (existsb negb (b :: set) = true) by (apply existsb_exists; eauto). congruence. }
    split; [|done]. destruct b; [by left|]. destruct Hf. by left.
Qed.

Lemma level_permits perms : number (contributions action object perms) = 1 <-> permits perms.
Proof.
  unfold permits. destruct (number_cases (contributions action object perms)) as [(-> & Ht & Hf)|[[-> Hf]|[-> Hn]]].
  - split; [intros _|done]. apply contributions_elem in Ht as (p & Hp & Hm & _). split; [by exists p|].
    intros q Hq Hqm. destruct (p_Negate q) eqn:Hneg; [|done]. destruct Hf. apply contributions_elem. exists q. by rewrite Hneg.
  - split; [done|]. intros [_ Hall]. apply contributions_elem in Hf as (p & Hp & Hm & Hneg).
    rewrite (Hall p Hp Hm) in Hneg. done.
  - split; [done|]. intros [(p & Hp & Hm) _]. destruct (elem_of_nil (negb (p_Negate p))) as [[] _].
    rewrite <- Hn. apply contributions_elem. eauto.
Qed.

Lemma level_denies perms : number (contributions action object perms) = -1 <-> denies perms.
Proof.
  unfold denies. destruct (number_cases (contributions action object perms)) as [(-> & Ht & Hf)|[[-> Hf]|[-> Hn]]].
  - split; [done|]. intros (p & Hp & Hm & Hneg). destruct Hf. apply contributions_elem. exists p. by rewrite Hneg.
  - split; [intros _|done]. apply contributions_elem in Hf as (p & Hp & Hm & Hneg). exists p.
    split; [done|]. split; [done|]. by destruct (p_Negate p).
  - split; [done|]. intros (p & Hp & Hm & _). destruct (elem_of_nil (negb (p_Negate p))) as [[] _].
    rewrite <- Hn. apply contributions_elem. eauto.
Qed.

Lemma org_members_elem id : id ∈ org_members subject <-> is_member id.
Proof.
  unfold org_members, is_member. rewrite elem_of_union_list. split.
  - intros (X & (role & -> & Hr)%list_elem_of_fmap & Hid). exists role. by rewrite <- elem_of_dom.
  - intros (role & Hr & Hid). exists (dom (r_Org role)). rewrite elem_of_dom. split; [|done].
    apply list_elem_of_fmap. by exists role.
Qed.

Lemma org_allow_set_lookup roles id v :
  org_allow_set subject action object roles !! id = Some v <->
  is_member id /\ v = number (contributions action object (org_permissions roles id)).
Proof.
  unfold org_allow_set. rewrite lookup_set_to_map by (intros ????; naive_solver).
  setoid_rewrite org_members_elem. split.
  - intros (y & Hy & [= -> <-]). done.
  - intros [Hid ->]. by exists id.
Qed.
End Reading.

Section Rules_meet_reading.
Context (subject : authSubject) (action : Action) (object : Object).
Notation permits := (permits action object).
Notation denies := (denies action object).

Lemma not_member_permissions id : ~ is_member subject id -> org_permissions (as_Roles subject) id = [].
Proof.
  intros Hno. unfold org_permissions. apply bind_nil. intros role Hr.
  destruct (r_Org role !! id) eqn:Hid; [|done]. destruct Hno. exists role. by rewrite Hid.
Qed.

(** Whether or not the subject is in the organization, its level is that of
    the permissions there. *)
Lemma org_level : o_AnyOrgOwner object = false ->
  org subject action object = number (contributions action object (org_permissions (as_Roles subject) (o_OrgID object))).
Proof.
  intros Hany. unfold org, org_allow. rewrite Hany.
  destruct (org_allow_set subject action object (as_Roles subject) !! o_OrgID object) as [v|] eqn:Hv; simpl.
  - by apply org_allow_set_lookup in Hv as [_ ->].
  - rewrite not_member_permissions; [done|]. intros Hm.
    assert (Hs := proj2 (org_allow_set_lookup subject action object (as_Roles subject) (o_OrgID object) _) (conj Hm eq_refl)).
    congruence.
Qed.

Lemma any_org_level : o_AnyOrgOwner object = true ->
  (org subject action object = 1 <-> exists id, is_member subject id /\ permits (org_permissions (as_Roles subject) id)) /\
  org subject action object <> -1.
Proof.
  intros Hany. unfold org, org_allow. rewrite Hany. simpl.
  set (kept := _ ≫= _). assert (Htrue : forall b, b ∈ kept -> b = true).
  { intros b ([id v] & Hb & _)%list_elem_of_bind. case_match; [by apply list_elem_of_singleton in Hb|by apply not_elem_of_nil in Hb]. }
  assert (Hne : true ∈ kept <-> exists id, is_member subject id /\ permits (org_permissions (as_Roles subject) id)).
  { unfold kept. rewrite list_elem_of_bind. split.
    - intros ([id v] & Hb & [Hid ->]%elem_of_map_to_list%org_allow_set_lookup). exists id. split; [done|].
      apply level_permits. case_match eqn:Hv; [|by apply not_elem_of_nil in Hb]. apply Z.ltb_lt in Hv.
      destruct (number_cases (contributions action object (org_permissions (as_Roles subject) id))) as [(-> & _)|[[? _]|[? _]]]; lia.
    - intros (id & Hid & Hp%level_permits). exists (id, 1). split; [by left|].
      apply elem_of_map_to_list, org_allow_set_lookup. by rewrite Hp. }
  rewrite <- Hne. destruct (number_cases kept) as [(-> & Ht & _)|[[-> Hf]|[-> Hn]]].
  - done.
  - by apply Htrue in Hf.
  - split; [|done]. split; [done|]. rewrite Hn. by intros ?%not_elem_of_nil.
Qed.

Lemma org_permits_iff : org subject action object = 1 <-> org_permits subject action object.
Proof.
  unfold org_permits. destruct (o_AnyOrgOwner object) eqn:Hany; [by apply any_org_level|].
  rewrite org_level by done. apply level_permits.
Qed.

Lemma org_denies_iff : org subject action object = -1 <-> org_denies subject action object.
Proof.
  unfold org_denies. destruct (o_AnyOrgOwner object) eqn:Hany.
  - split; [|done]. by apply any_org_level.
  - rewrite org_level by done. apply level_denies.
Qed.

Lemma user_permits_iff : user subject action object = 1 <-> owns subject object /\ permits (as_Roles subject ≫= r_User).
Proof.
  unfold user, user_allow, owns. destruct (String.eqb_spec (o_Owner object) ""); simpl; [naive_solver|].
  destruct (String.eqb_spec (as_ID subject) (o_Owner object)); simpl; [|naive_solver].
  rewrite level_permits. naive_solver.
Qed.

Lemma org_mem_iff : org_mem subject object = true <-> in_org subject object.
Proof.
  unfold org_mem, in_org. destruct (o_AnyOrgOwner object); simpl.
  - rewrite negb_true_iff, Nat.eqb_neq. split.
    + intros Hs. destruct (set_choose_L (org_members subject)) as [id Hid]; [|exists id; by apply org_members_elem].
      intros He. by rewrite He, size_empty in Hs.
    + intros (id & Hid%org_members_elem) Hs. apply size_empty_inv in Hs. set_solver.
  - rewrite orb_false_r, andb_true_iff, negb_true_iff, String.eqb_neq, bool_decide_eq_true, org_members_elem. done.
Qed.

Lemma org_ok_iff : org_ok subject object = true <-> in_org_or_none subject object.
Proof.
  unfold org_ok, in_org_or_none. rewrite orb_true_iff, org_mem_iff, andb_true_iff, String.eqb_eq, negb_true_iff. done.
Qed.

Lemma role_allow_iff : role_allow subject action object = true <-> role_spec subject action object.
Proof.
  unfold role_allow, role_spec. rewrite <- org_denies_iff, <- org_permits_iff, <- org_ok_iff.
  rewrite <- (level_permits action object (_ ≫= r_Site)), <- (level_denies action object (_ ≫= r_Site)).
  pose proof user_permits_iff as Hu. unfold site, site_allow.
  set (s := number _). set (o := org _ _ _) in *. set (u := user _ _ _) in *.
  rewrite !orb_true_iff, !andb_true_iff, !negb_true_iff, !Z.eqb_eq, !Z.eqb_neq. tauto.
Qed.

Lemma acl_perms_allow_iff perms : acl_perms_allow action perms = true <-> acl_grants action perms.
Proof.
  unfold acl_perms_allow, acl_grants. destruct perms as [l|]; [|naive_solver].
  rewrite orb_true_iff, !bool_decide_eq_true. naive_solver.
Qed.

Lemma acl_allow_iff : acl_allow subject action object = true <-> acl_spec subject action object.
Proof.
  unfold acl_allow, acl_spec. rewrite !orb_true_iff, !andb_true_iff, org_mem_iff, !acl_perms_allow_iff, existsb_exists.
  setoid_rewrite acl_perms_allow_iff. setoid_rewrite <- list_elem_of_In. naive_solver.
Qed.

(** Only the scope's site permissions ever decide. *)
Lemma scope_allow_iff : scope_allow subject action object = true <-> scope_spec subject action object.
Proof.
  unfold scope_allow, scope_spec, scope_org, scope_user, scope_site, site_allow. simpl. rewrite app_nil_r.
  rewrite <- level_permits, !andb_false_r, !orb_false_r, andb_true_iff, Z.eqb_eq. f_equiv.
  unfold scope_allow_list. rewrite orb_true_iff, andb_true_iff, !bool_decide_eq_true.
  destruct (decide ("*" ∈ sc_AllowIDList (as_Scope subject))); tauto.
Qed.
End Rules_meet_reading.

(** C14: the rego policy implements its reading.  An action is allowed exactly
    when the scope allows it (the object is on the allow list and the scope's site
    permissions permit the action) and either an access control list grants it,
    to the user or, in the organization, to one of its groups or to everyone, or
    the roles do: the site level, then the organization's, then that of what the
    user owns, where a level that denies silences those below it. *)
Theorem policy_correct subject action object :
  allow subject action object = true <->
  scope_spec subject action object /\ (role_spec subject action object \/ acl_spec subject action object).
Proof.
  unfold allow. rewrite orb_true_iff, !andb_true_iff, role_allow_iff, acl_allow_iff, scope_allow_iff. tauto.
Qed.

(** ** The decision does not depend on the order of permissions *)

(** Subjects that differ in the order of their roles' permissions only. *)
Record subject_perm (a b : authSubject) : Prop := mkSubjectPerm {
  sp_ID : as_ID a = as_ID b;
  sp_Roles : Forall2 role_perm (as_Roles a) (as_Roles b);
  sp_Groups : as_Groups a = as_Groups b;
  sp_Scope : role_perm (sc_Role (as_Scope a)) (sc_Role (as_Scope b));
  sp_AllowIDList : sc_AllowIDList (as_Scope a) = sc_AllowIDList (as_Scope b);
}.

#[export] Instance permits_proper action object : Proper (Permutation ==> iff) (permits action object).
Proof. intros l l' Hl. unfold permits. by setoid_rewrite Hl. Qed.

#[export] Instance denies_proper action object : Proper (Permutation ==> iff) (denies action object).
Proof. intros l l' Hl. unfold denies. by setoid_rewrite Hl. Qed.

Lemma bind_perm_Forall2 {A B} (R : A -> A -> Prop) (f : A -> list B) (l l' : list A) :
  Forall2 R l l' -> (forall x y, R x y -> f x ≡ₚ f y) -> (l ≫= f) ≡ₚ (l' ≫= f).
Proof. intros Hl Hf. induction Hl as [|x y l l' Hxy _ IH]; simpl; [done|]. by rewrite (Hf x y Hxy), IH. Qed.

Lemma org_permissions_perm (roles roles' : list Role) id :
  Forall2 role_perm roles roles' -> org_permissions roles id ≡ₚ org_permissions roles' id.
Proof.
  intros Hr. apply (bind_perm_Forall2 role_perm); [done|]. intros x y [_ _ Ho _].
  by destruct (Ho id).
Qed.

Lemma is_member_perm (a b : authSubject) id : subject_perm a b -> is_member a id -> is_member b id.
Proof.
  intros [_ Hr _ _ _] (role & Hin & Hid). apply list_elem_of_lookup in Hin as [i Hi].
  eapply Forall2_lookup_l in Hi as (role' & Hi' & Hp); [|done]. exists role'. split; [by eapply list_elem_of_lookup_2|].
  destruct Hp as [_ _ Ho _]. destruct (Ho id); [by eexists|]. by destruct Hid.
Qed.

#[export] Instance subject_perm_equivalence : Equivalence subject_perm.
Proof.
  split.
  - intros a. split; done || reflexivity.
  - intros a b [? ? ? ? ?]. split; by symmetry.
  - intros a b c [H1 H2 H3 H4 H5] [? ? ? ? ?]. split; etrans; eauto.
Qed.

Lemma is_member_iff a b id : subject_perm a b -> is_member a id <-> is_member b id.
Proof. intros Hp. split; [by apply is_member_perm|]. by apply is_member_perm. Qed.

#[export] Instance allow_proper : Proper (subject_perm ==> eq ==> eq ==> eq) allow.
Proof.
  intros a b Hp action ? <- object ? <-. apply eq_true_iff_eq. rewrite !policy_correct.
  pose proof (is_member_iff a b) as Hm. pose proof (fun id => org_permissions_perm _ _ id (sp_Roles a b Hp)) as Ho.
  destruct Hp as [Hid Hr Hg Hs Ha].
  pose proof (bind_perm_Forall2 role_perm r_Site _ _ Hr rp_Site) as Hsite.
  pose proof (bind_perm_Forall2 role_perm r_User _ _ Hr rp_User) as Huser.
  assert (Hp : subject_perm a b) by done.
  assert (Horg : in_org a object <-> in_org b object).
  { unfold in_org. case_match; setoid_rewrite Hm; done. }
  assert (Hperm : org_permits a action object <-> org_permits b action object).
  { unfold org_permits. case_match; [|by rewrite Ho]. by setoid_rewrite Hm; [setoid_rewrite Ho|]. }
  assert (Hden : org_denies a action object <-> org_denies b action object).
  { unfold org_denies. case_match; [done|by rewrite Ho]. }
  unfold scope_spec, role_spec, acl_spec, in_org_or_none, owns. rewrite Hperm, Hden, Horg, Hsite, Huser, Ha, Hid, Hg.
  by rewrite (rp_Site _ _ Hs).
Qed.

(** A property of every permission of a role. *)
Definition all_perms (P : Permission -> Prop) (role : Role) : Prop :=
  Forall P (r_Site role) /\ (forall id l, r_Org role !! id = Some l -> Forall P l) /\ Forall P (r_User role).

Lemma all_perms_perm P a b : role_perm a b -> all_perms P b -> all_perms P a.
Proof.
  intros [_ Hs Ho Hu] (Hs' & Ho' & Hu'). split; [by rewrite Hs|]. split; [|by rewrite Hu].
  intros id l Hl. specialize (Ho id). rewrite Hl in Ho. inversion Ho as [? l' Hp Hl'|]; subst. rewrite Hp. by eapply Ho'.
Qed.

(** More roles are more rights, as long as none of the permissions they add
    denies. *)
Section MoreRoles.
Context (subject : authSubject) (action : Action) (object : Object) (more : list Role).

Definition never_denies (role : Role) : Prop := all_perms (fun p => p_Negate p = false) role.

Definition add_roles : authSubject :=
  mkAuthSubject (as_ID subject) (as_Roles subject ++ more) (as_Groups subject) (as_Scope subject).

Lemma permits_app l l' : Forall (fun p => p_Negate p = false) l' -> permits action object l -> permits action object (l ++ l').
Proof.
  rewrite Forall_forall. unfold permits. setoid_rewrite elem_of_app. intros Hl' [(p & Hp & Hm) Hall].
  split; [exists p; tauto|]. intros q [Hq|Hq] Hqm; [by apply Hall|by apply Hl'].
Qed.

Lemma denies_app l l' : Forall (fun p => p_Negate p = false) l' -> denies action object (l ++ l') -> denies action object l.
Proof.
  rewrite Forall_forall. unfold denies. setoid_rewrite elem_of_app. intros Hl' (p & [Hp|Hp] & Hm & Hn); [by exists p|].
  rewrite (Hl' p Hp) in Hn. done.
Qed.

Lemma never_denies_bind (f : Role -> list Permission) :
  (forall role, never_denies role -> Forall (fun p => p_Negate p = false) (f role)) -> Forall never_denies more ->
  Forall (fun p => p_Negate p = false) (more ≫= f).
Proof.
  intros Hf Hmore. rewrite Forall_forall in Hmore. apply Forall_forall. intros p (role & Hp & Hr)%list_elem_of_bind.
  specialize (Hf role (Hmore role Hr)). rewrite Forall_forall in Hf. by apply Hf.
Qed.

(** Giving a subject more roles takes nothing away from it, unless the
    roles have permissions that deny. *)
Lemma more_roles_more_rights :
  Forall never_denies more -> allow subject action object = true -> allow add_roles action object = true.
Proof.
  rewrite !policy_correct. intros Hmore [Hscope Hallow]. split; [done|].
  assert (Hmem : forall id, is_member subject id -> is_member add_roles id).
  { intros id (role & Hr & Hid). exists role. simpl. rewrite elem_of_app. tauto. }
  assert (Horg : in_org subject object -> in_org add_roles object).
  { unfold in_org. case_match; [|naive_solver]. intros (id & Hid). exists id. by apply Hmem. }
  assert (Hop : forall id, org_permissions (as_Roles add_roles) id = org_permissions (as_Roles subject) id ++ org_permissions more id)
    by (intros id; apply bind_app).
  assert (Hon : forall id, Forall (fun p => p_Negate p = false) (org_permissions more id)).
  { intros id. apply never_denies_bind; [|done]. intros role (_ & Ho & _).
    destruct (r_Org role !! id) eqn:Hid; simpl; [by eapply Ho|done]. }
  assert (Hsn := never_denies_bind r_Site (fun _ H => proj1 H) Hmore).
  assert (Hun := never_denies_bind r_User (fun _ H => proj2 (proj2 H)) Hmore).
  destruct Hallow as [Hrole|Hacl]; [left|right; destruct Hacl as [?|[? ?]]; [by left|right; split; auto; done]].
  unfold role_spec in *. simpl as_Roles. rewrite !bind_app.
  destruct Hrole as [Hs|(Hnd & Hrole)]; [left; by apply permits_app|right].
  split; [intros Hd; by apply denies_app in Hd|]. destruct Hrole as [Ho|(Hod & Hok & Hown & Hu)]; [left|right].
  - unfold org_permits in *. case_match; [destruct Ho as (id & Hid & Ho); exists id; split; [by apply Hmem|]|].
    all: simpl as_Roles in Hop; rewrite Hop; by apply permits_app.
  - split; [|split; [|split; [done|by apply permits_app]]].
    + unfold org_denies in *. case_match; [done|]. simpl as_Roles in Hop. rewrite Hop. intros Hd. by apply denies_app in Hd.
    + destruct Hok as [?|?]; [left; auto|by right].
Qed.
End MoreRoles.

(** ** What the built-in roles permit *)

Section Builtin.
Context `{MapRange} `{UuidText} (opts : bool).

(** The built-in roles under one order of ranging over maps, which compute. *)
Definition reference_roles : gmap string (uuid -> Role) := ReloadBuiltinRoles (H:=elements_range) opts.

(** The role that a name expands to, up to the order of its permissions. *)
Definition expands (n : RoleIdentifier) (role : Role) : Prop :=
  well_scoped n /\ exists roleF, reference_roles !! ri_Name n = Some roleF /\ role_perm role (roleF (ri_OrganizationID n)).

Lemma RoleByName_expands n role : RoleByName (ReloadBuiltinRoles opts) n = Ok role -> expands n role.
Proof.
  intros Hr. destruct (RoleByName_shape _ (builtin_shape opts) n) as [Hyes Hno].
  assert (Hw : well_scoped n).
  { unfold well_scoped. destruct (decide (ri_Name n ∈ site_names /\ ri_OrganizationID n = uuid_Nil)) as [|Hs]; [by left|].
    destruct (decide (ri_Name n ∈ org_names /\ ri_OrganizationID n <> uuid_Nil)) as [|Ho]; [by right|].
    rewrite Hr in Hno. discriminate Hno. unfold well_scoped. tauto. }
  split; [done|]. destruct (Hyes Hw) as (role' & f & Hr' & _ & Hf & ->). rewrite Hr in Hr'. injection Hr' as ->.
  pose proof (builtin_perm H elements_range opts (ri_Name n)) as Hp. rewrite Hf in Hp.
  inversion Hp as [? g Hg Hg'|]; subst. exists g. split; [by symmetry|apply Hg].
Qed.

Lemma rolesByNames_expands names roles :
  rolesByNames (ReloadBuiltinRoles opts) names = Ok roles -> Forall2 expands names roles.
Proof.
  revert roles. induction names as [|n names IH]; simpl; intros roles Hr; [by injection Hr as <-|].
  apply bind_Ok in Hr as (role & Hn%wrap_Ok%RoleByName_expands & (rs & Hrs & [= <-])%bind_Ok).
  constructor; auto.
Qed.

Lemma expands_org_keys n role id : expands n role -> is_Some (r_Org role !! id) ->
  ri_Name n ∈ org_names /\ id = uuid_String (ri_OrganizationID n).
Proof.
  intros (Hw & f & Hf & [_ _ Ho _]) Hid. specialize (Ho id).
  assert (Hid' : is_Some (r_Org (f (ri_OrganizationID n)) !! id)) by (destruct Ho; [by eexists|done]). clear Hid Ho.
  apply lookup_list_to_map_elem in Hf. destruct n as [n o]; simpl in *.
  assert (Hshape : r_Org (f o) = ∅ \/ (n ∈ org_names /\ exists l, r_Org (f o) = {[ uuid_String o := l ]})).
  { clear -Hf. repeat (apply elem_of_cons in Hf as [[= -> ->]|Hf]); [..|by apply not_elem_of_nil in Hf].
    1-5: by left.
    all: right; split; [by apply (bool_decide_unpack _); vm_compute|eexists; reflexivity]. }
  destruct Hshape as [He|(Hn & l & He)]; rewrite He in Hid'; [rewrite lookup_empty in Hid'; by destruct Hid'|].
  split; [done|]. destruct Hid' as [? [<- _]%lookup_singleton_Some]. done.
Qed.

(** What the member role and the roles of organizations let their holders read
    anywhere. *)
Definition public_reads : list string :=
  o_Type <$> [ResourceAssignRole; ResourceOauth2App; ResourceWorkspaceProxy; ResourceUser].

Definition confined (n : RoleIdentifier) : Prop := n = RoleMember \/ ri_Name n ∈ org_names.

Lemma confined_site n role p : expands n role -> confined n -> p ∈ r_Site role ->
  p_Action p = ActionRead /\ p_ResourceType p ∈ public_reads.
Proof.
  intros (Hw & f & Hf & [_ Hs _ _]) Hc Hp. rewrite Hs in Hp. clear Hs.
  apply lookup_list_to_map_elem in Hf. destruct n as [n o]; simpl in *.
  assert (Hn : n ∈ member :: org_names) by (destruct Hc as [[= -> _]|Hn]; [by left|by right]). clear Hc Hw.
  assert (Hall : forallb (fun p => String.eqb (p_Action p) ActionRead && bool_decide (p_ResourceType p ∈ public_reads)) (r_Site (f o)) = true).
  { repeat (apply elem_of_cons in Hf as [[= -> ->]|Hf]); [..|by apply not_elem_of_nil in Hf].
    all: first [by vm_compute | by apply (bool_decide_pack _) in Hn; vm_compute in Hn]. }
  rewrite forallb_forall in Hall. specialize (Hall p). rewrite <- list_elem_of_In, andb_true_iff, String.eqb_eq, bool_decide_eq_true in Hall.
  auto.
Qed.

(** A success of [authorize], taken apart. *)
Lemma authorize_None s action object :
  authorize (ReloadBuiltinRoles opts) s action object = None <->
  exists roles scope input,
    s_Roles s = Some roles /\ s_Scope s = Some scope /\
    (o_AnyOrgOwner object = true -> o_OrgID object = "" \/ o_OrgID object = nil_uuid_text) /\
    regoInputValue (ReloadBuiltinRoles opts) s roles scope = Ok input /\ allow input action object = true.
Proof.
  unfold authorize. destruct (s_Roles s) as [roles|]; [|naive_solver]. destruct (s_Scope s) as [scope|]; [|naive_solver].
  assert (Hany : (o_AnyOrgOwner object && negb (String.eqb (o_OrgID object) "" || String.eqb (o_OrgID object) nil_uuid_text) = false) <->
    (o_AnyOrgOwner object = true -> o_OrgID object = "" \/ o_OrgID object = nil_uuid_text)).
  { rewrite andb_false_iff, negb_false_iff, orb_true_iff, !String.eqb_eq. destruct (o_AnyOrgOwner object); naive_solver. }
  destruct (o_AnyOrgOwner object && _); [split; [done|]; intros (? & ? & ? & _ & _ & Hc & _); pose proof (proj2 Hany Hc); discriminate|].
  pose proof (proj1 Hany eq_refl) as Hc. clear Hany.
  split.
  - destruct (regoInputValue _ s roles scope) as [input|] eqn:Hi; simpl; [|done].
    destruct (allow input action object) eqn:Ha; [|done]. intros _. by exists roles, scope, input.
  - intros (? & ? & input & [= <-] & [= <-] & _ & Hi & Ha). rewrite Hi. simpl. by rewrite Ha.
Qed.

Lemma input_of_names s names scope input :
  regoInputValue (ReloadBuiltinRoles opts) s (RoleIdentifiers names) scope = Ok input ->
  as_ID input = s_ID s /\ as_Groups input = s_Groups s /\ Forall2 expands names (as_Roles input) /\
  Scope_Expand scope = Ok (as_Scope input).
Proof.
  intros (roles & Hr%wrap_Ok%rolesByNames_expands & (sc & Hsc%wrap_Ok & [= <-])%bind_Ok)%wrap_Ok%bind_Ok. done.
Qed.

Lemma expanded_elem names roles role : Forall2 expands names roles -> role ∈ roles -> exists n, n ∈ names /\ expands n role.
Proof.
  intros Hall [i Hi]%list_elem_of_lookup. eapply Forall2_lookup_r in Hall as (n & Hn & He); [|done].
  exists n. split; [by eapply list_elem_of_lookup_2|done].
Qed.

(** The roles a subject stands for, and its other attributes in the input. *)
Lemma input_of_roles s roles scope input expanded :
  Roles_Expand (ReloadBuiltinRoles opts) roles = Ok expanded ->
  regoInputValue (ReloadBuiltinRoles opts) s roles scope = Ok input ->
  as_ID input = s_ID s /\ as_Roles input = expanded.
Proof.
  intros He (rs & Hr%wrap_Ok & (sc & _ & [= <-])%bind_Ok)%wrap_Ok%bind_Ok. rewrite He in Hr. by injection Hr as ->.
Qed.

(** A role that gives nothing on the whole site but what every member has: what
    the member role and the built-in roles of organizations expand to, and the
    roles without site permissions, as the custom roles of organizations are. *)
Definition local_role (role : Role) : Prop :=
  (exists n, expands n role /\ confined n) \/ r_Site role = [].

(** C15: organizations are separate.  A user whose roles, given by name or already
    expanded, are the member role, the built-in roles of organizations and roles
    without site permissions (custom organization roles have none), can do nothing to
    an object of an organization in which none of these roles has permissions,
    unless it owns the object or is named in its access control list: the groups
    on that list do not help, and what remains is to read users, OAuth apps,
    workspace proxies and the assignable roles. *)
Theorem organizations_separate s roles expanded action object :
  s_Roles s = Some roles -> Roles_Expand (ReloadBuiltinRoles opts) roles = Ok expanded -> Forall local_role expanded ->
  o_AnyOrgOwner object = false -> o_OrgID object <> "" ->
  (forall role, role ∈ expanded -> r_Org role !! o_OrgID object = None) ->
  (o_Owner object = "" \/ o_Owner object <> s_ID s) -> o_ACLUserList object !! s_ID s = None ->
  authorize (ReloadBuiltinRoles opts) s action object = None ->
  action = ActionRead /\ o_Type object ∈ public_reads.
Proof.
  intros Hroles Hexp Hlocal Hany Horg Hnone Hown Hacl (r & scope & input & Hr & _ & _ & Hin & Hallow)%authorize_None.
  rewrite Hroles in Hr. injection Hr as <-. destruct (input_of_roles _ _ _ _ _ Hexp Hin) as [Hid Hrs].
  rewrite Forall_forall in Hlocal.
  assert (Hout : ~ is_member input (o_OrgID object)).
  { intros (role & Hrole & Hm). rewrite Hrs in Hrole. rewrite (Hnone role Hrole) in Hm. by destruct Hm. }
  apply policy_correct in Hallow as [_ [Hrole|Hacls]].
  - destruct Hrole as [[(p & (role & Hp & Hrole)%list_elem_of_bind & Hm) _]|(_ & [Ho|(_ & _ & [Hne Heq] & _)])].
    + rewrite Hrs in Hrole. destruct (Hlocal role Hrole) as [(n & He & Hc)|Hs]; [|rewrite Hs in Hp; by apply not_elem_of_nil in Hp].
      destruct (confined_site _ _ _ He Hc Hp) as [Ha Ht]. unfold matches, or_wildcard in Hm.
      rewrite andb_true_iff, !orb_true_iff, !String.eqb_eq, Ha in Hm. destruct Hm as [[<-|?] [<-|Hw]]; [done| |done..].
      rewrite Hw in Ht. apply (bool_decide_pack _) in Ht. by vm_compute in Ht.
    + unfold org_permits in Ho. rewrite Hany, not_member_permissions in Ho by done.
      destruct Ho as [(p & Hp & _) _]. by apply not_elem_of_nil in Hp.
    + rewrite Hid in Heq. destruct Hown; congruence.
  - destruct Hacls as [(l & Hl & _)|[Hino _]]; [rewrite Hid in Hl; congruence|].
    unfold in_org in Hino. rewrite Hany in Hino. by destruct Hino.
Qed.

(** A test that every permission of every built-in role passes, checked on
    the reference roles. *)
Definition reference_all (Q : Permission -> bool) : Prop :=
  forall n f o, (n, f) ∈ [(owner, fun _ => ownerRole (H:=elements_range) opts); (member, fun _ => memberRole (H:=elements_range));
     (auditor, fun _ => auditorRole (H:=elements_range)); (templateAdmin, fun _ => templateAdminRole (H:=elements_range));
     (userAdmin, fun _ => userAdminRole (H:=elements_range)); (orgAdmin, orgAdminRole (H:=elements_range));
     (orgMember, orgMemberRole (H:=elements_range)); (orgAuditor, orgAuditorRole (H:=elements_range));
     (orgUserAdmin, orgUserAdminRole (H:=elements_range)); (orgTemplateAdmin, orgTemplateAdminRole (H:=elements_range))] ->
  forallb Q (r_Site (f o)) = true /\ forallb Q (r_User (f o)) = true /\
  (r_Org (f o) = ∅ \/ exists l, r_Org (f o) = {[ uuid_String o := l ]} /\ forallb Q l = true).

Lemma reference_all_perms Q n role : reference_all Q -> expands n role -> all_perms (fun p => Q p = true) role.
Proof.
  intros HQ (_ & f & Hf%lookup_list_to_map_elem & Hp). eapply all_perms_perm; [done|].
  destruct (HQ _ _ (ri_OrganizationID n) Hf) as (Hs & Hu & Ho).
  assert (Hl : forall l, forallb Q l = true -> Forall (fun p => Q p = true) l).
  { intros l Hl. apply Forall_forall. intros p Hp'. rewrite forallb_forall in Hl. by apply Hl, list_elem_of_In. }
  split; [by apply Hl|]. split; [|by apply Hl]. intros id l Hid.
  destruct Ho as [Ho|(l' & Ho & Hl')]; rewrite Ho in Hid; [by rewrite lookup_empty in Hid|].
  apply lookup_singleton_Some in Hid as [_ <-]. by apply Hl.
Qed.

Ltac check_reference :=
  let Hf := fresh "Hf" in intros ? ? ? Hf; repeat (apply elem_of_cons in Hf as [[= -> ->]|Hf]); [..|by apply not_elem_of_nil in Hf];
  (split; [destruct opts; by vm_compute|split; [by vm_compute|]]);
  first [left; reflexivity | right; eexists; split; [reflexivity|by vm_compute]].

Lemma builtin_never_denies n role : expands n role -> never_denies role.
Proof.
  intros He. assert (HQ : reference_all (fun p => negb (p_Negate p))) by check_reference.
  destruct (reference_all_perms _ _ _ HQ He) as (Hs & Ho & Hu).
  split; [|split; [intros id l Hl; specialize (Ho id l Hl)|]];
    (eapply Forall_impl; [eassumption|]); intros p Hp; by apply negb_true_iff in Hp.
Qed.

(** Nothing of a role is about the action. *)
Definition silent (action : Action) (object : Object) : Role -> Prop :=
  all_perms (fun p => matches action object p = false).

Lemma silent_roles input action object : Forall (silent action object) (as_Roles input) -> ~ role_spec input action object.
Proof.
  rewrite Forall_forall. intros Hsil.
  assert (Hnot : forall f, (forall role, silent action object role -> Forall (fun p => matches action object p = false) (f role)) ->
    ~ permits action object (as_Roles input ≫= f)).
  { intros f Hf [(p & (role & Hp & Hr)%list_elem_of_bind & Hm) _]. specialize (Hf role (Hsil role Hr)).
    rewrite Forall_forall in Hf. rewrite (Hf p Hp) in Hm. done. }
  assert (Horg : forall id, ~ permits action object (org_permissions (as_Roles input) id)).
  { intros id. apply Hnot. intros role (_ & Ho & _). destruct (r_Org role !! id) eqn:Hid; simpl; [by eapply Ho|done]. }
  intros [Hs|(_ & [Ho|(_ & _ & _ & Hu)])].
  - revert Hs. apply Hnot. by intros role (Hs & _).
  - unfold org_permits in Ho. case_match; [destruct Ho as (id & _ & Ho)|]; by eapply Horg.
  - revert Hu. apply Hnot. by intros role (_ & _ & Hu).
Qed.

Definition running : list Action := [ActionWorkspaceStart; ActionSSH; ActionApplicationConnect].

(** A dormant workspace does not run.  Whatever built-in roles a user has,
    be it the owner of the workspace or of the deployment, it may not start a
    dormant workspace, open a shell in it or connect to its applications. *)
Lemma dormant_never_runs s names action object :
  s_Roles s = Some (RoleIdentifiers names) -> o_Type object = o_Type ResourceWorkspaceDormant -> action ∈ running ->
  o_ACLUserList object = ∅ -> o_ACLGroupList object = ∅ ->
  authorize (ReloadBuiltinRoles opts) s action object <> None.
Proof.
  intros Hroles Htype Haction Hu Hg (roles & scope & input & Hr & Hs & _ & Hin & Hallow)%authorize_None.
  rewrite Hroles in Hr. injection Hr as <-. apply input_of_names in Hin as (_ & _ & Hexp & _).
  apply policy_correct in Hallow as [_ [Hrole|Hacl]].
  - revert Hrole. apply silent_roles. apply Forall_forall. intros role Hrole.
    destruct (expanded_elem _ _ _ Hexp Hrole) as (n & _ & He).
    assert (HQ : reference_all (fun p => negb (or_wildcard (p_ResourceType p) (o_Type ResourceWorkspaceDormant) &&
      (existsb (or_wildcard (p_Action p)) running)))) by check_reference.
    assert (Hmatch : forall p, negb (or_wildcard (p_ResourceType p) (o_Type ResourceWorkspaceDormant) &&
      (existsb (or_wildcard (p_Action p)) running)) = true -> matches action object p = false).
    { intros p. unfold matches. rewrite Htype, negb_true_iff. intros Hf. apply not_true_iff_false. intros Hm.
      apply andb_true_iff in Hm as [Ha Ht]. rewrite Ht in Hf. simpl in Hf. apply not_true_iff_false in Hf. apply Hf.
      apply (existsb_exists (or_wildcard (p_Action p)) running). exists action. split; [by apply list_elem_of_In|done]. }
    destruct (reference_all_perms _ _ _ HQ He) as (Hsi & Ho & Hus).
    split; [|split; [intros id l Hl; specialize (Ho id l Hl)|]]; by (eapply Forall_impl; [eassumption|]).
  - destruct Hacl as [(l & Hl & _)|(_ & g & _ & l & Hl & _)]; [rewrite Hu in Hl|rewrite Hg in Hl]; by rewrite lookup_empty in Hl.
Qed.

(** What even an owner may not do. *)
Definition withheld (type action : string) : bool :=
  (String.eqb type (o_Type ResourceWorkspaceDormant) && bool_decide (action ∈ running))
  || (opts && String.eqb type (o_Type ResourceWorkspace) && bool_decide (action ∈ [ActionSSH; ActionApplicationConnect])).

Definition typed_actions : list (string * Action) := '(t, acts) ← permission_definitions; pair t <$> acts.

Lemma ValidAction_typed object action : ValidAction object action = Ok tt -> (o_Type object, action) ∈ typed_actions.
Proof.
  unfold ValidAction, RBACPermissions. intros Hv.
  destruct (_ !! o_Type object) as [acts|] eqn:Ht; [|done]. case_decide as Ha; [|done].
  apply lookup_list_to_map_elem, list_elem_of_fmap in Ht as ([t l] & [= Ht ->] & Hl). subst.
  apply list_elem_of_bind. exists (o_Type object, l). split; [|done]. apply list_elem_of_fmap. exists action.
  split; [done|]. by apply elem_of_list_to_set in Ha.
Qed.

Definition owner_covers (ta : string * Action) : bool :=
  existsb (fun p => or_wildcard (p_Action p) ta.2 && or_wildcard (p_ResourceType p) ta.1) (r_Site (ownerRole (H:=elements_range) opts)).

Lemma forallb_or {A} (f g : A -> bool) l x :
  forallb (fun x => f x || g x) l = true -> x ∈ l -> f x = false -> g x = true.
Proof.
  intros Hall Hx%list_elem_of_In Hf. apply (proj1 (forallb_forall _ _) Hall) in Hx. by rewrite Hf in Hx.
Qed.

Lemma owner_site_reference ta : ta ∈ typed_actions -> withheld ta.1 ta.2 = false -> owner_covers ta = true.
Proof.
  apply (forallb_or (fun ta => withheld ta.1 ta.2) owner_covers). unfold withheld, owner_covers. destruct opts; by vm_compute.
Qed.

Definition scope_all_permissions : list Permission := permissions_of [(ResourceWildcard, [WildcardSymbol])].

Lemma scope_all scope : Scope_Expand (ScopeName ScopeAll) = Ok scope -> scope = builtin_scope ScopeAll "All operations" scope_all_permissions.
Proof.
  unfold Scope_Expand, ExpandScope, builtinScopes. rewrite list_to_map_cons, lookup_insert_eq. by intros [= <-].
Qed.

Lemma scope_all_site : scope_all_permissions ≡ₚ [mkPermission false "*" "*"].
Proof.
  trans (permissions_of (H:=elements_range) [(ResourceWildcard, [WildcardSymbol])]); [|by vm_compute].
  apply permissions_of_perm. by repeat constructor.
Qed.

Lemma scope_all_spec (scope : Scope) input action object :
  Scope_Expand (ScopeName ScopeAll) = Ok scope -> as_Scope input = scope -> scope_spec input action object.
Proof.
  intros Hs Hin. unfold scope_spec. rewrite Hin.
  rewrite (scope_all _ Hs). split; [left; by left|].
  apply (permits_proper _ _ _ _ scope_all_site). unfold permits, matches, or_wildcard. simpl.
  split; [eexists; split; [by left|]; simpl; by rewrite !orb_true_r|].
  by intros q ->%list_elem_of_singleton.
Qed.

Lemma names_expand names : Forall well_scoped names -> exists roles, rolesByNames (ReloadBuiltinRoles opts) names = Ok roles.
Proof.
  induction 1 as [|n names Hn _ [roles IH]]; [by exists []|].
  destruct (proj1 (RoleByName_shape _ (builtin_shape opts) n) Hn) as (role & _ & Hr & _). exists (role :: roles). simpl.
  by rewrite Hr, IH.
Qed.

Lemma expands_owner role : expands RoleOwner role -> role_perm role (ownerRole (H:=elements_range) opts).
Proof.
  intros (_ & f & Hf & Hp). change (reference_roles !! owner = Some f) in Hf.
  unfold reference_roles, ReloadBuiltinRoles in Hf. rewrite list_to_map_cons, lookup_insert_eq in Hf. by injection Hf as <-.
Qed.

Lemma owner_covers_elem t a : owner_covers (t, a) = true ->
  exists p, p ∈ r_Site (ownerRole (H:=elements_range) opts) /\ or_wildcard (p_Action p) a && or_wildcard (p_ResourceType p) t = true.
Proof.
  unfold owner_covers. generalize (r_Site (ownerRole (H:=elements_range) opts)). intros l Hex.
  apply existsb_exists in Hex as (p & Hp & Hm). exists p. by rewrite list_elem_of_In.
Qed.

Lemma owner_permits names roles action object :
  Forall2 expands names roles -> RoleOwner ∈ names -> ValidAction object action = Ok tt ->
  withheld (o_Type object) action = false -> permits action object (roles ≫= r_Site).
Proof.
  intros Hexp [i Hi]%list_elem_of_lookup Hvalid Hwith.
  destruct (Forall2_lookup_l _ _ _ _ _ Hexp Hi) as (role & Hi' & Hp%expands_owner). split.
  - destruct (owner_covers_elem _ _ (owner_site_reference _ (ValidAction_typed _ _ Hvalid) Hwith)) as (p & Hp' & Hm).
    exists p. split; [|exact Hm]. apply list_elem_of_bind. exists role. rewrite (rp_Site _ _ Hp).
    split; [exact Hp'|by eapply list_elem_of_lookup_2].
  - intros p (role' & Hp' & Hr')%list_elem_of_bind _. destruct (expanded_elem _ _ _ Hexp Hr') as (n & _ & He).
    destruct (builtin_never_denies _ _ He) as (Hsite & _). rewrite Forall_forall in Hsite. by apply Hsite.
Qed.

(** An owner may do everything but what is withheld: executing in or
    starting dormant workspaces, and, when the deployment says so, executing in
    other users' workspaces; the strict check does not stand in the way. *)
Lemma owner_may s names action object strict :
  s_Roles s = Some (RoleIdentifiers names) -> s_Scope s = Some (ScopeName ScopeAll) ->
  RoleOwner ∈ names -> Forall well_scoped names ->
  (o_AnyOrgOwner object = true -> o_OrgID object = "") ->
  ValidAction object action = Ok tt -> withheld (o_Type object) action = false ->
  Authorize (ReloadBuiltinRoles opts) strict s action object = None.
Proof.
  intros Hroles Hscope Hown Hw Hany Hvalid Hwith. unfold Authorize. rewrite Hvalid.
  destruct (names_expand names Hw) as [roles Hr].
  assert (Hs : exists scope, Scope_Expand (ScopeName ScopeAll) = Ok scope).
  { unfold Scope_Expand, ExpandScope, builtinScopes. rewrite list_to_map_cons, lookup_insert_eq. by eexists. }
  destruct Hs as [scope Hs]. replace (if strict then Ok tt else Ok tt) with (Ok tt) by (by case_match). apply authorize_None.
  exists (RoleIdentifiers names), (ScopeName ScopeAll), (mkAuthSubject (s_ID s) roles (s_Groups s) scope).
  split; [done|]. split; [done|]. split; [auto|]. split.
  { unfold regoInputValue, Subject_regoValue, Roles_Expand. by rewrite Hr, Hs. }
  apply policy_correct. split; [by apply (scope_all_spec scope)|]. left. left.
  apply (owner_permits names); [by apply rolesByNames_expands|done..].
Qed.

(** A workspace agent's scope confines it to its workspace, that
    workspace's owner, template and template version, whatever the owner's roles
    or access control lists say. *)
Lemma agent_confined s W O T V scope strict action object :
  WorkspaceAgentScope W O T V = Ok scope -> s_Scope s = Some (ScopeValue scope) ->
  (forall u, uuid_String u <> "*") ->
  Authorize (ReloadBuiltinRoles opts) strict s action object = None ->
  exists u, u ∈ [W; O; T; V] /\ o_ID object = uuid_String u.
Proof.
  intros Hsc Hs Hstar Ha. unfold Authorize in Ha. case_match; [|done].
  apply authorize_None in Ha as (roles & scope' & input & _ & Hs' & _ & Hin & Hallow).
  rewrite Hs in Hs'. injection Hs' as <-.
  assert (Hscope : as_Scope input = scope).
  { apply wrap_Ok, bind_Ok in Hin as (rs & _ & (sc & [= <-] & [= <-])%bind_Ok). done. }
  apply policy_correct in Hallow as [[Hlist _] _]. rewrite Hscope in Hlist.
  unfold WorkspaceAgentScope in Hsc. destruct (_ || _); [done|]. destruct (Scope_Expand (ScopeName ScopeAll)); [|done]. injection Hsc as <-. simpl in Hlist.
  destruct Hlist as [Hl|Hl]; repeat (apply elem_of_cons in Hl as [Hl|Hl]); try (by apply not_elem_of_nil in Hl);
    try (by destruct (Hstar _ (eq_sym Hl))); rewrite Hl; eexists; (split; [|done]); set_solver.
Qed.
End Builtin.

(** ** Filtering *)

Section Filtering.
Context `{MapRange} `{UuidText} (builtInRoles : gmap string (uuid -> Role)).
Context {O : Type} (RBACObject : O -> Object).

Definition authorized (s : Subject) (action : Action) (o : O) : bool :=
  bool_decide (authorize builtInRoles s action (RBACObject o) = None).

Lemma filter_loop_correct (authorizes : Object -> option authz_error) t (keep : O -> bool) objects :
  (forall o, o ∈ objects -> o_Type (RBACObject o) = t /\ authorizes (RBACObject o) = if keep o then None else Some Unauthorized) ->
  filter_loop RBACObject authorizes t objects = Ok (List.filter keep objects).
Proof.
  induction objects as [|o objects IH]; intros Ho; simpl; [done|].
  destruct (Ho o ltac:(by left)) as [-> ->]. rewrite String.eqb_refl. simpl.
  rewrite IH by (intros o' Ho'; apply Ho; by right). by destruct (keep o).
Qed.

Lemma Prepare_Ok s action t pa :
  Prepare builtInRoles s action t = Ok pa ->
  exists roles scope input, s_Roles s = Some roles /\ s_Scope s = Some scope /\
    regoInputValue builtInRoles s roles scope = Ok input /\ pa = mkPartial input action t.
Proof.
  unfold Prepare. rewrite wrap_Ok. destruct (s_Roles s) as [roles|]; [|done]. destruct (s_Scope s) as [scope|]; [|done].
  intros (input & Hi%wrap_Ok & [= <-])%bind_Ok. by exists roles, scope, input.
Qed.

(** On an object without [any_org], evaluating the policy in two stages is
    evaluating it at once. *)
Lemma with_unknowns_id object t : o_Type object = t -> o_AnyOrgOwner object = false -> with_unknowns t object = object.
Proof. destruct object; simpl. by intros -> ->. Qed.

(** C24: filtering keeps exactly the objects the subject is authorised for, in
    their order, whether each is decided by itself, as for fewer than ten, or the
    policy is first evaluated partially; provided the objects are of one type and
    none asks about any organization. *)
Theorem Filter_correct s action t pa objects :
  Prepare builtInRoles s action t = Ok pa ->
  (forall o, o ∈ objects -> o_Type (RBACObject o) = t /\ o_AnyOrgOwner (RBACObject o) = false) ->
  Filter builtInRoles RBACObject false s action objects = Ok (List.filter (authorized s action) objects).
Proof.
  intros Hprep Hobj. destruct (Prepare_Ok _ _ _ _ Hprep) as (roles & scope & input & Hr & Hs & Hin & ->).
  assert (Hauth : forall o, o ∈ objects -> authorize builtInRoles s action (RBACObject o) =
    if allow input action (RBACObject o) then None else Some Unauthorized).
  { intros o Ho. destruct (Hobj o Ho) as [_ Hany]. unfold authorize. by rewrite Hr, Hs, Hany, Hin. }
  assert (Hdec : forall o, o ∈ objects -> (if allow input action (RBACObject o) then None else Some Unauthorized) =
    if authorized s action o then None else Some Unauthorized).
  { intros o Ho. unfold authorized. rewrite Hauth by done. by destruct (allow input action (RBACObject o)). }
  unfold Filter. destruct objects as [|first rest]; [done|]. set (objects := first :: rest) in *.
  assert (Ht : o_Type (RBACObject first) = t) by (apply Hobj; by left).
  rewrite Ht. case_match.
  - apply filter_loop_correct. intros o Ho. destruct (Hobj o Ho) as [Hto _]. split; [done|].
    unfold Authorize. by rewrite Hauth, Hdec.
  - rewrite Hprep. apply filter_loop_correct. intros o Ho. destruct (Hobj o Ho) as [Hto Hany]. split; [done|].
    unfold Partial_Authorize. simpl. by rewrite with_unknowns_id, Hdec.
Qed.
End Filtering.

(** ** Examples *)

Module Examples.
#[local] Existing Instance Rbac.Examples.text.

Definition user_with (names : list RoleIdentifier) : Subject :=
  mkSubject "" "11" (Some (RoleIdentifiers names)) [] (Some (ScopeName ScopeAll)).
Definition builtin : gmap string (uuid -> Role) := ReloadBuiltinRoles false.

(** A member who administers organization 7 and has a custom role there that may
    read templates. *)
Definition readers : Role :=
  mkRole (mkIdentifier "readers" 7) "Readers" [] {[ uuid_String 7 := permissions_of [(ResourceTemplate, [ActionRead])] ]} [].
Definition admin_roles : list Role :=
  default [] (match rolesByNames builtin [RoleMember; ScopedRoleOrgAdmin 7] with Ok l => Some l | Err _ => None end) ++ [readers].
Definition admin_of_7 : Subject := mkSubject "" "11" (Some (Roles admin_roles)) [] (Some (ScopeName ScopeAll)).

(** The theorem's premises hold of this administrator of organization 7, who reads
    templates there, and may do to what organization 9 has what is left: read a user. *)
Lemma organizations_separate_witness :
  let object := InOrg 9 ResourceUser in
  authorize builtin admin_of_7 ActionRead (InOrg 7 ResourceTemplate) = None /\
  authorize builtin admin_of_7 ActionRead object = None /\ o_Type object ∈ public_reads.
Proof.
  split; [by vm_compute|].
  assert (Ha : authorize builtin admin_of_7 ActionRead (InOrg 9 ResourceUser) = None) by (by vm_compute).
  split; [exact Ha|].
  apply (organizations_separate false admin_of_7 (Roles admin_roles) admin_roles ActionRead (InOrg 9 ResourceUser));
    [reflexivity|reflexivity| |reflexivity|discriminate| | |reflexivity|exact Ha].
  - assert (Hb : exists l, rolesByNames builtin [RoleMember; ScopedRoleOrgAdmin 7] = Ok l /\ admin_roles = l ++ [readers])
      by (eexists; split; [vm_compute; reflexivity|vm_compute; reflexivity]).
    destruct Hb as (l & Hl%rolesByNames_expands & ->). apply Forall_app. split; [|apply Forall_cons; split; [by right|done]].
    inversion Hl as [|n1 r1 ns rs H1 Hl' E1 E2]; subst. inversion Hl' as [|n2 r2 ns' rs' H2 Hl'' E3 E4]; subst. inversion Hl''; subst.
    repeat (apply Forall_cons; split); [| |done]; left; [exists RoleMember|exists (ScopedRoleOrgAdmin 7)]; (split; [done|]); [by left|right].
    by apply (bool_decide_unpack _); vm_compute.
  - intros role Hr. apply list_elem_of_In in Hr.
    assert (Hf : forallb (fun role => bool_decide (r_Org role !! o_OrgID (InOrg 9 ResourceUser) = None)) admin_roles = true) by (vm_compute; reflexivity).
    rewrite forallb_forall in Hf. exact (bool_decide_eq_true_1 _ (Hf role Hr)).
  - by left.
Defined.

Lemma dormant_never_runs_witness :
  authorize builtin (user_with [RoleOwner; RoleMember]) ActionSSH (WithOwner "11" ResourceWorkspaceDormant) <> None.
Proof.
  apply (dormant_never_runs false (user_with [RoleOwner; RoleMember]) [RoleOwner; RoleMember] ActionSSH
    (WithOwner "11" ResourceWorkspaceDormant)); [reflexivity|reflexivity| |reflexivity|reflexivity].
  by apply (bool_decide_unpack _); vm_compute.
Defined.

Lemma owner_may_witness :
  Authorize builtin true (user_with [RoleOwner]) ActionSSH (InOrg 9 ResourceWorkspace) = None.
Proof.
  apply (owner_may false (user_with [RoleOwner]) [RoleOwner] ActionSSH (InOrg 9 ResourceWorkspace) true); try reflexivity.
  - by left.
  - apply Forall_cons; split; [left|done]. by apply (bool_decide_unpack _); vm_compute.
  - discriminate.
Defined.

Definition agent_scope : Scope := default (mkScope memberRole []) (match WorkspaceAgentScope 3 4 5 6 with Ok s => Some s | Err _ => None end).
Definition agent : Subject := mkSubject "" "1111" (Some (RoleIdentifiers [RoleMember; RoleOwner])) [] (Some (ScopeValue agent_scope)).

Lemma agent_confined_witness :
  Authorize builtin false agent ActionUpdate (WithID 3 ResourceWorkspace) = None /\
  exists u, u ∈ [3; 4; 5; 6]%N /\ o_ID (WithID 3 ResourceWorkspace) = uuid_String u.
Proof.
  assert (Ha : Authorize builtin false agent ActionUpdate (WithID 3 ResourceWorkspace) = None) by (by vm_compute).
  split; [exact Ha|]. apply (agent_confined false agent 3 4 5 6 agent_scope false ActionUpdate (WithID 3 ResourceWorkspace));
    [reflexivity|reflexivity| |exact Ha].
  intros u. simpl. by destruct (N.to_nat u).
Defined.

Definition templates (n : nat) : list Object := replicate n (InOrg 7 ResourceTemplate).
Definition orgAdmin7 : Subject := user_with [RoleMember; ScopedRoleOrgAdmin 7].

Definition mixed : list Object := InOrg 9 ResourceTemplate :: templates 10.

Lemma one_type o : o ∈ mixed -> o_Type (id o) = "template" /\ o_AnyOrgOwner (id o) = false.
Proof.
  intros [->|Ho]%elem_of_cons; [done|]. unfold templates in Ho. by apply elem_of_replicate in Ho as [-> _].
Qed.

Lemma Filter_correct_witness :
  exists pa, Prepare builtin orgAdmin7 ActionCreate "template" = Ok pa /\
    Filter builtin id false orgAdmin7 ActionCreate mixed = Ok (List.filter (authorized builtin id orgAdmin7 ActionCreate) mixed).
Proof.
  eexists. split; [reflexivity|].
  eapply (Filter_correct builtin id orgAdmin7 ActionCreate "template" _ mixed); [reflexivity|exact one_type].
Defined.

Lemma mixed_filtered : Filter builtin id false orgAdmin7 ActionCreate mixed = Ok (templates 10).
Proof. by vm_compute. Qed.

Definition member_input : authSubject := mkAuthSubject "11" [memberRole] [] (builtin_scope ScopeAll "" scope_all_permissions).
Definition reader : Role := mkRole (site_role "reader") "" [mkPermission false "template" "read"] ∅ [].

Lemma more_roles_more_rights_witness :
  allow member_input ActionDelete (WithOwner "11" ResourceWorkspace) = true /\
  allow (add_roles member_input [reader]) ActionDelete (WithOwner "11" ResourceWorkspace) = true.
Proof.
  assert (Ha : allow member_input ActionDelete (WithOwner "11" ResourceWorkspace) = true) by (by vm_compute).
  split; [exact Ha|]. apply (more_roles_more_rights member_input ActionDelete (WithOwner "11" ResourceWorkspace) [reader]); [|exact Ha].
  assert (Hn : never_denies reader).
  { split; [exact (Forall_cons_2 (fun p => p_Negate p = false) (mkPermission false "template" "read") [] eq_refl (Forall_nil_2 _))|]. split; [|exact (Forall_nil_2 _)].
    intros id l Hl. destruct (eq_None_not_Some (r_Org reader !! id)) as [He _]. destruct (He (lookup_empty id)). by exists l. }
  exact (Forall_cons_2 _ _ _ Hn (Forall_nil_2 _)).
Defined.

(** A permission of a custom role may deny, and then more roles are fewer
    rights. *)
Lemma denying_role :
  let deny := mkRole (site_role "deny") "" [mkPermission true "workspace" "*"] ∅ [] in
  allow member_input ActionDelete (WithOwner "11" ResourceWorkspace) = true /\
  allow (add_roles member_input [deny]) ActionDelete (WithOwner "11" ResourceWorkspace) = false.
Proof. by vm_compute. Qed.

(** An object that asks about any organization is decided one way among nine
    objects and another among ten: [any_org] is not an unknown of the partial
    evaluation, and is taken to be absent. *)
Lemma Filter_any_org :
  let any := AnyOrganization ResourceTemplate in
  Filter builtin id false orgAdmin7 ActionCreate (replicate 9 any) = Ok (replicate 9 any) /\
  Filter builtin id false orgAdmin7 ActionCreate (replicate 10 any) = Ok [].
Proof. by vm_compute. Qed.

(** A member may delete its own provisioner daemons: the permission the role
    grants on all resources but a few comprises them, so the list of actions it
    gives for them, which has no deletion, does not restrict anything. *)
Lemma member_deletes_daemon :
  authorize builtin (user_with [RoleMember]) ActionDelete (WithOwner "11" ResourceProvisionerDaemon) = None.
Proof. by vm_compute. Qed.

(** Permissions of a scope for an organization or for the user count for
    nothing. *)
Lemma scope_levels_ignored :
  let all := [mkPermission false "*" "*"] in
  let scope := mkScope (mkRole (site_role "all") "" [] {[ uuid_String 7 := all ]} all) ["*"] in
  let input := mkAuthSubject "11" [ownerRole false; orgAdminRole 7] [] scope in
  allow input ActionRead (WithOwner "11" (InOrg 7 ResourceTemplate)) = false.
Proof. by vm_compute. Qed.

(** Subjects compare equal, in one order, though one has a role the other
    lacks. *)
Lemma Subject_Equal_duplicates :
  let a := user_with [RoleMember; RoleMember; RoleAuditor] in
  let b := user_with [RoleMember; RoleAuditor; RoleOwner] in
  Subject_Equal a b = true /\ Subject_Equal b a = false.
Proof. by vm_compute. Qed.
End Examples.
