(* ===== verification/RoleStore.v ===== *)
(** * Custom roles: [wirtuald/rbac/rolestore] and the [custom_roles] table

    Roles that a deployment defines: their rows and how they are looked up
    ([dbmem.go]), their conversion to roles, and the expansion of names, built-in or
    custom, with a cache for the custom ones. *)

From Stdlib Require Import Ascii.
From S2P Require Import Prelude GoStrings GoEncoding GoJson Slices Rbac.
Local Open Scope string_scope.
Local Open Scope list_scope.
Local Open Scope Z_scope.

(** [database.CustomRolePermission] has the fields of [rbac.Permission].
    A null organization is [None]. *)
Record CustomRolePermission := mkCustomPermission { cp_Negate : bool; cp_ResourceType : string; cp_Action : Action }.

Record CustomRole := mkCustomRole {
  cr_Name : string;
  cr_DisplayName : string;
  cr_SitePermissions : list CustomRolePermission;
  cr_OrgPermissions : list CustomRolePermission;
  cr_UserPermissions : list CustomRolePermission;
  cr_OrganizationID : option uuid;
}.

(** [NullUUID.UUID]: the nil UUID when it is null. *)
Definition cr_org (r : CustomRole) : uuid := default uuid_Nil (cr_OrganizationID r).

Definition CustomRole_RoleIdentifier (r : CustomRole) : RoleIdentifier := mkIdentifier (cr_Name r) (cr_org r).

(** ** The table *)

(** The parameters' lookup pairs have the fields of role identifiers. *)
Record CustomRolesParams := mkCustomRolesParams {
  crp_LookupRoles : list RoleIdentifier;
  crp_ExcludeOrgRoles : bool;
  crp_OrganizationID : uuid;
}.

Definition lookup_matches (role : CustomRole) (pair : RoleIdentifier) : bool :=
  if negb (String.eqb (ri_Name pair) (cr_Name role)) then false
  else match cr_OrganizationID role with
  | Some org => (org =? ri_OrganizationID pair)%N
  | None => (ri_OrganizationID pair =? uuid_Nil)%N
  end.

Definition CustomRoles (customRoles : list CustomRole) (arg : CustomRolesParams) : list CustomRole :=
  List.filter (fun role =>
    if Nat.ltb 0 (length (crp_LookupRoles arg)) && negb (existsb (lookup_matches role) (crp_LookupRoles arg)) then false
    else if crp_ExcludeOrgRoles arg && bool_decide (is_Some (cr_OrganizationID role)) then false
    else if negb (crp_OrganizationID arg =? uuid_Nil)%N && negb (cr_org role =? crp_OrganizationID arg)%N then false
    else true) customRoles.

(** ** Conversion *)

Definition convertPermissions (dbPerms : list CustomRolePermission) : list Permission :=
  (fun p => mkPermission (cp_Negate p) (cp_ResourceType p) (cp_Action p)) <$> dbPerms.

Definition ConvertDBRole `{UuidText} (dbRole : CustomRole) : result Role :=
  if Nat.ltb 0 (length (cr_OrgPermissions dbRole)) && (cr_org dbRole =? uuid_Nil)%N then
    Err "role has organization perms without an org id specified"
  else Ok (mkRole (CustomRole_RoleIdentifier dbRole) (cr_DisplayName dbRole)
    (convertPermissions (cr_SitePermissions dbRole))
    (if negb (cr_org dbRole =? uuid_Nil)%N
     then {[ uuid_String (cr_org dbRole) := convertPermissions (cr_OrgPermissions dbRole) ]} else ∅)
    (convertPermissions (cr_UserPermissions dbRole))).

(** ** Expansion *)

(** The cache of a request, by the text of the roles' identifiers. *)
Abbreviation RoleCache := (gmap string Role).

Section Expand.
Context `{UuidText} (builtInRoles : gmap string (uuid -> Role)).

(** The first loop: the roles found and the names left to look up. *)
Fixpoint expand_names (cache : RoleCache) (names : list RoleIdentifier) : list Role * list RoleIdentifier :=
  match names with
  | [] => ([], [])
  | name :: names =>
      let '(roles, lookup) := expand_names cache names in
      match RoleByName builtInRoles name with
      | Ok expanded => (expanded :: roles, lookup)
      | Err _ =>
          match cache !! RoleIdentifier_String name with
          | Some customRole => (customRole :: roles, lookup)
          | None => (roles, name :: lookup)
          end
      end
  end.

(** The second loop, which fills the cache; an error leaves what it has
    stored. *)
Fixpoint convert_loop (cache : RoleCache) (dbroles : list CustomRole) : result (list Role) * RoleCache :=
  match dbroles with
  | [] => (Ok [], cache)
  | dbrole :: dbroles =>
      match wrap ("convert db role " +:+ Quote (cr_Name dbrole)) (ConvertDBRole dbrole) with
      | Err e => (Err e, cache)
      | Ok converted =>
          let '(r, cache) := convert_loop (<[RoleIdentifier_String (CustomRole_RoleIdentifier dbrole) := converted]> cache) dbroles in
          (cons converted <$> r, cache)
      end
  end.

(** [query] is the store's [CustomRoles], which may fail. *)
Definition Expand (query : CustomRolesParams -> result (list CustomRole)) (cache : RoleCache) (names : list RoleIdentifier)
    : result (list Role) * RoleCache :=
  if Nat.eqb (length names) 0 then (Ok [], cache)
  else
    let '(roles, lookup) := expand_names cache names in
    if Nat.ltb 0 (length lookup) then
      match wrap "fetch custom roles" (query (mkCustomRolesParams lookup false uuid_Nil)) with
      | Err e => (Err e, cache)
      | Ok dbroles => let '(r, cache) := convert_loop cache dbroles in (app roles <$> r, cache)
      end
    else (Ok roles, cache).
End Expand.

(** ** What is found *)

Lemma lookup_matches_iff role pair :
  lookup_matches role pair = true -> CustomRole_RoleIdentifier role = pair.
Proof.
  unfold lookup_matches, CustomRole_RoleIdentifier, cr_org. destruct pair as [n o]; simpl.
  destruct (String.eqb_spec n (cr_Name role)) as [->|]; [simpl|done].
  destruct (cr_OrganizationID role) as [org|]; simpl; intros He%N.eqb_eq; by subst.
Qed.

(** A row is found under its identifier. *)
Lemma lookup_matches_own role : lookup_matches role (CustomRole_RoleIdentifier role) = true.
Proof.
  unfold lookup_matches, CustomRole_RoleIdentifier, cr_org. simpl. rewrite String.eqb_refl. simpl.
  destruct (cr_OrganizationID role) as [org|]; simpl; [apply N.eqb_refl|done].
Qed.

Lemma CustomRoles_elem table names role :
  names <> [] ->
  role ∈ CustomRoles table (mkCustomRolesParams names false uuid_Nil) <->
  role ∈ table /\ CustomRole_RoleIdentifier role ∈ names.
Proof.
  intros Hne. unfold CustomRoles. rewrite !list_elem_of_In, filter_In. simpl.
  assert (Hl : Nat.ltb 0 (length names) = true) by (apply Nat.ltb_lt; destruct names; simpl; [done|lia]).
  rewrite Hl. simpl. f_equiv. destruct (existsb (lookup_matches role) names) eqn:He; simpl.
  - split; [|done]. intros _. apply existsb_exists in He as (pair & Hp & Hm). by apply lookup_matches_iff in Hm as ->.
  - split; [done|]. intros Hin. assert (existsb (lookup_matches role) names = true); [|congruence].
    apply existsb_exists. eexists. split; [done|]. apply lookup_matches_own.
Qed.

Section Cached.
Context `{UuidRoundTrip} (builtInRoles : gmap string (uuid -> Role)) (table : list CustomRole).

(** What a name stands for: a built-in role, or else the conversion of a row
    of the table. *)
Definition stands_for (name : RoleIdentifier) (role : Role) : Prop :=
  RoleByName builtInRoles name = Ok role \/
  (is_ok (RoleByName builtInRoles name) = false /\
   exists row, row ∈ table /\ CustomRole_RoleIdentifier row = name /\ ConvertDBRole row = Ok role).

(** A cache agrees with the table when it holds conversions of its rows, each
    under its own name. *)
Definition cache_ok (cache : RoleCache) : Prop :=
  forall k role, cache !! k = Some role ->
    exists row, row ∈ table /\ RoleIdentifier_String (CustomRole_RoleIdentifier row) = k /\ ConvertDBRole row = Ok role.

(** No two rows bear one identifier, and names are such that their text tells
    them apart. *)
Context (Hunique : forall r r', r ∈ table -> r' ∈ table -> CustomRole_RoleIdentifier r = CustomRole_RoleIdentifier r' -> r = r').
Definition named (n : RoleIdentifier) : Prop := ri_Name n <> "" /\ no_char ":" (ri_Name n) = true.
Context (Hnamed : forall r, r ∈ table -> named (CustomRole_RoleIdentifier r)).

Lemma identifier_text_inj (a b : RoleIdentifier) :
  named a -> named b -> RoleIdentifier_String a = RoleIdentifier_String b -> a = b.
Proof.
  destruct a as [n o], b as [n' o']. unfold named, RoleIdentifier_String; simpl. intros [_ Hn] [_ Hn'] Heq.
  assert (Hs : Split ":" (if negb (o =? uuid_Nil)%N then n +:+ ":" +:+ uuid_String o else n) =
               Split ":" (if negb (o' =? uuid_Nil)%N then n' +:+ ":" +:+ uuid_String o' else n')) by (by rewrite Heq).
  assert (Hat : forall m u, no_char ":" m = true -> Split ":" (m +:+ ":" +:+ uuid_String u) = [m; uuid_String u]).
  { intros m u Hm. change (":" +:+ uuid_String u) with (String ":" (uuid_String u)).
    rewrite Split_at by done. by rewrite Split_no_char by apply uuid_no_colon. }
  destruct (N.eqb_spec o uuid_Nil) as [->|], (N.eqb_spec o' uuid_Nil) as [->|]; simpl in Hs;
    rewrite ?Hat, ?Split_no_char in Hs by done; simplify_eq; [done|].
  match goal with Hu : uuid_String o = uuid_String o' |- _ =>
    pose proof (uuid_Parse_String o) as Hp; rewrite Hu, uuid_Parse_String in Hp; by injection Hp as -> end.
Qed.

Lemma expand_names_correct cache names roles lookup :
  cache_ok cache -> Forall named names -> expand_names builtInRoles cache names = (roles, lookup) ->
  (forall role, role ∈ roles -> exists n, n ∈ names /\ stands_for n role) /\
  (forall n role, n ∈ names -> stands_for n role -> role ∈ roles \/ n ∈ lookup) /\
  (forall n, n ∈ lookup -> n ∈ names /\ is_ok (RoleByName builtInRoles n) = false).
Proof.
  intros Hc Hn. revert roles lookup. induction Hn as [|name names Hname _ IH]; simpl; intros roles lookup.
  - intros [= <- <-]. repeat split; set_solver.
  - destruct (expand_names builtInRoles cache names) as [rs lk] eqn:Hrest. specialize (IH rs lk eq_refl) as (IH1 & IH2 & IH3).
    destruct (RoleByName builtInRoles name) as [b|e] eqn:Hb.
    + intros [= <- <-]. split; [|split].
      * intros role [->|Hr]%elem_of_cons; [exists name; split; [by left|by left]|].
        destruct (IH1 role Hr) as (n & ? & ?). exists n. split; [by right|done].
      * intros n role [->|Hin]%elem_of_cons Hst; [left|destruct (IH2 n role Hin Hst); [left; by right|by right]].
        destruct Hst as [Hst|[Hno _]]; [rewrite Hb in Hst; injection Hst as ->; by left|by rewrite Hb in Hno].
      * intros n Hin. destruct (IH3 n Hin). split; [by right|done].
    + destruct (cache !! RoleIdentifier_String name) as [cached|] eqn:Hcache.
      * intros [= <- <-]. destruct (Hc _ _ Hcache) as (row & Hrow & Htext & Hconv).
        assert (Hid : CustomRole_RoleIdentifier row = name) by (apply identifier_text_inj; auto).
        split; [|split].
        -- intros role [->|Hr]%elem_of_cons.
           ++ exists name. split; [by left|]. right. rewrite Hb. split; [done|]. by exists row.
           ++ destruct (IH1 role Hr) as (n & ? & ?). exists n. split; [by right|done].
        -- intros n role [->|Hin]%elem_of_cons Hst; [left|destruct (IH2 n role Hin Hst); [left; by right|by right]].
           destruct Hst as [Hst|(_ & row' & Hrow' & Hid' & Hconv')]; [by rewrite Hb in Hst|].
           assert (row' = row) as -> by (apply Hunique; [done..|congruence]). rewrite Hconv in Hconv'. injection Hconv' as ->. by left.
        -- intros n Hin. destruct (IH3 n Hin). split; [by right|done].
      * intros [= <- <-]. split; [|split].
        -- intros role Hr. destruct (IH1 role Hr) as (n & ? & ?). exists n. split; [by right|done].
        -- intros n role [->|Hin]%elem_of_cons Hst; [right; by left|destruct (IH2 n role Hin Hst); [by left|right; by right]].
        -- intros n [->|Hin]%elem_of_cons; [split; [by left|by rewrite Hb]|]. destruct (IH3 n Hin). split; [by right|done].
Qed.

Lemma convert_loop_correct dbroles : forall cache r cache',
  (forall row, row ∈ dbroles -> row ∈ table) -> cache_ok cache -> convert_loop cache dbroles = (r, cache') ->
  cache_ok cache' /\
  (forall roles, r = Ok roles -> forall role, role ∈ roles <-> exists row, row ∈ dbroles /\ ConvertDBRole row = Ok role).
Proof.
  induction dbroles as [|row dbroles IH]; simpl; intros cache r cache' Hsub Hc.
  - intros [= <- <-]. split; [done|]. intros roles [= <-] role. set_solver.
  - destruct (ConvertDBRole row) as [converted|e] eqn:Hconv; simpl; [|intros [= <- <-]; by split].
    destruct (convert_loop _ dbroles) as [r1 c1] eqn:Hloop. intros [= <- <-].
    apply IH in Hloop as [Hc1 Hr1]; [|set_solver|].
    + split; [done|]. intros roles Hroles role. destruct r1 as [rs|]; [|done]. injection Hroles as <-.
      rewrite elem_of_cons, (Hr1 rs eq_refl). split.
      * intros [->|(row' & ? & ?)]; [exists row; split; [by left|done]|exists row'; split; [by right|done]].
      * intros (row' & [->|Hin]%elem_of_cons & Hconv'); [left; congruence|right; by exists row'].
    + intros k role Hk. apply lookup_insert_Some in Hk as [[<- <-]|[_ Hk]]; [|by apply Hc].
      exists row. split; [apply Hsub; by left|done].
Qed.

(** The cache changes nothing.  With a cache that agrees with the table, or
    with none, names expand to the same roles: the built-in roles and the
    conversions of the rows that bear the names, names that nothing bears being
    dropped; and the cache that is left agrees with the table again. *)
Lemma Expand_correct cache names r cache' :
  cache_ok cache -> Forall named names ->
  Expand builtInRoles (fun arg => Ok (CustomRoles table arg)) cache names = (r, cache') ->
  cache_ok cache' /\
  (forall roles, r = Ok roles -> forall role, role ∈ roles <-> exists n, n ∈ names /\ stands_for n role).
Proof.
  intros Hc Hn. unfold Expand. destruct (Nat.eqb_spec (length names) 0) as [Hz|Hz].
  { intros [= <- <-]. split; [done|]. intros roles [= <-] role. apply length_zero_iff_nil in Hz as ->. set_solver. }
  destruct (expand_names builtInRoles cache names) as [rs lookup] eqn:Hexp.
  destruct (expand_names_correct _ _ _ _ Hc Hn Hexp) as (Hsound & Hcomp & Hlook).
  destruct (Nat.ltb_spec 0 (length lookup)) as [Hl|Hl]; simpl.
  - assert (Hne : lookup <> []) by (intros ->; simpl in Hl; lia).
    destruct (convert_loop cache (CustomRoles table (mkCustomRolesParams lookup false uuid_Nil))) as [r1 c1] eqn:Hloop.
    intros [= <- <-].
    apply convert_loop_correct in Hloop as [Hc1 Hr1]; [|intros row Hrow; by apply CustomRoles_elem in Hrow as [? _]|done].
    split; [done|]. intros roles Hroles role. destruct r1 as [cs|]; [|done]. injection Hroles as <-.
    rewrite elem_of_app, (Hr1 cs eq_refl). split.
    + intros [Hr|(row & Hrow & Hconv)]; [by apply Hsound|]. apply CustomRoles_elem in Hrow as [Hrow Hin]; [|done].
      destruct (Hlook _ Hin) as [Hin' Hno]. eexists. split; [done|]. right. split; [done|]. by exists row.
    + intros (n & Hin & Hst). destruct (Hcomp n role Hin Hst) as [Hr|Hlk]; [by left|right].
      destruct (Hlook _ Hlk) as [_ Hno]. destruct Hst as [Hst|(_ & row & Hrow & Hid & Hconv)]; [by rewrite Hst in Hno|].
      exists row. rewrite CustomRoles_elem by done. by rewrite Hid.
  - intros [= <- <-]. split; [done|]. intros roles [= <-] role. split; [by apply Hsound|].
    intros (n & Hin & Hst). destruct (Hcomp n role Hin Hst) as [Hr|Hlk]; [done|]. destruct lookup; [by apply not_elem_of_nil in Hlk|simpl in Hl; lia].
Qed.
End Cached.

(** ** Examples *)

Module Examples.
#[local] Existing Instance Rbac.Examples.text.
#[local] Existing Instance Rbac.Examples.parse.
#[local] Existing Instance Rbac.Examples.round_trip.

Definition builtin : gmap string (uuid -> Role) := ReloadBuiltinRoles false.
Definition deployer : CustomRole := mkCustomRole "deployer" "Deployer" [] [mkCustomPermission false "workspace" "start"] [] (Some 7%N).
Definition deployer_name : RoleIdentifier := mkIdentifier "deployer" 7.

(** The second request for the role is answered from the cache. *)
Definition first_time : result (list Role) * RoleCache :=
  Expand builtin (fun arg => Ok (CustomRoles [deployer] arg)) ∅ [RoleMember; deployer_name; mkIdentifier "gone" 0].

Lemma expanded_twice :
  r_Identifier <$> default [] (match first_time.1 with Ok l => Some l | Err _ => None end) = [RoleMember; deployer_name] /\
  Expand builtin (fun _ => Err "unreachable") (first_time.2) [deployer_name] =
    ((fun r => [r]) <$> ConvertDBRole deployer, first_time.2).
Proof. by vm_compute. Qed.

Lemma Expand_correct_witness :
  cache_ok [deployer] (first_time.2) /\
  (forall roles, first_time.1 = Ok roles ->
     forall role, role ∈ roles <-> exists n, n ∈ [RoleMember; deployer_name; mkIdentifier "gone" 0] /\ stands_for builtin [deployer] n role).
Proof.
  apply (Expand_correct builtin [deployer]) with (cache := ∅).
  - by intros r r' ->%list_elem_of_singleton ->%list_elem_of_singleton _.
  - by intros r ->%list_elem_of_singleton.
  - intros k role Hk. by rewrite lookup_empty in Hk.
  - apply Forall_cons; split; [done|]. apply Forall_cons; split; [done|]. by apply Forall_cons.
  - apply surjective_pairing.
Defined.
End Examples.
