(* ===== verification/AuthDb.v ===== *)
(** * Users, members, roles and keys of the in-memory store

    The tables of [wirtuald/database/dbmem] that authentication and role
    assignment read and write, with their queries. *)

From Stdlib Require Import Ascii Strings.Byte.
From stdpp Require Import sorting.
From S2P Require Import Prelude GoStrings GoEncoding GoJson GoTime Slices Db Rbac RoleStore.
Local Open Scope string_scope.
Local Open Scope list_scope.
Local Open Scope Z_scope.

(** ** Rows *)

Record OrganizationMember := mkMember {
  om_UserID : uuid;
  om_OrganizationID : uuid;
  om_CreatedAt : Time;
  om_UpdatedAt : Time;
  om_Roles : list string;
}.

Record GroupMemberTable := mkGroupMember { gm_UserID : uuid; gm_GroupID : uuid }.

Record Group := mkGroup { g_ID : uuid; g_OrganizationID : uuid; g_QuotaAllowance : Z }.

Inductive APIKeyScope := APIKeyScopeAll | APIKeyScopeApplicationConnect.
#[export] Instance APIKeyScope_eq_dec : EqDecision APIKeyScope.
Proof. solve_decision. Defined.

(** The scope's text is that of the constant. *)
Definition APIKeyScope_ToRBAC (s : APIKeyScope) : string :=
  match s with APIKeyScopeAll => ScopeAll | APIKeyScopeApplicationConnect => ScopeApplicationConnect end.

Record APIKey := mkAPIKey {
  k_ID : string;
  k_HashedSecret : list byte;
  k_UserID : uuid;
  k_LastUsed : Time;
  k_ExpiresAt : Time;
  k_CreatedAt : Time;
  k_UpdatedAt : Time;
  k_LoginType : LoginType;
  k_LifetimeSeconds : Z;
  k_IPAddress : list byte;                (* the address; its mask is full *)
  k_Scope : APIKeyScope;
  k_TokenName : string;
}.

(** The link's claims, and the keys that encrypt its tokens, are left out. *)
Record UserLink := mkUserLink {
  ul_UserID : uuid;
  ul_LoginType : LoginType;
  ul_LinkedID : string;
  ul_OAuthAccessToken : string;
  ul_OAuthRefreshToken : string;
  ul_OAuthExpiry : Time;
}.

(** Of organizations, their identifiers. *)
Record AuthData := mkAuthData {
  a_users : list User;
  a_organizationMembers : list OrganizationMember;
  a_groups : list Group;
  a_groupMembers : list GroupMemberTable;
  a_apiKeys : list APIKey;
  a_userLinks : list UserLink;
  a_customRoles : list CustomRole;
  a_organizations : list uuid;
}.

(** A call: the store after it, and its result. *)
Definition ADB (A : Type) : Type := AuthData -> AuthData * result A.

#[export] Instance ADB_ret : MRet ADB := fun A a d => (d, Ok a).
#[export] Instance ADB_bind : MBind ADB := fun A B f m d =>
  match m d with (d, Ok a) => f a d | (d, Err e) => (d, Err e) end.

Definition errUniqueConstraint : string := "pq: duplicate key value violates unique constraint".

(** The first row that satisfies [p], replaced by [f] of it. *)
Definition update_row {A} (p : A -> bool) (f : A -> A) (l : list A) : result (A * list A) := or_no_rows (update_first p f l).

(** ** Users *)

Definition auth_GetUserByID (id : uuid) : ADB User := fun d => (d, or_no_rows (find_first (fun u => (u_ID u =? id)%N) (a_users d))).

Definition update_user (id : uuid) (f : User -> User) : ADB User := fun d =>
  match update_row (fun u => (u_ID u =? id)%N) f (a_users d) with
  | Ok (u, users) => (d{{ a_users := users }}, Ok u)
  | Err e => (d, Err e)
  end.

Definition unique_sorted (l : list string) : list string := merge_sort String.le (Unique l).

Lemma unique_sorted_elem l (x : string) : x ∈ unique_sorted l <-> x ∈ l.
Proof. unfold unique_sorted. rewrite (merge_sort_Permutation String.le). exact (UniqueFunc_elem eqb l x). Qed.

Lemma unique_granted_elem l (x : string) : x ∈ unique_sorted (Unique l) <-> x ∈ l.
Proof. rewrite unique_sorted_elem. exact (UniqueFunc_elem eqb l x). Qed.

Definition UpdateUserRoles (id : uuid) (grantedRoles : list string) : ADB User :=
  update_user id (fun user => user{{ u_RBACRoles := unique_sorted (Unique grantedRoles) }}).

Definition UpdateUserLastSeenAt (id : uuid) (lastSeenAt updatedAt : Time) : ADB User :=
  update_user id (fun user => (user{{ u_LastSeenAt := lastSeenAt }}){{ u_UpdatedAt := updatedAt }}).

Definition UpdateUserStatus (id : uuid) (status : UserStatus) (updatedAt : Time) : ADB User :=
  update_user id (fun user => (user{{ u_Status := status }}){{ u_UpdatedAt := updatedAt }}).

Record InsertUserParams := mkInsertUser {
  iu_ID : uuid;
  iu_Username : string;
  iu_CreatedAt : Time;
  iu_UpdatedAt : Time;
  iu_RBACRoles : list string;
  iu_LoginType : LoginType;
  iu_Status : option UserStatus;          (* the empty status is [None] *)
}.

Definition created_order (i j : User) : Prop := t_ns (u_CreatedAt i) <= t_ns (u_CreatedAt j).
#[export] Instance created_order_dec : RelDecision created_order := fun i j => decide (t_ns (u_CreatedAt i) <= t_ns (u_CreatedAt j)).

Definition InsertUser (arg : InsertUserParams) : ADB User := fun d =>
  if existsb (fun user => String.eqb (u_Username user) (iu_Username arg) && negb (u_Deleted user)) (a_users d)
  then (d, Err errUniqueConstraint)
  else
    let user := mkUser (iu_ID arg) (iu_Username arg) (default UserDormant (iu_Status arg)) false "" (iu_RBACRoles arg)
      (iu_CreatedAt arg) (iu_UpdatedAt arg) (iu_LoginType arg) zeroTime in
    (d{{ a_users := merge_sort created_order (a_users d ++ [user]) }}, Ok user).

(** ** Organization members *)

(** The rows' usernames are left out. *)
Definition OrganizationMembers (organizationID userID : uuid) : ADB (list OrganizationMember) := fun d =>
  (d, Ok (List.filter (fun m =>
    if negb (organizationID =? uuid_Nil)%N && negb (om_OrganizationID m =? organizationID)%N then false
    else if negb (userID =? uuid_Nil)%N && negb (om_UserID m =? userID)%N then false
    else true) (a_organizationMembers d))).

Definition UpdateMemberRoles (userID orgID : uuid) (grantedRoles : list string) : ADB OrganizationMember := fun d =>
  match update_row (fun m => (om_UserID m =? userID)%N && (om_OrganizationID m =? orgID)%N)
          (fun m => m{{ om_Roles := unique_sorted grantedRoles }}) (a_organizationMembers d) with
  | Ok (m, members) => (d{{ a_organizationMembers := members }}, Ok m)
  | Err e => (d, Err e)
  end.

Definition InsertOrganizationMember (arg : OrganizationMember) : ADB OrganizationMember := fun d =>
  if existsb (fun m => (om_OrganizationID m =? om_OrganizationID arg)%N && (om_UserID m =? om_UserID arg)%N) (a_organizationMembers d)
  then (d, Err (errUniqueConstraint +:+ " " +:+ Quote "organization_members_pkey"))
  else (d{{ a_organizationMembers := a_organizationMembers d ++ [arg] }}, Ok arg).

(** [slices.DeleteFunc]: the slice it returns, and what it leaves in the
    slice it is given, whose tail it clears. *)
Definition DeleteFunc {A} (zero : A) (p : A -> bool) (l : list A) : list A * list A :=
  let kept := List.filter (fun x => negb (p x)) l in (kept, kept ++ replicate (length l - length kept) zero).

Definition zeroMember : OrganizationMember := mkMember 0 0 zeroTime zeroTime [].

(** The organization of a group that is not there is the nil UUID. *)
Definition DeleteOrganizationMember (organizationID userID : uuid) : ADB unit := fun d =>
  let '(deleted, members) := DeleteFunc zeroMember (fun m => (om_OrganizationID m =? organizationID)%N && (om_UserID m =? userID)%N)
                               (a_organizationMembers d) in
  let d' := d{{ a_organizationMembers := members }} in
  if Nat.eqb (length deleted) 0 then (d', Err ErrNoRows)
  else
    let in_organization m :=
      match find_first (fun g => (g_ID g =? gm_GroupID m)%N) (a_groups d) with
      | Some g => (g_OrganizationID g =? organizationID)%N
      | None => (uuid_Nil =? organizationID)%N
      end in
    (d'{{ a_groupMembers := List.filter (fun m => negb ((gm_UserID m =? userID)%N && in_organization m)) (a_groupMembers d) }}, Ok tt).

(** Deleting the only member fails and leaves a row without a user; deleting
    one that is not there succeeds. *)
Lemma DeleteOrganizationMember_wrong :
  let store members := mkAuthData [] members [] [] [] [] [] [] in
  let alice := mkMember 3 7 zeroTime zeroTime [] in
  DeleteOrganizationMember 7 3 (store [alice]) = (store [zeroMember], Err ErrNoRows) /\
  DeleteOrganizationMember 7 4 (store [alice]) = (store [alice], Ok tt).
Proof. done. Qed.

(** ** Roles *)

Record GetAuthorizationUserRolesRow := mkAuthorizationRoles {
  gr_ID : uuid;
  gr_Username : string;
  gr_Status : UserStatus;
  gr_Roles : list string;
  gr_Groups : list string;
}.

Definition GetAuthorizationUserRoles `{UuidText} (userID : uuid) : ADB GetAuthorizationUserRolesRow := fun d =>
  let member_roles := mem ← a_organizationMembers d;
    if (om_UserID mem =? userID)%N
    then ((fun orgRole => orgRole +:+ ":" +:+ uuid_String (om_OrganizationID mem)) <$> om_Roles mem)
         ++ ["organization-member:" +:+ uuid_String (om_OrganizationID mem)]
    else [] in
  let groups := m ← a_groupMembers d; if (gm_UserID m =? userID)%N then [uuid_String (gm_GroupID m)] else [] in
  match find_first (fun u => (u_ID u =? userID)%N) (a_users d) with
  | None => (d, Err ErrNoRows)
  | Some user =>
      (d, Ok (mkAuthorizationRoles userID (u_Username user) (u_Status user)
                ((u_RBACRoles user ++ ["member"]) ++ member_roles) groups))
  end.

Fixpoint role_names `{UuidParse} (roles : list string) : result (list RoleIdentifier) :=
  match roles with
  | [] => Ok []
  | role :: roles =>
      value ← wrap ("convert role " +:+ Quote role) (RoleNameFromString role);
      names ← role_names roles;
      Ok (value :: names)
  end.
Definition RoleNames `{UuidParse} (r : GetAuthorizationUserRolesRow) : result (list RoleIdentifier) := role_names (gr_Roles r).

(** [strings.EqualFold], on ASCII text: the names it compares are those of roles, which
    [wirtualsdk.NameValid] limits to ASCII letters, digits and hyphens before they are stored.  That the Kelvin sign
    and the long s in a requested name fold to letters is left out. *)
Definition EqualFold (s t : string) : bool := String.eqb (ToLower s) (ToLower t).

Definition same_custom_role (role arg : CustomRole) : bool := EqualFold (cr_Name role) (cr_Name arg) && (cr_org role =? cr_org arg)%N.

(** The parameters have the fields of the row; identifiers and times are left
    out of custom roles. *)
Definition InsertCustomRole (arg : CustomRole) : ADB CustomRole := fun d =>
  if existsb (fun role => same_custom_role role arg) (a_customRoles d) then (d, Err errUniqueConstraint)
  else (d{{ a_customRoles := a_customRoles d ++ [arg] }}, Ok arg).

Definition UpdateCustomRole (arg : CustomRole) : ADB CustomRole := fun d =>
  match update_row (fun role => same_custom_role role arg)
          (fun role => mkCustomRole (cr_Name role) (cr_DisplayName arg) (cr_SitePermissions arg) (cr_OrgPermissions arg)
             (cr_UserPermissions arg) (cr_OrganizationID arg)) (a_customRoles d) with
  | Ok (role, roles) => (d{{ a_customRoles := roles }}, Ok role)
  | Err e => (d, Err e)
  end.

Definition DeleteCustomRole (name : string) (organizationID : option uuid) : ADB unit := fun d =>
  let org := default uuid_Nil organizationID in
  let roles := List.filter (fun role => negb ((cr_org role =? org)%N && String.eqb (cr_Name role) name)) (a_customRoles d) in
  let d' := d{{ a_customRoles := roles }} in
  if Nat.eqb (length (a_customRoles d)) (length roles) then (d', Err ErrNoRows)
  else (d'{{ a_organizationMembers :=
               (fun mem => if (om_OrganizationID mem =? org)%N
                           then mem{{ om_Roles := List.filter (fun role => negb (String.eqb role name)) (om_Roles mem) }}
                           else mem) <$> a_organizationMembers d }}, Ok tt).

Definition auth_CustomRoles (arg : CustomRolesParams) : ADB (list CustomRole) := fun d => (d, Ok (CustomRoles (a_customRoles d) arg)).

(** ** API keys and user links *)

Definition GetAPIKeyByID (id : string) : ADB APIKey := fun d =>
  (d, or_no_rows (find_first (fun k => String.eqb (k_ID k) id) (a_apiKeys d))).

Definition GetAPIKeyByName (userID : uuid) (tokenName : string) : ADB APIKey := fun d =>
  if String.eqb tokenName "" then (d, Err ErrNoRows)
  else (d, or_no_rows (find_first (fun k => (userID =? k_UserID k)%N && String.eqb tokenName (k_TokenName k)) (a_apiKeys d))).

Definition GetAPIKeysByUserID (userID : uuid) (loginType : LoginType) : ADB (list APIKey) := fun d =>
  (d, Ok (List.filter (fun k => (k_UserID k =? userID)%N && bool_decide (k_LoginType k = loginType)) (a_apiKeys d))).

Definition GetAPIKeysByLoginType (t : LoginType) : ADB (list APIKey) := fun d =>
  (d, Ok (List.filter (fun k => bool_decide (k_LoginType k = t)) (a_apiKeys d))).

Definition GetAPIKeysLastUsedAfter (after : Time) : ADB (list APIKey) := fun d =>
  (d, Ok (List.filter (fun k => After (k_LastUsed k) after) (a_apiKeys d))).

(** The parameters have the fields of the row. *)
Definition InsertAPIKey (arg : APIKey) : ADB APIKey := fun d =>
  let arg := if k_LifetimeSeconds arg =? 0 then arg{{ k_LifetimeSeconds := 86400 }} else arg in
  if existsb (fun u => (u_ID u =? k_UserID arg)%N && u_Deleted u) (a_users d)
  then (d, Err "refusing to create APIKey for deleted user")
  else (d{{ a_apiKeys := a_apiKeys d ++ [arg] }}, Ok arg).

Definition UpdateAPIKeyByID (id : string) (lastUsed expiresAt : Time) (ip : list byte) : ADB unit := fun d =>
  match update_row (fun k => String.eqb (k_ID k) id)
          (fun k => ((k{{ k_LastUsed := lastUsed }}){{ k_ExpiresAt := expiresAt }}){{ k_IPAddress := ip }}) (a_apiKeys d) with
  | Ok (_, keys) => (d{{ a_apiKeys := keys }}, Ok tt)
  | Err e => (d, Err e)
  end.

(** The key's place is taken by the last one. *)
Definition DeleteAPIKeyByID (id : string) : ADB unit := fun d =>
  match list_find (fun k => k_ID k = id) (a_apiKeys d), last (a_apiKeys d) with
  | Some (index, _), Some final => (d{{ a_apiKeys := take (length (a_apiKeys d) - 1) (<[index := final]> (a_apiKeys d)) }}, Ok tt)
  | _, _ => (d, Err ErrNoRows)
  end.

(** The loops from the end delete the rows that match. *)
Definition DeleteAPIKeysByUserID (userID : uuid) : ADB unit := fun d =>
  (d{{ a_apiKeys := List.filter (fun k => negb (k_UserID k =? userID)%N) (a_apiKeys d) }}, Ok tt).

Definition DeleteApplicationConnectAPIKeysByUserID (userID : uuid) : ADB unit := fun d =>
  (d{{ a_apiKeys := List.filter (fun k => negb ((k_UserID k =? userID)%N && bool_decide (k_Scope k = APIKeyScopeApplicationConnect)))
                      (a_apiKeys d) }}, Ok tt).

Definition GetUserLinkByUserIDLoginType (userID : uuid) (loginType : LoginType) : ADB UserLink := fun d =>
  (d, or_no_rows (find_first (fun l => (ul_UserID l =? userID)%N && bool_decide (ul_LoginType l = loginType)) (a_userLinks d))).

Definition deletedUserLinkError : string := "pq: Cannot create user_link for deleted user".

Definition UpdateUserLink (userID : uuid) (loginType : LoginType) (accessToken refreshToken : string) (expiry : Time) : ADB UserLink := fun d =>
  let deleted := match find_first (fun u => (u_ID u =? userID)%N) (a_users d) with Some u => u_Deleted u | None => false end in
  if deleted then (d, Err deletedUserLinkError)
  else match update_row (fun l => (ul_UserID l =? userID)%N && bool_decide (ul_LoginType l = loginType))
          (fun l => ((l{{ ul_OAuthAccessToken := accessToken }}){{ ul_OAuthRefreshToken := refreshToken }}){{ ul_OAuthExpiry := expiry }})
          (a_userLinks d) with
  | Ok (l, links) => (d{{ a_userLinks := links }}, Ok l)
  | Err e => (d, Err e)
  end.
