(* ===== verification/DbAuthz.v ===== *)
(** * The authorising store: [wirtuald/database/dbauthz/dbauthz.go]

    A store that asks the authorizer before it lets the actor of the context
    use the store it wraps: the generic functions its methods are made of, the
    actors of the system, and the checks on assigning roles and on defining custom
    ones.  DbAuthzStore.v has methods on the tables of Db.v. *)

From Stdlib Require Import Ascii.
From S2P Require Import Prelude GoStrings GoEncoding GoJson GoTime Slices Db Rbac RbacPolicy RoleStore AuthDb.
Local Open Scope string_scope.
Local Open Scope list_scope.
Local Open Scope Z_scope.

(** ** Errors and calls *)

(** [NoActorError], [NotAuthorizedError{Err: ...}], errors of the store or of a
    check, and errors wrapped with a context. *)
Inductive dbz_error :=
| NoActorError
| NotAuthorizedError (e : authz_error)
| StoreError (msg : string)
| Wrapped (context : string) (e : dbz_error).

Fixpoint IsNotAuthorizedError (e : dbz_error) : bool :=
  match e with
  | NoActorError | NotAuthorizedError _ => true
  | StoreError _ => false
  | Wrapped _ e => IsNotAuthorizedError e
  end.

Inductive outcome (A : Type) : Type := Done (a : A) | Failed (e : dbz_error).
Arguments Done {A} _.
Arguments Failed {A} _.

(** A call on a store of type [St]: the store after it and its outcome. *)
Definition Call (St A : Type) : Type := St -> St * outcome A.

#[export] Instance Call_ret {St} : MRet (Call St) := fun A a st => (st, Done a).
#[export] Instance Call_bind {St} : MBind (Call St) := fun A B f m st =>
  match m st with (st, Done a) => f a st | (st, Failed e) => (st, Failed e) end.

Definition fail {St A} (e : dbz_error) : Call St A := fun st => (st, Failed e).
Definition wrapz {St A} (context : string) (m : Call St A) : Call St A := fun st =>
  match m st with (st, Failed e) => (st, Failed (Wrapped context e)) | r => r end.

(** Anything the store keeps that has an object to authorise it by. *)
Class Objecter (T : Type) := RBACObject : T -> Object.
#[export] Instance Object_Objecter : Objecter Object := id.

(** What the context carries that is read here: the actor. *)
Abbreviation Ctx := (option Subject).

Definition ActorFromContext {St} (ctx : Ctx) : Call St Subject :=
  match ctx with None => fail NoActorError | Some act => mret act end.

Definition AsRemoveActor : Subject := mkSubject "" "remove-actor" None [] None.

Definition As `{MapRange} `{UuidText} (actor : Subject) : Ctx :=
  if Subject_Equal actor AsRemoveActor then None else Some actor.

(** ** The generic functions *)

Section Generic.
Context {St : Type} (auth : Subject -> Action -> Object -> option authz_error) (ctx : Ctx).

(** [authorizer.Authorize], its error as [logNotAuthorizedError] returns it. *)
Definition check (act : Subject) (action : Action) (object : Object) : Call St unit :=
  match auth act action object with None => mret tt | Some e => fail (NotAuthorizedError e) end.

Definition authorizeContext (action : Action) (object : Object) : Call St unit :=
  act ← ActorFromContext ctx; check act action object.

Section Wrappers.
Context {Arg T : Type} `{Objecter T}.

Definition insertWithAction {R : Type} (object : Object) (action : Action) (insertFunc : Arg -> Call St R) (arg : Arg) : Call St R :=
  act ← ActorFromContext ctx; _ ← check act action object; insertFunc arg.

Definition insert {R : Type} (object : Object) (insertFunc : Arg -> Call St R) (arg : Arg) : Call St R :=
  insertWithAction object ActionCreate insertFunc arg.

Definition fetchWithAction (action : Action) (f : Arg -> Call St T) (arg : Arg) : Call St T :=
  act ← ActorFromContext ctx;
  object ← wrapz "fetch object" (f arg);
  _ ← check act action (RBACObject object);
  mret object.

Definition fetch (f : Arg -> Call St T) (arg : Arg) : Call St T := fetchWithAction ActionRead f arg.

Definition fetchAndQuery {R : Type} (action : Action) (fetchFunc : Arg -> Call St T) (queryFunc : Arg -> Call St R) (arg : Arg) : Call St R :=
  act ← ActorFromContext ctx;
  object ← wrapz "fetch object" (fetchFunc arg);
  _ ← check act action (RBACObject object);
  queryFunc arg.

Definition fetchAndExec (action : Action) (fetchFunc : Arg -> Call St T) (execFunc : Arg -> Call St unit) (arg : Arg) : Call St unit :=
  fetchAndQuery action fetchFunc execFunc arg.

Definition deleteQ (fetchFunc : Arg -> Call St T) (deleteFunc : Arg -> Call St unit) (arg : Arg) : Call St unit :=
  fetchAndExec ActionDelete fetchFunc deleteFunc arg.

Definition updateWithReturn (fetchFunc updateQuery : Arg -> Call St T) (arg : Arg) : Call St T :=
  fetchAndQuery ActionUpdate fetchFunc updateQuery arg.

Definition update (fetchFunc : Arg -> Call St T) (updateExec : Arg -> Call St unit) (arg : Arg) : Call St unit :=
  fetchAndExec ActionUpdate fetchFunc updateExec arg.

(** [filter] is [rbac.Filter] with the authorizer. *)
Definition fetchWithPostFilter (filter : Subject -> Action -> list T -> result (list T)) (action : Action)
    (f : Arg -> Call St (list T)) (arg : Arg) : Call St (list T) :=
  act ← ActorFromContext ctx;
  objects ← wrapz "fetch object" (f arg);
  match filter act action objects with Ok l => mret l | Err e => fail (StoreError e) end.
End Wrappers.

(** [prepare] is the authorizer's. *)
Definition prepareSQLFilter {P : Type} (prepare : Subject -> Action -> string -> result P) (action : Action) (resourceType : string)
    : Call St P :=
  act ← ActorFromContext ctx;
  match prepare act action resourceType with Ok p => mret p | Err e => fail (StoreError e) end.
End Generic.

(** ** What the generic functions guarantee *)

Lemma bind_Done {St A B} (m : Call St A) (f : A -> Call St B) st st' b :
  (m ≫= f) st = (st', Done b) <-> exists st1 a, m st = (st1, Done a) /\ f a st1 = (st', Done b).
Proof. unfold mbind, Call_bind. destruct (m st) as [st1 [a|e]]; naive_solver. Qed.

Section Guarded.
Context {St : Type} (auth : Subject -> Action -> Object -> option authz_error) (ctx : Ctx).

(** The actor may take the action on the object. *)
Definition allowed (action : Action) (object : Object) : Prop := exists act, ctx = Some act /\ auth act action object = None.

Lemma authorizeContext_cases action object (st : St) :
  (allowed action object /\ authorizeContext auth ctx action object st = (st, Done tt)) \/
  (~ allowed action object /\ exists e, authorizeContext auth ctx action object st = (st, Failed e) /\ IsNotAuthorizedError e = true).
Proof.
  unfold allowed, authorizeContext, ActorFromContext, check, mbind, Call_bind. destruct ctx as [act|]; simpl.
  - destruct (auth act action object) as [e|] eqn:He; simpl.
    + right. split; [intros (? & [= <-] & ?); congruence|]. eauto.
    + left. split; [by exists act|done].
  - right. split; [by intros (? & ? & _)|]. eauto.
Qed.

Lemma insertWithAction_authorizes {Arg R} object action (f : Arg -> Call St R) arg :
  insertWithAction auth ctx object action f arg = (_ ← authorizeContext auth ctx action object; f arg).
Proof. unfold insertWithAction, authorizeContext, mbind, Call_bind. by destruct ctx. Qed.

Lemma authorizeContext_Done action object (st st' : St) u :
  authorizeContext auth ctx action object st = (st', Done u) -> st' = st /\ allowed action object.
Proof. destruct (authorizeContext_cases action object st) as [[Ha ->]|[_ (e & -> & _)]]; [by intros [= ->]|done]. Qed.

Context {Arg T R : Type} `{Objecter T}.

(** Nothing happens unasked.  A query behind a fetch runs only if the
    object that was fetched is one the actor may take the action on, and then it
    runs on the store as the fetch left it; otherwise the call fails and the store
    is that of the fetch, which for a missing actor is not even called. *)
Lemma fetchAndQuery_guarded action (fetchFunc : Arg -> Call St T) (queryFunc : Arg -> Call St R) arg st :
  let r := fetchAndQuery auth ctx action fetchFunc queryFunc arg st in
  (ctx = None /\ r = (st, Failed NoActorError)) \/
  (exists st' e, fetchFunc arg st = (st', Failed e) /\ r = (st', Failed (Wrapped "fetch object" e))) \/
  (exists st' object, fetchFunc arg st = (st', Done object) /\
     ((allowed action (RBACObject object) /\ r = queryFunc arg st') \/
      (~ allowed action (RBACObject object) /\ exists e, r = (st', Failed e) /\ IsNotAuthorizedError e = true))).
Proof.
  unfold allowed, fetchAndQuery, ActorFromContext, check, wrapz, mbind, Call_bind. destruct ctx as [act|]; simpl; [right|by left].
  destruct (fetchFunc arg st) as [st' [object|e]] eqn:Hf; simpl; [right|left; eauto].
  exists st', object. split; [done|].
  destruct (auth act action (RBACObject object)) as [e|] eqn:He; simpl.
  - right. split; [intros (? & [= <-] & ?); congruence|]. eauto.
  - left. split; [by exists act|done].
Qed.

Lemma fetchWithAction_guarded action (f : Arg -> Call St T) arg st st' object :
  fetchWithAction auth ctx action f arg st = (st', Done object) ->
  f arg st = (st', Done object) /\ allowed action (RBACObject object).
Proof.
  unfold allowed, fetchWithAction, ActorFromContext, check, wrapz, mbind, Call_bind. destruct ctx as [act|]; simpl; [|done].
  destruct (f arg st) as [st1 [o|e]]; simpl; [|done].
  destruct (auth act action (RBACObject o)) eqn:He; simpl; [done|]. intros [= <- <-]. split; [done|by exists act].
Qed.
End Guarded.

(** ** Assigning roles *)

(** The store of Db.v's calls, with errors of this file. *)
Definition store_call {St A} (m : St -> St * result A) : Call St A := fun st =>
  match m st with (st, Ok a) => (st, Done a) | (st, Err e) => (st, Failed (StoreError e)) end.

(** The store and the cache of custom roles that the context carries. *)
Abbreviation RState := (AuthData * RoleCache)%type.

Definition adb {A} (m : ADB A) : Call RState A := fun '(d, cache) =>
  match m d with (d, Ok a) => ((d, cache), Done a) | (d, Err e) => ((d, cache), Failed (StoreError e)) end.

Section Roles.
Context `{MapRange} `{UuidText} (builtInRoles : gmap string (uuid -> Role)).
Context (auth : Subject -> Action -> Object -> option authz_error) (ctx : Ctx).

Definition expand_custom (names : list RoleIdentifier) : Call RState (list Role) := fun '(d, cache) =>
  match Expand builtInRoles (fun arg => Ok (CustomRoles (a_customRoles d) arg)) cache names with
  | (Ok roles, cache) => ((d, cache), Done roles)
  | (Err e, cache) => ((d, cache), Failed (StoreError e))
  end.

Fixpoint convertToOrganizationRoles (organizationID : uuid) (names : list string) : result (list RoleIdentifier) :=
  match names with
  | [] => Ok []
  | name :: names =>
      if negb (no_char ":" name) then
        Err ("attempt to assign a role " +:+ Quote name +:+ ", remove the ':<organization_id> suffix")
      else uniques ← convertToOrganizationRoles organizationID names; Ok (mkIdentifier name organizationID :: uniques)
  end.

Definition convertToDeploymentRoles (names : list string) : list RoleIdentifier := site_role <$> names.

(** The first loop: every role is of the scope, and the custom ones. *)
Fixpoint check_granted (orgID : option uuid) (granted : list RoleIdentifier) : result (list RoleIdentifier) :=
  match granted with
  | [] => Ok []
  | r :: granted =>
      let isOrgRole := negb (ri_OrganizationID r =? uuid_Nil)%N in
      match orgID with
      | Some org =>
          if negb isOrgRole then Err "Must only update org roles"
          else if negb (ri_OrganizationID r =? org)%N then
            Err ("attempted to assign role from a different org, role " +:+ Quote (RoleIdentifier_String r) +:+ " to " +:+ Quote (uuid_String org))
          else Ok tt
      | None => if isOrgRole then Err "Must only update site wide roles" else Ok tt
      end ≫= (fun _ =>
        customRoles ← check_granted orgID granted;
        Ok (if is_ok (RoleByName builtInRoles r) then customRoles else r :: customRoles))
  end.

Definition supports (expanded : list Role) (role : RoleIdentifier) : bool :=
  existsb (fun customRole => EqualFold (ri_Name (r_Identifier customRole)) (ri_Name role)
                             && (ri_OrganizationID (r_Identifier customRole) =? ri_OrganizationID role)%N) expanded.

(** Custom roles that are not there. *)
Definition check_custom (customRoles : list RoleIdentifier) : Call RState unit :=
  if Nat.eqb (length customRoles) 0 then mret tt
  else
    expanded ← wrapz "fetching custom roles" (expand_custom customRoles);
    if Nat.eqb (length customRoles) (length expanded) then mret tt
    else match find_first (fun role => negb (supports expanded role)) customRoles with
    | Some role => fail (StoreError (Quote (RoleIdentifier_String role) +:+ " is not a supported role"))
    | None => mret tt
    end.

(** What stands for a role in the table of who may assign what. *)
Definition assignable_as (customRoles : list RoleIdentifier) (roleName : RoleIdentifier) : RoleIdentifier :=
  if bool_decide (roleName ∈ customRoles)
  then if IsOrgRole roleName then CustomOrganizationRole (ri_OrganizationID roleName) else CustomSiteRole
  else roleName.

Fixpoint check_assignable (actor : Subject) (customRoles granted : list RoleIdentifier) : Call RState unit :=
  match granted with
  | [] => mret tt
  | roleName :: granted =>
      let roleName := assignable_as customRoles roleName in
      (* the names of a nil [Roles] cannot be asked for *)
      match s_Roles actor with
      | None => fail (StoreError "invalid memory address or nil pointer dereference")
      | Some roles =>
          if negb (CanAssignRole roles roleName) then
            fail (StoreError ("not authorized to assign role " +:+ Quote (RoleIdentifier_String roleName)))
          else check_assignable actor customRoles granted
      end
  end.

Definition canAssignRoles (orgID : option uuid) (added removed : list RoleIdentifier) : Call RState unit :=
  actor ← ActorFromContext ctx;
  let roleAssign := match orgID with Some org => InOrg org ResourceAssignOrgRole | None => ResourceAssignRole end in
  let grantedRoles := added ++ removed in
  match check_granted orgID grantedRoles with
  | Err e => fail (StoreError e)
  | Ok customRoles =>
      _ ← check_custom customRoles;
      _ ← (if Nat.ltb 0 (length added) then authorizeContext auth ctx ActionAssign roleAssign else mret tt);
      _ ← (if Nat.ltb 0 (length removed) then authorizeContext auth ctx ActionDelete roleAssign else mret tt);
      check_assignable actor customRoles grantedRoles
  end.

(** ** Defining custom roles *)

Definition customRoleEscalationCheck (actor : Subject) (perm : Permission) (object : Object) : result unit :=
  let text := "invalid permission for action=" +:+ Quote (p_Action perm) +:+ " type=" +:+ Quote (p_ResourceType perm) in
  if p_Negate perm then Err (text +:+ ", no negative permissions")
  else if String.eqb (p_Action perm) WildcardSymbol || String.eqb (p_ResourceType perm) WildcardSymbol then
    Err (text +:+ ", no wildcard symbols")
  else
    let object := mkObject (o_ID object) (o_Owner object) (o_OrgID object) (o_AnyOrgOwner object) (p_ResourceType perm)
                    (o_ACLUserList object) (o_ACLGroupList object) in
    match auth actor (p_Action perm) object with
    | Some _ => Err (text +:+ ", not allowed to grant this permission")
    | None => Ok tt
    end.

Fixpoint each {A} (f : A -> result unit) (l : list A) : result unit :=
  match l with [] => Ok tt | x :: l => _ ← f x; each f l end.

Definition customRoleCheck (role : CustomRole) : result unit + dbz_error :=
  match ctx with
  | None => inr NoActorError
  | Some act => inl (
      if (cr_org role =? uuid_Nil)%N && Nat.ltb 0 (length (cr_OrgPermissions role)) then
        Err "organization permissions require specifying an organization id"
      else if negb (cr_org role =? uuid_Nil)%N &&
              (Nat.ltb 0 (length (cr_SitePermissions role)) || Nat.ltb 0 (length (cr_UserPermissions role))) then
        Err "organization roles specify site or user permissions"
      else
        rbacRole ← wrap "invalid args" (ConvertDBRole role);
        if negb (Nat.eqb (length (Role_Valid rbacRole)) 0) then
          Err ("invalid role: " +:+ Join (Role_Valid rbacRole) (String (ascii_of_nat 10) ""))
        else if Nat.ltb 0 (size (r_Org rbacRole)) && Nat.ltb 0 (length (r_Site rbacRole)) then
          Err "invalid custom role, cannot assign both org and site permissions at the same time"
        else if Nat.ltb 1 (size (r_Org rbacRole)) then
          Err "invalid custom role, cannot assign permissions to more than 1 org at a time"
        else
          _ ← each (fun sitePerm => wrap "site permission"
                 (customRoleEscalationCheck act sitePerm (object_of_type (p_ResourceType sitePerm)))) (r_Site rbacRole);
          _ ← each (fun orgID => each (fun orgPerm => wrap ("org=" +:+ Quote orgID)
                 (customRoleEscalationCheck act orgPerm
                    (mkObject "" "" orgID false (p_ResourceType orgPerm) ∅ ∅))) (r_Org rbacRole !!! orgID)) (range (dom (r_Org rbacRole)));
          each (fun userPerm => wrap "user permission"
                 (customRoleEscalationCheck act userPerm (WithOwner (s_ID act) (object_of_type (p_ResourceType userPerm))))) (r_User rbacRole))
  end.

Definition check_role (role : CustomRole) : Call RState unit :=
  match customRoleCheck role with
  | inr e => fail e
  | inl (Err e) => fail (StoreError e)
  | inl (Ok _) => mret tt
  end.

(** The object that the action on a custom role is authorised by. *)
Definition custom_role_object (organizationID : option uuid) : Object :=
  let org := default uuid_Nil organizationID in
  if negb (org =? uuid_Nil)%N then InOrg org ResourceAssignOrgRole else ResourceAssignRole.

Definition q_InsertCustomRole (arg : CustomRole) : Call RState CustomRole :=
  _ ← authorizeContext auth ctx ActionCreate (custom_role_object (cr_OrganizationID arg));
  _ ← check_role arg;
  adb (InsertCustomRole arg).

Definition q_UpdateCustomRole (arg : CustomRole) : Call RState CustomRole :=
  _ ← authorizeContext auth ctx ActionUpdate (custom_role_object (cr_OrganizationID arg));
  _ ← check_role arg;
  adb (UpdateCustomRole arg).

Definition q_DeleteCustomRole (name : string) (organizationID : option uuid) : Call RState unit :=
  _ ← authorizeContext auth ctx ActionDelete (custom_role_object organizationID);
  adb (DeleteCustomRole name organizationID).

(** ** Methods that change a user's roles *)

Definition User_RBACObject (u : User) : Object := ResourceUserObject (u_ID u).
Definition OrganizationMember_RBACObject (m : OrganizationMember) : Object :=
  WithOwner (uuid_String (om_UserID m)) (InOrg (om_OrganizationID m) (WithID (om_UserID m) ResourceOrganizationMember)).
#[export] Instance User_Objecter : Objecter User := User_RBACObject.
#[export] Instance OrganizationMember_Objecter : Objecter OrganizationMember := OrganizationMember_RBACObject.

Definition q_UpdateUserRoles (id : uuid) (grantedRoles : list string) : Call RState User :=
  user ← fetch auth ctx (fun id => adb (auth_GetUserByID id)) id;
  let impliedTypes := convertToDeploymentRoles grantedRoles ++ [RoleMember] in
  let '(added, removed) := ChangeRoleSet (convertToDeploymentRoles (u_RBACRoles user)) impliedTypes in
  _ ← canAssignRoles None added removed;
  adb (UpdateUserRoles id grantedRoles).

Definition q_InsertUser (arg : InsertUserParams) : Call RState User :=
  let impliedRoles := RoleMember :: convertToDeploymentRoles (iu_RBACRoles arg) in
  _ ← canAssignRoles None impliedRoles [];
  insert auth ctx ResourceUser (fun arg => adb (InsertUser arg)) arg.

Definition q_InsertOrganizationMember (arg : OrganizationMember) : Call RState OrganizationMember :=
  match wrap "converting to organization roles" (convertToOrganizationRoles (om_OrganizationID arg) (om_Roles arg)) with
  | Err e => fail (StoreError e)
  | Ok orgRoles =>
      let addedRoles := orgRoles ++ [ScopedRoleOrgMember (om_OrganizationID arg)] in
      _ ← canAssignRoles (Some (om_OrganizationID arg)) addedRoles [];
      let obj := WithID (om_UserID arg) (InOrg (om_OrganizationID arg) ResourceOrganizationMember) in
      insert auth ctx obj (fun arg => adb (InsertOrganizationMember arg)) arg
  end.

(** [database.ExpectOne]. *)
Definition ExpectOne {A} (l : list A) : result A :=
  match l with
  | [] => Err ErrNoRows
  | [x] => Ok x
  | _ => Err "too many rows returned, expected 1"
  end.

(** [filter] is [rbac.Filter] with the authorizer. *)
Definition q_OrganizationMembers (filter : Subject -> Action -> list OrganizationMember -> result (list OrganizationMember))
    (arg : uuid * uuid) : Call RState (list OrganizationMember) :=
  fetchWithPostFilter ctx filter ActionRead (fun '(organizationID, userID) => adb (OrganizationMembers organizationID userID)) arg.

Definition q_UpdateMemberRoles (filter : Subject -> Action -> list OrganizationMember -> result (list OrganizationMember))
    (userID orgID : uuid) (grantedRoles : list string) : Call RState OrganizationMember :=
  members ← q_OrganizationMembers filter (orgID, userID);
  match ExpectOne members with
  | Err e => fail (StoreError e)
  | Ok member =>
      match wrap "convert original roles" (convertToOrganizationRoles (om_OrganizationID member) (om_Roles member)) with
      | Err e => fail (StoreError e)
      | Ok originalRoles =>
          match convertToOrganizationRoles orgID grantedRoles with
          | Err e => fail (StoreError e)
          | Ok scopedGranted =>
              let impliedTypes := scopedGranted ++ [ScopedRoleOrgMember orgID] in
              let '(added, removed) := ChangeRoleSet originalRoles impliedTypes in
              _ ← canAssignRoles (Some orgID) added removed;
              adb (UpdateMemberRoles userID orgID grantedRoles)
          end
      end
  end.
End Roles.

(** ** No one defines a role that may more than its author *)

Lemma each_Ok {A} (f : A -> result unit) l : each f l = Ok tt <-> forall x, x ∈ l -> f x = Ok tt.
Proof.
  induction l as [|x l IH]; simpl; [set_solver|]. setoid_rewrite elem_of_cons. split.
  - intros (u & Hx & Hl)%bind_Ok y [->|Hy]; [by destruct u|by apply IH].
  - intros Hall. rewrite Hall by tauto. apply IH. auto.
Qed.

Section Escalation.
Context `{MapRange} `{UuidText} (builtInRoles : gmap string (uuid -> Role)) (strict : bool).
Notation auth := (Authorize builtInRoles strict).

(** The input that the authorizer builds for a subject. *)
Definition input_of (s : Subject) (input : authSubject) : Prop :=
  exists roles scope, s_Roles s = Some roles /\ s_Scope s = Some scope /\ regoInputValue builtInRoles s roles scope = Ok input.

Lemma Authorize_allow s action object :
  auth s action object = None -> exists input, input_of s input /\ allow input action object = true.
Proof.
  unfold Authorize. destruct (if strict then _ else _); [|done]. unfold authorize, input_of.
  destruct (s_Roles s) as [roles|]; [|done]. destruct (s_Scope s) as [scope|]; [|done].
  case_match; [done|]. destruct (regoInputValue _ _ _ _) as [input|] eqn:Hi; simpl; [|done].
  destruct (allow input action object) eqn:Ha; [|done]. eauto 10.
Qed.

Lemma input_of_fun s input input' : input_of s input -> input_of s input' -> input = input'.
Proof. intros (r & c & Hr & Hc & Hi) (r' & c' & Hr' & Hc' & Hi'). congruence. Qed.

Lemma input_of_ID s input : input_of s input -> as_ID input = s_ID s.
Proof.
  intros (r & c & _ & _ & Hi). unfold regoInputValue, Subject_regoValue in Hi.
  apply wrap_Ok, bind_Ok in Hi as (rs & _ & (sc & _ & [= <-])%bind_Ok). done.
Qed.

(** An object without access control lists. *)
Definition plain (owner org type : string) : Object := mkObject "" owner org false type ∅ ∅.

Lemma allow_plain input action owner org type :
  allow input action (plain owner org type) = true ->
  role_spec input action (plain owner org type) /\ permits action (plain owner org type) (r_Site (sc_Role (as_Scope input))).
Proof.
  rewrite policy_correct. intros [[_ Hs] [Hr|Ha]]; [done|].
  destruct Ha as [(l & Hl & _)|(_ & g & _ & l & Hl & _)]; unfold plain in Hl; simpl in Hl; by rewrite lookup_empty in Hl.
Qed.

(** What a permission is about does not depend on who owns the object. *)
Lemma matches_type action o o' p : o_Type o = o_Type o' -> matches action o p = matches action o' p.
Proof. unfold matches. by intros ->. Qed.
Lemma permits_type action o o' l : o_Type o = o_Type o' -> permits action o l -> permits action o' l.
Proof.
  intros Ho [(p & Hp & Hm) Hall]. split.
  - exists p. by rewrite <- (matches_type action o o' p Ho).
  - intros q Hq. rewrite <- (matches_type action o o' q Ho). by apply Hall.
Qed.
Lemma denies_type action o o' l : o_Type o = o_Type o' -> denies action o l -> denies action o' l.
Proof. intros Ho (p & Hp & Hm & Hn). exists p. by rewrite <- (matches_type action o o' p Ho). Qed.

(** A permission that the escalation check lets pass. *)
Lemma escalation_Ok act perm object : customRoleEscalationCheck auth act perm object = Ok tt ->
  p_Negate perm = false /\
  (forall action o, matches action o perm = true -> action = p_Action perm /\ o_Type o = p_ResourceType perm) /\
  auth act (p_Action perm) (mkObject (o_ID object) (o_Owner object) (o_OrgID object) (o_AnyOrgOwner object)
                              (p_ResourceType perm) (o_ACLUserList object) (o_ACLGroupList object)) = None.
Proof.
  unfold customRoleEscalationCheck. destruct (p_Negate perm); [done|].
  destruct (String.eqb (p_Action perm) WildcardSymbol) eqn:Ha; [done|].
  destruct (String.eqb (p_ResourceType perm) WildcardSymbol) eqn:Ht; [done|]. simpl.
  destruct (auth _ _ _) eqn:Hauth; [done|]. intros _. split; [done|]. split; [|done].
  unfold matches, or_wildcard. change WildcardSymbol with "*" in *. intros action o. rewrite Ha, Ht, !orb_false_r, andb_true_iff, !String.eqb_eq. naive_solver.
Qed.

(** The three kinds of permission a role is checked with. *)
Lemma customRoleCheck_Ok act role rbacRole :
  customRoleCheck auth (Some act) role = inl (Ok tt) -> ConvertDBRole role = Ok rbacRole ->
  role_ok rbacRole /\
  ((r_Org rbacRole = ∅ /\
    (forall p, p ∈ r_Site rbacRole -> customRoleEscalationCheck auth act p (plain "" "" (p_ResourceType p)) = Ok tt) /\
    (forall p, p ∈ r_User rbacRole -> customRoleEscalationCheck auth act p (plain (s_ID act) "" (p_ResourceType p)) = Ok tt)) \/
   (r_Site rbacRole = [] /\ r_User rbacRole = [] /\ exists orgID perms, r_Org rbacRole = {[ orgID := perms ]} /\
    orgID = uuid_String (cr_org role) /\ cr_org role <> uuid_Nil /\
    forall p, p ∈ perms -> customRoleEscalationCheck auth act p (plain "" orgID (p_ResourceType p)) = Ok tt)).
Proof.
  unfold customRoleCheck. intros Hc Hconv. injection Hc as Hc.
  destruct ((cr_org role =? uuid_Nil)%N && _) eqn:H1; [done|]. destruct (negb _ && _) eqn:H2 in Hc; [done|].
  rewrite Hconv in Hc. simpl in Hc. destruct (negb (Nat.eqb _ 0)) eqn:H3; [done|].
  destruct (_ && _) eqn:H4 in Hc; [done|]. destruct (Nat.ltb _ _) eqn:H5 in Hc; [done|].
  apply bind_Ok in Hc as ([] & Hsite & ([] & Horg & Huser)%bind_Ok).
  apply negb_false_iff, Nat.eqb_eq, length_zero_iff_nil, Role_Valid_ok in H3. split; [done|].
  pose proof (proj1 (each_Ok _ _) Hsite) as Hsite'. pose proof (proj1 (each_Ok _ _) Horg) as Horg'. pose proof (proj1 (each_Ok _ _) Huser) as Huser'.
  clear Hsite Horg Huser. unfold ConvertDBRole in Hconv. destruct (_ && _) eqn:H6 in Hconv; [done|].
  injection Hconv as <-. cbn [r_Site r_Org r_User] in *. destruct (N.eqb_spec (cr_org role) uuid_Nil) as [Hn|Hn]; simpl negb in *; cbn iota in *.
  - left. split; [done|]. split; intros p Hp; [specialize (Hsite' p Hp); by apply wrap_Ok in Hsite'|specialize (Huser' p Hp); by apply wrap_Ok in Huser'].
  - right. apply orb_false_iff in H2 as [Hs Hu]. apply Nat.ltb_ge, Nat.le_0_r, length_zero_iff_nil in Hs, Hu. rewrite Hs, Hu.
    split; [done|]. split; [done|]. do 2 eexists. split; [done|]. split; [done|]. split; [done|]. intros p Hp.
    specialize (Horg' (uuid_String (cr_org role))). rewrite range_elem, dom_singleton_L in Horg'.
    rewrite lookup_total_alt, lookup_singleton_eq in Horg'. specialize (Horg' ltac:(set_solver)).
    pose proof (proj1 (each_Ok _ _) Horg' p Hp) as Hone. by apply wrap_Ok in Hone.
Qed.

(** What the actor may do to the object that a permission is checked on. *)
Lemma checked_permission act input action object p owner org :
  customRoleEscalationCheck auth act p (plain owner org (p_ResourceType p)) = Ok tt ->
  input_of act input -> matches action object p = true ->
  role_spec input action (plain owner org (o_Type object)) /\ permits action object (r_Site (sc_Role (as_Scope input))).
Proof.
  intros (_ & Hm & Ha)%escalation_Ok Hin Hp. apply Hm in Hp as [-> Ht]. cbn in Ha.
  apply Authorize_allow in Ha as (input' & Hin' & Ha). rewrite (input_of_fun _ _ _ Hin Hin').
  rewrite Ht. apply allow_plain in Ha as [Hr Hs]. split; [done|]. by eapply permits_type, Hs.
Qed.

Lemma checked_denies act owner org l action object :
  (forall p, p ∈ l -> customRoleEscalationCheck auth act p (plain owner org (p_ResourceType p)) = Ok tt) ->
  ~ denies action object l.
Proof. intros Hl (q & Hq & _ & Hneg). destruct (escalation_Ok _ _ _ (Hl q Hq)) as [Hn _]. congruence. Qed.

(** A level of the role's permits what the actor may. *)
Lemma checked_level act input action object owner org l :
  (forall p, p ∈ l -> customRoleEscalationCheck auth act p (plain owner org (p_ResourceType p)) = Ok tt) ->
  input_of act input -> permits action object l ->
  role_spec input action (plain owner org (o_Type object)) /\ permits action object (r_Site (sc_Role (as_Scope input))).
Proof. intros Hl Hin [(p & Hp & Hm) _]. by apply (checked_permission act input action object p owner org); [apply Hl|..]. Qed.

(** The actor's rights on the object a permission is checked on are rights on
    every object of the type in the same place. *)
Lemma plain_role_spec input action object owner org :
  role_spec input action (plain owner org (o_Type object)) ->
  (is_member input org -> o_AnyOrgOwner object = false -> o_OrgID object = org) ->
  (owner <> "" -> o_Owner object = owner /\ o_OrgID object = "" /\ o_AnyOrgOwner object = false /\ org = "") ->
  role_spec input action object.
Proof.
  unfold role_spec. set (o := plain owner org (o_Type object)). assert (Ht : o_Type o = o_Type object) by done.
  assert (Hnt : forall l, ~ denies action o l -> ~ denies action object l)
    by (intros l Hd Hd'; apply Hd; by eapply denies_type, Hd').
  intros [Hs|(Hns & Hr)] Horg Hown; [left; by eapply permits_type, Hs|right]. split; [by apply Hnt|].
  destruct Hr as [Ho|(Hno & _ & [Hne Hid] & Hu)].
  - left. change (permits action o (org_permissions (as_Roles input) org)) in Ho. apply (permits_type _ _ object) in Ho; [|done].
    assert (Hm : is_member input org).
    { destruct (decide (org ∈ org_members input)) as [Hm|Hm]; rewrite org_members_elem in Hm; [done|].
      rewrite not_member_permissions in Ho by done. destruct Ho as [(p & Hp & _) _]. by apply elem_of_nil in Hp. }
    unfold org_permits. destruct (o_AnyOrgOwner object); [by exists org|]. by rewrite Horg.
  - right. destruct (Hown Hne) as (Hobj & HoID & Hany & ->). unfold org_denies, in_org_or_none, owns. rewrite Hany, HoID, Hobj.
    split; [by apply Hnt|]. split; [by right|]. split; [done|]. by eapply permits_type, Hu.
Qed.

(** What the role that passed the check permits its holder, whoever it is and
    as long as the actor's identifier is the owner's, the actor may. *)
Lemma custom_role_bounded act role rbacRole input action object groups scope :
  customRoleCheck auth (Some act) role = inl (Ok tt) -> ConvertDBRole role = Ok rbacRole ->
  input_of act input -> ~ is_member input "" ->
  role_spec (mkAuthSubject (s_ID act) [rbacRole] groups scope) action object ->
  role_spec input action object /\ permits action object (r_Site (sc_Role (as_Scope input))).
Proof.
  intros Hcheck Hconv Hin Hmem Hr. set (holder := mkAuthSubject _ _ _ _) in Hr.
  assert (Hops : forall id, org_permissions (as_Roles holder) id = default [] (r_Org rbacRole !! id))
    by (intros id; unfold org_permissions; simpl; apply app_nil_r).
  destruct (customRoleCheck_Ok act role rbacRole Hcheck Hconv) as [_ [(Horg & Hsite & Huser)|(Hsite & Huser & orgID & perms & Horg & _ & _ & Hp)]];
    unfold role_spec in Hr; simpl as_Roles in Hr; simpl mbind in Hr; rewrite ?app_nil_r in Hr.
  - assert (Hno : forall id, ~ is_member holder id).
    { intros id (r & ->%list_elem_of_singleton & Hid). rewrite Horg, lookup_empty in Hid. by destruct Hid. }
    destruct Hr as [Hs|(_ & [Ho|(_ & Hok & [Hne Hown] & Hu)])].
    + destruct (checked_level _ _ _ _ _ _ _ Hsite Hin Hs) as [Ha Hsc]. split; [|done].
      eapply plain_role_spec; [exact Ha|done..].
    + unfold org_permits in Ho. destruct (o_AnyOrgOwner object); [destruct Ho as (id & Hid & _); by apply Hno in Hid|].
      rewrite Hops, Horg, lookup_empty in Ho. destruct Ho as [(p & Hp & _) _]. by apply elem_of_nil in Hp.
    + destruct (checked_level _ _ _ _ _ _ _ Huser Hin Hu) as [Ha Hsc]. split; [|done].
      eapply plain_role_spec; [exact Ha|done|]. intros _. simpl in Hown.
      destruct Hok as [Hio|[HoID Hany]]; [|done]. unfold in_org in Hio.
      destruct (o_AnyOrgOwner object); [destruct Hio as [id Hid]|destruct Hio as [_ Hid]]; by apply Hno in Hid.
  - rewrite Hsite, Huser in Hr. assert (Hnone : ~ permits action object []) by (intros [(p & Hpp & _) _]; by apply elem_of_nil in Hpp).
    destruct Hr as [Hs|(_ & [Ho|(_ & _ & _ & Hu)])]; [done| |done].
    assert (Hlook : forall id, permits action object (org_permissions (as_Roles holder) id) -> id = orgID /\ permits action object perms).
    { intros id Hid. rewrite Hops, Horg in Hid. destruct (decide (id = orgID)) as [->|Hne].
      - by rewrite lookup_singleton_eq in Hid.
      - by rewrite lookup_singleton_ne in Hid. }
    assert (Hpl : permits action object perms /\ (o_AnyOrgOwner object = false -> o_OrgID object = orgID)).
    { unfold org_permits in Ho. destruct (o_AnyOrgOwner object).
      - destruct Ho as (id & _ & [-> Hid]%Hlook). done.
      - apply Hlook in Ho as [? ?]. done. }
    destruct Hpl as [Hpl Hobj]. destruct (checked_level _ _ _ _ _ _ _ Hp Hin Hpl) as [Ha Hsc]. split; [|done].
    eapply plain_role_spec; [exact Ha|auto|done].
Qed.

Lemma customRoleCheck_converts ctx role : customRoleCheck auth ctx role = inl (Ok tt) -> is_ok (ConvertDBRole role).
Proof.
  unfold customRoleCheck. destruct ctx as [act|]; [|done]. intros Hc. injection Hc as Hc.
  destruct (_ && _); [done|]. destruct (negb _ && _); [done|]. by destruct (ConvertDBRole role).
Qed.

(** The check does not read the role's names. *)
Lemma customRoleCheck_names ctx name display name' display' site org user id :
  customRoleCheck auth ctx (mkCustomRole name display site org user id) =
  customRoleCheck auth ctx (mkCustomRole name' display' site org user id).
Proof.
  unfold customRoleCheck, ConvertDBRole. simpl. destruct ctx; [|done]. f_equal.
  destruct (_ && _); [done|]. destruct (negb _ && _); [done|]. by destruct (_ && _).
Qed.

Lemma check_role_Done ctx role st st' u : check_role auth ctx role st = (st', Done u) -> st' = st /\ customRoleCheck auth ctx role = inl (Ok tt).
Proof. unfold check_role. by destruct (customRoleCheck auth ctx role) as [[[]|]|]; intros [= -> ]. Qed.

(** Both methods that write a custom role have checked it. *)
Lemma role_written ctx arg d cache st' row :
  q_InsertCustomRole auth ctx arg (d, cache) = (st', Done row) \/ q_UpdateCustomRole auth ctx arg (d, cache) = (st', Done row) ->
  row ∈ a_customRoles (st'.1) /\ customRoleCheck auth ctx row = inl (Ok tt) /\
  (allowed auth ctx ActionCreate (custom_role_object (cr_OrganizationID row)) \/
   allowed auth ctx ActionUpdate (custom_role_object (cr_OrganizationID row))).
Proof.
  unfold q_InsertCustomRole, q_UpdateCustomRole. intros [Hq|Hq];
    apply bind_Done in Hq as (st1 & u & [-> Ha]%authorizeContext_Done & (st2 & u' & [-> Hcheck]%check_role_Done & Hq)%bind_Done); simpl in Hq.
  - unfold InsertCustomRole in Hq. destruct (existsb _ _); [done|]. injection Hq as <- <-. simpl.
    split; [rewrite elem_of_app, list_elem_of_singleton; by right|]. split; [done|]. by left.
  - unfold UpdateCustomRole, update_row, or_no_rows in Hq. destruct (update_first _ _ _) as [[r roles]|] eqn:Hu; [|done]. injection Hq as <- <-.
    apply update_first_split in Hu as (l1 & y & l2 & _ & _ & _ & -> & ->). simpl.
    split; [set_solver|]. split; [|by right]. destruct arg. erewrite customRoleCheck_names. exact Hcheck.
Qed.

(** C17: no escalation.  Whoever gets a custom role into the store, by inserting
    it or by updating one, may himself, on every object, everything that the role
    as it is stored lets anyone with his identifier do to the object who has only
    this role; and his own scope permits it.  (His roles are taken to be of
    organizations that have an identifier.) *)
Theorem no_escalation act arg d cache st' row input action object groups scope :
  q_InsertCustomRole auth (Some act) arg (d, cache) = (st', Done row) \/
  q_UpdateCustomRole auth (Some act) arg (d, cache) = (st', Done row) ->
  input_of act input -> ~ is_member input "" ->
  row ∈ a_customRoles (st'.1) /\
  exists rbacRole, ConvertDBRole row = Ok rbacRole /\ Role_Valid rbacRole = [] /\
    (role_allow (mkAuthSubject (s_ID act) [rbacRole] groups scope) action object = true ->
     role_allow input action object = true /\ scope_site input action object = 1).
Proof.
  intros Hq Hin Hmem. destruct (role_written _ _ _ _ _ _ Hq) as (Hrow & Hcheck & _). split; [done|].
  pose proof (customRoleCheck_converts _ _ Hcheck) as Hok. destruct (ConvertDBRole row) as [rbacRole|] eqn:Hconv; [|done].
  exists rbacRole. split; [done|]. split; [by apply Role_Valid_ok, (customRoleCheck_Ok act row)|].
  rewrite !role_allow_iff. intros Hr. destruct (custom_role_bounded _ _ _ _ _ _ _ _ Hcheck Hconv Hin Hmem Hr) as [Ha Hs].
  split; [done|]. unfold scope_site, site_allow. simpl. rewrite app_nil_r. by apply level_permits.
Qed.
End Escalation.

(** ** Who changes whose roles *)

Section Assigning.
Context `{MapRange} `{UuidText} (builtInRoles : gmap string (uuid -> Role)).
Context (auth : Subject -> Action -> Object -> option authz_error) (ctx : Ctx).

(** A role of the scope that is assigned: one of the site, or one of the
    organization. *)
Definition of_scope (orgID : option uuid) (r : RoleIdentifier) : Prop :=
  match orgID with None => ri_OrganizationID r = uuid_Nil | Some org => ri_OrganizationID r = org /\ org <> uuid_Nil end.

Lemma check_granted_Ok orgID granted custom : check_granted builtInRoles orgID granted = Ok custom ->
  Forall (of_scope orgID) granted /\ forall r, r ∈ custom <-> r ∈ granted /\ is_ok (RoleByName builtInRoles r) = false.
Proof.
  revert custom. induction granted as [|r granted IH]; simpl; intros custom Hc.
  - injection Hc as <-. split; [done|]. set_solver.
  - apply bind_Ok in Hc as (u & Hs & (rest & Hrest & [= <-])%bind_Ok). destruct (IH rest Hrest) as [Hall Hcustom]. split.
    + constructor; [|done]. unfold of_scope. destruct orgID as [org|].
      * destruct (N.eqb_spec (ri_OrganizationID r) uuid_Nil); [done|]. simpl in Hs.
        destruct (N.eqb_spec (ri_OrganizationID r) org) as [<-|]; done.
      * by destruct (N.eqb_spec (ri_OrganizationID r) uuid_Nil).
    + intros x. destruct (is_ok (RoleByName builtInRoles r)) eqn:Hr; rewrite ?elem_of_cons, Hcustom; naive_solver congruence.
Qed.

Lemma check_custom_Done custom d cache st' u : check_custom builtInRoles custom (d, cache) = (st', Done u) -> st'.1 = d.
Proof.
  unfold check_custom. destruct (Nat.eqb _ 0); [by intros [= <- _]|].
  intros (st1 & expanded & He & Hr)%bind_Done. assert (Hd : st1.1 = d).
  { unfold wrapz, expand_custom in He. destruct (Expand _ _ _ _) as [[roles|] c]; [by injection He as <- _|done]. }
  destruct (Nat.eqb _ _); [by injection Hr as <- _|]. destruct (find_first _ _); [done|by injection Hr as <- _].
Qed.

Lemma check_assignable_Done actor custom granted st st' u : check_assignable actor custom granted st = (st', Done u) ->
  st' = st /\ forall r, r ∈ granted -> exists roles, s_Roles actor = Some roles /\ CanAssignRole roles (assignable_as custom r) = true.
Proof.
  induction granted as [|r granted IH]; simpl; [intros [= <- _]; split; [done|set_solver]|].
  destruct (s_Roles actor) as [roles|]; [|done]. destruct (CanAssignRole roles _) eqn:Hr; simpl; [|done].
  intros [-> Hall]%IH. split; [done|]. intros x [->|Hx]%elem_of_cons; [by exists roles|by apply Hall].
Qed.

(** What a change of roles that is let through has passed. *)
Lemma canAssignRoles_Done orgID added removed d cache st' u :
  canAssignRoles builtInRoles auth ctx orgID added removed (d, cache) = (st', Done u) ->
  st'.1 = d /\ exists actor, ctx = Some actor /\
    let roleAssign := match orgID with Some org => InOrg org ResourceAssignOrgRole | None => ResourceAssignRole end in
    (added <> [] -> auth actor ActionAssign roleAssign = None) /\ (removed <> [] -> auth actor ActionDelete roleAssign = None) /\
    forall r, r ∈ added ++ removed -> of_scope orgID r /\
      exists roles, s_Roles actor = Some roles /\
        CanAssignRole roles (if is_ok (RoleByName builtInRoles r) then r
                             else match orgID with None => CustomSiteRole | Some org => CustomOrganizationRole org end) = true.
Proof.
  unfold canAssignRoles. intros (st1 & actor & Hctx & Hr)%bind_Done.
  unfold ActorFromContext in Hctx. destruct ctx as [act|] eqn:Hsome; [|done]. injection Hctx as <- <-.
  destruct (check_granted _ _ _) as [custom|e] eqn:Hc; [|done]. apply check_granted_Ok in Hc as [Hscope Hcustom].
  apply bind_Done in Hr as (st2 & u2 & Hd%check_custom_Done & (st3 & u3 & Hadd & (st4 & u4 & Hrem & Hass)%bind_Done)%bind_Done).
  apply check_assignable_Done in Hass as [-> Hass].
  assert (Hauth : forall (l : list RoleIdentifier) action o (s s' : RState) v,
    (if Nat.ltb 0 (length l) then authorizeContext auth (Some act) action o else mret tt) s = (s', Done v) ->
    s' = s /\ (l <> [] -> auth act action o = None)).
  { intros l action o s s' v Hl. destruct l; simpl in Hl; [by injection Hl as <-|].
    apply authorizeContext_Done in Hl as [-> (act' & [= <-] & Ha)]. done. }
  apply Hauth in Hadd as [-> Hadd], Hrem as [-> Hrem]. split; [done|]. exists act. split; [done|]. split; [done|]. split; [done|].
  intros r Hr. rewrite Forall_forall in Hscope. specialize (Hscope r Hr). split; [done|].
  destruct (Hass r Hr) as (roles & Hroles & Hcan). exists roles. split; [done|]. unfold assignable_as in Hcan.
  destruct (is_ok (RoleByName builtInRoles r)) eqn:Hok.
  - rewrite bool_decide_eq_false_2 in Hcan; [done|]. rewrite Hcustom. intros [_ ?]. congruence.
  - rewrite bool_decide_eq_true_2 in Hcan by (by apply Hcustom). unfold IsOrgRole, of_scope in *. destruct orgID as [org|].
    + destruct Hscope as [Ho Hne]. apply N.eqb_neq in Hne. by rewrite Ho, Hne in Hcan.
    + by rewrite Hscope in Hcan.
Qed.
End Assigning.

(** *** Nobody but an owner *)

(** A subject that holds no role named as one that may assign everything: the
    owner's, and the server's own ([AsSystemRestricted]). *)
Definition no_owner (s : Subject) : Prop :=
  forall roles n, s_Roles s = Some roles -> n ∈ Names roles -> ri_Name n <> owner /\ ri_Name n <> "system".

(** A subject that holds the administrator's role of the organization (or one
    of that name and of no organization, which does not expand). *)
Definition administers (s : Subject) (org : uuid) : Prop :=
  exists roles n, s_Roles s = Some roles /\ n ∈ Names roles /\ ri_Name n = orgAdmin /\
    (ri_OrganizationID n = org \/ ri_OrganizationID n = uuid_Nil).

Lemma no_owner_assigns act roles assigned :
  no_owner act -> s_Roles act = Some roles -> CanAssignRole roles assigned = true ->
  ri_Name assigned ∈ [member; orgMember] \/
  (ri_Name assigned ∈ customOrganizationRole :: org_names /\ administers act (ri_OrganizationID assigned)).
Proof.
  intros Hno Hroles (my & Hmy & Horg & names & Hn & Ha)%can_assign_true. destruct (Hno roles my Hroles Hmy) as [Hown Hsys].
  apply assignRoles_elem in Hn as [[?|?]|[[_ ->]|[[Hadm ->]|[_ ->]]]]; [done..| | |].
  - left. set_solver.
  - right. split; [|exists roles, my; split; [done|]; split; [done|]; split; [done|]; tauto].
    apply elem_of_list_to_set in Ha. repeat (apply elem_of_cons in Ha as [->|Ha]); [..|by apply not_elem_of_nil in Ha].
    all: by apply (bool_decide_unpack _); vm_compute.
  - left. set_solver.
Qed.

Lemma assigned_site_role (n : string) : n ∈ site_names -> n ∈ [member; orgMember] \/ n ∈ customOrganizationRole :: org_names -> n = member.
Proof.
  intros Hn [Hm|Ho].
  - apply elem_of_cons in Hm as [->|Hm]; [done|]. apply list_elem_of_singleton in Hm as ->. by apply (bool_decide_pack _) in Hn; vm_compute in Hn.
  - apply elem_of_cons in Ho as [->|Ho]; [by apply (bool_decide_pack _) in Hn; vm_compute in Hn|]. by apply names_disjoint in Hn.
Qed.

Section NobodyButAnOwner.
Context `{MapRange} `{UuidText} (opts strict : bool).
Notation builtIn := (ReloadBuiltinRoles opts).
Notation auth := (Authorize builtIn strict).
Context (act : Subject) (Hno : no_owner act).

Lemma RoleByName_scoped n : is_ok (RoleByName builtIn n) = true -> well_scoped n.
Proof.
  intros Hok. destruct (RoleByName_shape builtIn (builtin_shape opts) n) as [_ Hn]. unfold well_scoped in *.
  destruct (decide (ri_Name n ∈ site_names /\ ri_OrganizationID n = uuid_Nil)); [by left|].
  destruct (decide (ri_Name n ∈ org_names /\ ri_OrganizationID n <> uuid_Nil)); [by right|].
  rewrite Hn in Hok by tauto. done.
Qed.

(** The changes of site roles that are let through are of the member role. *)
Lemma site_changes added removed d cache st' u :
  canAssignRoles builtIn auth (Some act) None added removed (d, cache) = (st', Done u) ->
  st'.1 = d /\ forall r, r ∈ added ++ removed -> r = RoleMember.
Proof.
  intros (Hd & actor & [= <-] & _ & _ & Hall)%canAssignRoles_Done. split; [done|]. intros r Hr.
  destruct (Hall r Hr) as (Hscope & roles & Hroles & Hcan). simpl in Hscope.
  assert (Hname : ri_Name r = member); [|destruct r; simpl in *; by subst].
  destruct (is_ok (RoleByName builtIn r)) eqn:Hok; apply (no_owner_assigns act roles _ Hno Hroles) in Hcan.
  - destruct (RoleByName_scoped r Hok) as [[Hn _]|[_ Hne]]; [|done]. apply assigned_site_role; [done|tauto].
  - destruct Hcan as [Hc|[Hc _]]; by apply (bool_decide_pack _) in Hc; vm_compute in Hc.
Qed.

(** The changes of an organization's roles that are let through are of the
    organization's member role, but for its administrators. *)
Lemma org_changes org added removed d cache st' u :
  canAssignRoles builtIn auth (Some act) (Some org) added removed (d, cache) = (st', Done u) ->
  st'.1 = d /\ forall r, r ∈ added ++ removed -> ri_OrganizationID r = org /\ org <> uuid_Nil /\
    (r = ScopedRoleOrgMember org \/ administers act org).
Proof.
  intros (Hd & actor & [= <-] & _ & _ & Hall)%canAssignRoles_Done. split; [done|]. intros r Hr.
  destruct (Hall r Hr) as ([Hscope Hne] & roles & Hroles & Hcan). split; [done|]. split; [done|].
  destruct (is_ok (RoleByName builtIn r)) eqn:Hok; apply (no_owner_assigns act roles _ Hno Hroles) in Hcan.
  - destruct Hcan as [Hm|[_ Ha]]; [left|right; by rewrite <- Hscope].
    destruct (RoleByName_scoped r Hok) as [[_ Ho]|[Hn _]]; [congruence|].
    destruct r as [n o]; simpl in *; subst o. apply elem_of_cons in Hm as [->|Hm%list_elem_of_singleton].
    + by apply (bool_decide_pack _) in Hn; vm_compute in Hn.
    + by subst.
  - destruct Hcan as [Hm|[_ Ha]]; [by apply (bool_decide_pack _) in Hm; vm_compute in Hm|by right].
Qed.

(** A change that only concerns the roles of a kind leaves the others. *)
Lemma unchanged_roles from to added removed (P : RoleIdentifier -> Prop) :
  ChangeRoleSet from to = (added, removed) -> (forall r, r ∈ added ++ removed -> P r) ->
  forall r, ~ P r -> r ∈ to <-> r ∈ from.
Proof.
  intros (Hto & Hadd & Hrem & _)%ChangeRoleSet_correct HP r Hr. rewrite Hto. setoid_rewrite elem_of_app in HP.
  split; [intros [[? _]|?]; [done|]|intros ?; left; split; [done|intros ?]]; destruct Hr; apply HP; tauto.
Qed.

Lemma deployment_role_elem (names : list string) n : site_role n ∈ convertToDeploymentRoles names <-> n ∈ names.
Proof.
  unfold convertToDeploymentRoles. rewrite list_elem_of_fmap. split; [by intros (? & [= ->] & ?)|].
  intros ?. by exists n.
Qed.

(** C18: only owners, and the server itself, change what users are on the site.
    When a call on behalf of an actor none of whose roles is named [owner], or [system]
    as the server's own role is ([AsSystemRestricted], with which it gives a new
    user the roles of its identity provider), succeeds, then, if it updates a user's
    roles, that user keeps every role it had and gets none but [member], and no
    other user changes; and if it inserts a user, the user has no other role. *)
Theorem only_owners_change_site_roles d cache st' user :
  (forall id grantedRoles,
     q_UpdateUserRoles builtIn auth (Some act) id grantedRoles (d, cache) = (st', Done user) ->
     exists old, find_first (fun u => (u_ID u =? id)%N) (a_users d) = Some old /\
       (forall r, r <> member -> r ∈ u_RBACRoles user <-> r ∈ u_RBACRoles old) /\
       forall k, find_first (fun u => (u_ID u =? k)%N) (a_users (st'.1)) =
         if (k =? id)%N then Some user else find_first (fun u => (u_ID u =? k)%N) (a_users d)) /\
  (forall arg, q_InsertUser builtIn auth (Some act) arg (d, cache) = (st', Done user) ->
     forall r, r ∈ u_RBACRoles user -> r = member).
Proof.
  split.
  - intros id granted (st1 & old & [Hold _]%fetchWithAction_guarded & Hq)%bind_Done.
    unfold adb, auth_GetUserByID, or_no_rows in Hold. destruct (find_first _ _) as [old'|] eqn:Hfind; [|done]. injection Hold as <- ->.
    cbv zeta in Hq. destruct (ChangeRoleSet (convertToDeploymentRoles (u_RBACRoles old)) (convertToDeploymentRoles granted ++ [RoleMember]))
      as [added removed] eqn:Hset.
    apply bind_Done in Hq as ([d' c'] & u & [Hd Hall]%site_changes & Hq). simpl in Hd. subst d'.
    unfold UpdateUserRoles, update_user, adb, update_row, or_no_rows in Hq.
    match type of Hq with context [update_first _ ?f _] => destruct (find_update u_ID id f (a_users d) old Hfind eq_refl) as (l' & Hup & Hl') end.
    rewrite Hup in Hq. injection Hq as <- <-.
    exists old. split; [done|]. split; [|done]. intros r Hr. simpl. rewrite unique_granted_elem.
    pose proof (unchanged_roles _ _ _ _ (fun r => r = RoleMember) Hset Hall (site_role r)) as Hkeep.
    rewrite elem_of_app, list_elem_of_singleton, !deployment_role_elem in Hkeep.
    rewrite <- Hkeep by (intros [= ?]; done). split; [by left|]. intros [?|[= ?]]; done.
  - intros arg (st1 & u & [Hd Hall]%site_changes & Hq)%bind_Done r Hr.
    apply bind_Done in Hq as (st2 & act' & Hctx & (st3 & u3 & _ & Hq)%bind_Done).
    unfold adb, InsertUser in Hq. destruct st3 as [d3 c3]. destruct (existsb _ _); [done|]. injection Hq as _ <-. simpl in Hr.
    assert (Heq : site_role r = RoleMember); [|by injection Heq].
    apply Hall. rewrite app_nil_r, elem_of_cons, deployment_role_elem. by right.
Qed.

Lemma convertToOrganizationRoles_Ok org names l : convertToOrganizationRoles org names = Ok l -> l = (fun n => mkIdentifier n org) <$> names.
Proof.
  revert l. induction names as [|n names IH]; simpl; intros l Hl; [by injection Hl as <-|]. destruct (negb _); [done|].
  apply bind_Ok in Hl as (l' & Hl' & [= <-]). by rewrite (IH l' Hl').
Qed.

Lemma filter_loop_sub {O} (obj : O -> Object) authorizes t l l' :
  filter_loop obj authorizes t l = Ok l' -> forall x, x ∈ l' -> x ∈ l.
Proof.
  revert l'. induction l as [|y l IH]; simpl; intros l' Hl; [by injection Hl as <-|]. destruct (negb _); [done|].
  destruct (authorizes _) as [[]|]; [intros x Hx; right; by eapply IH|done|].
  destruct (filter_loop obj authorizes t l) as [l1|]; [|done]. injection Hl as <-.
  intros x [->|Hx]%elem_of_cons; [by left|right; by eapply IH].
Qed.

Lemma Filter_sub {O} (obj : O -> Object) s action l l' : Filter builtIn obj strict s action l = Ok l' -> forall x, x ∈ l' -> x ∈ l.
Proof.
  unfold Filter. destruct l as [|y l]; [by intros [= <-]|]. case_match; [apply filter_loop_sub|].
  intros (? & _ & Hl)%bind_Ok. exact (filter_loop_sub _ _ _ _ _ Hl).
Qed.

Lemma ExpectOne_Ok {A} (l : list A) x : ExpectOne l = Ok x -> l = [x].
Proof. destruct l as [|y [|]]; simpl; [done|by intros [= ->]|done]. Qed.

(** The row that an update of a member's roles starts from. *)
Lemma fetched_member userID orgID d cache st1 members m : userID <> uuid_Nil -> orgID <> uuid_Nil ->
  q_OrganizationMembers (Some act) (Filter builtIn RBACObject strict) (orgID, userID) (d, cache) = (st1, Done members) ->
  ExpectOne members = Ok m ->
  st1 = (d, cache) /\ m ∈ a_organizationMembers d /\ om_UserID m = userID /\ om_OrganizationID m = orgID.
Proof.
  intros Hu Ho (st2 & a & [= <- <-] & (st3 & l & [= <- <-] & Hf)%bind_Done)%bind_Done ->%ExpectOne_Ok.
  destruct (Filter _ _ _ _ _ _) as [l'|] eqn:Hl; [|done]. injection Hf as <- ->. split; [done|].
  assert (Hin := Filter_sub _ _ _ _ _ Hl m (list_elem_of_here _ _)). apply list_elem_of_In, filter_In in Hin as [Hin Hkeep].
  split; [by apply list_elem_of_In|]. apply N.eqb_neq in Hu as Hu', Ho as Ho'. rewrite Hu', Ho' in Hkeep. simpl in Hkeep.
  destruct (N.eqb_spec (om_OrganizationID m) orgID); [|done]. simpl in Hkeep. by destruct (N.eqb_spec (om_UserID m) userID).
Qed.

Lemma org_role_elem org (names : list string) n : mkIdentifier n org ∈ ((fun n => mkIdentifier n org) <$> names) <-> n ∈ names.
Proof. rewrite list_elem_of_fmap. split; [by intros (? & [= ->] & ?)|]. intros ?. by exists n. Qed.

(** Only owners and an organization's administrators change what its members
    are.  When a call on behalf of an actor who is neither succeeds, then, if it
    updates a member's roles, the member keeps every role it had in the
    organization and gets none but [organization-member]; and if it inserts a
    member, the member has no other role.  (No two rows are of one user and one
    organization.) *)
Lemma only_admins_change_member_roles d cache st' m :
  (forall x y, x ∈ a_organizationMembers d -> y ∈ a_organizationMembers d ->
     om_UserID x = om_UserID y -> om_OrganizationID x = om_OrganizationID y -> x = y) ->
  (forall userID orgID grantedRoles, userID <> uuid_Nil -> orgID <> uuid_Nil -> ~ administers act orgID ->
     q_UpdateMemberRoles builtIn auth (Some act) (Filter builtIn RBACObject strict) userID orgID grantedRoles (d, cache) = (st', Done m) ->
     exists old, old ∈ a_organizationMembers d /\ om_UserID old = userID /\ om_OrganizationID old = orgID /\
       forall r, r <> orgMember -> r ∈ om_Roles m <-> r ∈ om_Roles old) /\
  (forall arg, ~ administers act (om_OrganizationID arg) ->
     q_InsertOrganizationMember builtIn auth (Some act) arg (d, cache) = (st', Done m) ->
     forall r, r ∈ om_Roles m -> r = orgMember).
Proof.
  intros Hkey. split.
  - intros userID orgID granted Hu Ho Hadm (st1 & members & Hm & Hq)%bind_Done.
    destruct (ExpectOne members) as [old|] eqn:Hone; [|done].
    destruct (fetched_member _ _ _ _ _ _ _ Hu Ho Hm Hone) as (-> & Hin & Huser & Horg).
    destruct (wrap _ _) as [from|] eqn:Hfrom in Hq; [|done]. apply wrap_Ok, convertToOrganizationRoles_Ok in Hfrom as ->.
    destruct (convertToOrganizationRoles orgID granted) as [to|] eqn:Hto; [|done]. apply convertToOrganizationRoles_Ok in Hto as ->.
    cbv zeta in Hq. rewrite Horg in Hq. destruct (ChangeRoleSet _ _) as [added removed] eqn:Hset in Hq.
    apply bind_Done in Hq as ([d' c'] & u & [Hd Hall]%org_changes & Hq). simpl in Hd. subst d'.
    unfold UpdateMemberRoles, adb, update_row, or_no_rows in Hq.
    destruct (update_first _ _ _) as [[m' l']|] eqn:Hup; [|done]. injection Hq as <- <-.
    apply update_first_split in Hup as (l1 & y & l2 & Hl & Hy & _ & -> & _).
    apply andb_true_iff in Hy as [Hy1%N.eqb_eq Hy2%N.eqb_eq].
    assert (y = old) as -> by (apply Hkey; [rewrite Hl; set_solver|done|congruence..]).
    exists old. split; [done|]. split; [done|]. split; [done|]. intros r Hr. simpl. rewrite unique_sorted_elem.
    assert (HP : forall x, x ∈ added ++ removed -> x = ScopedRoleOrgMember orgID) by (intros x Hx; by destruct (Hall x Hx) as (_ & _ & [?|?])).
    pose proof (unchanged_roles _ _ _ _ _ Hset HP (mkIdentifier r orgID)) as Hkeep.
    rewrite elem_of_app, list_elem_of_singleton, !org_role_elem in Hkeep.
    rewrite <- Hkeep by (intros [= ?]; done). split; [by left|]. intros [?|[= ?]]; done.
  - intros arg Hadm Hq r Hr. unfold q_InsertOrganizationMember in Hq.
    destruct (wrap _ _) as [roles|] eqn:Hroles in Hq; [|done]. apply wrap_Ok, convertToOrganizationRoles_Ok in Hroles as ->.
    apply bind_Done in Hq as (st1 & u & [_ Hall]%org_changes & (st2 & act' & _ & (st3 & u3 & _ & Hq)%bind_Done)%bind_Done).
    unfold adb, InsertOrganizationMember in Hq. destruct st3 as [d3 c3]. destruct (existsb _ _); [done|]. injection Hq as _ <-.
    destruct (Hall (mkIdentifier r (om_OrganizationID arg))) as (_ & _ & [[= ?]|?]); [|done..].
    rewrite app_nil_r, elem_of_app, org_role_elem. by left.
Qed.
End NobodyButAnOwner.

(** The name of the actor of the system is not reserved, and its roles may be
    assigned by whoever bears it: a custom role of an organization that is named
    [system] lets its holder make administrators there. *)
Lemma system_name_unreserved `{MapRange} `{UuidText} opts org :
  ReservedRoleName (ReloadBuiltinRoles opts) "system" = false /\
  CanAssignRole (RoleIdentifiers [mkIdentifier "system" org]) (ScopedRoleOrgAdmin org) = true.
Proof.
  split.
  - unfold ReservedRoleName. destruct (builtin_shape opts) as (Hdom & _). apply bool_decide_eq_false_2. rewrite <- elem_of_dom, Hdom.
    rewrite elem_of_list_to_set. apply (bool_decide_unpack _). by vm_compute.
  - unfold CanAssignRole. apply can_assign_true. exists (mkIdentifier "system" org). split; [by left|]. split; [by right|].
    exists site_assignable. split; [unfold assignRoles; by rewrite list_to_map_cons, lookup_insert_eq|].
    unfold site_assignable. rewrite elem_of_list_to_set. by apply (bool_decide_unpack _); vm_compute.
Qed.

(** ** Examples *)

Module Examples.
#[local] Existing Instance Rbac.Examples.text.
#[local] Existing Instance Rbac.Examples.parse.

Definition builtin : gmap string (uuid -> Role) := ReloadBuiltinRoles false.
Definition auth : Subject -> Action -> Object -> option authz_error := Authorize builtin true.
Definition user_with (names : list RoleIdentifier) : Subject :=
  mkSubject "" "111" (Some (RoleIdentifiers names)) [] (Some (ScopeName ScopeAll)).
Definition admin : Subject := user_with [RoleMember; ScopedRoleOrgAdmin 7].
Definition user_admin : Subject := user_with [RoleMember; RoleUserAdmin].

Definition alice : User := mkUser 9 "alice" UserActive false "" ["auditor"] zeroTime zeroTime LoginTypePassword zeroTime.
Definition bob_member : OrganizationMember := mkMember 8 7 zeroTime zeroTime [].
Definition store : AuthData := mkAuthData [alice] [bob_member] [] [] [] [] [] [].

Definition reader : CustomRole := mkCustomRole "reader" "Reader" [] [mkCustomPermission false "template" "read"] [] (Some 7%N).
Definition site_reader : CustomRole := mkCustomRole "reader" "Reader" [mkCustomPermission false "template" "read"] [] [] None.

Definition result_of {St A} (r : St * outcome A) : option A := match r.2 with Done a => Some a | Failed _ => None end.
Definition inserts (role : CustomRole) := q_InsertCustomRole auth (Some admin) role (store, ∅).

(** An organization's administrator defines a role there, but none of the site. *)
Example defines_role : result_of (inserts reader) = Some reader /\ result_of (inserts site_reader) = None.
Proof. by vm_compute. Qed.

Definition admin_input : authSubject :=
  match regoInputValue builtin admin (RoleIdentifiers [RoleMember; ScopedRoleOrgAdmin 7]) (ScopeName ScopeAll) with
  | Ok input => input | Err _ => mkAuthSubject "" [] [] (mkScope memberRole []) end.

Lemma no_escalation_witness :
  reader ∈ a_customRoles (inserts reader).1.1 /\
  exists rbacRole, ConvertDBRole reader = Ok rbacRole /\ Role_Valid rbacRole = [] /\
    (role_allow (mkAuthSubject "111" [rbacRole] [] (as_Scope admin_input)) ActionRead (InOrg 7 ResourceTemplate) = true ->
     role_allow admin_input ActionRead (InOrg 7 ResourceTemplate) = true /\ scope_site admin_input ActionRead (InOrg 7 ResourceTemplate) = 1).
Proof.
  apply (no_escalation builtin true admin reader store ∅ (inserts reader).1 reader admin_input).
  - left. by vm_compute.
  - exists (RoleIdentifiers [RoleMember; ScopedRoleOrgAdmin 7]), (ScopeName ScopeAll). split; [reflexivity|]. split; [reflexivity|]. by vm_compute.
  - rewrite <- org_members_elem. by apply (bool_decide_unpack _); vm_compute.
Defined.

Lemma no_owner_user_admin : no_owner user_admin.
Proof. intros roles n Hr Hn. injection Hr as <-. simpl in Hn. repeat (apply elem_of_cons in Hn as [->|Hn]); [done..|by apply elem_of_nil in Hn]. Qed.

(** A user administrator confirms an auditor's role, and may not make an owner. *)
Definition updates (roles : list string) := q_UpdateUserRoles builtin auth (Some user_admin) 9 roles (store, ∅).

Example updates_roles : result_of (updates ["auditor"]) = Some alice /\ result_of (updates ["auditor"; "owner"]) = None /\ result_of (updates []) = None.
Proof. by vm_compute. Qed.

Lemma only_owners_change_site_roles_witness :
  exists old, find_first (fun u => (u_ID u =? 9)%N) (a_users store) = Some old /\
    (forall r, r <> member -> r ∈ u_RBACRoles alice <-> r ∈ u_RBACRoles old) /\
    forall k, find_first (fun u => (u_ID u =? k)%N) (a_users (updates ["auditor"]).1.1) =
      if (k =? 9)%N then Some alice else find_first (fun u => (u_ID u =? k)%N) (a_users store).
Proof.
  apply (proj1 (only_owners_change_site_roles false true user_admin no_owner_user_admin store ∅ (updates ["auditor"]).1 alice) 9%N ["auditor"]).
  by vm_compute.
Defined.

(** It may not give a member of an organization more than membership. *)
Definition member_updates (roles : list string) :=
  q_UpdateMemberRoles builtin auth (Some user_admin) (Filter builtin RBACObject true) 8 7 roles (store, ∅).

Example updates_member : result_of (member_updates []) = Some bob_member /\ result_of (member_updates ["organization-admin"]) = None.
Proof. by vm_compute. Qed.

Lemma only_admins_change_member_roles_witness :
  exists old, old ∈ a_organizationMembers store /\ om_UserID old = 8%N /\ om_OrganizationID old = 7%N /\
    forall r, r <> orgMember -> r ∈ om_Roles bob_member <-> r ∈ om_Roles old.
Proof.
  apply (proj1 (only_admins_change_member_roles false true user_admin no_owner_user_admin store ∅ (member_updates []).1 bob_member
    ltac:(by intros x y ->%list_elem_of_singleton ->%list_elem_of_singleton)) 8%N 7%N []); [done|done| |by vm_compute].
  intros (roles & n & Hr & Hn & Hname & _). injection Hr as <-. simpl in Hn.
  repeat (apply elem_of_cons in Hn as [->|Hn]); [done..|by apply elem_of_nil in Hn].
Defined.
End Examples.
