(* ===== verification/SystemActors.v ===== *)
(** * The actors of the system: [wirtuald/database/dbauthz/dbauthz.go]

    The subjects on whose behalf the daemons of the system use the authorising
    store, and what they may do: what their permissions say, to any object. *)

From Stdlib Require Import Ascii.
From S2P Require Import Prelude GoStrings GoEncoding GoJson Slices Rbac RbacPolicy RoleStore DbAuthz.
Local Open Scope string_scope.
Local Open Scope list_scope.
Local Open Scope Z_scope.

Section Subjects.
Context `{MapRange} `{UuidText}.

(** The form that all of them have. *)
Definition system_subject (friendly name display : string) (site : list Permission) : Subject :=
  mkSubject friendly (uuid_String uuid_Nil) (Some (Roles [mkRole (site_role name) display site ∅ []])) [] (Some (ScopeName ScopeAll)).

Definition provisionerd_perms : list (Object * list Action) :=
  [(ResourceFile, [ActionRead]); (ResourceSystem, [WildcardSymbol]); (ResourceTemplate, [ActionRead; ActionUpdate]);
   (ResourceUser, [ActionRead; ActionReadPersonal; ActionUpdatePersonal]);
   (ResourceWorkspaceDormant, [ActionDelete; ActionRead; ActionUpdate; ActionWorkspaceStop]);
   (ResourceWorkspace, [ActionDelete; ActionRead; ActionUpdate; ActionWorkspaceStart; ActionWorkspaceStop]);
   (ResourceApiKey, [WildcardSymbol]); (ResourceOrganization, [ActionRead]); (ResourceGroup, [ActionRead]);
   (ResourceNotificationMessage, [ActionCreate; ActionRead])].
Definition subjectProvisionerd : Subject :=
  system_subject "Provisioner Daemon" "provisionerd" "Provisioner Daemon" (permissions_of provisionerd_perms).

Definition autostart_perms : list (Object * list Action) :=
  [(ResourceNotificationMessage, [ActionCreate; ActionRead]); (ResourceSystem, [WildcardSymbol]);
   (ResourceTemplate, [ActionRead; ActionUpdate]); (ResourceUser, [ActionRead]);
   (ResourceWorkspace, [ActionDelete; ActionRead; ActionUpdate; ActionWorkspaceStart; ActionWorkspaceStop]);
   (ResourceWorkspaceDormant, [ActionDelete; ActionRead; ActionUpdate; ActionWorkspaceStop])].
Definition subjectAutostart : Subject :=
  system_subject "Autostart" "autostart" "Autostart Daemon" (permissions_of autostart_perms).

Definition hang_detector_perms : list (Object * list Action) :=
  [(ResourceSystem, [WildcardSymbol]); (ResourceTemplate, [ActionRead]); (ResourceWorkspace, [ActionRead; ActionUpdate])].
Definition subjectHangDetector : Subject :=
  system_subject "Hang Detector" "hangdetector" "Hang Detector Daemon" (permissions_of hang_detector_perms).

Definition subjectCryptoKeyRotator : Subject :=
  system_subject "Crypto Key Rotator" "keyrotator" "Key Rotator" (permissions_of [(ResourceCryptoKey, [WildcardSymbol])]).

Definition subjectCryptoKeyReader : Subject :=
  system_subject "Crypto Key Reader" "keyrotator" "Key Rotator" (permissions_of [(ResourceCryptoKey, [WildcardSymbol])]).

Definition subjectNotifier : Subject :=
  system_subject "Notifier" "notifier" "Notifier"
    (permissions_of [(ResourceNotificationMessage, [ActionCreate; ActionRead; ActionUpdate; ActionDelete])]).

Definition system_perms : list (Object * list Action) :=
  [(ResourceWildcard, [ActionRead]);
   (ResourceApiKey, AvailableActions ResourceApiKey);
   (ResourceGroup, [ActionCreate; ActionUpdate]);
   (ResourceAssignRole, AvailableActions ResourceAssignRole);
   (ResourceAssignOrgRole, AvailableActions ResourceAssignOrgRole);
   (ResourceSystem, [WildcardSymbol]);
   (ResourceOrganization, [ActionCreate; ActionRead]);
   (ResourceOrganizationMember, [ActionCreate; ActionDelete; ActionRead]);
   (ResourceProvisionerDaemon, [ActionCreate; ActionUpdate]);
   (ResourceProvisionerKeys, [ActionCreate; ActionRead; ActionDelete]);
   (ResourceUser, AvailableActions ResourceUser);
   (ResourceWorkspaceDormant, [ActionUpdate; ActionDelete; ActionWorkspaceStop]);
   (ResourceWorkspace, [ActionUpdate; ActionDelete; ActionWorkspaceStart; ActionWorkspaceStop; ActionSSH]);
   (ResourceWorkspaceProxy, [ActionCreate; ActionUpdate; ActionDelete]);
   (ResourceDeploymentConfig, [ActionCreate; ActionUpdate; ActionDelete]);
   (ResourceNotificationMessage, [ActionCreate; ActionRead; ActionUpdate; ActionDelete]);
   (ResourceNotificationPreference, [ActionCreate; ActionUpdate; ActionDelete]);
   (ResourceNotificationTemplate, [ActionCreate; ActionUpdate; ActionDelete]);
   (ResourceCryptoKey, [ActionCreate; ActionUpdate; ActionDelete])].
Definition subjectSystemRestricted : Subject := system_subject "System" "system" "Coder" (permissions_of system_perms).

(** The contexts of the daemons. *)
Definition AsProvisionerd : Ctx := Some subjectProvisionerd.
Definition AsAutostart : Ctx := Some subjectAutostart.
Definition AsHangDetector : Ctx := Some subjectHangDetector.
Definition AsKeyRotator : Ctx := Some subjectCryptoKeyRotator.
Definition AsKeyReader : Ctx := Some subjectCryptoKeyReader.
Definition AsNotifier : Ctx := Some subjectNotifier.
Definition AsSystemRestricted : Ctx := Some subjectSystemRestricted.
End Subjects.

(** ** What they may do *)

(** Some permission of the list is about the action on objects of the type. *)
Definition some_matches (action : Action) (type : string) (perms : list Permission) : bool :=
  existsb (fun p => or_wildcard (p_Action p) action && or_wildcard (p_ResourceType p) type) perms.

Section Rights.
Context `{MapRange} `{UuidText} (builtInRoles : gmap string (uuid -> Role)) (strict : bool).

Lemma never_negated l : Forall (fun p => p_Negate p = false) (permissions_of l).
Proof. apply Forall_forall. by intros p [Hn _]%Permissions_elem. Qed.

Lemma permits_matches action object perms :
  Forall (fun p => p_Negate p = false) perms ->
  permits action object perms <-> some_matches action (o_Type object) perms = true.
Proof.
  intros Hn. rewrite Forall_forall in Hn. unfold permits, some_matches. rewrite existsb_exists. setoid_rewrite <- list_elem_of_In. split.
  - intros [(p & Hp & Hm) _]. by exists p.
  - intros (p & Hp & Hm). split; [by exists p|]. intros q Hq _. by apply Hn.
Qed.

(** A system subject may what some of its permissions is about, and nothing
    else, unless an object's access control list names the nil user. *)
Lemma system_subject_allows friendly name display l action object :
  o_AnyOrgOwner object = false ->
  (strict = true -> is_ok (ValidAction object action) = true) ->
  let r := Authorize builtInRoles strict (system_subject friendly name display (permissions_of l)) action object in
  (some_matches action (o_Type object) (permissions_of l) = true -> r = None) /\
  (some_matches action (o_Type object) (permissions_of l) = false -> o_ACLUserList object !! uuid_String uuid_Nil = None -> r = Some Unauthorized).
Proof.
  intros Hany Hvalid. unfold Authorize. replace (if strict then _ else _) with (Ok tt).
  2:{ destruct strict; [|done]. specialize (Hvalid eq_refl). by destruct (ValidAction object action) as [[]|]. }
  unfold authorize. rewrite Hany. cbn [s_Roles s_Scope system_subject andb regoInputValue Subject_regoValue Roles_Expand].
  set (scope := builtin_scope ScopeAll "All operations" (permissions_of [(ResourceWildcard, [WildcardSymbol])])).
  set (input := mkAuthSubject (uuid_String uuid_Nil) [mkRole (site_role name) display (permissions_of l) ∅ []] [] scope).
  assert (Hin : wrap "convert input to value" (regoInputValue builtInRoles (system_subject friendly name display (permissions_of l))
            (Roles [mkRole (site_role name) display (permissions_of l) ∅ []]) (ScopeName ScopeAll)) = Ok input).
  { unfold regoInputValue, Subject_regoValue, Scope_Expand, ExpandScope, builtinScopes.
    rewrite list_to_map_cons, lookup_insert_eq. done. }
  fold scope in Hin. rewrite Hin. clear Hin.
  assert (Hrole : role_spec input action object <-> some_matches action (o_Type object) (permissions_of l) = true).
  { rewrite <- permits_matches by apply never_negated. unfold role_spec. simpl as_Roles. simpl mbind. rewrite !app_nil_r. split; [|by left].
    intros [Hs|(_ & [Ho|(_ & _ & _ & [(p & Hp & _) _])])]; [done| |by apply elem_of_nil in Hp].
    unfold org_permits in Ho. rewrite Hany in Ho. unfold org_permissions in Ho. simpl in Ho. rewrite lookup_empty in Ho.
    destruct Ho as [(p & Hp & _) _]. by apply elem_of_nil in Hp. }
  assert (Hscope : scope_spec input action object).
  { split; [left; by left|]. apply permits_matches; [apply never_negated|]. apply existsb_exists.
    exists (mkPermission false "*" "*"). split; [|unfold or_wildcard; simpl; by rewrite !orb_true_r].
    apply list_elem_of_In, Permissions_elem. split; [done|]. exists ["*"]. split; [by vm_compute|by left]. }
  split.
  - intros Hm. destruct (allow input action object) eqn:Ha; [done|]. assert (allow input action object = true); [|congruence].
    apply policy_correct. split; [done|]. left. by apply Hrole.
  - intros Hm Hacl. destruct (allow input action object) eqn:Ha; [|done].
    apply policy_correct in Ha as [_ [Hr|[(perms & Hp & _)|[Hio _]]]].
    + apply Hrole in Hr. congruence.
    + simpl in Hp. congruence.
    + unfold in_org in Hio. rewrite Hany in Hio. destruct Hio as [_ (r & ->%list_elem_of_singleton & Hid)].
      simpl in Hid. rewrite lookup_empty in Hid. by destruct Hid.
Qed.

(** The list of permissions in one order of ranging over maps, which computes. *)
Definition reference_perms (l : list (Object * list Action)) : list Permission := permissions_of (H:=elements_range) l.

Lemma some_matches_perm action type l l' : l ≡ₚ l' -> some_matches action type l = some_matches action type l'.
Proof.
  intros Hl. apply eq_true_iff_eq. unfold some_matches. rewrite !existsb_exists. setoid_rewrite <- list_elem_of_In. by setoid_rewrite Hl.
Qed.

Lemma reference_matches action type l : some_matches action type (permissions_of l) = some_matches action type (reference_perms l).
Proof. apply some_matches_perm, permissions_of_perm. induction l; constructor; [by split|done]. Qed.
End Rights.

(** The rights of a subject on all objects of a type, computed. *)
Section Computed.
Context `{MapRange} `{UuidText} (builtInRoles : gmap string (uuid -> Role)) (strict : bool).

Lemma system_may friendly name display l action object type :
  o_Type object = type -> o_AnyOrgOwner object = false -> is_ok (ValidAction (object_of_type type) action) = true ->
  some_matches action type (reference_perms l) = true ->
  Authorize builtInRoles strict (system_subject friendly name display (permissions_of l)) action object = None.
Proof.
  intros <- Hany Hvalid Hm. apply system_subject_allows; [done|done|]. by rewrite reference_matches.
Qed.

Lemma system_may_not friendly name display l action object type :
  o_Type object = type -> o_AnyOrgOwner object = false -> o_ACLUserList object = ∅ -> is_ok (ValidAction (object_of_type type) action) = true ->
  some_matches action type (reference_perms l) = false ->
  Authorize builtInRoles strict (system_subject friendly name display (permissions_of l)) action object = Some Unauthorized.
Proof.
  intros <- Hany Hacl Hvalid Hm. apply system_subject_allows; [done|done|by rewrite reference_matches|by rewrite Hacl, lookup_empty].
Qed.
End Computed.

(** The actor that reads keys for the key caches may do everything to them. *)
Lemma key_reader_writes `{MapRange} `{UuidText} builtInRoles strict action : action ∈ crud ->
  Authorize builtInRoles strict subjectCryptoKeyReader action ResourceCryptoKey = None.
Proof.
  intros Ha. apply system_may with (type := "crypto_key"); [done..| |].
  all: repeat (apply elem_of_cons in Ha as [->|Ha]); [by vm_compute..|by apply not_elem_of_nil in Ha].
Qed.

Lemma permissions_of_elem `{MapRange} (l : list (Object * list Action)) o acts action :
  NoDup (o_Type ∘ fst <$> l) -> (o, acts) ∈ l -> action ∈ acts -> mkPermission false (o_Type o) action ∈ permissions_of l.
Proof.
  intros Hnd Hin Ha. apply Permissions_elem. split; [done|]. exists acts. split; [|done].
  apply elem_of_list_to_map_1; [by rewrite <- list_fmap_compose|]. apply list_elem_of_fmap. by exists (o, acts).
Qed.

(** The role of the system actor is not a valid one: it has actions that their
    resource types do not have. *)
Lemma system_role_invalid `{MapRange} `{UuidText} :
  Role_Valid (mkRole (site_role "system") "Coder" (permissions_of system_perms) ∅ []) <> [].
Proof.
  rewrite Role_Valid_ok. intros (Hsite & _ & _). rewrite Forall_forall in Hsite.
  assert (Hin : mkPermission false "deployment_config" ActionDelete ∈ permissions_of system_perms).
  { apply (permissions_of_elem system_perms ResourceDeploymentConfig [ActionCreate; ActionUpdate; ActionDelete]).
    - apply (bool_decide_unpack _). lazy. exact I.
    - unfold system_perms. do 14 right. left.
    - right; right; left. }
  apply Hsite in Hin. by vm_compute in Hin.
Qed.
