(* ===== verification/DbAuthzStore.v ===== *)
(** * The authorising store on workspaces, templates and jobs

    The methods of [wirtuald/database/dbauthz/dbauthz.go] on the tables of Db.v
    and DbBuild.v: what each asks of the authorizer, in the order it asks, and
    then the store's own method.  A method that fails leaves the store as it was
    ([querier_transparent]); the daemons of the system are refused none of
    these methods but in the cases that are named ([daemons_not_refused]).  The methods
    are the 50 of [Op], those the modelled components call, of the several hundred
    that dbauthz has. *)

From Stdlib Require Import Ascii Strings.Byte.
From S2P Require Import Prelude GoStrings GoEncoding GoJson GoTime Slices Db DbBuild Rbac RbacPolicy RoleStore AuthDb DbAuthz SystemActors.
Local Open Scope string_scope.
Local Open Scope list_scope.
Local Open Scope Z_scope.

(** ** Objects *)

Section Objects.
Context `{UuidText}.

Definition WorkspaceTable_RBACObject (w : WorkspaceTable) : Object :=
  let type := if nt_Valid (ws_DormantAt w) then ResourceWorkspaceDormant else ResourceWorkspace in
  WithOwner (uuid_String (ws_OwnerID w)) (InOrg (ws_OrganizationID w) (WithID (ws_ID w) type)).

Definition Template_RBACObject (t : TemplateTable) : Object :=
  WithGroupACL (tpl_GroupACL t) (WithACLUserList (tpl_UserACL t) (InOrg (tpl_OrganizationID t) (WithID (tpl_ID t) ResourceTemplate))).

#[export] Instance WorkspaceTable_Objecter : Objecter WorkspaceTable := WorkspaceTable_RBACObject.
#[export] Instance TemplateTable_Objecter : Objecter TemplateTable := Template_RBACObject.

(** A template version is authorised by its template. *)
Definition version_object (v : TemplateVersion) (template : TemplateTable) : Object := RBACObject template.

Definition RBACObjectNoTemplate (v : TemplateVersion) : Object := InOrg (tv_OrganizationID v) ResourceTemplate.
End Objects.

(** [GetTemplateAccessControl(t).RequireActiveVersion] of the two stores of
    access control settings. *)
Definition AGPLTemplateAccessControlStore (t : TemplateTable) : bool := false.
Definition EnterpriseTemplateAccessControlStore (t : TemplateTable) : bool := tpl_RequireActiveVersion t.

(** The payload of a dry run, of which one field is read. *)
Definition set_dry_run `{UuidParse} (name : string) (v : json) (old : uuid) : result uuid :=
  if for_field "template_version_id" name then unmarshal_uuid v old else Ok old.
Definition dry_run_version `{UuidParse} (input : string) : result uuid :=
  v ← parse_json input; unmarshal_struct set_dry_run uuid_Nil v.

(** ** The methods *)

Section Querier.
Context `{UuidText} `{UuidParse} (auth : Subject -> Action -> Object -> option authz_error) (acs : TemplateTable -> bool) (ctx : Ctx).

Definition read {A} (f : Data -> result A) : Call Data A := store_call (db_read f).

Definition q_InTx {A} (function : Call Data A) : Call Data A := function.

Definition q_GetUserByID (id : uuid) : Call Data User := fetch auth ctx (fun id => read (getUserByIDNoLock id)) id.

Definition q_UpdateUserQuietHoursSchedule (id : uuid) (schedule : string) : Call Data User :=
  u ← read (getUserByIDNoLock id);
  _ ← authorizeContext auth ctx ActionUpdatePersonal (RBACObject u);
  store_call (UpdateUserQuietHoursSchedule id schedule).

(** *** Workspaces *)

Definition q_GetWorkspaceByID (id : uuid) : Call Data WorkspaceTable := fetch auth ctx (fun id => read (getWorkspaceByIDNoLock id)) id.

(** The rows of the view have the fields of the table here. *)
Definition q_UpdateWorkspaceDormantDeletingAt (now : Time) (id : uuid) (dormantAt : NullTime) : Call Data WorkspaceTable :=
  updateWithReturn auth ctx (fun '(id, _) => read (getWorkspaceByIDNoLock id))
    (fun '(id, dormantAt) => store_call (UpdateWorkspaceDormantDeletingAt now id dormantAt)) (id, dormantAt).

Definition q_UpdateWorkspaceDeletedByID (id : uuid) (deleted : bool) : Call Data unit :=
  deleteQ auth ctx (fun '(id, _) => read (getWorkspaceByIDNoLock id))
    (fun '(id, deleted) => store_call (UpdateWorkspaceDeletedByID id deleted)) (id, deleted).

Definition q_ActivityBumpWorkspace (now : Time) (workspaceID : uuid) (nextAutostart : Time) : Call Data unit :=
  update auth ctx (fun '(workspaceID, _) => read (getWorkspaceByIDNoLock workspaceID))
    (fun '(workspaceID, nextAutostart) => store_call (ActivityBumpWorkspace now workspaceID nextAutostart)) (workspaceID, nextAutostart).

Definition q_GetWorkspacesEligibleForTransition (now : Time) : Call Data (list (uuid * string)) :=
  read (GetWorkspacesEligibleForTransition now).

(** *** Templates *)

Definition q_GetTemplateByID (id : uuid) : Call Data TemplateTable := fetch auth ctx (fun id => read (getTemplateByIDNoLock id)) id.

Definition q_UpdateTemplateScheduleByID (now : Time) (arg : UpdateTemplateScheduleByIDParams) : Call Data unit :=
  update auth ctx (fun arg => read (getTemplateByIDNoLock (uts_ID arg)))
    (fun arg => store_call (UpdateTemplateScheduleByID now arg)) arg.

Definition q_UpdateWorkspacesDormantDeletingAtByTemplateID (templateID : uuid) (autodeleteMs : Z) (dormantAt : Time)
    : Call Data (list WorkspaceTable) :=
  template ← wrapz "get template by id" (read (getTemplateByIDNoLock templateID));
  _ ← authorizeContext auth ctx ActionUpdate (RBACObject template);
  store_call (UpdateWorkspacesDormantDeletingAtByTemplateID templateID autodeleteMs dormantAt).

(** An actor may read a version whose template it may read; a version without
    one, if it may read a template of the organization. *)
Definition read_version (tv : TemplateVersion) : Call Data TemplateVersion :=
  match tv_TemplateID tv with
  | None => _ ← authorizeContext auth ctx ActionRead (InOrg (tv_OrganizationID tv) ResourceTemplate); mret tv
  | Some id => _ ← q_GetTemplateByID id; mret tv
  end.

Definition q_GetTemplateVersionByID (tvid : uuid) : Call Data TemplateVersion :=
  tv ← read (getTemplateVersionByIDNoLock tvid); read_version tv.

Definition q_GetTemplateVersionByJobID (jobID : uuid) : Call Data TemplateVersion :=
  tv ← read (GetTemplateVersionByJobID jobID); read_version tv.

(** The object of a version: that of the template if there is one. *)
Definition template_or_none (tv : TemplateVersion) : Call Data Object := fun d =>
  match getTemplateByIDNoLock (default uuid_Nil (tv_TemplateID tv)) d with
  | Err e => if String.eqb e ErrNoRows then (d, Done (InOrg (tv_OrganizationID tv) ResourceTemplate)) else (d, Failed (StoreError e))
  | Ok template => (d, Done (version_object tv template))
  end.

Definition object_of_version (tvid : uuid) : Call Data Object :=
  tv ← read (getTemplateVersionByIDNoLock tvid); template_or_none tv.

Definition q_GetTemplateVersionParameters (tvid : uuid) : Call Data (list TemplateVersionParameter) :=
  object ← object_of_version tvid;
  _ ← authorizeContext auth ctx ActionRead object;
  read (GetTemplateVersionParameters tvid).

Definition q_GetTemplateVersionVariables (tvid : uuid) : Call Data (list TemplateVersionVariable) :=
  object ← object_of_version tvid;
  _ ← authorizeContext auth ctx ActionRead object;
  read (GetTemplateVersionVariables tvid).

Definition q_GetTemplateVersionWorkspaceTags (tvid : uuid) : Call Data (list TemplateVersionWorkspaceTag) :=
  object ← object_of_version tvid;
  _ ← authorizeContext auth ctx ActionRead object;
  read (GetTemplateVersionWorkspaceTags tvid).

(** The object of the version that a job imports. *)
Definition object_of_import (jobID : uuid) : Call Data Object :=
  tv ← read (GetTemplateVersionByJobID jobID);
  match tv_TemplateID tv with
  | None => mret (RBACObjectNoTemplate tv)
  | Some id => tpl ← read (getTemplateByIDNoLock id); mret (version_object tv tpl)
  end.

Definition q_GetParameterSchemasByJobID (jobID : uuid) : Call Data (list ParameterSchema) :=
  object ← object_of_import jobID;
  _ ← authorizeContext auth ctx ActionRead object;
  read (GetParameterSchemasByJobID jobID).

Definition q_UpdateTemplateVersionDescriptionByJobID (jobID : uuid) (readme : string) (updatedAt : Time) : Call Data unit :=
  obj ← object_of_import jobID;
  _ ← authorizeContext auth ctx ActionUpdate obj;
  store_call (UpdateTemplateVersionDescriptionByJobID jobID readme updatedAt).

Definition q_UpdateTemplateVersionExternalAuthProvidersByJobID (jobID : uuid) (providers : string) (updatedAt : Time) : Call Data unit :=
  obj ← object_of_import jobID;
  _ ← authorizeContext auth ctx ActionUpdate obj;
  store_call (UpdateTemplateVersionExternalAuthProvidersByJobID jobID providers updatedAt).

(** *** Builds *)

Definition q_GetLatestWorkspaceBuildByWorkspaceID (workspaceID : uuid) : Call Data WorkspaceBuild :=
  _ ← q_GetWorkspaceByID workspaceID; read (getLatestWorkspaceBuildByWorkspaceIDNoLock workspaceID).

Definition q_GetLatestWorkspaceBuildsByWorkspaceIDs (ids : list uuid) : Call Data (list WorkspaceBuild) :=
  _ ← authorizeContext auth ctx ActionRead ResourceSystem; read (GetLatestWorkspaceBuildsByWorkspaceIDs ids).

Definition q_GetActiveWorkspaceBuildsByTemplateID (templateID : uuid) : Call Data (list WorkspaceBuild) :=
  _ ← authorizeContext auth ctx ActionRead ResourceSystem; read (GetActiveWorkspaceBuildsByTemplateID templateID).

Definition q_GetWorkspaceBuildByID (buildID : uuid) : Call Data WorkspaceBuild :=
  build ← read (getWorkspaceBuildByIDNoLock buildID); _ ← q_GetWorkspaceByID (wb_WorkspaceID build); mret build.

Definition q_GetWorkspaceBuildByJobID (jobID : uuid) : Call Data WorkspaceBuild :=
  build ← read (GetWorkspaceBuildByJobID jobID); _ ← q_GetWorkspaceByID (wb_WorkspaceID build); mret build.

Definition q_GetWorkspaceBuildByWorkspaceIDAndBuildNumber (workspaceID : uuid) (number : Z) : Call Data WorkspaceBuild :=
  _ ← q_GetWorkspaceByID workspaceID; read (GetWorkspaceBuildByWorkspaceIDAndBuildNumber workspaceID number).

Definition q_GetWorkspaceBuildParameters (workspaceBuildID : uuid) : Call Data (list WorkspaceBuildParameter) :=
  _ ← q_GetWorkspaceBuildByID workspaceBuildID; read (GetWorkspaceBuildParameters workspaceBuildID).

Definition build_action (t : WorkspaceTransition) : Action :=
  match t with TransitionDelete => ActionDelete | TransitionStop => ActionWorkspaceStop | TransitionStart => ActionWorkspaceStart end.

Definition q_InsertWorkspaceBuild (arg : WorkspaceBuild) : Call Data unit :=
  w ← wrapz "get workspace by id" (read (getWorkspaceByIDNoLock (wb_WorkspaceID arg)));
  _ ← wrapz "authorize context" (authorizeContext auth ctx (build_action (wb_Transition arg)) (RBACObject w));
  _ ← match wb_Transition arg with
      | TransitionStart =>
          t ← wrapz "get template by id" (read (getTemplateByIDNoLock (ws_TemplateID w)));
          if acs t && negb (wb_TemplateVersionID arg =? tpl_ActiveVersionID t)%N
          then wrapz "cannot use non-active version" (authorizeContext auth ctx ActionUpdate (RBACObject t))
          else mret tt
      | _ => mret tt
      end;
  store_call (InsertWorkspaceBuild arg).

(** The workspace of a build, for a change of the build. *)
Definition authorize_build (action : Action) (buildID : uuid) : Call Data unit :=
  build ← read (getWorkspaceBuildByIDNoLock buildID);
  workspace ← read (getWorkspaceByIDNoLock (wb_WorkspaceID build));
  authorizeContext auth ctx action (RBACObject workspace).

Definition q_InsertWorkspaceBuildParameters (buildID : uuid) (names values : list string) : Call Data unit :=
  _ ← authorize_build ActionUpdate buildID; store_call (InsertWorkspaceBuildParameters buildID names values).

Definition q_UpdateWorkspaceBuildDeadlineByID (id : uuid) (updatedAt deadline maxDeadline : Time) : Call Data unit :=
  _ ← authorize_build ActionUpdate id; store_call (UpdateWorkspaceBuildDeadlineByID id updatedAt deadline maxDeadline).

(** A method of the system: it is authorised by the system object. *)
Definition system_call {A} (action : Action) (m : DB A) : Call Data A :=
  _ ← authorizeContext auth ctx action ResourceSystem; store_call m.

Definition q_UpdateWorkspaceBuildProvisionerStateByID (id : uuid) (updatedAt : Time) (state : list byte) : Call Data unit :=
  system_call ActionUpdate (UpdateWorkspaceBuildProvisionerStateByID id updatedAt state).

(** *** Jobs *)

Definition authorizedTemplateVersionFromJob (job : ProvisionerJob) : Call Data TemplateVersion :=
  match pj_Type job with
  | JobTemplateVersionDryRun =>
      match wrap "dry-run unmarshal" (dry_run_version (pj_Input job)) with
      | Err e => fail (StoreError e)
      | Ok id => q_GetTemplateVersionByID id
      end
  | JobTemplateVersionImport => q_GetTemplateVersionByJobID (pj_ID job)
  | JobWorkspaceBuild => fail (StoreError ("unknown job type: " +:+ Quote "workspace_build"))
  end.

Definition q_GetProvisionerJobByID (id : uuid) : Call Data ProvisionerJob :=
  job ← read (getProvisionerJobByIDNoLock id);
  match pj_Type job with
  | JobWorkspaceBuild => _ ← q_GetWorkspaceBuildByJobID id; mret job
  | _ => _ ← authorizedTemplateVersionFromJob job; mret job
  end.

Definition q_GetHungProvisionerJobs (hungSince : Time) : Call Data (list ProvisionerJob) :=
  read (fun d => Ok (GetHungProvisionerJobs hungSince d)).

Definition q_GetProvisionerJobsByIDsWithQueuePosition (ids : list uuid) : Call Data (list JobWithQueue) :=
  read (fun d => Ok (GetProvisionerJobsByIDsWithQueuePosition ids d)).

Definition q_GetProvisionerLogsAfterID (jobID : uuid) (createdAfter : Z) : Call Data (list ProvisionerJobLog) :=
  _ ← q_GetProvisionerJobByID jobID; read (GetProvisionerLogsAfterID jobID createdAfter).

Definition q_AcquireProvisionerJob (arg : AcquireProvisionerJobParams) : Call Data ProvisionerJob := store_call (AcquireProvisionerJob arg).
Definition q_InsertProvisionerJob (arg : InsertProvisionerJobParams) : Call Data ProvisionerJob := store_call (InsertProvisionerJob arg).
Definition q_InsertProvisionerJobLogs (jobID : uuid) (rows : list NewLog) : Call Data (list ProvisionerJobLog) :=
  store_call (InsertProvisionerJobLogs jobID rows).
Definition q_UpdateProvisionerJobByID (id : uuid) (updatedAt : Time) : Call Data unit := store_call (UpdateProvisionerJobByID id updatedAt).
Definition q_UpdateProvisionerJobWithCompleteByID (id : uuid) (updatedAt : Time) (completedAt : NullTime) (error errorCode : NullString)
    : Call Data unit := store_call (UpdateProvisionerJobWithCompleteByID id updatedAt completedAt error errorCode).

Definition q_UpdateProvisionerJobWithCancelByID (id : uuid) (canceledAt completedAt : NullTime) : Call Data unit :=
  job ← read (getProvisionerJobByIDNoLock id);
  _ ← match pj_Type job with
      | JobWorkspaceBuild =>
          build ← read (GetWorkspaceBuildByJobID id);
          workspace ← read (getWorkspaceByIDNoLock (wb_WorkspaceID build));
          template ← read (getTemplateByIDNoLock (ws_TemplateID workspace));
          _ ← (if negb (tpl_AllowUserCancelWorkspaceJobs template) then
                 actor ← ActorFromContext ctx;
                 match s_Roles actor with
                 (* the names of a nil [Roles] cannot be asked for *)
                 | None => fail (StoreError "invalid memory address or nil pointer dereference")
                 | Some roles =>
                     if negb (Contains (Names roles) RoleOwner) then fail (StoreError "only owners can cancel workspace builds") else mret tt
                 end
               else mret tt);
          authorizeContext auth ctx ActionUpdate (RBACObject workspace)
      | _ =>
          templateVersion ← authorizedTemplateVersionFromJob job;
          match tv_TemplateID templateVersion with
          | Some tid =>
              template ← read (getTemplateByIDNoLock tid);
              authorizeContext auth ctx ActionUpdate (version_object templateVersion template)
          | None => authorizeContext auth ctx ActionUpdate (RBACObjectNoTemplate templateVersion)
          end
      end;
  store_call (UpdateProvisionerJobWithCancelByID id canceledAt completedAt).

(** *** What provisioning leaves *)

Definition q_InsertTemplateVersionWorkspaceTag (t : TemplateVersionWorkspaceTag) := system_call ActionCreate (InsertTemplateVersionWorkspaceTag t).
Definition q_InsertTemplateVersionVariable (v : TemplateVersionVariable) := system_call ActionCreate (InsertTemplateVersionVariable v).
Definition q_InsertTemplateVersionParameter (p : TemplateVersionParameter) := system_call ActionCreate (InsertTemplateVersionParameter p).
Definition q_InsertWorkspaceResource (w : WorkspaceResource) := system_call ActionCreate (InsertWorkspaceResource w).
Definition q_InsertWorkspaceResourceMetadata (resourceID : uuid) (rows : list (string * string * bool)) :=
  system_call ActionCreate (InsertWorkspaceResourceMetadata resourceID rows).
Definition q_InsertWorkspaceModule (m : WorkspaceModule) := system_call ActionCreate (InsertWorkspaceModule m).
Definition q_InsertWorkspaceAgent (a : WorkspaceAgent) := system_call ActionCreate (InsertWorkspaceAgent a).
Definition q_InsertWorkspaceAgentScripts (l : list WorkspaceAgentScript) := system_call ActionCreate (InsertWorkspaceAgentScripts l).
Definition q_InsertWorkspaceApp (a : WorkspaceApp) := system_call ActionCreate (InsertWorkspaceApp a).
Definition q_InsertWorkspaceAgentMetadata (m : WorkspaceAgentMetadatum) := system_call ActionCreate (InsertWorkspaceAgentMetadata m).
Definition q_InsertWorkspaceAgentLogSources (l : list WorkspaceAgentLogSource) : Call Data (list WorkspaceAgentLogSource) :=
  store_call (InsertWorkspaceAgentLogSources l).
End Querier.

(** ** The methods as one type of operations *)

Inductive Op : Type -> Type :=
| O_GetUserByID (id : uuid) : Op User
| O_UpdateUserQuietHoursSchedule (id : uuid) (schedule : string) : Op User
| O_GetWorkspaceByID (id : uuid) : Op WorkspaceTable
| O_UpdateWorkspaceDormantDeletingAt (now : Time) (id : uuid) (dormantAt : NullTime) : Op WorkspaceTable
| O_UpdateWorkspaceDeletedByID (id : uuid) (deleted : bool) : Op unit
| O_ActivityBumpWorkspace (now : Time) (workspaceID : uuid) (nextAutostart : Time) : Op unit
| O_GetWorkspacesEligibleForTransition (now : Time) : Op (list (uuid * string))
| O_GetTemplateByID (id : uuid) : Op TemplateTable
| O_UpdateTemplateScheduleByID (now : Time) (arg : UpdateTemplateScheduleByIDParams) : Op unit
| O_UpdateWorkspacesDormantDeletingAtByTemplateID (templateID : uuid) (autodeleteMs : Z) (dormantAt : Time) : Op (list WorkspaceTable)
| O_GetTemplateVersionByID (tvid : uuid) : Op TemplateVersion
| O_GetTemplateVersionByJobID (jobID : uuid) : Op TemplateVersion
| O_GetTemplateVersionParameters (tvid : uuid) : Op (list TemplateVersionParameter)
| O_GetTemplateVersionVariables (tvid : uuid) : Op (list TemplateVersionVariable)
| O_GetTemplateVersionWorkspaceTags (tvid : uuid) : Op (list TemplateVersionWorkspaceTag)
| O_GetParameterSchemasByJobID (jobID : uuid) : Op (list ParameterSchema)
| O_UpdateTemplateVersionDescriptionByJobID (jobID : uuid) (readme : string) (updatedAt : Time) : Op unit
| O_UpdateTemplateVersionExternalAuthProvidersByJobID (jobID : uuid) (providers : string) (updatedAt : Time) : Op unit
| O_GetLatestWorkspaceBuildByWorkspaceID (workspaceID : uuid) : Op WorkspaceBuild
| O_GetLatestWorkspaceBuildsByWorkspaceIDs (ids : list uuid) : Op (list WorkspaceBuild)
| O_GetActiveWorkspaceBuildsByTemplateID (templateID : uuid) : Op (list WorkspaceBuild)
| O_GetWorkspaceBuildByID (buildID : uuid) : Op WorkspaceBuild
| O_GetWorkspaceBuildByJobID (jobID : uuid) : Op WorkspaceBuild
| O_GetWorkspaceBuildByWorkspaceIDAndBuildNumber (workspaceID : uuid) (number : Z) : Op WorkspaceBuild
| O_GetWorkspaceBuildParameters (workspaceBuildID : uuid) : Op (list WorkspaceBuildParameter)
| O_InsertWorkspaceBuild (arg : WorkspaceBuild) : Op unit
| O_InsertWorkspaceBuildParameters (buildID : uuid) (names values : list string) : Op unit
| O_UpdateWorkspaceBuildDeadlineByID (id : uuid) (updatedAt deadline maxDeadline : Time) : Op unit
| O_UpdateWorkspaceBuildProvisionerStateByID (id : uuid) (updatedAt : Time) (state : list byte) : Op unit
| O_GetProvisionerJobByID (id : uuid) : Op ProvisionerJob
| O_GetHungProvisionerJobs (hungSince : Time) : Op (list ProvisionerJob)
| O_GetProvisionerJobsByIDsWithQueuePosition (ids : list uuid) : Op (list JobWithQueue)
| O_GetProvisionerLogsAfterID (jobID : uuid) (createdAfter : Z) : Op (list ProvisionerJobLog)
| O_AcquireProvisionerJob (arg : AcquireProvisionerJobParams) : Op ProvisionerJob
| O_InsertProvisionerJob (arg : InsertProvisionerJobParams) : Op ProvisionerJob
| O_InsertProvisionerJobLogs (jobID : uuid) (rows : list NewLog) : Op (list ProvisionerJobLog)
| O_UpdateProvisionerJobByID (id : uuid) (updatedAt : Time) : Op unit
| O_UpdateProvisionerJobWithCompleteByID (id : uuid) (updatedAt : Time) (completedAt : NullTime) (error errorCode : NullString) : Op unit
| O_UpdateProvisionerJobWithCancelByID (id : uuid) (canceledAt completedAt : NullTime) : Op unit
| O_InsertTemplateVersionWorkspaceTag (t : TemplateVersionWorkspaceTag) : Op TemplateVersionWorkspaceTag
| O_InsertTemplateVersionVariable (v : TemplateVersionVariable) : Op TemplateVersionVariable
| O_InsertTemplateVersionParameter (p : TemplateVersionParameter) : Op TemplateVersionParameter
| O_InsertWorkspaceResource (w : WorkspaceResource) : Op WorkspaceResource
| O_InsertWorkspaceResourceMetadata (resourceID : uuid) (rows : list (string * string * bool)) : Op (list WorkspaceResourceMetadatum)
| O_InsertWorkspaceModule (m : WorkspaceModule) : Op WorkspaceModule
| O_InsertWorkspaceAgent (a : WorkspaceAgent) : Op WorkspaceAgent
| O_InsertWorkspaceAgentScripts (l : list WorkspaceAgentScript) : Op (list WorkspaceAgentScript)
| O_InsertWorkspaceApp (a : WorkspaceApp) : Op WorkspaceApp
| O_InsertWorkspaceAgentMetadata (m : WorkspaceAgentMetadatum) : Op unit
| O_InsertWorkspaceAgentLogSources (l : list WorkspaceAgentLogSource) : Op (list WorkspaceAgentLogSource).

(** The store's own method. *)
Definition run_store {A} (op : Op A) : DB A :=
  match op with
  | O_GetUserByID id => db_read (getUserByIDNoLock id)
  | O_UpdateUserQuietHoursSchedule id s => UpdateUserQuietHoursSchedule id s
  | O_GetWorkspaceByID id => db_read (getWorkspaceByIDNoLock id)
  | O_UpdateWorkspaceDormantDeletingAt now id at_ => UpdateWorkspaceDormantDeletingAt now id at_
  | O_UpdateWorkspaceDeletedByID id deleted => UpdateWorkspaceDeletedByID id deleted
  | O_ActivityBumpWorkspace now id next => ActivityBumpWorkspace now id next
  | O_GetWorkspacesEligibleForTransition now => db_read (GetWorkspacesEligibleForTransition now)
  | O_GetTemplateByID id => db_read (getTemplateByIDNoLock id)
  | O_UpdateTemplateScheduleByID now arg => UpdateTemplateScheduleByID now arg
  | O_UpdateWorkspacesDormantDeletingAtByTemplateID id ms at_ => UpdateWorkspacesDormantDeletingAtByTemplateID id ms at_
  | O_GetTemplateVersionByID id => db_read (getTemplateVersionByIDNoLock id)
  | O_GetTemplateVersionByJobID id => db_read (GetTemplateVersionByJobID id)
  | O_GetTemplateVersionParameters id => db_read (GetTemplateVersionParameters id)
  | O_GetTemplateVersionVariables id => db_read (GetTemplateVersionVariables id)
  | O_GetTemplateVersionWorkspaceTags id => db_read (GetTemplateVersionWorkspaceTags id)
  | O_GetParameterSchemasByJobID id => db_read (GetParameterSchemasByJobID id)
  | O_UpdateTemplateVersionDescriptionByJobID id readme t => UpdateTemplateVersionDescriptionByJobID id readme t
  | O_UpdateTemplateVersionExternalAuthProvidersByJobID id p t => UpdateTemplateVersionExternalAuthProvidersByJobID id p t
  | O_GetLatestWorkspaceBuildByWorkspaceID id => db_read (getLatestWorkspaceBuildByWorkspaceIDNoLock id)
  | O_GetLatestWorkspaceBuildsByWorkspaceIDs ids => db_read (GetLatestWorkspaceBuildsByWorkspaceIDs ids)
  | O_GetActiveWorkspaceBuildsByTemplateID id => db_read (GetActiveWorkspaceBuildsByTemplateID id)
  | O_GetWorkspaceBuildByID id => db_read (getWorkspaceBuildByIDNoLock id)
  | O_GetWorkspaceBuildByJobID id => db_read (GetWorkspaceBuildByJobID id)
  | O_GetWorkspaceBuildByWorkspaceIDAndBuildNumber id n => db_read (GetWorkspaceBuildByWorkspaceIDAndBuildNumber id n)
  | O_GetWorkspaceBuildParameters id => db_read (GetWorkspaceBuildParameters id)
  | O_InsertWorkspaceBuild b => InsertWorkspaceBuild b
  | O_InsertWorkspaceBuildParameters id names values => InsertWorkspaceBuildParameters id names values
  | O_UpdateWorkspaceBuildDeadlineByID id t deadline max => UpdateWorkspaceBuildDeadlineByID id t deadline max
  | O_UpdateWorkspaceBuildProvisionerStateByID id t state => UpdateWorkspaceBuildProvisionerStateByID id t state
  | O_GetProvisionerJobByID id => db_read (getProvisionerJobByIDNoLock id)
  | O_GetHungProvisionerJobs t => db_read (fun d => Ok (GetHungProvisionerJobs t d))
  | O_GetProvisionerJobsByIDsWithQueuePosition ids => db_read (fun d => Ok (GetProvisionerJobsByIDsWithQueuePosition ids d))
  | O_GetProvisionerLogsAfterID id after => db_read (GetProvisionerLogsAfterID id after)
  | O_AcquireProvisionerJob arg => AcquireProvisionerJob arg
  | O_InsertProvisionerJob arg => InsertProvisionerJob arg
  | O_InsertProvisionerJobLogs id rows => InsertProvisionerJobLogs id rows
  | O_UpdateProvisionerJobByID id t => UpdateProvisionerJobByID id t
  | O_UpdateProvisionerJobWithCompleteByID id t at_ error code => UpdateProvisionerJobWithCompleteByID id t at_ error code
  | O_UpdateProvisionerJobWithCancelByID id canceled completed => UpdateProvisionerJobWithCancelByID id canceled completed
  | O_InsertTemplateVersionWorkspaceTag t => InsertTemplateVersionWorkspaceTag t
  | O_InsertTemplateVersionVariable v => InsertTemplateVersionVariable v
  | O_InsertTemplateVersionParameter p => InsertTemplateVersionParameter p
  | O_InsertWorkspaceResource w => InsertWorkspaceResource w
  | O_InsertWorkspaceResourceMetadata id rows => InsertWorkspaceResourceMetadata id rows
  | O_InsertWorkspaceModule m => InsertWorkspaceModule m
  | O_InsertWorkspaceAgent a => InsertWorkspaceAgent a
  | O_InsertWorkspaceAgentScripts l => InsertWorkspaceAgentScripts l
  | O_InsertWorkspaceApp a => InsertWorkspaceApp a
  | O_InsertWorkspaceAgentMetadata m => InsertWorkspaceAgentMetadata m
  | O_InsertWorkspaceAgentLogSources l => InsertWorkspaceAgentLogSources l
  end.

(** The method of the authorising store. *)
Definition run_querier `{UuidText} `{UuidParse} (auth : Subject -> Action -> Object -> option authz_error) (acs : TemplateTable -> bool)
    (ctx : Ctx) {A} (op : Op A) : Call Data A :=
  match op with
  | O_GetUserByID id => q_GetUserByID auth ctx id
  | O_UpdateUserQuietHoursSchedule id s => q_UpdateUserQuietHoursSchedule auth ctx id s
  | O_GetWorkspaceByID id => q_GetWorkspaceByID auth ctx id
  | O_UpdateWorkspaceDormantDeletingAt now id at_ => q_UpdateWorkspaceDormantDeletingAt auth ctx now id at_
  | O_UpdateWorkspaceDeletedByID id deleted => q_UpdateWorkspaceDeletedByID auth ctx id deleted
  | O_ActivityBumpWorkspace now id next => q_ActivityBumpWorkspace auth ctx now id next
  | O_GetWorkspacesEligibleForTransition now => q_GetWorkspacesEligibleForTransition now
  | O_GetTemplateByID id => q_GetTemplateByID auth ctx id
  | O_UpdateTemplateScheduleByID now arg => q_UpdateTemplateScheduleByID auth ctx now arg
  | O_UpdateWorkspacesDormantDeletingAtByTemplateID id ms at_ => q_UpdateWorkspacesDormantDeletingAtByTemplateID auth ctx id ms at_
  | O_GetTemplateVersionByID id => q_GetTemplateVersionByID auth ctx id
  | O_GetTemplateVersionByJobID id => q_GetTemplateVersionByJobID auth ctx id
  | O_GetTemplateVersionParameters id => q_GetTemplateVersionParameters auth ctx id
  | O_GetTemplateVersionVariables id => q_GetTemplateVersionVariables auth ctx id
  | O_GetTemplateVersionWorkspaceTags id => q_GetTemplateVersionWorkspaceTags auth ctx id
  | O_GetParameterSchemasByJobID id => q_GetParameterSchemasByJobID auth ctx id
  | O_UpdateTemplateVersionDescriptionByJobID id readme t => q_UpdateTemplateVersionDescriptionByJobID auth ctx id readme t
  | O_UpdateTemplateVersionExternalAuthProvidersByJobID id p t => q_UpdateTemplateVersionExternalAuthProvidersByJobID auth ctx id p t
  | O_GetLatestWorkspaceBuildByWorkspaceID id => q_GetLatestWorkspaceBuildByWorkspaceID auth ctx id
  | O_GetLatestWorkspaceBuildsByWorkspaceIDs ids => q_GetLatestWorkspaceBuildsByWorkspaceIDs auth ctx ids
  | O_GetActiveWorkspaceBuildsByTemplateID id => q_GetActiveWorkspaceBuildsByTemplateID auth ctx id
  | O_GetWorkspaceBuildByID id => q_GetWorkspaceBuildByID auth ctx id
  | O_GetWorkspaceBuildByJobID id => q_GetWorkspaceBuildByJobID auth ctx id
  | O_GetWorkspaceBuildByWorkspaceIDAndBuildNumber id n => q_GetWorkspaceBuildByWorkspaceIDAndBuildNumber auth ctx id n
  | O_GetWorkspaceBuildParameters id => q_GetWorkspaceBuildParameters auth ctx id
  | O_InsertWorkspaceBuild b => q_InsertWorkspaceBuild auth acs ctx b
  | O_InsertWorkspaceBuildParameters id names values => q_InsertWorkspaceBuildParameters auth ctx id names values
  | O_UpdateWorkspaceBuildDeadlineByID id t deadline max => q_UpdateWorkspaceBuildDeadlineByID auth ctx id t deadline max
  | O_UpdateWorkspaceBuildProvisionerStateByID id t state => q_UpdateWorkspaceBuildProvisionerStateByID auth ctx id t state
  | O_GetProvisionerJobByID id => q_GetProvisionerJobByID auth ctx id
  | O_GetHungProvisionerJobs t => q_GetHungProvisionerJobs t
  | O_GetProvisionerJobsByIDsWithQueuePosition ids => q_GetProvisionerJobsByIDsWithQueuePosition ids
  | O_GetProvisionerLogsAfterID id after => q_GetProvisionerLogsAfterID auth ctx id after
  | O_AcquireProvisionerJob arg => q_AcquireProvisionerJob arg
  | O_InsertProvisionerJob arg => q_InsertProvisionerJob arg
  | O_InsertProvisionerJobLogs id rows => q_InsertProvisionerJobLogs id rows
  | O_UpdateProvisionerJobByID id t => q_UpdateProvisionerJobByID id t
  | O_UpdateProvisionerJobWithCompleteByID id t at_ error code => q_UpdateProvisionerJobWithCompleteByID id t at_ error code
  | O_UpdateProvisionerJobWithCancelByID id canceled completed => q_UpdateProvisionerJobWithCancelByID auth ctx id canceled completed
  | O_InsertTemplateVersionWorkspaceTag t => q_InsertTemplateVersionWorkspaceTag auth ctx t
  | O_InsertTemplateVersionVariable v => q_InsertTemplateVersionVariable auth ctx v
  | O_InsertTemplateVersionParameter p => q_InsertTemplateVersionParameter auth ctx p
  | O_InsertWorkspaceResource w => q_InsertWorkspaceResource auth ctx w
  | O_InsertWorkspaceResourceMetadata id rows => q_InsertWorkspaceResourceMetadata auth ctx id rows
  | O_InsertWorkspaceModule m => q_InsertWorkspaceModule auth ctx m
  | O_InsertWorkspaceAgent a => q_InsertWorkspaceAgent auth ctx a
  | O_InsertWorkspaceAgentScripts l => q_InsertWorkspaceAgentScripts auth ctx l
  | O_InsertWorkspaceApp a => q_InsertWorkspaceApp auth ctx a
  | O_InsertWorkspaceAgentMetadata m => q_InsertWorkspaceAgentMetadata auth ctx m
  | O_InsertWorkspaceAgentLogSources l => q_InsertWorkspaceAgentLogSources l
  end.

(** ** A failed call changes nothing *)

Section Transparent.
Context `{UuidText} `{UuidParse} (auth : Subject -> Action -> Object -> option authz_error) (acs : TemplateTable -> bool) (ctx : Ctx).

(** A call that leaves the store as it is. *)
Definition keeps {A} (q : Call Data A) : Prop := forall d, (q d).1 = d.

Lemma keeping_read {A} (f : Data -> result A) : keeps (read f).
Proof. intros d. unfold read, store_call, db_read. by destruct (f d). Qed.
Lemma keeping_ret {A} (a : A) : keeps (mret a).
Proof. done. Qed.
Lemma keeps_fail {A} e : keeps (A := A) (fail e).
Proof. done. Qed.
Lemma keeping_bind {A B} (m : Call Data A) (f : A -> Call Data B) : keeps m -> (forall a, keeps (f a)) -> keeps (m ≫= f).
Proof.
  intros Hm Hf d. unfold mbind, Call_bind. specialize (Hm d). destruct (m d) as [d' [a|e]]; simpl in *; subst; [apply Hf|done].
Qed.
Lemma keeps_wrap {A} c (m : Call Data A) : keeps m -> keeps (wrapz c m).
Proof. intros Hm d. specialize (Hm d). unfold wrapz. by destruct (m d) as [d' [a|e]]. Qed.
Lemma keeps_authorize action object : keeps (authorizeContext auth ctx action object).
Proof. intros d. unfold authorizeContext, ActorFromContext, check, mbind, Call_bind. destruct ctx as [act|]; [|done]. simpl. by destruct (auth _ _ _). Qed.
Lemma keeps_actor : keeps (ActorFromContext ctx).
Proof. intros d. by destruct ctx. Qed.
Lemma keeps_check act action object : keeps (check auth act action object).
Proof. intros d. unfold check. by destruct (auth _ _ _). Qed.
Lemma keeps_template_or_none tv : keeps (template_or_none tv).
Proof. intros d. unfold template_or_none. destruct (getTemplateByIDNoLock _ d); [done|]. by case_match. Qed.

Create HintDb keeps.
#[local] Hint Resolve keeping_read keeping_ret keeps_fail keeps_wrap keeps_authorize keeps_actor keeps_check keeps_template_or_none : keeps.

(** What is built of these by binds and matches keeps the store. *)
Ltac keeps :=
  repeat first [ progress eauto 2 with keeps nocore | apply keeps_wrap | apply keeping_bind; [|intros ?]
               | match goal with |- keeps (match ?x with _ => _ end) => destruct x end ].

(** A call that does what the store's own method does, or fails and changes
    nothing. *)
Definition transparent {A} (q : Call Data A) (m : DB A) : Prop := forall d, q d = store_call m d \/ exists e, q d = (d, Failed e).

Lemma transparent_store {A} (m : DB A) : transparent (store_call m) m.
Proof. intros d. by left. Qed.

Lemma transparent_bind {A B} (c : Call Data A) (q : A -> Call Data B) (m : DB B) :
  keeps c -> (forall a, transparent (q a) m) -> transparent (c ≫= q) m.
Proof.
  intros Hc Hq d. unfold mbind, Call_bind. specialize (Hc d). destruct (c d) as [d' [a|e]]; simpl in Hc; subst d'; [apply Hq|].
  right. by exists e.
Qed.

(** A call that returns what it is given, or fails. *)
Definition vets {A} (a : A) (q : Call Data A) : Prop := forall d, q d = (d, Done a) \/ exists e, q d = (d, Failed e).

Lemma vets_then {A B} (a : A) (c : Call Data B) : keeps c -> vets a (_ ← c; mret a).
Proof.
  intros Hc d. specialize (Hc d). unfold mbind, Call_bind. destruct (c d) as [d' [b|e]]; simpl in Hc; subst d'; [by left|right; by exists e].
Qed.

(** A row that is read, checked and returned. *)
Lemma transparent_read {A} (f : Data -> result A) (q : A -> Call Data A) :
  (forall a, vets a (q a)) -> transparent (x ← read f; q x) (db_read f).
Proof.
  intros Hq d. unfold mbind, Call_bind, read, store_call, db_read. destruct (f d) as [a|e]; [|right; by exists (StoreError e)].
  destruct (Hq a d) as [->|[e ->]]; [by left|right; by exists e].
Qed.

Lemma transparent_fetch {A T} `{Objecter T} (f : A -> Data -> result T) (a : A) :
  transparent (fetch auth ctx (fun a => read (f a)) a) (db_read (f a)).
Proof.
  intros d. unfold fetch, fetchWithAction, ActorFromContext, wrapz, read, store_call, db_read, check, mbind, Call_bind.
  destruct ctx as [act|]; [|right; eauto]. simpl. destruct (f a d) as [o|e]; simpl; [|right; eauto].
  destruct (auth _ _ _); simpl; [right; eauto|by left].
Qed.

Lemma keeps_fetch {A T} `{Objecter T} (f : A -> Data -> result T) (a : A) : keeps (fetch auth ctx (fun a => read (f a)) a).
Proof. unfold fetch, fetchWithAction. keeps. Qed.
#[local] Hint Resolve keeps_fetch : keeps.

Lemma keeps_workspace id : keeps (q_GetWorkspaceByID auth ctx id).
Proof. apply keeps_fetch. Qed.
Lemma keeps_version tv : keeps (read_version auth ctx tv).
Proof. unfold read_version, q_GetTemplateByID. keeps. Qed.
#[local] Hint Resolve keeps_workspace keeps_version : keeps.

Lemma vets_version tv : vets tv (read_version auth ctx tv).
Proof. unfold read_version. case_match; apply vets_then; unfold q_GetTemplateByID; keeps. Qed.

Lemma keeps_job_version job : keeps (authorizedTemplateVersionFromJob auth ctx job).
Proof. unfold authorizedTemplateVersionFromJob, q_GetTemplateVersionByID, q_GetTemplateVersionByJobID. keeps. Qed.
#[local] Hint Resolve keeps_job_version : keeps.
Lemma keeps_build_by_id id : keeps (q_GetWorkspaceBuildByID auth ctx id).
Proof. unfold q_GetWorkspaceBuildByID. keeps. Qed.
Lemma keeps_job id : keeps (q_GetProvisionerJobByID auth ctx id).
Proof. unfold q_GetProvisionerJobByID, q_GetWorkspaceBuildByJobID. keeps. Qed.
#[local] Hint Resolve keeps_build_by_id keeps_job : keeps.

Lemma keeps_authorize_build action id : keeps (authorize_build auth ctx action id).
Proof. unfold authorize_build. keeps. Qed.
Lemma keeps_of_version id : keeps (object_of_version id).
Proof. unfold object_of_version. keeps. Qed.
Lemma keeps_of_import id : keeps (object_of_import id).
Proof. unfold object_of_import. keeps. Qed.
#[local] Hint Resolve keeps_authorize_build keeps_of_version keeps_of_import : keeps.

Lemma transparent_fetchAndQuery {Arg T A} `{Objecter T} action (f : Arg -> Call Data T) (q : Arg -> Call Data A) arg m :
  keeps (f arg) -> transparent (q arg) m -> transparent (fetchAndQuery auth ctx action f q arg) m.
Proof. intros Hf Hq. unfold fetchAndQuery. apply transparent_bind; [keeps|]. intros act. apply transparent_bind; [keeps|]. intros o. apply transparent_bind; [keeps|done]. Qed.

(** C19: the authorising store is the store, for what the modelled components ask of it.
    Each of the 50 methods of [Op], those that the scheduling, build, provisioner and
    dormancy code modelled here calls on the authorising store, either does what the
    store's own method does, to the store and as a result, or fails and leaves the
    store as it was.  The other methods of dbauthz, among them those that
    filter the rows they return, are not in [Op]. *)
Theorem querier_transparent {A} (op : Op A) d :
  run_querier auth acs ctx op d = store_call (run_store op) d \/ exists e, run_querier auth acs ctx op d = (d, Failed e).
Proof.
  revert d; change (transparent (run_querier auth acs ctx op) (run_store op)).
  destruct op; simpl; try apply transparent_store; try (apply transparent_fetch);
    try (apply transparent_fetchAndQuery; [keeps|apply transparent_store]);
    try (apply transparent_read; intros ?; apply vets_version || (apply vets_then; keeps));
    try (repeat (apply transparent_bind; [keeps|intros ?]); apply transparent_store).
  unfold q_GetProvisionerJobByID. apply transparent_read. intros job.
  destruct (pj_Type job); apply vets_then; unfold q_GetWorkspaceBuildByJobID; keeps.
Qed.
End Transparent.

(** ** What the daemons are refused *)

Section Refused.
Context {St : Type}.

Definition refused {A} (q : Call St A) (st : St) : Prop := exists st' e, q st = (st', Failed e) /\ IsNotAuthorizedError e = true.

Lemma refused_bind {A B} (m : Call St A) (f : A -> Call St B) st :
  refused (m ≫= f) st -> refused m st \/ exists st1 a, m st = (st1, Done a) /\ refused (f a) st1.
Proof. unfold refused, mbind, Call_bind. destruct (m st) as [st1 [a|e]]; [eauto|]. intros (? & ? & [= <- <-] & ?). eauto. Qed.

Lemma refused_store {A} (m : St -> St * result A) st : ~ refused (store_call m) st.
Proof. unfold refused, store_call. destruct (m st) as [? [|]]; naive_solver. Qed.
Lemma refused_ret {A} (a : A) st : ~ refused (mret a : Call St A) st.
Proof. unfold refused. naive_solver. Qed.
Lemma refused_fail {A} msg st : ~ refused (fail (StoreError msg) : Call St A) st.
Proof. unfold refused, fail. naive_solver. Qed.
Lemma refused_wrap {A} c (m : Call St A) st : refused (wrapz c m) st -> refused m st.
Proof. unfold refused, wrapz. destruct (m st) as [? [|]]; naive_solver. Qed.
Lemma refused_actor act st : ~ refused (ActorFromContext (Some act)) st.
Proof. apply refused_ret. Qed.
Lemma refused_check auth act action object st : refused (check auth act action object) st -> auth act action object <> None.
Proof. unfold check. destruct (auth act action object); [done|]. by intros ?%refused_ret. Qed.
Lemma refused_authorize auth act action object st : refused (authorizeContext auth (Some act) action object) st -> auth act action object <> None.
Proof. unfold authorizeContext. intros [Hr|(? & ? & [= <- <-] & Hr)]%refused_bind; [by apply refused_actor in Hr|by apply refused_check in Hr]. Qed.
End Refused.

(** Follows a refusal to the check it comes from. *)
Ltac refusal :=
  repeat match goal with
  | H : ActorFromContext (Some _) _ = (_, Done _) |- _ => injection H as <- <-
  | H : refused (_ ≫= _) _ |- _ => apply refused_bind in H as [H|(? & ? & ? & H)]
  | H : refused (read _) _ |- _ => by apply refused_store in H
  | H : refused (store_call _) _ |- _ => by apply refused_store in H
  | H : refused (mret _) _ |- _ => by apply refused_ret in H
  | H : refused (fail (StoreError _)) _ |- _ => by apply refused_fail in H
  | H : refused (wrapz _ _) _ |- _ => apply refused_wrap in H
  | H : refused (ActorFromContext (Some _)) _ |- _ => by apply refused_actor in H
  | H : refused (check _ _ _ _) _ |- _ => apply refused_check in H
  | H : refused (authorizeContext _ (Some _) _ _) _ |- _ => apply refused_authorize in H
  | H : refused (match ?x with _ => _ end) _ |- _ => destruct x
  | H : refused (if ?x then _ else _) _ |- _ => destruct x
  end.

Section Daemons.
Context `{UuidText} `{UuidParse} (auth : Subject -> Action -> Object -> option authz_error) (acs : TemplateTable -> bool) (act : Subject).

Definition on_template (object : Object) : Prop := o_Type object = o_Type ResourceTemplate /\ o_AnyOrgOwner object = false.

(** The rights of a daemon that builds workspaces. *)
Record builder_rights : Prop := {
  br_system action : action ∈ crud -> auth act action ResourceSystem = None;
  br_template action object : action ∈ [ActionRead; ActionUpdate] -> on_template object -> auth act action object = None;
  br_workspace action w : action ∈ [ActionRead; ActionUpdate; ActionDelete; ActionWorkspaceStop] -> auth act action (RBACObject (T := WorkspaceTable) w) = None;
  br_start w : nt_Valid (ws_DormantAt w) = false -> auth act ActionWorkspaceStart (RBACObject (T := WorkspaceTable) w) = None;
  br_user u : auth act ActionRead (RBACObject (T := User) u) = None;
}.
Context (Hact : builder_rights).

Lemma template_on t : on_template (RBACObject (T := TemplateTable) t).
Proof. done. Qed.
Lemma organization_on org : on_template (InOrg org ResourceTemplate).
Proof. done. Qed.
Lemma template_or_none_on tv d d' object : template_or_none tv d = (d', Done object) -> on_template object.
Proof. unfold template_or_none. destruct (getTemplateByIDNoLock _ d); [by intros [= _ <-]|]. case_match; [by intros [= _ <-]|done]. Qed.

Lemma allowed_workspace id d : ~ refused (q_GetWorkspaceByID auth (Some act) id) d.
Proof. intros Hr. unfold q_GetWorkspaceByID, fetch, fetchWithAction in Hr. refusal. apply Hr, (br_workspace Hact). by left. Qed.
Lemma allowed_template id d : ~ refused (q_GetTemplateByID auth (Some act) id) d.
Proof. intros Hr. unfold q_GetTemplateByID, fetch, fetchWithAction in Hr. refusal. apply Hr, (br_template Hact); [by left|done]. Qed.
Lemma allowed_version tv d : ~ refused (read_version auth (Some act) tv) d.
Proof.
  intros Hr. unfold read_version in Hr. refusal; [by apply allowed_template in Hr|]. apply Hr, (br_template Hact); [by left|done].
Qed.
Lemma allowed_job_version job d : ~ refused (authorizedTemplateVersionFromJob auth (Some act) job) d.
Proof.
  intros Hr. unfold authorizedTemplateVersionFromJob, q_GetTemplateVersionByID, q_GetTemplateVersionByJobID in Hr.
  refusal; by apply allowed_version in Hr.
Qed.
Lemma allowed_build_by_job id d : ~ refused (q_GetWorkspaceBuildByJobID auth (Some act) id) d.
Proof. intros Hr. unfold q_GetWorkspaceBuildByJobID in Hr. refusal; by apply allowed_workspace in Hr. Qed.
Lemma allowed_build_by_id id d : ~ refused (q_GetWorkspaceBuildByID auth (Some act) id) d.
Proof. intros Hr. unfold q_GetWorkspaceBuildByID in Hr. refusal; by apply allowed_workspace in Hr. Qed.
Lemma allowed_job id d : ~ refused (q_GetProvisionerJobByID auth (Some act) id) d.
Proof. intros Hr. unfold q_GetProvisionerJobByID in Hr. refusal; by (apply allowed_build_by_job in Hr || apply allowed_job_version in Hr). Qed.
Lemma allowed_of_version id d : ~ refused (object_of_version id) d.
Proof.
  intros Hr. unfold object_of_version in Hr. refusal. destruct Hr as (? & ? & Hr & He). unfold template_or_none in Hr.
  destruct (getTemplateByIDNoLock _ _); [done|]. case_match; [done|]. by injection Hr as <- <-.
Qed.
Lemma of_version_on id d d' object : object_of_version id d = (d', Done object) -> on_template object.
Proof. unfold object_of_version. intros (? & ? & _ & Ho)%bind_Done. by apply template_or_none_on in Ho. Qed.
Lemma of_import_on id d d' object : object_of_import id d = (d', Done object) -> on_template object.
Proof.
  unfold object_of_import. intros (? & tv & _ & Ho)%bind_Done. destruct (tv_TemplateID tv); [|by injection Ho as _ <-].
  apply bind_Done in Ho as (? & ? & _ & [= _ <-]). done.
Qed.
Lemma allowed_of_import id d : ~ refused (object_of_import id) d.
Proof. intros Hr. unfold object_of_import in Hr. refusal. Qed.

(** Starting a dormant workspace. *)
Definition starts_dormant {A} (op : Op A) (d : Data) : Prop :=
  match op with
  | O_InsertWorkspaceBuild b => wb_Transition b = TransitionStart /\
      exists w, getWorkspaceByIDNoLock (wb_WorkspaceID b) d = Ok w /\ nt_Valid (ws_DormantAt w) = true
  | _ => False
  end.

Definition sets_quiet_hours {A} (op : Op A) : Prop := match op with O_UpdateUserQuietHoursSchedule _ _ => True | _ => False end.

Ltac unfold_calls H :=
  unfold q_GetUserByID, q_UpdateUserQuietHoursSchedule, q_UpdateWorkspaceDormantDeletingAt,
    q_UpdateWorkspaceDeletedByID, q_ActivityBumpWorkspace, q_GetWorkspacesEligibleForTransition,
    q_UpdateTemplateScheduleByID, q_UpdateWorkspacesDormantDeletingAtByTemplateID, q_GetTemplateVersionByID,
    q_GetTemplateVersionByJobID, q_GetTemplateVersionParameters, q_GetTemplateVersionVariables,
    q_GetTemplateVersionWorkspaceTags, q_GetParameterSchemasByJobID, q_UpdateTemplateVersionDescriptionByJobID,
    q_UpdateTemplateVersionExternalAuthProvidersByJobID, q_GetLatestWorkspaceBuildByWorkspaceID, q_GetLatestWorkspaceBuildsByWorkspaceIDs,
    q_GetActiveWorkspaceBuildsByTemplateID, q_GetWorkspaceBuildByWorkspaceIDAndBuildNumber, q_GetWorkspaceBuildParameters,
    q_InsertWorkspaceBuildParameters, q_UpdateWorkspaceBuildDeadlineByID,
    q_UpdateWorkspaceBuildProvisionerStateByID, q_GetHungProvisionerJobs, q_GetProvisionerJobsByIDsWithQueuePosition,
    q_GetProvisionerLogsAfterID, q_AcquireProvisionerJob, q_InsertProvisionerJob,
    q_InsertProvisionerJobLogs, q_UpdateProvisionerJobByID, q_UpdateProvisionerJobWithCompleteByID,
    q_UpdateProvisionerJobWithCancelByID, q_InsertTemplateVersionWorkspaceTag, q_InsertTemplateVersionVariable,
    q_InsertTemplateVersionParameter, q_InsertWorkspaceResource, q_InsertWorkspaceResourceMetadata,
    q_InsertWorkspaceModule, q_InsertWorkspaceAgent, q_InsertWorkspaceAgentScripts,
    q_InsertWorkspaceApp, q_InsertWorkspaceAgentMetadata, q_InsertWorkspaceAgentLogSources,
    fetch, fetchWithAction, updateWithReturn, deleteQ, update, fetchAndExec, fetchAndQuery, system_call, authorize_build in H.

(** Closes a branch in which what was refused is a right of the daemon. *)
Ltac granted :=
  match goal with
  | H : refused _ _ |- False =>
      first [ by apply allowed_workspace in H | by apply allowed_template in H | by apply allowed_version in H | by apply allowed_build_by_job in H
            | by apply allowed_build_by_id in H | by apply allowed_job in H | by apply allowed_job_version in H | by apply allowed_of_version in H
            | by apply allowed_of_import in H ]
  | H : auth act _ _ <> None |- False =>
      apply H; first [ apply (br_system Hact) | apply (br_user Hact) | apply (br_workspace Hact) | apply (br_template Hact) ];
      first [ by apply (bool_decide_unpack _); vm_compute | by eauto using of_version_on, of_import_on | done ]
  end.

Lemma insert_build_refused b d : refused (q_InsertWorkspaceBuild auth acs (Some act) b) d -> starts_dormant (O_InsertWorkspaceBuild b) d.
Proof.
  intros Hr. unfold q_InsertWorkspaceBuild in Hr.
  apply refused_bind in Hr as [Hr|(d1 & w & Hw & Hr)]; [exfalso; refusal|].
  assert (Hrow : getWorkspaceByIDNoLock (wb_WorkspaceID b) d = Ok w).
  { unfold wrapz, read, store_call, db_read in Hw. destruct (getWorkspaceByIDNoLock (wb_WorkspaceID b) d) as [w'|]; by inversion Hw. }
  apply refused_bind in Hr as [Hr|(d2 & u & Hu & Hr)].
  - refusal. simpl. destruct (wb_Transition b); [|exfalso; granted..]. split; [done|]. exists w. split; [done|].
    destruct (nt_Valid (ws_DormantAt w)) eqn:Hd; [done|]. destruct Hr. by apply (br_start Hact).
  - exfalso. refusal; granted.
Qed.

(** A daemon with these rights is refused two things: to change a user's
    schedule of quiet hours, and to start a dormant workspace. *)
Lemma builder_refused {A} (op : Op A) d : refused (run_querier auth acs (Some act) op) d -> sets_quiet_hours op \/ starts_dormant op d.
Proof.
  intros Hr. destruct op; simpl in Hr; try (by left); try (right; by apply insert_build_refused in Hr);
    exfalso; try (by apply refused_store in Hr); unfold_calls Hr; refusal; granted.
Qed.
End Daemons.

(** ** The daemons *)

Section System.
Context `{MapRange} `{UuidText} `{UuidParse} (builtInRoles : gmap string (uuid -> Role)) (strict : bool) (acs : TemplateTable -> bool).
Notation auth := (Authorize builtInRoles strict).

Ltac may t := apply system_may with (type := t); [done || reflexivity.. | by vm_compute | by vm_compute].

(** What the two subjects that build workspaces have in common. *)
Definition builder_perms (l : list (Object * list Action)) : bool :=
  forallb (fun a => some_matches a "system" (reference_perms l)) crud &&
  forallb (fun a => some_matches a "template" (reference_perms l)) [ActionRead; ActionUpdate] &&
  forallb (fun a => some_matches a "workspace" (reference_perms l) && some_matches a "workspace_dormant" (reference_perms l))
    [ActionRead; ActionUpdate; ActionDelete; ActionWorkspaceStop] &&
  some_matches ActionWorkspaceStart "workspace" (reference_perms l) && some_matches ActionRead "user" (reference_perms l).

Lemma builder_perms_rights friendly name display l :
  builder_perms l = true -> builder_rights auth (system_subject friendly name display (permissions_of l)).
Proof.
  unfold builder_perms. rewrite !andb_true_iff, !forallb_forall. intros ((((Hsys & Htpl) & Hws) & Hstart) & Huser).
  setoid_rewrite <- list_elem_of_In in Hsys. setoid_rewrite <- list_elem_of_In in Htpl. setoid_rewrite <- list_elem_of_In in Hws.
  split.
  - intros action Ha. apply system_may with (type := "system"); [done..| |by apply Hsys].
    repeat (apply elem_of_cons in Ha as [->|Ha]); [by vm_compute..|by apply elem_of_nil in Ha].
  - intros action object Ha [Ht Hany]. apply system_may with (type := "template"); [done..| |by apply Htpl].
    repeat (apply elem_of_cons in Ha as [->|Ha]); [by vm_compute..|by apply elem_of_nil in Ha].
  - intros action w Ha. pose proof (Hws action Ha) as [Hplain Hdormant]%andb_true_iff.
    destruct (nt_Valid (ws_DormantAt w)) eqn:Hd.
    + apply system_may with (type := "workspace_dormant"); [unfold RBACObject, WorkspaceTable_Objecter, WorkspaceTable_RBACObject; by rewrite Hd|done| |done].
      repeat (apply elem_of_cons in Ha as [->|Ha]); [by vm_compute..|by apply elem_of_nil in Ha].
    + apply system_may with (type := "workspace"); [unfold RBACObject, WorkspaceTable_Objecter, WorkspaceTable_RBACObject; by rewrite Hd|done| |done].
      repeat (apply elem_of_cons in Ha as [->|Ha]); [by vm_compute..|by apply elem_of_nil in Ha].
  - intros w Hd. apply system_may with (type := "workspace"); [unfold RBACObject, WorkspaceTable_Objecter, WorkspaceTable_RBACObject; by rewrite Hd|done|by vm_compute|done].
  - intros u. apply system_may with (type := "user"); [done..|by vm_compute|done].
Qed.

(** What the hang detector does. *)
Definition hang_detector_op {A} (op : Op A) : bool :=
  match op with
  | O_GetHungProvisionerJobs _ | O_GetProvisionerJobByID _ | O_GetProvisionerLogsAfterID _ _ | O_InsertProvisionerJobLogs _ _
  | O_UpdateProvisionerJobWithCompleteByID _ _ _ _ _ | O_GetWorkspaceBuildByJobID _ | O_GetWorkspaceBuildByWorkspaceIDAndBuildNumber _ _
  | O_UpdateWorkspaceBuildProvisionerStateByID _ _ _ => true
  | _ => false
  end.

Definition row_is_dormant (id : uuid) (d : Data) : Prop := exists w, getWorkspaceByIDNoLock id d = Ok w /\ nt_Valid (ws_DormantAt w) = true.
Definition dormant_of_job (id : uuid) (d : Data) : Prop := exists b, GetWorkspaceBuildByJobID id d = Ok b /\ row_is_dormant (wb_WorkspaceID b) d.

(** It asks for a dormant workspace, or for what belongs to one. *)
Definition reads_dormant {A} (op : Op A) (d : Data) : Prop :=
  match op with
  | O_GetProvisionerJobByID id | O_GetProvisionerLogsAfterID id _ | O_GetWorkspaceBuildByJobID id => dormant_of_job id d
  | O_GetWorkspaceBuildByWorkspaceIDAndBuildNumber id _ => row_is_dormant id d
  | _ => False
  end.

Lemma hang_workspace id d : refused (q_GetWorkspaceByID auth AsHangDetector id) d <-> row_is_dormant id d.
Proof.
  unfold row_is_dormant, q_GetWorkspaceByID, fetch, fetchWithAction, AsHangDetector, refused, ActorFromContext, mbind, Call_bind, wrapz, read,
    store_call, db_read, check; simpl.
  destruct (getWorkspaceByIDNoLock id d) as [w|e] eqn:Hw; simpl; [|naive_solver].
  destruct (nt_Valid (ws_DormantAt w)) eqn:Hd.
  - unfold subjectHangDetector. rewrite (system_may_not builtInRoles strict) with (type := "workspace_dormant");
      [|by unfold RBACObject, WorkspaceTable_Objecter, WorkspaceTable_RBACObject; rewrite Hd|done|by unfold RBACObject, WorkspaceTable_Objecter, WorkspaceTable_RBACObject; rewrite Hd|by vm_compute|by vm_compute]. simpl. naive_solver.
  - unfold subjectHangDetector. rewrite (system_may builtInRoles strict) with (type := "workspace");
      [|unfold RBACObject, WorkspaceTable_Objecter, WorkspaceTable_RBACObject; by rewrite Hd|done|by vm_compute|by vm_compute]. simpl.
    split; [by intros (? & ? & [=] & _)|intros (? & [= <-] & ?); congruence].
Qed.

Lemma hang_version tv d : ~ refused (read_version auth AsHangDetector tv) d.
Proof.
  intros Hr. unfold read_version, q_GetTemplateByID, fetch, fetchWithAction, AsHangDetector in Hr.
  refusal; apply Hr, system_may with (type := "template"); (done || by vm_compute).
Qed.

Lemma hang_build_by_job id d : refused (q_GetWorkspaceBuildByJobID auth AsHangDetector id) d <-> dormant_of_job id d.
Proof.
  unfold q_GetWorkspaceBuildByJobID, dormant_of_job. unfold mbind at 1, Call_bind at 1, read, store_call, db_read, refused.
  destruct (GetWorkspaceBuildByJobID id d) as [b|e]; [|naive_solver]. split.
  - intros Hr. exists b. split; [done|]. apply hang_workspace. by apply refused_bind in Hr as [Hr|(? & ? & _ & Hr%refused_ret)].
  - intros (b' & [= <-] & (st & e & Hq & He)%hang_workspace). exists st, e. unfold mbind, Call_bind. by rewrite Hq.
Qed.

Lemma hang_job id d : refused (q_GetProvisionerJobByID auth AsHangDetector id) d -> dormant_of_job id d.
Proof.
  unfold q_GetProvisionerJobByID. intros [Hr|(d' & job & Hread & Hr)]%refused_bind; [by apply refused_store in Hr|].
  assert (d' = d) as ->. { pose proof (keeping_read (getProvisionerJobByIDNoLock id) d) as Hk. by rewrite Hread in Hk. }
  destruct (pj_Type job).
  - exfalso. unfold authorizedTemplateVersionFromJob, q_GetTemplateVersionByID, q_GetTemplateVersionByJobID in Hr. refusal; by apply hang_version in Hr.
  - apply hang_build_by_job. by apply refused_bind in Hr as [Hr|(? & ? & _ & Hr%refused_ret)].
  - exfalso. unfold authorizedTemplateVersionFromJob, q_GetTemplateVersionByID, q_GetTemplateVersionByJobID in Hr. refusal; by apply hang_version in Hr.
Qed.

(** C20: the daemons may do the modelled part of their work.  On any store, none of the 50
    methods of [Op] refuses what the provisioner daemon server asks of it on behalf
    of its actor, but to start a dormant workspace; nor what the lifecycle executor
    asks, but that and to set a user's quiet hours; nor what the hang detector does
    ([hang_detector_op]), but where a dormant workspace is concerned.  What these daemons ask of
    methods outside [Op], like the keys, groups, files and users that the
    provisioner daemon server fetches when it acquires a job, is not covered. *)
Theorem daemons_not_refused {A} (op : Op A) d :
  (refused (run_querier auth acs AsProvisionerd op) d -> starts_dormant op d) /\
  (refused (run_querier auth acs AsAutostart op) d -> sets_quiet_hours op \/ starts_dormant op d) /\
  (hang_detector_op op = true -> refused (run_querier auth acs AsHangDetector op) d -> reads_dormant op d).
Proof.
  split; [|split].
  - intros Hr. assert (Hb := builder_perms_rights "Provisioner Daemon" "provisionerd" "Provisioner Daemon" provisionerd_perms ltac:(by vm_compute)).
    destruct (builder_refused auth acs subjectProvisionerd Hb op d Hr) as [Hq|Hq]; [exfalso|done].
    destruct op; try done. simpl in Hr. unfold q_UpdateUserQuietHoursSchedule, AsProvisionerd in Hr. refusal.
    apply Hr, system_may with (type := "user"); (done || by vm_compute).
  - intros Hr. assert (Hb := builder_perms_rights "Autostart" "autostart" "Autostart Daemon" autostart_perms ltac:(by vm_compute)).
    apply (builder_refused auth acs subjectAutostart Hb op d Hr).
  - intros Hop Hr. destruct op; try done; simpl in Hr; try (by apply refused_store in Hr).
    + by apply hang_build_by_job in Hr.
    + apply refused_bind in Hr as [Hr|(? & ? & _ & Hr)]; [by apply hang_workspace in Hr|by apply refused_store in Hr].
    + unfold q_UpdateWorkspaceBuildProvisionerStateByID, system_call, AsHangDetector in Hr. refusal.
      exfalso. apply Hr, system_may with (type := "system"); (done || by vm_compute).
    + by apply hang_job in Hr.
    + apply refused_bind in Hr as [Hr|(? & ? & _ & Hr)]; [by apply hang_job in Hr|by apply refused_store in Hr].
Qed.

(** The hang detector cannot end the job of a dormant workspace, because it may
    not read it. *)
Lemma hang_detector_blind id d job :
  getProvisionerJobByIDNoLock id d = Ok job -> pj_Type job = JobWorkspaceBuild -> dormant_of_job id d ->
  refused (run_querier auth acs AsHangDetector (O_GetProvisionerJobByID id)) d.
Proof.
  intros Hjob Htype Hdorm. simpl. unfold q_GetProvisionerJobByID, refused. unfold mbind at 1, Call_bind at 1, read, store_call, db_read.
  rewrite Hjob, Htype. apply hang_build_by_job in Hdorm as (st & e & Hq & He). exists st, e. unfold mbind, Call_bind. by rewrite Hq.
Qed.
End System.

(** ** Dormant workspaces *)

Section Dormant.
Context `{MapRange} `{UuidText} `{UuidParse} (opts strict : bool) (acs : TemplateTable -> bool).
Notation auth := (Authorize (ReloadBuiltinRoles opts) strict).

(** A user, whatever built-in roles it has, or a daemon that works on
    workspaces. *)
Definition user_or_daemon (s : Subject) : Prop :=
  (exists names, s_Roles s = Some (RoleIdentifiers names)) \/ s = subjectAutostart \/ s = subjectProvisionerd \/ s = subjectHangDetector.

Lemma dormant_object w : nt_Valid (ws_DormantAt w) = true ->
  o_Type (RBACObject w) = "workspace_dormant" /\ o_ACLUserList (RBACObject w) = ∅ /\ o_ACLGroupList (RBACObject w) = ∅.
Proof. intros Hd. unfold RBACObject, WorkspaceTable_Objecter, WorkspaceTable_RBACObject. by rewrite Hd. Qed.

Lemma dormant_refuses s w action : user_or_daemon s -> nt_Valid (ws_DormantAt w) = true -> action ∈ running -> auth s action (RBACObject w) <> None.
Proof.
  intros Hs Hd Ha. destruct (dormant_object w Hd) as (Ht & Hu & Hg). destruct Hs as [[names Hs]|Hs].
  - unfold Authorize. destruct (if strict then _ else _); [|done]. by apply (dormant_never_runs opts s names).
  - assert (Hv : is_ok (ValidAction (object_of_type "workspace_dormant") action) = true).
    { repeat (apply elem_of_cons in Ha as [->|Ha]); [by vm_compute..|by apply elem_of_nil in Ha]. }
    assert (Hmay : forall l, existsb (fun a => some_matches a "workspace_dormant" (reference_perms l)) running = false ->
      some_matches action "workspace_dormant" (reference_perms l) = false).
    { intros l Hl. apply not_true_iff_false. intros Hm. apply not_true_iff_false in Hl. apply Hl, existsb_exists.
      exists action. split; [by apply list_elem_of_In|done]. }
    destruct Hs as [->|[->| ->]]; unfold subjectAutostart, subjectProvisionerd, subjectHangDetector;
      (rewrite (system_may_not _ _ _ _ _ _ _ _ "workspace_dormant" Ht eq_refl Hu Hv); [done|]); apply Hmay; by vm_compute.
Qed.

(** C16: a dormant workspace rests.  No user, whatever its built-in roles, be it the
    workspace's owner or the deployment's, and no daemon may start it, open a shell
    in it or connect to its applications; and none gets a build that would start it
    into the store. *)
Theorem dormant_workspaces_rest s w :
  user_or_daemon s -> nt_Valid (ws_DormantAt w) = true ->
  (forall action, action ∈ running -> auth s action (RBACObject w) <> None) /\
  (forall b d, wb_Transition b = TransitionStart -> getWorkspaceByIDNoLock (wb_WorkspaceID b) d = Ok w ->
     exists e, run_querier auth acs (Some s) (O_InsertWorkspaceBuild b) d = (d, Failed e) /\ IsNotAuthorizedError e = true).
Proof.
  intros Hs Hd. split; [intros action; by apply dormant_refuses|]. intros b d Hb Hw. simpl. unfold q_InsertWorkspaceBuild.
  unfold mbind at 1, Call_bind at 1, wrapz at 1, read, store_call, db_read. rewrite Hw, Hb. simpl.
  unfold mbind at 1, Call_bind at 1, wrapz at 1, authorizeContext, ActorFromContext, mbind at 1, Call_bind at 1, mret, Call_ret, check.
  destruct (auth s ActionWorkspaceStart (RBACObject w)) as [e|] eqn:Ha; [eexists; split; [reflexivity|done]|].
  exfalso. apply (dormant_refuses s w ActionWorkspaceStart); [done..| |done]. by left.
Qed.
End Dormant.

(** ** Examples *)

Module Examples.
#[local] Existing Instance Rbac.Examples.text.
#[local] Existing Instance Rbac.Examples.parse.

Definition someone : Subject := mkSubject "" "111" (Some (RoleIdentifiers [RoleMember; RoleOwner])) [] (Some (ScopeName ScopeAll)).
Definition dormant : WorkspaceTable := (example_workspace 5){{ ws_DormantAt := mkNullTime example_time true }}.
Definition start : WorkspaceBuild := example_build 50 5 zeroTime zeroTime.
Definition one_dormant : Data := emptyData{{ workspaces := [dormant] }}.

Lemma dormant_workspaces_rest_witness :
  exists e, run_querier (Authorize (ReloadBuiltinRoles false) true) AGPLTemplateAccessControlStore (Some someone) (O_InsertWorkspaceBuild start) one_dormant
    = (one_dormant, Failed e) /\ IsNotAuthorizedError e = true.
Proof.
  apply (proj2 (dormant_workspaces_rest false true AGPLTemplateAccessControlStore someone dormant ltac:(left; eexists; reflexivity) eq_refl) start one_dormant);
    reflexivity.
Defined.

(** The hang detector is refused the job of a dormant workspace, and not that
    of another. *)
Definition with_job (w : WorkspaceTable) : Data :=
  emptyData{{ workspaces := [w]; workspaceBuilds := [start]; provisionerJobs := [example_done_job] }}.
Definition hang_reads (w : WorkspaceTable) := run_querier (Authorize (ReloadBuiltinRoles false) true) AGPLTemplateAccessControlStore
  AsHangDetector (O_GetProvisionerJobByID 40) (with_job w).

Example hang_detector_example :
  match (hang_reads dormant).2, (hang_reads (example_workspace 5)).2 with
  | Failed e, Done job => IsNotAuthorizedError e = true /\ pj_ID job = 40%N
  | _, _ => False
  end.
Proof. by vm_compute. Qed.
End Examples.
