(* ===== verification/Cryptorand.v ===== *)
(** * Random strings and numbers: [cryptorand]

    The system's source of randomness is what it yields: some bytes, and the
    error it then fails with.  The generator of strings draws a 32-bit word for
    each character and maps it to the charset without bias, by rejecting some
    words; that of numbers is [math/rand] over the source. *)

From Stdlib Require Import Ascii Strings.Byte.
From stdpp Require Import list_numbers.
From S2P Require Import Prelude GoStrings GoEncoding GoUtf8.
Local Open Scope string_scope.
Local Open Scope list_scope.
Local Open Scope Z_scope.

(** ** Charsets *)

Definition Numeric : string := "0123456789".
Definition Upper : string := "ABCDEFGHIJKLMNOPQRSTUVWXYZ".
Definition Lower : string := "abcdefghijklmnopqrstuvwxyz".
Definition Alpha : string := Upper +:+ Lower.
Definition Default : string := Numeric +:+ Alpha.
Definition Hex : string := "0123456789abcdef".
Definition Human : string := "23456789abcdefghjkmnpqrstuvwxyz".

(** [[]rune(s)], each rune as the bytes that [WriteRune] writes for it: an
    invalid byte becomes U+FFFD.  The fuel is the length. *)
Definition RuneError : string := String "239" (String "191" (String "189" EmptyString)).
Fixpoint runes_fuel (fuel : nat) (s : string) : list string :=
  match fuel, s with
  | O, _ | _, EmptyString => []
  | S fuel, String _ rest =>
      match decode_rune s with
      | Some (r, rest) => r :: runes_fuel fuel rest
      | None => RuneError :: runes_fuel fuel rest
      end
  end.
Definition runes (s : string) : list string := runes_fuel (String.length s) s.

(** ** The source *)

Definition byte_val (b : byte) : Z := Z.of_N (Byte.to_N b).

(** [binary.BigEndian.Uint32] and [Uint64]: the bytes' digits. *)
Definition big_endian (l : list byte) : Z := foldl (fun n b => n * 256 + byte_val b) 0 l.
Definition word32 (b1 b2 b3 b4 : byte) : Z := big_endian [b1; b2; b3; b4].

(** A call that reads the source: the bytes left and what it returns; [None] is
    a panic. *)
Definition Rand (A : Type) : Type := list byte -> list byte * option (result A).

#[export] Instance Rand_ret : MRet Rand := fun A a src => (src, Some (Ok a)).
#[export] Instance Rand_bind : MBind Rand := fun A B f m src =>
  match m src with
  | (src, Some (Ok a)) => f a src
  | (src, Some (Err e)) => (src, Some (Err e))
  | (src, None) => (src, None)
  end.

Definition rand_panic {A} : Rand A := fun src => (src, None).
Definition rand_error {A} (e : string) : Rand A := fun src => (src, Some (Err e)).

Section Source.
Context (rand_err : string).

(** [io.ReadFull] of the source: a source that runs out has given its last
    bytes. *)
Definition Read (n : nat) : Rand (list byte) := fun src =>
  if Nat.leb n (length src) then (drop n src, Some (Ok (take n src))) else ([], Some (Err rand_err)).

(** ** Strings *)

Definition product (v n : Z) : Z := wrapu 64 (v * wrapu 64 n).

(** The loop of [unbiasedModulo32]: words are read from the source until one is
    accepted. *)
Fixpoint resample (n thresh prod : Z) (src : list byte) : list byte * option (result Z) :=
  if wrapu 32 prod <? thresh then
    match src with
    | b1 :: b2 :: b3 :: b4 :: src => resample n thresh (product (word32 b1 b2 b3 b4) n) src
    | _ => ([], Some (Err rand_err))
    end
  else (src, Some (Ok (wraps 32 (Z.shiftr prod 32)))).

Definition unbiasedModulo32 (v n : Z) : Rand Z := fun src =>
  let prod := product v n in
  let low := wrapu 32 prod in
  if low <? wrapu 32 n then
    let thresh := wrapu 32 (wraps 32 (- n)) mod wrapu 32 n in
    resample n thresh prod src
  else (src, Some (Ok (wraps 32 (Z.shiftr prod 32)))).

(** The element of a slice, or a panic. *)
Definition index_or_panic {A} (l : list A) (i : Z) : Rand A :=
  match (if i <? 0 then None else l !! Z.to_nat i) with Some x => mret x | None => rand_panic end.

Fixpoint charset_loop (charSet : list string) (entropy : list byte) (size : nat) {struct size} : Rand string :=
  match size with
  | O => mret ""
  | S size =>
      match entropy with
      | b1 :: b2 :: b3 :: b4 :: entropy =>
          ci ← unbiasedModulo32 (word32 b1 b2 b3 b4) (wraps 32 (Z.of_nat (length charSet)));
          r ← index_or_panic charSet ci;
          buf ← charset_loop charSet entropy size;
          mret (r +:+ buf)
      | _ => rand_panic
      end
  end.

(** [make] panics on a negative length. *)
Definition StringCharset (charSetStr : string) (size : Z) : Rand string :=
  if size =? 0 then mret ""
  else if Nat.eqb (String.length charSetStr) 0 then rand_error "charSetStr must not be empty"
  else if wraps 64 (4 * size) <? 0 then rand_panic
  else
    let charSet := runes charSetStr in
    entropy ← Read (Z.to_nat (wraps 64 (4 * size)));
    charset_loop charSet entropy (Z.to_nat size).

Definition String_ (size : Z) : Rand string := StringCharset Default size.
Definition HexString (size : Z) : Rand string := StringCharset Hex size.
Definition Sha1String : Rand string := StringCharset Hex 40.

(** ** Numbers *)

(** [cryptoSource.Int63]: a source that fails gives 0 and keeps the error. *)
Definition source_Int63 (src : list byte) (err : option string) : Z * list byte * option string :=
  match src with
  | b1 :: b2 :: b3 :: b4 :: b5 :: b6 :: b7 :: b8 :: src =>
      (Z.land (big_endian [b1; b2; b3; b4; b5; b6; b7; b8]) 0x7fffffffffffffff, src, err)
  | _ => (0, [], Some rand_err)
  end.

Definition with_source_error {A} (a : A) (err : option string) : option (result A) :=
  Some (match err with Some e => Err e | None => Ok a end).

Definition Int63 : Rand Z := fun src =>
  let '(n, src, err) := source_Int63 src None in (src, with_source_error n err).

(** The loops of [math/rand]'s [Int31n] and [Int63n]: a draw is the upper
    [bits] bits of the source's 63.  The error does not stop them, but the 0 that
    comes with it does. *)
Fixpoint draw (bits max : Z) (src : list byte) : Z * list byte * option string :=
  match src with
  | b1 :: b2 :: b3 :: b4 :: b5 :: b6 :: b7 :: b8 :: src =>
      let v := Z.shiftr (Z.land (big_endian [b1; b2; b3; b4; b5; b6; b7; b8]) 0x7fffffffffffffff) (63 - bits) in
      if max <? v then draw bits max src else (v, src, None)
  | _ => (0, [], Some rand_err)
  end.

Definition intn (bits n : Z) (src : list byte) : Z * list byte * option string :=
  if Z.land n (n - 1) =? 0 then
    let '(v, src, err) := draw bits (2 ^ bits) src in (Z.land v (n - 1), src, err)
  else
    let '(v, src, err) := draw bits (2 ^ bits - 1 - 2 ^ bits mod n) src in (v mod n, src, err).

Definition Intn (max : Z) : Rand Z := fun src =>
  if max <=? 0 then (src, None)
  else
    let '(v, src, err) := if max <=? 2 ^ 31 - 1 then intn 31 max src else intn 63 max src in
    (src, with_source_error v err).

Definition Element {A} (s : list A) : Rand A := fun src =>
  if Nat.eqb (length s) 0 then (src, Some (Err "slice must have at least one element"))
  else match Intn (Z.of_nat (length s)) src with
  | (src, Some (Err e)) => (src, Some (Err ("generate random integer from 0-" +:+ FormatInt (Z.of_nat (length s)) +:+ ": " +:+ e)))
  | (src, Some (Ok i)) => index_or_panic s i src
  | (src, None) => (src, None)
  end.
End Source.

(** * Theorems *)

(** ** Words *)

Lemma byte_val_range b : 0 <= byte_val b < 256.
Proof. unfold byte_val. pose proof (Byte.to_N_bounded b). lia. Qed.

Lemma big_endian_app l b : big_endian (l ++ [b]) = big_endian l * 256 + byte_val b.
Proof. unfold big_endian. by rewrite foldl_app. Qed.

Lemma big_endian_range l : 0 <= big_endian l < 256 ^ Z.of_nat (length l).
Proof.
  induction l as [|b l IH] using rev_ind; [done|]. rewrite big_endian_app, length_app, Nat.add_1_r, Nat2Z.inj_succ, Z.pow_succ_r by lia.
  pose proof (byte_val_range b). lia.
Qed.

Lemma word32_range b1 b2 b3 b4 : 0 <= word32 b1 b2 b3 b4 < 2 ^ 32.
Proof. exact (big_endian_range [b1; b2; b3; b4]). Qed.

(** ** Rejection *)

Section Modulo.
Context (e : string) (n : Z) (Hn : 0 < n < 2 ^ 31).

Lemma product_small v : 0 <= v < 2 ^ 32 -> product v n = v * n.
Proof. intros Hv. unfold product. rewrite (wrapu_id 64 n) by lia. apply wrapu_id. nia. Qed.

Lemma threshold : wrapu 32 (wraps 32 (- n)) mod wrapu 32 n = 2 ^ 32 mod n.
Proof.
  rewrite (wrapu_id 32 n), (wraps_id 32 (- n)) by lia. unfold wrapu.
  replace (- n) with (2 ^ 32 - n + (-1) * 2 ^ 32) by lia. rewrite Z_mod_plus_full, (Z.mod_small (2 ^ 32 - n)) by lia.
  replace (2 ^ 32 - n) with (2 ^ 32 + (-1) * n) by lia. apply Z_mod_plus_full.
Qed.

Definition accepted (v : Z) : bool := 2 ^ 32 mod n <=? (v * n) mod 2 ^ 32.
Definition word_index (v : Z) : Z := v * n / 2 ^ 32.

Lemma word_index_range v : 0 <= v < 2 ^ 32 -> 0 <= word_index v < n.
Proof.
  intros Hv. unfold word_index. split; [apply Z.div_pos; nia|]. apply Z.div_lt_upper_bound; nia.
Qed.

Lemma high_word v : 0 <= v < 2 ^ 32 -> wraps 32 (Z.shiftr (v * n) 32) = word_index v.
Proof.
  intros Hv. rewrite Z.shiftr_div_pow2 by lia. pose proof (word_index_range v Hv). apply wraps_id; unfold word_index in *; lia.
Qed.

(** The first test only saves the computation of the threshold. *)
Lemma unbiasedModulo32_resample v src : 0 <= v < 2 ^ 32 ->
  unbiasedModulo32 e v n src = resample e n (2 ^ 32 mod n) (v * n) src.
Proof.
  intros Hv. unfold unbiasedModulo32. rewrite product_small, threshold, (wrapu_id 32 n) by lia.
  destruct (Z.ltb_spec (wrapu 32 (v * n)) n) as [|Hl]; [done|]. pose proof (Z.mod_pos_bound (2 ^ 32) n).
  destruct src; cbn [resample]; by rewrite (proj2 (Z.ltb_ge _ _)) by lia.
Qed.

Lemma unbiasedModulo32_accepted v src : 0 <= v < 2 ^ 32 -> accepted v = true ->
  unbiasedModulo32 e v n src = (src, Some (Ok (word_index v))).
Proof.
  intros Hv Ha%Z.leb_le. rewrite unbiasedModulo32_resample, <- high_word by done.
  destruct src; cbn [resample]; by rewrite (proj2 (Z.ltb_ge _ _)) by exact Ha.
Qed.

Lemma unbiasedModulo32_rejected v src : 0 <= v < 2 ^ 32 -> accepted v = false ->
  unbiasedModulo32 e v n src =
  match src with
  | b1 :: b2 :: b3 :: b4 :: src => unbiasedModulo32 e (word32 b1 b2 b3 b4) n src
  | _ => ([], Some (Err e))
  end.
Proof.
  intros Hv Ha%Z.leb_gt. rewrite unbiasedModulo32_resample by done.
  destruct src as [|b1 [|b2 [|b3 [|b4 src]]]]; cbn [resample]; rewrite (proj2 (Z.ltb_lt _ _)) by exact Ha; [done..|].
  pose proof (word32_range b1 b2 b3 b4). by rewrite product_small, unbiasedModulo32_resample by done.
Qed.

(** The words accepted for an index are consecutive. *)
Lemma accepted_interval k : 0 <= k < n -> exists c, 0 <= c /\ c + 2 ^ 32 / n <= 2 ^ 32 /\
  forall v, 0 <= v < 2 ^ 32 -> accepted v && (word_index v =? k) = (c <=? v) && (v <? c + 2 ^ 32 / n).
Proof.
  intros Hk. pose proof (Z.div_mod (2 ^ 32) n ltac:(lia)) as HM. pose proof (Z.mod_pos_bound (2 ^ 32) n ltac:(lia)) as Hr.
  set (q := 2 ^ 32 / n) in *. set (r := 2 ^ 32 mod n) in *.
  set (a := k * 2 ^ 32 + r). exists ((a + n - 1) / n).
  pose proof (Z.div_mod (a + n - 1) n ltac:(lia)) as Ha. pose proof (Z.mod_pos_bound (a + n - 1) n ltac:(lia)) as Hra.
  set (c := (a + n - 1) / n) in *.
  assert (0 <= a) by (unfold a; nia). assert (Hq : a + n * q = (k + 1) * 2 ^ 32) by (unfold a; lia).
  assert (0 <= c) by (apply Z.div_pos; lia). assert (0 <= q) by (apply Z.div_pos; lia).
  split_and!; [done|nia|]. intros v Hv. unfold accepted, word_index. fold r.
  pose proof (Z.div_mod (v * n) (2 ^ 32) ltac:(lia)) as Hd. pose proof (Z.mod_pos_bound (v * n) (2 ^ 32) ltac:(lia)) as Hm.
  set (h := v * n / 2 ^ 32) in *. set (l := (v * n) mod 2 ^ 32) in *. apply eq_true_iff_eq.
  rewrite !andb_true_iff, Z.eqb_eq, !Z.leb_le, Z.ltb_lt. split.
  - intros [Hl ->]. unfold a in *. split; nia.
  - intros [Hc Hv']. assert (Hlo : a <= v * n) by nia. assert (Hhi : v * n < a + n * q) by nia.
    assert (h = k) as -> by (unfold a in *; nia). split; [unfold a in *; lia|done].
Qed.
End Modulo.

Lemma filter_constant {A} (p : A -> bool) b l : (forall x, x ∈ l -> p x = b) -> List.filter p l = if b then l else [].
Proof.
  induction l as [|x l IH]; intros Hp; simpl; [by destruct b|]. rewrite (Hp x) by (by left).
  rewrite IH by (intros y Hy; apply Hp; by right). by destruct b.
Qed.

Lemma count_interval c q m : 0 <= c -> 0 <= q -> c + q <= m ->
  length (List.filter (fun v => (c <=? v) && (v <? c + q)) (seqZ 0 m)) = Z.to_nat q.
Proof.
  intros Hc Hq Hm. replace m with (c + (q + (m - c - q))) by lia.
  rewrite !seqZ_app, !List.filter_app, !length_app by lia.
  rewrite (filter_constant _ false (seqZ 0 c)), (filter_constant _ true (seqZ (0 + c) q)), (filter_constant _ false (seqZ (0 + c + q) _));
    [rewrite length_seqZ; simpl; lia|..]; intros v Hv%elem_of_seqZ; lia.
Qed.

(** [v] gives [k] without another word: the source is empty. *)
Definition gives (e : string) (n k v : Z) : bool :=
  match unbiasedModulo32 e v n [] with (_, Some (Ok i)) => i =? k | _ => false end.

Lemma gives_accepted e n k v : 0 < n < 2 ^ 31 -> 0 <= v < 2 ^ 32 -> gives e n k v = accepted n v && (word_index n v =? k).
Proof.
  intros Hn Hv. unfold gives. destruct (accepted n v) eqn:Ha.
  - by rewrite unbiasedModulo32_accepted.
  - by rewrite unbiasedModulo32_rejected.
Qed.

Lemma filter_ext_elem {A} (p q : A -> bool) l : (forall x, x ∈ l -> p x = q x) -> List.filter p l = List.filter q l.
Proof.
  induction l as [|x l IH]; intros Hp; simpl; [done|]. rewrite (Hp x) by (by left). by rewrite IH by (intros y Hy; apply Hp; by right).
Qed.

(** C37: the modulo is unbiased.  Of the 2^32 words, each index below [n] is given by
    exactly ⌊2^32 / n⌋ and no other index by any; and the function is rejection
    sampling: a word that gives an index is enough whatever the source holds, a
    word that does not is replaced with the next of the source, which is only
    touched then, and the source's error is returned when it runs out. *)
Theorem unbiased_uniform e n : 0 < n < 2 ^ 31 ->
  (forall k, 0 <= k < n -> length (List.filter (gives e n k) (seqZ 0 (2 ^ 32))) = Z.to_nat (2 ^ 32 / n)) /\
  (forall v src, 0 <= v < 2 ^ 32 ->
     match unbiasedModulo32 e v n [] with
     | (_, Some (Ok i)) => 0 <= i < n /\ unbiasedModulo32 e v n src = (src, Some (Ok i))
     | _ => unbiasedModulo32 e v n src =
              match src with
              | b1 :: b2 :: b3 :: b4 :: src => unbiasedModulo32 e (word32 b1 b2 b3 b4) n src
              | _ => ([], Some (Err e))
              end
     end).
Proof.
  intros Hn. split.
  - intros k Hk. destruct (accepted_interval n Hn k Hk) as (c & Hc & Hcm & Hi).
    rewrite (filter_ext_elem _ (fun v => (c <=? v) && (v <? c + 2 ^ 32 / n))).
    + apply count_interval; [lia|apply Z.div_pos; lia|lia].
    + intros v Hv%elem_of_seqZ. rewrite gives_accepted by lia. apply Hi. lia.
  - intros v src Hv. destruct (accepted n v) eqn:Ha.
    + rewrite !unbiasedModulo32_accepted by done. split; [by apply word_index_range|done].
    + rewrite (unbiasedModulo32_rejected e n Hn v []) by done. by apply unbiasedModulo32_rejected.
Qed.

(** ** Strings *)

Lemma unbiasedModulo32_outcome e n v src : 0 < n < 2 ^ 31 -> 0 <= v < 2 ^ 32 ->
  unbiasedModulo32 e v n src = ([], Some (Err e)) \/
  exists i src', unbiasedModulo32 e v n src = (src', Some (Ok i)) /\ 0 <= i < n /\ src' `suffix_of` src.
Proof.
  intros Hn. remember (length src) as m eqn:Hm. revert v src Hm. induction (lt_wf m) as [m _ IH]. intros v src -> Hv.
  destruct (accepted n v) eqn:Ha.
  { right. rewrite unbiasedModulo32_accepted by done. eexists _, _. split; [done|]. split; [by apply word_index_range|done]. }
  rewrite unbiasedModulo32_rejected by done.
  destruct src as [|b1 [|b2 [|b3 [|b4 src]]]]; [by left..|].
  destruct (IH (length src) ltac:(simpl; lia) (word32 b1 b2 b3 b4) src eq_refl (word32_range _ _ _ _)) as [->|(i & src' & -> & Hi & Hs)]; [by left|]. right. eexists _, _. split; [done|]. split; [done|].
  etrans; [exact Hs|]. by exists [b1; b2; b3; b4].
Qed.

Definition word_chars (charSet : list string) (size : nat) (s : string) : Prop :=
  exists l, length l = size /\ Forall (fun r => r ∈ charSet) l /\ s = String.concat "" l.

Lemma charset_loop_step e charSet b1 b2 b3 b4 entropy size src : Z.of_nat (length charSet) < 2 ^ 31 ->
  charset_loop e charSet (b1 :: b2 :: b3 :: b4 :: entropy) (S size) src =
  match unbiasedModulo32 e (word32 b1 b2 b3 b4) (Z.of_nat (length charSet)) src with
  | (src, Some (Ok ci)) =>
      match index_or_panic charSet ci src with
      | (src, Some (Ok r)) =>
          match charset_loop e charSet entropy size src with
          | (src, Some (Ok buf)) => (src, Some (Ok (r +:+ buf)))
          | failed => failed
          end
      | (src, Some (Err m)) => (src, Some (Err m))
      | (src, None) => (src, None)
      end
  | (src, Some (Err m)) => (src, Some (Err m))
  | (src, None) => (src, None)
  end.
Proof.
  intros Hn. cbn [charset_loop]. unfold mbind, Rand_bind. rewrite (wraps_id 32) by lia.
  by repeat (case_match; simplify_eq/=).
Qed.

Lemma charset_loop_outcome e charSet size : 0 < Z.of_nat (length charSet) < 2 ^ 31 -> forall entropy src, length entropy = (4 * size)%nat ->
  charset_loop e charSet entropy size src = ([], Some (Err e)) \/
  exists s src', charset_loop e charSet entropy size src = (src', Some (Ok s)) /\ word_chars charSet size s /\ src' `suffix_of` src.
Proof.
  intros Hn. induction size as [|size IH]; intros entropy src He.
  { right. exists "", src. split; [done|]. split; [by exists []|done]. }
  destruct entropy as [|b1 [|b2 [|b3 [|b4 entropy]]]]; try (simpl in He; lia).
  rewrite charset_loop_step by lia.
  destruct (unbiasedModulo32_outcome e (Z.of_nat (length charSet)) (word32 b1 b2 b3 b4) src Hn (word32_range _ _ _ _))
    as [->|(i & src1 & -> & Hi & Hs)]; [by left|].
  unfold index_or_panic. rewrite (proj2 (Z.ltb_ge i 0)) by lia.
  destruct (lookup_lt_is_Some_2 charSet (Z.to_nat i)) as [r Hr]; [lia|]. rewrite Hr. cbn [mret Rand_ret].
  destruct (IH entropy src1) as [->|(s & src' & -> & (l & Hl & Hf & ->) & Hs')]; [simpl in He; lia|by left|].
  right. eexists _, _. split; [done|]. split; [|by etrans].
  exists (r :: l). split; [simpl; lia|]. split; [constructor; [by eapply list_elem_of_lookup_2|done]|]. by rewrite concat_empty_cons.
Qed.

(** For a charset that is not empty and a length that fits, the result is that
    many characters of the charset, from at least four bytes each; the source's
    error is returned only when it has run out; there is no panic. *)
Lemma StringCharset_correct e charSetStr size src :
  charSetStr <> "" -> Z.of_nat (length (runes charSetStr)) < 2 ^ 31 -> 0 <= size < 2 ^ 61 ->
  StringCharset e charSetStr size src = ([], Some (Err e)) \/
  exists s src', StringCharset e charSetStr size src = (src', Some (Ok s)) /\
    word_chars (runes charSetStr) (Z.to_nat size) s /\
    exists used, src = used ++ src' /\ 4 * size <= Z.of_nat (length used).
Proof.
  intros Hne Hlen Hsize. unfold StringCharset. destruct (Z.eqb_spec size 0) as [->|Hz].
  { right. exists "", src. split; [done|]. split; [by exists []|]. by exists []. }
  destruct (Nat.eqb_spec (String.length charSetStr) 0) as [H0|_]; [by destruct charSetStr|].
  rewrite wraps_id by lia. rewrite (proj2 (Z.ltb_ge _ _)) by lia. unfold mbind, Rand_bind, Read.
  destruct (Nat.leb_spec (Z.to_nat (4 * size)) (length src)) as [Hle|]; [|by left].
  assert (0 < Z.of_nat (length (runes charSetStr))).
  { unfold runes. destruct charSetStr as [|a s]; [done|]. cbn [String.length runes_fuel]. destruct (decode_rune _) as [[??]|]; simpl; lia. }
  destruct (charset_loop_outcome e (runes charSetStr) (Z.to_nat size) ltac:(lia) (take (Z.to_nat (4 * size)) src) (drop (Z.to_nat (4 * size)) src))
    as [->|(s & src' & -> & Hw & used & Hs)]; [rewrite length_take; lia|by left|]. right. eexists _, _. split; [done|]. split; [done|].
  exists (take (Z.to_nat (4 * size)) src ++ used). rewrite <- app_assoc, <- Hs, take_drop, length_app, length_take. split; [done|lia].
Qed.

(** The characters of an ASCII charset take a byte each. *)
Lemma word_chars_length charSet size s : Forall (fun r => String.length r = 1%nat) charSet -> word_chars charSet size s -> String.length s = size.
Proof.
  intros Ha (l & <- & Hl & ->). induction Hl as [|r l Hr Hl IH]; [done|]. rewrite concat_empty_cons, length_app_str, IH.
  rewrite Forall_forall in Ha. by rewrite (Ha r Hr).
Qed.

Lemma Default_runes : Forall (fun r => String.length r = 1%nat /\ Split "-" r = [r]) (runes Default) /\ length (runes Default) = 62%nat.
Proof. split; [|done]. by apply (bool_decide_unpack _); vm_compute. Qed.

(** A text of the default charset has no hyphen. *)
Lemma Split_none_app sep (s t : string) w ws : Split sep s = [s] -> Split sep t = w :: ws -> Split sep (s +:+ t) = (s +:+ w) :: ws.
Proof.
  revert w. induction s as [|a s IH]; intros w Hs Ht; [done|]. change (String a s +:+ t) with (String a (s +:+ t)). cbn [Split] in *.
  destruct (Split sep s) as [|x xs] eqn:E; [done|]. destruct (Ascii.eqb a sep) eqn:Ea; [done|]. injection Hs as -> ->.
  by rewrite (IH w eq_refl Ht).
Qed.

Lemma Default_word size s : word_chars (runes Default) size s -> String.length s = size /\ Split "-" s = [s].
Proof.
  destruct Default_runes as [Hd _]. intros Hw. split.
  { apply (word_chars_length (runes Default)); [|done].
    eapply Forall_impl; [exact Hd|]. by intros ? [? _]. }
  destruct Hw as (l & _ & Hl & ->). induction Hl as [|r l Hr Hl IH]; [done|]. rewrite concat_empty_cons.
  rewrite Forall_forall in Hd. destruct (Hd r Hr) as [_ Hs]. exact (Split_none_app _ _ _ _ _ Hs IH).
Qed.

(** ** Numbers *)

Lemma draw_outcome e bits max src : 0 < bits <= 63 -> 0 <= max ->
  let '(v, src', err) := draw e bits max src in
  0 <= v <= max /\ v < 2 ^ bits /\ (err = None /\ src' `suffix_of` src \/ err = Some e /\ src' = []).
Proof.
  intros Hb Hm. remember (length src) as m eqn:Hlen. revert src Hlen. induction (lt_wf m) as [m _ IH]. intros src ->.
  destruct src as [|b1 [|b2 [|b3 [|b4 [|b5 [|b6 [|b7 [|b8 src]]]]]]]]; cbn [draw]; try (split; [lia|]; split; [lia|]; by right).
  set (v := Z.shiftr _ _). assert (Hv : 0 <= v < 2 ^ bits).
  { unfold v. rewrite Z.shiftr_div_pow2 by lia. change 0x7fffffffffffffff with (Z.ones 63). rewrite Z.land_ones by lia.
    pose proof (Z.mod_pos_bound (big_endian [b1; b2; b3; b4; b5; b6; b7; b8]) (2 ^ 63) ltac:(lia)).
    split; [apply Z.div_pos; lia|]. apply Z.div_lt_upper_bound; [lia|]. rewrite <- Z.pow_add_r by lia. replace (63 - bits + bits) with 63 by lia. lia. }
  destruct (Z.ltb_spec max v).
  - specialize (IH (length src) ltac:(simpl; lia) src eq_refl). destruct (draw e bits max src) as [[v' src'] err].
    destruct IH as (? & ? & IH). split_and!; [lia..|]. destruct IH as [[-> Hs]|[-> ->]]; [left|by right].
    split; [done|]. etrans; [exact Hs|]. by exists [b1; b2; b3; b4; b5; b6; b7; b8].
  - split_and!; [lia..|]. left. split; [done|]. by exists [b1; b2; b3; b4; b5; b6; b7; b8].
Qed.

Lemma land_le_r a b : 0 <= a -> 0 <= b -> Z.land a b <= b.
Proof.
  intros Ha Hb. rewrite <- (Z2N.id a), <- (Z2N.id b), <- N2Z.inj_land by done. apply N2Z.inj_le, N.land_le_r.
Qed.

Lemma intn_outcome e bits n src : 0 < bits <= 63 -> 0 < n < 2 ^ bits ->
  let '(v, src', err) := intn e bits n src in 0 <= v < n /\ (err = None /\ src' `suffix_of` src \/ err = Some e /\ src' = []).
Proof.
  intros Hb Hn. unfold intn. destruct (Z.land n (n - 1) =? 0).
  - pose proof (draw_outcome e bits (2 ^ bits) src Hb ltac:(lia)) as Hd. destruct (draw e bits (2 ^ bits) src) as [[v src'] err].
    destruct Hd as (Hv & _ & Hd). split; [|done]. split; [apply Z.land_nonneg; lia|].
    pose proof (land_le_r v (n - 1)). lia.
  - pose proof (Z.mod_pos_bound (2 ^ bits) n ltac:(lia)).
    assert (Hmax : 0 <= 2 ^ bits - 1 - 2 ^ bits mod n) by lia.
    pose proof (draw_outcome e bits _ src Hb Hmax) as Hd. destruct (draw e bits _ src) as [[v src'] err].
    destruct Hd as (Hv & _ & Hd). split; [|done]. apply Z.mod_pos_bound. lia.
Qed.

(** A number is below its bound; the source's error is returned only when it
    has run out, and the loop ends then too. *)
Lemma Intn_correct e max src : 0 < max < 2 ^ 63 ->
  Intn e max src = ([], Some (Err e)) \/
  exists i src', Intn e max src = (src', Some (Ok i)) /\ 0 <= i < max /\ src' `suffix_of` src.
Proof.
  intros Hmax. unfold Intn. rewrite (proj2 (Z.leb_gt _ _)) by lia.
  assert (Hi : let '(v, src', err) := if max <=? 2 ^ 31 - 1 then intn e 31 max src else intn e 63 max src in
               0 <= v < max /\ (err = None /\ src' `suffix_of` src \/ err = Some e /\ src' = [])).
  { destruct (Z.leb_spec max (2 ^ 31 - 1)); apply intn_outcome; lia. }
  destruct (if max <=? 2 ^ 31 - 1 then _ else _) as [[v src'] err]. destruct Hi as (Hv & [[-> Hs]|[-> ->]]); [right|by left].
  by exists v, src'.
Qed.

Lemma Element_correct {A} e (s : list A) src : Z.of_nat (length s) < 2 ^ 63 ->
  match Element e s src with
  | (_, Some (Ok x)) => x ∈ s
  | (src', Some (Err _)) => s = [] \/ src' = []
  | (_, None) => False
  end.
Proof.
  intros Hs. unfold Element. destruct (Nat.eqb_spec (length s) 0) as [Hl|Hl]; [left; by apply nil_length_inv|].
  destruct (Intn_correct e (Z.of_nat (length s)) src ltac:(lia)) as [->|(i & src' & -> & Hi & _)]; [by right|].
  unfold index_or_panic. rewrite (proj2 (Z.ltb_ge i 0)) by lia.
  destruct (lookup_lt_is_Some_2 s (Z.to_nat i)) as [r Hr]; [lia|]. rewrite Hr. by eapply list_elem_of_lookup_2.
Qed.

(** ** Examples *)

Module Examples.
Definition zeros (n : nat) : list byte := replicate n x00.

(** The word 0 is rejected for 62 characters, and 0x08421085 gives the third. *)
Example rejected_example :
  StringCharset "EOF" Default 1 (zeros 4) = ([], Some (Err "EOF")) /\
  StringCharset "EOF" Default 1 (zeros 4 ++ [x08; x42; x10; x85; x01]) = ([x01], Some (Ok "2")).
Proof. by vm_compute. Qed.

Lemma unbiased_uniform_witness :
  length (List.filter (gives "EOF" 62 61) (seqZ 0 (2 ^ 32))) = Z.to_nat (2 ^ 32 / 62) /\
  unbiasedModulo32 "EOF" 0 62 [xff; xff; xff; xff] = ([], Some (Ok 61)).
Proof.
  destruct (unbiased_uniform "EOF" 62 ltac:(lia)) as [Hc Hs]. split; [apply Hc; lia|].
  exact (Hs 0 [xff; xff; xff; xff] ltac:(lia)).
Defined.
End Examples.
