(* ===== verification/ApiKey.v ===== *)
(** * API keys: [wirtuald/apikey], [wirtuald/apikey.go] and [wirtuald/httpmw/apikey.go]

    A key is made with a random identifier and secret, of which the store keeps
    the hash; a request's token is split into the two and checked, its key is
    refreshed and extended, and the user's roles make the actor of the request.
    The store is the in-memory one.  The methods of it that are called here bear
    the actor of the system.  The details of responses are left out. *)

From Stdlib Require Import Ascii Strings.Byte.
From S2P Require Import Prelude GoStrings GoUtf8 GoEncoding GoSha256 GoJson GoTime Slices Db Rbac RbacPolicy RoleStore AuthDb Cryptorand.
Local Open Scope string_scope.
Local Open Scope list_scope.
Local Open Scope Z_scope.

#[export] Instance byte_eq_decision : EqDecision byte := Byte.byte_eq_dec.

(** [net.ParseIP]: the bytes of an address. *)
Class ParseIPs := ParseIP : string -> option (list byte).

(** [net.IPv4(0, 0, 0, 0)], in its form of 16 bytes. *)
Definition unspecified_IPv4 : list byte := replicate 10 x00 ++ [xff; xff] ++ replicate 4 x00.
Definition ip_or_unspecified `{ParseIPs} (addr : string) : list byte := default unspecified_IPv4 (ParseIP addr).

(** [time.Duration(n) * time.Second] *)
Definition seconds (n : Z) : Z := wraps 64 (n * Second).

(** [int64(d.Seconds())], exact on whole microseconds below 2^33 seconds. *)
Definition whole_seconds (d : Z) : Z := Z.quot d Second.

(** ** Making keys *)

Record CreateParams := mkCreateParams {
  cp_UserID : uuid;
  cp_LoginType : LoginType;
  cp_DefaultLifetime : Z;
  cp_ExpiresAt : Time;
  cp_LifetimeSeconds : Z;
  cp_Scope : string;
  cp_TokenName : string;
  cp_RemoteAddr : string;
}.

Definition scope_of_text (s : string) : option APIKeyScope :=
  if String.eqb s "all" then Some APIKeyScopeAll
  else if String.eqb s "application_connect" then Some APIKeyScopeApplicationConnect
  else None.

(** The clock as it is read: by [dbtime.Now()] for the expiry, by
    [time.Until], and by [dbtime.Now()] for the creation and the update. *)
Record Readings := mkReadings { rd_now : Time; rd_until : Time; rd_created : Time; rd_updated : Time }.

Section Generate.
Context `{ParseIPs} (rand_err : string).

Definition generateKey : Rand (string * string) :=
  id ← String_ rand_err 10;
  secret ← String_ rand_err 22;
  mret (id, secret).

(** The expiry and the lifetime in seconds. *)
Definition expiry (params : CreateParams) (rd : Readings) : Time * Z :=
  let '(expiresAt, lifetime) :=
    if IsZero (cp_ExpiresAt params) then
      if negb (cp_LifetimeSeconds params =? 0)
      then (Add (rd_now rd) (seconds (cp_LifetimeSeconds params)), cp_LifetimeSeconds params)
      else (Add (rd_now rd) (cp_DefaultLifetime params), whole_seconds (cp_DefaultLifetime params))
    else (cp_ExpiresAt params, cp_LifetimeSeconds params) in
  (expiresAt, if lifetime =? 0 then whole_seconds (Sub expiresAt (rd_until rd)) else lifetime).

Definition Generate (params : CreateParams) (rd : Readings) : Rand (APIKey * string) := fun src =>
  match generateKey src with
  | (src, Some (Err e)) => (src, Some (Err ("generate API key: " +:+ e)))
  | (src, None) => (src, None)
  | (src, Some (Ok (keyID, keySecret))) =>
      let hashed := Sum256 keySecret in
      let '(expiresAt, lifetimeSeconds) := expiry params rd in
      let ip := ip_or_unspecified (cp_RemoteAddr params) in
      let scope := if negb (String.eqb (cp_Scope params) "") then cp_Scope params else "all" in
      match scope_of_text scope with
      | None => (src, Some (Err ("invalid API key scope: " +:+ Quote scope)))
      | Some scope =>
          let token := keyID +:+ "-" +:+ keySecret in
          (src, Some (Ok (mkAPIKey keyID hashed (cp_UserID params) zeroTime (In_ expiresAt UTC) (rd_created rd) (rd_updated rd)
                            (cp_LoginType params) lifetimeSeconds ip scope (cp_TokenName params), token)))
      end
  end.

(** The cookie is its value, the token. *)
Definition createAPIKey (params : CreateParams) (rd : Readings) (src : list byte) (d : AuthData)
    : list byte * AuthData * option (result (string * APIKey)) :=
  match Generate params rd src with
  | (src, None) => (src, d, None)
  | (src, Some (Err e)) => (src, d, Some (Err ("generate API key: " +:+ e)))
  | (src, Some (Ok (key, sessionToken))) =>
      match InsertAPIKey key d with
      | (d, Err e) => (src, d, Some (Err ("insert API key: " +:+ e)))
      | (d, Ok newkey) => (src, d, Some (Ok (sessionToken, newkey)))
      end
  end.

(** The text of a duration is a parameter. *)
Definition validateAPIKeyLifetime (max_text : string) (maximumTokenDuration lifetime : Z) : result unit :=
  if lifetime <=? 0 then Err "lifetime must be positive number greater than 0"
  else if maximumTokenDuration <? lifetime then Err ("lifetime must be less than " +:+ max_text)
  else Ok tt.

(** [postToken]: what the request asks for; [randomName] is the name it is given
    otherwise, and [now] is read for its expiry. *)
Record CreateTokenRequest := mkTokenRequest { ctr_Lifetime : Z; ctr_Scope : string; ctr_TokenName : string }.

Definition postToken_params (max_text randomName : string) (maximumTokenDuration defaultTokenDuration : Z) (userID : uuid) (now : Time)
    (req : CreateTokenRequest) : result CreateParams :=
  let tokenName := if Nat.eqb (String.length (ctr_TokenName req)) 0 then randomName else ctr_TokenName req in
  if negb (ctr_Lifetime req =? 0) then
    _ ← validateAPIKeyLifetime max_text maximumTokenDuration (ctr_Lifetime req);
    Ok (mkCreateParams userID LoginTypeToken defaultTokenDuration (Add now (ctr_Lifetime req)) (whole_seconds (ctr_Lifetime req))
          (ctr_Scope req) tokenName "")
  else Ok (mkCreateParams userID LoginTypeToken defaultTokenDuration zeroTime 0 (ctr_Scope req) tokenName "").

(** [postAPIKey] *)
Definition postAPIKey_params (defaultTokenDuration : Z) (userID : uuid) (remoteAddr : string) : CreateParams :=
  mkCreateParams userID LoginTypePassword defaultTokenDuration zeroTime 0 "" "" remoteAddr.
End Generate.

(** ** Tokens *)

Definition SplitAPIToken (token : string) : result (string * string) :=
  match Split "-" token with
  | [keyID; keySecret] =>
      if negb (Nat.eqb (String.length keyID) 10)
      then Err ("invalid API key ID length, expected 10 got " +:+ FormatInt (Z.of_nat (String.length keyID)))
      else if negb (Nat.eqb (String.length keySecret) 22)
      then Err ("invalid API key secret length, expected 22 got " +:+ FormatInt (Z.of_nat (String.length keySecret)))
      else Ok (keyID, keySecret)
  | parts => Err ("incorrect amount of API key parts, expected 2 got " +:+ FormatInt (Z.of_nat (length parts)))
  end.

(** Of a request, what is read here: the session cookie, the query parameter
    and the header of the token (empty when there is none), and the address of
    the client. *)
Record Request := mkRequest { rq_Cookie : option string; rq_Query : string; rq_Header : string; rq_RemoteAddr : string }.

Definition APITokenFromRequest (r : Request) : string :=
  match rq_Cookie r with
  | Some value => if negb (String.eqb value "") then value
                  else if negb (String.eqb (rq_Query r) "") then rq_Query r else rq_Header r
  | None => if negb (String.eqb (rq_Query r) "") then rq_Query r else rq_Header r
  end.

(** ** Authentication *)

Definition SignedOutErrorMessage : string :=
  "You are signed out or your session has expired. Please sign in again to continue.".
Definition internalErrorMessage : string :=
  "An internal error occurred. Please try again or contact the system administrator.".
Definition refreshErrorMessage : string :=
  "Could not refresh expired Oauth token. Try re-authenticating to resolve this issue.".

Definition StatusUnauthorized : Z := 401.
Definition StatusInternalServerError : Z := 500.

Record OAuth2Token := mkToken { tok_AccessToken : string; tok_RefreshToken : string; tok_Expiry : Time }.

(** [TokenSource(ctx, token).Token()], of a third party. *)
Abbreviation OAuth2Config := (OAuth2Token -> result OAuth2Token).

Record OAuth2Configs := mkOAuth2Configs { oc_Github : option OAuth2Config; oc_OIDC : option OAuth2Config }.

Definition OAuth2Configs_IsZero (c : option OAuth2Configs) : bool :=
  match c with
  | None => true
  | Some c => match oc_Github c, oc_OIDC c with None, None => true | _, _ => false end
  end.

(** The store is the state.  [ActivateDormantUser] gets the identifier, name
    and status of a user and gives the status it has then. *)
Record ExtractAPIKeyConfig := mkConfig {
  cfg_ActivateDormantUser : option (uuid -> string -> UserStatus -> ADB UserStatus);
  cfg_OAuth2Configs : option OAuth2Configs;
  cfg_RedirectToLogin : bool;
  cfg_DisableSessionExpiryRefresh : bool;
  cfg_Optional : bool;
  cfg_SessionTokenFunc : option (Request -> string);
}.

(** How a request ends without a key: it goes on ([nil, nil, true]), or a
    response was written. *)
Inductive ended :=
| Anonymous
| Written (code : Z) (message : string)
| RedirectedToLogin (message : string).

(** A handler that may end early. *)
Definition Handler (A : Type) : Type := AuthData -> AuthData * (ended + A).
#[export] Instance Handler_ret : MRet Handler := fun A a d => (d, inr a).
#[export] Instance Handler_bind : MBind Handler := fun A B f m d =>
  match m d with (d, inr a) => f a d | (d, inl x) => (d, inl x) end.
Definition exit {A} (x : ended) : Handler A := fun d => (d, inl x).
(** A call on the store, its errors turned into an end. *)
Definition call {A} (m : ADB A) (onerr : string -> ended) : Handler A := fun d =>
  match m d with (d, Ok a) => (d, inr a) | (d, Err e) => (d, inl (onerr e)) end.

Definition zeroLink : UserLink := mkUserLink uuid_Nil LoginTypePassword "" "" "" zeroTime.

Definition refreshed (link : UserLink) (token : OAuth2Token) : UserLink :=
  ((link{{ ul_OAuthAccessToken := tok_AccessToken token }}){{ ul_OAuthRefreshToken := tok_RefreshToken token }})
    {{ ul_OAuthExpiry := tok_Expiry token }}.

Definition isNoRows (e : string) : bool := String.eqb e ErrNoRows.

Definition status_text (s : UserStatus) : string :=
  match s with UserActive => "active" | UserSuspended => "suspended" | UserDormant => "dormant" end.

(** [ActivateDormantUser] of [userauth.go]; the audit is left out. *)
Definition ActivateDormantUser (now : Time) (id : uuid) (username : string) (status : UserStatus) : ADB UserStatus := fun d =>
  if (id =? uuid_Nil)%N || negb (bool_decide (status = UserDormant)) then (d, Ok status)
  else match UpdateUserStatus id UserActive now d with
  | (d, Ok newUser) => (d, Ok (u_Status newUser))
  | (d, Err e) => (d, Err ("update user status: " +:+ e))
  end.

Section Authenticate.
Context `{ParseIPs} `{UuidText} `{UuidParse} (builtInRoles : gmap string (uuid -> Role)).

Definition APIKeyFromRequest (sessionTokenFunc : option (Request -> string)) (r : Request) : AuthData -> string + APIKey := fun d =>
  let token := match sessionTokenFunc with Some f => f r | None => APITokenFromRequest r end in
  if String.eqb token "" then inl SignedOutErrorMessage
  else match SplitAPIToken token with
  | Err _ => inl SignedOutErrorMessage
  | Ok (keyID, keySecret) =>
      match (GetAPIKeyByID keyID d).2 with
      | Err e => inl (if isNoRows e then SignedOutErrorMessage else internalErrorMessage)
      | Ok key => if negb (bool_decide (k_HashedSecret key = Sum256 keySecret)) then inl SignedOutErrorMessage else inr key
      end
  end.

(** [cache] is the request's cache of custom roles. *)
Definition UserRBACSubject (cache : RoleCache) (userID : uuid) (scope : string) : ADB (Subject * UserStatus) := fun d =>
  match GetAuthorizationUserRoles userID d with
  | (d, Err e) => (d, Err ("get authorization user roles: " +:+ e))
  | (d, Ok roles) =>
      (d, roleNames ← wrap "expand role names" (RoleNames roles);
          rbacRoles ← wrap "expand role names" (Expand builtInRoles (fun arg => (auth_CustomRoles arg d).2) cache roleNames).1;
          Ok (mkSubject (gr_Username roles) (uuid_String userID) (Some (Roles rbacRoles)) (gr_Groups roles) (Some (ScopeName scope)),
              gr_Status roles))
  end.

Section Config.
Context (cfg : ExtractAPIKeyConfig) (req : Request) (cache : RoleCache).

Definition write (code : Z) (message : string) : ended :=
  if cfg_RedirectToLogin cfg then RedirectedToLogin message else Written code message.
Definition optionalWrite (code : Z) (message : string) : ended :=
  if cfg_Optional cfg then Anonymous else write code message.

Definition oauthConfig (t : LoginType) : option OAuth2Config :=
  c ← cfg_OAuth2Configs cfg;
  match t with LoginTypeGithub => oc_Github c | LoginTypeOIDC => oc_OIDC c | _ => None end.

Definition uses_oauth (key : APIKey) : bool :=
  bool_decide (k_LoginType key = LoginTypeGithub) || bool_decide (k_LoginType key = LoginTypeOIDC).

Definition link_expired (link : UserLink) (now : Time) : bool :=
  Before (ul_OAuthExpiry link) now && negb (IsZero (ul_OAuthExpiry link)) && negb (String.eqb (ul_OAuthRefreshToken link) "").

(** The link of the key's login; when its token has expired, it is refreshed
    and the key gets its expiry.  The key, the link, and whether they changed. *)
Definition refresh_token (key : APIKey) (link : UserLink) : ended + OAuth2Token :=
  if OAuth2Configs_IsZero (cfg_OAuth2Configs cfg) then inl (write StatusInternalServerError internalErrorMessage)
  else match oauthConfig (k_LoginType key) with
  | None => inl (write StatusInternalServerError internalErrorMessage)
  | Some oauthConfig =>
      match oauthConfig (mkToken (ul_OAuthAccessToken link) (ul_OAuthRefreshToken link) (ul_OAuthExpiry link)) with
      | Err _ => inl (write StatusUnauthorized refreshErrorMessage)
      | Ok token => inr token
      end
  end.

Definition refresh_link (key : APIKey) (now : Time) : Handler (APIKey * UserLink * bool) :=
  if uses_oauth key then
    link ← call (GetUserLinkByUserIDLoginType (k_UserID key) (k_LoginType key)) (fun e =>
      if isNoRows e then optionalWrite StatusUnauthorized SignedOutErrorMessage
      else write StatusInternalServerError "A database error occurred");
    if link_expired link now then
      match refresh_token key link with
      | inl x => exit x
      | inr token => mret (key{{ k_ExpiresAt := tok_Expiry token }}, refreshed link token, true)
      end
    else mret (key, link, false)
  else mret (key, zeroLink, false).

(** The last use, once an hour, and the expiry, when an hour of the lifetime is
    gone. *)
Definition use_key (key : APIKey) (now : Time) : APIKey * bool :=
  if Hour <? Sub now (k_LastUsed key)
  then ((key{{ k_LastUsed := now }}){{ k_IPAddress := ip_or_unspecified (rq_RemoteAddr req) }}, true)
  else (key, false).

Definition extend_key (key : APIKey) (now : Time) : APIKey * bool :=
  if negb (cfg_DisableSessionExpiryRefresh cfg) then
    let apiKeyLifetime := seconds (k_LifetimeSeconds key) in
    if Sub (k_ExpiresAt key) now <=? wraps 64 (apiKeyLifetime - Hour)
    then (key{{ k_ExpiresAt := Add now apiKeyLifetime }}, true)
    else (key, false)
  else (key, false).

(** What changed is written, with the times of the last sight and of its
    update. *)
Definition save_key (key : APIKey) (link : UserLink) (lastSeen updatedAt : Time) : Handler unit :=
  let failed (_ : string) := write StatusInternalServerError internalErrorMessage in
  _ ← call (UpdateAPIKeyByID (k_ID key) (k_LastUsed key) (k_ExpiresAt key) (k_IPAddress key)) failed;
  _ ← (if negb (ul_UserID link =? uuid_Nil)%N
       then _ ← call (UpdateUserLink (ul_UserID link) (ul_LoginType link) (ul_OAuthAccessToken link) (ul_OAuthRefreshToken link)
                        (ul_OAuthExpiry link)) failed;
            mret tt
       else mret tt);
  _ ← call (UpdateUserLastSeenAt (k_UserID key) lastSeen updatedAt) failed;
  mret tt.

(** The actor of the key's user, who must be active. *)
Definition key_actor (key : APIKey) : Handler Subject :=
  '(actor, userStatus) ← call (UserRBACSubject cache (k_UserID key) (APIKeyScope_ToRBAC (k_Scope key)))
                           (fun _ => write StatusUnauthorized internalErrorMessage);
  userStatus ← match cfg_ActivateDormantUser cfg with
    | Some activate =>
        if bool_decide (userStatus = UserDormant) then
          let id := match uuid_Parse (s_ID actor) with Ok id => id | Err _ => uuid_Nil end in
          call (activate id (s_FriendlyName actor) userStatus) (fun _ => write StatusInternalServerError internalErrorMessage)
        else mret userStatus
    | None => mret userStatus
    end;
  if negb (bool_decide (userStatus = UserActive))
  then exit (write StatusUnauthorized ("User is not active (status = " +:+ Quote (status_text userStatus)
               +:+ "). Contact an admin to reactivate your account."))
  else mret actor.

Definition extract_key (key : APIKey) (now lastSeen updatedAt : Time) : Handler (APIKey * Subject) :=
  '(key, link, changed) ← refresh_link key now;
  if Before (k_ExpiresAt key) now then exit (optionalWrite StatusUnauthorized SignedOutErrorMessage)
  else
    let '(key, used) := use_key key now in
    let '(key, extended) := extend_key key now in
    _ ← (if changed || used || extended then save_key key link lastSeen updatedAt else mret tt);
    actor ← key_actor key;
    mret (key, actor).

(** [now] is read at the start, [lastSeen] and [updatedAt] when the changes are
    written. *)
Definition ExtractAPIKey (now lastSeen updatedAt : Time) : Handler (APIKey * Subject) := fun d =>
  match APIKeyFromRequest (cfg_SessionTokenFunc cfg) req d with
  | inl message => (d, inl (optionalWrite StatusUnauthorized message))
  | inr key => extract_key key now lastSeen updatedAt d
  end.
End Config.
End Authenticate.

(** * Theorems *)

(** ** Tokens *)

Lemma Split_Join (sep : ascii) s : Join (Split sep s) (String sep "") = s.
Proof.
  unfold Join. induction s as [|a s IH]; [done|]. cbn [Split].
  destruct (Split sep s) as [|w ws] eqn:E; [by destruct s as [|b s]; [|cbn in E; destruct (Split sep s), (Ascii.eqb b sep)]|].
  destruct (Ascii.eqb_spec a sep) as [->|_].
  - transitivity (String sep (String.concat (String sep "") (w :: ws))); [done|]. by rewrite IH.
  - transitivity (String a (String.concat (String sep "") (w :: ws))); [by destruct ws|]. by rewrite IH.
Qed.

Lemma Split_words (sep : ascii) s : Forall (fun w => Split sep w = [w]) (Split sep s).
Proof.
  induction s as [|a s IH]; [by constructor|]. cbn [Split]. destruct (Split sep s) as [|w ws]; [done|].
  destruct (Ascii.eqb a sep) eqn:Ea; [by constructor|]. inversion_clear IH as [|? ? Hw Hws]. constructor; [|done].
  cbn [Split]. by rewrite Hw, Ea.
Qed.

(** The tokens that are accepted, as they are printed. *)
Lemma SplitAPIToken_iff token id secret : SplitAPIToken token = Ok (id, secret) <->
  token = id +:+ "-" +:+ secret /\ (String.length id = 10%nat /\ Split "-" id = [id]) /\ String.length secret = 22%nat /\ Split "-" secret = [secret].
Proof.
  unfold SplitAPIToken. split.
  - intros Hs. pose proof (Split_Join "-" token) as Hj. pose proof (Split_words "-" token) as Hf.
    destruct (Split "-" token) as [|a [|b [|c l]]]; try done.
    destruct (Nat.eqb_spec (String.length a) 10); [|done]. destruct (Nat.eqb_spec (String.length b) 22); [|done]. simpl in Hs.
    injection Hs as -> ->. rewrite !Forall_cons in Hf. by destruct Hf as (? & ? & _).
  - intros (-> & (Hil & His) & Hsl & Hss).
    assert (Split "-" ("-" +:+ secret) = ["" ; secret]) as Hd by (change ("-" +:+ secret) with (String "-" secret); cbn [Split]; by rewrite Hss).
    rewrite (Split_none_app _ _ _ _ _ His Hd), append_empty_r, Hil, Hsl. done.
Qed.

Lemma SplitAPIToken_token id secret :
  word_chars (runes Default) 10 id -> word_chars (runes Default) 22 secret -> SplitAPIToken (id +:+ "-" +:+ secret) = Ok (id, secret).
Proof. intros Hi%Default_word Hs%Default_word. by apply SplitAPIToken_iff. Qed.

(** ** New keys *)

Lemma String_Ok e n src src' s : 0 <= n < 2 ^ 61 -> String_ e n src = (src', Some (Ok s)) -> word_chars (runes Default) (Z.to_nat n) s.
Proof.
  intros Hn Hs. assert (Hlen : Z.of_nat (length (runes Default)) < 2 ^ 31) by (by destruct Default_runes as [_ ->]).
  unfold String_ in Hs. destruct (StringCharset_correct e Default n src ltac:(done) Hlen Hn) as [Hf|(t & src1 & Hf & Hw & _)]; [congruence|].
  rewrite Hf in Hs. by injection Hs as _ <-.
Qed.

Lemma generateKey_Ok e src src' id secret : generateKey e src = (src', Some (Ok (id, secret))) ->
  word_chars (runes Default) 10 id /\ word_chars (runes Default) 22 secret.
Proof.
  unfold generateKey, mbind, Rand_bind. destruct (String_ e 10 src) as [src1 [[id'|]|]] eqn:E1; try discriminate.
  destruct (String_ e 22 src1) as [src2 [[secret'|]|]] eqn:E2; try discriminate. intros [= <- <- <-].
  split; [apply (String_Ok e 10) in E1|apply (String_Ok e 22) in E2]; first [done|lia].
Qed.

Section Keys.
Context `{ParseIPs} (e : string).

(** What [Generate] promises: the token is made of the key's identifier and of a
    secret whose hash is kept. *)
Lemma Generate_Ok params rd src src' key token : Generate e params rd src = (src', Some (Ok (key, token))) ->
  exists secret, SplitAPIToken token = Ok (k_ID key, secret) /\ k_HashedSecret key = Sum256 secret /\
    k_UserID key = cp_UserID params /\ k_LoginType key = cp_LoginType params /\
    (k_ExpiresAt key, k_LifetimeSeconds key) = (In_ (expiry params rd).1 UTC, (expiry params rd).2) /\
    (if String.eqb (cp_Scope params) "" then k_Scope key = APIKeyScopeAll else scope_of_text (cp_Scope params) = Some (k_Scope key)).
Proof.
  unfold Generate. destruct (generateKey e src) as [src1 [[[id secret]|]|]] eqn:Eg; try done.
  destruct (expiry params rd) as [expiresAt lifetime]. destruct (scope_of_text _) as [scope|] eqn:Es; [|done]. intros [= <- <- <-].
  destruct (generateKey_Ok _ _ _ _ _ Eg) as [Hi Hs]. exists secret. split; [by apply SplitAPIToken_token|]. split_and!; [done..|].
  simpl. destruct (String.eqb (cp_Scope params) ""); simpl in Es; [by injection Es as <-|done].
Qed.

Lemma InsertAPIKey_Ok arg d d' key : InsertAPIKey arg d = (d', Ok key) ->
  d' = d{{ a_apiKeys := a_apiKeys d ++ [key] }} /\
  key = arg{{ k_LifetimeSeconds := if k_LifetimeSeconds arg =? 0 then 86400 else k_LifetimeSeconds arg }}.
Proof.
  unfold InsertAPIKey. destruct (existsb _ _); [done|]. intros [= <- <-]. split; [done|]. destruct arg; simpl. by destruct (_ =? 0).
Qed.

Lemma createAPIKey_Ok params rd src d src' d' token key : createAPIKey e params rd src d = (src', d', Some (Ok (token, key))) ->
  exists arg, Generate e params rd src = (src', Some (Ok (arg, token))) /\ InsertAPIKey arg d = (d', Ok key).
Proof.
  unfold createAPIKey. destruct (Generate e params rd src) as [src1 [[[arg token']|]|]]; try done.
  destruct (InsertAPIKey arg d) as [d1 [newkey|]] eqn:E; try done. intros [= <- <- <- <-]. by exists arg.
Qed.
End Keys.

Lemma find_first_app_match {A} (p : A -> bool) l1 l2 :
  find_first p (l1 ++ l2) = match find_first p l1 with Some x => Some x | None => find_first p l2 end.
Proof. induction l1 as [|x l1 IH]; simpl; [done|]. by destruct (p x). Qed.

(** A token finds its key, and nothing but the secret's hash decides. *)
Lemma APIKeyFromRequest_token f req d id secret :
  let token := match f with Some f => f req | None => APITokenFromRequest req end in
  SplitAPIToken token = Ok (id, secret) ->
  APIKeyFromRequest f req d =
  match find_first (fun k => String.eqb (k_ID k) id) (a_apiKeys d) with
  | Some key => if bool_decide (k_HashedSecret key = Sum256 secret) then inr key else inl SignedOutErrorMessage
  | None => inl SignedOutErrorMessage
  end.
Proof.
  intros token Hs. unfold APIKeyFromRequest. fold token. destruct (String.eqb_spec token "") as [E|_]; [by rewrite E in Hs|].
  rewrite Hs. unfold GetAPIKeyByID. simpl. destruct (find_first _ _) as [key|]; simpl; [by destruct (bool_decide _)|done].
Qed.

Definition with_cookie (token : string) : Request := mkRequest (Some token) "" "" "".

Lemma with_cookie_token token : APITokenFromRequest (with_cookie token) = token.
Proof. unfold APITokenFromRequest. simpl. by destruct (String.eqb_spec token ""). Qed.

(** C23: the token that [createAPIKey] returns is the one its key is found by: when
    the identifier is fresh, a request with the token gets the key of the user,
    login and scope that were asked for, a token with the identifier and a secret of
    another hash gets nothing, and the tokens of other keys get what they did. *)
Theorem new_key_accepted `{ParseIPs} e params rd src d src' d' token key :
  createAPIKey e params rd src d = (src', d', Some (Ok (token, key))) ->
  Forall (fun k => k_ID k <> k_ID key) (a_apiKeys d) ->
  APIKeyFromRequest None (with_cookie token) d' = inr key /\
  k_UserID key = cp_UserID params /\ k_LoginType key = cp_LoginType params /\
  (cp_Scope params = "" /\ k_Scope key = APIKeyScopeAll \/ scope_of_text (cp_Scope params) = Some (k_Scope key)) /\
  (forall secret', String.length secret' = 22%nat -> Split "-" secret' = [secret'] -> Sum256 secret' <> k_HashedSecret key ->
     APIKeyFromRequest None (with_cookie (k_ID key +:+ "-" +:+ secret')) d' = inl SignedOutErrorMessage) /\
  (forall token' id' secret', SplitAPIToken token' = Ok (id', secret') -> id' <> k_ID key ->
     APIKeyFromRequest None (with_cookie token') d' = APIKeyFromRequest None (with_cookie token') d).
Proof.
  intros (arg & Hg & Hi)%createAPIKey_Ok Hfresh.
  destruct (Generate_Ok _ _ _ _ _ _ _ Hg) as (secret & Hsplit & Hhash & Huser & Hlogin & _ & Hscope).
  destruct (InsertAPIKey_Ok _ _ _ _ Hi) as [-> Hkey].
  assert (Hid : k_ID arg = k_ID key) by (by rewrite Hkey). rewrite Hid in Hsplit.
  assert (Hown : find_first (fun k => String.eqb (k_ID k) (k_ID key)) (a_apiKeys d ++ [key]) = Some key).
  { rewrite find_first_app_match, (proj2 (find_first_None _ _)); [simpl; by rewrite String.eqb_refl|].
    eapply Forall_impl; [exact Hfresh|]. intros k Hk. by apply String.eqb_neq. }
  split_and!.
  - rewrite (APIKeyFromRequest_token _ _ _ (k_ID key) secret) by (by rewrite with_cookie_token). simpl. rewrite Hown.
    rewrite bool_decide_eq_true_2; [done|]. by rewrite Hkey.
  - by rewrite Hkey.
  - by rewrite Hkey.
  - rewrite Hkey. simpl. destruct (String.eqb_spec (cp_Scope params) ""); auto.
  - intros secret' Hl Hn Hh. apply SplitAPIToken_iff in Hsplit as (_ & Hkid & _).
    assert (Hf : SplitAPIToken (k_ID key +:+ "-" +:+ secret') = Ok (k_ID key, secret')) by (by apply SplitAPIToken_iff).
    rewrite (APIKeyFromRequest_token _ _ _ (k_ID key) secret') by (by rewrite with_cookie_token). simpl. rewrite Hown.
    rewrite bool_decide_eq_false_2; [done|congruence].
  - intros token' id' secret' Hs Hne.
    assert (Ht : SplitAPIToken (APITokenFromRequest (with_cookie token')) = Ok (id', secret')) by (by rewrite with_cookie_token).
    rewrite !(APIKeyFromRequest_token None _ _ id' secret' Ht). simpl.
    rewrite find_first_app_match. simpl. rewrite (proj2 (String.eqb_neq _ _)) by congruence. by destruct (find_first (fun k => String.eqb (k_ID k) id') (a_apiKeys d)).
Qed.

(** ** Requests *)

Lemma Handler_bind_inr {A B} (m : Handler A) (f : A -> Handler B) d d' b :
  (m ≫= f) d = (d', inr b) <-> exists d1 a, m d = (d1, inr a) /\ f a d1 = (d', inr b).
Proof.
  unfold mbind, Handler_bind. destruct (m d) as [d1 [x|a]]; split.
  - done.
  - by intros (? & ? & [=] & _).
  - intros Hf. by exists d1, a.
  - by intros (? & ? & [= <- <-] & ?).
Qed.

Lemma call_inr {A} (m : ADB A) onerr d d' a : call m onerr d = (d', inr a) <-> m d = (d', Ok a).
Proof. unfold call. destruct (m d) as [d1 [x|e]]; split; congruence. Qed.

Lemma mret_inr {A} (a b : A) d d' : (mret a : Handler A) d = (d', inr b) <-> d' = d /\ b = a.
Proof. unfold mret, Handler_ret. split; [by intros [= <- <-]|by intros [-> ->]]. Qed.

(** A state with the same rights: what a user may do is read from the same
    rows. *)
Definition same_user (u u' : User) : Prop :=
  u_ID u' = u_ID u /\ u_Username u' = u_Username u /\ u_Status u' = u_Status u /\ u_RBACRoles u' = u_RBACRoles u.
Definition same_rights (d d' : AuthData) : Prop :=
  Forall2 same_user (a_users d) (a_users d') /\ a_organizationMembers d' = a_organizationMembers d /\
  a_groupMembers d' = a_groupMembers d /\ a_customRoles d' = a_customRoles d.

#[export] Instance same_user_refl : Reflexive same_user.
Proof. by intros u. Qed.
#[export] Instance same_user_trans : Transitive same_user.
Proof. intros u v w (?&?&?&?) (?&?&?&?). split_and!; congruence. Qed.
#[export] Instance same_rights_preorder : PreOrder same_rights.
Proof.
  split.
  - intros d. split; [by apply Forall_Forall2_diag, Forall_true|done].
  - intros d1 d2 d3 (Hu & ? & ? & ?) (Hu' & ? & ? & ?). split_and!; try congruence. by etrans.
Qed.

Lemma find_same_user p l l' : Forall2 same_user l l' -> (forall u u', same_user u u' -> p u' = p u) ->
  option_relation same_user (fun _ => False) (fun _ => False) (find_first p l) (find_first p l').
Proof.
  intros Hl Hp. induction Hl as [|u u' l l' Hu Hl IH]; [done|]. simpl. rewrite (Hp u u' Hu). by destruct (p u).
Qed.

Lemma UserRBACSubject_rights `{UuidText} `{UuidParse} builtInRoles cache userID scope d d' : same_rights d d' ->
  (UserRBACSubject builtInRoles cache userID scope d').2 = (UserRBACSubject builtInRoles cache userID scope d).2.
Proof.
  intros (Hu & Hm & Hg & Hc). unfold UserRBACSubject, GetAuthorizationUserRoles, auth_CustomRoles. rewrite Hm, Hg.
  pose proof (find_same_user (fun u => (u_ID u =? userID)%N) _ _ Hu ltac:(intros u u' (Hid & _); by rewrite Hid)) as Hf.
  destruct (find_first _ (a_users d)) as [u|], (find_first _ (a_users d')) as [u'|]; simpl in Hf; try done.
  destruct Hf as (_ & -> & -> & ->). simpl. by rewrite Hc.
Qed.

Lemma UserRBACSubject_store `{UuidText} `{UuidParse} builtInRoles cache userID scope d :
  (UserRBACSubject builtInRoles cache userID scope d).1 = d.
Proof. unfold UserRBACSubject, GetAuthorizationUserRoles. by destruct (find_first _ _). Qed.

Lemma UserRBACSubject_actor `{UuidText} `{UuidParse} builtInRoles cache userID scope d actor status :
  (UserRBACSubject builtInRoles cache userID scope d).2 = Ok (actor, status) ->
  s_ID actor = uuid_String userID /\ s_Scope actor = Some (ScopeName scope) /\
  exists user, find_first (fun u => (u_ID u =? userID)%N) (a_users d) = Some user /\ u_Status user = status /\ u_Username user = s_FriendlyName actor.
Proof.
  unfold UserRBACSubject, GetAuthorizationUserRoles. destruct (find_first _ _) as [user|]; [|done]. simpl. intros Hs.
  apply bind_Ok in Hs as (names & _ & Hs). apply bind_Ok in Hs as (roles & _ & Hs). injection Hs as <- <-.
  split; [done|]. split; [done|]. by exists user.
Qed.

Lemma update_row_Ok {A} p (f : A -> A) l x l' : update_row p f l = Ok (x, l') <-> update_first p f l = Some (x, l').
Proof. unfold update_row. destruct (update_first p f l); simpl; split; congruence. Qed.

Section Requests.
Context `{ParseIPs} `{UuidText} `{UuidParse} (builtInRoles : gmap string (uuid -> Role)).
Context (cfg : ExtractAPIKeyConfig) (req : Request) (cache : RoleCache).

Lemma UpdateAPIKeyByID_rights id lastUsed expiresAt ip d d' u : UpdateAPIKeyByID id lastUsed expiresAt ip d = (d', Ok u) -> same_rights d d'.
Proof. unfold UpdateAPIKeyByID. destruct (update_row _ _ _) as [[k keys]|]; [|done]. by intros [= <- <-]. Qed.

Lemma UpdateUserLink_rights id t a b c d d' u : UpdateUserLink id t a b c d = (d', Ok u) -> same_rights d d'.
Proof.
  unfold UpdateUserLink. destruct (match find_first _ _ with Some _ => _ | None => _ end); [done|].
  destruct (update_row _ _ _) as [[k keys]|]; [|done]. by intros [= <- <-].
Qed.

Lemma UpdateUserLastSeenAt_rights id a b d d' u : UpdateUserLastSeenAt id a b d = (d', Ok u) -> same_rights d d'.
Proof.
  unfold UpdateUserLastSeenAt, update_user. destruct (update_row _ _ _) as [[x users]|] eqn:E; [|done]. intros [= <- <-].
  apply update_row_Ok in E. split; [|done]. simpl. eapply update_first_Forall2; [apply _|exact E|]. by intros [] _.
Qed.

Lemma save_key_rights key link lastSeen updatedAt d d' : save_key cfg key link lastSeen updatedAt d = (d', inr tt) -> same_rights d d'.
Proof.
  unfold save_key. intros Hs. apply Handler_bind_inr in Hs as (d1 & [] & Hu1%call_inr & Hs).
  apply Handler_bind_inr in Hs as (d2 & [] & Hu2 & Hs). apply Handler_bind_inr in Hs as (d3 & u & Hu3%call_inr & Hs).
  apply mret_inr in Hs as [-> _]. trans d1; [by eapply UpdateAPIKeyByID_rights|]. trans d2; [|by eapply UpdateUserLastSeenAt_rights].
  destruct (negb _).
  - apply Handler_bind_inr in Hu2 as (d4 & l & Hu4%call_inr & [-> _]%mret_inr). by eapply UpdateUserLink_rights.
  - by apply mret_inr in Hu2 as [-> _].
Qed.

Lemma refresh_link_Ok key now d d' key' link changed : refresh_link cfg key now d = (d', inr (key', link, changed)) ->
  d' = d /\
  ((key' = key /\ changed = false /\ (uses_oauth key = true -> link_expired link now = false)) \/
   (uses_oauth key = true /\ changed = true /\ exists old token,
      find_first (fun l => (ul_UserID l =? k_UserID key)%N && bool_decide (ul_LoginType l = k_LoginType key)) (a_userLinks d) = Some old /\
      link_expired old now = true /\ refresh_token cfg key old = inr token /\ key' = key{{ k_ExpiresAt := tok_Expiry token }} /\
      link = refreshed old token)).
Proof.
  unfold refresh_link. destruct (uses_oauth key) eqn:Eu.
  2: { intros [-> [= -> -> ->]]%mret_inr. split; [done|]. by left. }
  intros (d1 & old & Hc%call_inr & Hs)%Handler_bind_inr. unfold GetUserLinkByUserIDLoginType in Hc. injection Hc as <- Hc.
  destruct (find_first _ _) as [old'|]; [|done]. injection Hc as ->.
  destruct (link_expired old now) eqn:El.
  - destruct (refresh_token cfg key old) as [x|token] eqn:Er; [done|]. apply mret_inr in Hs as [-> [= -> -> ->]]. split; [done|]. right.
    split; [done|]. split; [done|]. exists old, token. by rewrite El, Er.
  - apply mret_inr in Hs as [-> [= -> -> ->]]. split; [done|]. by left.
Qed.

Lemma use_extend_key key now key1 key2 b1 b2 : use_key req key now = (key1, b1) -> extend_key cfg key1 now = (key2, b2) ->
  k_ID key2 = k_ID key /\ k_UserID key2 = k_UserID key /\ k_Scope key2 = k_Scope key /\ k_HashedSecret key2 = k_HashedSecret key.
Proof.
  unfold use_key, extend_key. destruct (_ <? _); intros [= <- <-]; (destruct (negb _); [destruct (_ <=? _)|]); by intros [= <- <-].
Qed.

Lemma key_actor_Ok key d d' actor : key_actor builtInRoles cfg cache key d = (d', inr actor) ->
  exists status, (UserRBACSubject builtInRoles cache (k_UserID key) (APIKeyScope_ToRBAC (k_Scope key)) d).2 = Ok (actor, status) /\
  (status = UserActive /\ d' = d \/
   status = UserDormant /\ exists activate, cfg_ActivateDormantUser cfg = Some activate /\
     activate (match uuid_Parse (s_ID actor) with Ok id => id | Err _ => uuid_Nil end) (s_FriendlyName actor) UserDormant d = (d', Ok UserActive)).
Proof.
  intros (d1 & [a status] & Hc%call_inr & Hs)%Handler_bind_inr.
  assert (d1 = d) as ->. { transitivity (UserRBACSubject builtInRoles cache (k_UserID key) (APIKeyScope_ToRBAC (k_Scope key)) d).1; [by rewrite Hc|apply UserRBACSubject_store]. }
  rewrite Hc. apply Handler_bind_inr in Hs as (d2 & st & Ha & Hs).
  destruct (bool_decide_reflect (st = UserActive)) as [->|]; [|done]. apply mret_inr in Hs as [-> ->]. exists status. split; [done|].
  destruct (cfg_ActivateDormantUser cfg) as [activate|]; [destruct (bool_decide_reflect (status = UserDormant)) as [->|Hn]|].
  - right. split; [done|]. exists activate. split; [done|]. by apply call_inr in Ha.
  - left. by apply mret_inr in Ha as [-> <-].
  - left. by apply mret_inr in Ha as [-> <-].
Qed.

(** C21: a request that is let through bears a token whose identifier is that of a
    stored key and whose secret has its hash; the key had not expired, or its login's link
    had and the provider renewed it to a time that is not over; the key's user exists
    and is active, or it was dormant, and then the last thing done was to call the
    configured activation for that user, which answered that the user is active
    now, and whose store is the one left; and the actor is that user,
    with the roles, groups and scope that the store gives them and the key.  Up to
    that activation no user's status or roles, no membership and no custom role has
    changed. *)
Theorem authenticated_requests now lastSeen updatedAt d d' key actor :
  ExtractAPIKey builtInRoles cfg req cache now lastSeen updatedAt d = (d', inr (key, actor)) ->
  exists id secret stored user,
    SplitAPIToken (match cfg_SessionTokenFunc cfg with Some f => f req | None => APITokenFromRequest req end) = Ok (id, secret) /\
    find_first (fun k => String.eqb (k_ID k) id) (a_apiKeys d) = Some stored /\ k_HashedSecret stored = Sum256 secret /\
    k_ID key = id /\ k_UserID key = k_UserID stored /\ k_Scope key = k_Scope stored /\
    (Before (k_ExpiresAt stored) now = false \/
     uses_oauth stored = true /\ exists link token, link ∈ a_userLinks d /\ ul_UserID link = k_UserID stored /\ link_expired link now = true /\
       refresh_token cfg stored link = inr token /\ Before (tok_Expiry token) now = false) /\
    find_first (fun u => (u_ID u =? k_UserID stored)%N) (a_users d) = Some user /\
    (u_Status user = UserActive /\ same_rights d d' \/
     u_Status user = UserDormant /\ exists activate d1, cfg_ActivateDormantUser cfg = Some activate /\ same_rights d d1 /\
       activate (match uuid_Parse (s_ID actor) with Ok userID => userID | Err _ => uuid_Nil end) (u_Username user) UserDormant d1
         = (d', Ok UserActive)) /\
    s_ID actor = uuid_String (k_UserID stored) /\
    (UserRBACSubject builtInRoles cache (k_UserID stored) (APIKeyScope_ToRBAC (k_Scope stored)) d).2 = Ok (actor, u_Status user).
Proof.
  unfold ExtractAPIKey.
  set (token := match cfg_SessionTokenFunc cfg with Some f => _ | None => _ end).
  destruct (SplitAPIToken token) as [[id secret]|] eqn:Es.
  2: { unfold APIKeyFromRequest. fold token. rewrite Es. by destruct (String.eqb token ""). }
  rewrite (APIKeyFromRequest_token _ _ _ id secret) by done.
  destruct (find_first _ (a_apiKeys d)) as [stored|] eqn:Ek; [|done].
  destruct (bool_decide_reflect (k_HashedSecret stored = Sum256 secret)) as [Hh|]; [|done].
  intros (d1 & [[key1 link] changed] & (-> & Hr)%refresh_link_Ok & Hs)%Handler_bind_inr.
  destruct (Before (k_ExpiresAt key1) now) eqn:Hb; [done|].
  destruct (use_key req key1 now) as [key2 used] eqn:E2. destruct (extend_key cfg key2 now) as [key3 extended] eqn:E3.
  destruct (use_extend_key _ _ _ _ _ _ E2 E3) as (Hid & Huser & Hscope & _).
  apply Handler_bind_inr in Hs as (d2 & [] & Hsave & Hs). apply Handler_bind_inr in Hs as (d3 & actor' & Ha & Hs).
  apply mret_inr in Hs as [-> [= <- <-]].
  assert (Hrights : same_rights d d2).
  { destruct (_ || _ || _); [by eapply save_key_rights|]. by apply mret_inr in Hsave as [-> _]. }
  destruct (key_actor_Ok _ _ _ _ Ha) as (status & Hsub & Hstatus).
  rewrite (UserRBACSubject_rights _ _ _ _ _ _ Hrights), Huser, Hscope in Hsub.
  assert (Hk : k_ID key1 = k_ID stored /\ k_UserID key1 = k_UserID stored /\ k_Scope key1 = k_Scope stored).
  { by destruct Hr as [(-> & _)|(_ & _ & ? & ? & _ & _ & _ & -> & _)]. }
  destruct Hk as (Hk1 & Hk2 & Hk3). rewrite Hk2, Hk3 in Hsub.
  destruct (UserRBACSubject_actor _ _ _ _ _ _ _ Hsub) as (Haid & _ & user & Hfu & <- & Hname).
  apply find_first_Some in Ek as Hst. destruct Hst as [_ Hst%String.eqb_eq].
  exists id, secret, stored, user. split_and!; try congruence.
  - destruct Hr as [(-> & _)|(Ho & _ & old & tok & Hold & Hex & Href & -> & _)]; [by left|right]. split; [done|].
    apply find_first_Some in Hold as (Hin & [Hul%N.eqb_eq _]%andb_true_iff). by exists old, tok.
  - destruct Hstatus as [[-> ->]|(-> & activate & -> & Hact)]; [by left|right]. split; [done|]. exists activate, d2.
    rewrite Hname. done.
Qed.

Lemma update_first_found {A} (p : A -> bool) (f : A -> A) l x : find_first p l = Some x -> p (f x) = true ->
  exists l', update_first p f l = Some (f x, l') /\ find_first p l' = Some (f x).
Proof.
  intros (l1 & l2 & -> & Hx & Hl1)%find_first_split Hf. exists (l1 ++ f x :: l2). split.
  - apply update_first_split. by exists l1, x, l2.
  - apply find_first_split. by exists l1, l2.
Qed.

(** The row of a key that is saved becomes that key. *)
Lemma save_key_found key stored user lastSeen updatedAt d :
  find_first (fun k => String.eqb (k_ID k) (k_ID stored)) (a_apiKeys d) = Some stored ->
  find_first (fun u => (u_ID u =? k_UserID stored)%N) (a_users d) = Some user ->
  key = ((stored{{ k_LastUsed := k_LastUsed key }}){{ k_ExpiresAt := k_ExpiresAt key }}){{ k_IPAddress := k_IPAddress key }} ->
  exists d', save_key cfg key zeroLink lastSeen updatedAt d = (d', inr tt) /\ same_rights d d' /\
    find_first (fun k => String.eqb (k_ID k) (k_ID stored)) (a_apiKeys d') = Some key.
Proof.
  intros Hk Hu Hkey. assert (Hid : k_ID key = k_ID stored /\ k_UserID key = k_UserID stored) by (by rewrite Hkey). destruct Hid as [Hid Huid].
  destruct (update_first_found _ (fun k => ((k{{ k_LastUsed := k_LastUsed key }}){{ k_ExpiresAt := k_ExpiresAt key }}){{ k_IPAddress := k_IPAddress key }})
    _ _ Hk) as (keys & Hup & Hfound); [by apply String.eqb_refl|].
  destruct (update_first_found _ (fun user => (user{{ u_LastSeenAt := lastSeen }}){{ u_UpdatedAt := updatedAt }}) _ _ Hu) as (users & Hus & _).
  { by apply find_first_Some in Hu as [_ Hu]. }
  set (d1 := d{{ a_apiKeys := keys }}). exists (d1{{ a_users := users }}).
  assert (Hs : save_key cfg key zeroLink lastSeen updatedAt d = (d1{{ a_users := users }}, inr tt)).
  { unfold save_key. apply Handler_bind_inr. exists d1, tt. split.
    { apply call_inr. unfold UpdateAPIKeyByID, update_row. rewrite Hid, Hup. done. }
    apply Handler_bind_inr. exists d1, tt. split; [done|]. apply Handler_bind_inr. eexists _, _. split; [|by apply mret_inr].
    apply call_inr. unfold UpdateUserLastSeenAt, update_user, update_row. rewrite Huid. change (a_users d1) with (a_users d). rewrite Hus. done. }
  split; [exact Hs|]. split; [by eapply save_key_rights|]. simpl. by rewrite Hkey.
Qed.

Lemma Sub_Add t d : - 2 ^ 63 <= d < 2 ^ 63 -> Sub (Add t d) t = d.
Proof. unfold Sub, Add. simpl. lia. Qed.

(** What the two rules do to a key: it has been used within the hour, and, unless
    this is turned off, it has more than its lifetime less an hour left. *)
Lemma use_extend_rules key now key1 key2 b1 b2 : use_key req key now = (key1, b1) -> extend_key cfg key1 now = (key2, b2) ->
  key2 = ((key{{ k_LastUsed := k_LastUsed key2 }}){{ k_ExpiresAt := k_ExpiresAt key2 }}){{ k_IPAddress := k_IPAddress key2 }} /\
  (b1 || b2 = false -> key2 = key) /\
  (Sub now (k_LastUsed key) <= Hour ->
     cfg_DisableSessionExpiryRefresh cfg = true \/
       0 <= k_LifetimeSeconds key * Second < 2 ^ 62 /\ k_LifetimeSeconds key * Second - Hour < Sub (k_ExpiresAt key) now ->
     b1 || b2 = false) /\
  Sub now (k_LastUsed key2) <= Hour /\ (k_LastUsed key2 = k_LastUsed key \/ k_LastUsed key2 = now) /\
  (cfg_DisableSessionExpiryRefresh cfg = true -> k_ExpiresAt key2 = k_ExpiresAt key) /\
  (cfg_DisableSessionExpiryRefresh cfg = false -> 0 <= k_LifetimeSeconds key * Second < 2 ^ 62 ->
     k_LifetimeSeconds key * Second - Hour < Sub (k_ExpiresAt key2) now /\
     (k_ExpiresAt key2 = k_ExpiresAt key \/ k_ExpiresAt key2 = Add now (k_LifetimeSeconds key * Second))).
Proof.
  assert (HH : 0 < Hour < 2 ^ 62) by done.
  assert (Hnow : Sub now now <= Hour) by (unfold Sub; lia).
  assert (HL : 0 <= k_LifetimeSeconds key * Second < 2 ^ 62 ->
    seconds (k_LifetimeSeconds key) = k_LifetimeSeconds key * Second /\
    wraps 64 (k_LifetimeSeconds key * Second - Hour) = k_LifetimeSeconds key * Second - Hour /\
    Sub (Add now (k_LifetimeSeconds key * Second)) now = k_LifetimeSeconds key * Second).
  { intros Hl. split; [apply wraps_id; lia|]. split; [apply wraps_id; lia|]. apply Sub_Add. lia. }
  destruct key as [? ? ? ? ? ? ? ? lifetime ? ? ?]. simpl in HL. unfold use_key, extend_key. simpl.
  destruct (Z.ltb_spec Hour (Sub now k_LastUsed)); intros [= <- <-]; simpl.
  all: destruct (cfg_DisableSessionExpiryRefresh cfg); simpl; [intros [= <- <-]; simpl; split_and!; solve [done|lia|by auto]|].
  all: destruct (Z.leb_spec (Sub k_ExpiresAt now) (wraps 64 (seconds lifetime - Hour))); intros [= <- <-]; simpl; split_and!;
    try done; try lia; try (by auto).
  all: try (intros _ [[=]|[Hl Hd]]; destruct (HL Hl) as (Hs & Hw & _); rewrite Hs, Hw in *; lia).
  all: intros _ Hl; destruct (HL Hl) as (Hs & Hw & Ha); rewrite ?Hs, ?Hw in *; split; [lia|by auto].
Qed.

Lemma APIKeyFromRequest_stored f d stored : APIKeyFromRequest f req d = inr stored ->
  find_first (fun k => String.eqb (k_ID k) (k_ID stored)) (a_apiKeys d) = Some stored.
Proof.
  destruct (SplitAPIToken (match f with Some f => f req | None => APITokenFromRequest req end)) as [[id secret]|] eqn:Es.
  2: { unfold APIKeyFromRequest. rewrite Es. by destruct (String.eqb _ ""). }
  rewrite (APIKeyFromRequest_token _ _ _ id secret) by done. destruct (find_first _ _) as [key|] eqn:Ek; [|done].
  destruct (bool_decide _); [|done]. intros [= <-]. apply find_first_Some in Ek as Hid. by destruct Hid as [_ ->%String.eqb_eq].
Qed.

Lemma key_actor_active key d actor :
  (UserRBACSubject builtInRoles cache (k_UserID key) (APIKeyScope_ToRBAC (k_Scope key)) d).2 = Ok (actor, UserActive) ->
  key_actor builtInRoles cfg cache key d = (d, inr actor).
Proof.
  intros Hsub. unfold key_actor. apply Handler_bind_inr. exists d, (actor, UserActive). split.
  - apply call_inr. pose proof (UserRBACSubject_store builtInRoles cache (k_UserID key) (APIKeyScope_ToRBAC (k_Scope key)) d) as Hd.
    destruct (UserRBACSubject _ _ _ _ d) as [d1 x]; simpl in *. congruence.
  - apply Handler_bind_inr. exists d, UserActive. split; [|done]. by destruct (cfg_ActivateDormantUser cfg).
Qed.

(** C22: a valid key is let through.  A request with the token of a key that no provider
    renews, that has not expired and whose user is active gets the key and the actor; its
    row is then the key it gets, used within the hour and, unless this is turned off,
    good for more than its lifetime less an hour; and when that was so before, nothing is
    written. *)
Theorem valid_key_accepted now lastSeen updatedAt d stored actor :
  APIKeyFromRequest (cfg_SessionTokenFunc cfg) req d = inr stored -> uses_oauth stored = false ->
  Before (k_ExpiresAt stored) now = false ->
  (UserRBACSubject builtInRoles cache (k_UserID stored) (APIKeyScope_ToRBAC (k_Scope stored)) d).2 = Ok (actor, UserActive) ->
  exists key d', ExtractAPIKey builtInRoles cfg req cache now lastSeen updatedAt d = (d', inr (key, actor)) /\
    find_first (fun k => String.eqb (k_ID k) (k_ID stored)) (a_apiKeys d') = Some key /\
    (Sub now (k_LastUsed stored) <= Hour ->
       cfg_DisableSessionExpiryRefresh cfg = true \/
         0 <= k_LifetimeSeconds stored * Second < 2 ^ 62 /\ k_LifetimeSeconds stored * Second - Hour < Sub (k_ExpiresAt stored) now ->
       key = stored /\ d' = d) /\
    Sub now (k_LastUsed key) <= Hour /\ (k_LastUsed key = k_LastUsed stored \/ k_LastUsed key = now) /\
    (cfg_DisableSessionExpiryRefresh cfg = true -> k_ExpiresAt key = k_ExpiresAt stored) /\
    (cfg_DisableSessionExpiryRefresh cfg = false -> 0 <= k_LifetimeSeconds stored * Second < 2 ^ 62 ->
       k_LifetimeSeconds stored * Second - Hour < Sub (k_ExpiresAt key) now /\
       (k_ExpiresAt key = k_ExpiresAt stored \/ k_ExpiresAt key = Add now (k_LifetimeSeconds stored * Second))).
Proof.
  intros Hreq Ho Hb Hsub. destruct (UserRBACSubject_actor _ _ _ _ _ _ _ Hsub) as (_ & _ & user & Hu & _).
  assert (Hk : find_first (fun k => String.eqb (k_ID k) (k_ID stored)) (a_apiKeys d) = Some stored) by (by eapply APIKeyFromRequest_stored).
  unfold ExtractAPIKey. rewrite Hreq.
  destruct (use_key req stored now) as [key1 used] eqn:E1. destruct (extend_key cfg key1 now) as [key extended] eqn:E2.
  destruct (use_extend_rules _ _ _ _ _ _ E1 E2) as (Hshape & Hsame & Hquiet & Hrules).
  destruct (use_extend_key _ _ _ _ _ _ E1 E2) as (_ & Huser & Hscope & _). exists key.
  assert (Hsave : exists d', (if false || used || extended then save_key cfg key zeroLink lastSeen updatedAt else mret tt) d = (d', inr tt) /\
    same_rights d d' /\ find_first (fun k => String.eqb (k_ID k) (k_ID stored)) (a_apiKeys d') = Some key /\ (used || extended = false -> d' = d)).
  { simpl. destruct (used || extended).
    - destruct (save_key_found key stored user lastSeen updatedAt d Hk Hu Hshape) as (d' & ? & ? & ?). by exists d'.
    - exists d. by rewrite Hsame. }
  destruct Hsave as (d' & Hsave & Hrights & Hfound & Hd'). exists d'. split; [|split; [done|split; [by auto|exact Hrules]]].
  apply Handler_bind_inr. exists d, (stored, zeroLink, false). split; [unfold refresh_link; by rewrite Ho|]. rewrite Hb, E1, E2.
  apply Handler_bind_inr. exists d', tt. split; [exact Hsave|]. apply Handler_bind_inr. exists d', actor. split; [|by apply mret_inr].
  apply key_actor_active. by rewrite Huser, Hscope, (UserRBACSubject_rights _ _ _ _ _ _ Hrights).
Qed.
End Requests.

(** ** Examples *)

Module Examples.
#[local] Existing Instance Rbac.Examples.text.
#[local] Existing Instance Rbac.Examples.parse.
#[local] Instance no_address : ParseIPs := fun _ => None.

Definition builtin : gmap string (uuid -> Role) := ReloadBuiltinRoles false.
Definition at_hour (h : Z) : Time := mkTime (zero_ns + h * Hour) UTC.
Definition alice : User := mkUser 9 "alice" UserActive false "" [] zeroTime zeroTime LoginTypePassword zeroTime.
Definition secret : string := "abcdefghijklmnopqrstuv".
Definition key_of (t : LoginType) (expires : Time) : APIKey :=
  mkAPIKey "0123456789" (Sum256 secret) 9 zeroTime expires zeroTime zeroTime t 86400 [] APIKeyScopeAll "".
Definition store_of (k : APIKey) (links : list UserLink) : AuthData := mkAuthData [alice] [] [] [] [k] links [] [].
Definition token : string := "0123456789-" +:+ secret.
Definition config (provider : option OAuth2Configs) (optional : bool) : ExtractAPIKeyConfig := mkConfig None provider false false optional None.
Definition extract cfg req d := ExtractAPIKey builtin cfg req ∅ (at_hour 100) (at_hour 100) (at_hour 100) d.

(** An expired key of a login whose link has expired too: a provider that renews
    the link makes the key valid for another day.  A provider whose new token does not
    expire locks the user out, and its tokens are not kept. *)
Definition old_link : UserLink := mkUserLink 9 LoginTypeGithub "" "access" "refresh" (at_hour 2).
Definition github (expires : Time) : option OAuth2Configs :=
  Some (mkOAuth2Configs (Some (fun _ => Ok (mkToken "access2" "refresh2" expires))) None).

Example expired_key_revived :
  let d := store_of (key_of LoginTypeGithub (at_hour 3)) [old_link] in
  match extract (config (github (at_hour 101)) false) (with_cookie token) d with
  | (_, inr (key, actor)) => k_ExpiresAt key = at_hour 124 /\ s_FriendlyName actor = "alice"
  | _ => False
  end.
Proof. by vm_compute. Qed.

Example unexpiring_token_locks_out :
  let d := store_of (key_of LoginTypeGithub (at_hour 200)) [old_link] in
  extract (config (github zeroTime) false) (with_cookie token) d = (d, inl (Written StatusUnauthorized SignedOutErrorMessage)).
Proof. by vm_compute. Qed.

(** An invalid token in a header is ignored where a key is optional. *)
Example invalid_header_ignored :
  extract (config None true) (mkRequest None "" "no token" "") (store_of (key_of LoginTypePassword (at_hour 200)) [])
  = (store_of (key_of LoginTypePassword (at_hour 200)) [], inl Anonymous).
Proof. by vm_compute. Qed.

(** A token with a lifetime of a day, used each day, does not expire: each use makes
    a new day of it. *)
Example lifetime_slides :
  let d := store_of (key_of LoginTypeToken (at_hour 101)) [] in
  match extract (config None false) (with_cookie token) d with (_, inr (key, _)) => k_ExpiresAt key = at_hour 124 | _ => False end.
Proof. by vm_compute. Qed.

Definition entropy : list byte := replicate 128 x11.
Definition session : CreateParams := mkCreateParams 9 LoginTypePassword (24 * Hour) zeroTime 0 "" "" "1.2.3.4".
Definition readings : Readings := mkReadings (at_hour 5) (at_hour 5) (at_hour 5) (at_hour 5).

Lemma new_key_accepted_witness : exists src' d' token key,
  createAPIKey "EOF" session readings entropy (store_of (key_of LoginTypePassword (at_hour 200)) []) = (src', d', Some (Ok (token, key))) /\
  token = "4444444444-4444444444444444444444" /\ APIKeyFromRequest None (with_cookie token) d' = inr key.
Proof.
  assert (Hmade : exists src' d' token key, createAPIKey "EOF" session readings entropy (store_of (key_of LoginTypePassword (at_hour 200)) [])
      = (src', d', Some (Ok (token, key))) /\ token = "4444444444-4444444444444444444444" /\ k_ID key = "4444444444").
  { eexists _, _, _, _. split; [vm_compute; reflexivity|]. by split. }
  destruct Hmade as (src' & d' & tok & key & Hm & Ht & Hid). exists src', d', tok, key. split; [done|]. split; [done|].
  apply (new_key_accepted "EOF" session readings entropy _ _ _ _ _ Hm). rewrite Hid. by repeat constructor.
Defined.

Lemma authenticated_requests_witness : exists key actor d' stored,
  extract (config None false) (with_cookie token) (store_of (key_of LoginTypePassword (at_hour 200)) []) = (d', inr (key, actor)) /\
  k_UserID key = k_UserID stored /\ s_ID actor = uuid_String (k_UserID stored).
Proof.
  assert (Hx : exists key actor d',
    extract (config None false) (with_cookie token) (store_of (key_of LoginTypePassword (at_hour 200)) []) = (d', inr (key, actor))).
  { eexists _, _, _. vm_compute. reflexivity. }
  destruct Hx as (key & actor & d' & Hx). pose proof Hx as Hy. unfold extract in Hy.
  destruct (authenticated_requests builtin (config None false) (with_cookie token) ∅ (at_hour 100) (at_hour 100) (at_hour 100) _ _ _ _ Hy)
    as (id & sec & stored & user & _ & _ & _ & _ & Hu & _ & _ & _ & _ & Hs & _).
  exists key, actor, d', stored. split; [exact Hx|]. split; [exact Hu|exact Hs].
Defined.

Lemma valid_key_accepted_witness : exists actor key d',
  extract (config None false) (with_cookie token) (store_of (key_of LoginTypePassword (at_hour 101)) []) = (d', inr (key, actor)) /\
  86400 * Second - Hour < Sub (k_ExpiresAt key) (at_hour 100).
Proof.
  set (d := store_of (key_of LoginTypePassword (at_hour 101)) []).
  assert (Hr : APIKeyFromRequest None (with_cookie token) d = inr (key_of LoginTypePassword (at_hour 101))) by by vm_compute.
  assert (Hs : exists actor, (UserRBACSubject builtin ∅ 9 "all" d).2 = Ok (actor, UserActive)) by (eexists; vm_compute; reflexivity).
  destruct Hs as [actor Hs].
  destruct (valid_key_accepted builtin (config None false) (with_cookie token) ∅ (at_hour 100) (at_hour 100) (at_hour 100) d
    (key_of LoginTypePassword (at_hour 101)) actor Hr eq_refl eq_refl Hs) as (key & d' & He & _ & _ & _ & _ & _ & Hl).
  exists actor, key, d'. split; [exact He|].
  refine (proj1 (Hl eq_refl _)). split; [discriminate|reflexivity].
Defined.
End Examples.
