(* ===== verification/DerpMap.v ===== *)
(** * DERP maps: [tailnet/derpmap.go] and the part of [tailnet/convert.go] on them

    The relays of the network: how the server makes its map, how maps are
    compared, and how they are sent.  A map holds regions by identifier, a region
    its nodes; pointers that may be nil are options.  A score, a 64-bit float, is
    only copied and is represented by its bits.  A nil map of scores is an empty
    one. *)

From Stdlib Require Import Ascii.
From S2P Require Import Prelude GoStrings GoEncoding.
Local Open Scope string_scope.
Local Open Scope list_scope.
Local Open Scope Z_scope.

(** ** Data *)

(** [tailcfg.DERPNode] *)
Record DERPNode := mkDERPNode {
  dn_Name : string;
  dn_RegionID : Z;
  dn_HostName : string;
  dn_CertName : string;
  dn_IPv4 : string;
  dn_IPv6 : string;
  dn_STUNPort : Z;
  dn_STUNOnly : bool;
  dn_DERPPort : Z;
  dn_InsecureForTests : bool;
  dn_ForceHTTP : bool;
  dn_STUNTestIP : string;
  dn_CanPort80 : bool;
}.
#[export] Instance DERPNode_eq_dec : EqDecision DERPNode.
Proof. solve_decision. Defined.

(** [tailcfg.DERPRegion] *)
Record DERPRegion := mkDERPRegion {
  dr_EmbeddedRelay : bool;
  dr_RegionID : Z;
  dr_RegionCode : string;
  dr_RegionName : string;
  dr_Avoid : bool;
  dr_Nodes : list (option DERPNode);
}.

(** [tailcfg.DERPMap]; [dm_HomeParams] is the scores by region, or nil. *)
Record DERPMap := mkDERPMap {
  dm_HomeParams : option (gmap Z Z);
  dm_Regions : gmap Z (option DERPRegion);
  dm_OmitDefaultRegions : bool;
}.

(** The messages [proto.DERPMap], [proto.DERPMap_Region] and
    [proto.DERPMap_Region_Node]: their ports are 32 bits wide. *)
Record proto_DERPMap := mkProtoDERPMap {
  pdm_HomeParams : option (gmap Z Z);
  pdm_Regions : gmap Z (option DERPRegion);
}.

(** ** Conversion *)

(** Integers of the machine have 64 bits, as the identifiers on the wire.  The
    message of a node has its fields, at the width of the wire. *)
Definition DERPNodeToProto (node : option DERPNode) : option DERPNode :=
  n ← node;
  Some ((n{{ dn_STUNPort := wraps 32 (dn_STUNPort n) }}){{ dn_DERPPort := wraps 32 (dn_DERPPort n) }}).

Definition DERPNodeFromProto (node : option DERPNode) : option DERPNode := node.

Definition DERPRegionToProto (region : option DERPRegion) : option DERPRegion :=
  r ← region; Some (r{{ dr_Nodes := DERPNodeToProto <$> dr_Nodes r }}).

Definition DERPRegionFromProto (region : option DERPRegion) : option DERPRegion :=
  r ← region; Some (r{{ dr_Nodes := DERPNodeFromProto <$> dr_Nodes r }}).

Definition DERPMapToProto (derpMap : option DERPMap) : option proto_DERPMap :=
  m ← derpMap;
  Some (mkProtoDERPMap (Some (default ∅ (dm_HomeParams m))) (DERPRegionToProto <$> dm_Regions m)).

(** [None] is a panic: the home parameters of a message may be absent. *)
Definition DERPMapFromProto (derpMap : option proto_DERPMap) : option (option DERPMap) :=
  match derpMap with
  | None => Some None
  | Some m =>
      match pdm_HomeParams m with
      | None => None
      | Some regionScore => Some (Some (mkDERPMap (Some regionScore) (DERPRegionFromProto <$> pdm_Regions m) false))
      end
  end.

(** ** Comparison *)

Definition compare_nodes (a b : DERPNode) : bool :=
  String.eqb (dn_Name a) (dn_Name b) && (dn_RegionID a =? dn_RegionID b) && String.eqb (dn_HostName a) (dn_HostName b)
  && String.eqb (dn_CertName a) (dn_CertName b) && String.eqb (dn_IPv4 a) (dn_IPv4 b) && String.eqb (dn_IPv6 a) (dn_IPv6 b)
  && (dn_STUNPort a =? dn_STUNPort b) && eqb (dn_STUNOnly a) (dn_STUNOnly b) && (dn_DERPPort a =? dn_DERPPort b)
  && eqb (dn_InsecureForTests a) (dn_InsecureForTests b) && eqb (dn_ForceHTTP a) (dn_ForceHTTP b)
  && String.eqb (dn_STUNTestIP a) (dn_STUNTestIP b).

(** The nodes by name: the last of a name counts.  A nil node is a panic, [None]. *)
Fixpoint nodes_by_name (nodes : list (option DERPNode)) (m : gmap string DERPNode) : option (gmap string DERPNode) :=
  match nodes with
  | [] => Some m
  | None :: _ => None
  | Some n :: nodes => nodes_by_name nodes (<[dn_Name n := n]> m)
  end.

Definition every_node (aNodes bNodes : gmap string DERPNode) : bool :=
  bool_decide (map_Forall (fun name aNode =>
    match bNodes !! name with Some bNode => compare_nodes aNode bNode | None => false end = true) aNodes).

(** [None] is a panic. *)
Definition compareDERPRegions (a b : option DERPRegion) : option bool :=
  match a, b with
  | Some a, Some b =>
      if negb (eqb (dr_EmbeddedRelay a) (dr_EmbeddedRelay b)) then Some false
      else if negb (dr_RegionID a =? dr_RegionID b) then Some false
      else if negb (String.eqb (dr_RegionCode a) (dr_RegionCode b)) then Some false
      else if negb (String.eqb (dr_RegionName a) (dr_RegionName b)) then Some false
      else if negb (eqb (dr_Avoid a) (dr_Avoid b)) then Some false
      else if negb (Nat.eqb (length (dr_Nodes a)) (length (dr_Nodes b))) then Some false
      else
        aNodes ← nodes_by_name (dr_Nodes a) ∅;
        bNodes ← nodes_by_name (dr_Nodes b) ∅;
        Some (every_node aNodes bNodes)
  | _, _ => Some false
  end.

Section Compare.
Context `{MapRange}.

Fixpoint compare_regions (ids : list Z) (a b : gmap Z (option DERPRegion)) : option bool :=
  match ids with
  | [] => Some true
  | id :: ids =>
      match b !! id with
      | None => Some false
      | Some other =>
          match compareDERPRegions (default None (a !! id)) other with
          | Some true => compare_regions ids a b
          | r => r
          end
      end
  end.

Definition CompareDERPMaps (a b : option DERPMap) : option bool :=
  match a, b with
  | None, b => Some (bool_decide (b = None))
  | Some _, None => Some true
  | Some a, Some b =>
      if negb (Nat.eqb (size (dm_Regions a)) (size (dm_Regions b))) then Some false
      else if negb (eqb (dm_OmitDefaultRegions a) (dm_OmitDefaultRegions b)) then Some false
      else compare_regions (range (dom (dm_Regions a))) (dm_Regions a) (dm_Regions b)
  end.
End Compare.

(** ** The server's map *)

Section New.
(** [net.SplitHostPort]. *)
Context `{MapRange} (SplitHostPort : string -> result (string * string)).

Definition DisableSTUN : string := "disable".

Definition stun_region (regionID : Z) (host : string) (port : Z) : DERPRegion :=
  mkDERPRegion false regionID ("coder_stun_" +:+ FormatInt regionID) ("Coder STUN " +:+ FormatInt regionID) false
    [Some (mkDERPNode (FormatInt regionID +:+ "stun0") regionID host "" "" "" port true 0 false false "" false)].

Fixpoint stun_loop (baseRegionID : Z) (index : Z) (stunAddrs : list string) (regions : list DERPRegion) : result (list DERPRegion) :=
  match stunAddrs with
  | [] => Ok regions
  | stunAddr :: stunAddrs =>
      if String.eqb stunAddr DisableSTUN then Ok []
      else
        '(host, rawPort) ← wrap ("split host port for " +:+ Quote stunAddr) (SplitHostPort stunAddr);
        port ← wrap ("parse port for " +:+ Quote stunAddr) (Atoi rawPort);
        stun_loop baseRegionID (index + 1) stunAddrs (regions ++ [stun_region (baseRegionID + index + 1) host port])
  end.
Definition STUNRegions (baseRegionID : Z) (stunAddrs : list string) : result (list DERPRegion) := stun_loop baseRegionID 0 stunAddrs [].

Fixpoint add_regions (remoteURL : string) (regions : list DERPRegion) (m : gmap Z (option DERPRegion)) : result (gmap Z (option DERPRegion)) :=
  match regions with
  | [] => Ok m
  | region :: regions =>
      match m !! dr_RegionID region with
      | Some _ => Err ("a default region ID " +:+ FormatInt (dr_RegionID region) +:+ " (" +:+ dr_RegionCode region +:+ " - "
                       +:+ Quote (dr_RegionName region) +:+ ") conflicts with a remote region from " +:+ Quote remoteURL)
      | None => add_regions remoteURL regions (<[dr_RegionID region := Some region]> m)
      end
  end.

(** Nil nodes and nil regions panic, here and below: [None]. *)
Fixpoint without_stun (nodes : list (option DERPNode)) : option (list (option DERPNode)) :=
  match nodes with
  | [] => Some []
  | None :: _ => None
  | Some node :: nodes =>
      rest ← without_stun nodes;
      Some (if negb (dn_STUNOnly node) then Some (node{{ dn_STUNPort := -1 }}) :: rest else rest)
  end.

Fixpoint disable_stun (ids : list Z) (m : gmap Z (option DERPRegion)) : option (gmap Z (option DERPRegion)) :=
  match ids with
  | [] => Some m
  | id :: ids =>
      region ← default None (m !! id);
      nodes ← without_stun (dr_Nodes region);
      disable_stun ids (<[id := Some (region{{ dr_Nodes := nodes }})]> m)
  end.

(** Whether a node is found before a panic. *)
Fixpoint has_derp_node (nodes : list (option DERPNode)) : option bool :=
  match nodes with
  | [] => Some false
  | None :: _ => None
  | Some node :: nodes => if negb (dn_STUNOnly node) then Some true else has_derp_node nodes
  end.
Fixpoint found_valid_node (ids : list Z) (m : gmap Z (option DERPRegion)) : option bool :=
  match ids with
  | [] => Some false
  | id :: ids =>
      region ← default None (m !! id);
      found ← has_derp_node (dr_Nodes region);
      if (found : bool) then Some true else found_valid_node ids m
  end.

Definition badDerpMapMsg : string :=
  "A valid DERP map is required for networking to work. You must either supply your own DERP map or use the built-in DERP server".

(** [fetch] is what the remote URL serves and [read] what the local path holds, decoded
    into the map so far: a map, or nil, whose use panics; a map whose regions are null is
    not modelled.  Removing STUN also changes the region that is given. *)
Definition NewDERPMap (region : option DERPRegion) (stunAddrs : list string) (remoteURL localPath : string) (disableSTUN : bool)
    (fetch read : DERPMap -> result (option DERPMap)) : option (result DERPMap) :=
  if negb (String.eqb remoteURL "") && negb (String.eqb localPath "")
  then Some (Err "a remote URL or local path must be specified, not both")
  else
    let stunAddrs := if disableSTUN then [] else stunAddrs in
    match match region with
          | None => Ok []
          | Some region => cons region <$> wrap "create stun regions" (STUNRegions (dr_RegionID region) stunAddrs)
          end with
    | Err e => Some (Err e)
    | Ok addRegions =>
        let load (from : DERPMap -> result (option DERPMap)) (used : bool) (m : option DERPMap) : result (option DERPMap) :=
          match used, m with true, Some m => from m | _, _ => Ok m end in
        match m ← load fetch (negb (String.eqb remoteURL "")) (Some (mkDERPMap None ∅ false)); load read (negb (String.eqb localPath "")) m with
        | Err e => Some (Err e)
        | Ok None => None
        | Ok (Some derpMap) =>
            match add_regions remoteURL addRegions (dm_Regions derpMap) with
            | Err e => Some (Err e)
            | Ok regions =>
                regions ← if disableSTUN then disable_stun (range (dom regions)) regions else Some regions;
                if Nat.eqb (size regions) 0 then Some (Err ("DERP map has no regions. " +:+ badDerpMapMsg))
                else
                  found ← found_valid_node (range (dom regions)) regions;
                  Some (if (found : bool) then Ok (derpMap{{ dm_Regions := regions }})
                        else Err ("DERP map has no DERP nodes. " +:+ badDerpMapMsg))
            end
        end
    end.
End New.

(** * Theorems *)

(** ** Conversion *)

Definition int32 (z : Z) : Prop := - 2 ^ 31 <= z < 2 ^ 31.
Definition node_fits (n : option DERPNode) : Prop := forall n', n = Some n' -> int32 (dn_STUNPort n') /\ int32 (dn_DERPPort n').
Definition region_fits (r : option DERPRegion) : Prop := forall r', r = Some r' -> Forall node_fits (dr_Nodes r').
Definition map_fits (m : DERPMap) : Prop := map_Forall (fun _ => region_fits) (dm_Regions m).

Lemma node_round_trip n : node_fits n -> DERPNodeFromProto (DERPNodeToProto n) = n.
Proof.
  destruct n as [n|]; [|done]. intros Hn. destruct (Hn n eq_refl) as [Hs Hd]. unfold DERPNodeFromProto. simpl.
  unfold int32 in *. rewrite !wraps_id by lia. by destruct n.
Qed.

Lemma region_round_trip r : region_fits r -> DERPRegionFromProto (DERPRegionToProto r) = r.
Proof.
  destruct r as [r|]; [|done]. intros Hr%(fun H => H r eq_refl). simpl. destruct r as [? ? ? ? ? nodes]. simpl in *. do 2 f_equal.
  induction Hr as [|n nodes Hn _ IH]; [done|]. cbn. rewrite IH. f_equal. by apply node_round_trip.
Qed.

(** A DERP map whose ports fit is received as it was sent, but for two things: the
    mark that the default regions are left out is lost, and absent home
    parameters become empty ones.  What is received is sent again unchanged. *)
Lemma DERPMap_round_trip m : map_fits m ->
  let received := mkDERPMap (Some (default ∅ (dm_HomeParams m))) (dm_Regions m) false in
  DERPMapFromProto (DERPMapToProto (Some m)) = Some (Some received) /\
  DERPMapToProto (Some received) = DERPMapToProto (Some m).
Proof.
  intros Hm. split; [|done]. simpl. do 3 f_equal. rewrite <- map_fmap_compose. rewrite <- (map_fmap_id (dm_Regions m)) at 2.
  apply map_fmap_ext. intros id r Hr. apply region_round_trip. exact (Hm id r Hr).
Qed.

(** ** Comparison *)

(** What the comparison leaves out of a node. *)
Definition compared (n : DERPNode) : DERPNode := n{{ dn_CanPort80 := false }}.

Lemma compare_nodes_iff a b : compare_nodes a b = true <-> compared a = compared b.
Proof.
  unfold compare_nodes, compared. destruct a, b; simpl. rewrite !andb_true_iff, !String.eqb_eq, !Z.eqb_eq, !eqb_true_iff.
  split; [intros Hc; destruct_and! Hc; by subst|intros [=]; by subst].
Qed.

(** The nodes of a region, which have names of their own, without regard to their order. *)
Definition regions_agree (a b : DERPRegion) : Prop :=
  dr_EmbeddedRelay a = dr_EmbeddedRelay b /\ dr_RegionID a = dr_RegionID b /\ dr_RegionCode a = dr_RegionCode b /\
  dr_RegionName a = dr_RegionName b /\ dr_Avoid a = dr_Avoid b /\ (compared <$> omap id (dr_Nodes a)) ≡ₚ (compared <$> omap id (dr_Nodes b)).

Definition region_ok (r : option DERPRegion) : Prop :=
  exists r' nodes, r = Some r' /\ dr_Nodes r' = Some <$> nodes /\ NoDup (dn_Name <$> nodes).

Lemma nodes_by_name_list nodes m : nodes_by_name (Some <$> nodes) m = Some (list_to_map (reverse ((fun n => (dn_Name n, n)) <$> nodes)) ∪ m).
Proof.
  revert m. induction nodes as [|n nodes IH]; intros m; simpl; [by rewrite map_empty_union|]. rewrite IH. f_equal.
  rewrite reverse_cons, list_to_map_app. simpl. rewrite <- map_union_assoc. f_equal. by rewrite insert_empty, insert_union_singleton_l.
Qed.

Lemma nodes_by_name_lookup nodes : NoDup (dn_Name <$> nodes) -> exists m, nodes_by_name (Some <$> nodes) ∅ = Some m /\
  forall name n, m !! name = Some n <-> n ∈ nodes /\ dn_Name n = name.
Proof.
  intros Hd. rewrite nodes_by_name_list. eexists. split; [done|]. intros name n. rewrite map_union_empty, <- elem_of_list_to_map.
  - rewrite elem_of_reverse, list_elem_of_fmap. naive_solver.
  - rewrite fmap_reverse, <- list_fmap_compose. by rewrite (reverse_Permutation (_ <$> nodes)).
Qed.

Lemma every_node_iff a b aNodes bNodes : length a = length b -> NoDup (dn_Name <$> a) -> NoDup (dn_Name <$> b) ->
  (forall name n, aNodes !! name = Some n <-> n ∈ a /\ dn_Name n = name) ->
  (forall name n, bNodes !! name = Some n <-> n ∈ b /\ dn_Name n = name) ->
  every_node aNodes bNodes = true <-> (compared <$> a) ≡ₚ (compared <$> b).
Proof.
  intros Hl Ha Hb HA HB. unfold every_node. rewrite bool_decide_eq_true.
  assert (Hnd : forall l, NoDup (dn_Name <$> l) -> NoDup (compared <$> l)).
  { intros l Hd. apply (NoDup_fmap_1 dn_Name). rewrite <- list_fmap_compose. exact Hd. }
  split.
  - intros Hall. apply submseteq_length_Permutation; [|by rewrite !length_fmap, Hl].
    apply NoDup_submseteq; [by apply Hnd|]. intros c (n & -> & Hn)%list_elem_of_fmap.
    specialize (Hall (dn_Name n) n (proj2 (HA _ _) (conj Hn eq_refl))). simpl in Hall.
    destruct (bNodes !! dn_Name n) as [m|] eqn:Em; [|done]. apply compare_nodes_iff in Hall as ->. apply HB in Em as [Hm _].
    by apply list_elem_of_fmap_2.
  - intros Hp name n [Hn <-]%HA. assert (Hc : compared n ∈ compared <$> b) by (rewrite <- Hp; by apply list_elem_of_fmap_2).
    apply list_elem_of_fmap in Hc as (m & Hm & Hin). replace (dn_Name n) with (dn_Name m) by (apply (f_equal dn_Name) in Hm; by destruct n, m).
    rewrite (proj2 (HB _ m) (conj Hin eq_refl)). by apply compare_nodes_iff.
Qed.

Lemma omap_Some {A} (l : list A) : omap id (Some <$> l) = l.
Proof. induction l as [|x l IH]; [done|]. cbn. by rewrite IH. Qed.

Lemma compareDERPRegions_iff a b : region_ok (Some a) -> region_ok (Some b) ->
  exists r, compareDERPRegions (Some a) (Some b) = Some r /\ (r = true <-> regions_agree a b).
Proof.
  intros (a' & an & [= <-] & Han & Had) (b' & bn & [= <-] & Hbn & Hbd). unfold compareDERPRegions, regions_agree.
  destruct (eqb_spec (dr_EmbeddedRelay a) (dr_EmbeddedRelay b)); [|exists false; naive_solver].
  destruct (Z.eqb_spec (dr_RegionID a) (dr_RegionID b)); [|exists false; naive_solver].
  destruct (String.eqb_spec (dr_RegionCode a) (dr_RegionCode b)); [|exists false; naive_solver].
  destruct (String.eqb_spec (dr_RegionName a) (dr_RegionName b)); [|exists false; naive_solver].
  destruct (eqb_spec (dr_Avoid a) (dr_Avoid b)); [|exists false; naive_solver].
  rewrite Han, Hbn, !length_fmap, !omap_Some. simpl.
  destruct (Nat.eqb_spec (length an) (length bn)) as [Hl|Hl]; simpl.
  2: { exists false. split; [done|]. split; [done|]. intros (_ & _ & _ & _ & _ & Hp%Permutation_length). by rewrite !length_fmap in Hp. }
  destruct (nodes_by_name_lookup an Had) as (am & -> & HA). destruct (nodes_by_name_lookup bn Hbd) as (bm & -> & HB). simpl.
  eexists. split; [done|]. rewrite (every_node_iff an bn) by done. naive_solver.
Qed.

(** Every region a map has is there, with nodes that have names of their own. *)
Definition map_ok (m : DERPMap) : Prop := map_Forall (fun _ => region_ok) (dm_Regions m).

(** What it means for two maps to be equivalent. *)
Definition maps_agree (a b : DERPMap) : Prop :=
  dm_OmitDefaultRegions a = dm_OmitDefaultRegions b /\
  forall id, option_Forall2 (option_Forall2 regions_agree) (dm_Regions a !! id) (dm_Regions b !! id).

Lemma region_ok_Some r : region_ok r -> exists r', r = Some r'.
Proof. intros (r' & _ & -> & _). by exists r'. Qed.

Lemma compare_regions_iff `{MapRange} ids (a b : gmap Z (option DERPRegion)) :
  map_Forall (fun _ => region_ok) a -> map_Forall (fun _ => region_ok) b -> (forall id, id ∈ ids -> is_Some (a !! id)) ->
  exists r, compare_regions ids a b = Some r /\
    (r = true <-> forall id, id ∈ ids -> option_Forall2 (option_Forall2 regions_agree) (a !! id) (b !! id)).
Proof.
  intros Ha Hb. induction ids as [|id ids IH]; intros Hids; simpl.
  { exists true. split; [done|]. split; [intros _ id Hid; by apply not_elem_of_nil in Hid|done]. }
  destruct (Hids id) as [ra Hra]; [by left|]. rewrite Hra. simpl.
  destruct (b !! id) as [rb|] eqn:Hrb.
  2: { exists false. split; [done|]. split; [done|]. intros Hall. specialize (Hall id ltac:(by left)). rewrite Hra, Hrb in Hall. inversion Hall. }
  pose proof (Ha id ra Hra) as Hoa. pose proof (Hb id rb Hrb) as Hob.
  destruct (region_ok_Some _ Hoa) as [xa ->]. destruct (region_ok_Some _ Hob) as [xb ->].
  destruct (compareDERPRegions_iff xa xb Hoa Hob) as (r & Hr & Hiff). rewrite Hr. destruct r.
  - destruct IH as (r & -> & IH); [intros k Hk; apply Hids; by right|]. exists r. split; [done|]. rewrite IH. split.
    + intros Hall k [->|Hk]%elem_of_cons; [|by apply Hall]. rewrite Hra, Hrb. do 2 constructor. by apply Hiff.
    + intros Hall k Hk. apply Hall. by right.
  - exists false. split; [done|]. split; [done|]. intros Hall. specialize (Hall id ltac:(by left)). rewrite Hra, Hrb in Hall.
    inversion Hall as [? ? Hx|]; subst. inversion Hx as [? ? Hy|]; subst. by apply Hiff in Hy.
Qed.

(** On maps whose regions are there and whose nodes have names of their own, the
    comparison neither panics nor depends on the order in which regions are visited or
    nodes are listed; it holds when the maps have the same regions and agree on each,
    in all but their home parameters and [CanPort80]. *)
Lemma CompareDERPMaps_correct `{MapRange} a b : map_ok a -> map_ok b ->
  exists r, CompareDERPMaps (Some a) (Some b) = Some r /\ (r = true <-> maps_agree a b).
Proof.
  intros Ha Hb. unfold CompareDERPMaps, maps_agree.
  destruct (Nat.eqb_spec (size (dm_Regions a)) (size (dm_Regions b))) as [Hs|Hs]; simpl.
  2: { exists false. split; [done|]. split; [done|]. intros [_ Hall]. destruct Hs. rewrite <- !size_dom. f_equal. apply set_eq. intros id.
       rewrite !elem_of_dom. specialize (Hall id). by inversion Hall. }
  destruct (eqb_spec (dm_OmitDefaultRegions a) (dm_OmitDefaultRegions b)); simpl; [|exists false; naive_solver].
  destruct (compare_regions_iff (range (dom (dm_Regions a))) (dm_Regions a) (dm_Regions b) Ha Hb) as (r & -> & Hr).
  { intros id. by rewrite range_elem, elem_of_dom. }
  exists r. split; [done|]. rewrite Hr. split; [|by intros [_ Hall] id _]. intros Hall. split; [done|].
  assert (Hsub : dom (dm_Regions a) ⊆ dom (dm_Regions b)).
  { intros id Hid. specialize (Hall id). rewrite range_elem in Hall. specialize (Hall Hid).
    rewrite elem_of_dom in Hid |- *. destruct Hid as [x Hx]. rewrite Hx in Hall. by inversion Hall. }
  assert (Hdom : dom (dm_Regions a) = dom (dm_Regions b)).
  { apply leibniz_equiv, set_subseteq_size_equiv; [done|]. by rewrite !size_dom, Hs. }
  intros id. destruct (decide (id ∈ dom (dm_Regions a))) as [Hid|Hid]; [by apply Hall, range_elem|].
  pose proof Hid as Hid'. rewrite Hdom in Hid'. apply not_elem_of_dom in Hid, Hid'. rewrite Hid, Hid'. constructor.
Qed.

(** ** The server's map *)

Section NewMap.
Context `{MapRange} (SplitHostPort : string -> result (string * string)).

Lemma stun_loop_Ok base index addrs regions rs : stun_loop SplitHostPort base index addrs regions = Ok rs ->
  rs = [] \/ exists new, rs = regions ++ new /\
    forall k r, new !! k = Some r -> dr_RegionID r = base + index + Z.of_nat k + 1 /\ exists n, dr_Nodes r = [Some n] /\ dn_STUNOnly n = true.
Proof.
  revert index regions. induction addrs as [|addr addrs IH]; intros index regions; simpl.
  { intros [= <-]. right. exists []. split; [by rewrite app_nil_r|done]. }
  destruct (String.eqb addr DisableSTUN); [intros [= <-]; by left|]. intros ([host raw] & _ & (port & _ & Hl)%bind_Ok)%bind_Ok.
  destruct (IH _ _ Hl) as [->|(new & -> & Hn)]; [by left|right].
  exists (stun_region (base + index + 1) host port :: new). rewrite <- app_assoc. split; [done|]. intros [|k] r Hk; simpl in Hk.
  - injection Hk as <-. simpl. split; [lia|]. by eexists.
  - destruct (Hn k r Hk) as [-> Hr]. split; [lia|done].
Qed.

Lemma add_regions_Ok url regions m m' : add_regions url regions m = Ok m' ->
  m ⊆ m' /\ (forall r, r ∈ regions -> m' !! dr_RegionID r = Some (Some r)) /\
  (forall id x, m' !! id = Some x -> m !! id = Some x \/ exists r, r ∈ regions /\ x = Some r).
Proof.
  revert m. induction regions as [|r regions IH]; intros m; simpl.
  { intros [= <-]. split_and!; [done| |by auto]. intros r Hr. by apply not_elem_of_nil in Hr. }
  destruct (m !! dr_RegionID r) as [x|] eqn:E; [done|]. intros (Hsub & Hin & Hout)%IH. split_and!.
  - etrans; [|exact Hsub]. by apply insert_subseteq.
  - intros r' [->|Hr']%elem_of_cons; [|by apply Hin]. eapply lookup_weaken; [apply lookup_insert_eq|done].
  - intros id x [Hx|(r' & Hr' & ->)]%Hout; [|right; exists r'; split; [by right|done]].
    destruct (decide (id = dr_RegionID r)) as [->|Hne].
    + rewrite lookup_insert_eq in Hx. injection Hx as <-. right. exists r. split; [by left|done].
    + rewrite lookup_insert_ne in Hx by done. by left.
Qed.

Definition is_derp_node (n : option DERPNode) : Prop := exists n', n = Some n' /\ dn_STUNOnly n' = false.

Lemma has_derp_node_true nodes : has_derp_node nodes = Some true -> exists n, n ∈ nodes /\ is_derp_node n.
Proof.
  induction nodes as [|[n|] nodes IH]; simpl; [done| |done]. destruct (dn_STUNOnly n) eqn:En; simpl.
  - intros (n' & Hn' & ?)%IH. exists n'. split; [by right|done].
  - intros _. exists (Some n). split; [by left|]. by exists n.
Qed.

Lemma found_valid_node_true ids m : found_valid_node ids m = Some true ->
  exists id r n, m !! id = Some (Some r) /\ n ∈ dr_Nodes r /\ is_derp_node n.
Proof.
  induction ids as [|id ids IH]; simpl; [done|]. destruct (m !! id) as [[r|]|] eqn:E; simpl; [|done..].
  destruct (has_derp_node (dr_Nodes r)) as [[]|] eqn:Eh; simpl; [|done|done].
  intros _. destruct (has_derp_node_true _ Eh) as (n & Hn & Hd). by exists id, r, n.
Qed.

(** Nodes without STUN. *)
Definition no_stun (r : option DERPRegion) : Prop :=
  exists r', r = Some r' /\ Forall (fun n => exists n', n = Some n' /\ dn_STUNOnly n' = false /\ dn_STUNPort n' = -1) (dr_Nodes r').

Lemma without_stun_Some nodes nodes' : without_stun nodes = Some nodes' ->
  Forall (fun n => exists n', n = Some n' /\ dn_STUNOnly n' = false /\ dn_STUNPort n' = -1) nodes'.
Proof.
  revert nodes'. induction nodes as [|[n|] nodes IH]; intros nodes'; simpl; [by intros [= <-]| |done].
  destruct (without_stun nodes) as [rest|]; simpl; [|done]. intros [= <-]. destruct (dn_STUNOnly n) eqn:En; simpl; [by apply IH|].
  constructor; [|by apply IH]. by eexists.
Qed.

Lemma disable_stun_Some ids m m' : disable_stun ids m = Some m' ->
  dom m' = dom m /\ (forall id, id ∈ ids -> exists r, m' !! id = Some r /\ no_stun r) /\ (forall id, id ∉ ids -> m' !! id = m !! id).
Proof.
  revert m. induction ids as [|id ids IH]; intros m; simpl.
  { intros [= <-]. split_and!; [done| |done]. intros id Hid. by apply not_elem_of_nil in Hid. }
  destruct (m !! id) as [[r|]|] eqn:E; simpl; [|done..]. destruct (without_stun (dr_Nodes r)) as [nodes|] eqn:Ew; simpl; [|done].
  intros (Hd & Hin & Hout)%IH. split_and!.
  - rewrite Hd, dom_insert_lookup_L; [done|by rewrite E].
  - intros k [->|Hk]%elem_of_cons; [|by apply Hin]. destruct (decide (id ∈ ids)) as [|Hni]; [by apply Hin|].
    rewrite (Hout id Hni), lookup_insert_eq. eexists. split; [done|]. eexists. split; [done|]. by eapply without_stun_Some.
  - intros k [Hne Hk]%not_elem_of_cons. rewrite (Hout k Hk). by rewrite lookup_insert_ne.
Qed.

(** A map the server makes can be used: it has a node that relays.  It keeps the
    region it was given and the regions it loaded, under their identifiers; and when STUN
    is turned off, no node of any region serves it. *)
Lemma NewDERPMap_correct region stunAddrs remoteURL localPath disableSTUN fetch read m :
  NewDERPMap SplitHostPort region stunAddrs remoteURL localPath disableSTUN fetch read = Some (Ok m) ->
  (exists id r n, dm_Regions m !! id = Some (Some r) /\ n ∈ dr_Nodes r /\ is_derp_node n) /\
  (disableSTUN = true -> map_Forall (fun _ => no_stun) (dm_Regions m)) /\
  (disableSTUN = false -> forall r, region = Some r -> dm_Regions m !! dr_RegionID r = Some (Some r)) /\
  (disableSTUN = false -> forall loaded, remoteURL <> "" -> fetch (mkDERPMap None ∅ false) = Ok (Some loaded) -> dm_Regions loaded ⊆ dm_Regions m) /\
  (forall r, region = Some r -> is_Some (dm_Regions m !! dr_RegionID r)).
Proof.
  unfold NewDERPMap. destruct (negb (String.eqb remoteURL "") && negb (String.eqb localPath "")) eqn:Hboth; [done|].
  destruct (match region with None => Ok [] | Some r => _ end) as [addRegions|] eqn:Eadd; [|done].
  assert (Hreg : forall r, region = Some r -> r ∈ addRegions).
  { intros r ->. destruct (wrap _ _) as [rs|]; [|done]. injection Eadd as <-. by left. }
  destruct (m ← _; _) as [[d|]|] eqn:Eload; [|done..].
  destruct (add_regions remoteURL addRegions (dm_Regions d)) as [regions|] eqn:Er; [|done].
  destruct (add_regions_Ok _ _ _ _ Er) as (Hsub & Hin & _).
  assert (Hfetched : forall loaded, remoteURL <> "" -> fetch (mkDERPMap None ∅ false) = Ok (Some loaded) -> dm_Regions loaded ⊆ regions).
  { intros loaded Hurl Hf. destruct (String.eqb_spec remoteURL ""); [done|]. simpl in *. destruct (String.eqb_spec localPath ""); [|done].
    rewrite Hf in Eload. simpl in Eload. by injection Eload as <-. }
  destruct disableSTUN.
  - destruct (disable_stun (range (dom regions)) regions) as [regions'|] eqn:Ed; [|done]. cbn [mbind option_bind].
    destruct (disable_stun_Some _ _ _ Ed) as (Hdom & Hstun & _).
    destruct (Nat.eqb (size regions') 0); [done|]. destruct (found_valid_node _ regions') as [[]|] eqn:Ef; [|done..]. intros [= <-]. simpl.
    split_and!; [exact (found_valid_node_true _ _ Ef)| |done|done|].
    + intros _ id x Hx. destruct (Hstun id) as (r & Hr & Hn); [apply range_elem; rewrite <- Hdom; by apply elem_of_dom|]. by simplify_eq.
    + intros r Hr. apply elem_of_dom. rewrite Hdom. apply elem_of_dom. by rewrite (Hin r (Hreg r Hr)).
  - cbn [mbind option_bind]. destruct (Nat.eqb (size regions) 0); [done|]. destruct (found_valid_node _ regions) as [[]|] eqn:Ef; [|done..].
    intros [= <-]. simpl. split_and!; [exact (found_valid_node_true _ _ Ef)|done| |by auto|].
    + intros _ r Hr. by apply Hin, Hreg.
    + intros r Hr. by rewrite (Hin r (Hreg r Hr)).
Qed.
End NewMap.

(** ** Examples *)

Module Examples.
Definition relay : DERPNode := mkDERPNode "1a" 1 "relay.example" "" "" "" 3478 false 443 false false "" false.
Definition region (nodes : list DERPNode) : DERPRegion := mkDERPRegion true 1 "default" "Default" false (Some <$> nodes).
Definition map_of (r : DERPRegion) : DERPMap := mkDERPMap None {[ 1 := Some r ]} false.
Definition split_colon (s : string) : result (string * string) :=
  match Split ":"%char s with [a; b] => Ok (a, b) | _ => Err "missing port in address" end.

(** A message without home parameters panics where it is received. *)
Example home_params_panic : DERPMapFromProto (Some (mkProtoDERPMap None ∅)) = None.
Proof. done. Qed.

(** A change of the home parameters, or of [CanPort80], is not a change; two nodes of a
    name hide a difference. *)
Example scores_ignored :
  CompareDERPMaps (Some (map_of (region [relay]))) (Some ((map_of (region [relay])){{ dm_HomeParams := Some {[ 1 := 5 ]} }})) = Some true.
Proof. by vm_compute. Qed.
Example names_collide :
  CompareDERPMaps (Some (map_of (region [relay; relay]))) (Some (map_of (region [relay; (relay){{ dn_Name := "1b" }}]))) = Some true.
Proof. by vm_compute. Qed.

Example stun_regions :
  STUNRegions split_colon 10 ["stun.example:3478"] = Ok [stun_region 11 "stun.example" 3478] /\
  STUNRegions split_colon 10 ["stun.example:3478"; "disable"] = Ok [] /\
  STUNRegions split_colon 10 ["stun.example"] = Err ("split host port for " +:+ Quote "stun.example" +:+ ": missing port in address").
Proof. by vm_compute. Qed.

Lemma map_of_lookup r id x : dm_Regions (map_of r) !! id = Some x -> x = Some r.
Proof. cbn [dm_Regions map_of]. by intros [_ <-]%lookup_singleton_Some. Qed.

Lemma region_fits_relay : map_fits (map_of (region [relay])).
Proof.
  intros id r Hr r' ->. apply map_of_lookup in Hr as [= ->].
  constructor; [|by constructor]. intros n' [= <-]. done.
Qed.

Lemma DERPMap_round_trip_witness :
  DERPMapFromProto (DERPMapToProto (Some (map_of (region [relay])))) = Some (Some ((map_of (region [relay])){{ dm_HomeParams := Some ∅ }})).
Proof. exact (proj1 (DERPMap_round_trip (map_of (region [relay])) region_fits_relay)). Defined.

Lemma map_ok_relay : map_ok (map_of (region [relay])).
Proof.
  intros id r Hr. apply map_of_lookup in Hr as ->.
  exists (region [relay]), [relay]. split; [done|]. split; [done|]. apply NoDup_singleton.
Qed.

Lemma CompareDERPMaps_correct_witness : exists r,
  CompareDERPMaps (Some (map_of (region [relay]))) (Some (map_of (region [relay]))) = Some r /\
  (r = true <-> maps_agree (map_of (region [relay])) (map_of (region [relay]))).
Proof. exact (CompareDERPMaps_correct _ _ map_ok_relay map_ok_relay). Defined.

Definition made := NewDERPMap split_colon (Some (region [relay])) ["stun.example:3478"] "" "" true (fun m => Ok (Some m)) (fun m => Ok (Some m)).
Lemma NewDERPMap_correct_witness : exists m, made = Some (Ok m) /\ map_Forall (fun _ => no_stun) (dm_Regions m).
Proof.
  assert (Hm : exists m, made = Some (Ok m)) by (eexists; vm_compute; reflexivity). destruct Hm as [m Hm]. exists m. split; [exact Hm|].
  exact (proj1 (proj2 (NewDERPMap_correct split_colon _ _ _ _ _ _ _ m Hm)) eq_refl).
Defined.
End Examples.
