(* ===== verification/TailNode.v ===== *)
(** * Nodes of the network: [Node] of [tailnet/conn.go], [tailnet/convert.go], [tailnet/node.go]

    What a peer tells of itself, its message, and [nodeUpdater], which tells the
    coordinator of every change.  Keys and address prefixes belong to third
    parties: they are types with a marshalling. *)

From S2P Require Import Prelude GoStrings GoTime Tunnels Coordinator.
Local Open Scope string_scope.
Local Open Scope list_scope.
Local Open Scope Z_scope.

(** [key.NodePublic], [key.DiscoPublic] and [netip.Prefix], with their texts. *)
Class KeyLib := {
  NodePublic : Type;
  DiscoPublic : Type;
  Prefix : Type;
  NodePublic_eq_dec :: EqDecision NodePublic;
  DiscoPublic_eq_dec :: EqDecision DiscoPublic;
  Prefix_eq_dec :: EqDecision Prefix;
  NodePublic_countable :: Countable NodePublic;
  key_Marshal : NodePublic -> result string;
  key_Unmarshal : string -> result NodePublic;
  disco_Marshal : DiscoPublic -> result string;
  disco_Unmarshal : string -> result DiscoPublic;
  prefix_Marshal : Prefix -> result string;
  prefix_Unmarshal : string -> result Prefix;
  prefix_String : Prefix -> string;
}.

(** Unmarshalling is documented to read what marshalling writes, and the text of
    a prefix to be one of its own. *)
Class KeyLaws `{KeyLib} := {
  key_round_trip : forall k s, key_Marshal k = Ok s -> key_Unmarshal s = Ok k;
  disco_round_trip : forall k s, disco_Marshal k = Ok s -> disco_Unmarshal s = Ok k;
  prefix_round_trip : forall p s, prefix_Marshal p = Ok s -> prefix_Unmarshal s = Ok p;
  prefix_String_inj :: Inj (=) (=) prefix_String;
}.

(** A loop that converts each element and stops at the first error. *)
Fixpoint convert_all {A B} (f : A -> result B) (l : list A) : result (list B) :=
  match l with
  | [] => Ok []
  | x :: l => y ← f x; ys ← convert_all f l; Ok (y :: ys)
  end.

Lemma convert_all_inverse {A B} (f : A -> result B) (g : B -> result A) l l' :
  (forall x y, f x = Ok y -> g y = Ok x) -> convert_all f l = Ok l' -> convert_all g l' = Ok l.
Proof.
  intros Hfg. revert l'. induction l as [|x l IH]; intros l'; simpl; [by intros [= <-]|].
  intros (y & Hy & (ys & Hys & [= <-])%bind_Ok)%bind_Ok. simpl. by rewrite (Hfg _ _ Hy), (IH _ Hys).
Qed.

(** A loop over a map that gives each entry another key. *)
Definition rekey `{MapRange} {A} (f : Z -> Z) (m : gmap Z A) : gmap Z A :=
  foldl (fun acc k => match m !! k with Some v => <[f k := v]> acc | None => acc end) ∅ (range (dom m)).

Section Nodes.
Context `{KeyLib} `{MapRange}.

(** Latencies, 64-bit floats, are represented by their bits: they are copied, and
    compared, for which no latency is NaN or a negative zero. *)
Record TNode := mkNode {
  n_ID : Z;
  n_AsOf : Time;
  n_Key : NodePublic;
  n_DiscoKey : DiscoPublic;
  n_PreferredDERP : Z;
  n_DERPLatency : gmap string Z;
  n_DERPForcedWebsocket : gmap Z string;
  n_Addresses : list Prefix;
  n_AllowedIPs : list Prefix;
  n_Endpoints : list string;
}.

(** [proto.Node] *)
Record ProtoNode := mkProtoNode {
  p_Id : Z;
  p_AsOf : Time;
  p_Key : string;
  p_Disco : string;
  p_PreferredDerp : Z;
  p_DerpLatency : gmap string Z;
  p_DerpForcedWebsocket : gmap Z string;
  p_Addresses : list string;
  p_AllowedIps : list string;
  p_Endpoints : list string;
}.

(** A timestamp keeps the instant and is read in UTC. *)
Definition NodeToProto (n : TNode) : result ProtoNode :=
  k ← key_Marshal (n_Key n);
  disco ← disco_Marshal (n_DiscoKey n);
  addresses ← convert_all prefix_Marshal (n_Addresses n);
  allowedIPs ← convert_all prefix_Marshal (n_AllowedIPs n);
  Ok (mkProtoNode (n_ID n) (In_ (n_AsOf n) UTC) k disco (wraps 32 (n_PreferredDERP n)) (n_DERPLatency n)
        (rekey (wraps 32) (n_DERPForcedWebsocket n)) addresses allowedIPs (n_Endpoints n)).

Definition ProtoToNode (p : ProtoNode) : result TNode :=
  k ← key_Unmarshal (p_Key p);
  disco ← disco_Unmarshal (p_Disco p);
  addresses ← convert_all prefix_Unmarshal (p_Addresses p);
  allowedIPs ← convert_all prefix_Unmarshal (p_AllowedIps p);
  Ok (mkNode (p_Id p) (In_ (p_AsOf p) UTC) k disco (p_PreferredDerp p) (p_DerpLatency p)
        (rekey id (p_DerpForcedWebsocket p)) addresses allowedIPs (p_Endpoints p)).

(** [proto.CoordinateResponse_PeerUpdate], with this message of a node: its
    identifier is a byte string, [None] if it is not a UUID; a node may be nil,
    whose fields read as zero. *)
Record TUpdate := mkUpdate { tu_Id : option uuid; tu_Kind : Kind; tu_Node : option ProtoNode; tu_Reason : string }.

Definition zeroProtoNode : ProtoNode := mkProtoNode 0 (mkTime 0 UTC) "" "" 0 ∅ ∅ [] [] [].

Fixpoint OnlyNodeUpdates (updates : list TUpdate) : result (list TNode) :=
  match updates with
  | [] => Ok []
  | pu :: updates =>
      if negb (bool_decide (tu_Kind pu = NODE)) then OnlyNodeUpdates updates
      else
        n ← wrap "failed conversion from protobuf" (ProtoToNode (default zeroProtoNode (tu_Node pu)));
        nodes ← OnlyNodeUpdates updates;
        Ok (n :: nodes)
  end.

Definition SingleNodeUpdate (id : uuid) (node : TNode) (reason : string) : result (list TUpdate) :=
  p ← wrap "node failed conversion to protobuf" (NodeToProto node);
  Ok [mkUpdate (Some id) NODE (Some p) reason].

(** ** [prefixesDifferent] *)

Definition prefixesDifferent (a b : list Prefix) : bool :=
  if negb (Nat.eqb (length a) (length b)) then true
  else
    let as_ : gset string := list_to_set (prefix_String <$> a) in
    existsb (fun p => negb (bool_decide (prefix_String p ∈ as_))) b.

(** ** The updater *)

Inductive phase := idle | configuring | closed_.
#[export] Instance phase_eq_dec : EqDecision phase.
Proof. solve_decision. Defined.

(** What its loop is about to do while it does not hold the lock: the callback it
    read and the node it made. *)
Record nodeUpdater := mkUpdater {
  u_phase : phase;
  u_dirty : bool;
  u_closing : bool;
  u_id : Z;
  u_key : NodePublic;
  u_discoKey : DiscoPublic;
  u_callback : option N;
  u_preferredDERP : Z;
  u_derpLatency : gmap string Z;
  u_derpForcedWebsockets : gmap Z string;
  u_endpoints : list string;
  u_addresses : list Prefix;
  u_lastStatus : Time;
  u_blockEndpoints : bool;
  u_sentNode : bool;
  u_calling : option (N * TNode);
}.

Definition newNodeUpdater (callback : option N) (id : Z) (np : NodePublic) (dp : DiscoPublic) : nodeUpdater :=
  mkUpdater idle false false id np dp callback 0 ∅ ∅ [] [] zeroTime false false None.

Definition nodeLocked (now : Time) (u : nodeUpdater) : TNode :=
  mkNode (u_id u) now (u_key u) (u_discoKey u) (u_preferredDERP u) (u_derpLatency u) (u_derpForcedWebsockets u)
    (u_addresses u) (u_addresses u) (if u_blockEndpoints u then [] else u_endpoints u).

(** One turn of [updateLoop] from its test to the call of the callback, or to its
    end; [None] when it waits or calls. *)
Definition updateLoop_step (now : Time) (u : nodeUpdater) : option nodeUpdater :=
  match u_phase u, u_calling u with
  | closed_, _ | _, Some _ => None
  | _, None =>
      if u_closing u then Some (u{{ u_phase := closed_ }})
      else if u_dirty u then
        let u := (u{{ u_dirty := false }}){{ u_phase := configuring }} in
        match u_callback u with
        | None => Some u
        | Some callback =>
            let node := nodeLocked now u in
            if n_PreferredDERP node =? 0 then Some u else Some (u{{ u_calling := Some (callback, node) }})
        end
      else match u_phase u with idle => None | _ => Some (u{{ u_phase := idle }}) end
  end.

(** The callback returns. *)
Definition callback_returns (u : nodeUpdater) : option (N * TNode * nodeUpdater) :=
  '(callback, node) ← u_calling u; Some (callback, node, (u{{ u_calling := None }}){{ u_sentNode := true }}).

Definition u_setNetInfo (preferredDERP : Z) (latency : gmap string Z) (u : nodeUpdater) : nodeUpdater :=
  let dirty := negb (u_preferredDERP u =? preferredDERP) || negb (bool_decide (u_derpLatency u = latency)) in
  let u := if negb (u_preferredDERP u =? preferredDERP) then u{{ u_preferredDERP := preferredDERP }} else u in
  let u := if negb (bool_decide (u_derpLatency u = latency)) then u{{ u_derpLatency := latency }} else u in
  if dirty then u{{ u_dirty := true }} else u.

(** A region that is absent reads as the empty text. *)
Definition u_setDERPForcedWebsocket (region : Z) (reason : string) (u : nodeUpdater) : nodeUpdater :=
  let dirty := negb (String.eqb (default "" (u_derpForcedWebsockets u !! region)) reason) in
  let u := u{{ u_derpForcedWebsockets := <[region := reason]> (u_derpForcedWebsockets u) }} in
  if dirty then u{{ u_dirty := true }} else u.

(** The status of the engine: its time, the addresses it found, or an error. *)
Definition u_setStatus (s : result (Time * list string)) (u : nodeUpdater) : nodeUpdater :=
  match s with
  | Err _ => u
  | Ok (asOf, endpoints) =>
      if Before asOf (u_lastStatus u) then u
      else
        let u := u{{ u_lastStatus := asOf }} in
        if bool_decide (endpoints = u_endpoints u) then u
        else (u{{ u_endpoints := endpoints }}){{ u_dirty := true }}
  end.

Definition u_setAddresses (ips : list Prefix) (u : nodeUpdater) : nodeUpdater :=
  if negb (prefixesDifferent (u_addresses u) ips) then u
  else (u{{ u_addresses := ips }}){{ u_dirty := true }}.

Definition u_setCallback (callback : option N) (u : nodeUpdater) : nodeUpdater :=
  ((u{{ u_callback := callback }}){{ u_dirty := true }}){{ u_sentNode := false }}.

Definition u_setBlockEndpoints (blockEndpoints : bool) (u : nodeUpdater) : nodeUpdater :=
  if eqb (u_blockEndpoints u) blockEndpoints then u
  else (u{{ u_dirty := true }}){{ u_blockEndpoints := blockEndpoints }}.

(** [close] before it waits for the loop. *)
Definition u_close (u : nodeUpdater) : nodeUpdater := u{{ u_closing := true }}.

(** Its part of [PeerDiagnostics]: the preferred DERP region, and whether the node was sent. *)
Definition u_fillPeerDiagnostics (u : nodeUpdater) : Z * bool := (u_preferredDERP u, u_sentNode u).
Definition u_getBlockEndpoints (u : nodeUpdater) : bool := u_blockEndpoints u.

(** *** Runs of the updater *)

Inductive u_op :=
| USetNetInfo (preferredDERP : Z) (latency : gmap string Z)
| USetDERPForcedWebsocket (region : Z) (reason : string)
| USetStatus (s : result (Time * list string))
| USetAddresses (ips : list Prefix)
| USetCallback (callback : option N)
| USetBlockEndpoints (blockEndpoints : bool)
| UClose.

Definition run_u_op (o : u_op) (u : nodeUpdater) : nodeUpdater :=
  match o with
  | USetNetInfo preferredDERP latency => u_setNetInfo preferredDERP latency u
  | USetDERPForcedWebsocket region reason => u_setDERPForcedWebsocket region reason u
  | USetStatus s => u_setStatus s u
  | USetAddresses ips => u_setAddresses ips u
  | USetCallback callback => u_setCallback callback u
  | USetBlockEndpoints b => u_setBlockEndpoints b u
  | UClose => u_close u
  end.

(** The calls, the latest first: a call is made in the turn that reads the callback. *)
Definition calls_after (u : nodeUpdater) (calls : list (N * TNode)) : list (N * TNode) :=
  match u_calling u with Some call => call :: calls | None => calls end.

Inductive u_loop : nodeUpdater * list (N * TNode) -> nodeUpdater * list (N * TNode) -> Prop :=
| ul_turn now u u' calls : updateLoop_step now u = Some u' -> u_loop (u, calls) (u', calls_after u' calls)
| ul_return u callback node u' calls : callback_returns u = Some (callback, node, u') -> u_loop (u, calls) (u', calls).

Inductive u_step : nodeUpdater * list (N * TNode) -> nodeUpdater * list (N * TNode) -> Prop :=
| us_op o u calls : u_step (u, calls) (run_u_op o u, calls)
| us_loop s s' : u_loop s s' -> u_step s s'.

Definition u_reachable (s : nodeUpdater * list (N * TNode)) : Prop :=
  exists callback id np dp, rtc u_step (newNodeUpdater callback id np dp, []) s.

(** The loop waits, and no callback runs. *)
Definition u_waits (u : nodeUpdater) : Prop := u_calling u = None /\ forall now, updateLoop_step now u = None.

(** A node says what the updater has, its time aside; of the regions that were forced to use
    websockets, one without a reason may be missing. *)
Definition current_node (n : TNode) (u : nodeUpdater) : Prop :=
  exists now forced, n = nodeLocked now (u{{ u_derpForcedWebsockets := forced }}) /\
    forall region, default "" (forced !! region) = default "" (u_derpForcedWebsockets u !! region).

Definition announced (s : nodeUpdater * list (N * TNode)) : Prop :=
  forall callback, u_callback s.1 = Some callback -> u_preferredDERP s.1 <> 0 ->
  exists n calls, s.2 = (callback, n) :: calls /\ current_node n s.1.

(** ** The conversion *)

Lemma foldl_rekey {A} (f : Z -> Z) (m acc : gmap Z A) ids j : (forall k, k ∈ ids -> f k = k) ->
  foldl (fun acc k => match m !! k with Some v => <[f k := v]> acc | None => acc end) acc ids !! j
  = if decide (j ∈ ids) then match m !! j with Some v => Some v | None => acc !! j end else acc !! j.
Proof.
  revert acc. induction ids as [|k ids IH]; intros acc Hf; cbn [foldl]; [done|]. rewrite IH by (intros; apply Hf; by right).
  rewrite (Hf k) by (by left). destruct (decide (j = k)) as [->|Hne].
  - rewrite (decide_True (P := k ∈ k :: ids)) by (by left). destruct (m !! k) as [v|]; [|by destruct (decide _)].
    rewrite lookup_insert_eq. by destruct (decide _).
  - assert (Hacc : (match m !! k with Some v => <[k := v]> acc | None => acc end) !! j = acc !! j)
      by (destruct (m !! k); [by rewrite lookup_insert_ne|done]).
    rewrite Hacc. destruct (decide (j ∈ ids)) as [Hj|Hj].
    + by rewrite decide_True by (by right).
    + rewrite decide_False; [done|]. by intros [->|?]%elem_of_cons.
Qed.

Lemma rekey_id {A} (f : Z -> Z) (m : gmap Z A) : (forall k, k ∈ dom m -> f k = k) -> rekey f m = m.
Proof.
  intros Hf. unfold rekey. apply map_eq. intros j. rewrite foldl_rekey; [|intros k Hk%range_elem; by apply Hf].
  destruct (decide _) as [Hj|Hj]; [by destruct (m !! j)|]. rewrite lookup_empty. symmetry. apply not_elem_of_dom. by rewrite <- range_elem.
Qed.

(** A node that fits the message survives it.  What is unmarshalled from the message of a
    node whose region numbers fit 32 bits is the node, its time in UTC. *)
Lemma NodeToProto_round_trip `{!KeyLaws} n p : NodeToProto n = Ok p -> wraps 32 (n_PreferredDERP n) = n_PreferredDERP n ->
  (forall k, k ∈ dom (n_DERPForcedWebsocket n) -> wraps 32 k = k) -> ProtoToNode p = Ok (n{{ n_AsOf := In_ (n_AsOf n) UTC }}).
Proof.
  unfold NodeToProto. intros (k & Hk & (disco & Hd & (addrs & Ha & (ips & Hi & [= <-])%bind_Ok)%bind_Ok)%bind_Ok)%bind_Ok Hderp Hforced.
  unfold ProtoToNode. cbn. rewrite (key_round_trip _ _ Hk), (disco_round_trip _ _ Hd). cbn.
  rewrite (convert_all_inverse _ _ _ _ prefix_round_trip Ha). cbn. rewrite (convert_all_inverse _ _ _ _ prefix_round_trip Hi). cbn.
  rewrite (rekey_id (wraps 32)) by done. rewrite (rekey_id id) by done. rewrite Hderp. by destruct n.
Qed.

(** ** The updater *)

Lemma current_node_ext n u u' : current_node n u -> u_id u' = u_id u -> u_key u' = u_key u -> u_discoKey u' = u_discoKey u ->
  u_preferredDERP u' = u_preferredDERP u -> u_derpLatency u' = u_derpLatency u -> u_endpoints u' = u_endpoints u -> u_addresses u' = u_addresses u ->
  u_blockEndpoints u' = u_blockEndpoints u ->
  (forall region, default "" (u_derpForcedWebsockets u' !! region) = default "" (u_derpForcedWebsockets u !! region)) -> current_node n u'.
Proof.
  intros (now & forced & -> & Hf) E1 E2 E3 E4 E5 E6 E7 E8 Hw. exists now, forced. split; [|intros r; by rewrite Hw].
  destruct u, u'. cbn in *. by subst.
Qed.

(** What is not marked dirty has been told to the present callback. *)
Definition told_unless_dirty (s : nodeUpdater * list (N * TNode)) : Prop := u_dirty s.1 = false -> announced s.

Lemma announced_ext u u' calls : u_callback u' = u_callback u -> u_id u' = u_id u -> u_key u' = u_key u -> u_discoKey u' = u_discoKey u ->
  u_preferredDERP u' = u_preferredDERP u -> u_derpLatency u' = u_derpLatency u -> u_endpoints u' = u_endpoints u -> u_addresses u' = u_addresses u ->
  u_blockEndpoints u' = u_blockEndpoints u ->
  (forall region, default "" (u_derpForcedWebsockets u' !! region) = default "" (u_derpForcedWebsockets u !! region)) ->
  announced (u, calls) -> announced (u', calls).
Proof.
  intros Ec E1 E2 E3 E4 E5 E6 E7 E8 Hw Ha cb. cbn. rewrite Ec, E4. intros Hcb Hp. destruct (Ha cb Hcb Hp) as (n & rest & Hc & Hn).
  exists n, rest. split; [exact Hc|]. by apply (current_node_ext _ u).
Qed.

Lemma u_op_told o u calls : told_unless_dirty (u, calls) -> told_unless_dirty (run_u_op o u, calls).
Proof.
  unfold told_unless_dirty. cbn [fst]. intros Ht. assert (Hdirty : forall u', u_dirty u' = true -> u_dirty u' = false -> announced (u', calls)) by congruence.
  destruct o as [d l|region reason|[[asOf endpoints]|e]|ips|cb|b|]; cbn [run_u_op].
  - unfold u_setNetInfo. destruct (u_preferredDERP u =? d); cbn [negb orb]; [|by apply Hdirty].
    destruct (bool_decide _); [exact Ht|by apply Hdirty].
  - unfold u_setDERPForcedWebsocket. destruct (String.eqb_spec (default "" (u_derpForcedWebsockets u !! region)) reason) as [E|]; cbn [negb]; [|by apply Hdirty].
    intros Hd. apply (announced_ext u); [done..| |by apply Ht]. intros k. cbn. destruct (decide (k = region)) as [->|].
    + by rewrite lookup_insert_eq, E.
    + by rewrite lookup_insert_ne.
  - unfold u_setStatus. destruct (Before asOf (u_lastStatus u)); [exact Ht|]. destruct (bool_decide _).
    + intros Hd. apply (announced_ext u); [done..|by apply Ht].
    + by apply Hdirty.
  - exact Ht.
  - unfold u_setAddresses. destruct (negb _); [exact Ht|by apply Hdirty].
  - by apply Hdirty.
  - unfold u_setBlockEndpoints. destruct (eqb _ _); [exact Ht|by apply Hdirty].
  - intros Hd. apply (announced_ext u); [done..|by apply Ht].
Qed.

Lemma u_loop_told s s' : u_loop s s' -> told_unless_dirty s -> told_unless_dirty s'.
Proof.
  destruct 1 as [now u u' calls Hs|u cb node u' calls Hr]; unfold told_unless_dirty; cbn [fst]; intros Ht.
  - unfold updateLoop_step in Hs. destruct (u_calling u) as [call|] eqn:Ec; [by destruct (u_phase u)|].
    assert (Hkeep : u_dirty u = false -> forall ph, announced (u{{ u_phase := ph }}, calls_after (u{{ u_phase := ph }}) calls)).
    { intros Hd ph. unfold calls_after. change (u_calling (u{{ u_phase := ph }})) with (u_calling u). rewrite Ec.
      apply (announced_ext u); [done..|by apply Ht]. }
    assert (Hturn : (if u_closing u then Some (u{{ u_phase := closed_ }})
      else if u_dirty u then
        let u := (u{{ u_dirty := false }}){{ u_phase := configuring }} in
        match u_callback u with
        | None => Some u
        | Some callback => let node := nodeLocked now u in if n_PreferredDERP node =? 0 then Some u else Some (u{{ u_calling := Some (callback, node) }})
        end
      else match u_phase u with idle => None | _ => Some (u{{ u_phase := idle }}) end) = Some u') by (by destruct (u_phase u)).
    clear Hs. destruct (u_closing u); [injection Hturn as <-; by intros Hd; apply Hkeep|]. destruct (u_dirty u) eqn:Ed.
    2: { destruct (u_phase u); try done; injection Hturn as <-; by intros _; apply Hkeep. }
    intros _ cb Hcb Hp. cbn zeta in Hturn. change (u_callback _) with (u_callback u) in Hturn.
    destruct (u_callback u) as [cb'|] eqn:Ecb; [|injection Hturn as <-; change (u_callback u = Some cb) in Hcb; congruence].
    destruct (Z.eqb_spec (n_PreferredDERP (nodeLocked now ((u{{ u_dirty := false }}){{ u_phase := configuring }}))) 0) as [E0|]; [by injection Hturn as <-|].
    injection Hturn as <-. change (u_callback u = Some cb) in Hcb. rewrite Ecb in Hcb. injection Hcb as ->. eexists _, calls. split; [reflexivity|].
    exists now, (u_derpForcedWebsockets u). done.
  - unfold callback_returns in Hr. destruct (u_calling u) as [[cb' n']|]; [|done]. cbn in Hr. injection Hr as -> -> <-.
    intros Hd. apply (announced_ext u); [done..|by apply Ht].
Qed.

Lemma u_reachable_told s : u_reachable s -> told_unless_dirty s.
Proof.
  intros (cb & id & np & dp & Hr). assert (H0' : told_unless_dirty (newNodeUpdater cb id np dp, [])) by (intros _ ? _ []; done).
  revert H0'. induction Hr as [s|s1 s2 s3 Hs _ IH]; [done|]. intros Ht. apply IH. destruct Hs as [o u calls|s s' Hl]; [by apply u_op_told|by eapply u_loop_told].
Qed.

(** The work left to the loop, with the calls that have to return. *)
Definition u_work (u : nodeUpdater) : nat :=
  (if u_dirty u then 3 else 0) + match u_phase u with idle => 0 | _ => 1 end + match u_calling u with Some _ => 1 | None => 0 end.

(** What the loop leaves alone. *)
Definition u_same (u u' : nodeUpdater) : Prop :=
  u_callback u' = u_callback u /\ u_preferredDERP u' = u_preferredDERP u /\ u_closing u' = u_closing u /\ u_addresses u' = u_addresses u /\
  u_endpoints u' = u_endpoints u /\ u_derpLatency u' = u_derpLatency u.

(** A turn, or the return of a callback, unless the loop waits. *)
Lemma turn_progress u : u_closing u = false -> u_phase u <> closed_ -> u_calling u = None ->
  (u_phase u = idle /\ u_dirty u = false) \/
  exists u', updateLoop_step zeroTime u = Some u' /\ (u_work u' < u_work u)%nat /\ u_phase u' <> closed_ /\ u_same u u'.
Proof.
  intros Hc Hp Ec. destruct u as [ph dirty closing id k dk cb derp lat forced eps addrs last blk sent calling]. cbn in Hc, Hp, Ec. subst closing calling.
  destruct ph, dirty, cb as [cb|], (derp =? 0) eqn:E0; try done; try (by left).
  all: right; eexists; (split; [cbn; rewrite ?E0; reflexivity|]); (split; [cbn; lia|by split_and!]).
Qed.

Lemma idle_waits u : u_closing u = false -> u_phase u = idle -> u_dirty u = false -> u_calling u = None -> u_waits u.
Proof. intros Hc Hp Hd Ec. split; [done|]. intros now. unfold updateLoop_step. by rewrite Hp, Ec, Hc, Hd. Qed.

Lemma waits_clean u : u_waits u -> u_closing u = false -> u_phase u <> closed_ -> u_dirty u = false.
Proof.
  intros [Ec Hw] Hc Hp. specialize (Hw zeroTime). destruct (turn_progress u Hc Hp Ec) as [[_ Hd]|(u' & Hs & _)]; [done|congruence].
Qed.

Lemma u_loop_progress u calls : u_closing u = false -> u_phase u <> closed_ ->
  u_waits u \/ exists u' calls', u_loop (u, calls) (u', calls') /\ (u_work u' < u_work u)%nat /\ u_phase u' <> closed_ /\ u_same u u'.
Proof.
  intros Hc Hp. destruct (u_calling u) as [[cb n]|] eqn:Ec.
  - right. eexists _, calls. split; [apply (ul_return _ cb n); unfold callback_returns; by rewrite Ec|].
    destruct u. cbn in *. subst. split; [cbn; lia|by split_and!].
  - destruct (turn_progress u Hc Hp Ec) as [[Hi Hd]|(u' & Hs & Hprog)]; [left; by apply idle_waits|right].
    exists u', (calls_after u' calls). split; [by apply (ul_turn zeroTime)|done].
Qed.

Lemma u_loop_waits u calls : u_closing u = false -> u_phase u <> closed_ ->
  exists u' calls', rtc u_loop (u, calls) (u', calls') /\ u_waits u' /\ u_phase u' <> closed_ /\ u_same u u'.
Proof.
  remember (u_work u) as n eqn:Hn. revert u calls Hn. induction (lt_wf n) as [n _ IH]. intros u calls -> Hc Hp.
  destruct (u_loop_progress u calls Hc Hp) as [Hw|(u1 & calls1 & Hl & Hlt & Hp1 & S1)]; [by exists u, calls|].
  destruct (IH _ Hlt u1 calls1 eq_refl) as (u' & calls' & Hr & Hw & Hp' & S2); [destruct S1 as (_ & _ & -> & _); done|done|].
  exists u', calls'. split; [by eapply rtc_l|]. split; [done|]. split; [done|].
  destruct S1 as (?&?&?&?&?&?), S2 as (?&?&?&?&?&?). split_and!; congruence.
Qed.

Lemma u_reachable_loop s s' : u_reachable s -> rtc u_loop s s' -> u_reachable s'.
Proof.
  intros (cb & id & np & dp & Hr) Hl. exists cb, id, np, dp. induction Hl as [s|s1 s2 s3 H1 _ IH]; [done|]. apply IH. eapply rtc_r; [exact Hr|by apply us_loop].
Qed.

(** C31: every change of the node is told.  When the loop waits, and there is a callback and a
    preferred DERP region, the last call was to that callback and with the node as it
    is; and from any state the loop comes to wait, when the callbacks return, without changing
    the node. *)
Theorem node_announced u calls : u_reachable (u, calls) -> u_closing u = false -> u_phase u <> closed_ ->
  (u_waits u -> announced (u, calls)) /\
  exists u' calls', rtc u_loop (u, calls) (u', calls') /\ u_waits u' /\ u_same u u' /\ announced (u', calls').
Proof.
  intros Hr Hc Hp. split.
  - intros Hw. apply (u_reachable_told _ Hr). by apply waits_clean.
  - destruct (u_loop_waits u calls Hc Hp) as (u' & calls' & Hl & Hw & Hp' & Hs). exists u', calls'. split; [done|]. split; [done|]. split; [done|].
    apply (u_reachable_told _ (u_reachable_loop _ _ Hr Hl)). cbn [fst]. apply waits_clean; [done| |done]. destruct Hs as (_ & _ & E & _). congruence.
Qed.
End Nodes.

(** ** Examples *)

Module Examples.
#[local] Instance text_keys : KeyLib := {|
  NodePublic := string; DiscoPublic := string; Prefix := string;
  key_Marshal := Ok; key_Unmarshal := Ok; disco_Marshal := Ok; disco_Unmarshal := Ok;
  prefix_Marshal := Ok; prefix_Unmarshal := Ok; prefix_String := id;
|}.
Lemma text_laws : KeyLaws.
Proof. split; [by intros k s [= <-]..|]. intros a b. exact id. Qed.

Definition node : TNode :=
  mkNode 7 (mkTime 1000 UTC) "key" "disco" 1 {[ "1-v4" := 12 ]} {[ 2 := "upgrade failed" ]} ["10.0.0.8/32"] ["10.0.0.8/32"] ["192.0.2.8:41641"].

Lemma NodeToProto_round_trip_witness : exists p, NodeToProto node = Ok p /\ ProtoToNode p = Ok node.
Proof.
  assert (Hp : exists p, NodeToProto node = Ok p) by (eexists; vm_compute; reflexivity). destruct Hp as [p Hp]. exists p. split; [exact Hp|].
  refine (NodeToProto_round_trip (H1 := text_laws) node p Hp _ _); [vm_compute; reflexivity|].
  intros k Hk. cbn [n_DERPForcedWebsocket node] in Hk. rewrite dom_singleton_L in Hk. apply elem_of_singleton in Hk as ->. vm_compute. reflexivity.
Defined.

(** The lists are taken for sets, and their lengths compared. *)
Example repetition_hides : prefixesDifferent ["10.0.0.1/32"; "10.0.0.2/32"] ["10.0.0.1/32"; "10.0.0.1/32"] = false.
Proof. by vm_compute. Qed.

(** A callback, a preferred region, and the turns up to the call. *)
Definition fresh : nodeUpdater := newNodeUpdater (Some 3%N) 7 "key" "disco".
Definition netinfo : nodeUpdater := run_u_op (USetNetInfo 1 ∅) fresh.
Definition called : nodeUpdater := default netinfo (updateLoop_step zeroTime netinfo).

Lemma called_reachable : u_reachable (called, [(3%N, nodeLocked zeroTime netinfo)]).
Proof.
  exists (Some 3%N), 7, "key", "disco". eapply rtc_l; [exact (us_op (USetNetInfo 1 ∅) fresh [])|].
  eapply rtc_l; [|apply rtc_refl]. apply us_loop. apply (ul_turn zeroTime netinfo called []). vm_compute. reflexivity.
Qed.

Lemma node_announced_witness : exists u calls, u_waits u /\ u_callback u = Some 3%N /\ u_preferredDERP u = 1 /\ announced (u, calls).
Proof.
  assert (Hc : u_closing called = false) by (vm_compute; reflexivity).
  assert (Hp : u_phase called <> closed_) by (vm_compute; discriminate).
  destruct (node_announced called _ called_reachable Hc Hp) as [_ (u & calls & _ & Hw & (Hcb & Hd & _) & Ha)].
  exists u, calls. split; [exact Hw|]. split; [exact Hcb|]. split; [exact Hd|exact Ha].
Defined.

(** A callback that was replaced while it ran still has the node counted as sent. *)
Example sent_by_the_old_callback :
  (callback_returns (run_u_op (USetCallback (Some 4%N)) called) ≫= fun r => Some (u_fillPeerDiagnostics r.2, u_callback r.2)) = Some ((1, true), Some 4%N).
Proof. by vm_compute. Qed.
End Examples.
