(* ===== verification/ConfigMaps.v ===== *)
(** * The configuration of the network engine: [tailnet/configmaps.go]

    What a connection knows of its peers, and the loop that keeps the engine
    configured with it.  The methods run under one mutex and are atomic steps; the
    loop computes its actions under the mutex and runs them without it.  Timers are
    objects of the clock: one that has fired can no longer be stopped, and its
    callback waits for the mutex.  The engine's status is asked for before the
    mutex is taken, so any status may meet any state.  Since [Since] of a time is
    only compared with short durations, its saturation is left out. *)

From S2P Require Import Prelude GoStrings GoEncoding GoTime Tunnels Coordinator DerpMap TailNode.
Local Open Scope string_scope.
Local Open Scope list_scope.
Local Open Scope Z_scope.

Definition lostTimeout : Z := 15 * Minute.
Definition readyForHandshakeTimeout : Z := 5 * Second.
Definition WirtualDNSSuffix : string := "coder.".
(** [tailcfg.DerpMagicIP] *)
Definition DerpMagicIP : string := "127.3.3.40".

Section ConfigMaps.
Context `{KeyLib} `{MapRange}.

(** [tailcfg.Node]: its host information is always empty; the time it was
    created at is an instant.  [Equal] is documented to compare the contents. *)
Record TailcfgNode := mkTailcfgNode {
  tn_ID : Z;
  tn_Created : Z;
  tn_Key : NodePublic;
  tn_DiscoKey : DiscoPublic;
  tn_Addresses : list Prefix;
  tn_AllowedIPs : list Prefix;
  tn_Endpoints : list string;
  tn_DERP : string;
  tn_KeepAlive : bool;
}.
#[export] Instance TailcfgNode_eq_dec : EqDecision TailcfgNode.
Proof. solve_decision. Defined.
Definition Node_Equal (a b : option TailcfgNode) : bool := bool_decide (a = b).

(** [ipnstate.PeerStatus], of the status' map from keys. *)
Record PeerStatus := mkPeerStatus { ps_LastHandshake : Time; ps_Active : bool }.
Abbreviation Status := (gmap NodePublic PeerStatus).

(** Timers are references to the clock's. *)
Record peerLifecycle := mkLifecycle {
  pl_isDestination : bool;
  pl_node : option TailcfgNode;
  pl_lost : bool;
  pl_lastHandshake : Time;
  pl_lostTimer : option N;
  pl_readyForHandshake : bool;
  pl_readyForHandshakeTimer : option N;
}.

(** The callbacks of timers. *)
Inductive callback := LostTimeout (id : uuid) | ReadyTimeout (id : uuid).
#[export] Instance callback_eq_dec : EqDecision callback.
Proof. solve_decision. Defined.
Record timer := mkTimer { t_deadline : Z; t_callback : callback }.

(** [netmap.NetworkMap], what varies of it. *)
Record NetworkMap := mkNetworkMap { nm_Addresses : list Prefix; nm_Peers : list TailcfgNode }.

(** Hosts, by domain name. *)
Abbreviation Hosts := (gmap string (list string)).

(** What the engine was given last: the DERP map, the network map, the wireguard
    configuration with the router's and the DNS's, and the addresses the filter lets
    in. *)
Record DNSConfig := mkDNSConfig { dc_Hosts : Hosts; dc_OnlyIPv6 : bool; dc_Routes : list string }.
Record Engine := mkEngine {
  en_DERPMap : option DERPMap;
  en_NetworkMap : option NetworkMap;
  en_Reconfig : option (NetworkMap * list Prefix * DNSConfig);
  en_Filter : option (list Prefix);
}.

Inductive action :=
| ActSetDERPMap (derpMap : option DERPMap)
| ActSetNetworkMap (nm : NetworkMap) (hosts : Hosts)
| ActSetFilter (localIPs : list Prefix).

(** [configMaps], with the actions its loop has queued, the engine, the clock and its
    timers, and the callbacks that have been started. *)
Record configMaps := mkConfigMaps {
  c_phase : phase;
  c_netmapDirty : bool;
  c_derpMapDirty : bool;
  c_filterDirty : bool;
  c_closing : bool;
  c_hosts : Hosts;
  c_peers : gmap uuid peerLifecycle;
  c_addresses : list Prefix;
  c_derpMap : option DERPMap;
  c_blockEndpoints : bool;
  c_actions : list action;
  c_engine : Engine;
  c_now : Time;
  c_timers : gmap N timer;
  c_nextTimer : N;
  c_fired : list callback;
}.

Definition newConfigMaps (now : Time) : configMaps :=
  mkConfigMaps idle false false false false ∅ ∅ [] None false [] (mkEngine None None None None) now ∅ 0 [].

(** ** Timers *)

Definition Stop (t : option N) (c : configMaps) : configMaps :=
  match t with Some i => c{{ c_timers := delete i (c_timers c) }} | None => c end.

Definition AfterFunc (d : Z) (f : callback) (c : configMaps) : N * configMaps :=
  (c_nextTimer c,
   (c{{ c_timers := <[c_nextTimer c := mkTimer (t_ns (c_now c) + d) f]> (c_timers c) }}){{ c_nextTimer := (c_nextTimer c + 1)%N }}).

(** [time.Since], for a time that is not centuries away: it decides alike for the zero time. *)
Definition Since (c : configMaps) (t : Time) : Z := t_ns (c_now c) - t_ns t.

Definition resetLostTimer (l : peerLifecycle) (c : configMaps) : peerLifecycle * configMaps :=
  match pl_lostTimer l with
  | Some t => (l{{ pl_lostTimer := None }}, Stop (Some t) c)
  | None => (l, c)
  end.

Definition setLostTimer (id : uuid) (l : peerLifecycle) (c : configMaps) : peerLifecycle * configMaps :=
  let c := Stop (pl_lostTimer l) c in
  let ttl := lostTimeout - Since c (pl_lastHandshake l) in
  let ttl := if ttl <=? 0 then Nanosecond else ttl in
  let '(t, c) := AfterFunc ttl (LostTimeout id) c in
  (l{{ pl_lostTimer := Some t }}, c).

Definition setReadyForHandshakeTimer (id : uuid) (l : peerLifecycle) (c : configMaps) : peerLifecycle * configMaps :=
  let c := Stop (pl_readyForHandshakeTimer l) c in
  let '(t, c) := AfterFunc readyForHandshakeTimeout (ReadyTimeout id) c in
  (l{{ pl_readyForHandshakeTimer := Some t }}, c).

Definition validForWireguard (l : peerLifecycle) : bool :=
  let valid := bool_decide (is_Some (pl_node l)) in
  if pl_isDestination l then valid && pl_readyForHandshake l else valid.

Definition nodeKeepalive (lc : option peerLifecycle) (status : Status) (key : NodePublic) : bool :=
  match status !! key with
  | Some peerStatus => if ps_Active peerStatus then true
                       else match lc with Some lc => pl_isDestination lc && pl_readyForHandshake lc | None => false end
  | None => match lc with Some lc => pl_isDestination lc && pl_readyForHandshake lc | None => false end
  end.

(** ** The configuration *)

Definition peer_config (blockEndpoints : bool) (p : peerLifecycle) : option TailcfgNode :=
  if (negb (pl_readyForHandshake p) && pl_isDestination p) || negb (bool_decide (is_Some (pl_node p))) then None
  else n ← pl_node p; Some (if blockEndpoints then n{{ tn_Endpoints := [] }} else n).

Definition peerConfigLocked (c : configMaps) : list TailcfgNode :=
  omap (fun id => p ← c_peers c !! id; peer_config (c_blockEndpoints c) p) (range (dom (c_peers c))).

(** The node of the peer itself, whose addresses are set here, is one object that the
    maps share; it is left out of them. *)
Definition netMapLocked (c : configMaps) : NetworkMap := mkNetworkMap (c_addresses c) (peerConfigLocked c).
Definition hostsLocked (c : configMaps) : Hosts := c_hosts c.
Definition derpMapLocked (c : configMaps) : option DERPMap := c_derpMap c.
Definition filterLocked (c : configMaps) : list Prefix := c_addresses c.

(** [WGCfg] succeeds, as the code says of the version it uses. *)
Definition dns_config (hosts : Hosts) : DNSConfig :=
  if bool_decide (hosts = ∅) then mkDNSConfig ∅ false [] else mkDNSConfig hosts true [WirtualDNSSuffix].

(** [reconfig].  An error of [Reconfig] is logged and the loop goes on, so [en_Reconfig]
    is what the engine was given last, whatever it made of it. *)
Definition reconfig (nm : NetworkMap) (hosts : Hosts) (e : Engine) : Engine :=
  e{{ en_Reconfig := Some (nm, nm_Addresses nm, dns_config hosts) }}.

Definition run_action (a : action) (e : Engine) : Engine :=
  match a with
  | ActSetDERPMap derpMap => e{{ en_DERPMap := derpMap }}
  | ActSetNetworkMap nm hosts => reconfig nm hosts (e{{ en_NetworkMap := Some nm }})
  | ActSetFilter f => e{{ en_Filter := Some f }}
  end.

(** One turn of [configLoop]: it closes, waits, queues actions or runs the next
    of them; [None] when it sleeps or has ended. *)
Definition configLoop_step (c : configMaps) : option configMaps :=
  match c_phase c, c_actions c with
  | closed_, _ => None
  | _, a :: actions => Some ((c{{ c_engine := run_action a (c_engine c) }}){{ c_actions := actions }})
  | _, [] =>
      if c_closing c then Some (c{{ c_phase := closed_ }})
      else if c_netmapDirty c || c_filterDirty c || c_derpMapDirty c then
        let actions :=
          (if c_derpMapDirty c then [ActSetDERPMap (derpMapLocked c)] else [])
          ++ (if c_netmapDirty c then [ActSetNetworkMap (netMapLocked c) (hostsLocked c)] else [])
          ++ (if c_filterDirty c then [ActSetFilter (filterLocked c)] else []) in
        Some (((((c{{ c_netmapDirty := false }}){{ c_filterDirty := false }}){{ c_derpMapDirty := false }})
                 {{ c_phase := configuring }}){{ c_actions := actions }})
      else match c_phase c with idle => None | _ => Some (c{{ c_phase := idle }}) end
  end.

(** ** Methods *)

Definition setTunnelDestination (id : uuid) (c : configMaps) : configMaps :=
  let lc := default (mkLifecycle false None false zeroTime None false None) (c_peers c !! id) in
  c{{ c_peers := <[id := lc{{ pl_isDestination := true }}]> (c_peers c) }}.

Definition setAddresses (ips : list Prefix) (c : configMaps) : configMaps :=
  if negb (prefixesDifferent (c_addresses c) ips) then c
  else ((c{{ c_addresses := ips }}){{ c_netmapDirty := true }}){{ c_filterDirty := true }}.

Definition setHosts (hosts : Hosts) (c : configMaps) : configMaps := (c{{ c_hosts := hosts }}){{ c_netmapDirty := true }}.

Definition setBlockEndpoints (blockEndpoints : bool) (c : configMaps) : configMaps :=
  let c := if negb (eqb (c_blockEndpoints c) blockEndpoints) then c{{ c_netmapDirty := true }} else c in
  c{{ c_blockEndpoints := blockEndpoints }}.

(** The comparison may panic: the state is then lost, [None]. *)
Definition setDERPMap (derpMap : option DERPMap) (c : configMaps) : option (configMaps * bool) :=
  same ← CompareDERPMaps (c_derpMap c) derpMap;
  Some (if (same : bool) then (c, false) else ((c{{ c_derpMap := derpMap }}){{ c_derpMapDirty := true }}, true)).

Definition protoNodeToTailcfg (now : Time) (p : ProtoNode) : result TailcfgNode :=
  node ← ProtoToNode p;
  Ok (mkTailcfgNode (p_Id p) (t_ns now) (n_Key node) (n_DiscoKey node) (n_Addresses node) (n_AllowedIPs node) (n_Endpoints node)
        (DerpMagicIP +:+ ":" +:+ FormatInt (n_PreferredDERP node)) false).

(** A peer of the map, changed. *)
Definition set_peer (id : uuid) (lc_c : peerLifecycle * configMaps) : configMaps :=
  let '(lc, c) := lc_c in c{{ c_peers := <[id := lc]> (c_peers c) }}.

(** The node of an update, made before the cases are told apart; [None] when the update
    is skipped. *)
Definition update_node (lc : option peerLifecycle) (status : Status) (now : Time) (node : option ProtoNode) : option TailcfgNode :=
  p ← node;
  if p_PreferredDerp p =? 0 then None
  else match protoNodeToTailcfg now p with
  | Err _ => None
  | Ok n => Some (n{{ tn_KeepAlive := nodeKeepalive lc status (tn_Key n) }})
  end.

Definition new_peer (id : uuid) (node : TailcfgNode) (status : Status) (c : configMaps) : configMaps * bool :=
  let lastHandshake := match status !! tn_Key node with Some ps => ps_LastHandshake ps | None => zeroTime end in
  let lc := mkLifecycle false (Some node) false lastHandshake None false None in
  (set_peer id (lc, c), validForWireguard lc).

(** The timers of a peer that is not lost any more and may have to get ready. *)
Definition update_timers (id : uuid) (lc : peerLifecycle) (c : configMaps) : peerLifecycle * configMaps :=
  let '(lc, c) := resetLostTimer lc c in
  if pl_isDestination lc && negb (pl_readyForHandshake lc) then setReadyForHandshakeTimer id lc c else (lc, c).

Definition update_peer_node (id : uuid) (lc : peerLifecycle) (node : TailcfgNode) (c : configMaps) : configMaps * bool :=
  let node := match pl_node lc with Some old => node{{ tn_Created := tn_Created old }} | None => node end in
  let dirty := negb (Node_Equal (pl_node lc) (Some node)) in
  let lc := lc{{ pl_node := Some node }} in
  let dirty := dirty && validForWireguard lc in
  (set_peer id (update_timers id (lc{{ pl_lost := false }}) c), dirty).

Definition peer_ready (id : uuid) (lc : peerLifecycle) (status : Status) (c : configMaps) : configMaps * bool :=
  let dirty := negb (pl_readyForHandshake lc) in
  let lc := lc{{ pl_readyForHandshake := true }} in
  let c := Stop (pl_readyForHandshakeTimer lc) c in
  match pl_node lc with
  | Some node =>
      let keepAlive := nodeKeepalive (Some lc) status (tn_Key node) in
      let dirty := dirty || negb (eqb (tn_KeepAlive node) keepAlive) in
      (set_peer id (lc{{ pl_node := Some (node{{ tn_KeepAlive := keepAlive }}) }}, c), dirty)
  | None => (set_peer id (lc, c), false)
  end.

Definition updatePeerLocked (update : TUpdate) (status : Status) (c : configMaps) : configMaps * bool :=
  match tu_Id update with
  | None => (c, false)
  | Some id =>
      let lc := c_peers c !! id in
      match tu_Kind update, lc with
      | NODE, _ =>
          match update_node lc status (c_now c) (tu_Node update), lc with
          | None, _ => (c, false)
          | Some node, None => new_peer id node status c
          | Some node, Some lc => update_peer_node id lc node c
          end
      | READY_FOR_HANDSHAKE, Some lc => peer_ready id lc status c
      | READY_FOR_HANDSHAKE, None => (set_peer id (mkLifecycle false None false zeroTime None true None, c), false)
      | _, None => (c, false)
      | DISCONNECTED, Some lc =>
          let '(_, c) := resetLostTimer lc c in
          (c{{ c_peers := delete id (c_peers c) }}, true)
      | LOST, Some lc => (set_peer id (setLostTimer id (lc{{ pl_lost := true }}) c), false)
      | KIND_UNSPECIFIED, Some _ => (c, false)
      end
  end.

(** The last handshakes are read from the status for all peers. *)
Definition refresh_handshake (status : Status) (lc : peerLifecycle) : peerLifecycle :=
  match pl_node lc with
  | Some node => match status !! tn_Key node with Some ps => lc{{ pl_lastHandshake := ps_LastHandshake ps }} | None => lc end
  | None => lc
  end.

Fixpoint update_loop (updates : list TUpdate) (status : Status) (c : configMaps) : configMaps :=
  match updates with
  | [] => c
  | update :: updates =>
      let '(c, dirty) := updatePeerLocked update status c in
      update_loop updates status (if (dirty : bool) then c{{ c_netmapDirty := true }} else c)
  end.

(** An update of a node that is nil panics; the state is then lost, [None]. *)
Definition update_panics (update : TUpdate) : bool :=
  bool_decide (tu_Kind update = NODE) && bool_decide (is_Some (tu_Id update)) && bool_decide (~ is_Some (tu_Node update)).

Definition updatePeers (updates : list TUpdate) (status : Status) (c : configMaps) : option configMaps :=
  if existsb update_panics updates then None
  else Some (update_loop updates status (c{{ c_peers := refresh_handshake status <$> c_peers c }})).

Fixpoint lose_all (ids : list uuid) (c : configMaps) : configMaps :=
  match ids with
  | [] => c
  | id :: ids =>
      match c_peers c !! id with
      | Some lc => if pl_lost lc then lose_all ids c else lose_all ids (set_peer id (setLostTimer id (lc{{ pl_lost := true }}) c))
      | None => lose_all ids c
      end
  end.
Definition setAllPeersLost (c : configMaps) : configMaps := lose_all (range (dom (c_peers c))) c.

Definition peerLostTimeout (id : uuid) (status : Status) (c : configMaps) : configMaps :=
  match c_peers c !! id with
  | None => c
  | Some lc =>
      let lc := refresh_handshake status lc in
      if negb (pl_lost lc) then set_peer id (lc, c)
      else if lostTimeout <=? Since c (pl_lastHandshake lc)
      then (c{{ c_peers := delete id (c_peers c) }}){{ c_netmapDirty := true }}
      else set_peer id (setLostTimer id lc c)
  end.

Definition peerReadyForHandshakeTimeout (id : uuid) (c : configMaps) : configMaps :=
  match c_peers c !! id with
  | None => c
  | Some lc =>
      let c := set_peer id (lc{{ pl_readyForHandshake := true }}, c) in
      if negb (pl_readyForHandshake lc) then c{{ c_netmapDirty := true }} else c
  end.

Definition run_callback (f : callback) (status : Status) (c : configMaps) : configMaps :=
  match f with LostTimeout id => peerLostTimeout id status c | ReadyTimeout id => peerReadyForHandshakeTimeout id c end.

(** [close] before it waits for the loop. *)
Fixpoint reset_timers (ids : list uuid) (c : configMaps) : configMaps :=
  match ids with
  | [] => c
  | id :: ids => reset_timers ids (match c_peers c !! id with Some lc => set_peer id (resetLostTimer lc c) | None => c end)
  end.
Definition close (c : configMaps) : configMaps := (reset_timers (range (dom (c_peers c))) c){{ c_closing := true }}.

(** *** Queries *)

Definition getBlockEndpoints (c : configMaps) : bool := c_blockEndpoints c.
Definition knownPeerIDs (c : configMaps) : list uuid := range (dom (c_peers c)).

Fixpoint find_addresses (ids : list uuid) (publicKey : NodePublic) (c : configMaps) : option (list Prefix) :=
  match ids with
  | [] => None
  | id :: ids =>
      match lc ← c_peers c !! id; pl_node lc with
      | Some node => if bool_decide (tn_Key node = publicKey) then Some (tn_Addresses node) else find_addresses ids publicKey c
      | None => find_addresses ids publicKey c
      end
  end.
Definition nodeAddresses (publicKey : NodePublic) (c : configMaps) : option (list Prefix) := find_addresses (range (dom (c_peers c))) publicKey c.

(** [PeerDiagnostics], the part that is filled here: the names of the regions, the
    node received and the last handshake.  A nil region panics: [None]. *)
Definition region_names (m : option DERPMap) : option (gmap Z string) :=
  match m with
  | None => Some ∅
  | Some m => if bool_decide (map_Forall (fun _ r => is_Some r) (dm_Regions m))
              then Some (omap (fmap dr_RegionName) (dm_Regions m)) else None
  end.
Definition fillPeerDiagnostics (peerID : uuid) (status : Status) (c : configMaps)
    : option (gmap Z string * option TailcfgNode * option Time) :=
  names ← region_names (c_derpMap c);
  Some (match lc ← c_peers c !! peerID; pl_node lc with
        | None => (names, None, None)
        | Some node => (names, Some node, ps_LastHandshake <$> status !! tn_Key node)
        end).

(** ** Steps *)

Inductive op :=
| OpSetTunnelDestination (id : uuid)
| OpSetAddresses (ips : list Prefix)
| OpSetHosts (hosts : Hosts)
| OpSetBlockEndpoints (blockEndpoints : bool)
| OpSetDERPMap (derpMap : option DERPMap)
| OpUpdatePeers (updates : list TUpdate) (status : Status)
| OpSetAllPeersLost
| OpClose.

Definition run_op (o : op) (c : configMaps) : option configMaps :=
  match o with
  | OpSetTunnelDestination id => Some (setTunnelDestination id c)
  | OpSetAddresses ips => Some (setAddresses ips c)
  | OpSetHosts hosts => Some (setHosts hosts c)
  | OpSetBlockEndpoints b => Some (setBlockEndpoints b c)
  | OpSetDERPMap m => fst <$> setDERPMap m c
  | OpUpdatePeers updates status => updatePeers updates status c
  | OpSetAllPeersLost => Some (setAllPeersLost c)
  | OpClose => Some (close c)
  end.

(** A destination is set before its node is configured: the method does not mark the
    network map dirty, although it takes such a peer out of it. *)
Definition polite (o : op) (c : configMaps) : Prop :=
  match o with
  | OpSetTunnelDestination id => forall lc, c_peers c !! id = Some lc -> pl_node lc = None \/ pl_readyForHandshake lc = true \/ pl_isDestination lc = true
  | _ => True
  end.

Inductive step : configMaps -> configMaps -> Prop :=
| step_op o c c' : polite o c -> run_op o c = Some c' -> step c c'
| step_loop c c' : configLoop_step c = Some c' -> step c c'
| step_fire c i t : c_timers c !! i = Some t -> t_deadline t <= t_ns (c_now c) ->
    step c ((c{{ c_timers := delete i (c_timers c) }}){{ c_fired := c_fired c ++ [t_callback t] }})
| step_callback c l1 f l2 status : c_fired c = l1 ++ f :: l2 -> step c (run_callback f status (c{{ c_fired := l1 ++ l2 }}))
| step_tick c now : t_ns (c_now c) <= t_ns now -> step c (c{{ c_now := now }}).

Definition reachable (c : configMaps) : Prop := exists now, rtc step (newConfigMaps now) c.

(** * Theorems *)

(** ** What the engine has *)

(** The nodes to configure, by peer. *)
Definition configured (c : configMaps) : gmap uuid TailcfgNode := omap (peer_config (c_blockEndpoints c)) (c_peers c).

Lemma omap_range {A B} (f : A -> option B) (m : gmap uuid A) l : NoDup l -> (forall k, k ∈ l <-> k ∈ dom m) ->
  omap (fun k => x ← m !! k; f x) l ≡ₚ (map_to_list (omap f m)).*2.
Proof.
  revert m. induction l as [|k l IH]; intros m Hnd Hl.
  { replace m with (∅ : gmap uuid A); [by rewrite omap_empty, map_to_list_empty|]. symmetry. apply dom_empty_inv_L, set_eq. intros k.
    rewrite <- Hl. set_solver. }
  apply NoDup_cons in Hnd as [Hk Hnd]. destruct (m !! k) as [x|] eqn:E.
  2: { exfalso. apply not_elem_of_dom in E. apply E, Hl. by left. }
  assert (Hm : omap (fun k => x ← m !! k; f x) l = omap (fun k' => x ← delete k m !! k'; f x) l).
  { clear -Hk. induction l as [|k' l IH]; [done|]. apply not_elem_of_cons in Hk as [Hne Hk]. cbn. rewrite lookup_delete_ne by done.
    by rewrite (IH Hk). }
  cbn [omap list_omap]. rewrite E. cbn [mbind option_bind]. rewrite Hm.
  assert (IHl : omap (fun k' => x ← delete k m !! k'; f x) l ≡ₚ (map_to_list (omap f (delete k m))).*2).
  { apply IH; [done|]. intros k'. rewrite dom_delete, elem_of_difference, not_elem_of_singleton, <- Hl, elem_of_cons. set_solver. }
  assert (Hnone : omap f (delete k m) !! k = None) by (by rewrite lookup_omap, lookup_delete_eq).
  replace (omap f m) with (omap f (<[k:=x]> (delete k m))) by (by rewrite insert_delete_id). destruct (f x) as [y|] eqn:Ef.
  - rewrite (omap_insert_Some f _ k x y Ef), (map_to_list_insert _ _ _ Hnone). cbn. by rewrite IHl.
  - rewrite (omap_insert_None f _ k x Ef), (delete_id _ _ Hnone). exact IHl.
Qed.

Lemma peerConfigLocked_perm c : peerConfigLocked c ≡ₚ (map_to_list (configured c)).*2.
Proof. apply omap_range; [apply range_NoDup|]. intros k. apply range_elem. Qed.

(** A change that marks dirty what it changes of the configuration. *)
Record careful (c c' : configMaps) : Prop := {
  ca_engine : c_engine c' = c_engine c;
  ca_actions : c_actions c' = c_actions c;
  ca_netmap : c_netmapDirty c' = false -> c_netmapDirty c = false /\ configured c' = configured c /\
                c_addresses c' = c_addresses c /\ c_hosts c' = c_hosts c;
  ca_filter : c_filterDirty c' = false -> c_filterDirty c = false /\ c_addresses c' = c_addresses c;
  ca_derpMap : c_derpMapDirty c' = false -> c_derpMapDirty c = false /\ c_derpMap c' = c_derpMap c;
}.

#[export] Instance careful_preorder : PreOrder careful.
Proof.
  split; [by intros c; split|]. intros c1 c2 c3 [E1 A1 N1 F1 D1] [E2 A2 N2 F2 D2]. split; try congruence.
  - intros Hd. destruct (N2 Hd) as (Hd1 & -> & -> & ->). by apply N1.
  - intros Hd. destruct (F2 Hd) as (Hd1 & ->). by apply F1.
  - intros Hd. destruct (D2 Hd) as (Hd1 & ->). by apply D1.
Qed.

Lemma Stop_careful t c : careful c (Stop t c).
Proof. by destruct t. Qed.

Lemma Stop_peers t c : c_peers (Stop t c) = c_peers c.
Proof. by destruct t. Qed.

Lemma resetLostTimer_careful l c : careful c (resetLostTimer l c).2 /\ c_peers (resetLostTimer l c).2 = c_peers c.
Proof. unfold resetLostTimer. by destruct (pl_lostTimer l). Qed.

Lemma setLostTimer_careful id l c : careful c (setLostTimer id l c).2 /\ c_peers (setLostTimer id l c).2 = c_peers c /\
  c_blockEndpoints (setLostTimer id l c).2 = c_blockEndpoints c.
Proof. unfold setLostTimer. cbn. by destruct (pl_lostTimer l). Qed.

Lemma setReadyForHandshakeTimer_careful id l c :
  careful c (setReadyForHandshakeTimer id l c).2 /\ c_peers (setReadyForHandshakeTimer id l c).2 = c_peers c.
Proof. unfold setReadyForHandshakeTimer. cbn. by destruct (pl_readyForHandshakeTimer l). Qed.

(** The timers of a peer do not bear on its node. *)
Lemma resetLostTimer_config b l c : peer_config b (resetLostTimer l c).1 = peer_config b l.
Proof. unfold resetLostTimer. by destruct (pl_lostTimer l). Qed.
Lemma setLostTimer_config b id l c : peer_config b (setLostTimer id l c).1 = peer_config b l.
Proof. done. Qed.
Lemma setReadyForHandshakeTimer_config b id l c : peer_config b (setReadyForHandshakeTimer id l c).1 = peer_config b l.
Proof. done. Qed.

Lemma configured_insert c id lc : (p ← c_peers c !! id; peer_config (c_blockEndpoints c) p) = peer_config (c_blockEndpoints c) lc ->
  omap (peer_config (c_blockEndpoints c)) (<[id := lc]> (c_peers c)) = configured c.
Proof.
  intros Hlc. unfold configured. apply map_eq. intros k. rewrite !lookup_omap. destruct (decide (k = id)) as [->|Hne].
  - rewrite lookup_insert_eq. exact (eq_sym Hlc).
  - by rewrite lookup_insert_ne by done.
Qed.

(** A peer may change as long as its node to configure stays. *)
Lemma set_peer_careful id lc c c1 : careful c c1 -> c_peers c1 = c_peers c -> c_blockEndpoints c1 = c_blockEndpoints c ->
  (p ← c_peers c !! id; peer_config (c_blockEndpoints c) p) = peer_config (c_blockEndpoints c) lc ->
  careful c (set_peer id (lc, c1)).
Proof.
  intros [E A N F D] Hp Hb Hlc. split; try done. intros Hd. destruct (N Hd) as (? & _ & ? & ?). split_and!; [done| |done|done].
  transitivity (omap (peer_config (c_blockEndpoints c1)) (<[id := lc]> (c_peers c1))); [done|]. rewrite Hp, Hb. by apply configured_insert.
Qed.

Lemma mark_careful c c' : c_engine c' = c_engine c -> c_actions c' = c_actions c ->
  c_filterDirty c' = c_filterDirty c -> c_derpMapDirty c' = c_derpMapDirty c -> c_addresses c' = c_addresses c -> c_derpMap c' = c_derpMap c ->
  c_netmapDirty c' = true -> careful c c'.
Proof. intros. split; try done; try congruence. - intros. by split; [congruence|]. - intros. by split; [congruence|]. Qed.

Lemma set_peer_marked id lc c c1 : careful c c1 -> careful c ((set_peer id (lc, c1)){{ c_netmapDirty := true }}).
Proof. intros [E A N F D]. by split. Qed.

Definition mark (dirty : bool) (c : configMaps) : configMaps := if dirty then c{{ c_netmapDirty := true }} else c.

Lemma update_timers_careful id lc c : careful c (update_timers id lc c).2 /\ c_peers (update_timers id lc c).2 = c_peers c /\
  c_blockEndpoints (update_timers id lc c).2 = c_blockEndpoints c /\ forall b, peer_config b (update_timers id lc c).1 = peer_config b lc.
Proof.
  unfold update_timers, resetLostTimer, setReadyForHandshakeTimer. destruct lc as [dest node lost last lostTimer ready readyTimer]. cbn.
  destruct lostTimer, readyTimer, dest, ready; cbn; (split; [by split|done]).
Qed.

Lemma peer_config_valid b lc : validForWireguard lc = false -> peer_config b lc = None.
Proof.
  unfold validForWireguard, peer_config. destruct (pl_isDestination lc), (pl_readyForHandshake lc), (pl_node lc); simpl; done.
Qed.

Lemma update_peer_node_careful id lc node c : c_peers c !! id = Some lc ->
  careful c (mark (update_peer_node id lc node c).2 (update_peer_node id lc node c).1).
Proof.
  intros E. unfold update_peer_node. set (node' := match pl_node lc with Some old => _ | None => _ end). clearbody node'.
  set (lc1 := (lc{{ pl_node := Some node' }}){{ pl_lost := false }}).
  destruct (update_timers_careful id lc1 c) as (Hc & Hp & Hb & Hconf). cbn [fst snd]. destruct (update_timers id lc1 c) as [lc2 c2]. cbn [fst snd] in *.
  destruct (negb (Node_Equal (pl_node lc) (Some node')) && validForWireguard (lc{{ pl_node := Some node' }})) eqn:Hd.
  - by apply set_peer_marked.
  - apply set_peer_careful; [done..|]. rewrite E, Hconf. simpl. apply andb_false_iff in Hd as [Hd|Hd].
    + apply negb_false_iff, bool_decide_eq_true in Hd. unfold peer_config. simpl. by rewrite Hd.
    + rewrite (peer_config_valid _ lc1) by exact Hd. apply peer_config_valid. unfold validForWireguard in *. destruct lc as [[] node0 ? ? ? [] ?]; simpl in *.
      * by destruct (bool_decide_reflect (is_Some (Some node'))) as [|[]].
      * by rewrite andb_false_r.
      * by destruct (bool_decide_reflect (is_Some (Some node'))) as [|[]].
      * by destruct (bool_decide_reflect (is_Some (Some node'))) as [|[]].
Qed.

Lemma peer_ready_careful id lc status c : c_peers c !! id = Some lc ->
  careful c (mark (peer_ready id lc status c).2 (peer_ready id lc status c).1).
Proof.
  intros E. unfold peer_ready. pose proof (Stop_careful (pl_readyForHandshakeTimer lc) c) as Hc. pose proof (Stop_peers (pl_readyForHandshakeTimer lc) c) as Hp.
  assert (Hb : c_blockEndpoints (Stop (pl_readyForHandshakeTimer lc) c) = c_blockEndpoints c) by (by destruct (pl_readyForHandshakeTimer lc)).
  destruct lc as [dest [node|] lost last lostTimer ready timer]; cbn -[Stop nodeKeepalive set_peer] in *.
  - set (keepAlive := nodeKeepalive _ status (tn_Key node)). destruct ready, (eqb (tn_KeepAlive node) keepAlive) eqn:Hk; cbn -[Stop set_peer].
    2-4: by apply set_peer_marked.
    apply set_peer_careful; [done..|]. rewrite E. apply eqb_prop in Hk. rewrite <- Hk. by destruct node.
  - apply set_peer_careful; [done..|]. rewrite E. unfold peer_config. cbn. by rewrite !orb_true_r.
Qed.

Lemma updatePeerLocked_careful update status c :
  careful c (mark (updatePeerLocked update status c).2 (updatePeerLocked update status c).1).
Proof.
  unfold updatePeerLocked. destruct (tu_Id update) as [id|]; [|done].
  destruct (tu_Kind update), (c_peers c !! id) as [lc|] eqn:E; try done.
  - destruct (update_node _ _ _ _) as [node|]; [|done]. by apply update_peer_node_careful.
  - destruct (update_node _ _ _ _) as [node|]; [|done]. by apply mark_careful.
  - unfold resetLostTimer. by destruct (pl_lostTimer lc); apply mark_careful.
  - destruct (setLostTimer_careful id (lc{{ pl_lost := true }}) c) as (Hc & Hp & Hb). apply set_peer_careful; [done|done|done|]. by rewrite E.
  - by apply peer_ready_careful.
  - apply set_peer_careful; [done|done|done|]. by rewrite E.
Qed.

Lemma update_loop_careful updates status c : careful c (update_loop updates status c).
Proof.
  revert c. induction updates as [|u updates IH]; intros c; simpl; [done|].
  pose proof (updatePeerLocked_careful u status c) as Hc. destruct (updatePeerLocked u status c) as [c1 dirty]. etrans; [exact Hc|apply IH].
Qed.

Lemma refresh_handshake_config b status lc : peer_config b (refresh_handshake status lc) = peer_config b lc.
Proof. unfold refresh_handshake. destruct (pl_node lc) as [node|]; [|done]. by destruct (status !! tn_Key node). Qed.

Lemma refresh_careful status c : careful c (c{{ c_peers := refresh_handshake status <$> c_peers c }}).
Proof.
  split; try done. intros Hd. split_and!; [done| |done|done]. unfold configured. apply map_eq. intros k. simpl.
  rewrite !lookup_omap, lookup_fmap. destruct (c_peers c !! k) as [lc|]; [|done]. apply refresh_handshake_config.
Qed.

Lemma lose_all_careful ids c : careful c (lose_all ids c).
Proof.
  revert c. induction ids as [|id ids IH]; intros c; cbn [lose_all]; [done|]. destruct (c_peers c !! id) as [lc|] eqn:E; [|apply IH].
  destruct (pl_lost lc); [apply IH|]. etrans; [|apply IH].
  destruct (setLostTimer_careful id (lc{{ pl_lost := true }}) c) as (Hc & Hp & Hb). apply set_peer_careful; [done|done|done|]. by rewrite E.
Qed.

Lemma reset_timers_careful ids c : careful c (reset_timers ids c).
Proof.
  revert c. induction ids as [|id ids IH]; intros c; cbn [reset_timers]; [done|]. etrans; [|apply IH]. destruct (c_peers c !! id) as [lc|] eqn:E; [|done].
  unfold resetLostTimer. destruct (pl_lostTimer lc); (apply set_peer_careful; [done..|by rewrite E]).
Qed.

Lemma run_op_careful o c c' : polite o c -> run_op o c = Some c' -> careful c c'.
Proof.
  intros Hp Ho. destruct o as [id|ips|hosts|b|m|updates status| |]; simpl in *.
  - injection Ho as <-. unfold setTunnelDestination. apply (set_peer_careful id _ c c); [done..|].
    destruct (c_peers c !! id) as [lc|] eqn:E; [|done]. specialize (Hp lc eq_refl).
    destruct lc as [[] [n|] ? ? ? [] ?]; try done. by destruct Hp as [?|[?|?]].
  - injection Ho as <-. unfold setAddresses. by destruct (negb _).
  - injection Ho as <-. by split.
  - injection Ho as <-. unfold setBlockEndpoints. destruct (eqb_spec (c_blockEndpoints c) b) as [<-|]; simpl; by split.
  - unfold setDERPMap in Ho. destruct (CompareDERPMaps (c_derpMap c) m) as [[]|]; simpl in Ho; simplify_eq; by split.
  - unfold updatePeers in Ho. destruct (existsb _ _); [done|]. injection Ho as <-. etrans; [apply refresh_careful|apply update_loop_careful].
  - injection Ho as <-. apply lose_all_careful.
  - injection Ho as <-. unfold close. etrans; [apply reset_timers_careful|]. by split.
Qed.

Lemma run_callback_careful f status c : careful c (run_callback f status c).
Proof.
  destruct f as [id|id]; simpl.
  - unfold peerLostTimeout. destruct (c_peers c !! id) as [lc|] eqn:E; [|done]. destruct (negb _); [|destruct (_ <=? _)].
    + apply set_peer_careful; [done..|]. rewrite E. symmetry. apply refresh_handshake_config.
    + by split.
    + destruct (setLostTimer_careful id (refresh_handshake status lc) c) as (Hc & Hp & Hb). apply set_peer_careful; [done|done|done|].
      rewrite E. symmetry. apply refresh_handshake_config.
  - unfold peerReadyForHandshakeTimeout. destruct (c_peers c !! id) as [lc|] eqn:E; [|done].
    destruct (pl_readyForHandshake lc) eqn:Er; simpl; [|by split].
    apply (set_peer_careful id _ c c); [done..|]. rewrite E. unfold peer_config. simpl. by rewrite Er.
Qed.

(** What the engine will have when the queued actions have run. *)
Definition final (c : configMaps) : Engine := foldl (fun e a => run_action a e) (c_engine c) (c_actions c).

(** The engine has the configuration: nothing, if there is nothing to configure and
    nothing has been yet. *)
Definition engine_net (e : Engine) (c : configMaps) : Prop :=
  match en_Reconfig e with
  | None => en_NetworkMap e = None /\ c_addresses c = [] /\ configured c = ∅ /\ c_hosts c = ∅
  | Some (nm, localAddrs, dns) =>
      en_NetworkMap e = Some nm /\ nm_Addresses nm = c_addresses c /\ localAddrs = c_addresses c /\
      nm_Peers nm ≡ₚ (map_to_list (configured c)).*2 /\ dns = dns_config (c_hosts c)
  end.
Definition engine_filter (e : Engine) (c : configMaps) : Prop := default [] (en_Filter e) = c_addresses c.

Record engine_ok (c : configMaps) : Prop := {
  eo_net : c_netmapDirty c = false -> engine_net (final c) c;
  eo_filter : c_filterDirty c = false -> engine_filter (final c) c;
  eo_derpMap : c_derpMapDirty c = false -> en_DERPMap (final c) = c_derpMap c;
}.

Lemma careful_engine_ok c c' : careful c c' -> engine_ok c -> engine_ok c'.
Proof.
  intros [E A N F D] [Hn Hf Hd].
  assert (Hfin : final c' = final c) by (unfold final; by rewrite E, A). split; rewrite Hfin.
  - intros (Hdn & Hc & Ha & Hh)%N. specialize (Hn Hdn). unfold engine_net in *. by rewrite Hc, Ha, Hh.
  - intros (Hdf & Ha)%F. unfold engine_filter. rewrite Ha. by apply Hf.
  - intros (Hdd & ->)%D. by apply Hd.
Qed.

Lemma final_run_action c a actions : c_actions c = a :: actions ->
  final ((c{{ c_engine := run_action a (c_engine c) }}){{ c_actions := actions }}) = final c.
Proof. intros Ha. unfold final. by rewrite Ha. Qed.

(** The turn that queues the actions of what is dirty. *)
Lemma queue_engine_ok c : c_actions c = [] -> engine_ok c ->
  let actions :=
    (if c_derpMapDirty c then [ActSetDERPMap (derpMapLocked c)] else [])
    ++ (if c_netmapDirty c then [ActSetNetworkMap (netMapLocked c) (hostsLocked c)] else [])
    ++ (if c_filterDirty c then [ActSetFilter (filterLocked c)] else []) in
  engine_ok (((((c{{ c_netmapDirty := false }}){{ c_filterDirty := false }}){{ c_derpMapDirty := false }})
                {{ c_phase := configuring }}){{ c_actions := actions }}).
Proof.
  intros Ha [Hn Hf Hd] actions. unfold final in Hn, Hf, Hd. rewrite Ha in Hn, Hf, Hd. cbn in Hn, Hf, Hd.
  pose proof (peerConfigLocked_perm c) as Hperm. subst actions. unfold engine_net, engine_filter in *.
  split; intros _; unfold final, engine_net, engine_filter; cbn; destruct (c_derpMapDirty c), (c_netmapDirty c), (c_filterDirty c); cbn; auto; exact (Hn eq_refl).
Qed.

Lemma loop_engine_ok c c' : configLoop_step c = Some c' -> engine_ok c -> engine_ok c'.
Proof.
  unfold configLoop_step. intros Hs Hok. destruct (c_actions c) as [|a actions] eqn:Ea.
  2: { assert (c' = (c{{ c_engine := run_action a (c_engine c) }}){{ c_actions := actions }}) as -> by (destruct (c_phase c); by simplify_eq).
       destruct Hok as [Hn Hf Hd]. split; rewrite (final_run_action _ _ _ Ea); [exact Hn|exact Hf|exact Hd]. }
  destruct (c_phase c) eqn:Ep; [| |done].
  all: destruct (c_closing c); [injection Hs as <-; eapply careful_engine_ok; [|exact Hok]; by split|].
  all: destruct (c_netmapDirty c || c_filterDirty c || c_derpMapDirty c).
  all: try (injection Hs as <-; by apply queue_engine_ok).
  all: simpl in Hs; simplify_eq; (apply (careful_engine_ok c); [by split|exact Hok]).
Qed.

Lemma step_engine_ok c c' : step c c' -> engine_ok c -> engine_ok c'.
Proof.
  destruct 1 as [o c c' Hp Ho|c c' Hl|c i t Ht Hd|c l1 f l2 status Hf|c now Hn].
  - apply careful_engine_ok. by eapply run_op_careful.
  - by apply loop_engine_ok.
  - apply careful_engine_ok. by split.
  - apply careful_engine_ok. trans (c{{ c_fired := l1 ++ l2 }}); [by split|]. apply run_callback_careful.
  - apply careful_engine_ok. by split.
Qed.

Lemma reachable_engine_ok c : reachable c -> engine_ok c.
Proof.
  intros [now Hr]. assert (H0' : engine_ok (newConfigMaps now)) by (split; done).
  revert H0'. induction Hr as [c|c1 c2 c3 Hs _ IH]; [done|]. intros H1. apply IH. by eapply step_engine_ok.
Qed.

(** The loop by itself. *)
Definition loops (c c' : configMaps) : Prop := configLoop_step c = Some c'.

(** What the methods change is left alone by the loop. *)
Definition same_config (c c' : configMaps) : Prop :=
  configured c' = configured c /\ c_addresses c' = c_addresses c /\ c_hosts c' = c_hosts c /\ c_derpMap c' = c_derpMap c /\
  c_peers c' = c_peers c /\ c_closing c' = c_closing c.

Lemma loops_same_config c c' : loops c c' -> same_config c c' /\ (c_closing c = false -> c_phase c <> closed_ -> c_phase c' <> closed_).
Proof.
  unfold loops, configLoop_step. intros Hs.
  destruct (c_phase c) eqn:Ep, (c_actions c) as [|a actions], (c_closing c) eqn:Ec; try done;
    try (destruct (c_netmapDirty c || c_filterDirty c || c_derpMapDirty c)); simpl in Hs; simplify_eq; (split; [by split_and!|]);
    first [intros [=]; fail|intros _ _; discriminate|intros _ _; change (c_phase c <> closed_); congruence].
Qed.

(** The work left to the loop. *)
Definition work (c : configMaps) : nat :=
  length (c_actions c) + (if c_netmapDirty c || c_filterDirty c || c_derpMapDirty c then 5 else 0)
  + match c_phase c with idle => 0 | _ => 1 end.

Lemma loops_work c c' : loops c c' -> c_closing c = false -> (work c' < work c)%nat.
Proof.
  unfold loops, configLoop_step. intros Hs Hc. destruct c as [ph nd dd fd cl hosts peers addrs dm be actions eng now timers next fired].
  cbn in Hs, Hc. subst cl. destruct actions as [|a actions].
  - destruct ph, nd, dd, fd; cbn in Hs; simplify_eq; unfold work; cbn; lia.
  - destruct ph; simplify_eq; unfold work; cbn; destruct nd, dd, fd; cbn; lia.
Qed.

Lemma waiting_settled c : configLoop_step c = None -> c_phase c <> closed_ -> c_closing c = false ->
  c_actions c = [] /\ c_netmapDirty c = false /\ c_filterDirty c = false /\ c_derpMapDirty c = false.
Proof.
  unfold configLoop_step. intros Hs Hp Hc. rewrite Hc in Hs.
  destruct (c_phase c), (c_actions c), (c_netmapDirty c), (c_filterDirty c), (c_derpMapDirty c); done.
Qed.

Lemma loop_waits c : c_closing c = false -> c_phase c <> closed_ ->
  exists c', rtc loops c c' /\ configLoop_step c' = None /\ c_phase c' <> closed_ /\ same_config c c'.
Proof.
  remember (work c) as n eqn:Hn. revert c Hn. induction (lt_wf n) as [n _ IH]. intros c -> Hc Hp.
  destruct (configLoop_step c) as [c1|] eqn:Hl; [|by exists c].
  destruct (loops_same_config c c1 Hl) as [Hsame Hph]. pose proof Hsame as (S1 & S2 & S3 & S4 & S5 & S6).
  destruct (IH (work c1) (loops_work _ _ Hl Hc) c1 eq_refl) as (c' & Hr & Hw & Hp' & Hs); [congruence|by apply Hph|].
  exists c'. split; [by eapply rtc_l|]. split; [done|]. split; [done|].
  destruct Hs as (? & ? & ? & ? & ? & ?). split_and!; congruence.
Qed.

Lemma reachable_step c c' : reachable c -> step c c' -> reachable c'.
Proof. intros [now Hr] Hs. exists now. by eapply rtc_r. Qed.

Lemma reachable_loops c c' : reachable c -> rtc loops c c' -> reachable c'.
Proof. intros Hc Hr. induction Hr as [c|c1 c2 c3 Hl _ IH]; [done|]. apply IH. eapply reachable_step; [exact Hc|by apply step_loop]. Qed.

(** C28: the engine is kept configured.  As long as destinations are set before their nodes
    are configured, whenever the loop waits the engine has the addresses, the
    nodes of exactly the peers that are to be configured, the hosts, the filter and the
    DERP map that the state has; and from any state the loop, left alone, comes to
    wait, without changing what it configures. *)
Theorem engine_configured c : reachable c -> c_closing c = false -> c_phase c <> closed_ ->
  (configLoop_step c = None ->
     engine_net (c_engine c) c /\ engine_filter (c_engine c) c /\ en_DERPMap (c_engine c) = c_derpMap c) /\
  exists c', rtc loops c c' /\ configLoop_step c' = None /\ same_config c c' /\
     engine_net (c_engine c') c' /\ engine_filter (c_engine c') c' /\ en_DERPMap (c_engine c') = c_derpMap c.
Proof.
  intros Hr Hc Hp.
  assert (Hwait : forall c', reachable c' -> c_closing c' = false -> c_phase c' <> closed_ -> configLoop_step c' = None ->
    engine_net (c_engine c') c' /\ engine_filter (c_engine c') c' /\ en_DERPMap (c_engine c') = c_derpMap c').
  { intros c' Hr' Hc' Hp' Hw. destruct (waiting_settled _ Hw Hp' Hc') as (Ha & Hn & Hf & Hd).
    destruct (reachable_engine_ok _ Hr') as [On Of Od]. unfold final in *. rewrite Ha in On, Of, Od. cbn in On, Of, Od. auto. }
  split; [by apply Hwait|]. destruct (loop_waits c Hc Hp) as (c' & Hl & Hw & Hp' & Hs). exists c'. split; [done|]. split; [done|]. split; [done|].
  destruct Hs as (? & ? & ? & Hd & _ & Hcl). rewrite <- Hd. apply Hwait; [by eapply reachable_loops|congruence|done|done].
Qed.

(** ** Timers *)

(** A callback will come: its timer runs, or it has been started. *)
Definition watched (f : callback) (c : configMaps) : Prop :=
  f ∈ c_fired c \/ exists i t, c_timers c !! i = Some t /\ t_callback t = f.

Definition fresh_timers (c : configMaps) : Prop := forall i t, c_timers c !! i = Some t -> (i < c_nextTimer c)%N.

(** The reference of a peer to a timer, if it still runs, is to one of its own. *)
Definition own_timer (f : callback) (ref : option N) (c : configMaps) : Prop :=
  forall i, ref = Some i -> (i < c_nextTimer c)%N /\ forall t, c_timers c !! i = Some t -> t_callback t = f.

Record peer_timers (id : uuid) (lc : peerLifecycle) (c : configMaps) : Prop := {
  pt_lost : own_timer (LostTimeout id) (pl_lostTimer lc) c;
  pt_ready : own_timer (ReadyTimeout id) (pl_readyForHandshakeTimer lc) c;
}.

(** What is waited for: a lost peer to come back, and a destination whose node is
    known to get ready. *)
Record peer_watched (id : uuid) (lc : peerLifecycle) (c : configMaps) : Prop := {
  pw_lost : pl_lost lc = true -> watched (LostTimeout id) c;
  pw_ready : pl_isDestination lc = true -> is_Some (pl_node lc) -> pl_readyForHandshake lc = false -> watched (ReadyTimeout id) c;
}.

Record timers_ok (c : configMaps) : Prop := {
  to_fresh : fresh_timers c;
  to_peers : map_Forall (fun id lc => peer_timers id lc c) (c_peers c);
  to_watched : c_closing c = false -> map_Forall (fun id lc => peer_watched id lc c) (c_peers c);
}.

Definition callback_peer (f : callback) : uuid := match f with LostTimeout id | ReadyTimeout id => id end.

(** A change of the timers of some callbacks. *)
Record timer_frame (P : callback -> Prop) (c c' : configMaps) : Prop := {
  tf_peers : c_peers c' = c_peers c;
  tf_fired : c_fired c' = c_fired c;
  tf_closing : c_closing c' = c_closing c;
  tf_next : (c_nextTimer c <= c_nextTimer c')%N;
  tf_fresh : fresh_timers c -> fresh_timers c';
  tf_new : forall i t, c_timers c' !! i = Some t -> (i < c_nextTimer c)%N -> c_timers c !! i = Some t;
  tf_kept : fresh_timers c -> forall i t, c_timers c !! i = Some t -> ~ P (t_callback t) -> c_timers c' !! i = Some t;
}.

#[export] Instance timer_frame_preorder P : PreOrder (timer_frame P).
Proof.
  split; [by intros c; split|]. intros c1 c2 c3 [] []. split; try congruence; try lia; try (by auto).
  intros i t Hi Hl. apply tf_new0; [|done]. apply tf_new1; [done|lia].
Qed.

Lemma timer_frame_weaken (P Q : callback -> Prop) c c' : (forall f, P f -> Q f) -> timer_frame P c c' -> timer_frame Q c c'.
Proof. intros HPQ []. split; try done. intros Hf i t Hi Hn. apply tf_kept0; auto. Qed.

Lemma Stop_frame f ref c : own_timer f ref c -> timer_frame (eq f) c (Stop ref c).
Proof.
  intros Ho. destruct ref as [i|]; [|done]. destruct (Ho i eq_refl) as [Hi Hcb]. split; try done; cbn.
  - intros Hfresh j t Hj. cbn in Hj. apply lookup_delete_Some in Hj as [_ Hj]. by eapply Hfresh.
  - intros j t [_ Hj]%lookup_delete_Some _. done.
  - intros _ j t Hj Hne. apply lookup_delete_Some. split; [|done]. intros <-. by rewrite (Hcb t Hj) in Hne.
Qed.

Lemma AfterFunc_frame P d f c : timer_frame P c (AfterFunc d f c).2.
Proof.
  split; try done; cbn; [lia| | |].
  - intros Hfresh j t Hj. cbn in *. apply lookup_insert_Some in Hj as [[<- _]|[_ Hj]]; [lia|]. apply Hfresh in Hj. lia.
  - intros j t Hj Hl. apply lookup_insert_Some in Hj as [[<- _]|[_ Hj]]; [lia|done].
  - intros Hfresh j t Hj _. apply lookup_insert_Some. right. split; [|done]. intros <-. apply Hfresh in Hj. lia.
Qed.

Lemma AfterFunc_watched d f c : watched f (AfterFunc d f c).2.
Proof. right. eexists _, _. split; [apply lookup_insert_eq|done]. Qed.

Lemma AfterFunc_own d f c : own_timer f (Some (AfterFunc d f c).1) (AfterFunc d f c).2.
Proof. intros i [= <-]. split; [cbn; lia|]. cbn. rewrite lookup_insert_eq. by intros t [= <-]. Qed.

Lemma watched_frame P f c c' : timer_frame P c c' -> fresh_timers c -> ~ P f -> watched f c -> watched f c'.
Proof.
  intros Hfr Hfresh Hn [Hf|(i & t & Hi & <-)]; [left; by rewrite (tf_fired _ _ _ Hfr)|right]. exists i, t. split; [|done].
  by apply (tf_kept _ _ _ Hfr).
Qed.

Lemma own_timer_frame P f ref c c' : timer_frame P c c' -> own_timer f ref c -> own_timer f ref c'.
Proof.
  intros Hfr Ho i Hi. destruct (Ho i Hi) as [Hl Hcb]. split; [pose proof (tf_next _ _ _ Hfr); lia|]. intros t Ht.
  apply Hcb. by apply (tf_new _ _ _ Hfr).
Qed.

Lemma peer_timers_frame P id lc c c' : timer_frame P c c' -> peer_timers id lc c -> peer_timers id lc c'.
Proof. intros Hfr [Hl Hr]. split; by eapply own_timer_frame. Qed.

Definition of_peer (id : uuid) (f : callback) : Prop := callback_peer f = id.

Lemma peer_watched_frame id k lc c c' : timer_frame (of_peer id) c c' -> fresh_timers c -> k <> id -> peer_watched k lc c -> peer_watched k lc c'.
Proof. intros Hfr Hf Hk [Hl Hr]. split; intros; (eapply watched_frame; [exact Hfr|done|by cbn|by auto]). Qed.

Lemma peer_timers_ext id lc c c' : c_timers c' = c_timers c -> c_nextTimer c' = c_nextTimer c -> peer_timers id lc c -> peer_timers id lc c'.
Proof. intros Ht Hn [Hl Hr]. split; unfold own_timer in *; by rewrite Ht, Hn. Qed.

Lemma peer_watched_ext id lc c c' : c_timers c' = c_timers c -> c_fired c' = c_fired c -> peer_watched id lc c -> peer_watched id lc c'.
Proof. intros Ht Hf [Hl Hr]. split; unfold watched in *; by rewrite Ht, Hf. Qed.

(** [timers_ok] but for what is waited for of one peer. *)
Record timers_but (id : uuid) (c : configMaps) : Prop := {
  tb_fresh : fresh_timers c;
  tb_peers : map_Forall (fun k lc => peer_timers k lc c) (c_peers c);
  tb_watched : c_closing c = false -> map_Forall (fun k lc => k <> id -> peer_watched k lc c) (c_peers c);
}.

Lemma timers_ok_but id c : timers_ok c -> timers_but id c.
Proof. intros [Hf Hp Hw]. split; [done|done|]. intros Hc k x Hx _. exact (Hw Hc k x Hx). Qed.

Lemma timers_but_absent id c : timers_but id c -> c_peers c !! id = None -> timers_ok c.
Proof. intros [Hf Hp Hw] Hn. split; [done|done|]. intros Hc k x Hx. apply (Hw Hc k x Hx). congruence. Qed.

(** A peer is put into the map with timers of its own. *)
Lemma timers_set_peer id lc c c1 : timers_but id c -> timer_frame (of_peer id) c c1 -> peer_timers id lc c1 ->
  (c_closing c = false -> peer_watched id lc c1) -> timers_ok (set_peer id (lc, c1)).
Proof.
  intros [Hf Hp Hw] Hfr Hpt Hpw. split.
  - exact (tf_fresh _ _ _ Hfr Hf).
  - intros k x Hx. cbn in Hx. apply (peer_timers_ext _ _ c1); [done..|].
    apply lookup_insert_Some in Hx as [[<- <-]|[Hne Hx]]; [exact Hpt|]. change (c_peers c1 !! k = Some x) in Hx. rewrite (tf_peers _ _ _ Hfr) in Hx.
    exact (peer_timers_frame _ _ _ _ _ Hfr (Hp k x Hx)).
  - cbn. intros Hc. change (c_closing c1 = false) in Hc. rewrite (tf_closing _ _ _ Hfr) in Hc. intros k x Hx. apply (peer_watched_ext _ _ c1); [done..|].
    apply lookup_insert_Some in Hx as [[<- <-]|[Hne Hx]]; [exact (Hpw Hc)|]. change (c_peers c1 !! k = Some x) in Hx. rewrite (tf_peers _ _ _ Hfr) in Hx.
    exact (peer_watched_frame id k x c c1 Hfr Hf (not_eq_sym Hne) (Hw Hc k x Hx (not_eq_sym Hne))).
Qed.

Lemma timers_delete_peer id c c1 : timers_but id c -> timer_frame (of_peer id) c c1 -> timers_ok (c1{{ c_peers := delete id (c_peers c1) }}).
Proof.
  intros [Hf Hp Hw] Hfr. split.
  - exact (tf_fresh _ _ _ Hfr Hf).
  - intros k x Hx. cbn in Hx. apply (peer_timers_ext _ _ c1); [done..|].
    apply lookup_delete_Some in Hx as [Hne Hx]. rewrite (tf_peers _ _ _ Hfr) in Hx. exact (peer_timers_frame _ _ _ _ _ Hfr (Hp k x Hx)).
  - cbn. intros Hc. change (c_closing c1 = false) in Hc. rewrite (tf_closing _ _ _ Hfr) in Hc. intros k x Hx. apply (peer_watched_ext _ _ c1); [done..|].
    apply lookup_delete_Some in Hx as [Hne Hx]. rewrite (tf_peers _ _ _ Hfr) in Hx.
    exact (peer_watched_frame id k x c c1 Hfr Hf (not_eq_sym Hne) (Hw Hc k x Hx (not_eq_sym Hne))).
Qed.

(** What each of the timers' functions promises to the peer it is for. *)
Lemma resetLostTimer_spec id l c : peer_timers id l c ->
  let '(l', c') := resetLostTimer l c in
  timer_frame (eq (LostTimeout id)) c c' /\ peer_timers id l' c' /\ l' = l{{ pl_lostTimer := pl_lostTimer l' }}.
Proof.
  intros Hp. unfold resetLostTimer. destruct (pl_lostTimer l) as [t|] eqn:Et.
  - assert (Hfr : timer_frame (eq (LostTimeout id)) c (Stop (Some t) c)) by (apply Stop_frame; rewrite <- Et; apply Hp).
    split; [done|]. split; [|by destruct l]. destruct Hp as [_ Hr]. split; [done|]. by eapply own_timer_frame.
  - split; [done|]. split; [done|]. destruct l; simpl in *. by rewrite Et.
Qed.

Lemma setLostTimer_spec id l c : peer_timers id l c ->
  let '(l', c') := setLostTimer id l c in
  timer_frame (eq (LostTimeout id)) c c' /\ peer_timers id l' c' /\ watched (LostTimeout id) c' /\ l' = l{{ pl_lostTimer := pl_lostTimer l' }}.
Proof.
  intros Hp. unfold setLostTimer. set (c1 := Stop (pl_lostTimer l) c).
  assert (Hfr : timer_frame (eq (LostTimeout id)) c c1) by (apply Stop_frame, Hp).
  set (ttl := if _ <=? 0 then _ else _).
  pose proof (AfterFunc_frame (eq (LostTimeout id)) ttl (LostTimeout id) c1) as Ha. pose proof (AfterFunc_own ttl (LostTimeout id) c1) as Ho.
  pose proof (AfterFunc_watched ttl (LostTimeout id) c1) as Hw. destruct (AfterFunc ttl (LostTimeout id) c1) as [t c2]. cbn [fst snd] in *.
  assert (Hfr2 : timer_frame (eq (LostTimeout id)) c c2) by (by trans c1).
  split; [done|]. split; [|split; [done|by destruct l]]. destruct Hp as [_ Hr]. split; [done|]. by eapply own_timer_frame.
Qed.

Lemma setReadyForHandshakeTimer_spec id l c : peer_timers id l c ->
  let '(l', c') := setReadyForHandshakeTimer id l c in
  timer_frame (eq (ReadyTimeout id)) c c' /\ peer_timers id l' c' /\ watched (ReadyTimeout id) c' /\
  l' = l{{ pl_readyForHandshakeTimer := pl_readyForHandshakeTimer l' }}.
Proof.
  intros Hp. unfold setReadyForHandshakeTimer. set (c1 := Stop (pl_readyForHandshakeTimer l) c).
  assert (Hfr : timer_frame (eq (ReadyTimeout id)) c c1) by (apply Stop_frame, Hp).
  pose proof (AfterFunc_frame (eq (ReadyTimeout id)) readyForHandshakeTimeout (ReadyTimeout id) c1) as Ha.
  pose proof (AfterFunc_own readyForHandshakeTimeout (ReadyTimeout id) c1) as Ho.
  pose proof (AfterFunc_watched readyForHandshakeTimeout (ReadyTimeout id) c1) as Hw.
  destruct (AfterFunc readyForHandshakeTimeout (ReadyTimeout id) c1) as [t c2]. cbn [fst snd] in *.
  assert (Hfr2 : timer_frame (eq (ReadyTimeout id)) c c2) by (by trans c1).
  split; [done|]. split; [|split; [done|by destruct l]]. destruct Hp as [Hl _]. split; [|done]. by eapply own_timer_frame.
Qed.

Lemma timers_ok_ext c c' : c_peers c' = c_peers c -> c_timers c' = c_timers c -> c_nextTimer c' = c_nextTimer c ->
  c_fired c' = c_fired c -> c_closing c' = c_closing c -> timers_ok c -> timers_ok c'.
Proof.
  intros Ep Et En Ef Ec [Hf Hp Hw]. split; unfold fresh_timers in *; rewrite ?Ep, ?Et, ?En, ?Ec; [done| |].
  - intros k x Hx. exact (peer_timers_ext _ _ _ _ Et En (Hp k x Hx)).
  - intros Hc k x Hx. exact (peer_watched_ext _ _ _ _ Et Ef (Hw Hc k x Hx)).
Qed.

Lemma of_peer_lost id c c' : timer_frame (eq (LostTimeout id)) c c' -> timer_frame (of_peer id) c c'.
Proof. apply timer_frame_weaken. by intros f <-. Qed.
Lemma of_peer_ready id c c' : timer_frame (eq (ReadyTimeout id)) c c' -> timer_frame (of_peer id) c c'.
Proof. apply timer_frame_weaken. by intros f <-. Qed.

(** A peer that is lost, again or anew. *)
Lemma timers_set_lost id lc c : timers_but id c -> peer_timers id lc c ->
  (c_closing c = false -> pl_isDestination lc = true -> is_Some (pl_node lc) -> pl_readyForHandshake lc = false -> watched (ReadyTimeout id) c) ->
  timers_ok (set_peer id (setLostTimer id lc c)).
Proof.
  intros Hb Hp Hr. pose proof (setLostTimer_spec id lc c Hp) as Hs. destruct (setLostTimer id lc c) as [lc' c']. destruct Hs as (Hfr & Hp' & Hw & E).
  apply (timers_set_peer id lc' c c'); [done|by apply of_peer_lost|done|]. intros Hc. split; [done|]. rewrite E. intros Hd Hn Hy.
  eapply watched_frame; [exact Hfr|apply Hb|done|by apply Hr].
Qed.

Lemma update_timers_spec id lc c : peer_timers id lc c ->
  let '(lc', c') := update_timers id lc c in
  timer_frame (of_peer id) c c' /\ peer_timers id lc' c' /\ pl_lost lc' = pl_lost lc /\
  (pl_isDestination lc' = true -> pl_readyForHandshake lc' = false -> watched (ReadyTimeout id) c').
Proof.
  intros Hp. unfold update_timers. pose proof (resetLostTimer_spec id lc c Hp) as H1. destruct (resetLostTimer lc c) as [lc1 c1].
  destruct H1 as (Hfr1 & Hp1 & E1). apply of_peer_lost in Hfr1. assert (El : pl_lost lc1 = pl_lost lc) by (by rewrite E1).
  destruct (pl_isDestination lc1) eqn:Ed, (pl_readyForHandshake lc1) eqn:Er; cbn [negb andb]; try (split_and!; congruence || done).
  pose proof (setReadyForHandshakeTimer_spec id lc1 c1 Hp1) as H2. destruct (setReadyForHandshakeTimer id lc1 c1) as [lc2 c2].
  destruct H2 as (Hfr2 & Hp2 & Hw & E2). split_and!; [|done| |done]. - trans c1; [done|by apply of_peer_ready]. - by rewrite E2.
Qed.

Lemma timers_update_peer_node id lc node c : timers_ok c -> c_peers c !! id = Some lc -> timers_ok (update_peer_node id lc node c).1.
Proof.
  intros Ht El. unfold update_peer_node. set (node' := match pl_node lc with Some old => _ | None => _ end). clearbody node'.
  set (lc1 := (lc{{ pl_node := Some node' }}){{ pl_lost := false }}). cbn [fst].
  assert (Hp : peer_timers id lc1 c) by (destruct (to_peers _ Ht id lc El); by split).
  pose proof (update_timers_spec id lc1 c Hp) as Hs. destruct (update_timers id lc1 c) as [lc2 c2]. destruct Hs as (Hfr & Hp2 & Elost & Hw).
  apply (timers_set_peer id lc2 c c2); [by apply timers_ok_but|done|done|]. intros _. split; [|by auto]. rewrite Elost. done.
Qed.

Lemma timers_peer_ready id lc status c : timers_ok c -> c_peers c !! id = Some lc -> timers_ok (peer_ready id lc status c).1.
Proof.
  intros Ht El. unfold peer_ready. set (c1 := Stop _ c). pose proof (to_peers _ Ht id lc El) as Hp.
  assert (Hfr : timer_frame (eq (ReadyTimeout id)) c c1) by (apply Stop_frame, Hp).
  assert (Hset : forall lc', pl_lost lc' = pl_lost lc -> pl_lostTimer lc' = pl_lostTimer lc -> pl_readyForHandshakeTimer lc' = pl_readyForHandshakeTimer lc ->
    pl_readyForHandshake lc' = true -> timers_ok (set_peer id (lc', c1))).
  { intros lc' E1 E2 E3 E4. apply (timers_set_peer id lc' c c1); [by apply timers_ok_but|by apply of_peer_ready| |].
    - apply (peer_timers_frame _ _ _ _ _ Hfr). destruct Hp. split; by rewrite ?E2, ?E3.
    - intros Hc. split; [|congruence]. rewrite E1. intros Hl. eapply watched_frame; [exact Hfr|apply Ht|done|]. by apply (to_watched _ Ht Hc id lc El). }
  clearbody c1. change (pl_node (lc{{ pl_readyForHandshake := true }})) with (pl_node lc). destruct (pl_node lc) as [node|]; by apply Hset.
Qed.

Lemma timers_new_peer id lc c : timers_ok c -> pl_lostTimer lc = None -> pl_readyForHandshakeTimer lc = None -> pl_lost lc = false -> pl_isDestination lc = false ->
  timers_ok (set_peer id (lc, c)).
Proof.
  intros Ht E1 E2 E3 E4. apply (timers_set_peer id lc c c); [by apply timers_ok_but|done| |].
  - split; rewrite ?E1, ?E2; done.
  - intros _. split; congruence.
Qed.

Lemma timers_updatePeerLocked update status c : timers_ok c -> timers_ok (updatePeerLocked update status c).1.
Proof.
  intros Ht. unfold updatePeerLocked. destruct (tu_Id update) as [id|]; [|done].
  destruct (tu_Kind update), (c_peers c !! id) as [lc|] eqn:E; try done.
  - destruct (update_node _ _ _ _) as [node|]; [|done]. by apply timers_update_peer_node.
  - destruct (update_node _ _ _ _) as [node|]; [|done]. by apply timers_new_peer.
  - pose proof (resetLostTimer_spec id lc c (to_peers _ Ht id lc E)) as H1. destruct (resetLostTimer lc c) as [lc1 c1]. destruct H1 as (Hfr & _).
    apply (timers_delete_peer id c c1); [by apply timers_ok_but|by apply of_peer_lost].
  - apply timers_set_lost; [by apply timers_ok_but| |].
    + destruct (to_peers _ Ht id lc E). by split.
    + intros Hc. apply (to_watched _ Ht Hc id lc E).
  - by apply timers_peer_ready.
  - by apply timers_new_peer.
Qed.

Lemma timers_update_loop updates status c : timers_ok c -> timers_ok (update_loop updates status c).
Proof.
  revert c. induction updates as [|u updates IH]; intros c Ht; simpl; [done|].
  pose proof (timers_updatePeerLocked u status c Ht) as H1. destruct (updatePeerLocked u status c) as [c1 []]; apply IH; [|done].
  by apply (timers_ok_ext c1).
Qed.

(** Only the time of the last handshake is refreshed. *)
Lemma refresh_handshake_shape status lc : exists t, refresh_handshake status lc = lc{{ pl_lastHandshake := t }}.
Proof.
  unfold refresh_handshake. destruct (pl_node lc) as [node|] eqn:En; [destruct (status !! tn_Key node) as [ps|]|].
  - by exists (ps_LastHandshake ps).
  - exists (pl_lastHandshake lc). by destruct lc.
  - exists (pl_lastHandshake lc). by destruct lc.
Qed.

Lemma refresh_peer_timers status id lc c : peer_timers id lc c -> peer_timers id (refresh_handshake status lc) c.
Proof. destruct (refresh_handshake_shape status lc) as [t ->]. intros []. by split. Qed.
Lemma refresh_peer_watched status id lc c : peer_watched id lc c -> peer_watched id (refresh_handshake status lc) c.
Proof. destruct (refresh_handshake_shape status lc) as [t ->]. intros []. by split. Qed.

Lemma timers_refresh status c : timers_ok c -> timers_ok (c{{ c_peers := refresh_handshake status <$> c_peers c }}).
Proof.
  intros [Hf Hp Hw]. split; [done| |]; cbn.
  - intros k x Hx. apply lookup_fmap_Some in Hx as (lc & <- & Hlc). apply (peer_timers_ext _ _ c); [done..|]. apply refresh_peer_timers. exact (Hp k lc Hlc).
  - intros Hc k x Hx. apply lookup_fmap_Some in Hx as (lc & <- & Hlc). apply (peer_watched_ext _ _ c); [done..|]. apply refresh_peer_watched. exact (Hw Hc k lc Hlc).
Qed.

Lemma timers_lose_all ids c : timers_ok c -> timers_ok (lose_all ids c).
Proof.
  revert c. induction ids as [|id ids IH]; intros c Ht; cbn [lose_all]; [done|]. destruct (c_peers c !! id) as [lc|] eqn:E; [|by apply IH].
  destruct (pl_lost lc); apply IH; [done|]. apply timers_set_lost; [by apply timers_ok_but| |].
  - destruct (to_peers _ Ht id lc E). by split.
  - intros Hc. apply (to_watched _ Ht Hc id lc E).
Qed.

Lemma timers_reset ids c : timers_ok c -> c_closing c = true -> timers_ok (reset_timers ids c).
Proof.
  revert c. induction ids as [|id ids IH]; intros c Ht Hc; cbn [reset_timers]; [done|]. destruct (c_peers c !! id) as [lc|] eqn:E; [|by apply IH].
  pose proof (resetLostTimer_spec id lc c (to_peers _ Ht id lc E)) as H1. destruct (resetLostTimer lc c) as [lc1 c1]. destruct H1 as (Hfr & Hp & _).
  apply of_peer_lost in Hfr. apply IH; [|change (c_closing c1 = true); by rewrite (tf_closing _ _ _ Hfr)].
  apply (timers_set_peer id lc1 c c1); [by apply timers_ok_but|done|done|]. by rewrite Hc.
Qed.

Lemma reset_timers_closing ids c : reset_timers ids (c{{ c_closing := true }}) = (reset_timers ids c){{ c_closing := true }}.
Proof.
  revert c. induction ids as [|id ids IH]; intros c; cbn [reset_timers]; [reflexivity|]. rewrite <- IH. f_equal.
  change (c_peers (c{{ c_closing := true }})) with (c_peers c).
  destruct (c_peers c !! id) as [lc|] eqn:E; [|done]. unfold resetLostTimer. by destruct (pl_lostTimer lc).
Qed.

Lemma timers_close c : timers_ok c -> timers_ok (close c).
Proof. intros Ht. unfold close. rewrite <- reset_timers_closing. apply timers_reset; [|done]. destruct Ht as [Hf Hp _]. split; [exact Hf| |intros [=]].
  intros k x Hx. apply (peer_timers_ext _ _ c); [done..|exact (Hp k x Hx)].
Qed.

Lemma timers_run_op o c c' : polite o c -> run_op o c = Some c' -> timers_ok c -> timers_ok c'.
Proof.
  intros Hp Ho Ht. destruct o as [id|ips|hosts|b|m|updates status| |]; simpl in *.
  - injection Ho as <-. unfold setTunnelDestination. set (lc := default _ _).
    apply (timers_set_peer id (lc{{ pl_isDestination := true }}) c c); [by apply timers_ok_but|done| |]; subst lc; destruct (c_peers c !! id) as [lc|] eqn:E; cbn [default].
    + destruct (to_peers _ Ht id lc E). by split.
    + by split.
    + intros Hc. destruct (to_watched _ Ht Hc id lc E) as [Hl Hr]. split; [done|]. intros _ Hn Hy. change (is_Some (pl_node lc)) in Hn.
      change (pl_readyForHandshake lc = false) in Hy. destruct (Hp lc eq_refl) as [Hnone|[?|?]]; [destruct Hn; congruence|congruence|by apply Hr].
    + intros _. by split; [|intros _ [? [=]]].
  - injection Ho as <-. unfold setAddresses. destruct (negb _); [done|]. by apply (timers_ok_ext c).
  - injection Ho as <-. by apply (timers_ok_ext c).
  - injection Ho as <-. unfold setBlockEndpoints. destruct (negb _); by apply (timers_ok_ext c).
  - unfold setDERPMap in Ho. destruct (CompareDERPMaps (c_derpMap c) m) as [[]|]; simpl in Ho; [| |done]; injection Ho as <-; [done|by apply (timers_ok_ext c)].
  - unfold updatePeers in Ho. destruct (existsb _ _); [done|]. injection Ho as <-. by apply timers_update_loop, timers_refresh.
  - injection Ho as <-. by apply timers_lose_all.
  - injection Ho as <-. by apply timers_close.
Qed.

(** A callback has been taken from those that were started. *)
Lemma taken_watched f g l1 l2 c : c_fired c = l1 ++ f :: l2 -> g <> f -> watched g c -> watched g (c{{ c_fired := l1 ++ l2 }}).
Proof. intros Hf Hne [Hg|Hg]; [left|by right]. cbn. rewrite Hf in Hg. set_solver. Qed.

Lemma taken_timers f l1 l2 c : c_fired c = l1 ++ f :: l2 -> timers_ok c -> timers_but (callback_peer f) (c{{ c_fired := l1 ++ l2 }}).
Proof.
  intros Hf [Hfr Hp Hw]. split; [done| |].
  - intros k x Hx. apply (peer_timers_ext _ _ c); [done..|exact (Hp k x Hx)].
  - intros Hc k x Hx Hne. destruct (Hw Hc k x Hx) as [Hl Hr].
    split; intros; (eapply taken_watched; [exact Hf|intros <-; by cbn in Hne|by auto]).
Qed.

Lemma timers_run_callback f l1 l2 status c : c_fired c = l1 ++ f :: l2 -> timers_ok c -> timers_ok (run_callback f status (c{{ c_fired := l1 ++ l2 }})).
Proof.
  intros Hf Ht. pose proof (taken_timers f l1 l2 c Hf Ht) as Hb. set (c0 := c{{ c_fired := l1 ++ l2 }}) in *.
  assert (Hlc : forall lc, c_peers c0 !! callback_peer f = Some lc -> peer_timers (callback_peer f) lc c0 /\
    (c_closing c0 = false -> forall g, g <> f -> (g = LostTimeout (callback_peer f) /\ pl_lost lc = true \/
       g = ReadyTimeout (callback_peer f) /\ pl_isDestination lc = true /\ is_Some (pl_node lc) /\ pl_readyForHandshake lc = false) -> watched g c0)).
  { intros lc El. split; [exact (tb_peers _ _ Hb _ lc El)|]. intros Hc g Hg Hor. apply (taken_watched f g l1 l2 c Hf Hg).
    destruct (to_watched _ Ht Hc _ lc El) as [Hl Hr]. destruct Hor as [[-> ?]|(-> & ? & ? & ?)]; auto. }
  clearbody c0. destruct f as [id|id]; cbn [run_callback callback_peer] in *.
  - unfold peerLostTimeout. destruct (c_peers c0 !! id) as [lc|] eqn:E; [|by eapply timers_but_absent]. destruct (Hlc lc eq_refl) as [Hpt Hpw].
    apply (refresh_peer_timers status) in Hpt. destruct (refresh_handshake_shape status lc) as [t Et].
    assert (Hready : c_closing c0 = false -> pl_isDestination lc = true -> is_Some (pl_node lc) -> pl_readyForHandshake lc = false -> watched (ReadyTimeout id) c0)
      by (intros Hc ? ? ?; apply (Hpw Hc); [done|by right]).
    destruct (pl_lost (refresh_handshake status lc)) eqn:El; cbn [negb]; [destruct (_ <=? _)|].
    + apply (timers_ok_ext (c0{{ c_peers := delete id (c_peers c0) }})); [done..|]. by apply (timers_delete_peer id c0 c0).
    + apply timers_set_lost; [done|done|]. by rewrite Et.
    + apply (timers_set_peer id _ c0 c0); [done..|]. intros Hc. split; [congruence|]. rewrite Et. cbn. by apply Hready.
  - unfold peerReadyForHandshakeTimeout. destruct (c_peers c0 !! id) as [lc|] eqn:E; [|by eapply timers_but_absent]. destruct (Hlc lc eq_refl) as [Hpt Hpw].
    assert (Hset : timers_ok (set_peer id (lc{{ pl_readyForHandshake := true }}, c0))).
    { apply (timers_set_peer id _ c0 c0); [done|done|by destruct Hpt; split|]. intros Hc. split; [|done]. cbn. intros Hl. apply (Hpw Hc); [done|by left]. }
    destruct (negb _); [|done]. by eapply timers_ok_ext, Hset.
Qed.

Lemma timers_fire c i t : c_timers c !! i = Some t -> timers_ok c ->
  timers_ok ((c{{ c_timers := delete i (c_timers c) }}){{ c_fired := c_fired c ++ [t_callback t] }}).
Proof.
  intros Ht [Hf Hp Hw]. split.
  - intros j u Hj. change (delete i (c_timers c) !! j = Some u) in Hj. apply lookup_delete_Some in Hj as [_ Hj]. exact (Hf j u Hj).
  - intros k x Hx. destruct (Hp k x Hx) as [Hl Hr].
    split; intros j Hj; [destruct (Hl j Hj) as [? Ho]|destruct (Hr j Hj) as [? Ho]]; (split; [done|]; intros u Hu; change (delete i (c_timers c) !! j = Some u) in Hu; apply lookup_delete_Some in Hu as [_ Hu]; by apply Ho).
  - intros Hc k x Hx. destruct (Hw Hc k x Hx) as [Hl Hr].
    assert (Hkeep : forall f, watched f c -> watched f ((c{{ c_timers := delete i (c_timers c) }}){{ c_fired := c_fired c ++ [t_callback t] }})).
    { intros f [Hfi|(j & u & Hj & <-)]; [left; apply elem_of_app; by left|]. destruct (decide (j = i)) as [->|Hne].
      - left. rewrite Ht in Hj. injection Hj as ->. apply elem_of_app. right. by left.
      - right. exists j, u. split; [|done]. change (delete i (c_timers c) !! j = Some u). by rewrite lookup_delete_ne by done. }
    split; intros; apply Hkeep; auto.
Qed.

Lemma step_timers c c' : step c c' -> timers_ok c -> timers_ok c'.
Proof.
  destruct 1 as [o c c' Hp Ho|c c' Hl|c i t Ht Hd|c l1 f l2 status Hf|c now Hn].
  - by eapply timers_run_op.
  - unfold configLoop_step in Hl. destruct (c_phase c), (c_actions c), (c_closing c) eqn:Ec; try done;
      try (destruct (c_netmapDirty c || c_filterDirty c || c_derpMapDirty c)); cbn in Hl; simplify_eq; by apply (timers_ok_ext c).
  - by apply timers_fire.
  - by apply timers_run_callback.
  - by apply (timers_ok_ext c).
Qed.

Lemma reachable_timers_ok c : reachable c -> timers_ok c.
Proof.
  intros [now Hr]. assert (H0' : timers_ok (newConfigMaps now)) by (split; [intros i t [=]|intros k x [=]|intros _ k x [=]]).
  revert H0'. induction Hr as [c|c1 c2 c3 Hs _ IH]; [done|]. intros H1. apply IH. by eapply step_timers.
Qed.

Lemma lost_timer_deadline id lc rest t c : (lostTimeout <=? Since c t) = false ->
  c_timers (set_peer id (setLostTimer id (lc{{ pl_lastHandshake := t }}) (c{{ c_fired := rest }}))) !! c_nextTimer c
  = Some (mkTimer (t_ns t + lostTimeout) (LostTimeout id)).
Proof.
  intros E%Z.leb_gt. unfold Since in E. unfold setLostTimer. destruct c as [? ? ? ? ? ? ? ? ? ? ? ? now timers next ?]. cbn -[lostTimeout] in E.
  change (pl_lostTimer (lc{{ pl_lastHandshake := t }})) with (pl_lostTimer lc). change (pl_lastHandshake (lc{{ pl_lastHandshake := t }})) with t.
  destruct (pl_lostTimer lc) as [i|]; cbn -[lostTimeout Z.leb]; unfold Since; cbn -[lostTimeout Z.leb]; rewrite lookup_insert_eq;
    (destruct (Z.leb_spec (lostTimeout - (t_ns now - t_ns t)) 0); [lia|]); do 2 f_equal; lia.
Qed.

Lemma ready_valid lc : is_Some (pl_node lc) -> pl_isDestination lc = true -> validForWireguard (lc{{ pl_readyForHandshake := true }}) = true.
Proof. destruct lc as [[] [n|] ? ? ? ? ?]; intros [? [=]] [=]; done. Qed.

(** C29: no peer is forgotten while something is waited for.  As long as destinations are
    set before their nodes are configured, and the configuration is not being closed,
    the callback of every lost peer will come: it runs on a timer, or has been started; when it
    runs, the peer goes if its last handshake is fifteen minutes old and the network map is marked dirty,
    and else the timer runs again, up to fifteen minutes after that handshake.  So will
    that of every destination whose node is known and that is not ready yet; when it
    runs, the peer becomes one to configure and the network map is marked dirty. *)
Theorem peers_watched c id lc : reachable c -> c_closing c = false -> c_peers c !! id = Some lc ->
  (pl_lost lc = true ->
     watched (LostTimeout id) c /\
     forall status rest, let last := pl_lastHandshake (refresh_handshake status lc) in
       let c' := run_callback (LostTimeout id) status (c{{ c_fired := rest }}) in
       if lostTimeout <=? Since c last then c_peers c' !! id = None /\ c_netmapDirty c' = true
       else exists i, c_timers c' !! i = Some (mkTimer (t_ns last + lostTimeout) (LostTimeout id))) /\
  (pl_isDestination lc = true -> is_Some (pl_node lc) -> pl_readyForHandshake lc = false ->
     watched (ReadyTimeout id) c /\
     forall status rest, let c' := run_callback (ReadyTimeout id) status (c{{ c_fired := rest }}) in
       c_netmapDirty c' = true /\ exists lc', c_peers c' !! id = Some lc' /\ pl_node lc' = pl_node lc /\ validForWireguard lc' = true).
Proof.
  intros Hr Hc El. destruct (to_watched _ (reachable_timers_ok _ Hr) Hc id lc El) as [Hl Hy]. split.
  - intros Hlost. split; [by apply Hl|]. intros status rest. cbn [run_callback]. unfold peerLostTimeout.
    change (c_peers (c{{ c_fired := rest }})) with (c_peers c). rewrite El.
    destruct (refresh_handshake_shape status lc) as [t Et]. rewrite Et. cbn zeta. change (pl_lost (lc{{ pl_lastHandshake := t }})) with (pl_lost lc).
    rewrite Hlost. cbn [negb]. change (pl_lastHandshake (lc{{ pl_lastHandshake := t }})) with t.
    change (Since (c{{ c_fired := rest }}) t) with (Since c t). destruct (lostTimeout <=? Since c t) eqn:E.
    + split; [apply lookup_delete_eq|done].
    + exists (c_nextTimer c). by apply lost_timer_deadline.
  - intros Hd Hn Hnr. split; [by apply Hy|]. intros status rest. cbn [run_callback]. unfold peerReadyForHandshakeTimeout.
    change (c_peers (c{{ c_fired := rest }})) with (c_peers c). rewrite El, Hnr. cbn [negb]. split; [done|].
    exists (lc{{ pl_readyForHandshake := true }}). split; [apply lookup_insert_eq|]. split; [done|]. apply ready_valid; [done|done].
Qed.

(** ** What makes a peer go *)

Definition keeps_peers (c c' : configMaps) : Prop := forall k, is_Some (c_peers c !! k) -> is_Some (c_peers c' !! k).
#[export] Instance keeps_peers_preorder : PreOrder keeps_peers.
Proof. split; [by intros c k|]. intros c1 c2 c3 H1 H2 k Hk. auto. Qed.

Lemma set_peer_keeps id lc c c1 : c_peers c1 = c_peers c -> keeps_peers c (set_peer id (lc, c1)).
Proof.
  intros E k Hk. change (is_Some (<[id := lc]> (c_peers c1) !! k)). rewrite E.
  destruct (decide (k = id)) as [->|]; [by rewrite lookup_insert_eq|by rewrite lookup_insert_ne].
Qed.

Lemma setLostTimer_keeps id lc c : keeps_peers c (set_peer id (setLostTimer id lc c)).
Proof. destruct (setLostTimer_careful id lc c) as (_ & E & _). destruct (setLostTimer id lc c). by apply set_peer_keeps. Qed.

(** An update that disconnects a peer. *)
Definition disconnects (id : uuid) (u : TUpdate) : Prop := tu_Id u = Some id /\ tu_Kind u = DISCONNECTED.

Lemma updatePeerLocked_keeps update status c k : is_Some (c_peers c !! k) ->
  is_Some (c_peers (updatePeerLocked update status c).1 !! k) \/ (disconnects k update /\ (updatePeerLocked update status c).2 = true).
Proof.
  intros Hk. assert (Hkeep : forall c', keeps_peers c c' -> is_Some (c_peers c' !! k)) by auto. unfold disconnects, updatePeerLocked.
  destruct (tu_Id update) as [id|]; [|by left]. destruct (tu_Kind update), (c_peers c !! id) as [lc|] eqn:E; try (by left).
  - left. destruct (update_node _ _ _ _) as [node|]; [|done]. apply Hkeep. unfold update_peer_node. cbn [fst].
    match goal with |- keeps_peers _ (set_peer id (update_timers id ?l c)) => destruct (update_timers_careful id l c) as (_ & Hp & _); destruct (update_timers id l c) end.
    by apply set_peer_keeps.
  - left. destruct (update_node _ _ _ _) as [node|]; [|done]. by apply Hkeep, set_peer_keeps.
  - pose proof (proj2 (resetLostTimer_careful lc c)) as Hp. destruct (resetLostTimer lc c) as [lc1 c1]. cbn [snd] in Hp.
    destruct (decide (k = id)) as [->|Hne]; [by right|left]. change (is_Some (delete id (c_peers c1) !! k)). rewrite Hp. by rewrite lookup_delete_ne.
  - left. apply Hkeep, setLostTimer_keeps.
  - left. apply Hkeep. unfold peer_ready. pose proof (Stop_peers (pl_readyForHandshakeTimer lc) c) as Hp.
    change (pl_node (lc{{ pl_readyForHandshake := true }})) with (pl_node lc). destruct (pl_node lc) as [node|]; by apply set_peer_keeps.
  - left. by apply Hkeep, set_peer_keeps.
Qed.

(** The network map stays dirty. *)
Lemma update_loop_dirty updates status c : c_netmapDirty c = true -> c_netmapDirty (update_loop updates status c) = true.
Proof.
  intros Hd. destruct (c_netmapDirty (update_loop updates status c)) eqn:E; [done|].
  destruct (ca_netmap _ _ (update_loop_careful updates status c) E). congruence.
Qed.

Lemma update_loop_keeps updates status c k : is_Some (c_peers c !! k) ->
  is_Some (c_peers (update_loop updates status c) !! k) \/ (Exists (disconnects k) updates /\ c_netmapDirty (update_loop updates status c) = true).
Proof.
  revert c. induction updates as [|u updates IH]; intros c Hk; cbn [update_loop]; [by left|].
  pose proof (updatePeerLocked_keeps u status c k Hk) as H1. destruct (updatePeerLocked u status c) as [c1 dirty]. cbn [fst snd] in H1.
  destruct H1 as [H1|[Hu ->]].
  - destruct (IH (if dirty then c1{{ c_netmapDirty := true }} else c1)) as [?|[? ?]]; [by destruct dirty|by left|right; split; [by right|done]].
  - right. split; [by left|]. by apply update_loop_dirty.
Qed.

Lemma lose_all_keeps ids c : keeps_peers c (lose_all ids c).
Proof.
  revert c. induction ids as [|id ids IH]; intros c; cbn [lose_all]; [done|]. destruct (c_peers c !! id) as [lc|]; [|apply IH].
  destruct (pl_lost lc); [apply IH|]. etrans; [apply setLostTimer_keeps|apply IH].
Qed.

Lemma reset_timers_keeps ids c : keeps_peers c (reset_timers ids c).
Proof.
  revert c. induction ids as [|id ids IH]; intros c; cbn [reset_timers]; [done|]. etrans; [|apply IH]. destruct (c_peers c !! id) as [lc|]; [|done].
  pose proof (proj2 (resetLostTimer_careful lc c)) as Hp. destruct (resetLostTimer lc c). by apply set_peer_keeps.
Qed.

Lemma same_peers_keep c c' : c_peers c' = c_peers c -> keeps_peers c c'.
Proof. intros E k Hk. by rewrite E. Qed.

(** C30: a peer only goes when it is disconnected or has been lost for long.  If one step
    takes a peer out of the configuration, the step is an update that disconnects it, or the callback
    of a lost peer with a status by which its last handshake is at least fifteen minutes old; and
    the network map is marked dirty. *)
Theorem peer_leaves c c' id lc : step c c' -> c_peers c !! id = Some lc -> c_peers c' !! id = None ->
  c_netmapDirty c' = true /\
  ((exists updates status, run_op (OpUpdatePeers updates status) c = Some c' /\ Exists (disconnects id) updates) \/
   (exists status, LostTimeout id ∈ c_fired c /\ pl_lost lc = true /\
      lostTimeout <= Since c (pl_lastHandshake (refresh_handshake status lc)))).
Proof.
  intros Hs El Hn. assert (Hgone : ~ keeps_peers c c') by (intros Hk; destruct (Hk id) as [? ?]; [by eexists|congruence]).
  destruct Hs as [o c c' _ Ho|c c' Hl|c i t Ht Hd|c l1 f l2 status Hf|c now Hnow].
  - destruct o as [k|ips|hosts|b|m|updates status| |]; cbn [run_op] in Ho.
    + destruct Hgone. injection Ho as <-. by apply (set_peer_keeps k _ c c).
    + destruct Hgone. injection Ho as <-. apply same_peers_keep. unfold setAddresses. by destruct (negb _).
    + destruct Hgone. injection Ho as <-. by apply same_peers_keep.
    + destruct Hgone. injection Ho as <-. apply same_peers_keep. unfold setBlockEndpoints. by destruct (negb _).
    + destruct Hgone. unfold setDERPMap in Ho. destruct (CompareDERPMaps (c_derpMap c) m) as [[]|]; cbn in Ho; [| |done]; injection Ho as <-; by apply same_peers_keep.
    + unfold updatePeers in *. destruct (existsb update_panics updates) eqn:Ep; [done|].
      set (c1 := c{{ c_peers := refresh_handshake status <$> c_peers c }}) in *. injection Ho as <-.
      destruct (update_loop_keeps updates status c1 id) as [[? ?]|[Hex Hd]]; [|congruence|].
      * change (is_Some ((refresh_handshake status <$> c_peers c) !! id)). rewrite lookup_fmap, El. by eexists.
      * split; [done|]. left. exists updates, status. split; [|done]. cbn [run_op]. unfold updatePeers. by rewrite Ep.
    + destruct Hgone. injection Ho as <-. apply lose_all_keeps.
    + destruct Hgone. injection Ho as <-. exact (reset_timers_keeps _ c).
  - destruct (loops_same_config c c' Hl) as [(_ & _ & _ & _ & Ep & _) _]. congruence.
  - destruct Hgone. by apply same_peers_keep.
  - destruct f as [k|k]; cbn [run_callback] in *.
    + unfold peerLostTimeout in *. change (c_peers (c{{ c_fired := l1 ++ l2 }})) with (c_peers c) in *.
      destruct (c_peers c !! k) as [lc1|] eqn:E1; [|destruct Hgone; by apply same_peers_keep].
      destruct (pl_lost (refresh_handshake status lc1)) eqn:Elost; cbn [negb] in *; [|destruct Hgone; apply (set_peer_keeps k _ c (c{{ c_fired := l1 ++ l2 }})); reflexivity].
      destruct (lostTimeout <=? _) eqn:Et; [|destruct Hgone; trans (c{{ c_fired := l1 ++ l2 }}); [by apply same_peers_keep|apply setLostTimer_keeps]].
      destruct (decide (id = k)) as [->|Hne].
      2: { exfalso. change (delete k (c_peers c) !! id = None) in Hn. rewrite lookup_delete_ne in Hn by done. congruence. }
      rewrite E1 in El. injection El as ->. split; [done|]. right. exists status. split; [rewrite Hf; set_solver|].
      split; [|by apply Z.leb_le in Et]. destruct (refresh_handshake_shape status lc) as [t Eq]. by rewrite Eq in Elost.
    + destruct Hgone. unfold peerReadyForHandshakeTimeout. change (c_peers (c{{ c_fired := l1 ++ l2 }})) with (c_peers c).
      destruct (c_peers c !! k) as [lc1|]; [|by apply same_peers_keep]. destruct (negb _); by apply (set_peer_keeps k _ c (c{{ c_fired := l1 ++ l2 }})).
  - destruct Hgone. by apply same_peers_keep.
Qed.
End ConfigMaps.

(** ** Examples *)

Module Examples.
#[local] Instance text_keys : KeyLib := {|
  NodePublic := string; DiscoPublic := string; Prefix := string;
  key_Marshal := Ok; key_Unmarshal := Ok; disco_Marshal := Ok; disco_Unmarshal := Ok;
  prefix_Marshal := Ok; prefix_Unmarshal := Ok; prefix_String := id;
|}.

(** A run: methods, turns of the loop, a timer that fires, the first started callback, time. *)
Inductive move := MOp (o : op) | MLoop | MFire (i : N) | MCallback (status : gmap NodePublic PeerStatus) | MTick (now : Time).

Definition politeb (o : op) (c : configMaps) : bool :=
  match o with
  | OpSetTunnelDestination id =>
      match c_peers c !! id with
      | Some lc => bool_decide (pl_node lc = None) || pl_readyForHandshake lc || pl_isDestination lc
      | None => true
      end
  | _ => true
  end.

Definition do_move (m : move) (c : configMaps) : option configMaps :=
  match m with
  | MOp o => if politeb o c then run_op o c else None
  | MLoop => configLoop_step c
  | MFire i =>
      t ← c_timers c !! i;
      if t_deadline t <=? t_ns (c_now c)
      then Some ((c{{ c_timers := delete i (c_timers c) }}){{ c_fired := c_fired c ++ [t_callback t] }}) else None
  | MCallback status => match c_fired c with f :: l => Some (run_callback f status (c{{ c_fired := l }})) | [] => None end
  | MTick now => if t_ns (c_now c) <=? t_ns now then Some (c{{ c_now := now }}) else None
  end.

Fixpoint play (ms : list move) (c : configMaps) : option configMaps :=
  match ms with [] => Some c | m :: ms => c' ← do_move m c; play ms c' end.

Lemma do_move_step m c c' : do_move m c = Some c' -> step c c'.
Proof.
  destruct m as [o| |i|status|now]; cbn [do_move].
  - destruct (politeb o c) eqn:Hp; [|done]. intros Ho. apply (step_op o); [|done]. destruct o; try done. cbn in *.
    intros lc El. rewrite El in Hp. apply orb_true_iff in Hp as [[Hp%bool_decide_eq_true|Hp]%orb_true_iff|Hp]; auto.
  - apply step_loop.
  - destruct (c_timers c !! i) as [t|] eqn:Et; [|done]. cbn [mbind option_bind]. destruct (Z.leb_spec (t_deadline t) (t_ns (c_now c))); [|done].
    intros <-%(inj Some). by apply step_fire.
  - destruct (c_fired c) as [|f l] eqn:Ef; [done|]. intros <-%(inj Some). by apply (step_callback c [] f l).
  - destruct (Z.leb_spec (t_ns (c_now c)) (t_ns now)); [|done]. intros <-%(inj Some). by apply step_tick.
Qed.

Lemma play_reachable ms now c : play ms (newConfigMaps now) = Some c -> reachable c.
Proof.
  intros Hp. exists now. revert Hp. generalize (newConfigMaps now). induction ms as [|m ms IH]; intros c0 Hp; cbn [play] in Hp; [by simplify_eq|].
  destruct (do_move m c0) as [c1|] eqn:E; [|done]. eapply rtc_l; [by eapply do_move_step|by apply IH].
Qed.

Definition start : Time := mkTime 1000 UTC.
Definition node (key : string) : ProtoNode := mkProtoNode 1 start key "disco" 1 ∅ ∅ ["10.0.0.8/32"] ["10.0.0.8/32"] ["192.0.2.8:41641"].
Definition told (kind : Kind) (id : uuid) : op := OpUpdatePeers [mkUpdate (Some id) kind (Some (node "key8")) ""] ∅.

(** A peer, and an address of one's own, are configured. *)
Definition settled : list move :=
  [MOp (OpSetAddresses ["10.0.0.1/32"]); MOp (told NODE 8%N); MLoop; MLoop; MLoop; MLoop].
Definition after (ms : list move) : configMaps := default (newConfigMaps start) (play ms (newConfigMaps start)).

Definition plays (ms : list move) : bool := match play ms (newConfigMaps start) with Some _ => true | None => false end.
Lemma played_reachable ms : plays ms = true -> reachable (after ms).
Proof.
  unfold plays, after. destruct (play ms (newConfigMaps start)) as [c|] eqn:E; [|done]. intros _. by eapply play_reachable.
Qed.

Example settled_waits : configLoop_step (after settled) = None /\
  (nm_Peers <$> en_NetworkMap (c_engine (after settled))) = Some (peerConfigLocked (after settled)) /\
  length (peerConfigLocked (after settled)) = 1%nat.
Proof. by vm_compute. Qed.

(** A peer that becomes a destination when it is configured stays in the engine,
    although it is to be left out until it is ready: nothing is marked dirty,
    and no timer is set. *)
Example late_destination :
  let c := setTunnelDestination 8%N (after settled) in
  configLoop_step c = None /\ peerConfigLocked c = [] /\ (length ∘ nm_Peers <$> en_NetworkMap (c_engine c)) = Some 1%nat /\ c_timers c = ∅.
Proof. by vm_compute. Qed.

(** A destination that disconnects and comes back is configured before it is ready. *)
Example forgotten_destination :
  length (peerConfigLocked (after [MOp (OpSetTunnelDestination 8%N); MOp (told NODE 8%N)])) = 0%nat /\
  length (peerConfigLocked (after [MOp (OpSetTunnelDestination 8%N); MOp (told DISCONNECTED 8%N); MOp (told NODE 8%N)])) = 1%nat.
Proof. by vm_compute. Qed.

(** Addresses that change to a list of the same length with a repetition are not
    taken. *)
Example repeated_addresses :
  c_addresses (setAddresses ["10.0.0.1/32"; "10.0.0.1/32"] (setAddresses ["10.0.0.1/32"; "10.0.0.2/32"] (newConfigMaps start)))
  = ["10.0.0.1/32"; "10.0.0.2/32"].
Proof. by vm_compute. Qed.

Lemma engine_configured_witness : configLoop_step (after settled) = None /\
  engine_net (c_engine (after settled)) (after settled) /\ engine_filter (c_engine (after settled)) (after settled) /\
  en_DERPMap (c_engine (after settled)) = c_derpMap (after settled).
Proof.
  assert (Hp : plays settled = true) by (vm_compute; reflexivity). assert (Hc : c_closing (after settled) = false) by (vm_compute; reflexivity).
  assert (Hph : c_phase (after settled) = idle) by (vm_compute; reflexivity).
  assert (Hw : configLoop_step (after settled) = None) by (vm_compute; reflexivity). split; [exact Hw|].
  refine (proj1 (engine_configured _ (played_reachable _ Hp) Hc _) Hw). rewrite Hph. discriminate.
Defined.

(** A destination whose node is known, and that was lost before it was ready. *)
Definition lost_early : list move := [MOp (OpSetTunnelDestination 8%N); MOp (told NODE 8%N); MOp (told LOST 8%N)].

Lemma peers_watched_witness : watched (LostTimeout 8%N) (after lost_early) /\ watched (ReadyTimeout 8%N) (after lost_early).
Proof.
  assert (Hp : plays lost_early = true) by (vm_compute; reflexivity). assert (Hc : c_closing (after lost_early) = false) by (vm_compute; reflexivity).
  assert (Hlc : exists lc, c_peers (after lost_early) !! 8%N = Some lc) by (eexists; vm_compute; reflexivity).
  assert (Hfacts : (fun lc => (pl_lost lc, pl_isDestination lc, bool_decide (is_Some (pl_node lc)), pl_readyForHandshake lc)) <$>
    c_peers (after lost_early) !! 8%N = Some (true, true, true, false)) by (vm_compute; reflexivity).
  destruct Hlc as [lc El]. rewrite El in Hfacts. injection Hfacts as Hl Hd Hn%bool_decide_eq_true Hr.
  destruct (peers_watched _ 8%N lc (played_reachable _ Hp) Hc El) as [H1 H2].
  split; [exact (proj1 (H1 Hl))|exact (proj1 (H2 Hd Hn Hr))].
Defined.

(** It never did a handshake, and is removed as soon as the callback runs. *)
Definition timed_out : list move := lost_early ++ [MTick (mkTime 1001 UTC); MFire 1%N].

Lemma peer_leaves_witness : c_fired (after timed_out) = [LostTimeout 8%N] /\
  let c' := run_callback (LostTimeout 8%N) ∅ ((after timed_out){{ c_fired := [] }}) in c_peers c' !! 8%N = None /\ c_netmapDirty c' = true.
Proof.
  assert (Hf : c_fired (after timed_out) = [LostTimeout 8%N]) by (vm_compute; reflexivity). split; [exact Hf|]. cbv zeta.
  assert (Hlc : exists lc, c_peers (after timed_out) !! 8%N = Some lc) by (eexists; vm_compute; reflexivity). destruct Hlc as [lc El].
  assert (Hn : c_peers (run_callback (LostTimeout 8%N) ∅ ((after timed_out){{ c_fired := [] }})) !! 8%N = None) by (vm_compute; reflexivity).
  split; [exact Hn|].
  refine (proj1 (peer_leaves (after timed_out) _ 8%N lc _ El Hn)). exact (step_callback _ [] (LostTimeout 8%N) [] ∅ Hf).
Defined.
End Examples.
