(* ===== verification/Quota.v ===== *)
(** * Quotas: [enterprise/wirtuald/workspacequota.go] and the runner's part

    What a user's workspaces cost in an organization, what the user's groups allow,
    and the commit of a build's cost between its plan and its apply.  The costs of the runner
    are those of the plan's resources ([provisionerd/runner]).  A sum of 32-bit numbers
    does not overflow 64 bits. *)

From S2P Require Import Prelude GoStrings GoEncoding GoJson GoTime Cron Tags Db DbBuild Schedule Resources ProvisionerServer Unhanger Builder BuildRun CancelBuild Lifecycle Rbac RoleStore AuthDb.
Local Open Scope string_scope.
Local Open Scope list_scope.
Local Open Scope Z_scope.

(** ** The store *)

(** The latest build of a workspace so far: at first the zero one, which is of the
    zero time and costs nothing. *)
Fixpoint last_build_loop (workspaceID : uuid) (builds : list WorkspaceBuild) (lastBuild : option WorkspaceBuild) : option WorkspaceBuild :=
  match builds with
  | [] => lastBuild
  | build :: builds =>
      last_build_loop workspaceID builds
        (if negb (wb_WorkspaceID build =? workspaceID)%N then lastBuild
         else if After (wb_CreatedAt build) (match lastBuild with Some b => wb_CreatedAt b | None => zeroTime end) then Some build
         else lastBuild)
  end.
Definition build_cost (lastBuild : option WorkspaceBuild) : Z := match lastBuild with Some b => wb_DailyCost b | None => 0 end.

(** Whether a workspace is of the user in the organization. *)
Definition counts (ownerID organizationID : uuid) (workspace : WorkspaceTable) : bool :=
  (ws_OwnerID workspace =? ownerID)%N && (ws_OrganizationID workspace =? organizationID)%N && negb (ws_Deleted workspace).

Fixpoint consumed_loop (ownerID organizationID : uuid) (builds : list WorkspaceBuild) (workspaces : list WorkspaceTable) : Z :=
  match workspaces with
  | [] => 0
  | workspace :: workspaces =>
      (if counts ownerID organizationID workspace then build_cost (last_build_loop (ws_ID workspace) builds None) else 0)
      + consumed_loop ownerID organizationID builds workspaces
  end.
Definition GetQuotaConsumedForUser (ownerID organizationID : uuid) (d : Data) : Z :=
  consumed_loop ownerID organizationID (workspaceBuilds d) (workspaces d).

(** Members of a group that is an organization's "Everyone" are counted apart. *)
Fixpoint groups_allowance (userID : uuid) (members : list GroupMemberTable) (a : AuthData) : Z :=
  match members with
  | [] => 0
  | member :: members =>
      (if negb (gm_UserID member =? userID)%N || existsb (N.eqb (gm_GroupID member)) (a_organizations a) then 0
       else foldr (fun group sum => (if (g_ID group =? gm_GroupID member)%N then g_QuotaAllowance group else 0) + sum) 0 (a_groups a))
      + groups_allowance userID members a
  end.

Fixpoint everyone_allowance `{UuidText} (userID organizationID : uuid) (members : list OrganizationMember) (a : AuthData) : result Z :=
  match members with
  | [] => Ok 0
  | mem :: members =>
      if negb (om_UserID mem =? userID)%N then everyone_allowance userID organizationID members a
      else match find_first (fun g => (g_ID g =? om_OrganizationID mem)%N) (a_groups a) with
           | None => Err ("failed to get everyone group for org " +:+ Quote (uuid_String (om_OrganizationID mem)))
           | Some group =>
               sum ← everyone_allowance userID organizationID members a;
               Ok (if negb (g_OrganizationID group =? organizationID)%N then sum else g_QuotaAllowance group + sum)
           end
  end.

Definition GetQuotaAllowanceForUser `{UuidText} (userID organizationID : uuid) (a : AuthData) : result Z :=
  everyone ← everyone_allowance userID organizationID (a_organizationMembers a) a;
  Ok (groups_allowance userID (a_groupMembers a) a + everyone).

Definition UpdateWorkspaceBuildCostByID (id : uuid) (dailyCost : Z) : DB unit :=
  _ ← update_table workspaceBuilds set_builds (fun b => (wb_ID b =? id)%N) (fun b => b{{ wb_DailyCost := dailyCost }});
  mret tt.

(** ** The committer *)

Section Committer.
Context `{UuidText} `{UuidParse}.
(** The members and groups do not change. *)
Context (a : AuthData).

(** Without a previous build, the cost counts as an increase. *)
Definition is_increase (request : CommitQuotaRequest) (nextBuild : WorkspaceBuild) (workspace : WorkspaceTable) : DB bool :=
  db_read (fun d =>
    match GetWorkspaceBuildByWorkspaceIDAndBuildNumber (ws_ID workspace) (wraps 32 (wb_BuildNumber nextBuild - 1)) d with
    | Ok prevBuild => Ok (wb_DailyCost prevBuild <=? cq_DailyCost request)
    | Err e => if String.eqb e ErrNoRows then Ok true else Err e
    end).

(** The permit, what is consumed and the budget. *)
Definition commit_tx (request : CommitQuotaRequest) (nextBuild : WorkspaceBuild) (workspace : WorkspaceTable) : DB (bool * Z * Z) :=
  consumed ← db_read (fun d => Ok (GetQuotaConsumedForUser (ws_OwnerID workspace) (ws_OrganizationID workspace) d));
  budget ← db_read (fun _ => GetQuotaAllowanceForUser (ws_OwnerID workspace) (ws_OrganizationID workspace) a);
  netIncrease ← is_increase request nextBuild workspace;
  let newConsumed := cq_DailyCost request + consumed in
  if (budget <? newConsumed) && netIncrease then mret (false, consumed, budget)
  else
    _ ← UpdateWorkspaceBuildCostByID (wb_ID nextBuild) (cq_DailyCost request);
    mret (true, newConsumed, budget).

Definition committer_CommitQuota (request : CommitQuotaRequest) : DB CommitQuotaResponse :=
  jobID ← db_read (fun _ => uuid_Parse (cq_JobId request));
  nextBuild ← db_read (GetWorkspaceBuildByJobID jobID);
  workspace ← db_read (getWorkspaceByIDNoLock (wb_WorkspaceID nextBuild));
  '(permit, consumed, budget) ← InTx (commit_tx request nextBuild workspace);
  mret (mkCommitQuotaResponse permit (wraps 32 consumed) (wraps 32 budget)).

(** [workspaceQuota], with a license for groups or without: consumed credits and budget. *)
Definition workspaceQuota (licensed : bool) (userID organizationID : uuid) (d : Data) : result (Z * Z) :=
  quotaAllowance ← if licensed then GetQuotaAllowanceForUser userID organizationID a else Ok (-1);
  Ok (GetQuotaConsumedForUser userID organizationID d, quotaAllowance).
End Committer.

(** ** The runner *)

Fixpoint sumDailyCost (resources : list ProtoResource) : Z :=
  match resources with [] => 0 | r :: resources => pr_DailyCost r + sumDailyCost resources end.

(** The runner's [commitQuota] on what the server's does: the error of the job that
    fails, if it does.  Its logs are left out. *)
Definition runner_commitQuota (CommitQuota : CommitQuotaRequest -> SM CommitQuotaResponse) (jobId : string) (resources : list ProtoResource)
    : SM (option string) :=
  let cost := sumDailyCost resources in
  if cost =? 0 then mret None
  else
    resp ← try (CommitQuota (mkCommitQuotaRequest jobId (wraps 32 cost)));
    mret (match resp with
          | Err e => Some ("commit quota: " +:+ e)
          | Ok resp => if negb (cr_Ok resp) then Some "insufficient quota" else None
          end).

(** * Theorems *)

(** ** What is consumed *)

Lemma last_build_loop_app id l b acc :
  last_build_loop id (l ++ [b]) acc =
  let last := last_build_loop id l acc in
  if negb (wb_WorkspaceID b =? id)%N then last
  else if After (wb_CreatedAt b) (match last with Some x => wb_CreatedAt x | None => zeroTime end) then Some b else last.
Proof. revert acc. induction l as [|x l IH]; intros acc; [done|]. apply IH. Qed.

Lemma last_build_loop_in id l acc b : last_build_loop id l acc = Some b -> acc = Some b \/ (b ∈ l /\ wb_WorkspaceID b = id).
Proof.
  revert acc. induction l as [|x l IH]; intros acc Hb; [by left|]. cbn [last_build_loop] in Hb. apply IH in Hb as [Hb|[Hb ?]].
  - destruct (N.eqb_spec (wb_WorkspaceID x) id); cbn [negb] in Hb; [|by left].
    destruct (After _ _); [|by left]. injection Hb as ->. right. split; [by left|done].
  - right. split; [by right|done].
Qed.

(** A build that is later than the others of its workspace is its last. *)
Lemma last_build_latest id l b :
  wb_WorkspaceID b = id -> zero_ns < t_ns (wb_CreatedAt b) ->
  (forall x, x ∈ l -> wb_WorkspaceID x = id -> t_ns (wb_CreatedAt x) < t_ns (wb_CreatedAt b)) ->
  last_build_loop id (l ++ [b]) None = Some b.
Proof.
  intros Hid Hz Hl. rewrite last_build_loop_app, Hid, N.eqb_refl. cbn [negb]. unfold After.
  destruct (last_build_loop id l None) as [x|] eqn:E.
  - apply last_build_loop_in in E as [[=]|[Hx Hw]]. specialize (Hl x Hx Hw). by destruct (Z.ltb_spec (t_ns (wb_CreatedAt x)) (t_ns (wb_CreatedAt b))); [|lia].
  - change (t_ns zeroTime) with zero_ns. by destruct (Z.ltb_spec zero_ns (t_ns (wb_CreatedAt b))); [|lia].
Qed.

Lemma last_build_other id l b : wb_WorkspaceID b <> id -> last_build_loop id (l ++ [b]) None = last_build_loop id l None.
Proof. intros Hb. rewrite last_build_loop_app. by apply N.eqb_neq in Hb as ->. Qed.

(** The consumption changes by that of the one workspace whose last build changes. *)
Lemma consumed_loop_change o g l l' ws0 wss :
  NoDup (ws_ID <$> wss) -> ws0 ∈ wss ->
  (forall id, id <> ws_ID ws0 -> last_build_loop id l' None = last_build_loop id l None) ->
  consumed_loop o g l' wss = consumed_loop o g l wss +
    (if counts o g ws0 then build_cost (last_build_loop (ws_ID ws0) l' None) - build_cost (last_build_loop (ws_ID ws0) l None) else 0).
Proof.
  intros Hnd Hin Hl.
  assert (Hout : forall wss, ws_ID ws0 ∉ ws_ID <$> wss -> consumed_loop o g l' wss = consumed_loop o g l wss).
  { clear -Hl. induction wss as [|w wss IH]; [done|]. cbn [fmap list_fmap consumed_loop]. rewrite not_elem_of_cons. intros [Hw Ho].
    rewrite (IH Ho), Hl by congruence. done. }
  induction wss as [|w wss IH]; [by apply not_elem_of_nil in Hin|]. cbn [fmap list_fmap consumed_loop] in *. apply NoDup_cons in Hnd as [Hw Hnd].
  apply elem_of_cons in Hin as [<-|Hin].
  - rewrite (Hout wss Hw). destruct (counts o g ws0); lia.
  - rewrite (IH Hnd Hin), (Hl (ws_ID w)); [destruct (counts o g w), (counts o g ws0); lia|].
    intros E. apply Hw. rewrite E. by apply list_elem_of_fmap_2.
Qed.

(** ** A build and its commit *)

Section Enforced.
Context `{UuidText} `{UuidParse} (a : AuthData).

(** [b] is the next build of the workspace [ws] of a store: its last one has the
    number before, is older, and is done with, as nothing else is being built. *)
Record next_build (b : WorkspaceBuild) (ws : WorkspaceTable) (d : Data) : Prop := {
  nb_workspace : ws ∈ workspaces d /\ ws_ID ws = wb_WorkspaceID b /\ ws_Deleted ws = false;
  nb_workspaces : NoDup (ws_ID <$> workspaces d);
  nb_fresh b' : b' ∈ workspaceBuilds d -> wb_ID b' <> wb_ID b /\ wb_JobID b' <> wb_JobID b;
  nb_time : zero_ns < t_ns (wb_CreatedAt b);
  nb_later b' : b' ∈ workspaceBuilds d -> wb_WorkspaceID b' = ws_ID ws -> t_ns (wb_CreatedAt b') < t_ns (wb_CreatedAt b);
  nb_number : 0 < wb_BuildNumber b < 2 ^ 31;
  nb_last : GetWorkspaceBuildByWorkspaceIDAndBuildNumber (ws_ID ws) (wb_BuildNumber b - 1) d =
            or_no_rows (last_build_loop (ws_ID ws) (workspaceBuilds d) None);
  nb_cost : wb_DailyCost b = 0;
  nb_costs b' : b' ∈ workspaceBuilds d -> 0 <= wb_DailyCost b';
}.

Section Next.
Context (b : WorkspaceBuild) (ws : WorkspaceTable) (d : Data) (Hb : next_build b ws d).
Abbreviation builds := (workspaceBuilds d).
Abbreviation last := (last_build_loop (ws_ID ws) builds None).

Lemma next_find (p : WorkspaceBuild -> bool) b' :
  (forall x, x ∈ builds -> p x = false) -> p b' = true -> find_first p (builds ++ [b']) = Some b'.
Proof.
  intros Hp Hb'. rewrite find_first_app_l; [simpl; by rewrite Hb'|]. apply Forall_forall. exact Hp.
Qed.

Lemma next_job : GetWorkspaceBuildByJobID (wb_JobID b) (InsertWorkspaceBuild b d).1 = Ok b.
Proof.
  unfold GetWorkspaceBuildByJobID. change (workspaceBuilds (InsertWorkspaceBuild b d).1) with (builds ++ [b]).
  rewrite (next_find _ b); [done| |apply N.eqb_refl]. intros x Hx. apply N.eqb_neq, (nb_fresh b ws d Hb x Hx).
Qed.

Lemma workspace_by_id : getWorkspaceByIDNoLock (wb_WorkspaceID b) d = Ok ws.
Proof.
  destruct (nb_workspace b ws d Hb) as (Hin & Hid & _). unfold getWorkspaceByIDNoLock, getWorkspaceNoLock. rewrite <- Hid. apply list_elem_of_split in Hin as (l1 & l2 & E).
  enough (Hf : find_first (fun w => (ws_ID w =? ws_ID ws)%N) (workspaces d) = Some ws) by (by rewrite Hf).
  apply find_first_split. exists l1, l2. split; [done|]. split; [apply N.eqb_refl|].
  pose proof (nb_workspaces b ws d Hb) as Hnd. rewrite E, fmap_app, fmap_cons in Hnd. apply NoDup_app in Hnd as (_ & Hout & _).
  apply Forall_forall. intros w Hw. apply N.eqb_neq. intros Ew. apply (Hout (ws_ID w)); [by apply list_elem_of_fmap_2|]. rewrite Ew. by left.
Qed.

Lemma next_previous :
  GetWorkspaceBuildByWorkspaceIDAndBuildNumber (ws_ID ws) (wraps 32 (wb_BuildNumber b - 1)) (InsertWorkspaceBuild b d).1 = or_no_rows last.
Proof.
  pose proof (nb_number b ws d Hb) as Hn. rewrite wraps_id by lia. rewrite <- (nb_last b ws d Hb).
  unfold GetWorkspaceBuildByWorkspaceIDAndBuildNumber. change (workspaceBuilds (InsertWorkspaceBuild b d).1) with (builds ++ [b]).
  f_equal. apply find_first_app_none. apply andb_false_iff. right. lia.
Qed.

(** What the store's owner consumes when the next build costs [c]. *)
Definition with_cost (c : Z) : Data := set_builds (builds ++ [b{{ wb_DailyCost := c }}]) d.

Lemma next_update c : UpdateWorkspaceBuildCostByID (wb_ID b) c (InsertWorkspaceBuild b d).1 = (with_cost c, Ok tt).
Proof.
  unfold UpdateWorkspaceBuildCostByID, update_table, mbind, DB_bind. change (workspaceBuilds (InsertWorkspaceBuild b d).1) with (builds ++ [b]).
  rewrite (proj2 (update_first_split _ (fun b => b{{ wb_DailyCost := c }}) _ (b{{ wb_DailyCost := c }}) (builds ++ [b{{ wb_DailyCost := c }}]))); [done|].
  exists builds, b, []. split; [done|]. split; [apply N.eqb_refl|]. split; [|done].
  apply Forall_forall. intros x Hx. apply N.eqb_neq, (nb_fresh b ws d Hb x Hx).
Qed.

Lemma inserted_with_cost : (InsertWorkspaceBuild b d).1 = with_cost 0.
Proof. unfold with_cost, InsertWorkspaceBuild. rewrite <- (nb_cost b ws d Hb). by destruct b. Qed.

Lemma consumed_with_cost o g c :
  GetQuotaConsumedForUser o g (with_cost c) = GetQuotaConsumedForUser o g d + (if counts o g ws then c - build_cost last else 0).
Proof.
  destruct (nb_workspace b ws d Hb) as (Hin & Hid & _). unfold GetQuotaConsumedForUser. change (workspaces (with_cost c)) with (workspaces d).
  change (workspaceBuilds (with_cost c)) with (builds ++ [b{{ wb_DailyCost := c }}]).
  rewrite (consumed_loop_change o g builds (builds ++ [b{{ wb_DailyCost := c }}]) ws _ (nb_workspaces b ws d Hb) Hin).
  - rewrite (last_build_latest (ws_ID ws) builds (b{{ wb_DailyCost := c }})); [done|by rewrite Hid|apply (nb_time b ws d Hb)|].
    exact (nb_later b ws d Hb).
  - intros id Hne. apply last_build_other. rewrite Hid in Hne. exact (not_eq_sym Hne).
Qed.
End Next.

(** C10: a budget is kept while builds do not overlap.  When the next build of a workspace
    is inserted and its cost committed, with nothing in between, the commit ends without error: it is permitted if what the
    owner consumes with the new cost in the organization is within the budget, or
    if the build costs less than the last one; its answer is the budget and
    what the owner then consumes, as 32-bit numbers; a permitted commit sets the build's cost and a refused one
    changes nothing; an owner within the budget before the build is within it after; and
    nobody else's consumption, nor the owner's in another organization, has changed.
    The next build ([next_build]) is that of a workspace that is not deleted, has identifiers no
    build has, is later than the workspace's builds and has the number after that of its last one; identifiers of
    workspaces are unique, no build costs less than nothing, and the
    organization has its group for everyone, so that there is a budget. *)
Theorem quota_enforced request b ws d budget :
  let owner := ws_OwnerID ws in
  let org := ws_OrganizationID ws in
  let last := last_build_loop (ws_ID ws) (workspaceBuilds d) None in
  let used := GetQuotaConsumedForUser owner org in
  next_build b ws d -> uuid_Parse (cq_JobId request) = Ok (wb_JobID b) ->
  GetQuotaAllowanceForUser owner org a = Ok budget ->
  let permit := (used d - build_cost last + cq_DailyCost request <=? budget)
                || match last with Some prev => cq_DailyCost request <? wb_DailyCost prev | None => false end in
  exists d', committer_CommitQuota a request (InsertWorkspaceBuild b d).1 =
      (d', Ok (mkCommitQuotaResponse permit (wraps 32 (used d')) (wraps 32 budget))) /\
    d' = set_builds (workspaceBuilds d ++ [b{{ wb_DailyCost := if permit then cq_DailyCost request else 0 }}]) d /\
    used d' = used d - build_cost last + (if permit then cq_DailyCost request else 0) /\
    (used d <= budget -> used d' <= budget) /\
    (forall o g, (o, g) <> (owner, org) -> GetQuotaConsumedForUser o g d' = GetQuotaConsumedForUser o g d).
Proof.
  intros owner org last used Hb Hj Ha permit.
  assert (Hown : counts owner org ws = true).
  { unfold counts, owner, org. rewrite !N.eqb_refl. by destruct (nb_workspace b ws d Hb) as (_ & _ & ->). }
  assert (Hused : forall c, used (with_cost b d c) = used d - build_cost last + c).
  { intros c. unfold used. rewrite (consumed_with_cost b ws d Hb), Hown. unfold last. lia. }
  assert (Hcommit : commit_tx a request b ws (InsertWorkspaceBuild b d).1 =
      (with_cost b d (if permit then cq_DailyCost request else 0),
       Ok (permit, used (with_cost b d (if permit then cq_DailyCost request else 0)), budget))).
  { unfold commit_tx, is_increase, db_read, mbind, DB_bind. fold owner org. rewrite Ha, (next_previous b ws d Hb). fold last.
    change (GetQuotaConsumedForUser owner org (InsertWorkspaceBuild b d).1) with (used (InsertWorkspaceBuild b d).1).
    replace (used (InsertWorkspaceBuild b d).1) with (used d - build_cost last) by (rewrite (inserted_with_cost b ws d Hb), Hused; lia).
    assert (Hnew : cq_DailyCost request + (used d - build_cost last) = used (with_cost b d (cq_DailyCost request))) by (rewrite Hused; lia).
    assert (Hperm : permit = negb ((budget <? cq_DailyCost request + (used d - build_cost last)) &&
        match last with Some prev => wb_DailyCost prev <=? cq_DailyCost request | None => true end)).
    { unfold permit. destruct last; lia. }
    assert (Hout : (with_cost b d (if permit then cq_DailyCost request else 0),
         Ok (permit, used (with_cost b d (if permit then cq_DailyCost request else 0)), budget)) =
      (if negb permit then ((InsertWorkspaceBuild b d).1, Ok (false, used d - build_cost last, budget))
       else (with_cost b d (cq_DailyCost request), Ok (true, used (with_cost b d (cq_DailyCost request)), budget)))).
    { destruct permit; [done|]. cbn [negb]. rewrite (inserted_with_cost b ws d Hb), Hused. do 4 f_equal. lia. }
    rewrite Hout, Hperm, negb_involutive. clear Hout Hperm. unfold or_no_rows. 
    destruct last as [prev|]; cbv zeta; rewrite ?String.eqb_refl; cbv beta iota; (destruct (_ && _); [done|]); by rewrite (next_update b ws d Hb), Hnew. }
  exists (with_cost b d (if permit then cq_DailyCost request else 0)). split; [|split; [done|split; [apply Hused|split]]].
  - unfold committer_CommitQuota, InTx. unfold mbind at 1, DB_bind at 1, db_read at 1. rewrite Hj. unfold mbind at 1, DB_bind at 1, db_read at 1.
    rewrite (next_job b ws d Hb). unfold mbind at 1, DB_bind at 1, db_read at 1.
    change (getWorkspaceByIDNoLock (wb_WorkspaceID b) (InsertWorkspaceBuild b d).1) with (getWorkspaceByIDNoLock (wb_WorkspaceID b) d).
    rewrite (workspace_by_id b ws d Hb). unfold mbind at 1, DB_bind at 1. by rewrite Hcommit.
  - rewrite Hused. assert (Hlast : match last with Some prev => 0 <= wb_DailyCost prev | None => True end).
    { destruct last as [prev|] eqn:E; [|done]. apply last_build_loop_in in E as [[=]|[Hin _]]. by apply (nb_costs b ws d Hb). }
    unfold permit. destruct last as [prev|]; cbn [build_cost] in *; destruct (_ || _) eqn:Ep; lia.
  - intros o g Hne. rewrite (consumed_with_cost b ws d Hb).
    replace (counts o g ws) with false; [lia|]. symmetry. unfold counts. fold owner org.
    destruct (N.eqb_spec owner o) as [<-|], (N.eqb_spec org g) as [<-|]; done.
Qed.
End Enforced.

(** ** Examples *)

Module Examples.
#[local] Existing Instance Rbac.Examples.text.
#[local] Existing Instance Lifecycle.Examples.parse.

Definition at_hour (n : Z) : Time := mkTime (n * Hour) UTC.
Definition build_of (id workspaceID : uuid) (number cost : Z) : WorkspaceBuild :=
  mkBuild id (at_hour (Z.of_N id)) (at_hour (Z.of_N id)) workspaceID 30 number TransitionStart 7 (id + 100) zeroTime ReasonInitiator zeroTime [] cost.
(** A user who may spend 20 in organization 5 and spends 10 on each of two workspaces. *)
Definition groups : AuthData := mkAuthData [] [mkMember 7 5 zeroTime zeroTime []] [mkGroup 5 5 20] [] [] [] [] [].
Definition store : Data :=
  emptyData{{ workspaces := [example_workspace 1; example_workspace 2]; workspaceBuilds := [build_of 11 1 1 10; build_of 12 2 1 10] }}.
Definition commit (job : string) (cost : Z) (d : Data) : Data * result CommitQuotaResponse :=
  committer_CommitQuota groups (mkCommitQuotaRequest job cost) d.
Definition used (d : Data) : Z := GetQuotaConsumedForUser 7 5 d.

Lemma next_of_store : next_build (build_of 13 1 2 0) (example_workspace 1) store.
Proof.
  split; try done.
  - split; [by left|done].
  - by apply (bool_decide_unpack _); vm_compute.
  - intros b' [-> |[-> |[]%elem_of_nil]%elem_of_cons]%elem_of_cons; done.
  - intros b' [-> |[-> |[]%elem_of_nil]%elem_of_cons]%elem_of_cons; done.
  - intros b' [-> |[-> |[]%elem_of_nil]%elem_of_cons]%elem_of_cons; done.
Qed.

(** Builds that overlap spend more than the budget: while both are being planned
    neither counts, and the one whose cost is less than that of the build before
    is not checked. *)
Lemma overlapping_builds_exceed_budget :
  let '(d1, r1) := commit "114" 20 (store{{ workspaceBuilds ::= fun l => l ++ [build_of 13 1 2 0; build_of 14 2 2 0] }}) in
  let '(d2, r2) := commit "113" 9 d1 in
  (used store, r1, r2, used d2) =
    (20, Ok (mkCommitQuotaResponse true 20 20), Ok (mkCommitQuotaResponse true 29 20), 29).
Proof. vm_compute. reflexivity. Qed.

(** A build that is refused counts for nothing, though what its workspace's last build
    made is still there: another workspace may then spend it. *)
Lemma refused_build_frees_budget :
  let '(d1, r1) := commit "113" 15 (store{{ workspaceBuilds ::= fun l => l ++ [build_of 13 1 2 0] }}) in
  let '(d2, r2) := commit "114" 20 (d1{{ workspaceBuilds ::= fun l => l ++ [build_of 14 2 2 0] }}) in
  (r1, r2) = (Ok (mkCommitQuotaResponse false 10 20), Ok (mkCommitQuotaResponse true 20 20)).
Proof. vm_compute. reflexivity. Qed.

(** The groups of another organization add to the budget. *)
Lemma other_organization_allowance :
  let a := groups{{ a_groups ::= fun l => l ++ [mkGroup 60 6 1000] }} in
  GetQuotaAllowanceForUser 7 5 (a{{ a_groupMembers := [mkGroupMember 7 60] }}) = Ok 1020.
Proof. vm_compute. reflexivity. Qed.

Definition resource (cost : Z) : ProtoResource := mkProtoResource "r" "t" [] [] false "" "" cost "".

(** A sum of costs beyond 32 bits is a negative cost, which any budget permits. *)
Lemma cost_wraps :
  let st := mkSt (store{{ workspaceBuilds ::= fun l => l ++ [build_of 13 1 2 0] }}) [] 0 in
  let '(st', r) := runner_commitQuota (fun request => db (committer_CommitQuota groups request)) "113" [resource (2 ^ 30); resource (2 ^ 30)] st in
  (r, used (st_data st')) = (Ok None, 10 - 2 ^ 31).
Proof. vm_compute. reflexivity. Qed.

(** The theorem's premises hold of a second build of the first workspace that costs as much as
    the first: it is permitted, and the budget is spent. *)
Lemma quota_enforced_witness :
  exists d', commit "113" 10 (InsertWorkspaceBuild (build_of 13 1 2 0) store).1 = (d', Ok (mkCommitQuotaResponse true 20 20)) /\ used d' = 20.
Proof.
  assert (Hj : uuid_Parse (cq_JobId (mkCommitQuotaRequest "113" 10)) = Ok (wb_JobID (build_of 13 1 2 0))) by (vm_compute; reflexivity).
  assert (Ha : GetQuotaAllowanceForUser (ws_OwnerID (example_workspace 1)) (ws_OrganizationID (example_workspace 1)) groups = Ok 20) by (vm_compute; reflexivity).
  destruct (quota_enforced groups (mkCommitQuotaRequest "113" 10) (build_of 13 1 2 0) (example_workspace 1) store 20 next_of_store Hj Ha)
    as (d' & Hc & Hd & Hu & _ & _).
  exists d'. unfold commit. rewrite Hc. cbn [ws_OwnerID ws_OrganizationID] in Hu. split; [|exact Hu].
  assert (E : GetQuotaConsumedForUser (ws_OwnerID (example_workspace 1)) (ws_OrganizationID (example_workspace 1)) d' = 20) by exact Hu.
  rewrite E. reflexivity.
Defined.
End Examples.
